(* ===== verification/_CoqProject ===== *)
-Q . S2P
Prelude.v
PyData.v
Calendar.v
Regex.v
Validation.v
ValidationProps.v
UrlSplit.v
FrozenJson.v
FrozenJsonSpec.v
FrozenJsonProps.v
JsonText.v
JsonLoads.v
JsonLoadsProps.v
RpcProtocol.v
RpcProtocolProps.v
RpcService.v
ClientEvents.v
RpcClient.v
RpcClientProps.v
StdioWriter.v
StdioReader.v
RpcServiceProps.v
RpcSystem.v
Decisions.v
DecisionsProps.v
PayerPolicy.v
Operator.v
Runs.v
RunArtifacts.v
Discovery.v
InferenceLease.v
InferenceLeaseProps.v
ComputerUse.v
ComputerUseProps.v
ComputerSession.v
Outcome.v
Acquisition.v
AcquisitionProps.v
HumanControl.v
HumanControlProps.v
Aead.v
AeadProps.v
Signals.v
Features.v
SetupOrder.v
SetupOrderProps.v
FeaturesProps.v
ToolResults.v
ToolResultsProps.v
DeferredTools.v
DeferredToolsProps.v
IpAddress.v
Outbound.v
OutboundProps.v
OutboundUrl.v
KeySalt.v
KeySaltProps.v
Encryption.v
EncryptionProps.v
Supervisor.v
SupervisorSteps.v
SupervisorInv.v
SupervisorProps.v
SupervisorConfig.v
ToolSchema.v
ToolSchemaProps.v
CommandLine.v
CommandLineProps.v
Artifacts.v
ArtifactsProps.v
Privacy.v
