(* ===== verification/Prelude.v ===== *)
(** * Kestrel Sovereign SDK: verification development

    The SDK is the contract layer between a sovereign agent host and the code
    it does not trust with its own state: feature packages (in process, or
    isolated in a child process), model and inference providers, operators'
    consoles, drivers of remote computers.  It consists mostly of records whose
    constructors refuse what the contract forbids, and of a few engines with
    real concurrency.  This library models both, file by file, from the Python
    sources under [src/kestrel_sdk/].

    ** How the code is represented

    A call that may raise returns [Prelude.result] ([Ok] or [Raise] of a
    [PyData.exn]); text is a list of code points ([pystr]), which may hold lone
    surrogates; an argument of unknown type is a [dyn]; caller-owned JSON and
    exception graphs live in a store of objects with identity, so sharing,
    aliasing and cycles are there.  Concurrent code is a function
    [step : event -> state -> option state] (or an inductive relation where the
    environment chooses more), one step for what runs between two points where
    the scheduler may switch; theorems about it hold for every reachable state
    or every trace.  Integers are unbounded as in Python; where the code counts
    bytes, digits or characters the bound is written out.

    ** Files and components

    - Shared: [Prelude] (result monad, loops, tactics, the hint databases
      [kestrel] and [len_rw]), [PyData] (values, exceptions, datetimes),
      [Calendar] (ISO text of datetimes), [Regex] (the fragment of [re] in
      use, matched by derivatives and proved against its language),
      [Validation]/[ValidationProps] ([_validation.py]), [UrlSplit]
      ([urllib.parse], IP syntax), [JsonText] ([json.dumps] and its
      injectivity), [JsonLoads]/[JsonLoadsProps] ([json.loads] and its round
      trip), [FrozenJson]/[FrozenJsonSpec]/[FrozenJsonProps]
      ([_frozen_json.py]: the bounded walk over a graph of objects against the
      relation [unfolds]).
    - Isolated features ([isolated_feature/]): [RpcProtocol] (frames,
      capabilities, payloads: [protocol.py]), [RpcService] (registration,
      dispatch, the serve loop: [service.py]), [StdioWriter] and [StdioReader]
      (its threads), [RpcClient] and [ClientEvents] (requests, read loop,
      fences, event delivery: [client.py]), [RpcSystem] (client and service
      joined by two byte streams), [Supervisor] and [SupervisorSteps] (the
      wrapper that starts, replaces and stops the child process: the rest of
      [client.py]).  Each has its theorems beside it in a [...Props] file or at
      its own end; [SupervisorInv] holds the supervisor's invariant,
      [SupervisorConfig] what it says of the child's settings.
    - Secrets and the network ([security/]): [Aead] (the version 2 container:
      [aead.py]), [KeySalt] (publication of the salt file by racing processes
      with crashes) and [Encryption] (keys, ciphers, agents and purposes:
      [encryption.py]), [IpAddress], [Outbound] and [OutboundUrl] (URL
      canonicalisation, address policy, pinned transport: [outbound.py]).
    - Operator plane ([operator/]): [Operator] (contexts, targets), [Runs] and
      [RunArtifacts] ([runs.py]), [Discovery].
    - Model providers ([llm/], [payer_policy.py]): [Decisions],
      [InferenceLease], [PayerPolicy].
    - Computer use ([resources.py], [computer_use/]): [ComputerUse],
      [ComputerSession], [Outcome], [Acquisition], [HumanControl].
    - Artifacts and storage: [Artifacts] (bundles, manifests and publication:
      [artifacts/models.py]), [Privacy] (the database a privacy mode stands
      for: [storage/database/privacy.py]).
    - Features and tools: [Signals], [Features], [SetupOrder] ([features/],
      [signals/]), [ToolResults], [DeferredTools] ([tools/]), [ToolSchema]
      (argument coercion and schemas) and [CommandLine] (command lines: both
      [tools/base.py]).

    ** What the theorems show

    - Exact characterisations: a validator or serializer accepts precisely
      what the contract says and returns precisely that: the deep-freeze,
      decision requests, contribution sets, setup-step ordering (the unique
      order that respects every edge and breaks ties by key), leases, human
      actions, capability negotiation, the address policy against a table of
      special-purpose networks, AEAD decryption against the set of encryptions.
    - Refinement: the threaded writer refines an abstract channel; a call on
      the client returns the answer of the handler that the service ran for
      that very call.
    - Invariants and safety of concurrent parts: calls end once; a request to
      the service ends once and is answered by one frame unless a send fails;
      fences after a restart or a failed transition are final;
      events keep their order; one tool publication; an acquisition is
      dispatched at most once whatever its hosts interleave; a salt granted
      for writing stays on disk through races and crashes; the supervisor
      never has two children alive, and a stop that succeeds leaves none.
    - Round trips: frames, results, canonical URLs read by a second parser,
      ciphertexts across later key-file reads, printed numbers as tool
      arguments, quoted values of a command line.
    - Termination and liveness: the deep-freeze and the JSON reader always
      return; a dead stream settles every call, a worker settles every drain,
      [serve] returns once it has stopped reading, because it cancels what is
      left.  Every command line is tokenized.
    - Errors: which exception each failure is, and what messages reveal.

    ** Abstract specifications

    [StdioWriter]'s channel, [FrozenJsonSpec.unfolds] with its measures,
    [SetupOrderProps]' ordered listings, [Regex.re_lang], the settled salts of
    [KeySaltProps], the set of public addresses in [OutboundProps], the pairing
    of calls and answers in [RpcSystem], the ownership of children in
    [SupervisorInv].

    ** Fuel

    [FrozenJson.freeze] descends at most the depth limit of its policy, and
    [JsonLoads] consumes one character at least per call: both are given
    enough fuel by their callers and are proved never to run out.  That is
    apart from the interpreter's own bound on nesting
    ([JsonLoads.max_nesting]), beyond which the reader and the writer of JSON
    text raise [RecursionError] as Python's do.  The setup
    ordering takes one step per registration; the outcome walk one per object
    it has not seen.

    ** Parameters

    Code outside the repository is an argument of the definitions that use it:
    SHA-256, PBKDF2 and HKDF, AES-GCM and Fernet (with deterministic
    encryption, tag length and authenticity as hypotheses), the NFC, NFKC,
    IDNA, case-folding, decimal-digit and alphanumeric tables, [repr] of a
    value (which may raise), [tempfile.mkstemp], [getaddrinfo] and the network backend,
    [datetime.fromisoformat], the interpreter's limits on the digits of an
    integer and on the nesting of JSON text ([JsonLoads.json_limits]), the
    iteration order of sets, [os.urandom], [expanduser], the durable row of an
    acquisition with its compare-and-swap, pydantic's field constraints, and
    the callbacks of features, which answer as the environment chooses.
    Hypotheses about them are named in the statement that needs them, and each
    such statement has a witness at a concrete instance.

    ** Not modelled

    - [native_a2a/]: a third-party protocol stack kept in the tree, with
      generated protobuf types.
    - Protocol classes and abstract bases without body ([computer_use/protocols.py],
      resolvers, providers, stores), feature base classes, the abstract
      [AgentTool] and hooks ([features/base.py], [hooks/]): no state of their
      own, or plain plugin registries.
    - The storage backends, delivery, workspaces, channels, timeline, outputs, training,
      voice, deploy, config and testing: data carriers, I/O adapters and test
      support.
    - Log messages, texts of exceptions beyond their constant part, traceback
      scrubbing, [__repr__] and [__hash__]; floating-point logarithms of
      [llm/decisions.py]; pydantic's own dump and load; the descriptor
      duplication of [run_stdio]; the counters of startup tasks in a retirement
      record, which nothing reads; [_retire_start_result_owned], which no
      execution reaches because [start] does not suspend after [_start]
      succeeded.
    - A cancellation of the service's [serve] from outside; the interpreter's
      recursion limit away from JSON text, exhausted memory, signals.

    ** Failures of the environment

    What the sources rely on may fail, and the models let it: system calls,
    processes and the host ([KeySalt]), writes and drains of either end of the
    connection ([RpcService.write_frame], [RpcService.drained],
    [RpcClient.open_request], [StdioWriter]), lines that are not frames, child
    processes that do not start or do not die ([Supervisor]), handlers that
    raise, never answer or are cancelled at any wait. *)

From Stdlib Require Export ZArith Lia Bool.
From stdpp Require Export base strings list option.

#[global] Open Scope Z_scope.

(** ** The result monad: a Python call returns a value or raises. *)

Inductive result (E A : Type) : Type :=
| Ok (a : A)
| Raise (e : E).
Arguments Ok {E A} a.
Arguments Raise {E A} e.

#[global] Instance result_ret {E} : MRet (result E) := fun A a => Ok a.
#[global] Instance result_bind {E} : MBind (result E) :=
  fun A B f m => match m with Ok a => f a | Raise e => Raise e end.
#[global] Instance result_fmap {E} : FMap (result E) :=
  fun A B f m => match m with Ok a => Ok (f a) | Raise e => Raise e end.

(** [if b: raise e] *)
Definition raise_if {E} (b : bool) (e : E) : result E unit :=
  if b then Raise e else Ok tt.

(** A generator or loop over [l] whose body may raise; the first exception
    stops it. *)
Fixpoint traverse {E A B} (f : A -> result E B) (l : list A) : result E (list B) :=
  match l with
  | [] => Ok []
  | x :: l' => y ← f x; ys ← traverse f l'; Ok (y :: ys)
  end.

(** A loop over [l] that updates a state and may raise. *)
Fixpoint foldM {E S A} (f : S -> A -> result E S) (s : S) (l : list A) : result E S :=
  match l with
  | [] => Ok s
  | x :: l' => s' ← f s x; foldM f s' l'
  end.

Definition is_Ok {E A} (m : result E A) : bool :=
  match m with Ok _ => true | Raise _ => false end.

(** ** Generic list functions *)

Fixpoint drop_while {A} (p : A -> bool) (l : list A) : list A :=
  match l with
  | [] => []
  | x :: l' => if p x then drop_while p l' else l
  end.

(** Python's [len]. *)
Definition len {A} (l : list A) : Z := Z.of_nat (length l).

(** [x in l] for a type with decidable equality. *)
Definition mem {A} `{EqDecision A} (x : A) (l : list A) : bool :=
  bool_decide (x ∈ l).

(** [len(set(l)) == len(l)] *)
Definition no_dup {A} `{EqDecision A} (l : list A) : bool :=
  bool_decide (NoDup l).

(** Split at every element that satisfies [p], which is dropped
    ([s.split(c)] on a one-character separator). *)
Fixpoint split_on {A} (p : A -> bool) (l : list A) : list (list A) :=
  match l with
  | [] => [[]]
  | x :: l' =>
      if p x then [] :: split_on p l'
      else match split_on p l' with
           | [] => [[x]]
           | w :: ws => (x :: w) :: ws
           end
  end.

(** ** Lemmas *)

Create HintDb kestrel.
Create Rewrite HintDb len_rw.

Lemma bind_Ok {E A B} (m : result E A) (f : A -> result E B) b :
  (m ≫= f) = Ok b <-> exists a, m = Ok a /\ f a = Ok b.
Proof.
  split; [|by intros (a & -> & H)].
  destruct m as [a|e]; cbn; [by exists a | done].
Qed.

Lemma bind_Raise {E A B} (m : result E A) (f : A -> result E B) e :
  (m ≫= f) = Raise e <-> m = Raise e \/ exists a, m = Ok a /\ f a = Raise e.
Proof.
  split; [|by intros [->|(a & -> & H)]].
  destruct m as [a|e']; cbn; intros H; [by right; exists a | left; congruence].
Qed.

Lemma raise_if_Ok {E} b (e : E) u : raise_if b e = Ok u <-> b = false.
Proof. by destruct b, u. Qed.

Lemma raise_if_Raise {E} b (e e' : E) : raise_if b e = Raise e' <-> b = true /\ e = e'.
Proof.
  unfold raise_if; destruct b; split; intros H.
  - by injection H.
  - by destruct H as [_ ->].
  - discriminate H.
  - by destruct H.
Qed.

Lemma mem_true {A} `{EqDecision A} (x : A) l : mem x l = true <-> x ∈ l.
Proof. apply bool_decide_eq_true. Qed.

Lemma mem_false {A} `{EqDecision A} (x : A) l : mem x l = false <-> x ∉ l.
Proof. apply bool_decide_eq_false. Qed.

Lemma existsb_false {A} (f : A -> bool) l : existsb f l = false <-> Forall (fun x => f x = false) l.
Proof. induction l as [|x l IH]; cbn; [by split|]. by rewrite orb_false_iff, IH, list.Forall_cons. Qed.

Lemma no_dup_true {A} `{EqDecision A} (l : list A) : no_dup l = true <-> NoDup l.
Proof. apply bool_decide_eq_true. Qed.

Lemma traverse_Ok {E A B} (f : A -> result E B) l ys :
  traverse f l = Ok ys <-> Forall2 (fun x y => f x = Ok y) l ys.
Proof.
  revert ys; induction l as [|x l IH]; intros ys; cbn.
  - split; [intros [= <-]; constructor | by inversion 1].
  - rewrite bind_Ok. split.
    + intros (y & Hy & H). apply bind_Ok in H as (ys' & Hys & [= <-]).
      constructor; [done | by apply IH].
    + inversion 1; subst. eexists; split; [done|].
      apply bind_Ok. eexists; split; [by apply IH | done].
Qed.

Lemma traverse_id_Ok {E A} (f : A -> result E A) l ys :
  (forall x y, f x = Ok y -> y = x) -> traverse f l = Ok ys -> ys = l.
Proof.
  intros Hf H. apply traverse_Ok in H.
  induction H as [|x y l ys Hxy _ IH]; [done|]. f_equal; eauto.
Qed.

(** Loop rule: [P] relates what was read to the state, [Q] the exceptions. *)
Lemma foldM_cases {E S A} (f : S -> A -> result E S) (P : list A -> S -> Prop) (Q : E -> Prop) l :
  forall pre s, P pre s ->
  (forall p x q s, pre ++ l = p ++ x :: q -> P p s ->
     match f s x with Ok s' => P (p ++ [x]) s' | Raise e => Q e end) ->
  match foldM f s l with Ok s' => P (pre ++ l) s' | Raise e => Q e end.
Proof.
  induction l as [|x l IH]; intros pre s HP Hstep; cbn; [by rewrite app_nil_r|].
  specialize (Hstep pre x l s eq_refl HP) as Hx. destruct (f s x) as [s1|e]; cbn; [|done].
  replace (pre ++ x :: l) with ((pre ++ [x]) ++ l) in * by by rewrite <- app_assoc. by apply IH.
Qed.

Lemma foldM_app {E S A} (f : S -> A -> result E S) s l k :
  foldM f s (l ++ k) = (s' ← foldM f s l; foldM f s' k).
Proof.
  revert s; induction l as [|x l IH]; intros s; cbn; [done|]. destruct (f s x) as [s1|e]; cbn; [apply IH|done].
Qed.

Lemma split_on_not_nil {A} (p : A -> bool) l : split_on p l <> [].
Proof. induction l; cbn; [done|]. destruct (p a); [done|]. by destruct (split_on p l). Qed.

(** A filter that every element passes. *)
(** A prefix without separators joins the first piece. *)
Lemma split_on_prefix {A} (p : A -> bool) w l : forallb (fun x => negb (p x)) w = true ->
  split_on p (w ++ l) = match split_on p l with [] => [w] | v :: vs => (w ++ v) :: vs end.
Proof.
  intros Hw. induction w as [|x w IH]; cbn [app split_on forallb] in *.
  - pose proof (split_on_not_nil p l). by destruct (split_on p l).
  - apply andb_true_iff in Hw as [Hx Hw]. apply negb_true_iff in Hx as ->. rewrite IH by done.
    by destruct (split_on p l).
Qed.

Lemma filter_id {A} (P : A -> Prop) {Pd : forall x, Decision (P x)} (l : list A) :
  (forall x, x ∈ l -> P x) -> base.filter P l = l.
Proof.
  induction l as [|x l IH]; intros H; [done|]. rewrite filter_cons_True by (apply H; by left).
  f_equal. apply IH. intros y Hy. apply H. by right.
Qed.

Lemma len_nonneg {A} (l : list A) : 0 <= len l.
Proof. unfold len; lia. Qed.

Lemma len_cons {A} (x : A) l : len (x :: l) = 1 + len l.
Proof. unfold len; cbn [length]; lia. Qed.

Lemma len_app {A} (l k : list A) : len (l ++ k) = len l + len k.
Proof. unfold len; rewrite length_app; lia. Qed.

Lemma len_nil {A} : len (@nil A) = 0.
Proof. done. Qed.

#[export] Hint Rewrite @len_cons @len_app @len_nil : len_rw.
#[export] Hint Resolve len_nonneg : kestrel.

(** Take apart hypotheses of the form [x ← m; k = Ok r] and
    [raise_if b e = Ok _], and conjunctions of booleans. *)
Ltac inv_ok :=
  repeat match goal with
  | H : Ok _ = Ok _ |- _ => injection H as H; subst
  | H : Raise _ = Ok _ |- _ => discriminate H
  | H : Ok _ = Raise _ |- _ => discriminate H
  | H : mret _ = Ok _ |- _ => unfold mret, result_ret in H
  | H : (_ ≫= _) = Ok _ |- _ =>
      let a := fresh "r" in let H1 := fresh "Hm" in
      apply bind_Ok in H as (a & H1 & H); try (match type of a with unit => destruct a end)
  | H : raise_if _ _ = Ok _ |- _ => apply raise_if_Ok in H
  end.

(** Take one step of a goal [x ← m; k = Ok r]: [tac] proves [m = Ok _]. *)
Ltac ok_step tac := apply bind_Ok; eexists; split; [solve [tac] | cbv beta].

(** The step of a guard whose condition is false. *)
Ltac ok_guard tac := apply bind_Ok; exists tt; split; [apply raise_if_Ok; solve [tac] | cbv beta].

(** Split boolean connectives in the context. *)
Ltac bool_hyps :=
  repeat match goal with
  | H : negb _ = true |- _ => apply negb_true_iff in H
  | H : negb _ = false |- _ => apply negb_false_iff in H
  | H : _ && _ = true |- _ => apply andb_true_iff in H as [? ?]
  | H : _ || _ = false |- _ => apply orb_false_iff in H as [? ?]
  | H : bool_decide _ = true |- _ => apply bool_decide_eq_true in H
  | H : bool_decide _ = false |- _ => apply bool_decide_eq_false in H
  | H : mem _ _ = true |- _ => apply mem_true in H
  | H : mem _ _ = false |- _ => apply mem_false in H
  | H : no_dup _ = true |- _ => apply no_dup_true in H
  | H : (_ <? _) = true |- _ => apply Z.ltb_lt in H
  | H : (_ <? _) = false |- _ => apply Z.ltb_ge in H
  | H : (_ <=? _) = true |- _ => apply Z.leb_le in H
  | H : (_ <=? _) = false |- _ => apply Z.leb_gt in H
  | H : (_ =? _) = true |- _ => apply Z.eqb_eq in H
  | H : (_ =? _) = false |- _ => apply Z.eqb_neq in H
  end.
