(* ===== verification/PyData.v ===== *)
(** * Python data

    The Python values the SDK's contracts manipulate: text, arguments of
    unknown dynamic type, exceptions, aware datetimes, decimals and floats.
    They are shared by every component. *)

From stdpp Require Import gmap sorting.
From Stdlib Require Import Ascii.
From S2P Require Export Prelude.

(** ** Text: a [str] is its sequence of code points. *)

Definition pystr := list Z.

(** ASCII literals. *)
Fixpoint u (s : string) : pystr :=
  match s with
  | EmptyString => []
  | String a s' => Z.of_N (N_of_ascii a) :: u s'
  end.

#[global] Arguments u : simpl never.

#[global] Instance pystr_eq_dec : EqDecision pystr.
Proof. unfold pystr; apply _. Defined.

#[global] Instance pystr_countable : Countable pystr.
Proof. unfold pystr; apply _. Defined.

Definition in_range (lo hi c : Z) : bool := (lo <=? c) && (c <=? hi).

Definition is_digit (c : Z) : bool := in_range 48 57 c.
Definition is_upper (c : Z) : bool := in_range 65 90 c.
Definition is_lower (c : Z) : bool := in_range 97 122 c.
Definition is_alnum (c : Z) : bool := is_digit c || is_upper c || is_lower c.

(** [str.isspace] of one code point (bidirectional type WS, B or S, or
    category Zs). *)
Definition is_space (c : Z) : bool :=
  in_range 9 13 c || in_range 28 32 c || (c =? 0x85) || (c =? 0xA0)
  || (c =? 0x1680) || in_range 0x2000 0x200A c || in_range 0x2028 0x2029 c
  || (c =? 0x202F) || (c =? 0x205F) || (c =? 0x3000).

(** [str.strip()] *)
Definition strip (s : pystr) : pystr :=
  rev (drop_while is_space (rev (drop_while is_space s))).

(** [str.lower()] on ASCII text. *)
Definition lower (s : pystr) : pystr :=
  (fun c => if is_upper c then c + 32 else c) <$> s.

(** [a <= b] on strings: code points in lexicographic order. *)
Fixpoint str_leb (a b : pystr) : bool :=
  match a, b with
  | [], _ => true
  | _ :: _, [] => false
  | x :: a', y :: b' => (x <? y) || ((x =? y) && str_leb a' b')
  end.

Definition str_le (a b : pystr) : Prop := str_leb a b = true.

#[global] Instance str_le_dec : RelDecision str_le.
Proof. intros a b. unfold str_le. apply _. Defined.

(** [sorted(values)] on a set of strings. *)
Definition sorted_tokens (values : gset pystr) : list pystr :=
  merge_sort str_le (elements values).

Definition is_ascii (s : pystr) : bool := forallb (fun c => in_range 0 127 c) s.

Definition is_surrogate (c : Z) : bool := in_range 0xD800 0xDFFF c.

(** [s.encode("utf-8")]: [None] for the [UnicodeEncodeError] on a lone
    surrogate. *)
Definition utf8_char (c : Z) : option (list Z) :=
  if c <? 0x80 then Some [c]
  else if c <? 0x800 then Some [0xC0 + c / 64; 0x80 + c mod 64]
  else if is_surrogate c then None
  else if c <? 0x10000 then
    Some [0xE0 + c / 4096; 0x80 + (c / 64) mod 64; 0x80 + c mod 64]
  else Some [0xF0 + c / 262144; 0x80 + (c / 4096) mod 64;
             0x80 + (c / 64) mod 64; 0x80 + c mod 64].

Fixpoint utf8 (s : pystr) : option (list Z) :=
  match s with
  | [] => Some []
  | c :: s' => b ← utf8_char c; bs ← utf8 s'; Some (b ++ bs)
  end.

(** ** Dynamic arguments

    An argument of a validated constructor, as the code's [isinstance]
    checks see it: an instance of the expected class or anything else. *)
Inductive dyn (A : Type) : Type :=
| Inst (a : A)
| Foreign.
Arguments Inst {A} a.
Arguments Foreign {A}.

(** [bool] is a subclass of [int]. *)
Inductive dynint : Type :=
| DInt (z : Z)
| DBool (b : bool)
| DNotInt.

(** An argument expected to be an iterable of [A]: [str] and [bytes] are
    iterable in Python but are refused by the code. *)
Inductive dyniter (A : Type) : Type :=
| Iter (l : list A)
| StrOrBytes
| NotIterable.
Arguments Iter {A} l.
Arguments StrOrBytes {A}.
Arguments NotIterable {A}.

(** An argument of type [bytes | str]. *)
Inductive text_or_bytes : Type := Bytes (b : list Z) | Str (s : pystr).

(** ** Exceptions

    Static messages are kept in full; the values an f-string interpolates
    are left out. *)
Inductive exn : Type :=
| TypeError (m : string)
| ValueError (m : string)
| OverflowError (m : string)
| JSONTypeError (rule m : string)
| JSONLimitError (rule m : string)
| OperatorAuthorizationError (m : string)
| RunNotFoundError (m : string)
| InferenceLeaseConstraintError (m : string)
| InferenceLeaseOwnershipError (m : string)
| ResourceConflict (m : string)
| ResourceNotFound (m : string)
| ValidationError (m : string)
| UnsupportedCombinationError (m : string)
| DecisionRequestInvalid (rule m : string)
| DecryptionError (m : string)
| ProtocolError (m : string)
| JSONDecodeError (m : string)
| UnicodeDecodeError (m : string)
| RuntimeError (m : string)
| ConnectionError (m : string)
| AttributeError (m : string)
| KeyError (m : string)
| ContributionContractError (m : string)
| SSRFError (m : string)
| MasterKeyNotConfiguredError (m : string)
| KeyFileSaltUnavailableError (m : string)
| InvalidPurposeError (m : string)
| OSError (m : string)
| FileExistsError (m : string)
| FileNotFoundError (m : string)
| CommandParseError (m : string)
| RecursionError (m : string)
| FuelExhausted.

#[global] Instance exn_eq_dec : EqDecision exn.
Proof. solve_decision. Defined.

(** [isinstance(e, ValueError)] and [isinstance(e, TypeError)], following
    the class statements of the source. *)
Definition is_ValueError (e : exn) : bool :=
  match e with
  | ValueError _ | JSONLimitError _ _ | InferenceLeaseConstraintError _
  | ValidationError _ | DecisionRequestInvalid _ _ | ProtocolError _
  | JSONDecodeError _ | UnicodeDecodeError _ | SSRFError _ | CommandParseError _ => true
  | _ => false
  end.

Definition is_TypeError (e : exn) : bool :=
  match e with TypeError _ | JSONTypeError _ _ | ContributionContractError _ => true | _ => false end.

(** [isinstance(e, OSError)] *)
Definition is_OSError (e : exn) : bool :=
  match e with
  | OSError _ | FileExistsError _ | FileNotFoundError _ | ConnectionError _ => true
  | _ => false
  end.

Abbreviation res := (result exn).

(** ** Datetimes

    [dt_wall] counts the microseconds of the wall clock from
    0001-01-01T00:00:00; [dt_zone] is the identity of the [tzinfo] object and
    [dt_off] is [utcoffset()] in microseconds ([None] for a naive value). *)
Record datetime := Datetime { dt_wall : Z; dt_zone : option positive; dt_off : option Z }.

#[global] Instance datetime_eq_dec : EqDecision datetime.
Proof. solve_decision. Defined.

Definition second_us : Z := 1000000.
Definition minute_us : Z := 60 * second_us.
Definition hour_us : Z := 3600 * second_us.
Definition day_us : Z := 86400 * second_us.

(** [datetime.max] is the last microsecond of 9999-12-31. *)
Definition dt_max_wall : Z := 3652059 * day_us - 1.

(** The [datetime.timezone.utc] object. *)
Definition utc_zone : positive := 1%positive.
Definition utc_datetime (wall : Z) : datetime := Datetime wall (Some utc_zone) (Some 0).

(** The instant on the UTC line. *)
Definition instant (d : datetime) : Z := dt_wall d - default 0 (dt_off d).

(** Subtraction and order of aware values: on values with the same [tzinfo]
    object the wall clocks are compared, offsets are ignored; otherwise the
    instants are. *)
Definition dt_sub (a b : datetime) : Z :=
  if decide (dt_zone a = dt_zone b) then dt_wall a - dt_wall b else instant a - instant b.

Definition dt_ltb (a b : datetime) : bool := dt_sub a b <? 0.
Definition dt_leb (a b : datetime) : bool := dt_sub a b <=? 0.

(** [==]; the exception Python makes for repeated local times is not
    modelled. *)
Definition dt_eqb (a b : datetime) : bool := dt_sub a b =? 0.

(** [value.tzinfo is None or value.utcoffset() is None] *)
Definition is_naive (d : datetime) : bool := negb (bool_decide (is_Some (dt_off d))).

(** The two values use one offset where they share a [tzinfo] object: always
    so for fixed-offset zones such as UTC. *)
Definition same_clock (a b : datetime) : Prop := dt_zone a = dt_zone b -> dt_off a = dt_off b.

Lemma dt_sub_same_clock a b : same_clock a b -> dt_sub a b = instant a - instant b.
Proof.
  unfold same_clock, dt_sub, instant. intros H. case_decide as Hz; [|done].
  rewrite (H Hz). lia.
Qed.

(** [value.astimezone(UTC)] of an aware value; [None] for the
    [OverflowError]. *)
Definition astimezone_utc (d : datetime) : option datetime :=
  if decide (dt_zone d = Some utc_zone) then Some d
  else
    let i := instant d in
    if (0 <=? i) && (i <=? dt_max_wall) then Some (utc_datetime i) else None.

(** ** Decimals: a sign, a coefficient and an exponent, or a special value. *)
Inductive decimal : Type :=
| DecFin (neg : bool) (coef : Z) (expo : Z)
| DecInf (neg : bool)
| DecNaN.

#[global] Instance decimal_eq_dec : EqDecision decimal.
Proof. solve_decision. Defined.

Definition dec_is_finite (d : decimal) : bool :=
  match d with DecFin _ _ _ => true | _ => false end.

(** The value of a finite decimal scaled by [10^k]. *)
Definition dec_scaled (k : Z) (d : decimal) : Z :=
  match d with
  | DecFin neg coef expo => (if neg then -1 else 1) * coef * 10 ^ (expo + k)
  | _ => 0
  end.

(** A scale that makes both operands integral. *)
Definition dec_shift (a b : decimal) : Z :=
  match a, b with
  | DecFin _ _ e1, DecFin _ _ e2 => Z.max 0 (Z.max (- e1) (- e2))
  | _, _ => 0
  end.

(** [a <= b] and [a < b] on finite decimals. *)
Definition dec_leb (a b : decimal) : bool :=
  let k := dec_shift a b in dec_scaled k a <=? dec_scaled k b.
Definition dec_ltb (a b : decimal) : bool := negb (dec_leb b a).

Definition dec_zero : decimal := DecFin false 0 0.

(** ** Floats

    A finite float is represented by its shortest round-trip decimal
    [(-1)^neg * coef * 10^expo], the digits [repr] prints; [coef] has no
    trailing zero unless it is zero. *)
Inductive pyfloat : Type :=
| FFin (neg : bool) (coef : Z) (expo : Z)
| FInf (neg : bool)
| FNaN.

#[global] Instance pyfloat_eq_dec : EqDecision pyfloat.
Proof. solve_decision. Defined.

Definition isfinite (f : pyfloat) : bool :=
  match f with FFin _ _ _ => true | _ => false end.

(** Decimal digits of a non-negative integer, most significant first, as
    code points ([str(n)]). *)
Fixpoint digits_fuel (fuel : nat) (n : Z) : pystr :=
  match fuel with
  | O => []
  | S fuel' =>
      if n <? 10 then [48 + n] else digits_fuel fuel' (n / 10) ++ [48 + n mod 10]
  end.

Definition digits (n : Z) : pystr := digits_fuel (S (Z.to_nat (Z.log2 n))) n.

(** [int.__repr__] *)
Definition int_repr (z : Z) : pystr :=
  if z <? 0 then u "-" ++ digits (- z) else digits z.

(** [float.__repr__] (format code ['r']): positional when
    [-4 <= point - 1 < 16], exponential otherwise. *)
Definition float_repr (f : pyfloat) : pystr :=
  match f with
  | FNaN => u "nan"
  | FInf neg => if neg then u "-inf" else u "inf"
  | FFin neg coef expo =>
      let sign := if neg then u "-" else [] in
      let ds := digits coef in
      let n := len ds in
      let point := n + expo in
      sign ++
      (if coef =? 0 then u "0.0"
       else if (-4 <? point) && (point <=? 16) then
         if point <=? 0 then
           u "0." ++ replicate (Z.to_nat (- point)) 48 ++ ds
         else if n <=? point then
           ds ++ replicate (Z.to_nat (point - n)) 48 ++ u ".0"
         else take (Z.to_nat point) ds ++ u "." ++ drop (Z.to_nat point) ds
       else
         let e := point - 1 in
         take 1 ds ++ (if n =? 1 then [] else u "." ++ drop 1 ds)
         ++ u "e" ++ (if e <? 0 then u "-" else u "+")
         ++ (if Z.abs e <? 10 then u "0" else []) ++ digits (Z.abs e))
  end.

(** ** Lemmas *)

Lemma dt_sub_opp a b : dt_sub b a = - dt_sub a b.
Proof. unfold dt_sub. repeat case_decide; try congruence; lia. Qed.

#[global] Instance str_le_total : Total str_le.
Proof.
  unfold str_le. intros a; induction a as [|x a IH]; intros [|y b]; cbn; auto.
  destruct (Z.ltb_spec x y), (Z.ltb_spec y x), (Z.eqb_spec x y), (Z.eqb_spec y x);
    cbn; try lia; auto.
Qed.

#[global] Instance str_le_trans : Transitive str_le.
Proof.
  unfold str_le. intros a; induction a as [|x a IH]; intros [|y b] [|z c]; cbn; try done.
  rewrite !orb_true_iff, !andb_true_iff, !Z.ltb_lt, !Z.eqb_eq.
  intros [?|[-> ?]] [?|[-> ?]]; [left; lia..|]. right. eauto.
Qed.

#[global] Instance str_le_antisymm : AntiSymm (=) str_le.
Proof.
  unfold str_le. intros a; induction a as [|x a IH]; intros [|y b]; cbn; try done.
  rewrite !orb_true_iff, !andb_true_iff, !Z.ltb_lt, !Z.eqb_eq.
  intros [?|[-> ?]] [?|[Heq ?]]; try lia. f_equal. auto.
Qed.

Lemma sorted_tokens_perm S : sorted_tokens S ≡ₚ elements S.
Proof. apply merge_sort_Permutation. Qed.

Lemma sorted_tokens_sorted S : StronglySorted str_le (sorted_tokens S).
Proof. apply (StronglySorted_merge_sort _). Qed.

Lemma elem_of_sorted_tokens x S : x ∈ sorted_tokens S <-> x ∈ S.
Proof. by rewrite sorted_tokens_perm, elem_of_elements. Qed.

Lemma sorted_tokens_inj S T : sorted_tokens S = sorted_tokens T -> S = T.
Proof.
  intros H. apply set_eq. intros x. by rewrite <- !elem_of_sorted_tokens, H.
Qed.
