(* ===== verification/Calendar.v ===== *)
(** * Calendar text of datetimes ([kestrel_sdk/_validation.py])

    [datetime.isoformat] on the proleptic Gregorian calendar, and the two
    normalisations of [_validation.py]: the canonical UTC text used as digest
    input and the value a JSON serializer can keep. *)

From S2P Require Export PyData.

(** ** The calendar *)

(** Days before a month, and of a month, of a common year. *)
Definition days_before_month (m : Z) : Z :=
  default 0 ([0; 0; 31; 59; 90; 120; 151; 181; 212; 243; 273; 304; 334] !! Z.to_nat m).
Definition days_in_month (m : Z) : Z :=
  default 0 ([0; 31; 28; 31; 30; 31; 30; 31; 31; 30; 31; 30; 31] !! Z.to_nat m).

Definition b2z (b : bool) : Z := if b then 1 else 0.

(** Month and day of a day of the year, counted from 0. *)
Definition month_day (leap : bool) (n : Z) : Z * Z :=
  let month := Z.shiftr (n + 50) 5 in
  let preceding := days_before_month month + b2z ((2 <? month) && leap) in
  if n <? preceding then
    let month' := month - 1 in
    let preceding' := preceding - (days_in_month month' + b2z ((month' =? 2) && leap)) in
    (month', n - preceding' + 1)
  else (month, n - preceding + 1).

(** [_ord2ymd]: year, month and day of a proleptic ordinal (1 is 0001-01-01). *)
Definition ord2ymd (ordinal : Z) : Z * Z * Z :=
  let n := ordinal - 1 in
  let n400 := n / 146097 in let n := n mod 146097 in
  let n100 := n / 36524 in let n := n mod 36524 in
  let n4 := n / 1461 in let n := n mod 1461 in
  let n1 := n / 365 in let n := n mod 365 in
  let year := n400 * 400 + 1 + n100 * 100 + n4 * 4 + n1 in
  if (n1 =? 4) || (n100 =? 4) then (year - 1, 12, 31)
  else
    let leap := (n1 =? 3) && (negb (n4 =? 24) || (n100 =? 3)) in
    let '(m, d) := month_day leap n in
    (year, m, d).

(** [f"{n:0{k}d}"]: the last [k] decimal digits. *)
Fixpoint zfill (k : nat) (n : Z) : pystr :=
  match k with
  | O => []
  | S k' => zfill k' (n / 10) ++ [48 + n mod 10]
  end.

Definition iso_time (us : Z) : pystr :=
  let s := us / second_us in
  zfill 2 (s / 3600) ++ u ":" ++ zfill 2 (s / 60 mod 60) ++ u ":" ++ zfill 2 (s mod 60)
  ++ (if us mod second_us =? 0 then [] else u "." ++ zfill 6 (us mod second_us)).

Definition iso_offset (off : Z) : pystr :=
  let a := Z.abs off in
  (if off <? 0 then u "-" else u "+")
  ++ zfill 2 (a / hour_us) ++ u ":" ++ zfill 2 (a / minute_us mod 60)
  ++ (if a mod minute_us =? 0 then []
      else u ":" ++ zfill 2 (a / second_us mod 60)
           ++ (if a mod second_us =? 0 then [] else u "." ++ zfill 6 (a mod second_us))).

(** [value.isoformat()] *)
Definition isoformat (d : datetime) : pystr :=
  let '(y, m, dd) := ord2ymd (dt_wall d / day_us + 1) in
  zfill 4 y ++ u "-" ++ zfill 2 m ++ u "-" ++ zfill 2 dd ++ u "T"
  ++ iso_time (dt_wall d mod day_us)
  ++ match dt_off d with Some off => iso_offset off | None => [] end.

(** ** [_validation.py] *)

Definition canonical_utc_datetime (value : dyn datetime) : res pystr :=
  let err := ValueError "canonical datetime requires an aware value" in
  match value with
  | Foreign => Raise err
  | Inst d =>
      _ ← raise_if (negb (bool_decide (is_Some (dt_off d)))) err;
      match astimezone_utc d with
      | Some v => Ok (isoformat v)
      | None => Raise (ValueError "canonical datetime is outside the supported UTC range")
      end
  end.

Definition json_roundtrip_datetime (value : datetime) : res datetime :=
  match dt_off value with
  | None => Raise (ValueError "JSON datetime requires an aware value")
  | Some off =>
      if off mod minute_us =? 0 then Ok value
      else match astimezone_utc value with
           | Some v => Ok v
           | None => Raise (ValueError "canonical datetime is outside the supported UTC range")
           end
  end.

(** ** Lemmas *)

Lemma zfill_length k n : length (zfill k n) = k.
Proof. revert n; induction k as [|k IH]; intros n; cbn; [done|]. rewrite length_app, IH. cbn. lia. Qed.

Lemma zfill_inj k a b :
  0 <= a < 10 ^ Z.of_nat k -> 0 <= b < 10 ^ Z.of_nat k -> zfill k a = zfill k b -> a = b.
Proof.
  revert a b; induction k as [|k IH]; intros a b; [cbn; lia|].
  rewrite Nat2Z.inj_succ, Z.pow_succ_r by lia. cbn [zfill]. intros Ha Hb H.
  apply app_inj_2 in H as [H1 [= H2]]; [|done].
  assert (a / 10 = b / 10); [apply IH; [Z.to_euclidean_division_equations; lia..|done]|].
  Z.to_euclidean_division_equations; lia.
Qed.

(** Day of the year of a month and day. *)
Definition year_day (leap : bool) (m d : Z) : Z :=
  days_before_month m + b2z ((2 <? m) && leap) + d - 1.

Lemma month_day_inverse leap n :
  0 <= n < 365 + b2z leap ->
  let '(m, d) := month_day leap n in year_day leap m d = n /\ 1 <= m <= 12 /\ 1 <= d <= 31.
Proof.
  intros Hn.
  assert (H : forall leap, forallb (fun n =>
            let '(m, d) := month_day leap n in
            (year_day leap m d =? n) && (1 <=? m) && (m <=? 12) && (1 <=? d) && (d <=? 31))
          (seqZ 0 (365 + b2z leap)) = true) by (intros []; vm_compute; reflexivity).
  specialize (H leap). rewrite List.forallb_forall in H.
  specialize (H n ltac:(apply list_elem_of_In, elem_of_seqZ; lia)).
  destruct (month_day leap n) as [m d]. bool_hyps. lia.
Qed.

Definition is_leap (y : Z) : bool := (y mod 4 =? 0) && (negb (y mod 100 =? 0) || (y mod 400 =? 0)).

(** [_ymd2ord] *)
Definition ymd2ord (y m d : Z) : Z :=
  (y - 1) * 365 + (y - 1) / 4 - (y - 1) / 100 + (y - 1) / 400 + year_day (is_leap y) m d + 1.

(** The year part of the decomposition, on its quotients. *)
Lemma year_parts a b c e :
  0 <= b <= 3 -> 0 <= c <= 24 -> 0 <= e <= 3 ->
  let y := a * 400 + 1 + b * 100 + c * 4 + e in
  (y - 1) / 4 = a * 100 + b * 25 + c /\ (y - 1) / 100 = a * 4 + b /\ (y - 1) / 400 = a
  /\ is_leap y = (e =? 3) && (negb (c =? 24) || (b =? 3)).
Proof.
  intros Hb Hc He y. unfold y. clear y. split_and!.
  1-3: Z.to_euclidean_division_equations; lia.
  unfold is_leap.
  assert (H4 : (a * 400 + 1 + b * 100 + c * 4 + e) mod 4 = (e + 1) mod 4)
    by (Z.to_euclidean_division_equations; lia).
  assert (H100 : (a * 400 + 1 + b * 100 + c * 4 + e) mod 100 = (c * 4 + e + 1) mod 100)
    by (Z.to_euclidean_division_equations; lia).
  assert (H400 : (a * 400 + 1 + b * 100 + c * 4 + e) mod 400 = (b * 100 + c * 4 + e + 1) mod 400)
    by (Z.to_euclidean_division_equations; lia).
  rewrite H4, H100, H400. apply eq_true_iff_eq.
  rewrite !andb_true_iff, !orb_true_iff, !negb_true_iff, !Z.eqb_eq, !Z.eqb_neq.
  Z.to_euclidean_division_equations; lia.
Qed.

Lemma year_end y : is_leap y = true -> year_day (is_leap y) 12 31 = 365.
Proof. by intros ->. Qed.

Lemma ymd2ord_parts a b c e m d :
  0 <= b <= 3 -> 0 <= c <= 24 -> 0 <= e <= 3 ->
  ymd2ord (a * 400 + 1 + b * 100 + c * 4 + e) m d
  = a * 146097 + b * 36524 + c * 1461 + e * 365
    + year_day ((e =? 3) && (negb (c =? 24) || (b =? 3))) m d + 1.
Proof.
  intros Hb Hc He. destruct (year_parts a b c e Hb Hc He) as (H4 & H100 & H400 & Hl).
  unfold ymd2ord. rewrite H4, H100, H400, Hl. lia.
Qed.

Lemma ord2ymd_inverse o :
  1 <= o ->
  let '(y, m, d) := ord2ymd o in
  ymd2ord y m d = o /\ 1 <= y /\ y <= 400 * ((o - 1) / 146097 + 1) /\ 1 <= m <= 12 /\ 1 <= d <= 31.
Proof.
  intros Ho. unfold ord2ymd. set (n := o - 1). assert (Hn : 0 <= n) by lia.
  set (a := n / 146097). set (r1 := n mod 146097).
  assert (H1 : n = 146097 * a + r1 /\ 0 <= r1 < 146097 /\ 0 <= a)
    by (unfold a, r1; Z.to_euclidean_division_equations; lia).
  set (b := r1 / 36524). set (r2 := r1 mod 36524).
  assert (H2 : r1 = 36524 * b + r2 /\ 0 <= r2 < 36524 /\ 0 <= b <= 4)
    by (unfold b, r2; Z.to_euclidean_division_equations; lia).
  set (c := r2 / 1461). set (r3 := r2 mod 1461).
  assert (H3 : r2 = 1461 * c + r3 /\ 0 <= r3 < 1461 /\ 0 <= c <= 24)
    by (unfold c, r3; Z.to_euclidean_division_equations; lia).
  set (e := r3 / 365). set (r4 := r3 mod 365).
  assert (H4 : r3 = 365 * e + r4 /\ 0 <= r4 < 365 /\ 0 <= e <= 4)
    by (unfold e, r4; Z.to_euclidean_division_equations; lia).
  clearbody a b c e r1 r2 r3 r4.
  destruct ((e =? 4) || (b =? 4)) eqn:Hs.
  - apply orb_true_iff in Hs. rewrite !Z.eqb_eq in Hs.
    destruct (Z.eqb_spec b 4) as [->|Hb].
    + replace (a * 400 + 1 + 4 * 100 + c * 4 + e - 1) with (a * 400 + 1 + 3 * 100 + 24 * 4 + 3) by lia.
      rewrite ymd2ord_parts by lia.
      change (year_day _ 12 31) with 365. unfold n in *. split_and!; lia.
    + assert (e = 4) as -> by lia.
      replace (a * 400 + 1 + b * 100 + c * 4 + 4 - 1) with (a * 400 + 1 + b * 100 + c * 4 + 3) by lia.
      rewrite ymd2ord_parts by lia.
      rewrite (proj2 (Z.eqb_neq c 24)) by lia. cbn [negb orb andb Z.eqb Pos.eqb].
      change (year_day true 12 31) with 365. unfold n in *. split_and!; lia.
  - apply orb_false_iff in Hs. rewrite !Z.eqb_neq in Hs.
    set (leap := (e =? 3) && (negb (c =? 24) || (b =? 3))).
    pose proof (month_day_inverse leap r4) as Hmd.
    destruct (month_day leap r4) as [m d]. specialize (Hmd ltac:(destruct leap; cbn; lia)).
    rewrite ymd2ord_parts by lia. fold leap. unfold n in *. split_and!; lia.
Qed.

(** The wall clock of a valid datetime. *)
Definition wall_ok (w : Z) : Prop := 0 <= w <= dt_max_wall.

Lemma ord2ymd_inj o o' : 1 <= o -> 1 <= o' -> ord2ymd o = ord2ymd o' -> o = o'.
Proof.
  intros Ho Ho' H. pose proof (ord2ymd_inverse o Ho) as H1. pose proof (ord2ymd_inverse o' Ho') as H2.
  rewrite <- H in H2. destruct (ord2ymd o) as [[y m] d]. lia.
Qed.

(** Split an equality of concatenations whose first parts have one length. *)
Lemma app_split {A} (a b a' b' : list A) :
  length a = length a' -> a ++ b = a' ++ b' -> a = a' /\ b = b'.
Proof. intros Hl H. by apply app_inj_1 in H. Qed.

Lemma zfill_app_inj k a b s t :
  0 <= a < 10 ^ Z.of_nat k -> 0 <= b < 10 ^ Z.of_nat k ->
  zfill k a ++ s = zfill k b ++ t -> a = b /\ s = t.
Proof.
  intros Ha Hb H. apply app_split in H as [H ->]; [|by rewrite !zfill_length].
  split; [by eapply zfill_inj | done].
Qed.

Lemma iso_time_inj us us' s :
  0 <= us < day_us -> 0 <= us' < day_us ->
  iso_time us ++ u "+" ++ s = iso_time us' ++ u "+" ++ s -> us = us'.
Proof.
  unfold iso_time, day_us, second_us. intros Hu Hu' H. rewrite <- !app_assoc in H.
  apply zfill_app_inj in H as [Hh H]; [|Z.to_euclidean_division_equations; lia..].
  apply app_inv_head in H.
  apply zfill_app_inj in H as [Hm H]; [|Z.to_euclidean_division_equations; lia..].
  apply app_inv_head in H.
  apply zfill_app_inj in H as [Hs H]; [|Z.to_euclidean_division_equations; lia..].
  assert (Hf : us mod 1000000 = us' mod 1000000).
  { destruct (Z.eqb_spec (us mod 1000000) 0) as [H0|H0],
      (Z.eqb_spec (us' mod 1000000) 0) as [H0'|H0']; [lia|done|done|].
    rewrite <- !app_assoc in H. apply app_inv_head in H.
    apply zfill_app_inj in H as [Hu6 _]; [done|apply Z.mod_pos_bound; done..]. }
  Z.to_euclidean_division_equations; lia.
Qed.

Lemma year_day_nonneg leap m d : 1 <= d -> 0 <= year_day leap m d.
Proof.
  intros Hd. unfold year_day. assert (0 <= b2z ((2 <? m) && leap)) by (unfold b2z; case_match; lia).
  assert (0 <= days_before_month m); [|lia]. unfold days_before_month.
  set (l := [0; 0; 31; 59; 90; 120; 151; 181; 212; 243; 273; 304; 334]).
  assert (HF : Forall (fun x => 0 <= x) l) by (apply (bool_decide_unpack _); by vm_compute).
  destruct (l !! Z.to_nat m) as [x|] eqn:Hx; cbn; [|lia].
  by eapply Forall_lookup in Hx.
Qed.

Lemma year_bound y m d o :
  ymd2ord y m d = o -> o <= 3652059 -> 1 <= y -> y <= 10000 -> 1 <= d -> 1 <= y <= 9999.
Proof.
  intros H Ho Hy Hy' Hd. destruct (decide (y = 10000)) as [->|]; [|lia]. exfalso.
  unfold ymd2ord in H. pose proof (year_day_nonneg (is_leap 10000) m d Hd).
  change ((10000 - 1) * 365 + (10000 - 1) / 4 - (10000 - 1) / 100 + (10000 - 1) / 400) with 3652059 in H.
  lia.
Qed.

Lemma isoformat_utc_inj w w' :
  wall_ok w -> wall_ok w' -> isoformat (utc_datetime w) = isoformat (utc_datetime w') -> w = w'.
Proof.
  unfold wall_ok, dt_max_wall. intros Hw Hw'. unfold isoformat, utc_datetime. cbn [dt_wall dt_off].
  assert (Ho : 1 <= w / day_us + 1 <= 3652059) by (unfold day_us, second_us in *; Z.to_euclidean_division_equations; lia).
  assert (Ho' : 1 <= w' / day_us + 1 <= 3652059) by (unfold day_us, second_us in *; Z.to_euclidean_division_equations; lia).
  pose proof (ord2ymd_inverse _ (proj1 Ho)) as H1. pose proof (ord2ymd_inverse _ (proj1 Ho')) as H2.
  destruct (ord2ymd (w / day_us + 1)) as [[y m] d] eqn:Hd.
  destruct (ord2ymd (w' / day_us + 1)) as [[y' m'] d'] eqn:Hd'.
  intros H.
  assert (Hy : 1 <= y <= 9999 /\ 1 <= y' <= 9999).
  { assert (Hq : forall o, 1 <= o <= 3652059 -> (o - 1) / 146097 <= 24)
      by (intros; Z.to_euclidean_division_equations; lia).
    pose proof (Hq _ Ho). pose proof (Hq _ Ho').
    destruct H1 as (E1 & ? & ? & ? & ?), H2 as (E2 & ? & ? & ? & ?).
    split; [eapply (year_bound _ _ _ _ E1) | eapply (year_bound _ _ _ _ E2)]; lia. }
  assert (Hp2 : 10 ^ Z.of_nat 2 = 100) by done. assert (Hp4 : 10 ^ Z.of_nat 4 = 10000) by done.
  apply zfill_app_inj in H as [-> H]; [|lia..]. apply app_inv_head in H.
  apply zfill_app_inj in H as [-> H]; [|lia..]. apply app_inv_head in H.
  apply zfill_app_inj in H as [-> H]; [|lia..]. apply app_inv_head in H.
  change (iso_offset 0) with (u "+" ++ u "00:00") in H.
  apply iso_time_inj in H; [|apply Z.mod_pos_bound; unfold day_us, second_us; lia..].
  assert (w / day_us = w' / day_us) by lia.
  rewrite (Z.div_mod w day_us), (Z.div_mod w' day_us) by (unfold day_us, second_us; lia). congruence.
Qed.

(** A value Python can hold: its wall clock is in range, and the UTC zone
    object has offset zero. *)
Definition datetime_wf (d : datetime) : Prop :=
  wall_ok (dt_wall d) /\ (dt_zone d = Some utc_zone -> dt_off d = Some 0).

Lemma astimezone_utc_spec d v :
  datetime_wf d -> astimezone_utc d = Some v <-> v = utc_datetime (instant d) /\ wall_ok (instant d).
Proof.
  intros [Hw Hu]. unfold astimezone_utc, wall_ok. case_decide as Hz.
  - specialize (Hu Hz). destruct d as [w z o]; cbn in *; subst. unfold instant; cbn. rewrite Z.sub_0_r.
    split; [by intros [= <-]|]. by intros [-> _].
  - destruct (Z.leb_spec 0 (instant d)), (Z.leb_spec (instant d) dt_max_wall); cbn; split;
      try lia; try (by intros []); try done.
    + by intros [= <-].
    + by intros [-> _].
Qed.

Lemma canonical_utc_Ok v s :
  canonical_utc_datetime v = Ok s <->
  exists d, v = Inst d /\ is_naive d = false /\ isoformat <$> astimezone_utc d = Some s.
Proof.
  unfold canonical_utc_datetime, is_naive. destruct v as [d|]; [|by split; [|intros (? & ? & _)]].
  rewrite bind_Ok. setoid_rewrite raise_if_Ok. split.
  - intros (_ & Hn & H). exists d. split_and!; [done..|]. destruct (astimezone_utc d); [|done].
    by injection H as <-.
  - intros (d' & [= <-] & Hn & H). exists tt. split; [done|].
    destruct (astimezone_utc d); [|done]. by injection H as <-.
Qed.

(** ** Theorems *)

(** The canonical text of an aware datetime identifies its instant: two
    values have the same digest input exactly when they denote the same
    instant, whatever their zones, fractions included. *)
Theorem canonical_utc_datetime_exact d1 d2 s1 s2
    (Hd1 : datetime_wf d1) (Hd2 : datetime_wf d2)
    (H1 : canonical_utc_datetime (Inst d1) = Ok s1)
    (H2 : canonical_utc_datetime (Inst d2) = Ok s2) :
  s1 = s2 <-> instant d1 = instant d2.
Proof.
  apply canonical_utc_Ok in H1 as (? & [= <-] & _ & H1).
  apply canonical_utc_Ok in H2 as (? & [= <-] & _ & H2).
  destruct (astimezone_utc d1) as [v1|] eqn:E1; [|done]. injection H1 as <-.
  destruct (astimezone_utc d2) as [v2|] eqn:E2; [|done]. injection H2 as <-.
  apply astimezone_utc_spec in E1 as [-> W1], E2 as [-> W2]; [|done..].
  split; [by apply isoformat_utc_inj | by intros ->].
Qed.

(** The JSON normalisation keeps the instant, returns a whole-minute
    offset, and leaves a value that already has one untouched; it fails only
    on a naive value or one whose instant is outside the calendar. *)
Theorem json_roundtrip_datetime_exact d (Hd : datetime_wf d) :
  (forall v, json_roundtrip_datetime d = Ok v ->
     instant v = instant d /\ exists off, dt_off v = Some off /\ off mod minute_us = 0)
  /\ (forall off, dt_off d = Some off -> off mod minute_us = 0 -> json_roundtrip_datetime d = Ok d)
  /\ ((exists v, json_roundtrip_datetime d = Ok v) <->
      exists off, dt_off d = Some off /\ (off mod minute_us = 0 \/ wall_ok (instant d))).
Proof.
  unfold json_roundtrip_datetime. destruct (dt_off d) as [off|] eqn:Ho.
  - destruct (Z.eqb_spec (off mod minute_us) 0) as [Hm|Hm]; split_and!.
    + intros v [= <-]. split; [done|]. by exists off.
    + done.
    + split; [|by eexists]. intros _. exists off. auto.
    + intros v H. destruct (astimezone_utc d) as [v'|] eqn:E; [|done]. injection H as <-.
      apply astimezone_utc_spec in E as [-> _]; [|done]. split; [unfold instant; cbn; lia|].
      by exists 0.
    + by intros ? [= <-].
    + split.
      * intros [v H]. exists off. split; [done|]. right.
        destruct (astimezone_utc d) eqn:E; [|done]. by apply astimezone_utc_spec in E as [_ ?].
      * intros (? & [= <-] & [?|Hw]); [done|].
        rewrite (proj2 (astimezone_utc_spec d _ Hd) (conj eq_refl Hw)). by eexists.
  - split_and!; [done..|]. split; [by intros [] | by intros (? & ? & _)].
Qed.

(** ** Witnesses *)

Definition paris_noon : datetime :=
  Datetime (738000 * day_us + 12 * hour_us) (Some 2%positive) (Some hour_us).
Definition utc_eleven : datetime := utc_datetime (738000 * day_us + 11 * hour_us).

Lemma canonical_utc_datetime_exact_witness :
  canonical_utc_datetime (Inst paris_noon) = canonical_utc_datetime (Inst utc_eleven).
Proof.
  destruct (canonical_utc_datetime (Inst paris_noon)) as [s1|] eqn:H1; [|vm_compute in H1; discriminate H1].
  destruct (canonical_utc_datetime (Inst utc_eleven)) as [s2|] eqn:H2; [|vm_compute in H2; discriminate H2].
  f_equal. apply (canonical_utc_datetime_exact paris_noon utc_eleven); [..|reflexivity].
  - split; [vm_compute; split; congruence | discriminate].
  - split; [vm_compute; split; congruence | reflexivity].
  - exact H1.
  - exact H2.
Defined.

Lemma json_roundtrip_datetime_exact_witness :
  json_roundtrip_datetime paris_noon = Ok paris_noon.
Proof.
  destruct (json_roundtrip_datetime_exact paris_noon) as (_ & H & _).
  - split; [vm_compute; split; congruence | discriminate].
  - apply (H hour_us); reflexivity.
Defined.
