(* ===== verification/Regex.v ===== *)
(** * Regular expressions

    The fragment of [re] the contracts use: character classes,
    concatenation, alternation, [*], [{0,n}].  [re_match] is [fullmatch],
    executable by derivatives; [re_lang] is the language it must decide. *)

From S2P Require Export PyData.

Inductive re : Type :=
| REmpty
| REps
| RChar (p : Z -> bool)
| RCat (r1 r2 : re)
| RAlt (r1 r2 : re)
| RStar (r : re)
| RUpTo (n : nat) (r : re).

(** [x?], [x+], a literal and [x(?:y x)*]. *)
Definition ROpt (r : re) : re := RAlt REps r.
Definition RPlus (r : re) : re := RCat r (RStar r).
Fixpoint RLit (s : pystr) : re :=
  match s with [] => REps | c :: s' => RCat (RChar (Z.eqb c)) (RLit s') end.
Fixpoint RExactly (n : nat) (r : re) : re :=
  match n with O => REps | S n' => RCat r (RExactly n' r) end.

Inductive re_lang : re -> pystr -> Prop :=
| lang_eps : re_lang REps []
| lang_char p c : p c = true -> re_lang (RChar p) [c]
| lang_cat r1 r2 s1 s2 : re_lang r1 s1 -> re_lang r2 s2 -> re_lang (RCat r1 r2) (s1 ++ s2)
| lang_alt_l r1 r2 s : re_lang r1 s -> re_lang (RAlt r1 r2) s
| lang_alt_r r1 r2 s : re_lang r2 s -> re_lang (RAlt r1 r2) s
| lang_star_nil r : re_lang (RStar r) []
| lang_star_cons r s1 s2 : re_lang r s1 -> re_lang (RStar r) s2 -> re_lang (RStar r) (s1 ++ s2)
| lang_upto_nil n r : re_lang (RUpTo n r) []
| lang_upto_cons n r s1 s2 :
    re_lang r s1 -> re_lang (RUpTo n r) s2 -> re_lang (RUpTo (S n) r) (s1 ++ s2).

Fixpoint nullable (r : re) : bool :=
  match r with
  | REmpty | RChar _ => false
  | REps | RStar _ | RUpTo _ _ => true
  | RCat r1 r2 => nullable r1 && nullable r2
  | RAlt r1 r2 => nullable r1 || nullable r2
  end.

(** Smart constructors keep derivatives small. *)
Definition cat (r1 r2 : re) : re :=
  match r1, r2 with
  | REmpty, _ | _, REmpty => REmpty
  | REps, r | r, REps => r
  | _, _ => RCat r1 r2
  end.

Definition alt (r1 r2 : re) : re :=
  match r1, r2 with
  | REmpty, r | r, REmpty => r
  | _, _ => RAlt r1 r2
  end.

Fixpoint deriv (c : Z) (r : re) : re :=
  match r with
  | REmpty | REps => REmpty
  | RChar p => if p c then REps else REmpty
  | RCat r1 r2 =>
      if nullable r1 then alt (cat (deriv c r1) r2) (deriv c r2)
      else cat (deriv c r1) r2
  | RAlt r1 r2 => alt (deriv c r1) (deriv c r2)
  | RStar r => cat (deriv c r) (RStar r)
  | RUpTo n r => match n with O => REmpty | S n' => cat (deriv c r) (RUpTo n' r) end
  end.

(** [re.fullmatch(r, s) is not None] *)
Fixpoint re_match (r : re) (s : pystr) : bool :=
  match s with
  | [] => nullable r
  | c :: s' => re_match (deriv c r) s'
  end.

(** ** Correctness of the matcher *)

#[local] Hint Constructors re_lang : core.

Ltac inv_lang H := inversion H; subst; clear H.
Ltac lang_cases :=
  repeat match goal with
  | H : re_lang REmpty _ |- _ => inversion H
  | H : re_lang REps _ |- _ => inv_lang H
  | H : re_lang (RCat _ _) _ |- _ => inv_lang H
  end.

Lemma cat_lang r1 r2 s : re_lang (cat r1 r2) s <-> re_lang (RCat r1 r2) s.
Proof.
  assert (He1 : forall r s, re_lang (RCat REmpty r) s <-> False).
  { by split; intros H; lang_cases. }
  assert (He2 : forall r s, re_lang (RCat r REmpty) s <-> False).
  { by split; intros H; lang_cases. }
  assert (Hp1 : forall r s, re_lang (RCat REps r) s <-> re_lang r s).
  { split; [by intros H; lang_cases|].
    intros H. apply (lang_cat REps r [] s0); auto. }
  assert (Hp2 : forall r s, re_lang (RCat r REps) s <-> re_lang r s).
  { split; [intros H; lang_cases; by rewrite app_nil_r|].
    intros H. rewrite <- (app_nil_r s0). auto. }
  assert (Hn : forall s, re_lang REmpty s <-> False).
  { split; [intros H; inv_lang H | done]. }
  destruct r1, r2; cbn; rewrite ?He1, ?He2, ?Hp1, ?Hp2, ?Hn; done.
Qed.

Lemma alt_lang r1 r2 s : re_lang (alt r1 r2) s <-> re_lang r1 s \/ re_lang r2 s.
Proof.
  assert (Hn : forall s, re_lang REmpty s <-> False).
  { split; [intros H; inv_lang H | done]. }
  assert (Ha : re_lang (RAlt r1 r2) s <-> re_lang r1 s \/ re_lang r2 s).
  { split; [intros H; inv_lang H; auto | intros []; auto]. }
  destruct r1, r2; cbn; rewrite ?Hn; try tauto; exact Ha.
Qed.

Lemma cat_lang_iff r1 r2 s :
  re_lang (RCat r1 r2) s <-> exists s1 s2, s = s1 ++ s2 /\ re_lang r1 s1 /\ re_lang r2 s2.
Proof. split; [intros H; inv_lang H; eauto | intros (s1 & s2 & -> & ? & ?); auto]. Qed.

Lemma nullable_lang r : nullable r = true <-> re_lang r [].
Proof.
  induction r; cbn.
  - split; [done | intros H; inv_lang H].
  - split; auto.
  - split; [done | intros H; inv_lang H].
  - rewrite andb_true_iff, IHr1, IHr2. split.
    + intros [H1 H2]. by apply (lang_cat r1 r2 [] []).
    + intros H. apply cat_lang_iff in H as (s1 & s2 & Hs & H1 & H2).
      symmetry in Hs. by apply app_eq_nil in Hs as [-> ->].
  - rewrite orb_true_iff, IHr1, IHr2. split; [intros []; auto | intros H; inv_lang H; auto].
  - split; auto.
  - split; auto.
Qed.

(** A word of a loop that is not empty starts with a non-empty iteration. *)
Lemma star_cons_inv r c s :
  re_lang (RStar r) (c :: s) ->
  exists s1 s2, s = s1 ++ s2 /\ re_lang r (c :: s1) /\ re_lang (RStar r) s2.
Proof.
  intros H. remember (RStar r) as r' eqn:Er. remember (c :: s) as w eqn:Ew.
  revert c s Ew. induction H; intros c' s' Ew; simplify_eq.
  destruct s1 as [|x s1]; cbn in Ew; simplify_eq; [by apply IHre_lang2|].
  by exists s1, s2.
Qed.

Lemma upto_weaken n r s : re_lang (RUpTo n r) s -> re_lang (RUpTo (S n) r) s.
Proof.
  intros H. remember (RUpTo n r) as r' eqn:Er. revert n Er.
  induction H; intros m Er; simplify_eq; auto.
Qed.

Lemma upto_cons_inv n r c s :
  re_lang (RUpTo n r) (c :: s) ->
  exists m s1 s2, n = S m /\ s = s1 ++ s2 /\ re_lang r (c :: s1) /\ re_lang (RUpTo m r) s2.
Proof.
  intros H. remember (RUpTo n r) as r' eqn:Er. remember (c :: s) as w eqn:Ew.
  revert n c s Er Ew. induction H; intros n' c' s' Er Ew; simplify_eq.
  destruct s1 as [|x s1]; cbn in Ew; simplify_eq.
  - destruct (IHre_lang2 _ _ _ eq_refl eq_refl) as (m & s1 & s2' & -> & -> & Hr & Hu).
    exists (S m), s1, s2'. eauto using upto_weaken.
  - by exists n, s1, s2.
Qed.

Lemma cat_lang_cons r1 r2 c s :
  re_lang (RCat r1 r2) (c :: s) <->
  (exists s1 s2, s = s1 ++ s2 /\ re_lang r1 (c :: s1) /\ re_lang r2 s2)
  \/ (re_lang r1 [] /\ re_lang r2 (c :: s)).
Proof.
  split.
  - intros H. inv_lang H. destruct s1 as [|x s1]; cbn in *; simplify_eq; eauto 6.
  - intros [(s1 & s2 & -> & H1 & H2) | [H1 H2]].
    + by apply (lang_cat r1 r2 (c :: s1) s2).
    + by apply (lang_cat r1 r2 [] (c :: s)).
Qed.

Lemma deriv_lang c r s : re_lang (deriv c r) s <-> re_lang r (c :: s).
Proof.
  revert s; induction r as [| |p|r1 IH1 r2 IH2|r1 IH1 r2 IH2|r IH|n r IH]; intros s; cbn.
  - split; intros H; inv_lang H.
  - split; intros H; inv_lang H.
  - destruct (p c) eqn:Hp; split; intros H; inv_lang H; auto; congruence.
  - rewrite cat_lang_cons.
    assert (Hc : re_lang (cat (deriv c r1) r2) s <->
      exists s1 s2, s = s1 ++ s2 /\ re_lang r1 (c :: s1) /\ re_lang r2 s2).
    { rewrite cat_lang, cat_lang_iff. by setoid_rewrite IH1. }
    destruct (nullable r1) eqn:Hn.
    + rewrite alt_lang, Hc, IH2. apply nullable_lang in Hn. tauto.
    + rewrite Hc. split; [auto|]. intros [|[H _]]; [done|].
      apply nullable_lang in H. congruence.
  - rewrite alt_lang, IH1, IH2. split; [intros []; auto | intros H; inv_lang H; auto].
  - rewrite cat_lang, cat_lang_iff. setoid_rewrite IH. split.
    + intros (s1 & s2 & -> & H1 & H2). by apply (lang_star_cons r (c :: s1) s2).
    + apply star_cons_inv.
  - destruct n as [|n].
    + split; intros H; [inv_lang H|]. by apply upto_cons_inv in H as (m & ? & ? & ? & _).
    + rewrite cat_lang, cat_lang_iff. setoid_rewrite IH. split.
      * intros (s1 & s2 & -> & H1 & H2). by apply (lang_upto_cons n r (c :: s1) s2).
      * intros H. apply upto_cons_inv in H as (m & s1 & s2 & [= <-] & H). eauto.
Qed.

Lemma re_match_lang r s : re_match r s = true <-> re_lang r s.
Proof.
  revert r; induction s as [|c s IH]; intros r; cbn.
  - apply nullable_lang.
  - by rewrite IH, deriv_lang.
Qed.

(** ** Inversion lemmas for the derived forms *)

Lemma char_lang p s : re_lang (RChar p) s <-> exists c, s = [c] /\ p c = true.
Proof. split; [intros H; inv_lang H; eauto | intros (c & -> & ?); auto]. Qed.

Lemma alt_lang_iff r1 r2 s : re_lang (RAlt r1 r2) s <-> re_lang r1 s \/ re_lang r2 s.
Proof. split; [intros H; inv_lang H; auto | intros []; auto]. Qed.

Lemma eps_lang s : re_lang REps s <-> s = [].
Proof. split; [intros H; by inv_lang H | intros ->; auto]. Qed.

Lemma star_char_lang p s : re_lang (RStar (RChar p)) s <-> Forall (fun c => p c = true) s.
Proof.
  split.
  - induction s as [|c s IH]; [done|]. intros H.
    apply star_cons_inv in H as (s1 & s2 & -> & H1 & H2).
    apply char_lang in H1 as (c' & [= <- ->] & Hp). constructor; [done|]. by apply IH.
  - induction 1 as [|c s Hc _ IH]; [auto|].
    apply (lang_star_cons (RChar p) [c] s); auto.
Qed.

Lemma upto_char_lang n p s :
  re_lang (RUpTo n (RChar p)) s <-> (length s <= n)%nat /\ Forall (fun c => p c = true) s.
Proof.
  split.
  - revert n; induction s as [|c s IH]; intros n H; [split; [cbn; lia | done]|].
    apply upto_cons_inv in H as (m & s1 & s2 & -> & -> & H1 & H2).
    apply char_lang in H1 as (c' & [= <- ->] & Hp).
    apply IH in H2 as [Hl HF]. split; [cbn in *; lia | by constructor].
  - intros [Hl HF]. revert n Hl; induction HF as [|c s Hc _ IH]; intros n Hl; [auto|].
    destruct n as [|n]; [cbn in Hl; lia|].
    apply (lang_upto_cons n (RChar p) [c] s); [auto|]. apply IH. cbn in Hl; lia.
Qed.

Lemma exactly_char_lang n p s :
  re_lang (RExactly n (RChar p)) s <-> length s = n /\ Forall (fun c => p c = true) s.
Proof.
  revert s; induction n as [|n IH]; intros s; cbn.
  - rewrite eps_lang. split; [by intros -> | intros [H _]; by apply nil_length_inv].
  - rewrite cat_lang_iff. split.
    + intros (s1 & s2 & -> & H1 & H2). apply char_lang in H1 as (c & -> & Hc).
      apply IH in H2 as [<- HF]. by split; [|constructor].
    + intros [Hl HF]. destruct HF as [|c s Hc HF]; [done|].
      exists [c], s. split; [done|]. split; [auto|]. apply IH. split; [|done].
      by injection Hl.
Qed.

Lemma lit_lang p s : re_lang (RLit p) s <-> s = p.
Proof.
  revert s; induction p as [|c p IH]; intros s; cbn.
  - apply eps_lang.
  - rewrite cat_lang_iff. setoid_rewrite char_lang. split.
    + intros (s1 & s2 & -> & (x & -> & Hx) & H2). apply IH in H2 as ->.
      apply Z.eqb_eq in Hx as ->. done.
    + intros ->. exists [c], p. split_and!; [done|by exists c; rewrite Z.eqb_refl|by apply IH].
Qed.
