(* ===== verification/Validation.v ===== *)
(** * Shared validation helpers ([kestrel_sdk/_validation.py])

    Stable tokens, browser-safe text, semantic versions and the
    normalisation of token collections.  The regular expressions are kept
    as syntax and matched by [Regex.re_match]. *)

From stdpp Require Import gmap.
From S2P Require Export Regex.

(** ** Stable tokens *)

Definition token_char (c : Z) : bool :=
  is_alnum c || mem c (u "._:@-").

(** [^[A-Za-z0-9](?:[A-Za-z0-9._:@-]{0,254}[A-Za-z0-9])?$] *)
Definition STABLE_TOKEN : re :=
  RCat (RChar is_alnum)
       (ROpt (RCat (RUpTo 254 (RChar token_char)) (RChar is_alnum))).

Definition stable_token (value : dyn pystr) (field_name : string) : res pystr :=
  let err := ValueError (field_name +:+
    " must be a non-empty stable token of at most 256 characters") in
  match value with
  | Foreign => Raise err
  | Inst s => _ ← raise_if (negb (re_match STABLE_TOKEN s)) err; Ok s
  end.

(** ** Browser-safe text *)

Definition non_ascii_whitespace (c : Z) : bool :=
  (c =? 0x0085) || (c =? 0x00A0) || (c =? 0x1680) || in_range 0x2000 0x200A c
  || (c =? 0x2028) || (c =? 0x2029) || (c =? 0x202F) || (c =? 0x205F) || (c =? 0x3000).

Definition allowed_format_characters : list Z := [0x200C; 0x200D].

Definition unsafe_format_ranges : list (Z * Z) :=
  [(0x00AD, 0x00AD); (0x0600, 0x0605); (0x061C, 0x061C); (0x06DD, 0x06DD);
   (0x070F, 0x070F); (0x0890, 0x0891); (0x08E2, 0x08E2); (0x180E, 0x180E);
   (0x200B, 0x200F); (0x202A, 0x202E); (0x2060, 0x2064); (0x2066, 0x206F);
   (0xFEFF, 0xFEFF); (0xFFF9, 0xFFFB); (0x110BD, 0x110BD); (0x110CD, 0x110CD);
   (0x13430, 0x1343F); (0x1BCA0, 0x1BCA3); (0x1D173, 0x1D17A);
   (0xE0001, 0xE0001); (0xE0020, 0xE007F)].

Definition unsafe_browser_codepoint (c : Z) : bool :=
  if mem c allowed_format_characters then false
  else if (c <? 0x20) || in_range 0x7F 0x9F c || non_ascii_whitespace c
       || in_range 0xD800 0xDFFF c || in_range 0xE000 0xF8FF c
       || in_range 0xF0000 0xFFFFD c || in_range 0x100000 0x10FFFD c
       || in_range 0xFDD0 0xFDEF c
       || (Z.land c 0xFFFF =? 0xFFFE) || (Z.land c 0xFFFF =? 0xFFFF)
  then true
  else existsb (fun '(lo, hi) => in_range lo hi c) unsafe_format_ranges.

Definition browser_safe_string (value : dyn pystr) (field_name : string)
    (max_length : Z) (allow_empty : bool) : res pystr :=
  match value with
  | Foreign => Raise (TypeError (field_name +:+ " must be a string"))
  | Inst s =>
      _ ← raise_if ((negb allow_empty && (len s =? 0)) || (max_length <? len s))
            (ValueError (field_name +:+ " must be " +:+
              (if allow_empty then "a " else "a non-empty ") +:+
              "string of at most {max_length} characters"));
      _ ← raise_if (existsb unsafe_browser_codepoint s)
            (ValueError (field_name +:+ " contains unsafe text characters"));
      Ok s
  end.

Definition non_empty_text (value : dyn pystr) (field_name : string) : res pystr :=
  let err := ValueError (field_name +:+
    " must be a non-empty string of at most 256 characters") in
  match value with
  | Foreign => Raise err
  | Inst s =>
      _ ← raise_if ((len (strip s) =? 0) || (256 <? len s)) err;
      _ ← raise_if (negb (bool_decide (s = strip s)))
            (ValueError (field_name +:+ " must not have leading or trailing whitespace"));
      _ ← browser_safe_string (Inst s) field_name 256 true;
      Ok s
  end.

(** ** Semantic versions *)

Definition ident_char (c : Z) : bool := is_alnum c || (c =? 45).
Definition ident_alpha (c : Z) : bool := is_upper c || is_lower c || (c =? 45).
Definition nonzero_digit (c : Z) : bool := in_range 49 57 c.

(** [0|[1-9][0-9]*] *)
Definition NUMERIC : re :=
  RAlt (RLit (u "0")) (RCat (RChar nonzero_digit) (RStar (RChar is_digit))).

(** Alternatives of the identifier pattern: a number without leading zero,
    or digits, one letter or hyphen, then identifier characters. *)
Definition SEMVER_IDENTIFIER : re :=
  RAlt NUMERIC (RCat (RStar (RChar is_digit))
                  (RCat (RChar ident_alpha) (RStar (RChar ident_char)))).

(** [r] repeated with dots in between. *)
Definition RDotted (r : re) : re := RCat r (RStar (RCat (RLit (u ".")) r)).

Definition BUILD_IDENTIFIER : re := RPlus (RChar ident_char).

Definition SEMANTIC_VERSION : re :=
  RCat (RCat NUMERIC (RCat (RLit (u ".")) (RCat NUMERIC (RCat (RLit (u ".")) NUMERIC))))
    (RCat (ROpt (RCat (RLit (u "-")) (RDotted SEMVER_IDENTIFIER)))
          (ROpt (RCat (RLit (u "+")) (RDotted BUILD_IDENTIFIER)))).

(** The capture groups of a match: release numbers, prerelease, build. *)
Record semver_groups := SemverGroups {
  sv_major : pystr; sv_minor : pystr; sv_patch : pystr;
  sv_pre : option pystr; sv_build : option pystr }.

(** [s.partition(c)]: the text before the first [c], and after it. *)
Fixpoint cut (c : Z) (s : pystr) : pystr * option pystr :=
  match s with
  | [] => ([], None)
  | x :: s' =>
      if x =? c then ([], Some s')
      else let '(a, b) := cut c s' in (x :: a, b)
  end.

Definition dotted_ok (r : re) (s : option pystr) : bool :=
  match s with
  | None => true
  | Some s => forallb (re_match r) (split_on (Z.eqb 46) s)
  end.

Definition semver_match (s : pystr) : option semver_groups :=
  let '(h, build) := cut 43 s in
  let '(core, pre) := cut 45 h in
  match split_on (Z.eqb 46) core with
  | [a; b; c] =>
      if re_match NUMERIC a && re_match NUMERIC b && re_match NUMERIC c
         && dotted_ok SEMVER_IDENTIFIER pre && dotted_ok BUILD_IDENTIFIER build
      then Some (SemverGroups a b c pre build) else None
  | _ => None
  end.

Definition semantic_version (value : dyn pystr) (field_name : string)
    (allow_prerelease allow_build : bool) : res pystr :=
  let err := ValueError (field_name +:+ " must be a semantic version such as '1.0.0'") in
  match value with
  | Foreign => Raise err
  | Inst s =>
      match (if len s <=? 128 then semver_match s else None) with
      | None => Raise err
      | Some g =>
          _ ← raise_if ((negb allow_prerelease && bool_decide (is_Some (sv_pre g)))
                        || (negb allow_build && bool_decide (is_Some (sv_build g)))) err;
          Ok s
      end
  end.

(** [int(s)] of a digit string. *)
Definition parse_int (s : pystr) : Z := foldl (fun acc c => acc * 10 + (c - 48)) 0 s.

Definition semantic_version_parts (s : pystr) : res (Z * Z * Z) :=
  match semver_match s with
  | None => Raise (ValueError "invalid semantic version")
  | Some g => Ok (parse_int (sv_major g), parse_int (sv_minor g), parse_int (sv_patch g))
  end.

(** ** Collections *)

Definition frozen_tokens (values : dyniter (dyn pystr)) (field_name : string)
    : res (gset pystr) :=
  match values with
  | StrOrBytes | NotIterable =>
      Raise (TypeError (field_name +:+ " must be an iterable of stable tokens"))
  | Iter vs => ts ← traverse (fun v => stable_token v field_name) vs; Ok (list_to_set ts)
  end.

Definition unique_tuple {A} `{EqDecision A} (values : dyniter A) (field_name : string)
    : res (list A) :=
  match values with
  | StrOrBytes | NotIterable => Raise (TypeError (field_name +:+ " must be an iterable"))
  | Iter vs =>
      _ ← raise_if (negb (no_dup vs)) (ValueError (field_name +:+ " must not contain duplicates"));
      Ok vs
  end.
