(* ===== verification/ValidationProps.v ===== *)
(** * Properties of the validation helpers *)

From stdpp Require Import gmap.
From S2P Require Export Validation.

(** ** Characters *)

(** Decide a property of ASCII characters by evaluation. *)
Lemma ascii_forall (P : Z -> bool) :
  forallb P (seqZ 0 128) = true -> forall c, in_range 0 127 c = true -> P c = true.
Proof.
  intros H c Hc. rewrite List.forallb_forall in H. apply H, list_elem_of_In, elem_of_seqZ.
  unfold in_range in Hc. bool_hyps. lia.
Qed.

Lemma token_char_ascii c : token_char c = true -> in_range 0 127 c = true.
Proof.
  unfold token_char, is_alnum, is_digit, is_upper, is_lower, in_range.
  rewrite !orb_true_iff, mem_true, !andb_true_iff, !Z.leb_le.
  intros [H|H]; [lia|]. change (u "._:@-") with [46; 95; 58; 64; 45] in H. set_solver by lia.
Qed.

Lemma token_char_safe c : token_char c = true -> unsafe_browser_codepoint c = false.
Proof.
  intros Hc. apply negb_true_iff.
  assert (H : implb (token_char c) (negb (unsafe_browser_codepoint c)) = true).
  { apply (ascii_forall (fun c => implb (token_char c) (negb (unsafe_browser_codepoint c))));
      [by vm_compute | by apply token_char_ascii]. }
  by rewrite Hc in H.
Qed.

Lemma is_alnum_token c : is_alnum c = true -> token_char c = true.
Proof. unfold token_char. by intros ->. Qed.

Lemma is_alnum_not_space c : is_alnum c = true -> is_space c = false.
Proof.
  intros Hc. apply negb_true_iff.
  assert (H : implb (is_alnum c) (negb (is_space c)) = true).
  { apply (ascii_forall (fun c => implb (is_alnum c) (negb (is_space c))));
      [by vm_compute | by apply token_char_ascii, is_alnum_token]. }
  by rewrite Hc in H.
Qed.

(** ** Stripping *)

Lemma drop_while_head {A} (p : A -> bool) x l : p x = false -> drop_while p (x :: l) = x :: l.
Proof. cbn. by intros ->. Qed.

Lemma strip_trimmed s :
  match s with [] => True | x :: _ => is_space x = false end ->
  match rev s with [] => True | x :: _ => is_space x = false end ->
  strip s = s.
Proof.
  intros H1 H2. unfold strip.
  assert (drop_while is_space s = s) as -> by (destruct s; [done | by apply drop_while_head]).
  assert (drop_while is_space (rev s) = rev s) as ->
    by (destruct (rev s); [done | by apply drop_while_head]).
  apply rev_involutive.
Qed.

(** ** Stable tokens *)

(** The language of the token pattern. *)
Definition well_formed_token (s : pystr) : Prop :=
  1 <= len s <= 256 /\ Forall (fun c => token_char c = true) s
  /\ (exists c, head s = Some c /\ is_alnum c = true)
  /\ (exists c, list.last s = Some c /\ is_alnum c = true).

Lemma stable_token_lang s : re_lang STABLE_TOKEN s <-> well_formed_token s.
Proof.
  unfold STABLE_TOKEN, ROpt, well_formed_token, len. rewrite cat_lang_iff. split.
  - intros (s1 & s2 & -> & H1 & H2). apply char_lang in H1 as (c & -> & Hc).
    apply alt_lang_iff in H2 as [H2|H2].
    + apply eps_lang in H2 as ->. cbn. split_and!; [lia | lia | | by exists c..].
      constructor; [by apply is_alnum_token | done].
    + apply cat_lang_iff in H2 as (m & e & -> & Hm & He).
      apply char_lang in He as (c' & -> & Hc'). apply upto_char_lang in Hm as [Hl Hm].
      rewrite !length_app. cbn [length]. split_and!; [lia | lia | | by exists c |].
      * rewrite !Forall_app. split_and!; [|done|]; (constructor; [by apply is_alnum_token | done]).
      * exists c'. by rewrite app_assoc, last_snoc.
  - intros (Hl & HF & (c & Hc & Hca) & (c' & Hc' & Hca')).
    destruct s as [|x s]; [done|]. injection Hc as ->.
    exists [c], s. split; [done|]. split; [by constructor|].
    destruct s as [|y s' _] using rev_ind; [by repeat constructor|].
    apply lang_alt_r. apply cat_lang_iff. exists s', [y]. split; [done|].
    change (c :: s' ++ [y]) with ((c :: s') ++ [y]) in Hc', HF.
    rewrite last_snoc in Hc'. injection Hc' as ->. rewrite Forall_app in HF.
    destruct HF as [HF _]. apply list.Forall_cons in HF as [_ HF].
    split; [|by constructor]. apply upto_char_lang. split; [|done].
    cbn [length] in Hl. rewrite length_app in Hl. cbn [length] in Hl. lia.
Qed.

Lemma stable_token_Ok v field s :
  stable_token v field = Ok s <-> v = Inst s /\ well_formed_token s.
Proof.
  destruct v as [s'|]; unfold stable_token; [|by split; [|intros []]].
  rewrite bind_Ok. setoid_rewrite raise_if_Ok. setoid_rewrite negb_false_iff.
  setoid_rewrite re_match_lang. setoid_rewrite stable_token_lang. split.
  - intros (_ & H & [= ->]). done.
  - intros [[= ->] H]. by exists tt.
Qed.

Lemma stable_token_Raise v field e :
  stable_token v field = Raise e -> e = ValueError (field +:+
    " must be a non-empty stable token of at most 256 characters").
Proof.
  destruct v as [s|]; cbn; [|congruence]. unfold raise_if. by destruct (negb _); intros [= <-].
Qed.

(** [stable_token] returns its argument unchanged exactly when it is a
    string of 1 to 256 characters from [A-Za-z0-9._:@-] that starts and ends
    with a letter or digit; any other object is refused with [ValueError]. *)
Theorem stable_token_exact v field :
  (forall s, stable_token v field = Ok s <-> v = Inst s /\ well_formed_token s)
  /\ (~ (exists s, v = Inst s /\ well_formed_token s) ->
      stable_token v field = Raise (ValueError (field +:+
        " must be a non-empty stable token of at most 256 characters"))).
Proof.
  split; [intros s; apply stable_token_Ok|]. intros Hno.
  destruct (stable_token v field) as [s|e] eqn:H.
  - apply stable_token_Ok in H. destruct Hno. by exists s.
  - by apply stable_token_Raise in H as ->.
Qed.

Lemma stable_token_same v field s : stable_token v field = Ok s -> v = Inst s.
Proof. destruct v; cbn; [|done]. intros H. by inv_ok. Qed.

Lemma well_formed_token_nonempty s : well_formed_token s -> s <> [].
Proof. intros (Hl & _) ->. unfold len in Hl; cbn in Hl. lia. Qed.

#[global] Instance well_formed_token_dec s : Decision (well_formed_token s).
Proof.
  refine (cast_if (decide (re_match STABLE_TOKEN s = true)));
    by rewrite <- stable_token_lang, <- re_match_lang.
Defined.

Lemma frozen_tokens_Ok vs field (S : gset pystr) :
  frozen_tokens vs field = Ok S <->
  exists l, vs = Iter (Inst <$> l) /\ Forall well_formed_token l /\ S = list_to_set l.
Proof.
  split.
  - destruct vs as [vs| |]; cbn; [|done..]. intros H. apply bind_Ok in H as (l & Hl & [= <-]).
    exists l. apply traverse_Ok in Hl. split_and!; [|..|done].
    + f_equal. induction Hl as [|v s vs l Hv _ IH]; [done|].
      apply stable_token_Ok in Hv as [-> _]. cbn. by f_equal.
    + induction Hl as [|v s vs l Hv _ IH]; [done|]. constructor; [|done].
      by apply stable_token_Ok in Hv as [_ ?].
  - intros (l & -> & Hl & ->). cbn. apply bind_Ok. exists l. split; [|done].
    apply traverse_Ok. induction Hl as [|s l Hs _ IH]; [done|]. constructor; [|done].
    by apply stable_token_Ok.
Qed.

Lemma unique_tuple_Ok {A} `{EqDecision A} (vs : dyniter A) field l :
  unique_tuple vs field = Ok l <-> vs = Iter l /\ NoDup l.
Proof.
  destruct vs as [vs| |]; cbn; [|by split; [|intros []]..]. rewrite bind_Ok.
  setoid_rewrite raise_if_Ok. split.
  - intros (_ & H & [= ->]). bool_hyps. done.
  - intros [[= ->] H]. exists tt. by rewrite (proj2 (no_dup_true _) H).
Qed.

(** ** Browser-safe text *)

Lemma browser_safe_string_Ok v field m allow_empty s :
  browser_safe_string v field m allow_empty = Ok s <->
  v = Inst s /\ (allow_empty = false -> s <> []) /\ len s <= m
  /\ Forall (fun c => unsafe_browser_codepoint c = false) s.
Proof.
  assert (Hex : forall s, existsb unsafe_browser_codepoint s = false <->
    Forall (fun c => unsafe_browser_codepoint c = false) s).
  { induction s0 as [|c s0 IH]; cbn; [by split|].
    rewrite orb_false_iff, list.Forall_cons. tauto. }
  assert (Hnil : forall s, len s = 0 <-> s = @nil Z).
  { intros []; [done|]. split; [|done]. unfold len; cbn; lia. }
  destruct v as [s'|]; unfold browser_safe_string; [|by split; [|intros []]].
  split.
  - intros H. inv_ok. apply orb_false_iff in Hm as [H1 H2]. split_and!; [done | | | by apply Hex].
    + intros -> ->. done.
    + by apply Z.ltb_ge.
  - intros ([= ->] & H1 & H2 & H3). apply Hex in H3. rewrite H3.
    assert ((negb allow_empty && (len s =? 0)) || (m <? len s) = false) as ->; [|done].
    apply orb_false_iff. split; [|by apply Z.ltb_ge].
    destruct allow_empty; [done|]. apply Z.eqb_neq. intros Hs. apply Hnil in Hs. by apply H1.
Qed.

(** Code points a [str] can hold. *)
Definition code_point (c : Z) : Prop := 0 <= c <= 0x10FFFF.

(** The characters a display can be attacked with: controls, bidirectional
    overrides and isolates, invisible and line separators, private use,
    surrogates. *)
Definition spoofing (c : Z) : Prop :=
  0 <= c < 0x20 \/ 0x7F <= c <= 0x9F \/ c = 0x200B \/ 0x200E <= c <= 0x200F
  \/ 0x2028 <= c <= 0x202E \/ 0x2060 <= c <= 0x2064 \/ 0x2066 <= c <= 0x206F
  \/ c = 0xFEFF \/ 0xE000 <= c <= 0xF8FF \/ 0xD800 <= c <= 0xDFFF.

Lemma spoofing_unsafe c : spoofing c -> unsafe_browser_codepoint c = true.
Proof.
  intros H. unfold unsafe_browser_codepoint.
  assert (Hm : mem c allowed_format_characters = false).
  { apply mem_false. unfold allowed_format_characters, spoofing in *. set_solver by lia. }
  rewrite Hm. match goal with |- (if ?b then _ else _) = true => destruct b eqn:Hb end; [done|].
  repeat (apply orb_false_iff in Hb as [Hb ?]). unfold in_range, non_ascii_whitespace in *.
  cbn [existsb unsafe_format_ranges]. unfold in_range.
  repeat match goal with H : _ || _ = false |- _ => apply orb_false_iff in H as [H ?] end.
  apply not_false_iff_true. intros Hf.
  repeat match goal with H : _ || _ = false |- _ => apply orb_false_iff in H as [? H] end.
  unfold spoofing in H.
  repeat match goal with H : (_ && _) = false |- _ => apply andb_false_iff in H end.
  rewrite ?Z.leb_gt, ?Z.ltb_ge, ?Z.eqb_neq in *. lia.
Qed.

Lemma utf8_no_surrogate s : Forall (fun c => is_surrogate c = false) s -> is_Some (utf8 s).
Proof.
  induction 1 as [|c s Hc _ [bs IH]]; cbn; [by eexists|]. rewrite IH.
  unfold utf8_char. rewrite Hc.
  repeat match goal with |- context [if ?b then _ else _] => destruct b end; by eexists.
Qed.

(** Text accepted at a browser or JSON boundary is returned unchanged,
    respects the length bound, contains none of the spoofing characters and
    can always be encoded in UTF-8. *)
Theorem browser_safe_string_safe v field m allow_empty s :
  browser_safe_string v field m allow_empty = Ok s ->
  v = Inst s /\ len s <= m /\ Forall (fun c => ~ spoofing c) s /\ is_Some (utf8 s).
Proof.
  intros H. apply browser_safe_string_Ok in H as (-> & _ & Hl & HF).
  assert (Hs : Forall (fun c => ~ spoofing c) s).
  { eapply list.Forall_impl; [exact HF|]. intros c Hc Hsp.
    apply spoofing_unsafe in Hsp. congruence. }
  split_and!; [done..|]. apply utf8_no_surrogate. eapply list.Forall_impl; [exact Hs|].
  intros c Hc. apply not_true_iff_false. unfold is_surrogate, in_range. intros H.
  apply Hc. unfold spoofing. bool_hyps. lia.
Qed.

(** The text [non_empty_text] accepts. *)
Definition well_formed_text (s : pystr) : Prop :=
  s <> [] /\ strip s = s /\ len s <= 256
  /\ Forall (fun c => unsafe_browser_codepoint c = false) s.

Lemma non_empty_text_Ok v field s :
  non_empty_text v field = Ok s <-> v = Inst s /\ well_formed_text s.
Proof.
  split.
  - destruct v as [s'|]; unfold non_empty_text; [|done]. intros H. inv_ok. bool_hyps.
    apply browser_safe_string_Ok in Hm1 as ([= ->] & _ & Hl & HF). split; [done|].
    split_and!; [|done..]. intros ->. done.
  - intros [-> (Hne & Hs & Hl & HF)]. unfold non_empty_text. rewrite Hs.
    assert (Hb : browser_safe_string (Inst s) field 256 true = Ok s)
      by by apply browser_safe_string_Ok.
    rewrite bool_decide_eq_true_2 by done. rewrite (proj2 (Z.eqb_neq _ 0)).
    + rewrite (proj2 (Z.ltb_ge _ _)) by done. cbn [orb negb raise_if mbind result_bind]. by rewrite Hb.
    + unfold len. destruct s; [done | cbn [length]; lia].
Qed.

Lemma safe_literal s :
  forallb (fun c => negb (unsafe_browser_codepoint c)) s = true ->
  Forall (fun c => unsafe_browser_codepoint c = false) s.
Proof.
  rewrite List.forallb_forall. intros H. apply list.Forall_forall. intros c Hc.
  apply negb_true_iff, H. by apply list_elem_of_In.
Qed.

Lemma well_formed_token_safe s :
  well_formed_token s -> Forall (fun c => unsafe_browser_codepoint c = false) s.
Proof. intros (_ & HF & _). eapply list.Forall_impl; [exact HF | apply token_char_safe]. Qed.

(** Every stable token is also acceptable display text: the three
    validators form a hierarchy. *)
Theorem stable_token_is_text v field field' s :
  stable_token v field = Ok s ->
  non_empty_text v field' = Ok s /\ browser_safe_string v field' 256 false = Ok s.
Proof.
  intros H. apply stable_token_Ok in H as [-> Hs]. pose proof Hs as (Hl & HF & (c & Hc & Hca) & (c' & Hc' & Hca')).
  assert (Hsafe : Forall (fun c => unsafe_browser_codepoint c = false) s).
  { eapply list.Forall_impl; [exact HF | apply token_char_safe]. }
  assert (Hstrip : strip s = s).
  { apply strip_trimmed.
    - destruct s; [done|]. injection Hc as ->. by apply is_alnum_not_space.
    - destruct s as [|x s' _] using rev_ind; [done|]. rewrite last_snoc in Hc'.
      injection Hc' as ->. rewrite rev_unit. by apply is_alnum_not_space. }
  split.
  - assert (Hb : browser_safe_string (Inst s) field' 256 true = Ok s).
    { apply browser_safe_string_Ok. split_and!; [done | done | lia | done]. }
    unfold non_empty_text. rewrite Hstrip, Hb, bool_decide_eq_true_2 by done.
    assert (((len s =? 0) || (256 <? len s)) = false) as -> by (apply orb_false_iff; lia).
    done.
  - apply browser_safe_string_Ok. split_and!; [done | | lia | done].
    intros _. by apply well_formed_token_nonempty.
Qed.

(** ** Semantic versions: the capture groups against the pattern *)

(** Every character class of the pattern is included in [q]. *)
Fixpoint re_within (q : Z -> Prop) (r : re) : Prop :=
  match r with
  | REmpty | REps => True
  | RChar p => forall c, p c = true -> q c
  | RCat r1 r2 | RAlt r1 r2 => re_within q r1 /\ re_within q r2
  | RStar r | RUpTo _ r => re_within q r
  end.

Lemma re_within_Forall q r s : re_within q r -> re_lang r s -> Forall q s.
Proof.
  intros Hq H; induction H; cbn in Hq; rewrite ?Forall_app; naive_solver.
Qed.

Lemma cut_None c s a : cut c s = (a, None) <-> s = a /\ Forall (fun x => x <> c) a.
Proof.
  revert a; induction s as [|x s IH]; intros a; cbn.
  - split; [by intros [= <-] | by intros [<- _]].
  - destruct (Z.eqb_spec x c) as [->|Hx].
    + split; [done|]. intros [<- H]. by apply list.Forall_cons in H as [? _].
    + destruct (cut c s) as [a' [b'|]]; cbn.
      * split; [done|]. intros [<- H]. apply list.Forall_cons in H as [_ H].
        by specialize (proj2 (IH s) (conj eq_refl H)).
      * split.
        -- intros [= <-]. destruct (proj1 (IH a') eq_refl) as [-> HF]. split; [done | by constructor].
        -- intros [<- H]. apply list.Forall_cons in H as [_ H].
           by specialize (proj2 (IH s) (conj eq_refl H)) as [= ->].
Qed.

Lemma cut_Some c s a b : cut c s = (a, Some b) <-> s = a ++ c :: b /\ Forall (fun x => x <> c) a.
Proof.
  revert a; induction s as [|x s IH]; intros a; cbn.
  - split; [done|]. intros [H _]. by destruct a.
  - destruct (Z.eqb_spec x c) as [->|Hx].
    + split; [by intros [= <- <-]|]. intros [Heq H]. destruct a as [|y a]; cbn in Heq; simplify_eq; [done|].
      by apply list.Forall_cons in H as [? _].
    + destruct (cut c s) as [a' [b'|]]; cbn.
      * split.
        -- intros [= <- <-]. destruct (proj1 (IH a') eq_refl) as [-> HF]. split; [done | by constructor].
        -- intros [Heq H]. destruct a as [|y a]; cbn in Heq; simplify_eq.
           apply list.Forall_cons in H as [_ H].
           by specialize (proj2 (IH a) (conj eq_refl H)) as [= -> ->].
      * split; [done|]. intros [Heq H]. destruct a as [|y a]; cbn in Heq; simplify_eq.
        apply list.Forall_cons in H as [_ H].
        by specialize (proj2 (IH a) (conj eq_refl H)).
Qed.

Definition no_dot (w : pystr) : Prop := Forall (fun x => x <> 46) w.

Lemma split_on_word w : no_dot w -> split_on (Z.eqb 46) w = [w].
Proof.
  induction 1 as [|x w Hx _ IH]; [done|]. cbn [split_on]. rewrite IH.
  by destruct (Z.eqb_spec 46 x).
Qed.

Lemma split_on_cons_word w s :
  no_dot w -> split_on (Z.eqb 46) (w ++ 46 :: s) = w :: split_on (Z.eqb 46) s.
Proof.
  induction 1 as [|x w Hx _ IH]; [done|]. cbn [split_on app]. rewrite IH.
  by destruct (Z.eqb_spec 46 x).
Qed.

(** A text is its dot-separated words. *)
Lemma split_on_join s : Forall no_dot (split_on (Z.eqb 46) s) /\
  exists w ws, split_on (Z.eqb 46) s = w :: ws /\ s = w ++ mjoin (cons 46 <$> ws).
Proof.
  induction s as [|x s (HF & w & ws & Heq & ->)]; cbn [split_on].
  - split; [by repeat constructor|]. by exists [], [].
  - destruct (Z.eqb_spec 46 x) as [<-|Hx].
    + rewrite Heq in *. split; [constructor; [constructor | done]|]. by exists [], (w :: ws).
    + rewrite Heq in *. apply list.Forall_cons in HF as [Hw HF].
      split; [constructor; [by constructor | done]|]. by exists (x :: w), ws.
Qed.

Lemma dot_lang s : re_lang (RLit (u ".")) s <-> s = [46].
Proof.
  change (RLit (u ".")) with (RCat (RChar (Z.eqb 46)) REps). rewrite cat_lang_iff. split.
  - intros (s1 & s2 & -> & H1 & H2). apply char_lang in H1 as (c & -> & Hc).
    apply eps_lang in H2 as ->. apply Z.eqb_eq in Hc as <-. done.
  - intros ->. exists [46], []. by repeat constructor.
Qed.

Lemma dotted_tail_lang r s :
  re_lang (RStar (RCat (RLit (u ".")) r)) s <->
  exists ws, s = mjoin (cons 46 <$> ws) /\ Forall (re_lang r) ws.
Proof.
  split.
  - intros H. remember (RStar _) as q eqn:Hq. induction H; simplify_eq; [by exists []|].
    destruct IHre_lang2 as (ws & -> & HF); [done|].
    apply cat_lang_iff in H as (d & w & -> & Hd & Hw). apply dot_lang in Hd as ->.
    exists (w :: ws). split; [by rewrite <- app_assoc | by constructor].
  - intros (ws & -> & HF). induction HF as [|w ws Hw _ IH]; [constructor|].
    apply (lang_star_cons _ (46 :: w)); [|exact IH].
    apply (lang_cat _ _ [46] w); [by apply dot_lang | done].
Qed.

(** [r(\.r)*] matches the texts whose dot-separated words match [r]. *)
Lemma dotted_lang r s :
  re_within (fun c => c <> 46) r ->
  re_lang (RDotted r) s <-> Forall (re_lang r) (split_on (Z.eqb 46) s).
Proof.
  intros Hr. unfold RDotted. rewrite cat_lang_iff. setoid_rewrite dotted_tail_lang. split.
  - intros (w & s2 & -> & Hw & ws & -> & HF).
    revert w Hw; induction HF as [|w' ws Hw' _ IH]; intros w Hw.
    + cbn. rewrite app_nil_r, split_on_word by (by eapply re_within_Forall). by constructor.
    + cbn. rewrite split_on_cons_word by (by eapply re_within_Forall).
      constructor; [done | by apply IH].
  - intros HF. destruct (split_on_join s) as (_ & w & ws & Heq & Hs). rewrite Heq in HF.
    apply list.Forall_cons in HF as [Hw HF]. exists w, (mjoin (cons 46 <$> ws)).
    split_and!; [done..|]. by exists ws.
Qed.

Lemma forallb_re_match r ws : forallb (re_match r) ws = true <-> Forall (re_lang r) ws.
Proof.
  rewrite List.forallb_forall, list.Forall_forall.
  setoid_rewrite re_match_lang. by setoid_rewrite list_elem_of_In.
Qed.

Ltac solve_within :=
  unfold SEMVER_IDENTIFIER, BUILD_IDENTIFIER, RPlus, NUMERIC;
  change (RLit (u "0")) with (RCat (RChar (Z.eqb 48)) REps); cbn [re_within];
  repeat match goal with |- _ /\ _ => split | |- True => exact I end; intros c; unfold ident_char, ident_alpha, is_alnum, nonzero_digit,
    is_digit, is_upper, is_lower, in_range; rewrite ?orb_true_iff, ?andb_true_iff, ?Z.leb_le, ?Z.eqb_eq; lia.

Lemma numeric_within : re_within (fun c => c <> 43 /\ c <> 45 /\ c <> 46) NUMERIC.
Proof. solve_within. Qed.

Lemma identifier_within : re_within (fun c => c <> 43 /\ c <> 46) SEMVER_IDENTIFIER.
Proof. solve_within. Qed.

Lemma build_within : re_within (fun c => c <> 46) BUILD_IDENTIFIER.
Proof. solve_within. Qed.

Lemma re_within_impl (q q' : Z -> Prop) r :
  (forall c, q c -> q' c) -> re_within q r -> re_within q' r.
Proof. intros Hq; induction r; cbn; naive_solver. Qed.

(** The three release numbers. *)
Definition core_re : re :=
  RCat NUMERIC (RCat (RLit (u ".")) (RCat NUMERIC (RCat (RLit (u ".")) NUMERIC))).

Lemma core_lang s :
  re_lang core_re s <->
  exists a b c, s = a ++ 46 :: b ++ 46 :: c
  /\ re_lang NUMERIC a /\ re_lang NUMERIC b /\ re_lang NUMERIC c.
Proof.
  unfold core_re. split.
  - intros H. apply cat_lang_iff in H as (a & s1 & -> & Ha & H).
    apply cat_lang_iff in H as (d & s2 & -> & Hd & H). apply dot_lang in Hd as ->.
    apply cat_lang_iff in H as (b & s3 & -> & Hb & H).
    apply cat_lang_iff in H as (d & c & -> & Hd & Hc). apply dot_lang in Hd as ->.
    by exists a, b, c.
  - intros (a & b & c & -> & Ha & Hb & Hc). apply lang_cat; [done|].
    apply (lang_cat _ _ [46]); [by apply dot_lang|]. apply lang_cat; [done|].
    apply (lang_cat _ _ [46]); [by apply dot_lang | done].
Qed.

Lemma core_split s a b c :
  split_on (Z.eqb 46) s = [a; b; c] -> s = a ++ 46 :: b ++ 46 :: c.
Proof.
  intros H. destruct (split_on_join s) as (_ & w & ws & Heq & ->). rewrite Heq in H.
  injection H as -> ->. cbn. by rewrite app_nil_r.
Qed.

(** An optional part introduced by the character [m]. *)
Lemma opt_part_lang m r s :
  re_lang (ROpt (RCat (RLit [m]) r)) s <-> s = [] \/ exists w, s = m :: w /\ re_lang r w.
Proof.
  unfold ROpt. rewrite alt_lang_iff, eps_lang. apply or_iff_compat_l. split.
  - intros H. apply cat_lang_iff in H as (d & w & -> & Hd & Hw).
    apply cat_lang_iff in Hd as (d' & e & -> & Hd & He).
    apply char_lang in Hd as (c & -> & Hc). apply Z.eqb_eq in Hc as <-.
    apply eps_lang in He as ->. by exists w.
  - intros (w & -> & Hw). apply (lang_cat _ _ [m]); [|done].
    apply (lang_cat _ _ [m] []); constructor. apply Z.eqb_refl.
Qed.

(** What a successful match captures. *)
Record captures (s : pystr) (g : semver_groups) : Prop := {
  cap_text : s = sv_major g ++ 46 :: sv_minor g ++ 46 :: sv_patch g
               ++ match sv_pre g with Some p => 45 :: p | None => [] end
               ++ match sv_build g with Some b => 43 :: b | None => [] end;
  cap_major : re_lang NUMERIC (sv_major g);
  cap_minor : re_lang NUMERIC (sv_minor g);
  cap_patch : re_lang NUMERIC (sv_patch g);
  cap_pre : forall p, sv_pre g = Some p -> re_lang (RDotted SEMVER_IDENTIFIER) p;
  cap_build : forall b, sv_build g = Some b -> re_lang (RDotted BUILD_IDENTIFIER) b
}.

Lemma semantic_version_lang s : re_lang SEMANTIC_VERSION s <-> exists g, captures s g.
Proof.
  unfold SEMANTIC_VERSION. fold core_re. split.
  - intros H. apply cat_lang_iff in H as (core & s1 & -> & Hcore & H).
    apply cat_lang_iff in H as (pre & build & -> & Hpre & Hbuild).
    apply core_lang in Hcore as (a & b & c & -> & Ha & Hb & Hc).
    apply (opt_part_lang 45) in Hpre as [->|(p & -> & Hp)];
      apply (opt_part_lang 43) in Hbuild as [->|(bd & -> & Hbd)].
    + exists (SemverGroups a b c None None). split; cbn; try done. rewrite <- !app_assoc; cbn; by rewrite <- !app_assoc.
    + exists (SemverGroups a b c None (Some bd)). split; cbn; try done; [rewrite <- !app_assoc; cbn; by rewrite <- !app_assoc | by intros ? [= <-]].
    + exists (SemverGroups a b c (Some p) None). split; cbn; try done; [rewrite <- !app_assoc; cbn; by rewrite <- !app_assoc | by intros ? [= <-]].
    + exists (SemverGroups a b c (Some p) (Some bd)). split; cbn; try done; [rewrite <- !app_assoc; cbn; by rewrite <- !app_assoc | by intros ? [= <-]..].
  - intros ([a b c pre bd] & [-> Ha Hb Hc Hp Hbd]). cbn in *.
    replace (a ++ 46 :: b ++ 46 :: c ++ _) with
      ((a ++ 46 :: b ++ 46 :: c) ++ (match pre with Some p => 45 :: p | None => [] end
        ++ match bd with Some b => 43 :: b | None => [] end))
      by (rewrite <- !app_assoc; cbn; by rewrite <- !app_assoc).
    apply lang_cat; [apply core_lang; by exists a, b, c|]. apply lang_cat.
    + apply (opt_part_lang 45). destruct pre; [right; eauto | by left].
    + apply (opt_part_lang 43). destruct bd; [right; eauto | by left].
Qed.

Lemma identifiers_within r (m : Z) s :
  re_within (fun c => c <> m) r -> m <> 46 -> re_lang (RDotted r) s -> Forall (fun c => c <> m) s.
Proof.
  intros Hr Hm. apply re_within_Forall. cbn. split; [done|]. split; [|done].
  split; [|done]. intros c Hc. apply Z.eqb_eq in Hc. by subst.
Qed.

Lemma semver_match_captures s g : semver_match s = Some g <-> captures s g.
Proof.
  unfold semver_match. split.
  - destruct (cut 43 s) as [h build] eqn:Hcut1. destruct (cut 45 h) as [core pre] eqn:Hcut2.
    destruct (split_on (Z.eqb 46) core) as [|a [|b [|c [|]]]] eqn:Hs; try done.
    apply core_split in Hs as ->.
    destruct (_ && _) eqn:Hb; [|done]. intros [= <-].
    repeat (apply andb_true_iff in Hb as [Hb ?]). rewrite re_match_lang in *.
    assert (Hd : forall r p, re_within (fun c => c <> 46) r -> dotted_ok r (Some p) = true ->
      re_lang (RDotted r) p).
    { intros r p Hr Hp. apply dotted_lang; [done|]. by apply forallb_re_match. }
    split; cbn; try done.
    + destruct pre as [p|], build as [bd|].
      all: first [apply cut_Some in Hcut1 as [-> _] | apply cut_None in Hcut1 as [-> _]].
      all: first [apply cut_Some in Hcut2 as [-> _] | apply cut_None in Hcut2 as [-> _]].
      all: rewrite ?app_nil_r, <- ?app_assoc; cbn; rewrite <- ?app_assoc; cbn;
        rewrite ?app_nil_r, <- ?app_assoc; done.
    + intros p ->. apply Hd; [|done]. eapply re_within_impl; [|apply identifier_within]. cbn; tauto.
    + intros bd ->. apply Hd; [apply build_within | done].
  - destruct g as [a b c pre bd]. intros [-> Ha Hb Hc Hp Hbd]. cbn in *.
    pose proof (re_within_Forall _ _ _ numeric_within Ha) as Wa.
    pose proof (re_within_Forall _ _ _ numeric_within Hb) as Wb.
    pose proof (re_within_Forall _ _ _ numeric_within Hc) as Wc.
    set (core := a ++ 46 :: b ++ 46 :: c).
    set (h := core ++ match pre with Some p => 45 :: p | None => [] end).
    assert (Wcore : Forall (fun x => x <> 43 /\ x <> 45) core).
    { unfold core. rewrite Forall_app, list.Forall_cons, Forall_app, list.Forall_cons.
      split_and!; try lia; (eapply list.Forall_impl; [eassumption | cbn; tauto]). }
    assert (Wh : Forall (fun x => x <> 43) h).
    { unfold h. rewrite Forall_app. split.
      - eapply list.Forall_impl; [exact Wcore | cbn; tauto].
      - destruct pre as [p|]; [|done]. constructor; [lia|].
        apply (identifiers_within SEMVER_IDENTIFIER); [|lia | by apply Hp].
        eapply re_within_impl; [|apply identifier_within]. cbn; tauto. }
    assert (Hcut1 : cut 43 (a ++ 46 :: b ++ 46 :: c ++ (match pre with Some p => 45 :: p | None => [] end)
        ++ match bd with Some b => 43 :: b | None => [] end) = (h, bd)).
    { replace (a ++ _) with (h ++ match bd with Some b => 43 :: b | None => [] end)
        by (unfold h, core; rewrite <- !app_assoc; cbn; by rewrite <- !app_assoc).
      destruct bd; [by apply cut_Some | rewrite app_nil_r; by apply cut_None]. }
    assert (Hcut2 : cut 45 h = (core, pre)).
    { assert (Forall (fun x => x <> 45) core) by (eapply list.Forall_impl; [exact Wcore | cbn; tauto]).
      unfold h. destruct pre; [by apply cut_Some | rewrite app_nil_r; by apply cut_None]. }
    rewrite Hcut1, Hcut2. unfold core.
    assert (Hnd : forall w, Forall (fun c => c <> 43 /\ c <> 45 /\ c <> 46) w -> no_dot w).
    { intros w Hw. eapply list.Forall_impl; [exact Hw | cbn; tauto]. }
    rewrite !split_on_cons_word, split_on_word by auto.
    assert (Hd : forall r p, re_within (fun c => c <> 46) r -> (forall q, p = Some q -> re_lang (RDotted r) q) ->
      dotted_ok r p = true).
    { intros r [q|] Hr Hq; [|done]. apply forallb_re_match, dotted_lang; eauto. }
    rewrite (proj2 (re_match_lang _ _) Ha), (proj2 (re_match_lang _ _) Hb), (proj2 (re_match_lang _ _) Hc).
    rewrite (Hd _ pre), (Hd _ bd); [done | apply build_within | done | | done].
    eapply re_within_impl; [|apply identifier_within]. cbn; tauto.
Qed.

(** Reading a version by its separators computes the capture groups of
    the semantic version pattern: it succeeds on exactly the texts the
    regular expression matches, and the groups spell the text. *)
Theorem semver_match_regex s :
  (is_Some (semver_match s) <-> re_match SEMANTIC_VERSION s = true)
  /\ forall g, semver_match s = Some g <-> captures s g.
Proof.
  split; [|apply semver_match_captures].
  rewrite re_match_lang, semantic_version_lang. split.
  - intros [g Hg]. exists g. by apply semver_match_captures.
  - intros [g Hg]. exists g. by apply semver_match_captures.
Qed.

Lemma semantic_version_Ok v field ap ab s :
  semantic_version v field ap ab = Ok s <->
  v = Inst s /\ len s <= 128 /\ exists g, semver_match s = Some g
  /\ (ap = false -> sv_pre g = None) /\ (ab = false -> sv_build g = None).
Proof.
  unfold semantic_version. split.
  - destruct v as [s'|]; [|done]. destruct (Z.leb_spec (len s') 128); [|done].
    destruct (semver_match s') as [g|] eqn:Hg; [|done]. intros H'. inv_ok. bool_hyps.
    split_and!; [done..|]. exists g. split_and!; [done|..];
      intros ->; apply eq_None_not_Some; cbn in *; by bool_hyps.
  - intros (-> & Hl & g & Hg & Hp & Hb). rewrite (proj2 (Z.leb_le _ _)) by done. rewrite Hg.
    replace (_ || _) with false; [done|]. symmetry. apply orb_false_iff.
    split; apply andb_false_iff; [destruct ap | destruct ab]; auto; right;
      apply bool_decide_eq_false; [rewrite Hp by done | rewrite Hb by done]; by intros [].
Qed.

(** The only hyphen of a release number's text introduces the prerelease. *)
Lemma semver_dash s g :
  captures s g -> sv_build g = None -> 45 ∈ s <-> is_Some (sv_pre g).
Proof.
  intros [-> Ha Hb Hc Hp _] ->.
  assert (Hn : forall w, re_lang NUMERIC w -> 45 ∉ w).
  { intros w Hw Hin. pose proof (re_within_Forall _ _ _ numeric_within Hw) as HF.
    eapply list.Forall_forall in HF; [|exact Hin]. cbn in HF. lia. }
  rewrite app_nil_r, !elem_of_app, !elem_of_cons, !elem_of_app, !elem_of_cons, !elem_of_app.
  destruct (sv_pre g) as [p|]; split.
  - by eexists.
  - intros _. rewrite elem_of_cons. tauto.
  - intros [H|[H|[H|[H|[H|H]]]]]; try lia;
      try first [by destruct (Hn _ Ha) | by destruct (Hn _ Hb) | by destruct (Hn _ Hc)].
    by apply elem_of_nil in H.
  - by intros [].
Qed.

(** ** Witnesses *)

Lemma browser_safe_string_safe_witness :
  let s := u "Zoom in" in
  Inst s = Inst s /\ len s <= 12 /\ Forall (fun c => ~ spoofing c) s /\ is_Some (utf8 s).
Proof.
  apply (browser_safe_string_safe (Inst (u "Zoom in")) "label" 12 false). reflexivity.
Defined.

Lemma stable_token_is_text_witness :
  non_empty_text (Inst (u "run:01@lab")) "id" = Ok (u "run:01@lab")
  /\ browser_safe_string (Inst (u "run:01@lab")) "id" 256 false = Ok (u "run:01@lab").
Proof.
  apply (stable_token_is_text _ "token" "id"). vm_compute. reflexivity.
Defined.
