(* ===== verification/UrlSplit.v ===== *)
(** * URL splitting

    The part of [urllib.parse] and [ipaddress] the contracts use: [urlsplit]
    with the [hostname], [port], [username] and [password] properties of its
    result, [unquote], and the syntax of IPv4 and IPv6 addresses.  The NFKC
    normalisation of the Unicode database is a parameter. *)

From S2P Require Export Validation.

(** ** Text helpers *)

(** [s.rpartition(c)] as the text before and after the last [c]. *)
Definition rcut (c : Z) (s : pystr) : option pystr * pystr :=
  match cut c (rev s) with
  | (_, None) => (None, s)
  | (after, Some before) => (Some (rev before), rev after)
  end.

(** [s.startswith(p)] *)
Definition starts_with (p s : pystr) : bool := bool_decide (take (length p) s = p).

(** [s.split(c)] on one character. *)
Definition split_char (c : Z) (s : pystr) : list pystr := split_on (Z.eqb c) s.

Definition is_hex (c : Z) : bool := is_digit c || in_range 65 70 c || in_range 97 102 c.

Definition hex_value (c : Z) : Z :=
  if is_digit c then c - 48 else if in_range 65 70 c then c - 55 else c - 87.

(** ** Addresses *)

(** [IPv4Address._parse_octet]; its range test follows the digit tests. *)
Definition ipv4_octet (s : pystr) : bool :=
  negb (bool_decide (s = [])) && forallb is_digit s && (len s <=? 3)
  && (bool_decide (s = u "0") || negb (starts_with (u "0") s)) && (parse_int s <=? 255).

Definition IPv4Address (s : pystr) : bool :=
  let octets := split_char 46 s in
  (len octets =? 4) && forallb ipv4_octet octets.

(** [IPv6Address._parse_hextet] *)
Definition ipv6_hextet (s : pystr) : bool :=
  forallb is_hex s && (len s <=? 4) && negb (bool_decide (s = [])).

(** The parts after an embedded IPv4 address became two hextets. *)
Definition ipv6_parts (s : pystr) : option (list pystr) :=
  let parts := split_char 58 s in
  if len parts <? 3 then None
  else match list.last parts with
       | Some l =>
           if mem 46 l
           then if IPv4Address l then Some (removelast parts ++ [u "0"; u "0"]) else None
           else Some parts
       | None => None
       end.

(** The index of the only empty inner part ([::]); [None] for two of them. *)
Definition ipv6_skip (parts : list pystr) : option (option nat) :=
  match filter (fun i => parts !! i = Some []) (seq 1 (length parts - 2)) with
  | [] => Some None
  | [i] => Some (Some i)
  | _ => None
  end.

Definition empty_at (i : nat) (parts : list pystr) : bool :=
  bool_decide (parts !! i = Some []).

Definition IPv6_from_string (s : pystr) : bool :=
  match ipv6_parts s with
  | None => false
  | Some parts =>
      let n := length parts in
      if (9 <? len parts) then false
      else match ipv6_skip parts with
      | None => false
      | Some None =>
          (len parts =? 8) && forallb ipv6_hextet parts
      | Some (Some i) =>
          let hi := if empty_at 0 parts then (i - 1)%nat else i in
          let lo := if empty_at (n - 1) parts then (n - i - 2)%nat else (n - i - 1)%nat in
          negb (empty_at 0 parts && negb (hi =? 0)%nat)
          && negb (empty_at (n - 1) parts && negb (lo =? 0)%nat)
          && (hi + lo <=? 7)%nat
          && forallb ipv6_hextet (take hi parts)
          && forallb ipv6_hextet (drop (n - lo) parts)
      end
  end.

(** [IPv6Address(s)] does not raise. *)
Definition IPv6Address (s : pystr) : bool :=
  if mem 47 s then false
  else match cut 37 s with
       | (a, None) => IPv6_from_string a
       | (a, Some scope) =>
           negb (bool_decide (scope = [])) && negb (mem 37 scope) && IPv6_from_string a
       end.

(** ** [urlsplit] *)

Record SplitResult := MkSplit {
  scheme : pystr; netloc : pystr; path : pystr; query : pystr; fragment : pystr }.

Definition scheme_char (c : Z) : bool := is_alnum c || mem c (u "+-.").

Definition lower_ascii_char (c : Z) : Z := if is_upper c then c + 32 else c.

(** [_WHATWG_C0_CONTROL_OR_SPACE] and the removed control characters. *)
Definition clean_url (s : pystr) : pystr :=
  filter (fun c => negb (mem c [9; 10; 13])) (drop_while (fun c => in_range 0 32 c) s).

Definition split_scheme (s : pystr) : pystr * pystr :=
  match cut 58 s with
  | (c :: a, Some b) =>
      if (is_upper c || is_lower c) && forallb scheme_char (c :: a) then (lower (c :: a), b)
      else ([], s)
  | _ => ([], s)
  end.

(** [_splitnetloc(url, 2)]: up to the first of [/?#]. *)
Fixpoint span_netloc (s : pystr) : pystr * pystr :=
  match s with
  | [] => ([], [])
  | c :: s' => if mem c (u "/?#") then ([], s)
               else let '(a, b) := span_netloc s' in (c :: a, b)
  end.

(** [v[0-9a-f]+] followed by a dot and at least one character other than a
    newline. *)
Definition ipvfuture (s : pystr) : bool :=
  match cut 46 (drop 1 s) with
  | (a, Some b) =>
      negb (bool_decide (a = [])) && forallb is_hex a && negb (bool_decide (b = []))
      && negb (mem 10 b)
  | _ => false
  end.

(** [_check_bracketed_host] does not raise. *)
Definition bracketed_host_ok (netloc : pystr) : bool :=
  match cut 91 netloc with
  | (_, None) => true
  | (_, Some rest) =>
      let host := (cut 93 rest).1 in
      if starts_with (u "v") host then ipvfuture host else IPv6Address host
  end.

Section Urlsplit.
(** [unicodedata.normalize("NFKC", s)] *)
Variable nfkc : pystr -> pystr.

(** [_checknetloc] does not raise. *)
Definition netloc_ok (netloc : pystr) : bool :=
  if is_ascii netloc then true
  else
    let n := filter (fun c => negb (mem c (u "@:#?"))) netloc in
    let n2 := nfkc n in
    bool_decide (n = n2) || negb (existsb (fun c => mem c (u "/?#@:")) n2).

(** [None] is a [ValueError]. *)
Definition urlsplit (url : pystr) : option SplitResult :=
  let '(sch, rest) := split_scheme (clean_url url) in
  let '(nl, rest) :=
    if starts_with (u "//") rest then span_netloc (drop 2 rest) else ([], rest) in
  if negb (bool_decide (mem 91 nl = mem 93 nl)) then None
  else if mem 91 nl && negb (bracketed_host_ok nl) then None
  else
    let '(rest, frag) := cut 35 rest in
    let '(p, q) := cut 63 rest in
    if netloc_ok nl
    then Some (MkSplit sch nl p (default [] q) (default [] frag))
    else None.
End Urlsplit.

(** ** Properties of the result *)

(** [_hostinfo]: the host and the port text, if any. *)
Definition hostinfo (r : SplitResult) : pystr * option pystr :=
  let info := (rcut 64 (netloc r)).2 in
  let '(h, p) :=
    match cut 91 info with
    | (_, Some bracketed) =>
        let '(h, rest) := cut 93 bracketed in (h, (cut 58 (default [] rest)).2)
    | (_, None) => cut 58 info
    end in
  (h, match p with Some (_ :: _) => p | _ => None end).

(** [hostname]: [None] when empty; ASCII letters are lowered up to a zone. *)
Definition hostname (r : SplitResult) : option pystr :=
  match (hostinfo r).1 with
  | [] => None
  | h => let '(a, zone) := cut 37 h in
         Some (lower a ++ match zone with Some z => 37 :: z | None => [] end)
  end.

(** [port]: [None] is the [ValueError], [Some None] an absent port. *)
Definition port (r : SplitResult) : option (option Z) :=
  match (hostinfo r).2 with
  | None => Some None
  | Some p =>
      if forallb is_digit p && (parse_int p <=? 65535) then Some (Some (parse_int p)) else None
  end.

Definition username (r : SplitResult) : option pystr :=
  match (rcut 64 (netloc r)).1 with Some userinfo => Some (cut 58 userinfo).1 | None => None end.

Definition password (r : SplitResult) : option pystr :=
  match (rcut 64 (netloc r)).1 with Some userinfo => (cut 58 userinfo).2 | None => None end.

(** ** [unquote] of ASCII text whose escapes are ASCII

    Escapes of bytes below 128 are replaced by their character; the callers
    have refused every other escape. *)
Fixpoint unquote (s : pystr) : pystr :=
  match s with
  | [] => []
  | c :: s' =>
      if c =? 37 then
        match s' with
        | a :: b :: s'' =>
            if is_hex a && is_hex b then (hex_value a * 16 + hex_value b) :: unquote s''
            else c :: unquote s'
        | _ => c :: unquote s'
        end
      else c :: unquote s'
  end.

(** ** Lemmas *)

(** Induction in steps of one or three characters. *)
Lemma list_ind_3 {A} (P : list A -> Prop) :
  P [] -> (forall c s, P s -> (forall a b s', s = a :: b :: s' -> P s') -> P (c :: s)) -> forall s, P s.
Proof.
  intros Hnil Hcons s. remember (length s) as n eqn:Hn. revert s Hn.
  induction n as [n IH] using lt_wf_ind. intros [|c s] ->; [done|].
  apply Hcons; [by eapply IH; [|done]; cbn; lia|]. intros a b s' ->. eapply IH; [|done]. cbn; lia.
Qed.

Lemma unquote_no_percent s : 37 ∉ s -> unquote s = s.
Proof.
  induction s as [|c s IH]; [done|]. rewrite not_elem_of_cons. intros [Hc Hs]. cbn.
  rewrite (proj2 (Z.eqb_neq c 37)) by congruence. f_equal. auto.
Qed.
