(* ===== verification/FrozenJson.v ===== *)
(** * The bounded deep-freeze ([kestrel_sdk/_frozen_json.py])

    Caller-supplied JSON lives in a store: containers are objects with an
    identity, so values may share or contain themselves.  [freeze] is the
    source's walk, with its node, key and byte counters and the set of
    containers on the current path.  Frozen values are trees. *)

From stdpp Require Import gmap.
From S2P Require Export PyData.

#[local] Set Warnings "-register-all".

(** ** Values, the store and frozen trees *)

Definition loc := positive.

(** A Python object as the walk's [isinstance] tests see it. [VRef] is a
    container of the store; any other object is [VOther]. *)
Inductive pyval : Type :=
| VNone
| VBool (b : bool)
| VInt (z : Z)
| VFloat (f : pyfloat)
| VStr (s : pystr)
| VRef (l : loc)
| VOther.

(** A [Mapping] with its items in iteration order, or a [list]/[tuple]. *)
Inductive container : Type :=
| CDict (items : list (pyval * pyval))
| CSeq (items : list pyval).

#[global] Instance pyval_eq_dec : EqDecision pyval.
Proof. solve_decision. Defined.

Abbreviation heap := (gmap positive container).

(** [ImmutableJSON]: a mapping proxy keeps its items in insertion order. *)
Inductive fjson : Type :=
| FNull
| FBool (b : bool)
| FInt (z : Z)
| FFloat (f : pyfloat)
| FStr (s : pystr)
| FTuple (items : list fjson)
| FMap (items : list (pystr * fjson)).

Inductive pynum : Type := NInt (z : Z) | NFloat (f : pyfloat).

Definition num_json (n : pynum) : fjson :=
  match n with NInt z => FInt z | NFloat f => FFloat f end.

Record JSONLimits := {
  max_depth : option Z;
  max_nodes : option Z;
  max_keys : option Z;
  max_encoded_bytes : option Z
}.

Definition no_limits : JSONLimits :=
  {| max_depth := None; max_nodes := None; max_keys := None; max_encoded_bytes := None |}.

(** [limit is not None and n > limit] *)
Definition over (limit : option Z) (n : Z) : bool :=
  match limit with Some k => k <? n | None => false end.

(** The domain policy of one contract. [None] is an absent validator. *)
Record validators := {
  validate_key : pyval -> res pystr;
  validate_string : option (pystr -> res pystr);
  validate_number : option (pynum -> res pynum)
}.

Definition require_str_key (key : pyval) : res pystr :=
  match key with
  | VStr s => Ok s
  | _ => Raise (JSONTypeError "key" "keys must be strings")
  end.

Definition default_validators : validators :=
  {| validate_key := require_str_key; validate_string := None; validate_number := None |}.

(** [f(value) if f is not None else value] *)
Definition apply_opt {A} (f : option (A -> res A)) (a : A) : res A :=
  match f with Some f => f a | None => Ok a end.

(** ** JSON text *)

Definition hex_digit (n : Z) : Z := if n <? 10 then 48 + n else 87 + n.

(** One character of a JSON string, [ensure_ascii=False]. *)
Definition json_escape (c : Z) : pystr :=
  if c =? 34 then [92; 34]
  else if c =? 92 then [92; 92]
  else if c =? 10 then u "\n"
  else if c =? 13 then u "\r"
  else if c =? 9 then u "\t"
  else if c =? 12 then u "\f"
  else if c =? 8 then u "\b"
  else if c <? 32 then u "\u00" ++ [hex_digit (c / 16); hex_digit (c mod 16)]
  else [c].

Definition json_string (s : pystr) : pystr := [34] ++ (s ≫= json_escape) ++ [34].

(** [sep.join(l)] *)
Fixpoint join (sep : pystr) (l : list pystr) : pystr :=
  match l with
  | [] => []
  | [x] => x
  | x :: l' => x ++ sep ++ join sep l'
  end.

(** [json.dumps(value, ensure_ascii=False, separators=(",", ":"))] *)
Fixpoint dumps (t : fjson) : pystr :=
  match t with
  | FNull => u "null"
  | FBool b => if b then u "true" else u "false"
  | FInt z => int_repr z
  | FFloat f => float_repr f
  | FStr s => json_string s
  | FTuple ts => u "[" ++ join (u ",") (map dumps ts) ++ u "]"
  | FMap ts =>
      u "{" ++ join (u ",") (map (fun '(k, t) => json_string k ++ u ":" ++ dumps t) ts)
      ++ u "}"
  end.

(** [d[k] = v] on the items of a [dict]. *)
Fixpoint dict_set (k : pystr) (v : fjson) (l : list (pystr * fjson)) : list (pystr * fjson) :=
  match l with
  | [] => [(k, v)]
  | (k', v') :: l' =>
      if decide (k = k') then (k, v) :: l' else (k', v') :: dict_set k v l'
  end.

(** ** The walk *)

Record wstate := WState {
  nodes : Z;
  keys : Z;
  size : option Z;
  ancestors : gset positive
}.

(** A method of [_Walk]: it reads and updates the walk's fields, or raises. *)
Definition W (A : Type) : Type := wstate -> res (A * wstate).

#[global] Instance W_ret : MRet W := fun A a st => Ok (a, st).
#[global] Instance W_bind : MBind W := fun A B f m st =>
  match m st with Ok (a, st') => f a st' | Raise e => Raise e end.

Definition lift {A} (m : res A) : W A := fun st =>
  match m with Ok a => Ok (a, st) | Raise e => Raise e end.

Section Walk.
(** The store, the bounds, the policy, and [sys.get_int_max_str_digits()]. *)
Variable h : heap.
Variable limits : JSONLimits.
Variable V : validators.
Variable max_str_digits : Z.

(** CPython refuses to print integers of more digits; 0 disables the bound. *)
Definition int_printable (z : Z) : bool :=
  (max_str_digits =? 0) || (len (digits (Z.abs z)) <=? max_str_digits).

Definition add_bytes (count : Z) : W unit := fun st =>
  match size st with
  | None => Ok (tt, st)
  | Some n =>
      if over (max_encoded_bytes limits) (n + count)
      then Raise (JSONLimitError "bytes" "must not exceed {budget} bytes when encoded as JSON")
      else Ok (tt, WState (nodes st) (keys st) (Some (n + count)) (ancestors st))
  end.

Definition add_node : W unit := fun st =>
  if over (max_nodes limits) (nodes st + 1)
  then Raise (JSONLimitError "nodes" "must not exceed {limit} nodes")
  else Ok (tt, WState (nodes st + 1) (keys st) (size st) (ancestors st)).

Definition add_key : W unit := fun st =>
  if over (max_keys limits) (keys st + 1)
  then Raise (JSONLimitError "keys" "must not exceed {limit} keys")
  else Ok (tt, WState (nodes st) (keys st + 1) (size st) (ancestors st)).

(** [json.dumps] of a scalar refuses unprintable integers; [.encode] then
    refuses lone surrogates. *)
Definition scalar_printable (t : fjson) : bool :=
  match t with FInt z => int_printable z | FFloat f => isfinite f | _ => true end.

Definition add_scalar (t : fjson) : W unit := fun st =>
  match size st with
  | None => Ok (tt, st)
  | Some _ =>
      if scalar_printable t then
        match utf8 (dumps t) with
        | None => Raise (JSONLimitError "text" "contains text that is not valid Unicode (an unpaired surrogate)")
        | Some bs => add_bytes (len bs) st
        end
      else Raise (JSONLimitError "number" "contains a number too large to encode")
  end.

Definition enter (l : loc) : W unit := fun st =>
  if bool_decide (l ∈ ancestors st)
  then Raise (JSONLimitError "cycle" "must not contain a cycle")
  else Ok (tt, WState (nodes st) (keys st) (size st) ({[l]} ∪ ancestors st)).

(** The [finally] clause. *)
Definition leave (l : loc) : W unit := fun st =>
  Ok (tt, WState (nodes st) (keys st) (size st) (ancestors st ∖ {[l]})).

(** The loops of [_freeze_mapping] and [_freeze_sequence]; [first] is
    [index == 0]. *)
Fixpoint freeze_items (rec : pyval -> W fjson) (first : bool)
    (items : list (pyval * pyval)) (frozen : list (pystr * fjson)) : W (list (pystr * fjson)) :=
  match items with
  | [] => mret frozen
  | (raw_key, item) :: items' =>
      key ← lift (validate_key V raw_key);
      _ ← add_key;
      _ ← add_scalar (FStr key);
      _ ← add_bytes (if first then 1 else 2);
      t ← rec item;
      freeze_items rec false items' (dict_set key t frozen)
  end.

Fixpoint freeze_elems (rec : pyval -> W fjson) (first : bool) (items : list pyval)
    : W (list fjson) :=
  match items with
  | [] => mret []
  | item :: items' =>
      _ ← (if first then mret tt else add_bytes 1);
      t ← rec item;
      ts ← freeze_elems rec false items';
      mret (t :: ts)
  end.

Definition freeze_number (n : pynum) : W fjson :=
  _ ← lift (raise_if (match n with NFloat f => negb (isfinite f) | NInt _ => false end)
        (JSONLimitError "number" "cannot contain non-finite numbers"));
  n' ← lift (apply_opt (validate_number V) n);
  _ ← add_scalar (num_json n');
  mret (num_json n').

(** [_Walk.freeze]. [fuel] bounds the nesting of the recursion. *)
Fixpoint freeze (fuel : nat) (value : pyval) (depth : Z) : W fjson :=
  match fuel with
  | O => lift (Raise FuelExhausted)
  | S fuel' =>
      _ ← lift (raise_if (over (max_depth limits) depth)
                 (JSONLimitError "depth" "must not exceed {limit} levels"));
      _ ← add_node;
      match value with
      | VNone => _ ← add_scalar FNull; mret FNull
      | VBool b => _ ← add_scalar (FBool b); mret (FBool b)
      | VStr s =>
          s' ← lift (apply_opt (validate_string V) s);
          _ ← add_scalar (FStr s');
          mret (FStr s')
      | VInt z => freeze_number (NInt z)
      | VFloat f => freeze_number (NFloat f)
      | VRef l =>
          match h !! l with
          | Some (CDict items) =>
              _ ← enter l;
              _ ← add_bytes 2;
              frozen ← freeze_items (fun v => freeze fuel' v (depth + 1)) true items [];
              _ ← leave l;
              mret (FMap frozen)
          | Some (CSeq items) =>
              _ ← enter l;
              _ ← add_bytes 2;
              ts ← freeze_elems (fun v => freeze fuel' v (depth + 1)) true items;
              _ ← leave l;
              mret (FTuple ts)
          | None => lift (Raise (JSONTypeError "type" "values must be JSON-like (scalar, list or object)"))
          end
      | VOther => lift (Raise (JSONTypeError "type" "values must be JSON-like (scalar, list or object)"))
      end
  end.

Definition init_state : wstate :=
  WState 0 0 (match max_encoded_bytes limits with Some _ => Some 0 | None => None end) ∅.

(** [freeze_json]: the frozen value and [walk.size]. One unit of fuel per
    container of the store, and one for a scalar, is enough. *)
Definition freeze_json (value : pyval) : res (fjson * option Z) :=
  match freeze (S (base.size h)) value 0 init_state with
  | Ok (t, st) => Ok (t, size st)
  | Raise e => Raise e
  end.

(** Every scalar below is printable by [json.dumps]. *)
Fixpoint printable (t : fjson) : bool :=
  match t with
  | FTuple ts => forallb printable ts
  | FMap ts => forallb (fun '(_, t) => printable t) ts
  | _ => scalar_printable t
  end.

(** [canonical_json_bytes] *)
Definition canonical_json_bytes (t : fjson) : res (list Z) :=
  if printable t then
    match utf8 (dumps t) with
    | Some bs => Ok bs
    | None => Raise (ValueError "surrogates not allowed")
    end
  else Raise (ValueError "number is not JSON printable").
End Walk.

(** ** Thawing: fresh containers, children first. *)

Definition alloc (c : container) (h : heap) : pyval * heap :=
  let l := fresh (dom h) in (VRef l, <[l := c]> h).

Fixpoint thaw_json (t : fjson) (h : heap) : pyval * heap :=
  match t with
  | FNull => (VNone, h)
  | FBool b => (VBool b, h)
  | FInt z => (VInt z, h)
  | FFloat f => (VFloat f, h)
  | FStr s => (VStr s, h)
  | FTuple ts =>
      let '(vs, h') :=
        foldr (fun t acc => let '(v, h') := thaw_json t acc.2 in (v :: acc.1, h')) ([], h) ts in
      alloc (CSeq vs) h'
  | FMap ts =>
      let '(kvs, h') :=
        foldr (fun kt acc =>
                 let '(v, h') := thaw_json kt.2 acc.2 in ((VStr kt.1, v) :: acc.1, h'))
              ([], h) ts in
      alloc (CDict kvs) h'
  end.
