(* ===== verification/FrozenJsonSpec.v ===== *)
(** * What the deep-freeze promises

    [unfolds h v t] says that the value [v] of the store [h] denotes the
    finite tree [t].  The main theorem characterises [freeze_json] exactly:
    it succeeds with [t] when [v] unfolds to [t], the policy accepts every
    key and scalar of [t] and the measures of [t] are within the limits. *)

From stdpp Require Import gmap.
From S2P Require Export FrozenJson.

#[local] Set Warnings "-register-all".

(** ** Denotation of a store value *)

Inductive unfolds (h : heap) : pyval -> fjson -> Prop :=
| unfolds_none : unfolds h VNone FNull
| unfolds_bool b : unfolds h (VBool b) (FBool b)
| unfolds_int z : unfolds h (VInt z) (FInt z)
| unfolds_float f : unfolds h (VFloat f) (FFloat f)
| unfolds_str s : unfolds h (VStr s) (FStr s)
| unfolds_seq l items ts :
    h !! l = Some (CSeq items) ->
    Forall2 (unfolds h) items ts ->
    unfolds h (VRef l) (FTuple ts)
| unfolds_dict l items ts :
    h !! l = Some (CDict items) ->
    Forall2 (fun kv kt => kv.1 = VStr kt.1 /\ unfolds h kv.2 kt.2) items ts ->
    unfolds h (VRef l) (FMap ts).

(** The keys of a dict are pairwise distinct. *)
Definition heap_wf (h : heap) : Prop :=
  forall l items, h !! l = Some (CDict items) -> NoDup items.*1.

#[export] Instance VStr_inj : Inj (=) (=) VStr.
Proof. by intros ? ? [= ->]. Qed.

(** Executable form, for concrete stores. *)
Definition heap_wfb (h : heap) : bool :=
  forallb (fun lc => match lc.2 with CDict items => no_dup items.*1 | CSeq _ => true end)
    (map_to_list h).

Lemma heap_wfb_wf h : heap_wfb h = true -> heap_wf h.
Proof.
  intros H l items Hl. apply elem_of_map_to_list, list_elem_of_In in Hl.
  unfold heap_wfb in H. rewrite List.forallb_forall in H.
  specialize (H _ Hl). by apply no_dup_true in H.
Qed.

(** A policy that rejects or keeps a value, and never rewrites it. *)
Class FaithfulValidators (V : validators) : Prop := {
  validate_key_same : forall v k, validate_key V v = Ok k -> v = VStr k;
  validate_string_same : forall s s', apply_opt (validate_string V) s = Ok s' -> s' = s;
  validate_number_same : forall n n', apply_opt (validate_number V) n = Ok n' -> n' = n
}.

#[export] Instance default_validators_faithful : FaithfulValidators default_validators.
Proof. split; cbn; [intros [] k H; by inversion H | congruence | congruence]. Qed.

(** ** Measures of a tree *)

Record cost := Cost { c_nodes : Z; c_keys : Z; c_bytes : Z }.

Definition cost_zero : cost := Cost 0 0 0.
Definition cost_add (a b : cost) : cost :=
  Cost (c_nodes a + c_nodes b) (c_keys a + c_keys b) (c_bytes a + c_bytes b).
Infix "⊕" := cost_add (at level 50, left associativity).

Definition blen (s : pystr) : Z := match utf8 s with Some bs => len bs | None => 0 end.

#[local] Arguments blen : simpl never.
#[local] Arguments json_string : simpl never.

Section Sums.
Variable f : fjson -> cost.

Fixpoint elems_cost (first : bool) (ts : list fjson) : cost :=
  match ts with
  | [] => cost_zero
  | t :: ts' => Cost 0 0 (if first then 0 else 1) ⊕ f t ⊕ elems_cost false ts'
  end.

Fixpoint items_cost (first : bool) (ts : list (pystr * fjson)) : cost :=
  match ts with
  | [] => cost_zero
  | (k, t) :: ts' =>
      Cost 0 1 (blen (json_string k) + (if first then 1 else 2)) ⊕ f t
      ⊕ items_cost false ts'
  end.
End Sums.

(** Nodes, keys and encoded bytes of a tree. *)
Fixpoint cost_of (t : fjson) : cost :=
  match t with
  | FTuple ts => Cost 1 0 2 ⊕ elems_cost cost_of true ts
  | FMap ts => Cost 1 0 2 ⊕ items_cost cost_of true ts
  | _ => Cost 1 0 (blen (dumps t))
  end.

(** Nesting below the root. *)
Fixpoint depth_of (t : fjson) : Z :=
  match t with
  | FTuple ts => foldr (fun t d => Z.max (1 + depth_of t) d) 0 ts
  | FMap ts => foldr (fun kt d => Z.max (1 + depth_of kt.2) d) 0 ts
  | _ => 0
  end.

(** A property of every node of a tree, given on scalars and keys. *)
Section Everywhere.
Variable Ps : fjson -> Prop.
Variable Pk : pystr -> Prop.

Fixpoint everywhere (t : fjson) : Prop :=
  match t with
  | FTuple ts => foldr (fun t P => everywhere t /\ P) True ts
  | FMap ts => foldr (fun kt P => (Pk kt.1 /\ everywhere kt.2) /\ P) True ts
  | _ => Ps t
  end.

Lemma everywhere_tuple ts : everywhere (FTuple ts) <-> Forall everywhere ts.
Proof. cbn. induction ts; cbn; [by split|]. rewrite list.Forall_cons. tauto. Qed.

Lemma everywhere_map ts :
  everywhere (FMap ts) <-> Forall (fun kt => Pk kt.1 /\ everywhere kt.2) ts.
Proof. cbn. induction ts; cbn; [by split|]. rewrite list.Forall_cons. tauto. Qed.
End Everywhere.

Lemma everywhere_impl (Ps Ps' : fjson -> Prop) (Pk Pk' : pystr -> Prop) t :
  (forall t, Ps t -> Ps' t) -> (forall k, Pk k -> Pk' k) ->
  everywhere Ps Pk t -> everywhere Ps' Pk' t.
Proof.
  intros Hs Hk. revert t. fix IH 1. intros [ | | | | |ts|ts]; try apply Hs.
  - cbn. induction ts as [|t ts IHts]; cbn; [done|]. intros [? ?]. split; auto.
  - cbn. induction ts as [|[k t] ts IHts]; cbn; [done|]. intros [[? ?] ?].
    split; [split|]; auto.
Qed.

(** The policy accepts the scalars and keys of the tree. *)
Definition scalar_accepted (V : validators) (t : fjson) : Prop :=
  match t with
  | FStr s => apply_opt (validate_string V) s = Ok s
  | FInt z => apply_opt (validate_number V) (NInt z) = Ok (NInt z)
  | FFloat f => isfinite f = true /\ apply_opt (validate_number V) (NFloat f) = Ok (NFloat f)
  | _ => True
  end.

Definition accepted (V : validators) : fjson -> Prop :=
  everywhere (scalar_accepted V) (fun k => validate_key V (VStr k) = Ok k).

(** [json.dumps] and UTF-8 can encode the scalars and keys of the tree. *)
Definition encodable (msd : Z) : fjson -> Prop :=
  everywhere (fun t => scalar_printable msd t = true /\ is_Some (utf8 (dumps t)))
             (fun k => is_Some (utf8 (json_string k))).

(** The measures respect the limits. A bound that is negative is met by no
    container; the key bound is not consulted when there is no key. *)
Definition within (limits : JSONLimits) (t : fjson) : Prop :=
  over (max_depth limits) (depth_of t) = false
  /\ over (max_nodes limits) (c_nodes (cost_of t)) = false
  /\ over (max_keys limits) (c_keys (cost_of t)) = false
  /\ over (max_encoded_bytes limits) (c_bytes (cost_of t)) = false.

(** Limits a container can meet at all. *)
Definition limits_ok (limits : JSONLimits) : Prop :=
  over (max_nodes limits) 0 = false /\ over (max_keys limits) 0 = false
  /\ over (max_encoded_bytes limits) 0 = false.

(** ** Induction on trees *)

Section Induction.
Variable P : fjson -> Prop.
Hypothesis Hscalar : forall t,
  match t with FTuple _ | FMap _ => False | _ => True end -> P t.
Hypothesis Htuple : forall ts, Forall P ts -> P (FTuple ts).
Hypothesis Hmap : forall ts, Forall (fun kt => P kt.2) ts -> P (FMap ts).

Fixpoint fjson_tree_ind (t : fjson) : P t :=
  match t with
  | FNull => Hscalar FNull I
  | FBool b => Hscalar (FBool b) I
  | FInt z => Hscalar (FInt z) I
  | FFloat f => Hscalar (FFloat f) I
  | FStr s => Hscalar (FStr s) I
  | FTuple ts => Htuple ts
      ((fix go l : Forall P l :=
          match l with
          | [] => Forall_nil_2 _
          | t :: l' => Forall_cons_2 _ t l' (fjson_tree_ind t) (go l')
          end) ts)
  | FMap ts => Hmap ts
      ((fix go l : Forall (fun kt => P kt.2) l :=
          match l with
          | [] => Forall_nil_2 _
          | kt :: l' => Forall_cons_2 _ kt l' (fjson_tree_ind kt.2) (go l')
          end) ts)
  end.
End Induction.

(** ** Costs *)

Lemma cost_add_assoc a b c : a ⊕ (b ⊕ c) = a ⊕ b ⊕ c.
Proof. unfold cost_add; cbn; f_equal; lia. Qed.

Lemma cost_add_zero_r a : a ⊕ cost_zero = a.
Proof. destruct a; unfold cost_add; cbn; f_equal; lia. Qed.

Definition cost_nonneg (c : cost) : Prop := 0 <= c_nodes c /\ 0 <= c_keys c /\ 0 <= c_bytes c.

Lemma cost_add_nonneg a b : cost_nonneg a -> cost_nonneg b -> cost_nonneg (a ⊕ b).
Proof. unfold cost_nonneg; cbn; lia. Qed.

Lemma blen_nonneg s : 0 <= blen s.
Proof. unfold blen; destruct (utf8 s); [apply len_nonneg | lia]. Qed.

Lemma elems_cost_nonneg f first ts :
  Forall (fun t => cost_nonneg (f t)) ts -> cost_nonneg (elems_cost f first ts).
Proof.
  intros H; revert first; induction H as [|t ts Ht _ IH]; intros first; cbn; [done|].
  apply cost_add_nonneg; [apply cost_add_nonneg; [|done] | apply IH].
  destruct first; done.
Qed.

Lemma items_cost_nonneg f first ts :
  Forall (fun kt => cost_nonneg (f kt.2)) ts -> cost_nonneg (items_cost f first ts).
Proof.
  intros H; revert first; induction H as [|[k t] ts Ht _ IH]; intros first; cbn; [done|].
  apply cost_add_nonneg; [apply cost_add_nonneg; [|done] | apply IH].
  pose proof (blen_nonneg (json_string k)). unfold cost_nonneg; cbn.
  destruct first; lia.
Qed.

Lemma cost_of_nonneg t : cost_nonneg (cost_of t).
Proof.
  induction t as [t Ht | ts IH | ts IH] using fjson_tree_ind.
  - pose proof (blen_nonneg (dumps t)) as Hb.
    destruct t; try done; (split_and!; [cbn; lia | cbn; lia | exact Hb]).
  - apply cost_add_nonneg; [done | by apply elems_cost_nonneg].
  - apply cost_add_nonneg; [done | by apply items_cost_nonneg].
Qed.

(** ** The walk's counters *)

Definition charge (c : cost) (st : wstate) : wstate :=
  WState (nodes st + c_nodes c) (keys st + c_keys c)
    ((fun n => n + c_bytes c) <$> size st) (ancestors st).

Lemma charge_charge a b st : charge b (charge a st) = charge (a ⊕ b) st.
Proof. unfold charge; cbn; destruct (size st); cbn; f_equal; first [lia | f_equal; lia]. Qed.

Lemma charge_zero st : charge cost_zero st = st.
Proof.
  destruct st as [n k s A]; unfold charge; cbn. f_equal; [lia | lia |].
  destruct s; cbn; [f_equal; lia | done].
Qed.

Lemma over_mono limit m n : over limit n = false -> m <= n -> over limit m = false.
Proof. destruct limit; cbn; [|done]. rewrite !Z.ltb_ge; lia. Qed.

Lemma over_max limit m n :
  over limit (Z.max m n) = false <-> over limit m = false /\ over limit n = false.
Proof. destruct limit; cbn; [|tauto]. rewrite !Z.ltb_ge; lia. Qed.

Lemma depth_tuple limit d ts :
  over limit (d + depth_of (FTuple ts)) = false <->
  over limit d = false /\ Forall (fun t => over limit (d + 1 + depth_of t) = false) ts.
Proof.
  cbn. induction ts as [|t ts IH]; cbn.
  - rewrite Z.add_0_r. split; [done | by intros []].
  - rewrite <- Z.add_max_distr_l, over_max, IH, list.Forall_cons, Z.add_assoc. tauto.
Qed.

Lemma depth_map limit d ts :
  over limit (d + depth_of (FMap ts)) = false <->
  over limit d = false /\ Forall (fun kt => over limit (d + 1 + depth_of kt.2) = false) ts.
Proof.
  cbn. induction ts as [|[k t] ts IH]; cbn.
  - rewrite Z.add_0_r. split; [done | by intros []].
  - rewrite <- Z.add_max_distr_l, over_max, IH, list.Forall_cons, Z.add_assoc. cbn. tauto.
Qed.

Lemma W_bind_Ok {A B} (m : W A) (f : A -> W B) st b st' :
  (m ≫= f) st = Ok (b, st') <-> exists a st1, m st = Ok (a, st1) /\ f a st1 = Ok (b, st').
Proof.
  unfold mbind, W_bind. split.
  - destruct (m st) as [[a st1]|e]; [eauto | done].
  - intros (a & st1 & -> & H). done.
Qed.

Lemma lift_Ok {A} (m : res A) st a st' :
  lift m st = Ok (a, st') <-> m = Ok a /\ st' = st.
Proof. unfold lift. destruct m; split; [intros [= -> ->] | intros [[= ->] ->] | | intros []]; done. Qed.

Lemma W_ret_Ok {A} (a b : A) st st' : (mret a : W A) st = Ok (b, st') <-> a = b /\ st' = st.
Proof. unfold mret, W_ret. split; [intros [= -> ->] | intros [-> ->]]; done. Qed.

Section Counters.
Context (limits : JSONLimits) (msd : Z).

(** The encoded size is tracked exactly when a byte budget is set. *)
Definition tracked : Prop := is_Some (max_encoded_bytes limits).

Record ok_state (st : wstate) : Prop := {
  ok_nodes : over (max_nodes limits) (nodes st) = false;
  ok_keys : over (max_keys limits) (keys st) = false;
  ok_bytes : forall n, size st = Some n -> over (max_encoded_bytes limits) n = false;
  ok_tracked : is_Some (size st) <-> tracked
}.

(** Counters only grow, so a state below a good one is good. *)
Lemma ok_state_charge c st : cost_nonneg c -> ok_state (charge c st) -> ok_state st.
Proof.
  intros (Hn & Hk & Hb) [H1 H2 H3 H4]. split; cbn in *.
  - eapply over_mono; [exact H1 | lia].
  - eapply over_mono; [exact H2 | lia].
  - intros n Hs. eapply over_mono; [apply H3; rewrite Hs; done | cbn; lia].
  - rewrite <- H4, fmap_is_Some. done.
Qed.

Lemma add_bytes_Ok n st st' x :
  ok_state st -> 0 <= n ->
  add_bytes limits n st = Ok (x, st') <-> st' = charge (Cost 0 0 n) st /\ ok_state st'.
Proof.
  intros Hok Hn. unfold add_bytes, charge. destruct x, (size st) as [m|] eqn:Hs; cbn.
  - destruct (over _ (m + n)) eqn:Ho; split.
    + done.
    + intros [-> [_ _ H _]]. cbn in H. rewrite (H _ eq_refl) in Ho. done.
    + intros [= <-]. split; [f_equal; lia|]. destruct Hok as [H1 H2 H3 H4].
      split; cbn; [done | done | by intros ? [= <-] |].
      rewrite <- H4, Hs. split; intros _; eauto.
    + intros [-> _]. do 3 f_equal; lia.
  - assert (st = WState (nodes st + 0) (keys st + 0) None (ancestors st)) as Heq.
    { destruct st; cbn in *; subst; f_equal; lia. }
    rewrite <- Heq. split; [by intros [= <-] | by intros [-> _]].
Qed.

Lemma add_node_Ok st st' x :
  ok_state st ->
  add_node limits st = Ok (x, st') <-> st' = charge (Cost 1 0 0) st /\ ok_state st'.
Proof.
  intros Hok. unfold add_node, charge. destruct x.
  assert (Hsz : (fun n : Z => n + 0) <$> size st = size st).
  { destruct (size st); cbn; [f_equal; lia | done]. }
  cbn. rewrite Hsz, Z.add_0_r. destruct (over _ (nodes st + 1)) eqn:Ho; split.
  - done.
  - intros [-> [H _ _ _]]. cbn in H. congruence.
  - intros [= <-]. split; [done|]. by destruct Hok as [H1 H2 H3 H4].
  - by intros [-> _].
Qed.

Lemma add_key_Ok st st' x :
  ok_state st ->
  add_key limits st = Ok (x, st') <-> st' = charge (Cost 0 1 0) st /\ ok_state st'.
Proof.
  intros Hok. unfold add_key, charge. destruct x.
  assert (Hsz : (fun n : Z => n + 0) <$> size st = size st).
  { destruct (size st); cbn; [f_equal; lia | done]. }
  cbn. rewrite Hsz, Z.add_0_r. destruct (over _ (keys st + 1)) eqn:Ho; split.
  - done.
  - intros [-> [_ H _ _]]. cbn in H. congruence.
  - intros [= <-]. split; [done|]. by destruct Hok as [H1 H2 H3 H4].
  - by intros [-> _].
Qed.

Lemma add_scalar_Ok t st st' x :
  ok_state st ->
  add_scalar limits msd t st = Ok (x, st') <->
  (tracked -> scalar_printable msd t = true /\ is_Some (utf8 (dumps t)))
  /\ st' = charge (Cost 0 0 (blen (dumps t))) st /\ ok_state st'.
Proof.
  intros Hok. unfold add_scalar, blen. destruct (size st) as [m|] eqn:Hs.
  - assert (Ht : tracked) by (apply (ok_tracked st Hok); rewrite Hs; eauto).
    destruct (scalar_printable msd t); [|split; [done | intros (H & _); by destruct (H Ht)]].
    destruct (utf8 (dumps t)) as [bs|].
    + rewrite add_bytes_Ok by (done || apply len_nonneg). split; [|by intros []].
      intros []; split; [split; eauto | done].
    + split; [done|]. intros (H & _). by destruct (H Ht) as [_ [? ?]].
  - assert (Hnt : ~ tracked).
    { intros Ht. apply (ok_tracked st Hok) in Ht. rewrite Hs in Ht. by destruct Ht. }
    assert (forall c, charge (Cost 0 0 c) st = st) as Hch.
    { intros c. destruct st; cbn in *; subst. unfold charge; cbn. f_equal; lia. }
    rewrite Hch. destruct x. split; [intros [= <-] | intros (_ & -> & _)]; tauto.
Qed.
End Counters.

(** ** Acyclicity: a value that unfolds never contains itself *)

Inductive child (h : heap) : pyval -> pyval -> Prop :=
| child_seq l items v : h !! l = Some (CSeq items) -> v ∈ items -> child h (VRef l) v
| child_dict l items k v : h !! l = Some (CDict items) -> (k, v) ∈ items -> child h (VRef l) v.

Lemma elems_cost_elem f first ts t :
  (forall t, 0 <= c_nodes (f t)) -> t ∈ ts -> c_nodes (f t) <= c_nodes (elems_cost f first ts).
Proof.
  intros Hf Ht; revert first; induction Ht as [|t x ts _ IH]; intros first; cbn.
  - assert (0 <= c_nodes (elems_cost f false l)); [|lia].
    clear -Hf. induction l as [|y l IH]; cbn; [lia|]. pose proof (Hf y). lia.
  - pose proof (Hf x). specialize (IH false). lia.
Qed.

Lemma items_cost_elem f first ts kt :
  (forall t, 0 <= c_nodes (f t)) -> kt ∈ ts -> c_nodes (f kt.2) <= c_nodes (items_cost f first ts).
Proof.
  intros Hf Ht; revert first; induction Ht as [[k t]|kt [k t] ts _ IH]; intros first; cbn.
  - assert (0 <= c_nodes (items_cost f false l)); [|lia].
    clear -Hf. induction l as [|[ky y] l IH]; cbn; [lia|]. pose proof (Hf y). lia.
  - pose proof (Hf t). specialize (IH false). lia.
Qed.

Lemma cost_nodes_nonneg t : 0 <= c_nodes (cost_of t).
Proof. apply cost_of_nonneg. Qed.

Lemma unfolds_child h v v' t :
  child h v v' -> unfolds h v t ->
  exists t', unfolds h v' t' /\ c_nodes (cost_of t') < c_nodes (cost_of t).
Proof.
  intros Hc Ht. destruct Hc as [l items v' Hl Hv|l items k v' Hl Hv];
    inversion Ht as [ | | | | |l' items' ts Hl' HF|l' items' ts Hl' HF]; subst;
    rewrite Hl in Hl'; simplify_eq.
  - apply list_elem_of_lookup in Hv as [i Hi].
    destruct (Forall2_lookup_l _ _ _ _ _ HF Hi) as (t' & Hi' & Hu).
    exists t'. split; [done|]. cbn.
    pose proof (elems_cost_elem cost_of true ts t' cost_nodes_nonneg
                  (list_elem_of_lookup_2 _ _ _ Hi')). lia.
  - apply list_elem_of_lookup in Hv as [i Hi].
    destruct (Forall2_lookup_l _ _ _ _ _ HF Hi) as (kt & Hi' & _ & Hu).
    exists kt.2. split; [done|]. cbn.
    pose proof (items_cost_elem cost_of true ts kt cost_nodes_nonneg
                  (list_elem_of_lookup_2 _ _ _ Hi')). lia.
Qed.

Lemma unfolds_descendant h v v' t :
  tc (child h) v v' -> unfolds h v t ->
  exists t', unfolds h v' t' /\ c_nodes (cost_of t') < c_nodes (cost_of t).
Proof.
  intros Hc; revert t; induction Hc as [v v' Hc | v w v' Hc _ IH]; intros t Ht.
  - by eapply unfolds_child.
  - destruct (unfolds_child _ _ _ _ Hc Ht) as (tw & Hw & Hlt).
    destruct (IH _ Hw) as (t' & ? & ?). exists t'; split; [done | lia].
Qed.

Lemma Forall2_functional {A B} (R : A -> B -> Prop) l k1 k2 :
  Forall (fun y => forall x y', R x y -> R x y' -> y = y') k1 ->
  Forall2 R l k1 -> Forall2 R l k2 -> k1 = k2.
Proof.
  intros HF H1; revert k2 HF; induction H1 as [|x y l k Hxy _ IH]; intros k2 HF H2;
    inversion H2; subst; [done|].
  apply list.Forall_cons in HF as [Hy HF]. f_equal; eauto.
Qed.

Lemma unfolds_functional h v t1 t2 : unfolds h v t1 -> unfolds h v t2 -> t1 = t2.
Proof.
  revert v t2; induction t1 as [t Ht | ts IH | ts IH] using fjson_tree_ind;
    intros v t2 H1 H2.
  - destruct t; try done; inversion H1; subst; inversion H2; done.
  - inversion H1; subst; inversion H2; subst; simplify_eq.
    f_equal. eapply Forall2_functional; [|done..]. eapply list.Forall_impl; [exact IH|]. eauto.
  - inversion H1; subst; inversion H2; subst; simplify_eq.
    f_equal. eapply Forall2_functional; [|done..]. eapply list.Forall_impl; [exact IH|].
    intros [k t] Ht kv [k' t'] [Hk Hu] [Hk' Hu']; cbn in *. f_equal; [congruence | eauto].
Qed.

Lemma unfolds_acyclic h v t : unfolds h v t -> ~ tc (child h) v v.
Proof.
  intros Ht Hc. destruct (unfolds_descendant _ _ _ _ Hc Ht) as (t' & Ht' & Hlt).
  rewrite (unfolds_functional _ _ _ _ Ht Ht') in Hlt. lia.
Qed.

(** ** The walk computes the denotation *)

Definition set_ancestors (A : gset positive) (st : wstate) : wstate :=
  WState (nodes st) (keys st) (size st) A.

Lemma charge_set_ancestors c A st : charge c (set_ancestors A st) = set_ancestors A (charge c st).
Proof. done. Qed.

Lemma dict_set_fresh k v l : k ∉ l.*1 -> dict_set k v l = l ++ [(k, v)].
Proof.
  induction l as [|[k' v'] l IH]; cbn; [done|]. rewrite not_elem_of_cons.
  intros [Hk Hl]. rewrite decide_False by done. by rewrite IH.
Qed.

Lemma fewer_containers (h : heap) l A n :
  l ∈ dom h -> l ∉ A -> (base.size (dom h ∖ A) < S n)%nat ->
  (base.size (dom h ∖ ({[l]} ∪ A)) < n)%nat.
Proof.
  intros Hl HA Hn. assert (dom h ∖ ({[l]} ∪ A) ⊂ dom h ∖ A) as Hlt by set_solver.
  apply subset_size in Hlt. lia.
Qed.

Lemma leave_entered (l : loc) (A : gset positive) : l ∉ A -> ({[l]} ∪ A) ∖ {[l]} = A.
Proof. set_solver. Qed.

Section FreezeSpec.
Context (h : heap) (Hwf : heap_wf h).
Context (limits : JSONLimits) (V : validators) `{!FaithfulValidators V} (msd : Z).

#[local] Abbreviation ok := (ok_state limits).

(** [v], met at depth [d], denotes [t] within the depth bound and policy. *)
Record denotes (d : Z) (v : pyval) (t : fjson) : Prop := {
  denotes_unfolds : unfolds h v t;
  denotes_accepted : accepted V t;
  denotes_depth : over (max_depth limits) (d + depth_of t) = false;
  denotes_encodable : tracked limits -> encodable msd t
}.

(** The walk [rec], started below the containers [A], computes [denotes]. *)
Definition computes (d : Z) (A : gset positive) (rec : pyval -> W fjson) (v : pyval) : Prop :=
  forall st t st', ok st -> ancestors st = A ->
  rec v st = Ok (t, st') <->
  denotes d v t /\ st' = charge (cost_of t) st /\ ok st'.

Lemma separator_Ok (first : bool) st st' x :
  ok st ->
  (if first then mret tt else add_bytes limits 1 : W unit) st = Ok (x, st') <->
  st' = charge (Cost 0 0 (if first then 0 else 1)) st /\ ok st'.
Proof.
  intros Hok. destruct first; [|by apply add_bytes_Ok].
  change (Cost 0 0 0) with cost_zero. rewrite charge_zero, W_ret_Ok. destruct x. split; [intros [_ ->] | intros [-> _]]; done.
Qed.

Lemma freeze_elems_spec d A rec items :
  Forall (computes d A rec) items ->
  forall first st ts st', ok st -> ancestors st = A ->
  freeze_elems limits rec first items st = Ok (ts, st') <->
  Forall2 (denotes d) items ts /\ st' = charge (elems_cost cost_of first ts) st /\ ok st'.
Proof.
  induction 1 as [|v items Hv _ IH]; intros first st ts st' Hok HA; cbn -[elems_cost].
  - rewrite W_ret_Ok. split.
    + intros [<- ->]. cbn. by rewrite charge_zero.
    + intros (HF & -> & _). inversion HF; subst. cbn. by rewrite charge_zero.
  - rewrite W_bind_Ok. setoid_rewrite W_bind_Ok. setoid_rewrite W_bind_Ok.
    setoid_rewrite W_ret_Ok. split.
    + intros (x & st1 & H1 & t & st2 & H2 & ts' & st3 & H3 & <- & ->).
      apply separator_Ok in H1 as [-> Hok1]; [|done].
      apply Hv in H2 as (Hd & -> & Hok2); [|done..].
      apply IH in H3 as (HF & -> & Hok3); [|done..].
      rewrite !charge_charge, cost_add_assoc in *. split_and!; [by constructor | done..].
    + intros (HF & -> & Hok'). inversion HF as [|? t ? ts' Hd HF']; subst.
      cbn [elems_cost] in *. rewrite <- !charge_charge in *.
      assert (Hok2 : ok (charge (cost_of t) (charge (Cost 0 0 (if first then 0 else 1)) st))).
      { eapply ok_state_charge; [|exact Hok']. apply elems_cost_nonneg.
        apply Forall_true. apply cost_of_nonneg. }
      assert (Hok1 : ok (charge (Cost 0 0 (if first then 0 else 1)) st)).
      { eapply ok_state_charge; [|exact Hok2]. apply cost_of_nonneg. }
      exists tt, (charge (Cost 0 0 (if first then 0 else 1)) st).
      split; [by apply separator_Ok|].
      exists t. eexists. split; [by apply Hv|].
      exists ts'. eexists. split; [by apply IH | done].
Qed.

(** A dict entry and the entry it is frozen to. *)
Record entry_denotes (d : Z) (kv : pyval * pyval) (kt : pystr * fjson) : Prop := {
  entry_key : kv.1 = VStr kt.1;
  entry_key_accepted : validate_key V (VStr kt.1) = Ok kt.1;
  entry_key_encodable : tracked limits -> is_Some (utf8 (json_string kt.1));
  entry_value : denotes d kv.2 kt.2
}.

Lemma add_key_text_Ok k (first : bool) st st' x :
  ok st ->
  (_ ← add_key limits; _ ← add_scalar limits msd (FStr k);
   add_bytes limits (if first then 1 else 2)) st = Ok (x, st') <->
  (tracked limits -> is_Some (utf8 (json_string k)))
  /\ st' = charge (Cost 0 1 (blen (json_string k) + (if first then 1 else 2))) st /\ ok st'.
Proof.
  intros Hok. rewrite W_bind_Ok. setoid_rewrite W_bind_Ok.
  assert (Hs : 0 <= if first then 1 else 2) by (destruct first; lia).
  assert (Heq : forall st0, charge (Cost 0 0 (if first then 1 else 2))
     (charge (Cost 0 0 (blen (json_string k))) (charge (Cost 0 1 0) st0))
     = charge (Cost 0 1 (blen (json_string k) + (if first then 1 else 2))) st0).
  { intros st0. rewrite !charge_charge. f_equal. }
  pose proof (blen_nonneg (json_string k)) as Hb. split.
  - intros (y & st1 & H1 & z & st2 & H2 & H3).
    apply add_key_Ok in H1 as [-> Hok1]; [|done].
    apply add_scalar_Ok in H2 as (He & -> & Hok2); [|done].
    apply add_bytes_Ok in H3 as [-> Hok3]; [|done..].
    change (dumps (FStr k)) with (json_string k) in *. rewrite Heq in *.
    split_and!; [intros Ht; by apply He | done..].
  - intros (He & -> & Hok'). rewrite <- Heq in *.
    assert (Hok2 : ok (charge (Cost 0 0 (blen (json_string k))) (charge (Cost 0 1 0) st))).
    { eapply ok_state_charge; [|exact Hok']. done. }
    assert (Hok1 : ok (charge (Cost 0 1 0) st)).
    { eapply ok_state_charge; [|exact Hok2]. done. }
    exists tt, (charge (Cost 0 1 0) st). split; [by apply add_key_Ok|].
    exists tt, (charge (Cost 0 0 (blen (json_string k))) (charge (Cost 0 1 0) st)).
    split; [apply add_scalar_Ok; [done|]; split_and!; [|done..] |].
    + intros Ht. split; [done | by apply He].
    + destruct x. by apply add_bytes_Ok.
Qed.

Lemma freeze_items_cons_Ok rec first k v items frozen st r :
  freeze_items limits V msd rec first ((k, v) :: items) frozen st = Ok r <->
  exists key x st1 t st2, validate_key V k = Ok key
  /\ (_ ← add_key limits; _ ← add_scalar limits msd (FStr key);
      add_bytes limits (if first then 1 else 2)) st = Ok (x, st1)
  /\ rec v st1 = Ok (t, st2)
  /\ freeze_items limits V msd rec false items (dict_set key t frozen) st2 = Ok r.
Proof.
  destruct r as [ts st']. cbn -[add_scalar]. rewrite W_bind_Ok. setoid_rewrite lift_Ok.
  repeat setoid_rewrite W_bind_Ok. split.
  - intros (key & ? & [Hk ->] & x1 & s1 & ? & x2 & s2 & ? & x3 & s3 & ? & t & s4 & ? & ?).
    exists key, x3, s3, t, s4. split_and!; [done | | done..].
    exists x1, s1. split; [done|]. by exists x2, s2.
  - intros (key & x & s3 & t & s4 & Hk & (x1 & s1 & ? & x2 & s2 & ? & ?) & ? & ?).
    exists key, st. split; [done|]. exists x1, s1. split; [done|].
    exists x2, s2. split; [done|]. exists x, s3. split; [done|]. by exists t, s4.
Qed.

Lemma freeze_items_spec d A rec items :
  Forall (fun kv => computes d A rec kv.2) items ->
  forall first frozen st r st', ok st -> ancestors st = A ->
  NoDup items.*1 -> (forall k, VStr k ∈ items.*1 -> k ∉ frozen.*1) ->
  freeze_items limits V msd rec first items frozen st = Ok (r, st') <->
  exists ts, r = frozen ++ ts /\ Forall2 (entry_denotes d) items ts
  /\ st' = charge (items_cost cost_of first ts) st /\ ok st'.
Proof.
  induction 1 as [|[k v] items Hv _ IH]; intros first frozen st r st' Hok HA Hnd Hfr.
  - cbn. rewrite W_ret_Ok. split.
    + intros [-> ->]. exists []. cbn. by rewrite charge_zero, app_nil_r.
    + intros (ts & -> & HF & -> & _). inversion HF; subst. cbn. by rewrite charge_zero, app_nil_r.
  - rewrite freeze_items_cons_Ok. cbn in Hnd, Hfr. apply list.NoDup_cons in Hnd as [Hkn Hnd].
    assert (Hfr' : forall key t, k = VStr key ->
      (forall k', VStr k' ∈ items.*1 -> k' ∉ (dict_set key t frozen).*1)
      /\ dict_set key t frozen = frozen ++ [(key, t)]).
    { intros key t ->. rewrite dict_set_fresh by (apply Hfr; left). split; [|done].
      intros k' Hk'. rewrite fmap_app, elem_of_app. intros [Hin|Hin].
      - eapply Hfr; [right; exact Hk' | done].
      - cbn in Hin. apply list_elem_of_singleton in Hin as ->. done. }
    split.
    + intros (key & x & st1 & t & st2 & Hk & H1 & H2 & H3).
      pose proof (validate_key_same _ _ Hk) as ->. destruct (Hfr' key t eq_refl) as [Hf Heq].
      apply add_key_text_Ok in H1 as (He & -> & Hok1); [|done].
      apply Hv in H2 as (Hd & -> & Hok2); [|done..].
      apply IH in H3 as (ts & -> & HF & -> & Hok3); [|done..].
      exists ((key, t) :: ts). rewrite Heq, <- app_assoc. cbn [items_cost].
      rewrite <- !charge_charge. split_and!; [done | constructor; [by constructor | done] | done..].
    + intros (ts & -> & HF & -> & Hok'). inversion HF as [|? [key t] ? ts' Hd HF']; subst.
      destruct Hd as [Hk Hka Hke Hd]. cbn in Hk, Hka, Hke, Hd. subst k.
      destruct (Hfr' key t eq_refl) as [Hf Heq].
      cbn [items_cost] in *. rewrite <- !charge_charge in *.
      set (st1 := charge (Cost 0 1 _) st) in *.
      assert (Hok2 : ok (charge (cost_of t) st1)).
      { eapply ok_state_charge; [|exact Hok']. apply items_cost_nonneg.
        apply Forall_true. intros; apply cost_of_nonneg. }
      assert (Hok1 : ok st1).
      { eapply ok_state_charge; [|exact Hok2]. apply cost_of_nonneg. }
      exists key, tt, st1, t, (charge (cost_of t) st1). split_and!; [done | | by apply Hv |].
      * by apply add_key_text_Ok.
      * apply IH; [done..|]. exists ts'. by rewrite Heq, <- app_assoc.
Qed.

(** The depth check and the node count that open every visit. *)
Lemma visit_Ok d e {B} (m : W B) st r :
  ok st ->
  (_ ← lift (raise_if (over (max_depth limits) d) e); _ ← add_node limits; m) st = Ok r <->
  over (max_depth limits) d = false /\ ok (charge (Cost 1 0 0) st)
  /\ m (charge (Cost 1 0 0) st) = Ok r.
Proof.
  intros Hok. destruct r as [b st']. rewrite W_bind_Ok. setoid_rewrite lift_Ok.
  setoid_rewrite raise_if_Ok. setoid_rewrite W_bind_Ok. split.
  - intros (x & ? & [Hd ->] & y & st1 & H1 & H2). apply add_node_Ok in H1 as [-> H1]; done.
  - intros (Hd & H1 & H2). exists tt, st. split; [done|].
    exists tt, (charge (Cost 1 0 0) st). split; [by apply add_node_Ok | done].
Qed.

Definition is_scalar (t : fjson) : Prop :=
  match t with FTuple _ | FMap _ => False | _ => True end.

Lemma scalar_denotes d v s t :
  is_scalar s -> (forall t, unfolds h v t <-> t = s) ->
  denotes d v t <->
  t = s /\ scalar_accepted V s /\ over (max_depth limits) d = false
  /\ (tracked limits -> scalar_printable msd s = true /\ is_Some (utf8 (dumps s))).
Proof.
  intros Hs Hu.
  assert (Hacc : accepted V s <-> scalar_accepted V s) by (destruct s; done).
  assert (Henc : encodable msd s <-> scalar_printable msd s = true /\ is_Some (utf8 (dumps s)))
    by (destruct s; done).
  assert (Hdep : d + depth_of s = d) by (destruct s; try done; cbn; lia).
  split.
  - intros [H1 H2 H3 H4]. apply Hu in H1 as ->. rewrite Hdep in H3.
    split_and!; [done | by apply Hacc | done | intros Ht; by apply Henc, H4].
  - intros (-> & H2 & H3 & H4). split; [by apply Hu | by apply Hacc | by rewrite Hdep |].
    intros Ht. by apply Henc, H4.
Qed.

Lemma scalar_computes d A v s (m : W fjson) e :
  is_scalar s -> (forall t, unfolds h v t <-> t = s) ->
  (forall st r, m st = Ok r <->
     scalar_accepted V s /\ (_ ← add_scalar limits msd s; mret s) st = Ok r) ->
  computes d A (fun _ => _ ← lift (raise_if (over (max_depth limits) d) e);
                         _ ← add_node limits; m) v.
Proof.
  intros Hs Hu Hm st t st' Hok HA. rewrite visit_Ok, Hm, W_bind_Ok by done.
  setoid_rewrite W_ret_Ok. rewrite (scalar_denotes d v s) by done.
  assert (Hcost : cost_of s = Cost 1 0 0 ⊕ Cost 0 0 (blen (dumps s))).
  { destruct s; try done; unfold cost_add; cbn; f_equal; lia. }
  split.
  - intros (Hd & Hok1 & Hacc & x & st1 & H1 & <- & ->).
    apply add_scalar_Ok in H1 as (He & -> & Hok2); [|done].
    rewrite Hcost, <- charge_charge. done.
  - intros ((-> & Hacc & Hd & He) & -> & Hok'). rewrite Hcost, <- charge_charge in *.
    assert (Hok1 : ok (charge (Cost 1 0 0) st)).
    { eapply ok_state_charge; [|exact Hok']. split_and!; cbn; try lia. apply blen_nonneg. }
    split_and!; [done..|]. exists tt. eexists. split; [|done]. by apply add_scalar_Ok.
Qed.

Lemma enter_Ok l st st' x :
  enter l st = Ok (x, st') <->
  (l ∉ ancestors st) /\ st' = set_ancestors ({[l]} ∪ ancestors st) st.
Proof.
  unfold enter. destruct x. case_bool_decide; split; [done | by intros [] | | by intros [_ ->]].
  by intros [= <-].
Qed.

(** Entering a container, charging its brackets, visiting it and leaving. *)
Lemma container_Ok l A {B} (m : W B) (wrap : B -> fjson) st r st' :
  ok st -> ancestors st = A -> l ∉ A ->
  (forall st1 b st2, m st1 = Ok (b, st2) -> ancestors st1 = {[l]} ∪ A ->
     ok st1 -> ancestors st2 = {[l]} ∪ A) ->
  (_ ← enter l; _ ← add_bytes limits 2; b ← m; _ ← leave l; mret (wrap b)) st = Ok (r, st') <->
  ok (charge (Cost 0 0 2) st)
  /\ exists b st2, m (charge (Cost 0 0 2) (set_ancestors ({[l]} ∪ A) st)) = Ok (b, st2)
  /\ r = wrap b /\ st' = set_ancestors A st2.
Proof.
  intros Hok HA Hl Hm.
  assert (Hset : forall B st, ok (set_ancestors B st) <-> ok st)
    by (intros ? []; split; intros []; by split).
  assert (HlA : ({[l]} ∪ A) ∖ {[l]} = A) by (by apply leave_entered).
  rewrite W_bind_Ok. setoid_rewrite W_bind_Ok. setoid_rewrite W_bind_Ok.
  setoid_rewrite W_bind_Ok. setoid_rewrite W_ret_Ok.
  setoid_rewrite enter_Ok. rewrite HA. split.
  - intros (x & st1 & [_ ->] & y & st2 & H2 & b & st3 & H3 & z & st4 & [_ ->] & <- & ->).
    apply add_bytes_Ok in H2 as [-> Hok2]; [|by apply Hset | done].
    rewrite charge_set_ancestors, Hset in Hok2. split; [done|].
    exists b, st3. split_and!; [done..|]. unfold set_ancestors. f_equal.
    erewrite Hm; [done | exact H3 | done | by rewrite charge_set_ancestors, Hset].
  - intros (Hok2 & b & st2 & H2 & -> & ->).
    exists tt. eexists. split; [done|]. exists tt. eexists. split.
    { apply add_bytes_Ok; [by apply Hset | done | split; [done|]].
      by rewrite charge_set_ancestors, Hset. }
    exists b, st2. split; [done|]. exists tt. eexists. split; [done|].
    split; [done|]. unfold set_ancestors. f_equal.
    erewrite Hm; [done | exact H2 | done | by rewrite charge_set_ancestors, Hset].
Qed.

Lemma Forall2_conj_r {X Y} (R : X -> Y -> Prop) (P : Y -> Prop) l k :
  Forall2 (fun x y => R x y /\ P y) l k <-> Forall2 R l k /\ Forall P k.
Proof.
  split.
  - induction 1 as [|x y l k [HR HP] _ [IH1 IH2]]; split; by constructor.
  - intros [HR HP]. induction HR as [|x y l k HR _ IH]; [constructor|].
    apply list.Forall_cons in HP as [? ?]. constructor; [done | by apply IH].
Qed.

Lemma Forall_implies {Y} (Q : Prop) (P : Y -> Prop) k :
  (Q -> Forall P k) <-> Forall (fun y => Q -> P y) k.
Proof.
  rewrite !Forall_forall. split; [eauto|]. intros H HQ x Hx. eauto.
Qed.

Lemma denotes_seq d l items t :
  h !! l = Some (CSeq items) ->
  denotes d (VRef l) t <->
  exists ts, t = FTuple ts /\ over (max_depth limits) d = false
  /\ Forall2 (denotes (d + 1)) items ts.
Proof.
  intros Hl.
  assert (Heq : forall ts, Forall2 (denotes (d + 1)) items ts <->
    Forall2 (unfolds h) items ts /\ Forall (fun t => accepted V t /\
      over (max_depth limits) (d + 1 + depth_of t) = false
      /\ (tracked limits -> encodable msd t)) ts).
  { intros ts. rewrite <- Forall2_conj_r.
    split; intros HF; (eapply Forall2_impl; [|exact HF]).
    - by intros ? ? []. - by intros ? ? (? & ? & ? & ?). }
  setoid_rewrite Heq. setoid_rewrite list.Forall_and. setoid_rewrite list.Forall_and. split.
  - intros [Hu Ha Hd He]. inversion Hu as [| | | | |l' items' ts Hl' HF|]; subst; simplify_eq.
    exists ts. apply depth_tuple in Hd as [Hd Hds]. apply everywhere_tuple in Ha.
    split_and!; [done..|]. apply Forall_implies. intros Ht. specialize (He Ht). by apply everywhere_tuple in He.
  - intros (ts & -> & Hd & Hu & Ha & Hds & He). split.
    + by econstructor. + by apply everywhere_tuple. + by apply depth_tuple.
    + intros Ht. apply everywhere_tuple.
      eapply list.Forall_impl; [exact He | by intros ? Hx; apply Hx].
Qed.

Lemma denotes_dict d l items t :
  h !! l = Some (CDict items) ->
  denotes d (VRef l) t <->
  exists ts, t = FMap ts /\ over (max_depth limits) d = false
  /\ Forall2 (entry_denotes (d + 1)) items ts.
Proof.
  intros Hl.
  assert (Heq : forall ts, Forall2 (entry_denotes (d + 1)) items ts <->
    Forall2 (fun kv kt => kv.1 = VStr kt.1 /\ unfolds h kv.2 kt.2) items ts
    /\ Forall (fun kt => (validate_key V (VStr kt.1) = Ok kt.1 /\ accepted V kt.2) /\
      over (max_depth limits) (d + 1 + depth_of kt.2) = false
      /\ (tracked limits -> is_Some (utf8 (json_string kt.1)) /\ encodable msd kt.2)) ts).
  { intros ts. rewrite <- Forall2_conj_r.
    split; intros HF; (eapply Forall2_impl; [|exact HF]).
    - intros ? ? [? ? ? []]. split_and!; eauto.
    - intros ? ? ([? ?] & [? ?] & ? & He). split; [done | done | by intros ?; apply He |].
      split; [done | done | done | by intros ?; apply He]. }
  setoid_rewrite Heq. setoid_rewrite list.Forall_and. setoid_rewrite list.Forall_and. split.
  - intros [Hu Ha Hd He]. inversion Hu as [| | | | | |l' items' ts Hl' HF]; subst; simplify_eq.
    exists ts. apply depth_map in Hd as [Hd Hds]. apply everywhere_map in Ha.
    apply list.Forall_and in Ha as [Hk Ha].
    split_and!; [done..|]. apply Forall_implies. intros Ht. specialize (He Ht). by apply everywhere_map in He.
  - intros (ts & -> & Hd & Hu & [Hk Ha] & Hds & He). split.
    + by econstructor. + by apply everywhere_map, list.Forall_and. + by apply depth_map.
    + intros Ht. apply everywhere_map.
      eapply list.Forall_impl; [exact He | by intros ? Hx; apply Hx].
Qed.

(** A value below itself never denotes a tree. *)
Lemma cyclic_denotes_nothing d l t : tc (child h) (VRef l) (VRef l) -> ~ denotes d (VRef l) t.
Proof. intros Hc [Hu _ _ _]. by eapply unfolds_acyclic. Qed.

Lemma enter_cycle l {B} (m : W B) st r :
  l ∈ ancestors st -> ~ (_ ← enter l; m) st = Ok r.
Proof.
  intros Hl. destruct r. rewrite W_bind_Ok. intros (? & ? & H & _).
  by apply enter_Ok in H as [? _].
Qed.

Lemma freeze_container_computes fuel d A l {B} (m : W B) (wrap : B -> fjson)
    (R : B -> Prop) (cost_b : B -> cost) e :
  (forall a, a ∈ A -> tc (child h) (VRef a) (VRef l)) ->
  (forall b, cost_of (wrap b) = Cost 1 0 2 ⊕ cost_b b) -> (forall b, cost_nonneg (cost_b b)) ->
  (forall t, denotes d (VRef l) t <->
     exists b, t = wrap b /\ over (max_depth limits) d = false /\ R b) ->
  (l ∉ A -> forall st b st2, ok st -> ancestors st = {[l]} ∪ A ->
     m st = Ok (b, st2) <-> R b /\ st2 = charge (cost_b b) st /\ ok st2) ->
  (fuel > 0)%nat ->
  computes d A (fun _ => _ ← lift (raise_if (over (max_depth limits) d) e);
    _ ← add_node limits; _ ← enter l; _ ← add_bytes limits 2; b ← m; _ ← leave l;
    mret (wrap b)) (VRef l).
Proof.
  intros HA Hcost Hnn Hden Hm _ st t st' Hok Hanc. rewrite visit_Ok by done.
  destruct (decide (l ∈ A)) as [Hin | Hl].
  { split.
    - intros (_ & _ & H). exfalso. eapply enter_cycle; [|exact H]. cbn. by rewrite Hanc.
    - intros [Hd _]. exfalso. eapply cyclic_denotes_nothing; [|exact Hd]. eauto. }
  specialize (Hm Hl). rewrite Hden.
  assert (Hset : forall B st, ok (set_ancestors B st) <-> ok st)
    by (intros ? []; split; intros []; by split).
  assert (Hpres : forall st1 b st2, m st1 = Ok (b, st2) -> ancestors st1 = {[l]} ∪ A ->
     ok st1 -> ancestors st2 = {[l]} ∪ A).
  { intros st1 b st2 H1 H2 H3. by apply Hm in H1 as (_ & -> & _). }
  assert (Hch : forall b, charge (cost_of (wrap b)) st
     = charge (cost_b b) (charge (Cost 0 0 2) (charge (Cost 1 0 0) st))).
  { intros b. rewrite Hcost, !charge_charge. done. }
  assert (HsA : forall st, ancestors st = A -> set_ancestors A st = st) by (intros [] ; cbn; by intros <-).
  split.
  - intros (Hd & Hok1 & H). rewrite (container_Ok l A) in H by done.
    destruct H as (Hok2 & b & st2 & Hb & -> & ->).
    apply Hm in Hb as (HR & -> & Hok3); [|by rewrite charge_set_ancestors, Hset | done].
    rewrite !charge_set_ancestors, Hset in Hok3.
    split; [by exists b|]. rewrite Hch, !charge_set_ancestors.
    split; [|by rewrite !Hset]. exact (HsA (charge _ (charge _ (charge _ st))) Hanc).
  - intros ((b & -> & Hd & HR) & -> & Hok'). rewrite Hch in *.
    assert (Hok2 : ok (charge (Cost 0 0 2) (charge (Cost 1 0 0) st)))
      by (eapply ok_state_charge; [apply Hnn | exact Hok']).
    assert (Hok1 : ok (charge (Cost 1 0 0) st)) by (eapply ok_state_charge; [|exact Hok2]; done).
    split_and!; [done..|]. rewrite (container_Ok l A) by done. split; [done|].
    eexists b, _. split; [|split; [done|]].
    + apply Hm; [by rewrite charge_set_ancestors, Hset | done |].
      split_and!; [done..|]. by rewrite !charge_set_ancestors, Hset.
    + rewrite !charge_set_ancestors. symmetry. exact (HsA (charge _ (charge _ (charge _ st))) Hanc).
Qed.

Ltac unfold_scalar := let t := fresh in let H := fresh in
  intros t; split; [by inversion 1 | intros ->; by constructor].

Lemma freeze_number_scalar n st r :
  freeze_number limits V msd n st = Ok r <->
  scalar_accepted V (num_json n) /\ (_ ← add_scalar limits msd (num_json n); mret (num_json n)) st = Ok r.
Proof.
  destruct r as [t st']. unfold freeze_number. rewrite !W_bind_Ok. setoid_rewrite lift_Ok.
  setoid_rewrite raise_if_Ok. setoid_rewrite W_bind_Ok. setoid_rewrite lift_Ok. split.
  - intros (x & ? & [Hf ->] & n' & ? & [Hn ->] & H).
    pose proof (validate_number_same _ _ Hn) as ->. split; [|by apply W_bind_Ok].
    destruct n; cbn in *; [done|]. split; [by destruct (isfinite f) | done].
  - intros [Ha H]. exists tt, st. split.
    { split; [|done]. destruct n; [done|]. destruct Ha as [Ha _]. cbn in *. by rewrite Ha. }
    exists n, st. split; [|by apply W_bind_Ok]. split; [|done].
    destruct n; cbn in Ha; [done | by destruct Ha].
Qed.

Lemma child_below (A : gset positive) l v :
  (forall a, a ∈ A -> tc (child h) (VRef a) (VRef l)) -> child h (VRef l) v ->
  forall a, a ∈ {[l]} ∪ A -> tc (child h) (VRef a) v.
Proof.
  intros HA Hc a. rewrite elem_of_union, elem_of_singleton. intros [->|Ha].
  - by apply tc_once.
  - eapply tc_r; eauto.
Qed.

(** With one unit of fuel per container not yet entered, and one more, the
    walk computes what the value denotes: it fails for no other reason. *)
Lemma freeze_computes fuel v d A :
  (base.size (dom h ∖ A) < fuel)%nat ->
  (forall a, a ∈ A -> tc (child h) (VRef a) v) ->
  computes d A (fun v => freeze h limits V msd fuel v d) v.
Proof.
  revert v d A; induction fuel as [|fuel IH]; intros v d A Hfuel HA; [lia|].
  destruct v as [|b|z|f|s|l|].
  - apply (scalar_computes d A VNone FNull); [done | unfold_scalar |].
    intros st r. cbn. tauto.
  - apply (scalar_computes d A (VBool b) (FBool b)); [done | unfold_scalar |].
    intros st r. cbn. tauto.
  - apply (scalar_computes d A (VInt z) (FInt z)); [done | unfold_scalar |].
    intros st r. apply (freeze_number_scalar (NInt z)).
  - apply (scalar_computes d A (VFloat f) (FFloat f)); [done | unfold_scalar |].
    intros st r. apply (freeze_number_scalar (NFloat f)).
  - apply (scalar_computes d A (VStr s) (FStr s)); [done | unfold_scalar |].
    intros st [t st']. rewrite W_bind_Ok. setoid_rewrite lift_Ok. split.
    + intros (s' & ? & [Hs ->] & H). pose proof (validate_string_same _ _ Hs) as ->. done.
    + intros [Hs H]. by exists s, st.
  - destruct (h !! l) as [c|] eqn:Hl.
    + assert (Hdom : l ∈ dom h) by (by apply elem_of_dom).
      change (computes d A (fun _ => freeze h limits V msd (S fuel) (VRef l) d) (VRef l)).
      destruct c as [items|items]; cbn [freeze]; rewrite Hl.
      * apply (freeze_container_computes (S fuel) d A l _ FMap
          (Forall2 (entry_denotes (d + 1)) items) (items_cost cost_of true)); try done.
        { intros b. apply items_cost_nonneg, Forall_true. intros; apply cost_of_nonneg. }
        { intros t. by apply denotes_dict. }
        { intros HlA st b st2 Hok Hanc. rewrite freeze_items_spec.
          - split; [intros (ts & -> & H) | intros H; exists b]; done.
          - apply list.Forall_forall. intros [k v] Hkv. apply IH; [by apply fewer_containers|].
            apply child_below; [done | eapply child_dict; [exact Hl | exact Hkv]].
          - done. - done. - by eapply Hwf. - intros k _. apply not_elem_of_nil. }
        { lia. }
      * apply (freeze_container_computes (S fuel) d A l _ FTuple
          (Forall2 (denotes (d + 1)) items) (elems_cost cost_of true)); try done.
        { intros b. apply elems_cost_nonneg, Forall_true. intros; apply cost_of_nonneg. }
        { intros t. by apply denotes_seq. }
        { intros HlA st b st2 Hok Hanc. apply (freeze_elems_spec (d + 1) ({[l]} ∪ A)); [|done..].
          apply list.Forall_forall. intros v Hv. apply IH; [by apply fewer_containers|].
          apply child_below; [done | by eapply child_seq]. }
        { lia. }
    + intros st t st' Hok Hanc. cbn [freeze]. rewrite Hl, visit_Ok by done. split.
      * by intros (_ & _ & H).
      * intros [[Hu _ _ _] _]. inversion Hu; simplify_eq.
  - intros st t st' Hok Hanc. cbn [freeze]. rewrite visit_Ok by done. split.
    + by intros (_ & _ & H).
    + intros [[Hu _ _ _] _]. inversion Hu.
Qed.
End FreezeSpec.
