(* ===== verification/FrozenJsonProps.v ===== *)
(** * Properties of the deep-freeze *)

From stdpp Require Import gmap.
From S2P Require Export FrozenJsonSpec.

(** ** Termination: the fuel is never exhausted *)

(** [m], started with the containers [anc] on the path, ends with the same
    path or with an exception of [E]. *)
Definition safe (E : exn -> Prop) {A} (anc : gset positive) (m : W A) : Prop :=
  forall st, ancestors st = anc ->
  match m st with
  | Ok (_, st') => ancestors st' = anc
  | Raise e => E e
  end.

(** A policy does not raise the model's own fuel marker. *)
Class PythonicValidators (V : validators) : Prop := {
  validate_key_pythonic : forall v, validate_key V v <> Raise FuelExhausted;
  validate_string_pythonic : forall s, apply_opt (validate_string V) s <> Raise FuelExhausted;
  validate_number_pythonic : forall n, apply_opt (validate_number V) n <> Raise FuelExhausted
}.

#[export] Instance default_validators_pythonic : PythonicValidators default_validators.
Proof. by split; [intros []|..]. Qed.

(** The walk's own exceptions and the policy's are in [E]. *)
Class RaisesOnly (E : exn -> Prop) (V : validators) : Prop := {
  raises_type : forall rule m, E (JSONTypeError rule m);
  raises_limit : forall rule m, E (JSONLimitError rule m);
  raises_key : forall v e, validate_key V v = Raise e -> E e;
  raises_string : forall s e, apply_opt (validate_string V) s = Raise e -> E e;
  raises_number : forall n e, apply_opt (validate_number V) n = Raise e -> E e
}.

#[export] Instance pythonic_raises V `{!PythonicValidators V} :
  RaisesOnly (fun e => e <> FuelExhausted) V.
Proof.
  split; try done; intros x e H ->; [by apply validate_key_pythonic in H|by apply validate_string_pythonic in H|].
  by apply validate_number_pythonic in H.
Qed.

Lemma safe_bind E {A B} anc (m : W A) (f : A -> W B) :
  safe E anc m -> (forall a, safe E anc (f a)) -> safe E anc (m ≫= f).
Proof.
  intros Hm Hf st Hst. specialize (Hm st Hst). unfold mbind, W_bind.
  destruct (m st) as [[a st1]|e]; [by apply Hf | done].
Qed.

Lemma safe_ret E {A} anc (a : A) : safe E anc (mret a).
Proof. by intros st. Qed.

Lemma safe_lift (E : exn -> Prop) {A} anc (m : res A) : (forall e, m = Raise e -> E e) -> safe E anc (lift m).
Proof. intros Hm st Hst. unfold lift. destruct m; [done|by apply Hm]. Qed.

Lemma safe_lift_raise_if (E : exn -> Prop) anc b e : E e -> safe E anc (lift (raise_if b e)).
Proof. intros He. apply safe_lift. intros e' H. by apply raise_if_Raise in H as [_ <-]. Qed.

Section Termination.
Context (E : exn -> Prop) (h : heap) (limits : JSONLimits) (V : validators) `{!RaisesOnly E V} (msd : Z).

Lemma safe_add_bytes anc n : safe E anc (add_bytes limits n).
Proof. intros st <-. unfold add_bytes. destruct (size st); [|done]. destruct (over _ _); [apply raises_limit|done]. Qed.

Lemma safe_add_node anc : safe E anc (add_node limits).
Proof. intros st <-. unfold add_node. destruct (over _ _); [apply raises_limit|done]. Qed.

Lemma safe_add_key anc : safe E anc (add_key limits).
Proof. intros st <-. unfold add_key. destruct (over _ _); [apply raises_limit|done]. Qed.

Lemma safe_add_scalar anc t : safe E anc (add_scalar limits msd t).
Proof.
  intros st Hst. unfold add_scalar. destruct (size st); [|done].
  destruct (scalar_printable msd t); [|apply raises_limit]. destruct (utf8 _); [|apply raises_limit].
  by apply safe_add_bytes.
Qed.

#[local] Hint Resolve safe_bind safe_ret safe_add_bytes safe_add_node safe_add_key
  safe_add_scalar safe_lift_raise_if : core.

Lemma safe_freeze_elems anc rec items first :
  (forall v, safe E anc (rec v)) -> safe E anc (freeze_elems limits rec first items).
Proof.
  intros Hrec; revert first; induction items as [|v items IH]; intros first; cbn; [auto|].
  apply safe_bind; [destruct first; auto | auto].
Qed.

Lemma safe_freeze_items anc rec items first frozen :
  (forall v, safe E anc (rec v)) -> safe E anc (freeze_items limits V msd rec first items frozen).
Proof.
  intros Hrec; revert first frozen; induction items as [|[k v] items IH];
    intros first frozen; cbn; [auto|].
  apply safe_bind; [apply safe_lift, raises_key | auto 8].
Qed.

Lemma safe_freeze_number anc n : safe E anc (freeze_number limits V msd n).
Proof.
  unfold freeze_number. apply safe_bind; [apply safe_lift_raise_if, raises_limit|]. intros _.
  apply safe_bind; [apply safe_lift, raises_number | auto].
Qed.

Lemma safe_container anc l {B} (m : W B) (wrap : B -> fjson) :
  (l ∉ anc -> safe E ({[l]} ∪ anc) m) ->
  safe E anc (_ ← enter l; _ ← add_bytes limits 2; b ← m; _ ← leave l; mret (wrap b)).
Proof.
  intros Hm st Hst. unfold mbind, W_bind, enter. case_bool_decide as Hl; [apply raises_limit|].
  rewrite Hst in *. set (st1 := WState _ _ _ _).
  pose proof (safe_add_bytes ({[l]} ∪ anc) 2 st1 eq_refl) as H1.
  destruct (add_bytes limits 2 st1) as [[[] st2]|e]; [|done].
  specialize (Hm Hl st2 H1). destruct (m st2) as [[b st3]|e]; [|done].
  cbn. rewrite Hm. by apply leave_entered.
Qed.

Lemma safe_freeze fuel v d anc :
  (base.size (dom h ∖ anc) < fuel)%nat -> safe E anc (freeze h limits V msd fuel v d).
Proof.
  revert v d anc; induction fuel as [|fuel IH]; intros v d anc Hfuel; [lia|]. cbn.
  apply safe_bind; [apply safe_lift_raise_if, raises_limit|]. intros _.
  apply safe_bind; [auto|]. intros _.
  destruct v as [|b|z|f|s|l|]; auto.
  - apply safe_freeze_number.
  - apply safe_freeze_number.
  - apply safe_bind; [apply safe_lift, raises_string | auto].
  - destruct (h !! l) as [[items|items]|] eqn:Hl; [| |by apply safe_lift; intros ? [= <-]; apply raises_type].
    all: assert (Hdom : l ∈ dom h) by (by apply elem_of_dom).
    + apply safe_container. intros HlA. apply safe_freeze_items.
      intros v. by apply IH, fewer_containers.
    + apply safe_container. intros HlA. apply safe_freeze_elems.
      intros v. by apply IH, fewer_containers.
  - apply safe_lift. intros ? [= <-]. apply raises_type.
Qed.

Lemma freeze_json_errors v e : freeze_json h limits V msd v = Raise e -> E e.
Proof.
  unfold freeze_json. pose proof (safe_freeze (S (base.size h)) v 0 ∅) as H.
  specialize (H ltac:(rewrite difference_empty_L, size_dom; lia) (init_state limits) eq_refl).
  destruct (freeze _ _ _ _ _ _ _ _) as [[t st]|e']; [done|]. by intros [= <-].
Qed.
End Termination.

Lemma freeze_json_no_fuel h limits V `{!PythonicValidators V} msd v :
  freeze_json h limits V msd v <> Raise FuelExhausted.
Proof. intros H. by apply (freeze_json_errors (fun e => e <> FuelExhausted)) in H; [|apply _]. Qed.

(** C39. [freeze_json] always returns a frozen value or raises: on every
    finite store, cyclic or not and with or without a depth bound, the walk
    terminates (one level of recursion per container is enough). *)
Theorem freeze_json_terminates h limits V `{!PythonicValidators V} msd v :
  freeze_json h limits V msd v <> Raise FuelExhausted.
Proof. by apply freeze_json_no_fuel. Qed.

(** ** The walk measures the canonical encoding *)

Lemma utf8_app s1 s2 :
  utf8 (s1 ++ s2) = (b1 ← utf8 s1; b2 ← utf8 s2; Some (b1 ++ b2)).
Proof.
  induction s1 as [|c s1 IH]; cbn; [by destruct (utf8 s2)|].
  rewrite IH. destruct (utf8_char c); [|done]. cbn.
  destruct (utf8 s1); [|done]. cbn. destruct (utf8 s2); [|done]. cbn. by rewrite app_assoc.
Qed.

(** [s] is encodable as [n] bytes. *)
Definition encodes (s : pystr) (n : Z) : Prop := exists bs, utf8 s = Some bs /\ len bs = n.

Lemma encodes_app s1 s2 n1 n2 : encodes s1 n1 -> encodes s2 n2 -> encodes (s1 ++ s2) (n1 + n2).
Proof.
  intros (b1 & H1 & <-) (b2 & H2 & <-). exists (b1 ++ b2).
  rewrite utf8_app, H1, H2. split; [done | apply len_app].
Qed.

Lemma encodes_blen s : is_Some (utf8 s) -> encodes s (blen s).
Proof. intros [bs Hbs]. exists bs. unfold blen. by rewrite Hbs. Qed.

#[local] Arguments json_string : simpl never.

Lemma encodes_char s : s = u "[" \/ s = u "]" \/ s = u "{" \/ s = u "}" \/ s = u "," \/ s = u ":" ->
  encodes s 1.
Proof. intros H; destruct_or! H; subst; by eexists. Qed.

Lemma join_cons sep x y l : join sep (x :: y :: l) = x ++ sep ++ join sep (y :: l).
Proof. done. Qed.

(** The separators are charged where the text has them: none before the
    first entry, one comma before every other. *)
Lemma encodes_join_elems ts (f : fjson -> pystr) (c : fjson -> cost) :
  Forall (fun t => encodes (f t) (c_bytes (c t))) ts ->
  encodes (join (u ",") (map f ts)) (c_bytes (elems_cost c true ts)).
Proof.
  intros H.
  assert (Hgo : forall t ts, encodes (f t) (c_bytes (c t)) ->
    Forall (fun t => encodes (f t) (c_bytes (c t))) ts ->
    encodes (join (u ",") (map f (t :: ts))) (c_bytes (c t) + c_bytes (elems_cost c false ts))).
  { clear. intros t ts Ht HF; revert t Ht; induction HF as [|t' ts Ht' _ IH]; intros t Ht.
    - cbn. by rewrite Z.add_0_r.
    - cbn [map] in *. rewrite join_cons. apply encodes_app; [done|].
      cbn [elems_cost cost_add c_bytes].
      replace (0 + 1 + c_bytes (c t') + _) with (1 + (c_bytes (c t') + c_bytes (elems_cost c false ts)))
        by (cbn; lia).
      apply encodes_app; [apply encodes_char; tauto | by apply IH]. }
  destruct H as [|t ts Ht HF]; [by eexists|]. cbn [elems_cost cost_add c_bytes].
  replace (_ + _ + _) with (c_bytes (c t) + c_bytes (elems_cost c false ts)) by (cbn; lia).
  by apply Hgo.
Qed.

Definition entry_text (f : fjson -> pystr) (kt : pystr * fjson) : pystr :=
  json_string kt.1 ++ u ":" ++ f kt.2.

Lemma encodes_join_items ts (f : fjson -> pystr) (c : fjson -> cost) :
  Forall (fun kt => is_Some (utf8 (json_string kt.1)) /\ encodes (f kt.2) (c_bytes (c kt.2))) ts ->
  encodes (join (u ",") (map (entry_text f) ts)) (c_bytes (items_cost c true ts)).
Proof.
  assert (He : forall kt, is_Some (utf8 (json_string kt.1)) /\ encodes (f kt.2) (c_bytes (c kt.2)) ->
    encodes (entry_text f kt) (blen (json_string kt.1) + (1 + c_bytes (c kt.2)))).
  { intros kt [H1 H2]. apply encodes_app; [by apply encodes_blen|].
    apply encodes_app; [apply encodes_char; tauto | done]. }
  assert (Hgo : forall kt ts,
    is_Some (utf8 (json_string kt.1)) /\ encodes (f kt.2) (c_bytes (c kt.2)) ->
    Forall (fun kt => is_Some (utf8 (json_string kt.1)) /\ encodes (f kt.2) (c_bytes (c kt.2))) ts ->
    encodes (join (u ",") (map (entry_text f) (kt :: ts)))
      (blen (json_string kt.1) + (1 + c_bytes (c kt.2)) + c_bytes (items_cost c false ts))).
  { clear ts. intros kt ts Ht HF; revert kt Ht; induction HF as [|[k' t'] ts Ht' _ IH]; intros kt Ht.
    - cbn. rewrite Z.add_0_r. by apply He.
    - cbn [map] in *. rewrite join_cons. apply encodes_app; [by apply He|].
      cbn [items_cost cost_add c_bytes].
      replace (blen (json_string k') + 2 + c_bytes (c t') + _)
        with (1 + (blen (json_string k') + (1 + c_bytes (c t')) + c_bytes (items_cost c false ts)))
        by (cbn; lia).
      apply encodes_app; [apply encodes_char; tauto | by apply (IH (k', t'))]. }
  intros [|[k t] ts' Ht HF]; [by eexists|]. cbn [items_cost cost_add c_bytes].
  replace (_ + _ + _) with
    (blen (json_string k) + (1 + c_bytes (c t)) + c_bytes (items_cost c false ts')) by (cbn; lia).
  by apply (Hgo (k, t)).
Qed.

(** The byte measure is the length of the encoded canonical text. *)
Lemma encodable_encodes msd t : encodable msd t -> encodes (dumps t) (c_bytes (cost_of t)).
Proof.
  assert (Hwrap : forall o c s n, (o = u "[" \/ o = u "{") -> (c = u "]" \/ c = u "}") ->
    encodes s n -> encodes (o ++ s ++ c) (2 + n)).
  { intros o c s n Ho Hc Hs. replace (2 + n) with (1 + (n + 1)) by lia.
    apply encodes_app; [apply encodes_char; tauto|].
    apply encodes_app; [done | apply encodes_char; tauto]. }
  induction t as [t Ht | ts IH | ts IH] using fjson_tree_ind; intros He.
  - destruct t; try done; destruct He as [_ He]; exact (encodes_blen _ He).
  - apply everywhere_tuple in He. apply Hwrap; [tauto..|].
    apply encodes_join_elems. rewrite list.Forall_forall in *.
    intros t Ht. apply IH; [done | by apply He].
  - apply everywhere_map in He. apply Hwrap; [tauto..|].
    replace (map _ ts) with (map (entry_text dumps) ts) by (apply map_ext; by intros []).
    apply encodes_join_items. rewrite list.Forall_forall in *.
    intros kt Hkt. destruct (He kt Hkt). split; [done | by apply IH].
Qed.

Lemma encodable_printable msd t : encodable msd t -> printable msd t = true.
Proof.
  induction t as [t Ht | ts IH | ts IH] using fjson_tree_ind; intros He.
  - destruct t; try done; by destruct He.
  - apply everywhere_tuple in He. cbn. apply List.forallb_forall.
    rewrite list.Forall_forall in *. intros t Ht%list_elem_of_In. apply IH; [done | by apply He].
  - apply everywhere_map in He. cbn. apply List.forallb_forall.
    rewrite list.Forall_forall in *. intros [k t] Hkt%list_elem_of_In.
    apply (IH _ Hkt). by destruct (He _ Hkt).
Qed.

(** ** The specification of [freeze_json] *)

Section Freeze.
Context (h : heap) (Hwf : heap_wf h).
Context (limits : JSONLimits) (Hlim : limits_ok limits).
Context (V : validators) `{!FaithfulValidators V} (msd : Z).

Lemma ok_init_state : ok_state limits (init_state limits).
Proof.
  destruct Hlim as (H1 & H2 & H3). split; cbn; [done | done | |].
  - destruct (max_encoded_bytes limits); [by intros ? [= <-] | done].
  - unfold tracked. destruct (max_encoded_bytes limits); split; intros [? ?]; eauto; done.
Qed.

(** The size [freeze_json] reports. *)
Definition measured (t : fjson) : option Z :=
  match max_encoded_bytes limits with Some _ => Some (c_bytes (cost_of t)) | None => None end.

Lemma ok_state_within t :
  over (max_depth limits) (depth_of t) = false /\ ok_state limits (charge (cost_of t) (init_state limits))
  <-> within limits t.
Proof.
  unfold within. split.
  - intros (Hd & [H1 H2 H3 _]). split_and!; [done..|].
    cbn in H3. destruct (max_encoded_bytes limits) eqn:Hb; cbn in *; [by apply H3 | done].
  - intros (Hd & H1 & H2 & H3). split; [done|]. pose proof ok_init_state as [_ _ _ H4].
    split; [done | done | |].
    + cbn. destruct (max_encoded_bytes limits); cbn in *; [by intros ? [= <-] | done].
    + cbn [charge size]. by rewrite fmap_is_Some.
Qed.

Lemma freeze_json_denotes v t n :
  freeze_json h limits V msd v = Ok (t, n) <->
  denotes h limits V msd 0 v t /\ ok_state limits (charge (cost_of t) (init_state limits))
  /\ n = measured t.
Proof.
  pose proof (freeze_computes h Hwf limits V msd (S (base.size h)) v 0 ∅) as Hc.
  specialize (Hc ltac:(rewrite difference_empty_L, size_dom; lia) ltac:(set_solver)).
  unfold freeze_json. assert (Hm : size (charge (cost_of t) (init_state limits)) = measured t).
  { unfold measured. cbn. by destruct (max_encoded_bytes limits). }
  specialize (Hc (init_state limits) t). rewrite <- Hm. split.
  - destruct (freeze _ _ _ _ _ _ _ _) as [[t' st']|e] eqn:Hf; [|done]. intros [= -> <-].
    by apply Hc in Hf as (Hd & -> & Hok); [|apply ok_init_state | done].
  - intros (Hd & Hok & ->).
    assert (Hf := proj2 (Hc _ ok_init_state eq_refl) (conj Hd (conj eq_refl Hok))).
    by rewrite Hf.
Qed.
End Freeze.

Lemma freeze_json_Ok h limits V `{!FaithfulValidators V} msd v t n :
  heap_wf h -> limits_ok limits ->
  freeze_json h limits V msd v = Ok (t, n) <->
  unfolds h v t /\ accepted V t /\ within limits t
  /\ (is_Some (max_encoded_bytes limits) -> encodable msd t)
  /\ n = (if max_encoded_bytes limits is Some _ then Some (c_bytes (cost_of t)) else None).
Proof.
  intros Hwf Hlim. rewrite freeze_json_denotes by done.
  rewrite <- (ok_state_within limits Hlim t). unfold measured, tracked. split.
  - by intros ([? ? ? ?] & ? & ->).
  - intros (? & ? & [? ?] & ? & ->). by split.
Qed.

(** C1. [freeze_json] succeeds with the tree [t] exactly when the value
    denotes [t] (so it is finite, acyclic and JSON-shaped), the domain
    policy accepts every key and scalar of [t], depth, nodes, keys and
    encoded bytes of [t] are within the limits, and, when a byte budget is
    set, [t] can be encoded; the reported size is the byte measure of [t].
    In particular sharing a container between branches is not a cycle. *)
Theorem freeze_json_exact h limits V `{!FaithfulValidators V} msd v t n :
  heap_wf h -> limits_ok limits ->
  freeze_json h limits V msd v = Ok (t, n) <->
  unfolds h v t /\ accepted V t /\ within limits t
  /\ (is_Some (max_encoded_bytes limits) -> encodable msd t)
  /\ n = (if max_encoded_bytes limits is Some _ then Some (c_bytes (cost_of t)) else None).
Proof. exact (freeze_json_Ok h limits V msd v t n). Qed.

(** A value reachable from itself. *)
Definition cyclic (h : heap) (v : pyval) : Prop := tc (child h) v v.

(** A self-referencing value never freezes and never exhausts the walk:
    it ends in an exception of the program, whatever the limits. *)
Theorem freeze_json_rejects_cycles h limits V `{!FaithfulValidators V, !PythonicValidators V} msd v :
  heap_wf h -> limits_ok limits -> cyclic h v ->
  exists e, freeze_json h limits V msd v = Raise e /\ e <> FuelExhausted.
Proof.
  intros Hwf Hlim Hc. pose proof (freeze_json_no_fuel h limits V msd v) as Ht.
  destruct (freeze_json h limits V msd v) as [[t n]|e] eqn:Hf; [|by exists e; split; [|congruence]].
  apply freeze_json_denotes in Hf as ([Hu _ _ _] & _); [|done..].
  by apply unfolds_acyclic in Hu.
Qed.

Lemma freeze_json_size h limits V `{!FaithfulValidators V} msd v t n :
  heap_wf h -> limits_ok limits ->
  freeze_json h limits V msd v = Ok (t, Some n) ->
  exists bs, canonical_json_bytes msd t = Ok bs /\ len bs = n
  /\ over (max_encoded_bytes limits) n = false.
Proof.
  intros Hwf Hlim Hf. apply freeze_json_denotes in Hf as ([_ _ _ He] & Hok & Hn); [|done..].
  unfold measured in Hn. destruct (max_encoded_bytes limits) eqn:Hb; [|done].
  injection Hn as ->. specialize (He ltac:(by eexists)).
  destruct (encodable_encodes _ _ He) as (bs & Hbs & Hlen).
  exists bs. unfold canonical_json_bytes.
  rewrite (encodable_printable _ _ He), Hbs. split_and!; [done..|].
  destruct Hok as [_ _ Hbytes _]. rewrite Hb in Hbytes. apply Hbytes.
  cbn. by rewrite Hb.
Qed.

(** Under a byte budget the reported size is exactly the length of
    [canonical_json_bytes] of the frozen value, which then never fails, and
    it respects the budget. *)
Theorem freeze_json_measures h limits V `{!FaithfulValidators V} msd v t n :
  heap_wf h -> limits_ok limits ->
  freeze_json h limits V msd v = Ok (t, Some n) ->
  exists bs, canonical_json_bytes msd t = Ok bs /\ len bs = n
  /\ over (max_encoded_bytes limits) n = false.
Proof. exact (freeze_json_size h limits V msd v t n). Qed.

(** ** Thawing *)

Lemma unfolds_mono h h' v t : h ⊆ h' -> unfolds h v t -> unfolds h' v t.
Proof.
  intros Hsub; revert v; induction t as [t Ht | ts IH | ts IH] using fjson_tree_ind;
    intros v Hu.
  - destruct t; try done; inversion Hu; subst; constructor.
  - inversion Hu as [| | | | |l items ts' Hl HF|]; subst.
    apply (unfolds_seq _ _ items); [by eapply lookup_weaken|].
    clear -IH HF. induction HF; [done|]. apply list.Forall_cons in IH as []. constructor; eauto.
  - inversion Hu as [| | | | | |l items ts' Hl HF]; subst.
    apply (unfolds_dict _ _ items); [by eapply lookup_weaken|].
    clear -IH HF. induction HF as [|? ? ? ? [? ?]]; [done|].
    apply list.Forall_cons in IH as []. constructor; [split|]; eauto.
Qed.

(** The keys of every mapping of the tree are distinct. *)
Fixpoint keys_distinct (t : fjson) : Prop :=
  match t with
  | FTuple ts => foldr (fun t P => keys_distinct t /\ P) True ts
  | FMap ts => NoDup ts.*1 /\ foldr (fun kt P => keys_distinct kt.2 /\ P) True ts
  | _ => True
  end.

Lemma unfolds_keys_distinct h v t : heap_wf h -> unfolds h v t -> keys_distinct t.
Proof.
  intros Hwf; revert v; induction t as [t Ht | ts IH | ts IH] using fjson_tree_ind;
    intros v Hu; [by destruct t|..].
  - inversion Hu as [| | | | |l items ts' Hl HF|]; subst. cbn. clear -IH HF.
    induction HF; cbn; [done|]. apply list.Forall_cons in IH as []. eauto.
  - inversion Hu as [| | | | | |l items ts' Hl HF]; subst. split.
    + apply Hwf in Hl. clear -Hl HF.
      assert (items.*1 = VStr <$> ts.*1) as Heq.
      { induction HF as [|[] [] ? ? [? ?] _ IH]; cbn in *; [done|].
        apply list.NoDup_cons in Hl as [_ ?]. subst. f_equal. eauto. }
      rewrite Heq in Hl. by apply NoDup_fmap_1 in Hl.
    + clear -IH HF. induction HF as [|? ? ? ? [? ?]]; cbn; [done|].
      apply list.Forall_cons in IH as []. eauto.
Qed.

Lemma alloc_spec c h v h' :
  alloc c h = (v, h') -> h ⊆ h' /\ exists l, v = VRef l /\ h' = <[l := c]> h /\ h !! l = None.
Proof.
  unfold alloc. intros [= <- <-]. assert (h !! fresh (dom h) = None) as Hn.
  { apply not_elem_of_dom, is_fresh. }
  split; [by apply insert_subseteq | eauto].
Qed.

Lemma heap_wf_alloc h l c :
  heap_wf h -> (forall items, c = CDict items -> NoDup items.*1) -> heap_wf (<[l := c]> h).
Proof.
  intros Hwf Hc l' items. rewrite lookup_insert. case_decide; [|apply Hwf].
  intros [= ->]. by apply Hc.
Qed.

(** What thawing one tree guarantees, whatever the store. *)
Definition thaws (t : fjson) : Prop :=
  forall h v h', heap_wf h -> thaw_json t h = (v, h') ->
  h ⊆ h' /\ heap_wf h' /\ unfolds h' v t.

Lemma thaw_elems ts :
  Forall thaws ts -> forall h vs h', heap_wf h ->
  foldr (fun t acc => let '(v, h') := thaw_json t acc.2 in (v :: acc.1, h')) ([], h) ts = (vs, h') ->
  h ⊆ h' /\ heap_wf h' /\ Forall2 (unfolds h') vs ts.
Proof.
  induction 1 as [|t ts Ht _ IH]; intros h vs h' Hwf; cbn; [by intros [= <- <-]|].
  destruct (foldr _ _ ts) as [vs1 h1] eqn:H1. destruct (IH _ _ _ Hwf H1) as (Hs1 & Hwf1 & HF).
  cbn. destruct (thaw_json t h1) as [v2 h2] eqn:H2. intros [= <- <-].
  destruct (Ht _ _ _ Hwf1 H2) as (Hs2 & Hwf2 & Hu).
  split_and!; [by etrans | done | constructor; [done|]].
  eapply Forall2_impl; [|exact HF]. intros ? ?. by apply unfolds_mono.
Qed.

Lemma thaw_items ts :
  Forall (fun kt => thaws kt.2) ts -> forall h kvs h', heap_wf h ->
  foldr (fun kt acc => let '(v, h') := thaw_json kt.2 acc.2 in ((VStr kt.1, v) :: acc.1, h'))
    ([], h) ts = (kvs, h') ->
  h ⊆ h' /\ heap_wf h'
  /\ Forall2 (fun kv kt => kv.1 = VStr kt.1 /\ unfolds h' kv.2 kt.2) kvs ts
  /\ kvs.*1 = VStr <$> ts.*1.
Proof.
  induction 1 as [|[k t] ts Ht _ IH]; intros h kvs h' Hwf; cbn; [by intros [= <- <-]|].
  destruct (foldr _ _ ts) as [vs1 h1] eqn:H1.
  destruct (IH _ _ _ Hwf H1) as (Hs1 & Hwf1 & HF & Hkeys).
  cbn. destruct (thaw_json t h1) as [v2 h2] eqn:H2. intros [= <- <-].
  destruct (Ht _ _ _ Hwf1 H2) as (Hs2 & Hwf2 & Hu).
  split_and!; [by etrans | done | constructor; [done|] | cbn; by f_equal].
  eapply Forall2_impl; [|exact HF]. intros ? ? [? ?]. split; [done|]. by eapply unfolds_mono.
Qed.

Lemma thaw_json_thaws t : keys_distinct t -> thaws t.
Proof.
  induction t as [t Ht | ts IH | ts IH] using fjson_tree_ind; intros Hk h v h' Hwf.
  - destruct t; try done; intros [= <- <-]; (split_and!; [done | done | constructor]).
  - assert (Hts : Forall thaws ts).
    { clear -IH Hk. induction IH as [|t ts Ht _ IH]; [done|]. destruct Hk. constructor; eauto. }
    cbn. destruct (foldr _ _ ts) as [vs h1] eqn:H1.
    destruct (thaw_elems ts Hts _ _ _ Hwf H1) as (Hs1 & Hwf1 & HF).
    intros Ha. apply alloc_spec in Ha as (Hs2 & l & -> & -> & Hl).
    split_and!; [by etrans | by apply heap_wf_alloc |].
    apply (unfolds_seq _ _ vs); [apply lookup_insert_eq|].
    eapply Forall2_impl; [|exact HF]. intros ? ?. by apply unfolds_mono.
  - destruct Hk as [Hnd Hk]. assert (Hts : Forall (fun kt => thaws kt.2) ts).
    { clear -IH Hk. induction IH as [|t ts Ht _ IH]; [done|]. destruct Hk. constructor; eauto. }
    cbn. destruct (foldr _ _ ts) as [kvs h1] eqn:H1.
    destruct (thaw_items ts Hts _ _ _ Hwf H1) as (Hs1 & Hwf1 & HF & Hkeys).
    intros Ha. apply alloc_spec in Ha as (Hs2 & l & -> & -> & Hl).
    split_and!; [by etrans | |].
    + apply heap_wf_alloc; [done|]. intros items [= <-]. rewrite Hkeys.
      by apply (NoDup_fmap_2 VStr).
    + apply (unfolds_dict _ _ kvs); [apply lookup_insert_eq|].
      eapply Forall2_impl; [|exact HF]. intros ? ? [? ?]. split; [done|]. by eapply unfolds_mono.
Qed.

Lemma thaw_freeze_Ok h limits V `{!FaithfulValidators V} msd v t n h0 v' h' :
  heap_wf h -> limits_ok limits -> heap_wf h0 ->
  freeze_json h limits V msd v = Ok (t, n) -> thaw_json t h0 = (v', h') ->
  h0 ⊆ h' /\ freeze_json h' limits V msd v' = Ok (t, n).
Proof.
  intros Hwf Hlim Hwf0 Hf Hthaw. apply freeze_json_denotes in Hf as ([Hu Ha Hd He] & Hok & Hn); [|done..].
  pose proof (unfolds_keys_distinct _ _ _ Hwf Hu) as Hk.
  destruct (thaw_json_thaws t Hk _ _ _ Hwf0 Hthaw) as (Hs & Hwf' & Hu').
  split; [done|]. apply freeze_json_denotes; [done..|]. by split.
Qed.

(** Thawing a frozen value into any store allocates a fresh, mutable
    copy that leaves every existing object alone, and freezing that copy
    under the same limits and policy gives back the same value and size. *)
Theorem thaw_freeze_roundtrip h limits V `{!FaithfulValidators V} msd v t n h0 v' h' :
  heap_wf h -> limits_ok limits -> heap_wf h0 ->
  freeze_json h limits V msd v = Ok (t, n) -> thaw_json t h0 = (v', h') ->
  h0 ⊆ h' /\ freeze_json h' limits V msd v' = Ok (t, n).
Proof. exact (thaw_freeze_Ok h limits V msd v t n h0 v' h'). Qed.

(** ** Witnesses

    A mapping whose two values are the same list object, and a list that
    contains itself. *)
Definition shared_heap : heap :=
  {[ 1%positive := CDict [(VStr (u "a"), VRef 2%positive); (VStr (u "b"), VRef 2%positive)];
     2%positive := CSeq [VInt 12; VStr (u "x"); VNone] ]}.

Definition shared_tree : fjson :=
  let l := FTuple [FInt 12; FStr (u "x"); FNull] in FMap [(u "a", l); (u "b", l)].

Definition loop_heap : heap := {[ 1%positive := CSeq [VInt 1; VRef 1%positive] ]}.

Definition example_limits : JSONLimits :=
  {| max_depth := Some 16; max_nodes := Some 1024; max_keys := Some 256;
     max_encoded_bytes := Some 64 |}.

Lemma freeze_json_exact_witness :
  unfolds shared_heap (VRef 1%positive) shared_tree /\ within example_limits shared_tree.
Proof.
  destruct (proj1 (freeze_json_exact shared_heap example_limits default_validators 4300
    (VRef 1%positive) shared_tree (Some 37) (heap_wfb_wf shared_heap eq_refl)
    (conj eq_refl (conj eq_refl eq_refl))) eq_refl) as (Hu & _ & Hw & _).
  split; assumption.
Defined.

Lemma freeze_json_terminates_witness :
  freeze_json loop_heap no_limits default_validators 4300 (VRef 1%positive) <> Raise FuelExhausted.
Proof. apply (freeze_json_terminates loop_heap no_limits default_validators 4300). Defined.

Lemma freeze_json_rejects_cycles_witness :
  exists e, freeze_json loop_heap no_limits default_validators 4300 (VRef 1%positive) = Raise e
  /\ e <> FuelExhausted.
Proof.
  apply (freeze_json_rejects_cycles loop_heap no_limits default_validators 4300 (VRef 1%positive)
    (heap_wfb_wf loop_heap eq_refl) (conj eq_refl (conj eq_refl eq_refl))).
  apply tc_once, (child_seq loop_heap 1%positive [VInt 1; VRef 1%positive]).
  - reflexivity.
  - apply list_elem_of_In. right; left; reflexivity.
Defined.

Lemma freeze_json_measures_witness :
  exists bs, canonical_json_bytes 4300 shared_tree = Ok bs /\ len bs = 37
  /\ over (Some 64) 37 = false.
Proof.
  apply (freeze_json_measures shared_heap example_limits default_validators 4300
    (VRef 1%positive) shared_tree 37 (heap_wfb_wf shared_heap eq_refl)
    (conj eq_refl (conj eq_refl eq_refl))).
  reflexivity.
Defined.

Lemma thaw_freeze_roundtrip_witness :
  let '(v', h') := thaw_json shared_tree loop_heap in
  loop_heap ⊆ h'
  /\ freeze_json h' example_limits default_validators 4300 v' = Ok (shared_tree, Some 37).
Proof.
  destruct (thaw_json shared_tree loop_heap) as [v' h'] eqn:Ht.
  apply (thaw_freeze_roundtrip shared_heap example_limits default_validators 4300
    (VRef 1%positive) shared_tree (Some 37) loop_heap v' h'
    (heap_wfb_wf shared_heap eq_refl) (conj eq_refl (conj eq_refl eq_refl))
    (heap_wfb_wf loop_heap eq_refl) eq_refl Ht).
Defined.
