(* ===== verification/JsonText.v ===== *)
(** * JSON text determines the value

    Injectivity of [json.dumps] and of the UTF-8 encoding on frozen values
    without floats: what every digest of canonical JSON relies on.  Sorting
    of keys ([sort_keys=True]) is defined here too. *)

From Stdlib Require Import Sorted.
From stdpp Require Import gmap sorting.
From S2P Require Export Validation FrozenJsonProps.

(** ** [sort_keys=True] *)

Definition key_le (a b : pystr * fjson) : Prop := str_le a.1 b.1.

#[global] Instance key_le_dec : RelDecision key_le.
Proof. intros a b. unfold key_le. apply _. Defined.

Fixpoint sort_keys (t : fjson) : fjson :=
  match t with
  | FTuple ts => FTuple (map sort_keys ts)
  | FMap ts => FMap (merge_sort key_le (map (fun '(k, t) => (k, sort_keys t)) ts))
  | _ => t
  end.

(** ** [json.dumps] with a given escape of characters *)

Section Dumps.
Variable esc : Z -> pystr.

Definition string_with (s : pystr) : pystr := [34] ++ (s ≫= esc) ++ [34].

Fixpoint dumps_with (t : fjson) : pystr :=
  match t with
  | FStr s => string_with s
  | FTuple ts => u "[" ++ join (u ",") (map dumps_with ts) ++ u "]"
  | FMap ts =>
      u "{" ++ join (u ",") (map (fun '(k, t) => string_with k ++ u ":" ++ dumps_with t) ts)
      ++ u "}"
  | _ => dumps t
  end.
End Dumps.

(** [\uXXXX] *)
Definition hex4 (n : Z) : pystr :=
  u "\u" ++ [hex_digit (n / 4096); hex_digit (n / 256 mod 16); hex_digit (n / 16 mod 16); hex_digit (n mod 16)].

(** One character of a JSON string, [ensure_ascii=True]: above the Basic
    Multilingual Plane, a surrogate pair. *)
Definition ascii_escape (c : Z) : pystr :=
  if c <? 127 then json_escape c
  else if c <? 0x10000 then hex4 c
  else hex4 (0xD800 + (c - 0x10000) / 1024) ++ hex4 (0xDC00 + (c - 0x10000) mod 1024).

(** [json.dumps(value, sort_keys=True, separators=(",", ":")).encode()]: the
    text is ASCII, so its code points are its bytes. *)
Definition sorted_json_bytes (t : fjson) : list Z := dumps_with ascii_escape (sort_keys t).

Lemma dumps_with_json_escape t : dumps_with json_escape t = dumps t.
Proof.
  induction t as [t Hs|ts IH|ts IH] using fjson_tree_ind.
  - by destruct t.
  - cbn [dumps_with dumps]. do 2 f_equal. f_equal. apply map_ext_in. intros x Hx.
    rewrite list.Forall_forall in IH. by apply IH, list_elem_of_In.
  - cbn [dumps_with dumps]. do 2 f_equal. f_equal. apply map_ext_in. intros [k x] Hx.
    rewrite list.Forall_forall in IH. do 2 f_equal. by apply (IH (k, x)), list_elem_of_In.
Qed.

(** ** Digits *)

Lemma digits_fuel_all fuel n : 0 <= n -> Forall (fun c => is_digit c = true) (digits_fuel fuel n).
Proof.
  revert n; induction fuel as [|fuel IH]; intros n Hn; cbn; [constructor|].
  destruct (Z.ltb_spec n 10).
  - repeat constructor. unfold is_digit, in_range. lia.
  - apply Forall_app. split; [apply IH; Z.to_euclidean_division_equations; lia|].
    repeat constructor. unfold is_digit, in_range. Z.to_euclidean_division_equations; lia.
Qed.

Lemma digits_all n : 0 <= n -> Forall (fun c => is_digit c = true) (digits n).
Proof. apply digits_fuel_all. Qed.

(** The number a digit string spells. *)
Lemma parse_int_snoc s c : parse_int (s ++ [c]) = parse_int s * 10 + (c - 48).
Proof. unfold parse_int. by rewrite foldl_app. Qed.

Lemma digits_fuel_parse fuel n :
  0 <= n < 2 ^ Z.of_nat fuel -> parse_int (digits_fuel fuel n) = n.
Proof.
  revert n; induction fuel as [|fuel IH]; intros n Hn; [cbn in *; lia|]. cbn [digits_fuel].
  destruct (Z.ltb_spec n 10); [cbn; lia|]. rewrite parse_int_snoc, IH.
  - Z.to_euclidean_division_equations; lia.
  - rewrite Nat2Z.inj_succ, Z.pow_succ_r in Hn by lia. Z.to_euclidean_division_equations; lia.
Qed.

Lemma digits_parse n : 0 <= n -> parse_int (digits n) = n.
Proof.
  intros Hn. apply digits_fuel_parse. split; [done|].
  rewrite Nat2Z.inj_succ, Z2Nat.id by apply Z.log2_nonneg.
  destruct (Z.eq_dec n 0) as [->|]; [done|]. apply Z.log2_spec. lia.
Qed.

Lemma digits_nonempty n : digits n <> [].
Proof.
  unfold digits. cbn. destruct (n <? 10); [done|]. intros H. by apply app_eq_nil in H as [_ [=]].
Qed.

(** A digit string followed by something else. *)
Lemma digits_split a b r r' :
  Forall (fun c => is_digit c = true) a -> Forall (fun c => is_digit c = true) b ->
  (forall c s, r = c :: s -> is_digit c = false) -> (forall c s, r' = c :: s -> is_digit c = false) ->
  a ++ r = b ++ r' -> a = b /\ r = r'.
Proof.
  intros Ha; revert b; induction Ha as [|x a Hx _ IH]; intros b Hb Hr Hr' H.
  - destruct Hb as [|y b Hy _]; [done|]. cbn in H. apply Hr in H. congruence.
  - destruct Hb as [|y b Hy Hb]; cbn in H.
    + symmetry in H. apply Hr' in H. congruence.
    + injection H as -> H. apply IH in H as [-> ->]; done.
Qed.

(** ** Strings *)

Lemma json_escape_head c :
  0 <= c -> exists x s, json_escape c = x :: s /\ x <> 34.
Proof.
  intros Hc. unfold json_escape.
  destruct (Z.eqb_spec c 34), (Z.eqb_spec c 92), (Z.eqb_spec c 10), (Z.eqb_spec c 13),
    (Z.eqb_spec c 9), (Z.eqb_spec c 12), (Z.eqb_spec c 8), (Z.ltb_spec c 32);
    (do 2 eexists; split; [reflexivity | first [lia | discriminate]]).
Qed.

Lemma json_escape_high c : 128 <= c -> json_escape c = [c].
Proof.
  intros Hc. unfold json_escape.
  destruct (Z.eqb_spec c 34), (Z.eqb_spec c 92), (Z.eqb_spec c 10), (Z.eqb_spec c 13),
    (Z.eqb_spec c 9), (Z.eqb_spec c 12), (Z.eqb_spec c 8), (Z.ltb_spec c 32); first [lia | done].
Qed.

Definition ascii_codes : list Z := seqZ 0 128.

Lemma in_ascii_codes c : 0 <= c -> c < 128 -> c ∈ ascii_codes.
Proof. intros. apply elem_of_seqZ. lia. Qed.

(** The escapes of ASCII characters form a prefix code of ASCII text. *)
Lemma ascii_escapes_prefix_free a b :
  a ∈ ascii_codes -> b ∈ ascii_codes -> json_escape a `prefix_of` json_escape b -> a = b.
Proof.
  assert (Hall : forallb (fun a => forallb (fun b =>
            implb (bool_decide (json_escape a `prefix_of` json_escape b)) (a =? b)) ascii_codes)
            ascii_codes = true) by (vm_compute; reflexivity).
  intros Ha Hb Hp. rewrite List.forallb_forall in Hall.
  specialize (Hall a (proj1 (list_elem_of_In _ _) Ha)). rewrite List.forallb_forall in Hall.
  specialize (Hall b (proj1 (list_elem_of_In _ _) Hb)).
  rewrite bool_decide_eq_true_2 in Hall by done. by apply Z.eqb_eq.
Qed.

Lemma ascii_escape_ascii a : a ∈ ascii_codes -> Forall (fun x => x < 128) (json_escape a).
Proof.
  assert (Hall : forallb (fun a => forallb (fun x => x <? 128) (json_escape a)) ascii_codes = true)
    by (vm_compute; reflexivity).
  intros Ha. rewrite List.forallb_forall in Hall.
  specialize (Hall a (proj1 (list_elem_of_In _ _) Ha)). rewrite List.forallb_forall in Hall.
  apply list.Forall_forall. intros x Hx. apply Z.ltb_lt, Hall. by apply list_elem_of_In.
Qed.

Lemma json_escape_inj c c' r r' :
  0 <= c -> 0 <= c' -> json_escape c ++ r = json_escape c' ++ r' -> c = c' /\ r = r'.
Proof.
  intros Hc Hc' H.
  assert (Hmix : forall a b s s', 0 <= a -> a < 128 -> 128 <= b -> json_escape a ++ s = json_escape b ++ s' -> False).
  { intros a b s s' Ha Ha' Hb Heq. rewrite (json_escape_high b) in Heq by done.
    pose proof (ascii_escape_ascii a (in_ascii_codes a Ha Ha')) as HF.
    destruct (json_escape_head a Ha) as (x & l & Hx & _). rewrite Hx in Heq, HF.
    injection Heq as -> _. apply list.Forall_cons in HF as [? _]. lia. }
  destruct (Z.lt_ge_cases c 128) as [H1|H1], (Z.lt_ge_cases c' 128) as [H2|H2].
  - assert (c = c') as <-; [|by apply app_inv_head in H].
    pose proof (in_ascii_codes _ Hc H1). pose proof (in_ascii_codes _ Hc' H2).
    apply app_eq_app in H as (l & [[H _]|[H _]]).
    + symmetry. apply ascii_escapes_prefix_free; [done..|]. by exists l.
    + apply ascii_escapes_prefix_free; [done..|]. by exists l.
  - by destruct (Hmix c c' r r').
  - by destruct (Hmix c' c r' r).
  - rewrite !json_escape_high in H by done. by injection H.
Qed.

Definition scalar_value (c : Z) : Prop := 0 <= c <= 0x10FFFF /\ is_surrogate c = false.

(** ** Separation of texts

    For any escape that never starts with a quotation mark and separates the
    characters of [char_ok]. *)

Section Separation.
Context (esc : Z -> pystr) (char_ok : Z -> Prop).
Hypothesis esc_head : forall c, char_ok c -> exists x s, esc c = x :: s /\ x <> 34.
Hypothesis esc_inj : forall c c' r r', char_ok c -> char_ok c' -> esc c ++ r = esc c' ++ r' -> c = c' /\ r = r'.

Definition text_ok (s : pystr) : Prop := Forall char_ok s.

Lemma string_with_split s s' r r' :
  text_ok s -> text_ok s' -> string_with esc s ++ r = string_with esc s' ++ r' -> s = s' /\ r = r'.
Proof.
  unfold string_with. cbn [app]. intros Hs Hs' [= H]. revert s' Hs' H.
  rewrite <- !app_assoc. induction Hs as [|c s Hc _ IH]; intros s' Hs' H; rewrite <- ?app_assoc in H.
  - destruct Hs' as [|c' s' Hc' _]; [by injection H|]. exfalso. cbn in H.
    destruct (esc_head c' Hc') as (x & l & Hx & Hne). rewrite Hx in H. injection H as H _. congruence.
  - destruct Hs' as [|c' s' Hc' Hs'].
    + exfalso. cbn in H. destruct (esc_head c Hc) as (x & l & Hx & Hne).
      rewrite Hx in H. injection H as H _. congruence.
    + change ((c :: s) ≫= esc) with (esc c ++ (s ≫= esc)) in H.
      change ((c' :: s') ≫= esc) with (esc c' ++ (s' ≫= esc)) in H.
      rewrite <- !app_assoc in H. apply esc_inj in H as [-> H]; [|done..].
      destruct (IH s' Hs') as [-> ->]; [by rewrite <- !app_assoc|]. done.
Qed.

(** ** Values *)

(** Frozen values whose text the lemmas below cover: no floats, and text of
    non-negative code points. *)
Definition plain_scalar (t : fjson) : Prop :=
  match t with FFloat _ => False | FStr s => text_ok s | _ => True end.

Definition plain : fjson -> Prop := everywhere plain_scalar text_ok.

(** What can follow a value inside a text. *)
Definition delim (r : pystr) : Prop :=
  match r with [] => True | c :: _ => c = 44 \/ c = 93 \/ c = 125 end.

Lemma delim_not_digit r c s : delim r -> r = c :: s -> is_digit c = false.
Proof. intros H ->. cbn in H. unfold is_digit, in_range. lia. Qed.

Lemma int_repr_head z : exists x s, int_repr z = x :: s /\ (x = 45 \/ is_digit x = true).
Proof.
  unfold int_repr. destruct (Z.ltb_spec z 0); [do 2 eexists; split; [reflexivity|by left]|].
  pose proof (digits_nonempty z) as Hne. pose proof (digits_all z ltac:(lia)) as HF.
  destruct (digits z) as [|x s]; [done|]. exists x, s. split; [done|]. right.
  by apply list.Forall_cons in HF as [? _].
Qed.

Lemma int_repr_split z z' r r' :
  delim r -> delim r' -> int_repr z ++ r = int_repr z' ++ r' -> z = z' /\ r = r'.
Proof.
  intros Hr Hr' H.
  assert (Hd : forall a b, 0 <= a -> 0 <= b -> digits a ++ r = digits b ++ r' -> a = b /\ r = r').
  { intros a b Ha Hb Heq. apply digits_split in Heq as [Heq ->].
    - rewrite <- (digits_parse a), <- (digits_parse b), Heq by done. done.
    - by apply digits_all.
    - by apply digits_all.
    - intros. by eapply (delim_not_digit r).
    - intros. by eapply (delim_not_digit r'). }
  assert (Hm : forall a b s s', 0 <= b -> u "-" ++ digits a ++ s = digits b ++ s' -> False).
  { intros a b s s' Hb Heq. pose proof (digits_nonempty b). pose proof (digits_all b Hb) as HF.
    destruct (digits b) as [|x l]; [done|]. injection Heq as <- _.
    by apply list.Forall_cons in HF as [? _]. }
  unfold int_repr in H. destruct (Z.ltb_spec z 0), (Z.ltb_spec z' 0); rewrite <- ?app_assoc in H.
  - apply app_inv_head, Hd in H as [Hz ->]; [split; [lia|done]|lia..].
  - apply Hm in H; [done|lia].
  - symmetry in H. apply Hm in H; [done|lia].
  - by apply Hd in H.
Qed.

(** A function that prints values so that what follows can be told apart. *)
Definition separable {A} (P : A -> Prop) (f : A -> pystr) : Prop :=
  forall x y s s', P x -> P y -> delim s -> delim s' -> f x ++ s = f y ++ s' -> x = y /\ s = s'.

Definition no_closer {A} (f : A -> pystr) (x : A) : Prop :=
  exists c s, f x = c :: s /\ c <> 93 /\ c <> 125.

Section Join.
Context {A : Type} (f : A -> pystr) (q : Z).
Hypothesis Hq : q = 93 \/ q = 125.

Definition join_tail (l : list A) (r : pystr) : pystr :=
  match l with [] => q :: r | _ => 44 :: join (u ",") (map f l) ++ q :: r end.

Lemma join_cons_tail x l r :
  join (u ",") (map f (x :: l)) ++ q :: r = f x ++ join_tail l r.
Proof. destruct l; cbn; [done|]. by rewrite <- app_assoc. Qed.

Lemma delim_tail l r : delim (join_tail l r).
Proof. destruct l; cbn; lia. Qed.

Lemma join_split (P : A -> Prop) l l' r r' :
  Forall (fun x => forall y s s', P y -> delim s -> delim s' -> f x ++ s = f y ++ s' -> x = y /\ s = s') l ->
  Forall P l' -> Forall (no_closer f) l -> Forall (no_closer f) l' ->
  join (u ",") (map f l) ++ q :: r = join (u ",") (map f l') ++ q :: r' -> l = l' /\ r = r'.
Proof.
  intros Hl; revert l'; induction Hl as [|x l Hx _ IH]; intros l' Hl' Hn Hn' H.
  - destruct l' as [|y l']; [by injection H|]. rewrite join_cons_tail in H. cbn in H.
    apply list.Forall_cons in Hn' as [(c & s & Hc & ? & ?) _]. rewrite Hc in H. injection H as ? _. lia.
  - destruct l' as [|y l'].
    + rewrite join_cons_tail in H. cbn in H.
      apply list.Forall_cons in Hn as [(c & s & Hc & ? & ?) _]. rewrite Hc in H. injection H as ? _. lia.
    + apply list.Forall_cons in Hl' as [Hy Hl']. apply list.Forall_cons in Hn as [_ Hn].
      apply list.Forall_cons in Hn' as [_ Hn'].
      rewrite !join_cons_tail in H. apply Hx in H as [-> H]; [|done|apply delim_tail..].
      destruct l as [|x2 l], l' as [|y2 l']; cbn in H.
      * by injection H as ->.
      * injection H as ? _. lia.
      * injection H as ? _. lia.
      * injection H as H. by destruct (IH (y2 :: l') Hl' Hn Hn' H) as [-> ->].
Qed.
End Join.

Lemma dumps_no_closer t : plain t -> no_closer (dumps_with esc) t.
Proof.
  intros Ht. destruct t as [|[]|z|f|s|ts|ts]; try done;
    try (do 2 eexists; split; [reflexivity|done]).
  destruct (int_repr_head z) as (x & s & Hx & H). exists x, s. split; [done|].
  destruct H as [->|H]; [done|]. unfold is_digit, in_range in H. lia.
Qed.

Definition dump_item (kt : pystr * fjson) : pystr := let '(k, t) := kt in string_with esc k ++ u ":" ++ (dumps_with esc) t.

Lemma int_not z x s l : x <> 45 -> is_digit x = false -> int_repr z ++ s = x :: l -> False.
Proof.
  intros H1 H2 H. destruct (int_repr_head z) as (y & s' & Hy & Hc). rewrite Hy in H.
  injection H as -> _. destruct Hc; congruence.
Qed.

Lemma dumps_split t :
  plain t -> forall t' r r', plain t' -> delim r -> delim r' ->
  (dumps_with esc) t ++ r = (dumps_with esc) t' ++ r' -> t = t' /\ r = r'.
Proof.
  induction t as [t Hs|ts IH|ts IH] using fjson_tree_ind; intros Ht t' r r' Ht' Hr Hr' H.
  - destruct t as [|b|z|f|s|ts|ts]; try done.
    + destruct t' as [|[]|z'|f'|s'|ts'|ts']; try done; [by injection H as ->|].
      symmetry in H. by apply int_not in H.
    + destruct t' as [|b'|z'|f'|s'|ts'|ts']; try done; try (destruct b; done).
      * destruct b, b'; try done; by injection H as ->.
      * exfalso. symmetry in H. destruct b; by apply int_not in H.
    + destruct t' as [|b'|z'|f'|s'|ts'|ts']; try done;
        try (exfalso; first [by apply int_not in H | destruct b'; by apply int_not in H]).
      by apply int_repr_split in H as [-> ->].
    + destruct t' as [|b'|z'|f'|s'|ts'|ts']; try done; try (destruct b'; done).
      * exfalso. symmetry in H. by apply int_not in H.
      * cbn [dumps_with] in H. by apply string_with_split in H as [-> ->].
  - apply everywhere_tuple in Ht.
    destruct t' as [|b'|z'|f'|s'|ts'|ts']; try done; try (destruct b'; done).
    { exfalso. symmetry in H. by apply int_not in H. }
    apply everywhere_tuple in Ht'. cbn [dumps_with] in H. rewrite <- !app_assoc in H.
    apply app_inv_head in H. change (u "]") with [93] in H. cbn [app] in H.
    apply (join_split (dumps_with esc) 93 (or_introl eq_refl) plain) in H as [-> ->]; [done| |done| |].
    + rewrite list.Forall_forall in *. intros x Hx. apply IH; [done|by apply Ht].
    + eapply list.Forall_impl; [exact Ht|apply dumps_no_closer].
    + eapply list.Forall_impl; [exact Ht'|apply dumps_no_closer].
  - apply everywhere_map in Ht.
    destruct t' as [|b'|z'|f'|s'|ts'|ts']; try done; try (destruct b'; done).
    { exfalso. symmetry in H. by apply int_not in H. }
    apply everywhere_map in Ht'. cbn [dumps_with] in H. rewrite <- !app_assoc in H.
    apply app_inv_head in H. change (u "}") with [125] in H. cbn [app] in H.
    fold dump_item in H.
    apply (join_split dump_item 125 (or_intror eq_refl) (fun kt => text_ok kt.1 /\ plain kt.2)) in H
      as [-> ->]; [done| |done| |].
    + rewrite list.Forall_forall in *. intros [k t] Hx [k' t'] s s' [Hk' Ht2] Hs Hs' Heq.
      destruct (Ht _ Hx) as [Hk Htt]. specialize (IH _ Hx).
      cbn [fst snd] in *. unfold dump_item in Heq. rewrite <- !app_assoc in Heq. apply string_with_split in Heq as [-> Heq]; [|done..].
      apply app_inv_head in Heq. apply IH in Heq as [-> ->]; done.
    + apply list.Forall_forall. intros [k t] _. do 2 eexists. split; [reflexivity|done].
    + apply list.Forall_forall. intros [k t] _. do 2 eexists. split; [reflexivity|done].
Qed.

Lemma dumps_with_inj t t' : plain t -> plain t' -> (dumps_with esc) t = (dumps_with esc) t' -> t = t'.
Proof.
  intros Ht Ht' H. apply (dumps_split t Ht t' [] []); [done..|]. by rewrite !app_nil_r.
Qed.
End Separation.

Lemma dumps_inj t t' :
  plain (fun c => 0 <= c) t -> plain (fun c => 0 <= c) t' -> dumps t = dumps t' -> t = t'.
Proof.
  rewrite <- !dumps_with_json_escape. apply dumps_with_inj; [apply json_escape_head|].
  intros. by apply json_escape_inj.
Qed.

(** ** [ensure_ascii=True] separates scalar values *)

Lemma hex_digit_inj a b : 0 <= a < 16 -> 0 <= b < 16 -> hex_digit a = hex_digit b -> a = b.
Proof. unfold hex_digit. destruct (Z.ltb_spec a 10), (Z.ltb_spec b 10); lia. Qed.

Lemma hex4_inj a b r r' :
  0 <= a < 0x10000 -> 0 <= b < 0x10000 -> hex4 a ++ r = hex4 b ++ r' -> a = b /\ r = r'.
Proof.
  intros Ha Hb H. unfold hex4 in H. rewrite <- !app_assoc in H. apply app_inv_head in H. cbn [app] in H.
  injection H as H1 H2 H3 H4 H5.
  apply hex_digit_inj in H1; [|Z.to_euclidean_division_equations; lia..].
  apply hex_digit_inj in H2; [|Z.to_euclidean_division_equations; lia..].
  apply hex_digit_inj in H3; [|Z.to_euclidean_division_equations; lia..].
  apply hex_digit_inj in H4; [|Z.to_euclidean_division_equations; lia..].
  split; [|done]. Z.to_euclidean_division_equations; lia.
Qed.

(** No escape of an ASCII character starts like a [\u] escape of a code point
    from 127 on. *)
Lemma low_high_escape a n r r' :
  0 <= a < 127 -> 127 <= n < 0x10000 -> json_escape a ++ r = hex4 n ++ r' -> False.
Proof.
  intros Ha Hn H.
  assert (Hall : forallb (fun a => bool_decide (json_escape a = hex4 a) || match json_escape a with
             | [x] => negb (x =? 92) | [_; y] => negb (y =? 117) | _ => false end) (seqZ 0 127) = true)
    by (vm_compute; reflexivity).
  rewrite List.forallb_forall in Hall.
  specialize (Hall a ltac:(apply list_elem_of_In, elem_of_seqZ; lia)).
  apply orb_true_iff in Hall as [Heq|Hs].
  - apply bool_decide_eq_true in Heq. rewrite Heq in H. apply hex4_inj in H as [-> _]; lia.
  - destruct (json_escape a) as [|x [|y [|]]]; try done; injection H as; subst; done.
Qed.

Lemma ascii_escape_head c : scalar_value c -> exists x s, ascii_escape c = x :: s /\ x <> 34.
Proof.
  intros [Hc _]. unfold ascii_escape.
  destruct (c <? 127); [apply json_escape_head; lia|].
  destruct (c <? 0x10000); (do 2 eexists; split; [reflexivity|done]).
Qed.

Lemma ascii_escape_inj c c' r r' :
  scalar_value c -> scalar_value c' -> ascii_escape c ++ r = ascii_escape c' ++ r' -> c = c' /\ r = r'.
Proof.
  unfold scalar_value, is_surrogate, in_range, ascii_escape. intros [Hc Hs] [Hc' Hs'] H.
  assert (Hp : forall c, 0x10000 <= c <= 0x10FFFF -> 0xD800 <= 0xD800 + (c - 0x10000) / 1024 < 0xDC00
             /\ 0xDC00 <= 0xDC00 + (c - 0x10000) mod 1024 < 0xE000)
    by (intros; Z.to_euclidean_division_equations; lia).
  destruct (Z.ltb_spec c 127), (Z.ltb_spec c' 127); [apply json_escape_inj in H; [done|lia..]| | |].
  - exfalso. destruct (Z.ltb_spec c' 0x10000); rewrite <- ?app_assoc in H.
    + apply low_high_escape in H; lia.
    + specialize (Hp c' ltac:(lia)). apply low_high_escape in H; lia.
  - exfalso. symmetry in H. destruct (Z.ltb_spec c 0x10000); rewrite <- ?app_assoc in H.
    + apply low_high_escape in H; lia.
    + specialize (Hp c ltac:(lia)). apply low_high_escape in H; lia.
  - destruct (Z.ltb_spec c 0x10000), (Z.ltb_spec c' 0x10000); rewrite <- ?app_assoc in H.
    + apply hex4_inj in H; [done|lia..].
    + specialize (Hp c' ltac:(lia)). apply hex4_inj in H; lia.
    + specialize (Hp c ltac:(lia)). apply hex4_inj in H; lia.
    + pose proof (Hp c ltac:(lia)). pose proof (Hp c' ltac:(lia)).
      apply hex4_inj in H as [Hhi H]; [|lia..]. apply hex4_inj in H as [Hlo H]; [|lia..].
      split; [Z.to_euclidean_division_equations; lia|done].
Qed.

(** Frozen values without floats whose text is made of scalar values. *)
Definition wire_json : fjson -> Prop := plain scalar_value.

(** The sorted-key encoding is injective. *)
Lemma sorted_json_bytes_inj t t' :
  wire_json (sort_keys t) -> wire_json (sort_keys t') -> sorted_json_bytes t = sorted_json_bytes t' ->
  sort_keys t = sort_keys t'.
Proof. apply dumps_with_inj; [apply ascii_escape_head|apply ascii_escape_inj]. Qed.

(** ** Sorting keys *)

Lemma plain_sort_keys ok t : plain ok t -> plain ok (sort_keys t).
Proof.
  induction t as [t Hs|ts IH|ts IH] using fjson_tree_ind; intros Ht.
  - by destruct t.
  - apply everywhere_tuple in Ht. apply everywhere_tuple. apply Forall_fmap.
    rewrite list.Forall_forall in *. intros x Hx. by apply IH, Ht.
  - apply everywhere_map in Ht. cbn [sort_keys]. apply everywhere_map.
    rewrite merge_sort_Permutation. apply Forall_fmap. rewrite list.Forall_forall in *.
    intros [k t] Hx. destruct (Ht _ Hx) as [Hk Htt]. split; [done|]. by apply (IH _ Hx).
Qed.

Lemma perm_same_keys {A} (l l' : list (pystr * A)) :
  l ≡ₚ l' -> l.*1 = l'.*1 -> NoDup l.*1 -> l = l'.
Proof.
  intros Hp Hk Hn. apply list_eq. intros i.
  assert (Hlen : length l = length l') by by rewrite Hp.
  destruct (l !! i) as [[k v]|] eqn:Hi.
  - destruct (lookup_lt_is_Some_2 l' i) as [[k' v'] Hi']; [rewrite <- Hlen; by eapply lookup_lt_Some|].
    assert (k' = k) as ->.
    { assert (H1 : l.*1 !! i = Some k) by by rewrite list_lookup_fmap, Hi.
      assert (H2 : l'.*1 !! i = Some k') by by rewrite list_lookup_fmap, Hi'. congruence. }
    assert (Hel : (k, v') ∈ l) by (rewrite Hp; by eapply list_elem_of_lookup_2).
    apply list_elem_of_lookup in Hel as [j Hj].
    assert (i = j) as ->; [|congruence].
    eapply NoDup_lookup; [exact Hn| |]; rewrite list_lookup_fmap; [by rewrite Hi|by rewrite Hj].
  - symmetry. apply lookup_ge_None_2. rewrite <- Hlen. by apply lookup_ge_None.
Qed.

(** Objects with the same distinct keys whose sorted forms agree have
    members whose sorted forms agree. *)
Lemma sort_keys_members ts ts' :
  ts.*1 = ts'.*1 -> NoDup ts.*1 -> sort_keys (FMap ts) = sort_keys (FMap ts') ->
  Forall2 (fun kt kt' => sort_keys kt.2 = sort_keys kt'.2) ts ts'.
Proof.
  intros Hk Hn H. cbn [sort_keys] in H. injection H as H.
  set (f := fun '(k, t) => (k, sort_keys t)) in H.
  assert (Hf : forall l, (map f l).*1 = l.*1).
  { intros l. induction l as [|[k t] l IH]; [done|]. cbn. by rewrite IH. }
  assert (Heq : map f ts = map f ts').
  { apply perm_same_keys; [|by rewrite !Hf|by rewrite Hf].
    rewrite <- (merge_sort_Permutation key_le (map f ts)), H. apply merge_sort_Permutation. }
  clear -Heq. revert ts' Heq. induction ts as [|[k t] ts IH]; intros [|[k' t'] ts'] Heq; try done.
  cbn in Heq. injection Heq as -> Ht Heq. constructor; [done|by apply IH].
Qed.

(** Every member of an object has its counterpart in one with the same sorted
    form. *)
Lemma sort_keys_elem ts ts' k t :
  sort_keys (FMap ts) = sort_keys (FMap ts') -> (k, t) ∈ ts ->
  exists t', (k, t') ∈ ts' /\ sort_keys t = sort_keys t'.
Proof.
  intros H Hin. cbn [sort_keys] in H. injection H as H.
  set (f := fun '(k, t) => (k, sort_keys t)) in H.
  assert (Hp : map f ts ≡ₚ map f ts').
  { rewrite <- (merge_sort_Permutation key_le (map f ts)), H. apply merge_sort_Permutation. }
  assert (Hf : f (k, t) ∈ map f ts') by (rewrite <- Hp; by apply list_elem_of_fmap_2).
  apply list_elem_of_fmap in Hf as ([k' t'] & Heq & Hin'). injection Heq as -> Ht. eauto.
Qed.

(** Sorting the keys does not change a tuple of strings. *)
Lemma sort_keys_strings l : sort_keys (FTuple (FStr <$> l)) = FTuple (FStr <$> l).
Proof. cbn. f_equal. induction l as [|s l IH]; [done|]. cbn. by rewrite IH. Qed.

(** ** ASCII text *)

Definition ascii_text (s : pystr) : Prop := Forall (fun c => 0 <= c < 128) s.

Lemma ascii_scalar s : ascii_text s -> text_ok scalar_value s.
Proof.
  intros Hs. eapply list.Forall_impl; [exact Hs|].
  intros c Hc. cbn in Hc. unfold scalar_value, is_surrogate, in_range. lia.
Qed.

Lemma ascii_app s t : ascii_text s -> ascii_text t -> ascii_text (s ++ t).
Proof. apply Forall_app_2. Qed.

Lemma ascii_literal s : forallb (fun c => (0 <=? c) && (c <? 128)) s = true -> ascii_text s.
Proof.
  rewrite List.forallb_forall. intros H. apply list.Forall_forall. intros c Hc.
  apply list_elem_of_In in Hc. apply H in Hc. lia.
Qed.

Lemma ascii_digits n : 0 <= n -> ascii_text (digits n).
Proof.
  intros Hn. eapply list.Forall_impl; [by apply digits_all|].
  intros c Hc. cbn in Hc. unfold is_digit, in_range in Hc. lia.
Qed.

Lemma ascii_int_repr z : ascii_text (int_repr z).
Proof.
  unfold int_repr. destruct (Z.ltb_spec z 0); [apply ascii_app; [by apply ascii_literal|]|];
    apply ascii_digits; lia.
Qed.

#[export] Hint Resolve ascii_scalar ascii_app ascii_int_repr : kestrel.

(** ** UTF-8 *)

Definition unicode_text (s : pystr) : Prop := Forall (fun c => 0 <= c <= 0x10FFFF) s.

Lemma utf8_char_split c c' b b' s s' :
  0 <= c <= 0x10FFFF -> 0 <= c' <= 0x10FFFF ->
  utf8_char c = Some b -> utf8_char c' = Some b' -> b ++ s = b' ++ s' -> c = c' /\ s = s'.
Proof.
  intros Hc Hc'. unfold utf8_char.
  destruct (Z.ltb_spec c 0x80); [|destruct (Z.ltb_spec c 0x800); [|
    destruct (is_surrogate c); [done|]; destruct (Z.ltb_spec c 0x10000)]]; intros [= <-];
  (destruct (Z.ltb_spec c' 0x80); [|destruct (Z.ltb_spec c' 0x800); [|
    destruct (is_surrogate c'); [done|]; destruct (Z.ltb_spec c' 0x10000)]]); intros [= <-];
  cbn [app]; intros Heq; injection Heq; clear Heq; intros; subst;
  first [ split; [Z.to_euclidean_division_equations; lia | congruence]
        | exfalso; Z.to_euclidean_division_equations; lia ].
Qed.

Lemma utf8_char_nonempty c : utf8_char c <> Some [].
Proof. unfold utf8_char. repeat case_match; congruence. Qed.

Lemma utf8_inj s s' bs :
  unicode_text s -> unicode_text s' -> utf8 s = Some bs -> utf8 s' = Some bs -> s = s'.
Proof.
  intros Hs; revert s' bs; induction Hs as [|c s Hc _ IH]; intros s' bs Hs' H H'.
  - injection H as <-. destruct Hs' as [|c' s' _ _]; [done|]. cbn in H'.
    destruct (utf8_char c') as [b|] eqn:Hb; [|done]. cbn in H'. destruct (utf8 s'); [|done].
    injection H' as H'. apply app_eq_nil in H' as [-> _]. by apply utf8_char_nonempty in Hb.
  - cbn in H. destruct (utf8_char c) as [b|] eqn:Hb; [|done]. cbn in H.
    destruct (utf8 s) as [t|] eqn:Ht; [|done]. injection H as <-.
    destruct Hs' as [|c' s' Hc' Hs'].
    + injection H' as H'. symmetry in H'. apply app_eq_nil in H' as [-> _]. by apply utf8_char_nonempty in Hb.
    + cbn in H'. destruct (utf8_char c') as [b'|] eqn:Hb'; [|done]. cbn in H'.
      destruct (utf8 s') as [t'|] eqn:Ht'; [|done]. injection H' as H'. symmetry in H'.
      eapply utf8_char_split in H' as [-> ->]; [|done..]. f_equal. by eapply IH.
Qed.

(** Text of Unicode code points prints as such. *)
Lemma unicode_app s t : unicode_text s -> unicode_text t -> unicode_text (s ++ t).
Proof. unfold unicode_text. intros. by apply Forall_app. Qed.

Lemma digits_unicode n : 0 <= n -> unicode_text (digits n).
Proof.
  intros Hn. eapply list.Forall_impl; [by apply digits_all|].
  intros c Hc. cbn in Hc. unfold is_digit, in_range in Hc. lia.
Qed.

Lemma literal_unicode s : forallb (fun c => (0 <=? c) && (c <=? 0x10FFFF)) s = true -> unicode_text s.
Proof.
  rewrite List.forallb_forall. intros H. apply list.Forall_forall. intros c Hc.
  apply list_elem_of_In in Hc. apply H in Hc. lia.
Qed.

Lemma json_escape_unicode c : 0 <= c <= 0x10FFFF -> unicode_text (json_escape c).
Proof.
  intros Hc. destruct (Z.lt_ge_cases c 128) as [H|H].
  - assert (Hall : forallb (fun a => forallb (fun c => (0 <=? c) && (c <=? 0x10FFFF)) (json_escape a))
              ascii_codes = true) by (vm_compute; reflexivity).
    apply literal_unicode. rewrite List.forallb_forall in Hall. apply Hall, list_elem_of_In.
    apply in_ascii_codes; lia.
  - rewrite json_escape_high by done. by constructor.
Qed.

Lemma json_string_unicode s : unicode_text s -> unicode_text (json_string s).
Proof.
  intros Hs. unfold json_string. apply unicode_app; [by apply literal_unicode|].
  apply unicode_app; [|by apply literal_unicode].
  induction Hs as [|c s Hc _ IH]; [constructor|]. by apply unicode_app; [apply json_escape_unicode|].
Qed.

Definition unicode_scalar (t : fjson) : Prop :=
  match t with FFloat _ => False | FStr s => unicode_text s | _ => True end.

(** Frozen values without floats whose text is Unicode. *)
Definition unicode_plain : fjson -> Prop := everywhere unicode_scalar unicode_text.

Lemma unicode_text_ok s : unicode_text s -> text_ok (fun c => 0 <= c) s.
Proof. intros H. eapply list.Forall_impl; [exact H|]. cbn. lia. Qed.

Lemma unicode_plain_plain t : unicode_plain t -> plain (fun c => 0 <= c) t.
Proof.
  apply everywhere_impl; [|apply unicode_text_ok]. intros []; cbn; try done. apply unicode_text_ok.
Qed.

Lemma join_unicode l : Forall unicode_text l -> unicode_text (join (u ",") l).
Proof.
  induction 1 as [|x l Hx Hl IH]; [constructor|]. destruct l as [|y l]; [done|].
  change (join (u ",") (x :: y :: l)) with (x ++ u "," ++ join (u ",") (y :: l)).
  repeat apply unicode_app; [done|by apply literal_unicode|done].
Qed.

Lemma dumps_unicode t : unicode_plain t -> unicode_text (dumps t).
Proof.
  induction t as [t Hs|ts IH|ts IH] using fjson_tree_ind; intros Ht.
  - destruct t as [|[]|z| |s| |]; try done; try (by apply literal_unicode).
    + cbn [dumps]. unfold int_repr. destruct (Z.ltb_spec z 0); [apply unicode_app; [by apply literal_unicode|]|];
        apply digits_unicode; lia.
    + by apply json_string_unicode.
  - apply everywhere_tuple in Ht. cbn [dumps]. repeat apply unicode_app; try by apply literal_unicode.
    apply join_unicode, Forall_fmap. rewrite list.Forall_forall in *. intros x Hx. cbn. apply IH; [done|]. by apply Ht.
  - apply everywhere_map in Ht. cbn [dumps]. repeat apply unicode_app; try by apply literal_unicode.
    apply join_unicode, Forall_fmap. rewrite list.Forall_forall in *. intros [k t] Hx.
    destruct (Ht _ Hx) as [Hk Htt]. change (unicode_text (json_string k ++ u ":" ++ dumps t)).
    apply unicode_app; [|apply unicode_app]; [by apply json_string_unicode|by apply literal_unicode|].
    by apply (IH _ Hx).
Qed.

Lemma canonical_json_bytes_Ok msd t bs :
  canonical_json_bytes msd t = Ok bs <-> printable msd t = true /\ utf8 (dumps t) = Some bs.
Proof.
  unfold canonical_json_bytes. destruct (printable msd t), (utf8 (dumps t)); split; try done;
    try (by intros [= <-]); try (by intros [? [= ->]]); by intros [? ?].
Qed.

(** The canonical encoding identifies the value: two frozen values of
    Unicode text, integers, booleans, nulls and containers with the same
    canonical bytes are the same value, down to the order of the keys. *)
Theorem canonical_json_bytes_injective msd t1 t2 bs
    (H1 : unicode_plain t1) (H2 : unicode_plain t2)
    (E1 : canonical_json_bytes msd t1 = Ok bs) (E2 : canonical_json_bytes msd t2 = Ok bs) : t1 = t2.
Proof.
  apply canonical_json_bytes_Ok in E1 as [_ E1], E2 as [_ E2].
  apply dumps_inj; [by apply unicode_plain_plain..|].
  eapply utf8_inj; [by apply dumps_unicode..|done|done].
Qed.

Lemma canonical_json_bytes_injective_witness :
  exists bs,
    canonical_json_bytes 4300 (FMap [(u "k", FTuple [FInt (-7); FStr [233; 10]])]) = Ok bs
    /\ FMap [(u "k", FTuple [FInt (-7); FStr [233; 10]])] = FMap [(u "k", FTuple [FInt (-7); FStr [233; 10]])].
Proof.
  eexists. split; [vm_compute; reflexivity|].
  eapply (canonical_json_bytes_injective 4300).
  - cbn. split_and!; try exact I; apply literal_unicode; vm_compute; reflexivity.
  - cbn. split_and!; try exact I; apply literal_unicode; vm_compute; reflexivity.
  - vm_compute; reflexivity.
  - vm_compute; reflexivity.
Defined.
