(* ===== verification/JsonLoads.v ===== *)
(** * Reading JSON text ([json.loads], [float], [bytes.decode])

    The isolated feature protocol reads frames with [json.loads]; this file
    is that reader on text, with the decoding of UTF-8 bytes before it and the
    conversion of decimal literals to binary64.  A value read is a fresh tree:
    [FTuple] is a list, [FMap] a [dict] in insertion order. *)

From stdpp Require Import gmap.
From S2P Require Export JsonText.

(** ** [bytes.decode("utf-8")] *)

Definition is_cont (b : Z) : bool := in_range 0x80 0xBF b.

(** Strict: no overlong form, no surrogate, nothing above U+10FFFF. *)
Fixpoint utf8_decode (bs : list Z) : option pystr :=
  match bs with
  | [] => Some []
  | a :: bs1 =>
      if a <? 0x80 then cons a <$> utf8_decode bs1
      else
        match bs1 with
        | [] => None
        | b :: bs2 =>
            if negb (is_cont b) then None
            else if in_range 0xC2 0xDF a then cons ((a - 0xC0) * 64 + (b - 0x80)) <$> utf8_decode bs2
            else
              match bs2 with
              | [] => None
              | c :: bs3 =>
                  if negb (is_cont c) then None
                  else if in_range 0xE0 0xEF a then
                    let n := (a - 0xE0) * 4096 + (b - 0x80) * 64 + (c - 0x80) in
                    if (n <? 0x800) || is_surrogate n then None else cons n <$> utf8_decode bs3
                  else
                    match bs3 with
                    | [] => None
                    | d :: bs4 =>
                        if negb (is_cont d) then None
                        else if in_range 0xF0 0xF4 a then
                          let n := (a - 0xF0) * 262144 + (b - 0x80) * 4096 + (c - 0x80) * 64 + (d - 0x80) in
                          if (n <? 0x10000) || (0x10FFFF <? n) then None else cons n <$> utf8_decode bs4
                        else None
                    end
              end
        end
  end.

(** ** [float(text)]: the nearest binary64, as its shortest decimal *)

(** Drop the trailing zeros of a coefficient. *)
Fixpoint strip_zeros (fuel : nat) (coef expo : Z) : Z * Z :=
  match fuel with
  | O => (coef, expo)
  | S fuel' => if coef mod 10 =? 0 then strip_zeros fuel' (coef / 10) (expo + 1) else (coef, expo)
  end.

Definition normal_decimal (coef expo : Z) : Z * Z :=
  if coef =? 0 then (0, 0) else strip_zeros (S (Z.to_nat (Z.log2 coef))) coef expo.

(** The ratio [num / den] rounded to [m * 2 ^ e] with [m < 2 ^ 53] and
    [-1074 <= e], ties to even; [None] beyond the largest finite value. *)
Definition round_binary64 (num den : Z) : option (Z * Z) :=
  if num =? 0 then Some (0, 0)
  else
    let k0 := Z.log2 num - Z.log2 den in
    let below := if 0 <=? k0 then num <? den * 2 ^ k0 else num * 2 ^ (- k0) <? den in
    let k := if below then k0 - 1 else k0 in
    let e := Z.max (k - 52) (-1074) in
    let n := if 0 <=? e then num else num * 2 ^ (- e) in
    let d := if 0 <=? e then den * 2 ^ e else den in
    let q := n / d in
    let r := n mod d in
    let m := if (d <? 2 * r) || ((2 * r =? d) && Z.odd q) then q + 1 else q in
    let me := if m =? 2 ^ 53 then (2 ^ 52, e + 1) else (m, e) in
    if 971 <? me.2 then None else Some me.

(** [coef * 10 ^ expo] as a ratio. *)
Definition decimal_ratio (coef expo : Z) : Z * Z :=
  if 0 <=? expo then (coef * 10 ^ expo, 1) else (coef, 10 ^ (- expo)).

(** The decimal point of [num / den]: the [p] with
    [10 ^ (p - 1) <= num / den < 10 ^ p], from an estimate. *)
Definition below_pow10 (num den p : Z) : bool :=
  if 0 <=? p then num <? den * 10 ^ p else num * 10 ^ (- p) <? den.

Definition decimal_point (num den : Z) : Z :=
  let est := (Z.log2 num - Z.log2 den) * 30103 / 100000 in
  if below_pow10 num den (est - 1) then est - 1
  else if below_pow10 num den est then est
  else if below_pow10 num den (est + 1) then est + 1
  else est + 2.

(** The shortest decimal that rounds to [m * 2 ^ e], and the closest of those:
    try [n] digits, from one up to seventeen. *)
Fixpoint shortest_from (fuel : nat) (n : Z) (me : Z * Z) (num den p : Z) : Z * Z :=
  let scale := p - n in
  let a := if 0 <=? scale then num else num * 10 ^ (- scale) in
  let b := if 0 <=? scale then den * 10 ^ scale else den in
  let lo := a / b in
  let r := a mod b in
  let back c := match decimal_ratio c scale with (x, y) => bool_decide (round_binary64 x y = Some me) end in
  let up_first := (b <? 2 * r) || ((2 * r =? b) && Z.odd lo) in
  let first := if up_first then lo + 1 else lo in
  let second := if up_first then lo else lo + 1 in
  match fuel with
  | O => (first, scale)
  | S fuel' =>
      if back first then (first, scale)
      else if back second then (second, scale)
      else shortest_from fuel' (n + 1) me num den p
  end.

Definition shortest_decimal (me : Z * Z) : Z * Z :=
  let '(m, e) := me in
  let num := if 0 <=? e then m * 2 ^ e else m in
  let den := if 0 <=? e then 1 else 2 ^ (- e) in
  let '(c, x) := shortest_from 16 1 me num den (decimal_point num den) in
  normal_decimal c x.

(** The float a decimal literal denotes. *)
Definition float_of_decimal (neg : bool) (coef expo : Z) : pyfloat :=
  let '(c, x) := normal_decimal coef expo in
  if c =? 0 then FFin neg 0 0
  else
    let '(num, den) := decimal_ratio c x in
    match round_binary64 num den with
    | None => FInf neg
    | Some (0, _) => FFin neg 0 0
    | Some me => let '(c', x') := shortest_decimal me in FFin neg c' x'
    end.

Example float_one_tenth : float_of_decimal false 1 (-1) = FFin false 1 (-1).
Proof. vm_compute. reflexivity. Qed.

Example float_sum : float_of_decimal false 30000000000000004 (-17) = FFin false 30000000000000004 (-17).
Proof. vm_compute. reflexivity. Qed.

Example float_long : float_of_decimal true 12345678901234567890 (-10) = FFin true 12345678901234567 (-7).
Proof. vm_compute. reflexivity. Qed.

Example float_tiny : float_of_decimal false 3 (-324) = FFin false 5 (-324).
Proof. vm_compute. reflexivity. Qed.

Example float_overflow : float_of_decimal false 18 307 = FInf false.
Proof. vm_compute. reflexivity. Qed.

Example float_power : float_of_decimal false 1000 20 = FFin false 1 23.
Proof. vm_compute. reflexivity. Qed.

(** ** Tokens *)

Definition json_ws (c : Z) : bool := (c =? 32) || (c =? 9) || (c =? 10) || (c =? 13).
Definition skip_ws (s : pystr) : pystr := drop_while json_ws s.

Definition hex_value (c : Z) : option Z :=
  if is_digit c then Some (c - 48)
  else if in_range 97 102 c then Some (c - 87)
  else if in_range 65 70 c then Some (c - 55)
  else None.

Definition hex4_value (a b c d : Z) : option Z :=
  w ← hex_value a; x ← hex_value b; y ← hex_value c; z ← hex_value d;
  Some (w * 4096 + x * 256 + y * 16 + z).

(** The character after a backslash, [u] apart. *)
Definition simple_escape (c : Z) : option Z :=
  if c =? 34 then Some 34
  else if c =? 92 then Some 92
  else if c =? 47 then Some 47
  else if c =? 98 then Some 8
  else if c =? 102 then Some 12
  else if c =? 110 then Some 10
  else if c =? 114 then Some 13
  else if c =? 116 then Some 9
  else None.

Definition is_high (c : Z) : bool := in_range 0xD800 0xDBFF c.
Definition is_low (c : Z) : bool := in_range 0xDC00 0xDFFF c.

Definition unterminated : exn := JSONDecodeError "Unterminated string starting at".
Definition bad_unicode : exn := JSONDecodeError "Invalid \uXXXX escape".

Definition put {A B} (x : A) (m : res (list A * B)) : res (list A * B) :=
  '(l, r) ← m; Ok (x :: l, r).

(** [scanstring] after the opening quote, [strict=True]: the text and what
    follows the closing quote. *)
Fixpoint scanstring (s : pystr) : res (pystr * pystr) :=
  match s with
  | [] => Raise unterminated
  | c :: s1 =>
      if c =? 34 then Ok ([], s1)
      else if negb (c =? 92) then
        if c <=? 31 then Raise (JSONDecodeError "Invalid control character at")
        else put c (scanstring s1)
      else
        match s1 with
        | [] => Raise unterminated
        | e :: s2 =>
            if negb (e =? 117) then
              match simple_escape e with
              | Some v => put v (scanstring s2)
              | None => Raise (JSONDecodeError "Invalid \escape")
              end
            else
              match s2 with
              | a :: b :: c' :: d :: s3 =>
                  match hex4_value a b c' d with
                  | None => Raise bad_unicode
                  | Some n =>
                      match s3 with
                      | x :: y :: a2 :: b2 :: c2 :: d2 :: s4 =>
                          if is_high n && (x =? 92) && (y =? 117) then
                            match hex4_value a2 b2 c2 d2 with
                            | None => Raise bad_unicode
                            | Some n2 =>
                                if is_low n2
                                then put (0x10000 + (n - 0xD800) * 1024 + (n2 - 0xDC00)) (scanstring s4)
                                else put n (scanstring s3)
                            end
                          else put n (scanstring s3)
                      | _ => put n (scanstring s3)
                      end
                  end
              | _ => Raise bad_unicode
              end
        end
  end.

(** The text after the character [c], if it starts with it. *)
Definition eat (c : Z) (s : pystr) : option pystr :=
  match s with
  | x :: s' => if x =? c then Some s' else None
  | [] => None
  end.

(** The longest prefix whose elements satisfy [p], and the rest. *)
Fixpoint span {A} (p : A -> bool) (l : list A) : list A * list A :=
  match l with
  | [] => ([], [])
  | x :: l' => if p x then let '(a, b) := span p l' in (x :: a, b) else ([], l)
  end.

Definition expecting_value : exn := JSONDecodeError "Expecting value".

(** The optional fraction of a number: its digits. *)
Definition scan_fraction (s : pystr) : option pystr * pystr :=
  match eat 46 s with
  | Some s1 =>
      match span is_digit s1 with
      | ([], _) => (None, s)
      | (ds, r) => (Some ds, r)
      end
  | None => (None, s)
  end.

(** The optional exponent. *)
Definition scan_exponent (s : pystr) : option Z * pystr :=
  match s with
  | e :: s1 =>
      if (e =? 101) || (e =? 69) then
        let '(neg, s2) := match eat 45 s1 with
                          | Some s2 => (true, s2)
                          | None => (false, default s1 (eat 43 s1))
                          end in
        match span is_digit s2 with
        | ([], _) => (None, s)
        | (ds, r) => (Some (if neg then - parse_int ds else parse_int ds), r)
        end
      else (None, s)
  | [] => (None, s)
  end.

Section Loads.
(** [sys.get_int_max_str_digits()] *)
Variable max_str_digits : Z.

(** [int(text)] of a digit string. *)
Definition read_int (neg : bool) (ds : pystr) : res fjson :=
  _ ← raise_if (negb (max_str_digits =? 0) && (max_str_digits <? len ds))
        (ValueError "Exceeds the limit for integer string conversion");
  Ok (FInt (if neg then - parse_int ds else parse_int ds)).

(** A number after its sign. *)
Definition scan_unsigned (neg : bool) (s : pystr) : res (fjson * pystr) :=
  match s with
  | c :: s1 =>
      if negb (is_digit c) then Raise expecting_value
      else
        let '(ds, r) := if c =? 48 then ([48], s1) else span is_digit s in
        let '(frac, r1) := scan_fraction r in
        let '(expo, r2) := scan_exponent r1 in
        match frac, expo with
        | None, None => t ← read_int neg ds; Ok (t, r)
        | _, _ =>
            let f := default [] frac in
            Ok (FFloat (float_of_decimal neg (parse_int (ds ++ f)) (default 0 expo - len f)), r2)
        end
  | [] => Raise expecting_value
  end.

(** A literal name. *)
Definition strip_prefix (p s : pystr) : option pystr :=
  if bool_decide (take (length p) s = p) then Some (drop (length p) s) else None.

Definition scan_literal (s : pystr) : option (fjson * pystr) :=
  match strip_prefix (u "null") s with
  | Some r => Some (FNull, r)
  | None =>
  match strip_prefix (u "true") s with
  | Some r => Some (FBool true, r)
  | None =>
  match strip_prefix (u "false") s with
  | Some r => Some (FBool false, r)
  | None =>
  match strip_prefix (u "NaN") s with
  | Some r => Some (FFloat FNaN, r)
  | None =>
  match strip_prefix (u "Infinity") s with
  | Some r => Some (FFloat (FInf false), r)
  | None =>
  match strip_prefix (u "-Infinity") s with
  | Some r => Some (FFloat (FInf true), r)
  | None => None
  end end end end end end.

Definition scan_scalar (s : pystr) : res (fjson * pystr) :=
  match scan_literal s with
  | Some x => Ok x
  | None =>
      match eat 45 s with
      | Some s1 => scan_unsigned true s1
      | None => scan_unsigned false s
      end
  end.

(** ** Containers *)

Definition too_deep_to_read : exn := RecursionError "while decoding a JSON array or object".

(** The elements after [\[], and after each comma. *)
Fixpoint scan_elems (rec : pystr -> res (fjson * pystr)) (fuel : nat) (s : pystr)
    : res (list fjson * pystr) :=
  match fuel with
  | O => Raise FuelExhausted
  | S fuel' =>
      '(t, r) ← rec s;
      match eat 93 (skip_ws r), eat 44 (skip_ws r) with
      | Some r', _ => Ok ([t], r')
      | None, Some r' => put t (scan_elems rec fuel' (skip_ws r'))
      | None, None => Raise (JSONDecodeError "Expecting ',' delimiter")
      end
  end.

(** The members after [{], and after each comma, into [acc]. *)
Fixpoint scan_members (rec : pystr -> res (fjson * pystr)) (fuel : nat)
    (acc : list (pystr * fjson)) (s : pystr) : res (list (pystr * fjson) * pystr) :=
  match fuel with
  | O => Raise FuelExhausted
  | S fuel' =>
      match eat 34 s with
      | Some s1 =>
          '(k, r) ← scanstring s1;
          match eat 58 (skip_ws r) with
          | Some r1 =>
              '(t, r2) ← rec (skip_ws r1);
              let acc' := dict_set k t acc in
              match eat 125 (skip_ws r2), eat 44 (skip_ws r2) with
              | Some r', _ => Ok (acc', r')
              | None, Some r' => scan_members rec fuel' acc' (skip_ws r')
              | None, None => Raise (JSONDecodeError "Expecting ',' delimiter")
              end
          | None => Raise (JSONDecodeError "Expecting ':' delimiter")
          end
      | None => Raise (JSONDecodeError "Expecting property name enclosed in double quotes")
      end
  end.

(** [depth] is how many more containers may be open at once: the reader enters
    a recursive call at each opening bracket. *)
Fixpoint scan_once (fuel depth : nat) (s : pystr) : res (fjson * pystr) :=
  match fuel with
  | O => Raise FuelExhausted
  | S fuel' =>
      match eat 34 s, eat 91 s, eat 123 s with
      | Some s1, _, _ => '(t, r) ← scanstring s1; Ok (FStr t, r)
      | None, Some s1, _ =>
          match depth with
          | O => Raise too_deep_to_read
          | S depth' =>
              match eat 93 (skip_ws s1) with
              | Some r => Ok (FTuple [], r)
              | None => '(ts, r) ← scan_elems (scan_once fuel' depth') fuel' (skip_ws s1); Ok (FTuple ts, r)
              end
          end
      | None, None, Some s1 =>
          match depth with
          | O => Raise too_deep_to_read
          | S depth' =>
              match eat 125 (skip_ws s1) with
              | Some r => Ok (FMap [], r)
              | None => '(ts, r) ← scan_members (scan_once fuel' depth') fuel' [] (skip_ws s1); Ok (FMap ts, r)
              end
          end
      | None, None, None => scan_scalar s
      end
  end.

End Loads.

(** The limits of the interpreter: [sys.get_int_max_str_digits()], and how
    deep lists and dictionaries may nest before the C code of [json] that
    reads or writes them meets the recursion limit. *)
Record json_limits := MkLimits { int_digits :> Z; max_nesting : nat }.

Definition sample_limits : json_limits := MkLimits 4300 900.

(** [json.loads(text)]. One unit of fuel per character is enough. *)
Definition loads (limits : json_limits) (s : pystr) : res fjson :=
  _ ← raise_if (bool_decide (head s = Some 0xFEFF))
        (JSONDecodeError "Unexpected UTF-8 BOM (decode using utf-8-sig)");
  '(t, r) ← scan_once limits (S (length s)) (max_nesting limits) (skip_ws s);
  _ ← raise_if (negb (bool_decide (skip_ws r = []))) (JSONDecodeError "Extra data");
  Ok t.

(** ** Writing: [json.dumps(value, separators=(",", ":"))]

    The defaults of [json.dumps]: ASCII output, and names for the floats JSON
    has no number for. *)

Definition float_token (f : pyfloat) : pystr :=
  match f with
  | FNaN => u "NaN"
  | FInf false => u "Infinity"
  | FInf true => u "-Infinity"
  | FFin _ _ _ => float_repr f
  end.

Fixpoint wire_dumps (t : fjson) : pystr :=
  match t with
  | FFloat f => float_token f
  | FStr s => string_with ascii_escape s
  | FTuple ts => u "[" ++ join (u ",") (map wire_dumps ts) ++ u "]"
  | FMap ts =>
      u "{" ++ join (u ",") (map (fun '(k, t) => string_with ascii_escape k ++ u ":" ++ wire_dumps t) ts)
      ++ u "}"
  | FNull => u "null"
  | FBool b => if b then u "true" else u "false"
  | FInt z => int_repr z
  end.

(** The text of the example below, with [q] a quotation mark. *)
Definition loads_text : pystr :=
  let q := [34] in
  u " {" ++ q ++ u "a" ++ q ++ u " : [1, -0, 2.50, 1e2 ,null], " ++ q ++ u "b" ++ q ++ u ":"
  ++ q ++ u "\ud83d\ude00\n" ++ q ++ u "," ++ q ++ u "a" ++ q ++ u ":[-0, 2.50, 1e2 ,NaN]} ".

Example loads_value :
  loads sample_limits loads_text
  = Ok (FMap [(u "a", FTuple [FInt 0; FFloat (FFin false 25 (-1)); FFloat (FFin false 1 2); FFloat FNaN]);
              (u "b", FStr [0x1F600; 10])]).
Proof. vm_compute. reflexivity. Qed.

(** The reader stops at the bracket that is one too many, before any error
    further on. *)
Example loads_too_deep :
  loads (MkLimits 4300 2) (u "[[[[,") = Raise too_deep_to_read
  /\ loads (MkLimits 4300 2) (u "[[1],[2]]") = Ok (FTuple [FTuple [FInt 1]; FTuple [FInt 2]]).
Proof. split; vm_compute; reflexivity. Qed.
