(* ===== verification/JsonLoadsProps.v ===== *)
(** * Reading JSON text: lemmas

    [loads] never runs out of fuel and raises only the exceptions of
    [json.loads]; and it reads back what [wire_dumps] writes. *)

From stdpp Require Import gmap.
From S2P Require Export JsonLoads.

(** ** Termination and exceptions

    A scan consumes text, or raises an exception of [json.loads]. *)

Definition decode_error (e : exn) : Prop :=
  (exists m, e = JSONDecodeError m) \/ e = ValueError "Exceeds the limit for integer string conversion"
  \/ e = too_deep_to_read.

Definition scans {A} (n : nat) (m : res (A * pystr)) : Prop :=
  match m with Ok (_, r) => (length r < n)%nat | Raise e => decode_error e end.

Lemma scans_bind {A B} n (m : res (A * pystr)) (f : A * pystr -> res (B * pystr)) :
  scans n m -> (forall a r, m = Ok (a, r) -> (length r < n)%nat -> scans n (f (a, r))) -> scans n (m ≫= f).
Proof. destruct m as [[a r]|e]; cbn; eauto. Qed.

Lemma scans_put {A} n (x : A) m : scans n m -> scans (S n) (put x m).
Proof. destruct m as [[l r]|e]; cbn; [lia|done]. Qed.

Lemma scans_mono {A} n n' (m : res (A * pystr)) : (n <= n')%nat -> scans n m -> scans n' m.
Proof. destruct m as [[a r]|e]; cbn; [lia|done]. Qed.

Lemma scans_raise {A} n m : scans (A := A) n (Raise (JSONDecodeError m)).
Proof. left. eauto. Qed.

#[export] Hint Resolve scans_raise : kestrel.

Lemma skip_ws_length s : (length (skip_ws s) <= length s)%nat.
Proof. unfold skip_ws. induction s as [|c s IH]; cbn; [lia|]. destruct (json_ws c); cbn; lia. Qed.

Lemma eat_length c s r : eat c s = Some r -> length s = S (length r).
Proof. destruct s as [|x s]; cbn; [done|]. destruct (x =? c); [|done]. by intros [= ->]. Qed.

Lemma span_length {A} (p : A -> bool) l a b : span p l = (a, b) -> (length a + length b = length l)%nat.
Proof.
  revert a b; induction l as [|x l IH]; cbn; intros a b.
  - by intros [= <- <-].
  - destruct (p x); [|by intros [= <- <-]]. destruct (span p l) as [a' b']. intros [= <- <-].
    cbn. by rewrite (IH a' b').
Qed.

Lemma scanstring_scans n s : (length s <= n)%nat -> scans (S n) (scanstring s).
Proof.
  revert s; induction n as [n IH] using lt_wf_ind; intros s Hn.
  assert (Hrec : forall s' x, (length s' < length s)%nat -> scans (S n) (put x (scanstring s'))).
  { intros s' x Hs'. apply scans_put, (scans_mono (S (length s'))); [lia|]. apply IH; lia. }
  destruct s as [|c s1]; [apply scans_raise|]. cbn [scanstring]. cbn [length] in *.
  destruct (c =? 34); [cbn; lia|].
  destruct (negb (c =? 92)).
  { destruct (c <=? 31); [apply scans_raise|]. apply Hrec. lia. }
  destruct s1 as [|e s2]; [apply scans_raise|]. cbn [length] in *.
  destruct (negb (e =? 117)).
  { destruct (simple_escape e); [|apply scans_raise]. apply Hrec. lia. }
  destruct s2 as [|a [|b [|c' [|d s3]]]]; try apply scans_raise. cbn [length] in *.
  destruct (hex4_value a b c' d) as [m|]; [|apply scans_raise].
  destruct s3 as [|x [|y [|a2 [|b2 [|c2 [|d2 s4]]]]]]; try (apply Hrec; cbn; lia).
  cbn [length] in *. destruct (is_high m && (x =? 92) && (y =? 117)); [|apply Hrec; cbn; lia].
  destruct (hex4_value a2 b2 c2 d2); [|apply scans_raise].
  destruct (is_low _); apply Hrec; cbn; lia.
Qed.

Section Scans.
Context (msd : Z).

Lemma scan_fraction_length s f r : scan_fraction s = (f, r) -> (length r <= length s)%nat.
Proof.
  unfold scan_fraction. destruct (eat 46 s) as [s1|] eqn:E; [|by intros [= _ <-]].
  apply eat_length in E. destruct (span is_digit s1) as [[|d ds] r'] eqn:Es.
  - by intros [= _ <-].
  - intros [= _ <-]. apply span_length in Es. cbn in Es. lia.
Qed.

Lemma scan_exponent_length s f r : scan_exponent s = (f, r) -> (length r <= length s)%nat.
Proof.
  unfold scan_exponent. destruct s as [|e s1]; [by intros [= _ <-]|].
  destruct ((e =? 101) || (e =? 69)); [|by intros [= _ <-]].
  destruct (match eat 45 s1 with Some s2 => _ | None => _ end) as [neg s2] eqn:E.
  assert (length s2 <= length s1)%nat.
  { destruct (eat 45 s1) eqn:E1; [apply eat_length in E1; injection E; intros; subst; lia|].
    injection E as _ <-. destruct (eat 43 s1) eqn:E2; cbn; [apply eat_length in E2|]; lia. }
  destruct (span is_digit s2) as [[|d ds] r'] eqn:Es.
  - by intros [= _ <-].
  - intros [= _ <-]. apply span_length in Es. cbn in *. lia.
Qed.

Lemma read_int_error neg ds e : read_int msd neg ds = Raise e -> decode_error e.
Proof.
  unfold read_int. intros H. apply bind_Raise in H as [H|(? & _ & H)]; [|done].
  apply raise_if_Raise in H as [_ <-]. right. by left.
Qed.

Lemma scan_unsigned_scans neg s : scans (length s) (scan_unsigned msd neg s).
Proof.
  unfold scan_unsigned. destruct s as [|c s1]; [apply scans_raise|].
  destruct (is_digit c) eqn:Ec; [|apply scans_raise]. cbn [negb].
  assert (Hds : forall ds r, (if c =? 48 then ([48], s1) else span is_digit (c :: s1)) = (ds, r) ->
                (length r < length (c :: s1))%nat).
  { intros ds r. destruct (c =? 48); [intros [= _ <-]; cbn; lia|]. cbn [span]. rewrite Ec.
    destruct (span is_digit s1) as [a b] eqn:E. intros [= _ <-]. apply span_length in E. cbn. lia. }
  destruct (if c =? 48 then _ else _) as [ds r] eqn:E. specialize (Hds _ _ eq_refl).
  destruct (scan_fraction r) as [frac r1] eqn:Ef. apply scan_fraction_length in Ef.
  destruct (scan_exponent r1) as [expo r2] eqn:Ee. apply scan_exponent_length in Ee.
  destruct frac, expo; cbn in *; try lia.
  destruct (read_int msd neg ds) eqn:Er; cbn; [lia|]. by eapply read_int_error.
Qed.

Lemma scan_scalar_scans s : scans (S (length s)) (scan_scalar msd s).
Proof.
  unfold scan_scalar. destruct (scan_literal s) as [[t r]|] eqn:E.
  - cbn. unfold scan_literal in E.
    assert (H : forall p, strip_prefix p s = Some r -> (length r <= length s)%nat).
    { intros p. unfold strip_prefix. case_bool_decide; [|done]. intros [= <-]. rewrite length_drop. lia. }
    repeat match type of E with
    | context [strip_prefix ?p s] =>
        let Hp := fresh "Hp" in destruct (strip_prefix p s) eqn:Hp in E;
        [injection E as _ ->; apply H in Hp; lia|]
    end. done.
  - destruct (eat 45 s) as [s1|] eqn:E1.
    + apply eat_length in E1. eapply scans_mono; [|apply scan_unsigned_scans]. lia.
    + eapply scans_mono; [|apply scan_unsigned_scans]. lia.
Qed.

Lemma scan_elems_scans rec fuel s :
  (forall s', (length s' <= length s)%nat -> scans (S (length s')) (rec s')) -> (length s < fuel)%nat ->
  scans (S (length s)) (scan_elems rec fuel s).
Proof.
  revert s; induction fuel as [|fuel IH]; intros s Hrec Hf; [lia|]. cbn [scan_elems].
  apply scans_bind; [by apply Hrec|]. intros t r _ Hr. pose proof (skip_ws_length r) as Hw.
  destruct (eat 93 (skip_ws r)) as [r'|] eqn:E1; [apply eat_length in E1; cbn; lia|].
  destruct (eat 44 (skip_ws r)) as [r'|] eqn:E2; [|apply scans_raise]. apply eat_length in E2.
  pose proof (skip_ws_length r'). apply scans_put, (scans_mono (S (length (skip_ws r')))); [lia|].
  apply IH; [|lia]. intros s' Hs'. apply Hrec. lia.
Qed.

Lemma scan_members_scans rec fuel acc s :
  (forall s', (length s' <= length s)%nat -> scans (S (length s')) (rec s')) -> (length s < fuel)%nat ->
  scans (S (length s)) (scan_members rec fuel acc s).
Proof.
  revert s acc; induction fuel as [|fuel IH]; intros s acc Hrec Hf; [lia|]. cbn [scan_members].
  destruct (eat 34 s) as [s1|] eqn:E; [|apply scans_raise]. apply eat_length in E.
  apply scans_bind; [apply (scans_mono (S (length s1))); [lia|by apply scanstring_scans]|].
  intros k r Hk Hr. pose proof (skip_ws_length r).
  destruct (eat 58 (skip_ws r)) as [r1|] eqn:E1; [|apply scans_raise]. apply eat_length in E1.
  pose proof (skip_ws_length r1).
  apply scans_bind; [apply (scans_mono (S (length (skip_ws r1)))); [lia|]; apply Hrec; lia|].
  intros t r2 Ht Hr2. assert (Hr2' : (length r2 <= length (skip_ws r1))%nat).
  { pose proof (Hrec (skip_ws r1) ltac:(lia)) as Hs. rewrite Ht in Hs. cbn in Hs. lia. }
  pose proof (skip_ws_length r2).
  destruct (eat 125 (skip_ws r2)) as [r'|] eqn:E2; [apply eat_length in E2; cbn; lia|].
  destruct (eat 44 (skip_ws r2)) as [r'|] eqn:E3; [|apply scans_raise]. apply eat_length in E3.
  pose proof (skip_ws_length r'). apply (scans_mono (S (length (skip_ws r')))); [lia|].
  apply IH; [|lia]. intros s' Hs'. apply Hrec. lia.
Qed.

Lemma scan_once_scans fuel depth s : (length s < fuel)%nat -> scans (S (length s)) (scan_once msd fuel depth s).
Proof.
  revert depth s; induction fuel as [|fuel IH]; intros depth s Hf; [lia|]. cbn [scan_once].
  destruct (eat 34 s) as [s1|] eqn:E1.
  { apply eat_length in E1. apply scans_bind; [|by intros; cbn].
    apply (scans_mono (S (length s1))); [lia|by apply scanstring_scans]. }
  destruct (eat 91 s) as [s1|] eqn:E2.
  { apply eat_length in E2. pose proof (skip_ws_length s1). destruct depth as [|depth]; [by right; right|].
    destruct (eat 93 (skip_ws s1)) as [r|] eqn:E3; [apply eat_length in E3; cbn; lia|].
    apply scans_bind; [|by intros; cbn].
    apply (scans_mono (S (length (skip_ws s1)))); [lia|]. apply scan_elems_scans; [|lia].
    intros s' Hs'. apply IH. lia. }
  destruct (eat 123 s) as [s1|] eqn:E3; [|apply scan_scalar_scans].
  apply eat_length in E3. pose proof (skip_ws_length s1). destruct depth as [|depth]; [by right; right|].
  destruct (eat 125 (skip_ws s1)) as [r|] eqn:E4; [apply eat_length in E4; cbn; lia|].
  apply scans_bind; [|by intros; cbn].
  apply (scans_mono (S (length (skip_ws s1)))); [lia|]. apply scan_members_scans; [|lia].
  intros s' Hs'. apply IH. lia.
Qed.

End Scans.

(** [json.loads] returns or raises a [JSONDecodeError], the [ValueError] of
    an integer with too many digits, or the [RecursionError] of a text that
    nests too deep. *)
Lemma loads_errors limits s e : loads limits s = Raise e -> decode_error e.
Proof.
  unfold loads. intros H. apply bind_Raise in H as [H|([] & _ & H)].
  { apply raise_if_Raise in H as [_ <-]. left. eauto. }
  pose proof (skip_ws_length s).
  pose proof (scan_once_scans limits (S (length s)) (max_nesting limits) (skip_ws s) ltac:(lia)) as Hs.
  apply bind_Raise in H as [H|([t r] & _ & H)]; [by rewrite H in Hs|].
  apply bind_Raise in H as [H|([] & _ & H)]; [|done].
  apply raise_if_Raise in H as [_ <-]. left. eauto.
Qed.

(** ** Reading back strings *)

Lemma hex_value_digit n : 0 <= n < 16 -> hex_value (hex_digit n) = Some n.
Proof.
  intros Hn. unfold hex_digit, hex_value, is_digit, in_range.
  destruct (Z.ltb_spec n 10).
  - replace ((48 <=? 48 + n) && (48 + n <=? 57)) with true by lia. f_equal. lia.
  - replace ((48 <=? 87 + n) && (87 + n <=? 57)) with false by lia.
    replace ((97 <=? 87 + n) && (87 + n <=? 102)) with true by lia. f_equal. lia.
Qed.

Lemma hex4_value_digits n : 0 <= n < 0x10000 ->
  hex4_value (hex_digit (n / 4096)) (hex_digit (n / 256 mod 16)) (hex_digit (n / 16 mod 16)) (hex_digit (n mod 16))
  = Some n.
Proof.
  intros Hn. unfold hex4_value. rewrite !hex_value_digit by (Z.to_euclidean_division_equations; lia).
  cbn. f_equal. Z.to_euclidean_division_equations; lia.
Qed.

Lemma hex4_text n r :
  hex4 n ++ r = 92 :: 117 :: hex_digit (n / 4096) :: hex_digit (n / 256 mod 16) :: hex_digit (n / 16 mod 16)
                :: hex_digit (n mod 16) :: r.
Proof. reflexivity. Qed.

Lemma scan_hex4 n r : 0 <= n < 0x10000 -> is_high n = false -> scanstring (hex4 n ++ r) = put n (scanstring r).
Proof.
  intros Hn Hh. rewrite hex4_text. cbn [scanstring]. rewrite hex4_value_digits by done. cbn [negb Z.eqb Pos.eqb].
  rewrite Hh. cbn [andb]. by destruct r as [|? [|? [|? [|? [|? [|? ?]]]]]].
Qed.

Lemma scan_pair hi lo r : is_high hi = true -> is_low lo = true ->
  scanstring (hex4 hi ++ hex4 lo ++ r) = put (0x10000 + (hi - 0xD800) * 1024 + (lo - 0xDC00)) (scanstring r).
Proof.
  intros Hh Hl. assert (0 <= hi < 0x10000 /\ 0 <= lo < 0x10000).
  { unfold is_high, is_low, in_range in *. lia. }
  rewrite !hex4_text. cbn [scanstring]. rewrite !hex4_value_digits by lia. cbn [negb Z.eqb Pos.eqb].
  rewrite Hh. cbn [andb]. by rewrite Hl.
Qed.

Lemma scan_escape c r : scalar_value c -> scanstring (ascii_escape c ++ r) = put c (scanstring r).
Proof.
  intros [Hc Hs]. unfold ascii_escape. destruct (Z.ltb_spec c 127) as [Hlt|Hge].
  - destruct (decide (c < 32)) as [Hl|Hl].
    + assert (Hall : forallb (fun c => bool_decide (json_escape c = hex4 c)
          || match json_escape c with
             | [a; b] => (a =? 92) && negb (b =? 117) && bool_decide (simple_escape b = Some c) | _ => false end)
          (seqZ 0 32) = true) by (vm_compute; reflexivity).
      rewrite List.forallb_forall in Hall.
      specialize (Hall c ltac:(apply list_elem_of_In, elem_of_seqZ; lia)).
      apply orb_true_iff in Hall as [H|H]; bool_hyps.
      * rewrite H. apply scan_hex4; [lia|]. unfold is_high, in_range. lia.
      * destruct (json_escape c) as [|a [|b [|]]]; try done. bool_hyps. subst a. cbn [app scanstring].
        cbn [Z.eqb Pos.eqb negb]. by replace (b =? 117) with false by lia; rewrite H0.
    + unfold json_escape.
      destruct (Z.eqb_spec c 34) as [->|]; [done|]. destruct (Z.eqb_spec c 92) as [->|]; [done|].
      replace (c =? 10) with false by lia. replace (c =? 13) with false by lia. replace (c =? 9) with false by lia.
      replace (c =? 12) with false by lia. replace (c =? 8) with false by lia. replace (c <? 32) with false by lia.
      cbn [app scanstring]. replace (c =? 34) with false by lia. replace (c =? 92) with false by lia.
      cbn [negb]. by replace (c <=? 31) with false by lia.
  - unfold is_surrogate, in_range in Hs. destruct (Z.ltb_spec c 0x10000).
    + apply scan_hex4; [lia|]. unfold is_high, in_range. lia.
    + rewrite <- app_assoc, scan_pair.
      * f_equal. Z.to_euclidean_division_equations; lia.
      * unfold is_high, in_range. Z.to_euclidean_division_equations; lia.
      * unfold is_low, in_range. Z.to_euclidean_division_equations; lia.
Qed.

Lemma scan_string s r : Forall scalar_value s -> scanstring ((s ≫= ascii_escape) ++ 34 :: r) = Ok (s, r).
Proof.
  induction 1 as [|c s Hc _ IH]; [done|]. change ((c :: s) ≫= ascii_escape) with (ascii_escape c ++ (s ≫= ascii_escape)).
  by rewrite <- app_assoc, scan_escape, IH.
Qed.

(** ** Reading back numbers *)

Lemma span_digits ds r :
  Forall (fun c => is_digit c = true) ds -> match r with [] => True | c :: _ => is_digit c = false end ->
  span is_digit (ds ++ r) = (ds, r).
Proof.
  intros Hd Hr. induction Hd as [|c ds Hc _ IH]; cbn.
  - destruct r as [|c r]; [done|]. cbn. by rewrite Hr.
  - by rewrite Hc, IH.
Qed.

(** The first digit of a positive number is not zero. *)
Lemma digits_fuel_head fuel n :
  0 < n < 2 ^ Z.of_nat fuel -> exists c ds, digits_fuel fuel n = c :: ds /\ c <> 48.
Proof.
  revert n; induction fuel as [|fuel IH]; intros n Hn; [cbn in Hn; lia|]. cbn [digits_fuel].
  destruct (Z.ltb_spec n 10); [exists (48 + n), []; split; [done|lia]|].
  rewrite Nat2Z.inj_succ, Z.pow_succ_r in Hn by lia.
  destruct (IH (n / 10)) as (c & ds & -> & Hc); [Z.to_euclidean_division_equations; lia|].
  exists c, (ds ++ [48 + n mod 10]). done.
Qed.

Lemma digits_head n : 0 < n -> exists c ds, digits n = c :: ds /\ c <> 48.
Proof.
  intros Hn. apply digits_fuel_head. split; [done|].
  rewrite Nat2Z.inj_succ, Z2Nat.id by apply Z.log2_nonneg. apply Z.log2_spec. lia.
Qed.

(** Stripping zeros gives the one decimal of the value without them. *)
Lemma strip_zeros_spec fuel c e :
  0 < c < 2 ^ Z.of_nat fuel -> forall c' e', strip_zeros fuel c e = (c', e') ->
  exists j, 0 <= j /\ c = c' * 10 ^ j /\ e' = e + j /\ c' mod 10 <> 0.
Proof.
  revert c e; induction fuel as [|fuel IH]; intros c e Hc c' e' H; [cbn in Hc; lia|]. cbn [strip_zeros] in H.
  destruct (Z.eqb_spec (c mod 10) 0) as [Hz|Hz].
  - rewrite Nat2Z.inj_succ, Z.pow_succ_r in Hc by lia.
    apply IH in H as (j & Hj & Hcj & -> & Hn); [|Z.to_euclidean_division_equations; lia].
    exists (j + 1). rewrite Z.pow_add_r by lia. split_and!; [lia| |lia|done].
    rewrite Z.mul_assoc, <- Hcj. Z.to_euclidean_division_equations; lia.
  - injection H as <- <-. exists 0. cbn. split_and!; lia.
Qed.

Lemma pow10_cancel a b j k :
  0 <= j -> 0 <= k -> a mod 10 <> 0 -> b mod 10 <> 0 -> a * 10 ^ j = b * 10 ^ k -> a = b /\ j = k.
Proof.
  assert (Hw : forall a b j k, 0 <= j <= k -> a mod 10 <> 0 -> a * 10 ^ j = b * 10 ^ k -> a = b /\ j = k).
  { clear. intros a b j k Hj Ha H. replace k with (j + (k - j)) in H by lia.
    rewrite Z.pow_add_r in H by lia. assert (Ha' : a = b * 10 ^ (k - j)).
    { assert (0 < 10 ^ j) by (apply Z.pow_pos_nonneg; lia). nia. }
    destruct (Z.eq_dec j k) as [->|Hjk]; [rewrite Z.sub_diag in Ha'; cbn in Ha'; lia|].
    exfalso. apply Ha. rewrite Ha'. replace (k - j) with (Z.succ (k - j - 1)) by lia.
    rewrite Z.pow_succ_r by lia. rewrite (Z.mul_comm 10), Z.mul_assoc. apply Z_mod_mult. }
  intros Hj Hk Ha Hb H. destruct (Z.le_ge_cases j k).
  - by apply (Hw a b j k).
  - destruct (Hw b a k j) as [-> ->]; [lia|done|done|done].
Qed.

Lemma normal_decimal_scale c k e : 0 < c -> 0 <= k -> normal_decimal (c * 10 ^ k) (e - k) = normal_decimal c e.
Proof.
  intros Hc Hk. assert (0 < 10 ^ k) by (apply Z.pow_pos_nonneg; lia).
  assert (Hpos : 0 < c * 10 ^ k) by nia. unfold normal_decimal.
  replace (c =? 0) with false by lia. replace (c * 10 ^ k =? 0) with false by lia.
  assert (Hb : forall n, 0 < n -> 0 < n < 2 ^ Z.of_nat (S (Z.to_nat (Z.log2 n)))).
  { intros n Hn. rewrite Nat2Z.inj_succ, Z2Nat.id by apply Z.log2_nonneg. pose proof (Z.log2_spec n Hn). lia. }
  destruct (strip_zeros _ (c * 10 ^ k) (e - k)) as [c1 e1] eqn:E1.
  destruct (strip_zeros _ c e) as [c2 e2] eqn:E2.
  apply strip_zeros_spec in E1 as (j1 & Hj1 & H1 & -> & Hn1); [|by apply Hb].
  apply strip_zeros_spec in E2 as (j2 & Hj2 & H2 & -> & Hn2); [|by apply Hb].
  destruct (pow10_cancel c1 c2 j1 (j2 + k)) as [-> Hj]; [lia..|done|done| |].
  - rewrite <- H1, Z.pow_add_r, Z.mul_assoc, <- H2 by lia. done.
  - f_equal. lia.
Qed.

Lemma float_of_decimal_scale neg c k e :
  0 < c -> 0 <= k -> float_of_decimal neg (c * 10 ^ k) (e - k) = float_of_decimal neg c e.
Proof. intros Hc Hk. unfold float_of_decimal. by rewrite normal_decimal_scale. Qed.

(** A float in its normal form: the shortest decimal of a binary64. *)
Definition float_wf (f : pyfloat) : Prop :=
  match f with FFin neg c e => 0 <= c /\ float_of_decimal neg c e = f | _ => True end.

Definition all_digits (s : pystr) : Prop := Forall (fun c => is_digit c = true) s.

(** The integer part of a JSON number: [0], or no leading zero. *)
Definition int_part (s : pystr) : Prop :=
  all_digits s /\ (s = [48] \/ exists c s', s = c :: s' /\ c <> 48).

Definition no_digit (r : pystr) : Prop := match r with [] => True | c :: _ => is_digit c = false end.

Lemma delim_no_digit r : delim r -> no_digit r.
Proof. destruct r; cbn; [done|]. unfold is_digit, in_range. lia. Qed.

Lemma int_part_digits n : 0 <= n -> int_part (digits n).
Proof.
  intros Hn. split; [by apply digits_all|]. destruct (Z.eq_dec n 0) as [->|]; [by left|].
  right. apply digits_head. lia.
Qed.

Lemma scan_int_part s r : int_part s -> no_digit r ->
  exists c s', s ++ r = c :: s' /\ is_digit c = true
    /\ (if c =? 48 then ([48], s') else span is_digit (c :: s')) = (s, r).
Proof.
  intros [Hd Hs] Hr. destruct Hs as [->|(c & s' & -> & Hc)].
  - exists 48, r. split_and!; done.
  - exists c, (s' ++ r). split; [done|]. split; [by apply list.Forall_cons in Hd as [? _]|].
    replace (c =? 48) with false by lia. by apply (span_digits (c :: s') r).
Qed.

Lemma scan_fraction_some f r : all_digits f -> f <> [] -> no_digit r -> scan_fraction (46 :: f ++ r) = (Some f, r).
Proof. intros Hf Hn Hr. unfold scan_fraction. cbn. rewrite span_digits by done. by destruct f. Qed.

Lemma scan_fraction_none r : head r <> Some 46 -> scan_fraction r = (None, r).
Proof.
  unfold scan_fraction, eat. destruct r as [|c r]; [done|]. cbn. intros H.
  destruct (Z.eqb_spec c 46) as [->|]; [congruence|done].
Qed.

Lemma scan_exponent_none r : delim r -> scan_exponent r = (None, r).
Proof.
  unfold scan_exponent. destruct r as [|c r]; [done|]. cbn. intros H.
  replace ((c =? 101) || (c =? 69)) with false by lia. done.
Qed.

Lemma scan_exponent_some (neg : bool) x r : all_digits x -> x <> [] -> delim r ->
  scan_exponent (101 :: (if neg then 45 else 43) :: x ++ r) = (Some (if neg then - parse_int x else parse_int x), r).
Proof.
  intros Hx Hn Hr. apply delim_no_digit in Hr. unfold scan_exponent.
  destruct neg; cbn -[span]; rewrite span_digits by done; by destruct x.
Qed.

Section Numbers.
Context (msd : Z).

Lemma scan_unsigned_positional neg i f r : int_part i -> all_digits f -> f <> [] -> delim r ->
  scan_unsigned msd neg (i ++ 46 :: f ++ r) = Ok (FFloat (float_of_decimal neg (parse_int (i ++ f)) (- len f)), r).
Proof.
  intros Hi Hf Hn Hr. destruct (scan_int_part i (46 :: f ++ r) Hi eq_refl) as (c & s' & -> & Hc & Hs).
  unfold scan_unsigned. rewrite Hc, Hs. cbn [negb].
  rewrite scan_fraction_some, scan_exponent_none by auto using delim_no_digit. done.
Qed.

Lemma scan_unsigned_exponent neg i f (eneg : bool) x r :
  int_part i -> all_digits f -> all_digits x -> x <> [] -> delim r ->
  scan_unsigned msd neg (i ++ (if decide (f = []) then [] else 46 :: f) ++ 101 :: (if eneg then 45 else 43) :: x ++ r)
  = Ok (FFloat (float_of_decimal neg (parse_int (i ++ f)) ((if eneg then - parse_int x else parse_int x) - len f)), r).
Proof.
  intros Hi Hf Hx Hn Hr. set (tail := _ :: _ :: x ++ r).
  destruct (scan_int_part i ((if decide (f = []) then [] else 46 :: f) ++ tail) Hi) as (c & s' & E & Hc & Hs).
  { by case_decide. }
  rewrite E. unfold scan_unsigned. rewrite Hc, Hs. cbn [negb]. case_decide as Hfe.
  - subst f. rewrite (scan_fraction_none ([] ++ tail)) by done. cbn [app]. unfold tail.
    rewrite scan_exponent_some by done. cbn. rewrite app_nil_r. done.
  - cbn [app]. rewrite scan_fraction_some by done. unfold tail. by rewrite scan_exponent_some by done.
Qed.

Lemma scan_unsigned_int neg i r : int_part i -> delim r -> msd = 0 \/ len i <= msd ->
  scan_unsigned msd neg (i ++ r) = Ok (FInt (if neg then - parse_int i else parse_int i), r).
Proof.
  intros Hi Hr Hm. destruct (scan_int_part i r Hi) as (c & s' & E & Hc & Hs); [by apply delim_no_digit|].
  rewrite E. unfold scan_unsigned. rewrite Hc, Hs. cbn [negb].
  rewrite scan_fraction_none by (destruct r as [|x r]; cbn in Hr; cbn; [done|intros [= ->]; lia]).
  rewrite scan_exponent_none by done. unfold read_int.
  replace (negb (msd =? 0) && (msd <? len i)) with false by lia. done.
Qed.

(** A number is no literal name. *)
Lemma scan_literal_digit c s : is_digit c = true -> scan_literal (c :: s) = None /\ scan_literal (45 :: c :: s) = None.
Proof.
  unfold is_digit, in_range. intros Hc.
  assert (H : forall p x s, head p <> Some x -> p <> [] -> strip_prefix p (x :: s) = None).
  { clear. intros p x s Hp Hn. unfold strip_prefix. rewrite bool_decide_false; [done|].
    destruct p as [|y p]; [done|]. cbn. intros [= -> _]. done. }
  assert (H2 : strip_prefix (u "-Infinity") (45 :: c :: s) = None).
  { unfold strip_prefix. rewrite bool_decide_false; [done|]. cbn. intros [= ? _]. lia. }
  split; unfold scan_literal.
  - by rewrite !H by (vm_compute; first [done | intros [= <-]; lia]).
  - rewrite H2. by rewrite !H by (vm_compute; first [done | intros [= <-]; lia]).
Qed.

Lemma scan_scalar_number (neg : bool) c s :
  is_digit c = true -> scan_scalar msd ((if neg then u "-" else []) ++ c :: s) = scan_unsigned msd neg (c :: s).
Proof.
  intros Hc. destruct (scan_literal_digit c s Hc) as [H1 H2]. unfold scan_scalar. destruct neg; cbn [app].
  - change (u "-" ++ c :: s) with (45 :: c :: s). by rewrite H2.
  - rewrite H1. unfold eat. unfold is_digit, in_range in Hc. by replace (c =? 45) with false by lia.
Qed.

Lemma parse_int_app a b : parse_int (a ++ b) = parse_int a * 10 ^ len b + parse_int b.
Proof.
  induction b as [|c b IH] using rev_ind; [rewrite app_nil_r, len_nil; change (parse_int []) with 0; lia|].
  rewrite app_assoc, !parse_int_snoc, IH, len_app, len_cons, len_nil.
  replace (len b + (1 + 0)) with (Z.succ (len b)) by lia. rewrite Z.pow_succ_r by apply len_nonneg. lia.
Qed.

Lemma parse_int_zeros n : parse_int (replicate n 48) = 0.
Proof. induction n as [|n IH]; [done|]. rewrite replicate_S_end, parse_int_snoc, IH. lia. Qed.

Lemma zeros_digits n : all_digits (replicate n 48).
Proof. by apply Forall_replicate. Qed.

Lemma len_drop {A} n (l : list A) : len (drop n l) = Z.of_nat (length l - n).
Proof. unfold len. by rewrite length_drop. Qed.

Lemma len_replicate {A} n (x : A) : len (replicate n x) = Z.of_nat n.
Proof. unfold len. by rewrite length_replicate. Qed.

#[local] Hint Resolve zeros_digits : kestrel.

(** The text of a float after its sign is that of a number with the float's
    value. *)
Definition magnitude (coef expo : Z) : pystr :=
  let ds := digits coef in
  let n := len ds in
  let point := n + expo in
  if coef =? 0 then u "0.0"
  else if (-4 <? point) && (point <=? 16) then
    if point <=? 0 then u "0." ++ replicate (Z.to_nat (- point)) 48 ++ ds
    else if n <=? point then ds ++ replicate (Z.to_nat (point - n)) 48 ++ u ".0"
    else take (Z.to_nat point) ds ++ u "." ++ drop (Z.to_nat point) ds
  else
    let e := point - 1 in
    take 1 ds ++ (if n =? 1 then [] else u "." ++ drop 1 ds)
    ++ u "e" ++ (if e <? 0 then u "-" else u "+")
    ++ (if Z.abs e <? 10 then u "0" else []) ++ digits (Z.abs e).

Lemma float_repr_magnitude neg coef expo :
  float_repr (FFin neg coef expo) = (if neg then u "-" else []) ++ magnitude coef expo.
Proof. reflexivity. Qed.

Section Magnitude.
Context (coef expo : Z) (neg : bool) (r : pystr).
Context (Hc : 0 < coef) (Hr : delim r).

(** A literal whose digits are the coefficient and [k] more zeros. *)
Lemma literal_value k x : 0 <= k -> x = expo - k ->
  float_of_decimal neg (coef * 10 ^ k) x = float_of_decimal neg coef expo.
Proof. intros Hk ->. by apply float_of_decimal_scale. Qed.

Lemma scan_magnitude_small : len (digits coef) + expo <= 0 ->
  scan_unsigned msd neg ([48] ++ 46 :: (replicate (Z.to_nat (- (len (digits coef) + expo))) 48 ++ digits coef) ++ r)
  = Ok (FFloat (float_of_decimal neg coef expo), r).
Proof.
  intros Hp. rewrite scan_unsigned_positional; [| |apply Forall_app; split; [apply zeros_digits|by apply digits_all; lia]| |done].
  - rewrite !parse_int_app, parse_int_zeros, digits_parse by lia.
    rewrite Z.mul_0_l, len_app, len_replicate, Z.add_0_l. do 3 f_equal. f_equal; lia.
  - split; [by repeat constructor|by left].
  - intros H. apply app_eq_nil in H as [_ H]. by apply digits_nonempty in H.
Qed.

Lemma scan_magnitude_large : 0 <= expo ->
  scan_unsigned msd neg ((digits coef ++ replicate (Z.to_nat expo) 48) ++ 46 :: [48] ++ r)
  = Ok (FFloat (float_of_decimal neg coef expo), r).
Proof.
  intros He. rewrite scan_unsigned_positional; [| |by repeat constructor|done|done].
  - rewrite !parse_int_app, parse_int_zeros, digits_parse, len_replicate, Z2Nat.id by lia.
    change (parse_int [48]) with 0. change (len [48]) with 1. rewrite !Z.add_0_r, <- Z.mul_assoc, <- Z.pow_add_r by lia.
    rewrite literal_value by lia. done.
  - split; [apply Forall_app; split; [by apply digits_all; lia|apply zeros_digits]|]. right.
    destruct (digits_head coef Hc) as (c & ds & -> & Hne). by exists c, (ds ++ replicate (Z.to_nat expo) 48).
Qed.

Lemma scan_magnitude_middle p : 0 < p < len (digits coef) -> p = len (digits coef) + expo ->
  scan_unsigned msd neg (take (Z.to_nat p) (digits coef) ++ 46 :: drop (Z.to_nat p) (digits coef) ++ r)
  = Ok (FFloat (float_of_decimal neg coef expo), r).
Proof.
  intros Hp Hpe. assert (Hd : all_digits (digits coef)) by (apply digits_all; lia).
  assert (Hl : length (digits coef) = Z.to_nat (len (digits coef))) by (unfold len; lia).
  rewrite scan_unsigned_positional; [| |by apply Forall_drop| |done].
  - rewrite take_drop, digits_parse by lia. replace (- len _) with expo; [done|]. rewrite len_drop. lia.
  - split; [by apply Forall_take|]. right.
    destruct (digits_head coef Hc) as (c & ds & -> & Hne). destruct (Z.to_nat p) eqn:E; [lia|]. by exists c, (take n ds).
  - intros H. apply (f_equal length) in H. rewrite length_drop in H. change (length []) with 0%nat in H. lia.
Qed.

Lemma scan_magnitude_exponent e : e = len (digits coef) + expo - 1 ->
  scan_unsigned msd neg (take 1 (digits coef) ++ (if decide (drop 1 (digits coef) = []) then [] else 46 :: drop 1 (digits coef))
     ++ 101 :: (if e <? 0 then 45 else 43) :: ((if Z.abs e <? 10 then [48] else []) ++ digits (Z.abs e)) ++ r)
  = Ok (FFloat (float_of_decimal neg coef expo), r).
Proof.
  intros He. assert (Hd : all_digits (digits coef)) by (apply digits_all; lia).
  pose proof (digits_nonempty coef) as Hne.
  rewrite scan_unsigned_exponent; [| |by apply Forall_drop| | |done].
  - rewrite take_drop, digits_parse by lia.
    replace (_ - len _) with expo; [done|].
    assert (Hz : forall b : bool, parse_int (if b then [48] else []) = 0) by by intros [].
    rewrite !parse_int_app, !Hz, !Z.mul_0_l, !Z.add_0_l.
    rewrite digits_parse, len_drop by lia.
    assert (Hl : len (digits coef) = Z.of_nat (length (digits coef))) by done.
    destruct (digits coef); [done|]. cbn [length] in *. destruct (Z.ltb_spec e 0); lia.
  - split; [by apply Forall_take|]. right.
    destruct (digits_head coef Hc) as (c & ds & -> & Hx). by exists c, [].
  - apply Forall_app. split; [destruct (_ <? _); by repeat constructor|]. apply digits_all. lia.
  - intros H. apply app_eq_nil in H as [_ H]. by apply digits_nonempty in H.
Qed.

Lemma scan_magnitude_positive :
  scan_unsigned msd neg (magnitude coef expo ++ r) = Ok (FFloat (float_of_decimal neg coef expo), r).
Proof.
  unfold magnitude. replace (coef =? 0) with false by lia.
  pose proof (digits_nonempty coef) as Hne.
  destruct ((-4 <? len (digits coef) + expo) && (len (digits coef) + expo <=? 16)).
  - destruct (Z.leb_spec (len (digits coef) + expo) 0).
    { rewrite <- (scan_magnitude_small ltac:(lia)). reflexivity. }
    destruct (Z.leb_spec (len (digits coef)) (len (digits coef) + expo)).
    { rewrite <- (scan_magnitude_large ltac:(lia)). f_equal. rewrite <- !app_assoc.
      by replace (len (digits coef) + expo - len (digits coef)) with expo by lia. }
    rewrite <- (scan_magnitude_middle (len (digits coef) + expo)) by lia. f_equal. by rewrite <- !app_assoc.
  - rewrite <- (scan_magnitude_exponent (len (digits coef) + expo - 1)) by lia. f_equal. rewrite <- !app_assoc.
    assert (Hf : (if len (digits coef) =? 1 then [] else u "." ++ drop 1 (digits coef))
                 = (if decide (drop 1 (digits coef) = []) then [] else 46 :: drop 1 (digits coef))).
    { destruct (digits coef) as [|a [|b ds]]; [done|reflexivity|].
      replace (len (a :: b :: ds) =? 1) with false; [done|]. rewrite !len_cons. pose proof (len_nonneg ds). lia. }
    rewrite Hf. by destruct (_ <? 0), (_ <? 10).
Qed.
End Magnitude.

Lemma scan_unsigned_head neg s x : scan_unsigned msd neg s = Ok x -> exists c s', s = c :: s' /\ is_digit c = true.
Proof.
  destruct s as [|c s]; [done|]. intros H. exists c, s. split; [done|]. unfold scan_unsigned in H. by destruct (is_digit c).
Qed.

Lemma scan_magnitude neg coef expo r : float_wf (FFin neg coef expo) -> delim r ->
  scan_unsigned msd neg (magnitude coef expo ++ r) = Ok (FFloat (FFin neg coef expo), r).
Proof.
  intros [Hc Hf] Hr.
  destruct (Z.eq_dec coef 0) as [->|]; [|rewrite scan_magnitude_positive by first [lia|done]; by rewrite Hf].
  rewrite <- Hf. change (magnitude 0 expo ++ r) with ([48] ++ 46 :: [48] ++ r).
  rewrite scan_unsigned_positional; [done| |by repeat constructor|done|done]. split; [by repeat constructor|by left].
Qed.

Lemma scan_float neg coef expo r : float_wf (FFin neg coef expo) -> delim r ->
  scan_scalar msd (float_repr (FFin neg coef expo) ++ r) = Ok (FFloat (FFin neg coef expo), r).
Proof.
  intros Hf Hr. rewrite float_repr_magnitude, <- app_assoc.
  pose proof (scan_magnitude neg coef expo r Hf Hr) as H.
  destruct (scan_unsigned_head _ _ _ H) as (c & s & E & Hd). rewrite E in *. by rewrite scan_scalar_number.
Qed.

Lemma scan_int z r : int_printable msd z = true -> delim r -> scan_scalar msd (int_repr z ++ r) = Ok (FInt z, r).
Proof.
  unfold int_printable. intros Hz Hr.
  assert (H : scan_unsigned msd (z <? 0) (digits (Z.abs z) ++ r) = Ok (FInt z, r)).
  { rewrite scan_unsigned_int; [|apply int_part_digits; lia|done|].
    - rewrite digits_parse by lia. do 3 f_equal. destruct (Z.ltb_spec z 0); lia.
    - apply orb_true_iff in Hz as [?|?]; bool_hyps; [by left|by right]. }
  assert (Hh : exists c s, digits (Z.abs z) ++ r = c :: s /\ is_digit c = true).
  { pose proof (digits_nonempty (Z.abs z)). pose proof (digits_all (Z.abs z) ltac:(lia)) as Hd.
    destruct (digits (Z.abs z)) as [|c s]; [done|]. exists c, (s ++ r). by apply list.Forall_cons in Hd as [? _]. }
  replace (int_repr z) with ((if z <? 0 then u "-" else []) ++ digits (Z.abs z)).
  - rewrite <- app_assoc. destruct Hh as (c & s & E & Hd). rewrite E in *. by rewrite scan_scalar_number.
  - unfold int_repr. destruct (Z.ltb_spec z 0); cbn [app]; do 2 f_equal; lia.
Qed.
End Numbers.

(** ** Reading back values *)

Section Values.
Context (msd : Z).

(** What a JSON text carries unchanged: text without surrogates, printable
    integers, floats in normal form, and maps whose keys are distinct. *)
Definition wire_scalar (t : fjson) : Prop :=
  match t with
  | FStr s => Forall scalar_value s
  | FInt z => int_printable msd z = true
  | FFloat f => float_wf f
  | _ => True
  end.

Fixpoint wire_value (t : fjson) : Prop :=
  match t with
  | FTuple ts => foldr (fun t P => wire_value t /\ P) True ts
  | FMap ts => NoDup ts.*1 /\ foldr (fun kt P => (Forall scalar_value kt.1 /\ wire_value kt.2) /\ P) True ts
  | _ => wire_scalar t
  end.

Lemma wire_value_tuple ts : wire_value (FTuple ts) <-> Forall wire_value ts.
Proof. cbn. induction ts; cbn; [by split|]. rewrite list.Forall_cons. tauto. Qed.

Lemma wire_value_map ts :
  wire_value (FMap ts) <-> NoDup ts.*1 /\ Forall (fun kt => Forall scalar_value kt.1 /\ wire_value kt.2) ts.
Proof.
  cbn. apply Morphisms_Prop.and_iff_morphism; [done|].
  induction ts; cbn; [by split|]. rewrite list.Forall_cons. tauto.
Qed.

(** The first character of a value. *)
Definition opens (s : pystr) : Prop := exists c s', s = c :: s' /\ json_ws c = false /\ c <> 93 /\ c <> 125.

Lemma opens_intro c s : json_ws c = false -> c <> 93 -> c <> 125 -> opens (c :: s).
Proof. exists c, s. done. Qed.

Lemma digit_opens c s : is_digit c = true -> opens (c :: s).
Proof. unfold is_digit, in_range. intros H. apply opens_intro; unfold json_ws; lia. Qed.

Lemma wire_dumps_opens t : wire_value t -> opens (wire_dumps t).
Proof.
  destruct t as [|[]|z|[neg c e|[]|]|s|ts|ts]; intros Ht; try (apply opens_intro; done).
  - destruct (int_repr_head z) as (x & s & E & H). cbn [wire_dumps]. rewrite E.
    destruct H as [->|H]; [by apply opens_intro|by apply digit_opens].
  - cbn [wire_dumps float_token]. rewrite float_repr_magnitude.
    destruct neg; [apply opens_intro; done|]. cbn [app].
    pose proof (scan_magnitude msd false c e [] Ht I) as H. rewrite app_nil_r in H.
    apply scan_unsigned_head in H as (x & s & -> & Hd). by apply digit_opens.
Qed.

Lemma scalar_literal s c : s = c :: tail s -> eat 34 s = (if c =? 34 then Some (tail s) else None).
Proof. intros ->. done. Qed.

(** *** Lists *)

Lemma join_cons2 sep x y (l : list pystr) : join sep (x :: y :: l) = x ++ sep ++ join sep (y :: l).
Proof. done. Qed.

Lemma join_length (l : list pystr) x : x ∈ l -> (length x <= length (join (u ",") l))%nat.
Proof.
  induction l as [|y l IH]; intros Hx; [by apply elem_of_nil in Hx|].
  destruct l as [|z l]; apply elem_of_cons in Hx as [->|Hx]; [done|by apply elem_of_nil in Hx| |];
    rewrite join_cons2, !length_app; [lia|]. apply IH in Hx. lia.
Qed.

Lemma join_count (l : list pystr) : Forall (fun x => x <> []) l -> (length l <= length (join (u ",") l))%nat.
Proof.
  induction 1 as [|x l Hx _ IH]; [done|]. destruct l as [|z l].
  - cbn. destruct x; [done|]. cbn. lia.
  - rewrite join_cons2, !length_app. cbn [length] in *. destruct x; [done|]. cbn [length]. unfold pystr in *. lia.
Qed.

Lemma skip_ws_opens s r : opens s -> skip_ws (s ++ r) = s ++ r.
Proof. intros (c & s' & -> & Hc & _). unfold skip_ws. cbn. by rewrite Hc. Qed.

Lemma skip_ws_delim r : delim r -> skip_ws r = r.
Proof.
  unfold skip_ws. destruct r as [|c r]; [done|]. cbn. intros H.
  replace (json_ws c) with false; [done|]. unfold json_ws. lia.
Qed.

Lemma eat_opens c s r : opens s -> (c = 93 \/ c = 125) -> eat c (s ++ r) = None.
Proof.
  intros (x & s' & -> & _ & H1 & H2) Hc. cbn. destruct (Z.eqb_spec x c); [|done]. destruct Hc; congruence.
Qed.

(** What [scan_once] is asked to do below: read the value [t] back. *)
Definition reads (rec : pystr -> res (fjson * pystr)) (t : fjson) : Prop :=
  forall r, delim r -> rec (wire_dumps t ++ r) = Ok (t, r).

Lemma scan_elems_dumps rec ts fuel r :
  Forall (reads rec) ts -> Forall wire_value ts -> ts <> [] -> (length ts <= fuel)%nat ->
  scan_elems rec fuel (join (u ",") (map wire_dumps ts) ++ 93 :: r) = Ok (ts, r).
Proof.
  intros Hrec Hv Hn. revert fuel. induction Hrec as [|t ts Ht _ IH]; [done|]. intros fuel Hf.
  apply list.Forall_cons in Hv as [Hvt Hv]. destruct fuel as [|fuel]; [cbn in Hf; lia|]. cbn [length] in Hf.
  rewrite (join_cons_tail wire_dumps 93). cbn [scan_elems].
  rewrite Ht by (apply delim_tail; by left). cbn [mbind result_bind].
  destruct ts as [|t2 ts]; [done|]. cbn [join_tail].
  rewrite skip_ws_delim by (cbn; lia). cbn [eat Z.eqb Pos.eqb].
  rewrite (join_cons_tail wire_dumps 93), skip_ws_opens, <- (join_cons_tail wire_dumps 93)
    by (apply list.Forall_cons in Hv as [? _]; by apply wire_dumps_opens).
  rewrite IH by (done || lia). done.
Qed.

Definition member_text (kt : pystr * fjson) : pystr := let '(k, t) := kt in string_with ascii_escape k ++ u ":" ++ wire_dumps t.

Lemma wire_dumps_map ts : wire_dumps (FMap ts) = u "{" ++ join (u ",") (map member_text ts) ++ u "}".
Proof. done. Qed.

Lemma member_opens kt : opens (member_text kt).
Proof. destruct kt as [k t]. by apply opens_intro. Qed.

Lemma scan_member_text k t r : Forall scalar_value k ->
  member_text (k, t) ++ r = 34 :: ((k ≫= ascii_escape) ++ 34 :: 58 :: wire_dumps t ++ r).
Proof. intros _. cbn [member_text]. unfold string_with. by rewrite <- !app_assoc. Qed.

Lemma scan_members_dumps rec ts fuel acc r :
  Forall (fun kt => reads rec kt.2) ts -> NoDup (acc ++ ts).*1 ->
  Forall (fun kt => Forall scalar_value kt.1 /\ wire_value kt.2) ts -> ts <> [] -> (length ts <= fuel)%nat ->
  scan_members rec fuel acc (join (u ",") (map member_text ts) ++ 125 :: r) = Ok (acc ++ ts, r).
Proof.
  intros Hrec Hnd Hv Hn. revert fuel acc Hnd. induction Hrec as [|[k t] ts Ht _ IH]; [done|]. intros fuel acc Hnd Hf.
  apply list.Forall_cons in Hv as [[Hk Hvt] Hv]. cbn [fst snd] in *.
  destruct fuel as [|fuel]; [cbn in Hf; lia|]. cbn [length] in Hf.
  rewrite (join_cons_tail member_text 125), scan_member_text by done. cbn [scan_members eat Z.eqb Pos.eqb].
  rewrite scan_string by done. cbn [mbind result_bind].
  change (skip_ws (58 :: wire_dumps t ++ join_tail member_text 125 ts r))
    with (58 :: wire_dumps t ++ join_tail member_text 125 ts r).
  cbn [eat Z.eqb Pos.eqb]. rewrite skip_ws_opens by by apply wire_dumps_opens.
  rewrite Ht by (apply delim_tail; by right). cbn [mbind result_bind].
  assert (Hk' : k ∉ acc.*1).
  { rewrite fmap_app in Hnd. apply list.NoDup_app in Hnd as (_ & Hd & _). intros Hin. apply (Hd k Hin). by left. }
  rewrite dict_set_fresh by done. destruct ts as [|kt2 ts]; [done|]. cbn [join_tail].
  rewrite skip_ws_delim by (cbn; lia). cbn [eat Z.eqb Pos.eqb].
  rewrite (join_cons_tail member_text 125), skip_ws_opens, <- (join_cons_tail member_text 125) by apply member_opens.
  rewrite IH; [by rewrite <- app_assoc|done|done| |lia]. by rewrite <- app_assoc.
Qed.

(** *** Values *)

Lemma wire_dumps_nonempty t : wire_value t -> wire_dumps t <> [].
Proof. intros Ht. by destruct (wire_dumps_opens t Ht) as (c & s & -> & _). Qed.

Lemma scan_once_scalar fuel depth c s :
  c <> 34 -> c <> 91 -> c <> 123 -> scan_once msd (S fuel) depth (c :: s) = scan_scalar msd (c :: s).
Proof.
  intros H1 H2 H3. cbn [scan_once eat]. replace (c =? 34) with false by lia. replace (c =? 91) with false by lia.
  by replace (c =? 123) with false by lia.
Qed.

Lemma scan_once_number fuel depth s r x :
  scan_scalar msd (s ++ r) = Ok x -> (exists c s', s = c :: s' /\ (c = 45 \/ is_digit c = true)) ->
  scan_once msd (S fuel) depth (s ++ r) = Ok x.
Proof.
  intros H (c & s' & -> & Hc). cbn [app] in *. rewrite scan_once_scalar; [done|..];
    (destruct Hc as [->|Hc]; [done|unfold is_digit, in_range in Hc; lia]).
Qed.

Definition is_container (t : fjson) : bool := match t with FTuple _ | FMap _ => true | _ => false end.

(** Containers nest at most [n] deep. *)
Fixpoint nests (n : nat) (t : fjson) {struct t} : bool :=
  match t with
  | FTuple ts => match n with O => false | S n' => forallb (nests n') ts end
  | FMap ts => match n with O => false | S n' => forallb (fun '(_, t) => nests n' t) ts end
  | _ => true
  end.

Lemma nests_tuple n ts : nests n (FTuple ts) = true -> exists n', n = S n' /\ Forall (fun t => nests n' t = true) ts.
Proof.
  destruct n as [|n]; [done|]. cbn. rewrite List.forallb_forall. intros H. exists n. split; [done|].
  apply list.Forall_forall. intros t Ht. by apply H, list_elem_of_In.
Qed.

Lemma nests_map n ts : nests n (FMap ts) = true -> exists n', n = S n' /\ Forall (fun kt => nests n' kt.2 = true) ts.
Proof.
  destruct n as [|n]; [done|]. cbn. rewrite List.forallb_forall. intros H. exists n. split; [done|].
  apply list.Forall_forall. intros [k t] Ht. by apply (H (k, t)), list_elem_of_In.
Qed.

Lemma scan_once_dumps t : wire_value t ->
  forall fuel depth r, (length (wire_dumps t) < fuel)%nat -> nests depth t = true -> is_container t = true \/ delim r ->
  scan_once msd fuel depth (wire_dumps t ++ r) = Ok (t, r).
Proof.
  induction t as [t Hs|ts IH|ts IH] using fjson_tree_ind; intros Ht fuel depth r Hf Hdp Hr;
    (destruct fuel as [|fuel]; [lia|]).
  - destruct t as [|[]|z|[neg c e|[]|]|s|ts|ts]; try done; destruct Hr as [[=]|Hr].
    + apply scan_once_number; [by apply scan_int|apply int_repr_head].
    + apply scan_once_number; [by apply scan_float|]. cbn [wire_dumps float_token]. rewrite float_repr_magnitude.
      destruct neg; [by eauto|]. pose proof (scan_magnitude msd false c e [] Ht I) as H. rewrite app_nil_r in H.
      apply scan_unsigned_head in H as (x & s & -> & Hdg). by eauto.
    + cbn [wire_dumps]. unfold string_with. rewrite <- !app_assoc. cbn [app scan_once eat Z.eqb Pos.eqb].
      by rewrite scan_string.
  - apply wire_value_tuple in Ht. apply nests_tuple in Hdp as (n & -> & Hdp). cbn [wire_dumps] in *. rewrite !length_app in Hf.
    rewrite <- !app_assoc. change (u "[") with [91] in *. change (u "]") with [93] in *.
    cbn [app length scan_once eat Z.eqb Pos.eqb] in *.
    destruct ts as [|t ts]; [done|].
    assert (Hne : Forall (fun x => x <> []) (map wire_dumps (t :: ts))).
    { apply Forall_map. eapply list.Forall_impl; [exact Ht|apply wire_dumps_nonempty]. }
    apply join_count in Hne. rewrite length_map in Hne.
    assert (Ho : opens (wire_dumps t)) by (apply list.Forall_cons in Ht as [? _]; by apply wire_dumps_opens).
    rewrite (join_cons_tail wire_dumps 93), skip_ws_opens, eat_opens, <- (join_cons_tail wire_dumps 93) by auto.
    rewrite scan_elems_dumps; [done| |done|done|lia].
    rewrite list.Forall_forall in *. intros x Hx r' Hr'. apply IH; [done|by apply Ht| |by apply Hdp|by right].
    pose proof (join_length (map wire_dumps (t :: ts)) (wire_dumps x)) as Hl.
    specialize (Hl ltac:(by apply list_elem_of_fmap_2)). lia.
  - apply wire_value_map in Ht as [Hnd Ht]. apply nests_map in Hdp as (n & -> & Hdp).
    rewrite wire_dumps_map in *. rewrite !length_app in Hf.
    rewrite <- !app_assoc. change (u "{") with [123] in *. change (u "}") with [125] in *.
    cbn [app length scan_once eat Z.eqb Pos.eqb] in *.
    destruct ts as [|kt ts]; [done|].
    assert (Hne : Forall (fun x => x <> []) (map member_text (kt :: ts))).
    { apply Forall_map, list.Forall_forall. intros [k t] _. done. }
    apply join_count in Hne. rewrite length_map in Hne.
    rewrite (join_cons_tail member_text 125), skip_ws_opens, eat_opens, <- (join_cons_tail member_text 125)
      by auto using member_opens.
    rewrite (scan_members_dumps _ (kt :: ts) fuel []); [done| |done|done|done|unfold pystr in *; lia].
    rewrite list.Forall_forall in *. intros x Hx r' Hr'. apply IH; [done|by apply Ht| |by apply Hdp|by right].
    pose proof (join_length (map member_text (kt :: ts)) (member_text x)) as Hl.
    specialize (Hl ltac:(by apply list_elem_of_fmap_2)). destruct x as [k t]. cbn [member_text snd] in *.
    rewrite !length_app in Hl. lia.
Qed.

End Values.

(** [json.loads(json.dumps(t) + s) == t] for a container and white space [s]. *)
Lemma loads_dumps (limits : json_limits) t s :
  wire_value limits t -> nests (max_nesting limits) t = true -> is_container t = true ->
  forallb json_ws s = true -> loads limits (wire_dumps t ++ s) = Ok t.
Proof.
  intros Ht Hdp Hc Hs. pose proof (wire_dumps_opens limits t Ht) as Ho. unfold loads.
  rewrite bool_decide_false.
  2: { destruct t as [| | | | |ts|ts]; done. }
  cbn [raise_if mbind result_bind].
  rewrite skip_ws_opens, scan_once_dumps by (done || (rewrite length_app; lia) || by left).
  cbn [mbind result_bind]. rewrite bool_decide_true; [done|].
  unfold skip_ws. clear -Hs. induction s as [|c s IH]; [done|]. cbn in *. bool_hyps. rewrite H. by apply IH.
Qed.
