(* ===== verification/RpcProtocol.v ===== *)
(** * The isolated feature protocol ([kestrel_sdk/isolated_feature/protocol.py])

    The line-delimited JSON-RPC messages between a host and an isolated
    feature service: frames, capability metadata, tool metadata, trusted
    execution contexts and host-ingress values.  A value decoded from a frame
    is a tree ([fjson]); a value a host or a handler hands over lives in a
    store of Python objects. *)

From stdpp Require Import gmap.
From S2P Require Export Regex Calendar JsonLoadsProps.

(** ** Constants *)

Definition JSONRPC_VERSION : pystr := u "2.0".
Definition PROTOCOL_VERSION : pystr := u "2026-06-17".
Definition INITIALIZE : pystr := u "initialize".
Definition HEALTH : pystr := u "health".
Definition TOOLS_LIST : pystr := u "tools/list".
Definition TOOLS_CALL : pystr := u "tools/call".
Definition SHUTDOWN : pystr := u "shutdown".
Definition FEATURE_EVENT : pystr := u "feature/event".
Definition CONFIG_TRANSITION : pystr := u "lifecycle/config-transition".
Definition CONFIG_TRANSITION_CAPABILITY : pystr := u "config_transition".
Definition INBOUND_PRODUCER_CAPABILITY : pystr := u "inbound_producer".
Definition HOST_INGRESS : pystr := u "host/ingress".
Definition HOST_INGRESS_CAPABILITY : pystr := u "host_ingress".
Definition HOST_INGRESS_VERSION : Z := 1.
Definition MAX_HOST_INGRESS_NAME_BYTES : Z := 64.
Definition MAX_HOST_INGRESS_PAYLOAD_BYTES : Z := 64 * 1024.
Definition TOOL_EXECUTION_CONTEXT : pystr := u "execution_context".
Definition TOOL_EXECUTION_CONTEXT_CAPABILITY : pystr := u "tool_execution_context".
Definition TOOL_EXECUTION_CONTEXT_VERSION : Z := 1.
Definition MAX_TOOL_EXECUTION_CONTEXT_BYTES : Z := 4096.
Definition CONFIG_TRANSITION_RESTART : pystr := u "restart".
Definition CONFIG_TRANSITION_APPLIED : pystr := u "applied".
Definition MAX_CONTEXT_IDENTIFIER_BYTES : Z := 512.
Definition MAX_TRIGGER_KIND_BYTES : Z := 64.
Definition MAX_HOST_INGRESS_PAYLOAD_DEPTH : nat := 32.

Definition SUPPORTED_TRIGGER_KINDS : list pystr :=
  [u "scheduler"; u "event"; u "agent"; u "manual"; u "api"].
Definition TRIGGER_FIELDS : list pystr :=
  [u "kind"; u "id"; u "source_id"; u "triggered_at"; u "scheduled_for"].
Definition CONTEXT_FIELDS : list pystr :=
  [u "version"; u "invocation_id"; u "idempotency_key"; u "attempt"; u "trigger"].

(** ** Dicts decoded from JSON *)

Abbreviation pydict := (list (pystr * fjson)).

(** [data[key]] where [key in data]. *)
Fixpoint dict_lookup (k : pystr) (d : pydict) : option fjson :=
  match d with
  | [] => None
  | (k', v) :: d' => if decide (k = k') then Some v else dict_lookup k d'
  end.

(** [data.get(key)] *)
Definition dict_get (k : pystr) (d : pydict) : fjson := default FNull (dict_lookup k d).

Definition has_key (k : pystr) (d : pydict) : bool := bool_decide (is_Some (dict_lookup k d)).

(** [set(data) == keys] *)
Definition same_keys (d : pydict) (keys : list pystr) : bool :=
  forallb (fun k => has_key k d) keys && forallb (fun kv => mem kv.1 keys) d.

(** [isinstance] tests on a decoded value. *)
Definition as_str (t : fjson) : dyn pystr := match t with FStr s => Inst s | _ => Foreign end.
Definition as_int (t : fjson) : dynint :=
  match t with FInt z => DInt z | FBool b => DBool b | _ => DNotInt end.
Definition is_text (s : pystr) (t : fjson) : bool :=
  match t with FStr s' => bool_decide (s' = s) | _ => false end.
Definition opt_value (t : fjson) : option fjson := match t with FNull => None | _ => Some t end.

(** A field given only when it is not [None]. *)
Definition opt_field {A} (k : string) (f : A -> fjson) (o : option A) : pydict :=
  match o with Some a => [(u k, f a)] | None => [] end.

Definition require_str (d : pydict) (key : string) : res pystr :=
  match dict_get (u key) d with
  | FStr (c :: s) => Ok (c :: s)
  | _ => Raise (ProtocolError (key ++ " must be a non-empty string")%string)
  end.

Definition optional_str (d : pydict) (key : string) : res (option pystr) :=
  match dict_get (u key) d with
  | FNull => Ok None
  | FStr (c :: s) => Ok (Some (c :: s))
  | _ => Raise (ProtocolError (key ++ " must be a non-empty string when provided")%string)
  end.

(** An [int], of which [bool] is a subclass. *)
Inductive pyint : Type := PInt (z : Z) | PBool (b : bool).

Definition pyint_json (n : pyint) : fjson := match n with PInt z => FInt z | PBool b => FBool b end.

Definition require_int (d : pydict) (key : string) : res pyint :=
  match dict_get (u key) d with
  | FInt z => Ok (PInt z)
  | FBool b => Ok (PBool b)
  | _ => Raise (ProtocolError (key ++ " must be an integer")%string)
  end.

(** [all(isinstance(item, str) for item in value)], with the strings. *)
Fixpoint strings_of (l : list fjson) : option (list pystr) :=
  match l with
  | [] => Some []
  | FStr s :: l' => cons s <$> strings_of l'
  | _ :: _ => None
  end.

Definition optional_str_list (d : pydict) (key : string) : res (list pystr) :=
  let err := ProtocolError (key ++ " must be a list of strings when provided")%string in
  match dict_lookup (u key) d with
  | None | Some FNull => Ok []
  | Some (FTuple l) => match strings_of l with Some ss => Ok ss | None => Raise err end
  | Some _ => Raise err
  end.

(** ** Messages *)

(** [str | int | None] *)
Inductive JsonRpcId : Type := IdNone | IdStr (s : pystr) | IdInt (n : pyint).

Definition id_json (i : JsonRpcId) : fjson :=
  match i with IdNone => FNull | IdStr s => FStr s | IdInt n => pyint_json n end.

Definition parse_id (t : fjson) : res JsonRpcId :=
  match t with
  | FNull => Ok IdNone
  | FStr s => Ok (IdStr s)
  | FInt z => Ok (IdInt (PInt z))
  | FBool b => Ok (IdInt (PBool b))
  | _ => Raise (ProtocolError "JSON-RPC id must be a string, integer, or null")
  end.

Record JsonRpcRequest := MkRequest {
  rq_method : pystr;
  rq_params : pydict;
  rq_id : JsonRpcId;
  rq_jsonrpc : pystr
}.

Record JsonRpcNotification := MkNotification {
  nt_method : pystr;
  nt_params : pydict;
  nt_jsonrpc : pystr
}.

Record JsonRpcError := MkRpcError {
  re_code : pyint;
  re_message : pystr;
  re_data : fjson
}.

Record JsonRpcResponse := MkResponse {
  rp_id : JsonRpcId;
  rp_result : fjson;
  rp_error : option JsonRpcError;
  rp_jsonrpc : pystr
}.

Inductive JsonRpcMessage : Type :=
| MRequest (r : JsonRpcRequest)
| MNotification (n : JsonRpcNotification)
| MResponse (r : JsonRpcResponse).

(** [if self.params: data["params"] = self.params] *)
Definition params_field (params : pydict) : pydict :=
  match params with [] => [] | _ => [(u "params", FMap params)] end.

Definition request_to_dict (r : JsonRpcRequest) : pydict :=
  [(u "jsonrpc", FStr (rq_jsonrpc r)); (u "id", id_json (rq_id r)); (u "method", FStr (rq_method r))]
  ++ params_field (rq_params r).

Definition notification_to_dict (n : JsonRpcNotification) : pydict :=
  [(u "jsonrpc", FStr (nt_jsonrpc n)); (u "method", FStr (nt_method n))] ++ params_field (nt_params n).

Definition error_to_dict (e : JsonRpcError) : pydict :=
  [(u "code", pyint_json (re_code e)); (u "message", FStr (re_message e))]
  ++ opt_field "data" id (opt_value (re_data e)).

Definition response_to_dict (r : JsonRpcResponse) : pydict :=
  [(u "jsonrpc", FStr (rp_jsonrpc r)); (u "id", id_json (rp_id r))]
  ++ match rp_error r with
     | Some e => [(u "error", FMap (error_to_dict e))]
     | None => [(u "result", rp_result r)]
     end.

Definition message_to_dict (m : JsonRpcMessage) : pydict :=
  match m with
  | MRequest r => request_to_dict r
  | MNotification n => notification_to_dict n
  | MResponse r => response_to_dict r
  end.

(** A loop over values that may raise. *)
Section Each.
Context {A : Type} (f : A -> res unit).
Fixpoint each (l : list A) : res unit :=
  match l with
  | [] => Ok tt
  | x :: l' => _ ← f x; each l'
  end.
End Each.

(** What [json.dumps] refuses, in the order of its walk: an integer of too
    many digits, and a container nested deeper than [depth]. *)
Fixpoint dumps_check (digits : Z) (depth : nat) (t : fjson) {struct t} : res unit :=
  match t with
  | FInt z => raise_if (negb (int_printable digits z)) (ValueError "Exceeds the limit for integer string conversion")
  | FTuple ts =>
      match depth with
      | O => Raise (RecursionError "while encoding a JSON object")
      | S depth' => each (dumps_check digits depth') ts
      end
  | FMap ts =>
      match depth with
      | O => Raise (RecursionError "while encoding a JSON object")
      | S depth' => each (fun '(_, t) => dumps_check digits depth' t) ts
      end
  | _ => Ok tt
  end.

(** [json.dumps(t, separators=(",", ":"))] of a tree. *)
Definition json_dumps (limits : json_limits) (t : fjson) : res pystr :=
  _ ← dumps_check limits (max_nesting limits) t; Ok (wire_dumps t).

Section Frames.
(** The interpreter's limits on JSON text. *)
Variable limits : json_limits.

(** The text is ASCII: its code points are its bytes. *)
Definition encode_message (m : JsonRpcMessage) : res (list Z) :=
  text ← json_dumps limits (FMap (message_to_dict m)); Ok (text ++ [10]).

Definition decode_error_object (error : fjson) : res JsonRpcError :=
  match error with
  | FMap e =>
      code ← require_int e "code";
      message ← require_str e "message";
      Ok (MkRpcError code message (dict_get (u "data") e))
  | _ => Raise (ProtocolError "JSON-RPC error must be an object")
  end.

(** [decode_message] once the text is a value. *)
Definition decode_value (value : fjson) : res JsonRpcMessage :=
  match value with
  | FMap raw =>
      _ ← raise_if (negb (is_text JSONRPC_VERSION (dict_get (u "jsonrpc") raw)))
            (ProtocolError "JSON-RPC frame must declare jsonrpc='2.0'");
      if has_key (u "method") raw then
        method ← require_str raw "method";
        params ← match dict_lookup (u "params") raw with
                 | None | Some FNull => Ok []
                 | Some (FMap p) => Ok p
                 | Some _ => Raise (ProtocolError "JSON-RPC params must be an object")
                 end;
        match dict_lookup (u "id") raw with
        | Some i => i' ← parse_id i; Ok (MRequest (MkRequest method params i' JSONRPC_VERSION))
        | None => Ok (MNotification (MkNotification method params JSONRPC_VERSION))
        end
      else
        match dict_lookup (u "id") raw with
        | None => Raise (ProtocolError "JSON-RPC response requires id")
        | Some i =>
            match dict_lookup (u "error") raw with
            | Some (FMap e) =>
                i' ← parse_id i;
                error ← decode_error_object (FMap e);
                Ok (MResponse (MkResponse i' FNull (Some error) JSONRPC_VERSION))
            | Some _ => Raise (ProtocolError "JSON-RPC error must be an object")
            | None =>
                match dict_lookup (u "result") raw with
                | None => Raise (ProtocolError "JSON-RPC response requires result or error")
                | Some result =>
                    i' ← parse_id i; Ok (MResponse (MkResponse i' result None JSONRPC_VERSION))
                end
            end
        end
  | _ => Raise (ProtocolError "JSON-RPC frame must be an object")
  end.

(** [line.decode("utf-8")] is outside the [try]. *)
Definition decode_message (line : text_or_bytes) : res JsonRpcMessage :=
  text ← match line with
         | Str s => Ok s
         | Bytes b =>
             match utf8_decode b with
             | Some s => Ok s
             | None => Raise (UnicodeDecodeError "'utf-8' codec can't decode bytes")
             end
         end;
  match loads limits text with
  | Ok value => decode_value value
  | Raise (JSONDecodeError _) => Raise (ProtocolError "invalid JSON-RPC frame")
  | Raise e => Raise e
  end.
End Frames.

(** ** Host ingress names *)

Definition slug_char (c : Z) : bool := is_lower c || is_digit c.

(** [[a-z][a-z0-9]*(?:-[a-z0-9]+)*\Z] *)
Definition HOST_INGRESS_NAME : re :=
  RCat (RChar is_lower)
    (RCat (RStar (RChar slug_char)) (RStar (RCat (RChar (Z.eqb 45)) (RPlus (RChar slug_char))))).

Definition validate_host_ingress_name (value : dyn pystr) : res pystr :=
  let slug := ProtocolError "host ingress name must be a lowercase slug" in
  match value with
  | Foreign => Raise slug
  | Inst s =>
      _ ← raise_if (negb (is_ascii s)) slug;
      _ ← raise_if (MAX_HOST_INGRESS_NAME_BYTES <? len s) (ProtocolError "host ingress name exceeds the size limit");
      _ ← raise_if (negb (re_match HOST_INGRESS_NAME s)) slug;
      Ok s
  end.

(** ** Host ingress payloads

    Containers of the store keep their class, which the validator tests. *)

Inductive pyobj : Type :=
| OList (items : list pyval)
| OTuple (items : list pyval)
| ODict (items : list (pyval * pyval)).

Abbreviation store := (gmap positive pyobj).

Definition bad_payload : exn := ProtocolError "host ingress payload must be valid JSON".

Section Payload.
Variable h : store.

(** [_validate_host_ingress_json]; [room] is [33 - depth], zero when [depth]
    is over the limit. *)
Fixpoint validate_host_ingress_json (room : nat) (value : pyval) : res unit :=
  match room with
  | O => Raise (ProtocolError "host ingress payload exceeds the nesting limit")
  | S room' =>
      match value with
      | VNone | VBool _ | VStr _ | VInt _ => Ok tt
      | VFloat f => raise_if (negb (isfinite f)) bad_payload
      | VRef l =>
          match h !! l with
          | Some (OList items) => each (validate_host_ingress_json room') items
          | Some (ODict items) =>
              each (fun kv => match kv.1 with
                              | VStr _ => validate_host_ingress_json room' kv.2
                              | _ => Raise bad_payload
                              end) items
          | _ => Raise bad_payload
          end
      | VOther => Raise bad_payload
      end
  end.

(** ** What [json.dumps] writes of a Python value *)

(** The string a dictionary key becomes. *)
Definition json_key (k : pyval) : option pystr :=
  match k with
  | VStr s => Some s
  | VInt z => Some (int_repr z)
  | VFloat f => Some (float_token f)
  | VBool b => Some (if b then u "true" else u "false")
  | VNone => Some (u "null")
  | _ => None
  end.

(** The tree written; [path] holds the containers being written, a repeated
    one is a circular reference.  One unit of fuel per container is enough. *)
Fixpoint json_tree (fuel : nat) (path : gset positive) (value : pyval) : res fjson :=
  match fuel with
  | O => Raise FuelExhausted
  | S fuel' =>
      match value with
      | VNone => Ok FNull
      | VBool b => Ok (FBool b)
      | VInt z => Ok (FInt z)
      | VFloat f => Ok (FFloat f)
      | VStr s => Ok (FStr s)
      | VOther => Raise (TypeError "Object is not JSON serializable")
      | VRef l =>
          match h !! l with
          | None => Raise (TypeError "Object is not JSON serializable")
          | Some obj =>
              _ ← raise_if (bool_decide (l ∈ path)) (ValueError "Circular reference detected");
              let path' := {[l]} ∪ path in
              match obj with
              | OList items | OTuple items => FTuple <$> traverse (json_tree fuel' path') items
              | ODict items =>
                  FMap <$> traverse (fun kv : pyval * pyval =>
                             match json_key kv.1 with
                             | Some k => t ← json_tree fuel' path' kv.2; Ok (k, t)
                             | None => Raise (TypeError "keys must be str, int, float, bool or None")
                             end) items
              end
          end
      end
  end.

Definition dumps_tree (value : pyval) : res fjson := json_tree (S (base.size h)) ∅ value.

(** [validate_host_ingress_payload]: the value returned is the argument. *)
Definition validate_host_ingress_payload (limits : json_limits) (value : pyval) : res pyval :=
  _ ← validate_host_ingress_json (S MAX_HOST_INGRESS_PAYLOAD_DEPTH) value;
  match dumps_tree value with
  | Raise _ => Raise bad_payload
  | Ok t =>
      match json_dumps limits t with
      | Raise _ => Raise bad_payload
      | Ok encoded =>
          _ ← raise_if (MAX_HOST_INGRESS_PAYLOAD_BYTES <? len encoded)
                (ProtocolError "host ingress payload exceeds the size limit");
          Ok value
      end
  end.
End Payload.

(** ** Trusted execution contexts *)

(** [len(value.encode("utf-8"))] *)
Definition utf8_size (s : pystr) : res Z :=
  match utf8 s with
  | Some b => Ok (len b)
  | None => Raise (ValueError "UnicodeEncodeError")
  end.

Definition context_error (field rest : string) : exn :=
  ProtocolError ("tool execution context " ++ field ++ rest)%string.

Definition require_context_string (value : dyn pystr) (field : string) (maximum : Z) : res pystr :=
  match value with
  | Inst (c :: s) =>
      n ← utf8_size (c :: s);
      _ ← raise_if (maximum <? n) (context_error field " exceeds the size limit");
      Ok (c :: s)
  | _ => Raise (context_error field " must be a non-empty string")
  end.

Definition optional_context_string (value : option (dyn pystr)) (field : string) : res (option pystr) :=
  match value with
  | None => Ok None
  | Some v => s ← require_context_string v field MAX_CONTEXT_IDENTIFIER_BYTES; Ok (Some s)
  end.

Definition require_aware_timestamp (value : dyn datetime) (field : string) : res datetime :=
  match value with
  | Foreign => Raise (context_error field " must be an RFC 3339 timestamp")
  | Inst d =>
      _ ← raise_if (is_naive d) (context_error field " must include a timezone");
      Ok d
  end.

Definition opt_aware (value : option (dyn datetime)) (field : string) : res (option datetime) :=
  match value with
  | None => Ok None
  | Some v => d ← require_aware_timestamp v field; Ok (Some d)
  end.

Record ToolExecutionTrigger := MkTrigger {
  tg_kind : pystr;
  tg_id : option pystr;
  tg_source_id : option pystr;
  tg_triggered_at : option datetime;
  tg_scheduled_for : option datetime
}.

(** [ToolExecutionTrigger.__post_init__] *)
Definition trigger_post_init (kind : dyn pystr) (id_ source_id : option (dyn pystr))
    (triggered_at scheduled_for : option (dyn datetime)) : res ToolExecutionTrigger :=
  let unsupported := ProtocolError "tool execution context trigger kind is not supported" in
  match kind with
  | Foreign => Raise unsupported
  | Inst k =>
      _ ← raise_if (negb (mem k SUPPORTED_TRIGGER_KINDS)) unsupported;
      n ← utf8_size k;
      _ ← raise_if (MAX_TRIGGER_KIND_BYTES <? n)
            (ProtocolError "tool execution context trigger kind exceeds the size limit");
      i ← optional_context_string id_ "trigger.id";
      s ← optional_context_string source_id "trigger.source_id";
      t ← opt_aware triggered_at "trigger.triggered_at";
      f ← opt_aware scheduled_for "trigger.scheduled_for";
      Ok (MkTrigger k i s t f)
  end.

Definition trigger_to_dict (t : ToolExecutionTrigger) : pydict :=
  [(u "kind", FStr (tg_kind t))]
  ++ opt_field "id" FStr (tg_id t)
  ++ opt_field "source_id" FStr (tg_source_id t)
  ++ opt_field "triggered_at" (fun d => FStr (isoformat d)) (tg_triggered_at t)
  ++ opt_field "scheduled_for" (fun d => FStr (isoformat d)) (tg_scheduled_for t).

(** [value.replace("Z", "+00:00")] *)
Definition replace_z (s : pystr) : pystr := s ≫= (fun c => if c =? 90 then u "+00:00" else [c]).

Section Contexts.
(** [datetime.fromisoformat], [None] for its [ValueError]. *)
Variable fromisoformat : pystr -> option datetime.
Variable limits : json_limits.

Definition parse_timestamp (value : option fjson) (field : string) : res (option datetime) :=
  let err := context_error field " must be an RFC 3339 timestamp" in
  match value with
  | None => Ok None
  | Some (FStr s) =>
      n ← utf8_size s;
      _ ← raise_if (MAX_CONTEXT_IDENTIFIER_BYTES <? n) err;
      match fromisoformat (replace_z s) with
      | None => Raise err
      | Some d => d' ← require_aware_timestamp (Inst d) field; Ok (Some d')
      end
  | Some _ => Raise err
  end.

Definition unknown_fields (d : pydict) (fields : list pystr) : bool :=
  negb (forallb (fun kv => mem kv.1 fields) d).

Definition trigger_from_dict (data : fjson) : res ToolExecutionTrigger :=
  match data with
  | FMap d =>
      _ ← raise_if (unknown_fields d TRIGGER_FIELDS)
            (ProtocolError "tool execution context trigger contains reserved or unknown fields");
      match dict_get (u "kind") d with
      | FStr kind =>
          i ← optional_context_string (as_str <$> opt_value (dict_get (u "id") d)) "trigger.id";
          s ← optional_context_string (as_str <$> opt_value (dict_get (u "source_id") d)) "trigger.source_id";
          t ← parse_timestamp (opt_value (dict_get (u "triggered_at") d)) "trigger.triggered_at";
          f ← parse_timestamp (opt_value (dict_get (u "scheduled_for") d)) "trigger.scheduled_for";
          trigger_post_init (Inst kind) (Inst <$> i) (Inst <$> s) (Inst <$> t) (Inst <$> f)
      | _ => Raise (ProtocolError "tool execution context trigger requires kind")
      end
  | _ => Raise (ProtocolError "tool execution context trigger must be an object")
  end.

Record ToolExecutionContext := MkContext {
  tc_invocation_id : pystr;
  tc_attempt : Z;
  tc_trigger : ToolExecutionTrigger;
  tc_idempotency_key : option pystr;
  tc_version : Z
}.

Definition tool_context_to_dict (c : ToolExecutionContext) : pydict :=
  [(u "version", FInt (tc_version c)); (u "invocation_id", FStr (tc_invocation_id c));
   (u "attempt", FInt (tc_attempt c)); (u "trigger", FMap (trigger_to_dict (tc_trigger c)))]
  ++ opt_field "idempotency_key" FStr (tc_idempotency_key c).

(** [len(json.dumps(data, separators=(",", ":")).encode("utf-8"))] *)
Definition encoded_size (d : pydict) : res Z :=
  text ← json_dumps limits (FMap d); Ok (len text).

Definition context_too_large : exn := ProtocolError "tool execution context exceeds the size limit".

(** [ToolExecutionContext.__post_init__] *)
Definition tool_context_post_init (version : dynint) (invocation_id : dyn pystr)
    (idempotency_key : option (dyn pystr)) (attempt : dynint) (trigger : dyn ToolExecutionTrigger)
    : res ToolExecutionContext :=
  v ← match version with
      | DInt v => _ ← raise_if (negb (v =? TOOL_EXECUTION_CONTEXT_VERSION))
                        (ProtocolError "unsupported tool execution context version"); Ok v
      | _ => Raise (ProtocolError "unsupported tool execution context version")
      end;
  i ← require_context_string invocation_id "invocation_id" MAX_CONTEXT_IDENTIFIER_BYTES;
  k ← optional_context_string idempotency_key "idempotency_key";
  a ← match attempt with
      | DInt a => _ ← raise_if (a <? 1)
                        (ProtocolError "tool execution context attempt must be a positive integer"); Ok a
      | _ => Raise (ProtocolError "tool execution context attempt must be a positive integer")
      end;
  match trigger with
  | Foreign => Raise (ProtocolError "tool execution context trigger must be a ToolExecutionTrigger")
  | Inst t =>
      let c := MkContext i a t k v in
      n ← encoded_size (tool_context_to_dict c);
      _ ← raise_if (MAX_TOOL_EXECUTION_CONTEXT_BYTES <? n) context_too_large;
      Ok c
  end.

Definition tool_context_from_dict (data : fjson) : res ToolExecutionContext :=
  match data with
  | FMap d =>
      n ← encoded_size d;
      _ ← raise_if (MAX_TOOL_EXECUTION_CONTEXT_BYTES <? n) context_too_large;
      _ ← raise_if (unknown_fields d CONTEXT_FIELDS)
            (ProtocolError "tool execution context contains reserved or unknown fields");
      match dict_get (u "version") d with
      | FInt v =>
          i ← require_context_string (as_str (dict_get (u "invocation_id") d)) "invocation_id"
                MAX_CONTEXT_IDENTIFIER_BYTES;
          match dict_get (u "attempt") d with
          | FInt a =>
              t ← trigger_from_dict (dict_get (u "trigger") d);
              k ← optional_context_string (as_str <$> opt_value (dict_get (u "idempotency_key") d))
                    "idempotency_key";
              tool_context_post_init (DInt v) (Inst i) (Inst <$> k) (DInt a) (Inst t)
          | _ => Raise (ProtocolError "tool execution context requires an integer attempt")
          end
      | _ => Raise (ProtocolError "tool execution context requires an integer version")
      end
  | _ => Raise (ProtocolError "tool execution context must be an object")
  end.
End Contexts.

(** ** Capability metadata *)

Record ToolExecutionContextCapabilities := MkContextCaps { cc_versions : list Z }.

(** [isinstance(version, bool) or not isinstance(version, int) or version < 1] *)
Definition positive_version (v : dynint) : option Z :=
  match v with DInt z => if z <? 1 then None else Some z | _ => None end.

Definition context_caps_post_init (versions : list dynint) : res ToolExecutionContextCapabilities :=
  let err := ProtocolError "tool execution context capability requires positive versions" in
  _ ← raise_if (bool_decide (length versions = 0%nat)) err;
  match mapM positive_version versions with
  | None => Raise err
  | Some vs =>
      _ ← raise_if (negb (no_dup vs))
            (ProtocolError "tool execution context capability versions must be unique");
      Ok (MkContextCaps vs)
  end.

Definition context_caps_to_dict (c : ToolExecutionContextCapabilities) : pydict :=
  [(u "versions", FTuple (FInt <$> cc_versions c))].

Definition context_caps_from_dict (data : fjson) : res ToolExecutionContextCapabilities :=
  let err := ProtocolError "tool execution context capability requires versions" in
  match data with
  | FMap d =>
      _ ← raise_if (negb (same_keys d [u "versions"])) err;
      match dict_get (u "versions") d with
      | FTuple vs => context_caps_post_init (as_int <$> vs)
      | _ => Raise (ProtocolError "tool execution context capability versions must be a list")
      end
  | _ => Raise err
  end.

Definition context_caps_supports (c : ToolExecutionContextCapabilities) (version : Z) : bool :=
  mem version (cc_versions c).

Record HostIngressCapabilities := MkIngressCaps { hi_names : list pystr; hi_version : Z }.

Definition ingress_caps_post_init (names : list pystr) (version : dynint) : res HostIngressCapabilities :=
  let unsupported := ProtocolError "unsupported host ingress capability version" in
  v ← match version with
      | DInt v => _ ← raise_if (negb (v =? HOST_INGRESS_VERSION)) unsupported; Ok v
      | _ => Raise unsupported
      end;
  _ ← raise_if (bool_decide (names = [])) (ProtocolError "host ingress capability requires names");
  _ ← raise_if (negb (no_dup names)) (ProtocolError "host ingress capability names must be unique");
  _ ← traverse (fun n => validate_host_ingress_name (Inst n)) names;
  Ok (MkIngressCaps names v).

Definition ingress_caps_to_dict (c : HostIngressCapabilities) : pydict :=
  [(u "version", FInt (hi_version c)); (u "names", FTuple (FStr <$> hi_names c))].

Definition ingress_caps_from_dict (data : fjson) : res HostIngressCapabilities :=
  let err := ProtocolError "host ingress capability requires version and names" in
  match data with
  | FMap d =>
      _ ← raise_if (negb (same_keys d [u "version"; u "names"])) err;
      match dict_get (u "version") d with
      | FInt v =>
          match dict_get (u "names") d with
          | FTuple l =>
              match strings_of l with
              | Some names => ingress_caps_post_init names (DInt v)
              | None => Raise (ProtocolError "host ingress capability names must be a list of strings")
              end
          | _ => Raise (ProtocolError "host ingress capability names must be a list of strings")
          end
      | _ => Raise (ProtocolError "host ingress capability version must be an integer")
      end
  | _ => Raise err
  end.

Definition ingress_caps_supports (c : HostIngressCapabilities) (name : pystr) : bool :=
  (hi_version c =? HOST_INGRESS_VERSION) && mem name (hi_names c).

Record ConfigTransitionCapabilities := MkTransitionCaps { ct_supports_live_apply : bool }.

Definition transition_caps_to_dict (c : ConfigTransitionCapabilities) : pydict :=
  [(u "prepare", FBool true); (u "supports_live_apply", FBool (ct_supports_live_apply c))].

(** The argument is a [dict]. *)
Definition transition_caps_from_dict (d : pydict) : res ConfigTransitionCapabilities :=
  match dict_get (u "prepare") d with
  | FBool true =>
      match dict_lookup (u "supports_live_apply") d with
      | None => Ok (MkTransitionCaps false)
      | Some (FBool b) => Ok (MkTransitionCaps b)
      | Some _ => Raise (ProtocolError "config_transition capability supports_live_apply must be a boolean")
      end
  | _ => Raise (ProtocolError "config_transition capability requires prepare=true")
  end.

(** [Literal["restart", "applied"]] *)
Inductive TransitionAction : Type := Restart | Applied.

#[global] Instance TransitionAction_eq_dec : EqDecision TransitionAction.
Proof. solve_decision. Defined.

Definition action_text (a : TransitionAction) : pystr :=
  match a with Restart => CONFIG_TRANSITION_RESTART | Applied => CONFIG_TRANSITION_APPLIED end.

Record ConfigTransitionResult := MkTransitionResult { tr_action : TransitionAction }.

Definition transition_result_to_dict (r : ConfigTransitionResult) : pydict :=
  [(u "action", FStr (action_text (tr_action r)))].

(** A list or a dict cannot be looked up in a set. *)
Definition transition_result_from_dict (d : pydict) : res ConfigTransitionResult :=
  let err := ProtocolError "config transition result requires a supported action" in
  match dict_get (u "action") d with
  | FStr s =>
      if bool_decide (s = CONFIG_TRANSITION_RESTART) then Ok (MkTransitionResult Restart)
      else if bool_decide (s = CONFIG_TRANSITION_APPLIED) then Ok (MkTransitionResult Applied)
      else Raise err
  | FTuple _ | FMap _ => Raise (TypeError "unhashable type")
  | _ => Raise err
  end.

(** ** Tool metadata *)

Record ToolMetadata := MkMetadata {
  tm_name : pystr;
  tm_description : pystr;
  tm_input_schema : pydict;
  tm_skill_id : option pystr;
  tm_version : option pystr;
  tm_capability_tags : list pystr;
  tm_permission_tags : list pystr;
  tm_category : option pystr;
  tm_command_prefix : option pystr
}.

(** [if self.tags: data[key] = list(self.tags)] *)
Definition tags_field (k : string) (tags : list pystr) : pydict :=
  match tags with [] => [] | _ => [(u k, FTuple (FStr <$> tags))] end.

Definition metadata_to_dict (m : ToolMetadata) : pydict :=
  [(u "name", FStr (tm_name m)); (u "description", FStr (tm_description m));
   (u "input_schema", FMap (tm_input_schema m))]
  ++ opt_field "skill_id" FStr (tm_skill_id m)
  ++ opt_field "version" FStr (tm_version m)
  ++ tags_field "capability_tags" (tm_capability_tags m)
  ++ tags_field "permission_tags" (tm_permission_tags m)
  ++ opt_field "category" FStr (tm_category m)
  ++ opt_field "command_prefix" FStr (tm_command_prefix m).

Definition metadata_from_dict (d : pydict) : res ToolMetadata :=
  let schema := match dict_lookup (u "input_schema") d with
                | Some v => v
                | None => dict_get (u "inputSchema") d
                end in
  match schema with
  | FMap input_schema =>
      name ← require_str d "name";
      description ← require_str d "description";
      skill_id ← optional_str d "skill_id";
      version ← optional_str d "version";
      capability_tags ← optional_str_list d "capability_tags";
      permission_tags ← optional_str_list d "permission_tags";
      category ← optional_str d "category";
      command_prefix ← optional_str d "command_prefix";
      Ok (MkMetadata name description input_schema skill_id version capability_tags permission_tags
            category command_prefix)
  | _ => Raise (ProtocolError "tool metadata requires input_schema")
  end.

(** ** Objects

    What [decode_message] hands on is a value made of fresh containers. *)

(** A Python value and the store it lives in. *)
Abbreviation object := (store * pyval)%type.

(** A decoded value as fresh objects. *)
Definition new_object (o : pyobj) (h : store) : pyval * store :=
  let l := fresh (dom h) in (VRef l, <[l := o]> h).

Fixpoint build (t : fjson) (h : store) : pyval * store :=
  match t with
  | FNull => (VNone, h)
  | FBool b => (VBool b, h)
  | FInt z => (VInt z, h)
  | FFloat f => (VFloat f, h)
  | FStr s => (VStr s, h)
  | FTuple ts =>
      let '(vs, h') :=
        foldr (fun t acc => let '(v, h') := build t acc.2 in (v :: acc.1, h')) ([], h) ts in
      new_object (OList vs) h'
  | FMap ts =>
      let '(kvs, h') :=
        foldr (fun kt acc => let '(v, h') := build kt.2 acc.2 in ((VStr kt.1, v) :: acc.1, h')) ([], h) ts in
      new_object (ODict kvs) h'
  end.

Definition object_of (t : fjson) : object := let '(v, h) := build t ∅ in (h, v).
