(* ===== verification/RpcProtocolProps.v ===== *)
(** * The isolated feature protocol: properties

    Frames and metadata round trip, decoding raises only known exceptions,
    and a host-ingress payload is accepted exactly when it is a bounded JSON
    value. *)

From stdpp Require Import gmap.
From S2P Require Export RpcProtocol.

(** ** Literal keys *)

Lemma u_inj a b : u a = u b -> a = b.
Proof.
  revert b; induction a as [|x a IH]; intros [|y b] H; try done. injection H as Hxy H.
  f_equal; [|by apply IH]. apply (f_equal Z.to_N) in Hxy. rewrite !N2Z.id in Hxy.
  by rewrite <- (Ascii.ascii_N_embedding x), <- (Ascii.ascii_N_embedding y), Hxy.
Qed.

Lemma dict_lookup_nil k : dict_lookup k [] = None.
Proof. done. Qed.

Lemma dict_lookup_literal a b v d :
  dict_lookup (u a) ((u b, v) :: d) = if String.eqb a b then Some v else dict_lookup (u a) d.
Proof.
  cbn [dict_lookup]. destruct (String.eqb_spec a b) as [->|Hn]; case_decide as H; try done.
  by apply u_inj in H.
Qed.

(** Evaluate lookups of literal keys. *)
Ltac lookup_keys :=
  unfold has_key, dict_get;
  repeat (rewrite ?dict_lookup_literal, ?dict_lookup_nil; cbn [String.eqb Ascii.eqb Bool.eqb app default bool_decide
    bool_decide_pack]).

(** ** Printed text is one line of printable ASCII *)

Definition printable_ascii (s : pystr) : Prop := Forall (fun c => 32 <= c <= 126) s.

Lemma printable_app s t : printable_ascii s -> printable_ascii t -> printable_ascii (s ++ t).
Proof. intros. by apply Forall_app. Qed.

Lemma printable_literal s : forallb (in_range 32 126) s = true -> printable_ascii s.
Proof.
  rewrite List.forallb_forall. intros H. apply list.Forall_forall. intros c Hc.
  apply list_elem_of_In, H in Hc. unfold in_range in Hc. lia.
Qed.

Lemma printable_digits n : 0 <= n -> printable_ascii (digits n).
Proof.
  intros Hn. eapply list.Forall_impl; [by apply digits_all|]. unfold is_digit, in_range. lia.
Qed.

Lemma printable_hex n : 0 <= n < 16 -> 32 <= hex_digit n <= 126.
Proof. unfold hex_digit. destruct (Z.ltb_spec n 10); lia. Qed.

Lemma printable_hex4 n : 0 <= n < 0x10000 -> printable_ascii (hex4 n).
Proof.
  intros Hn. apply printable_app; [by apply printable_literal|].
  repeat constructor; apply printable_hex; Z.to_euclidean_division_equations; lia.
Qed.

Lemma printable_escape c : 0 <= c <= 0x10FFFF -> printable_ascii (ascii_escape c).
Proof.
  intros Hc. unfold ascii_escape. destruct (Z.ltb_spec c 127).
  - assert (Hall : forallb (fun c => forallb (in_range 32 126) (json_escape c)) (seqZ 0 127) = true)
      by (vm_compute; reflexivity).
    rewrite List.forallb_forall in Hall. apply printable_literal, Hall, list_elem_of_In, elem_of_seqZ. lia.
  - destruct (Z.ltb_spec c 0x10000); [apply printable_hex4; lia|].
    apply printable_app; apply printable_hex4; Z.to_euclidean_division_equations; lia.
Qed.

Lemma printable_string s : Forall scalar_value s -> printable_ascii (string_with ascii_escape s).
Proof.
  intros Hs. apply printable_app; [by apply printable_literal|].
  apply printable_app; [|by apply printable_literal].
  induction Hs as [|c s [Hc _] _ IH]; [constructor|].
  change ((c :: s) ≫= ascii_escape) with (ascii_escape c ++ (s ≫= ascii_escape)).
  apply printable_app; [by apply printable_escape|done].
Qed.

Lemma printable_int z : printable_ascii (int_repr z).
Proof.
  unfold int_repr. destruct (Z.ltb_spec z 0); [|by apply printable_digits].
  apply printable_app; [by apply printable_literal|apply printable_digits; lia].
Qed.

Lemma printable_magnitude c e : 0 <= c -> printable_ascii (magnitude c e).
Proof.
  intros Hc. pose proof (printable_digits c Hc) as Hd. unfold magnitude.
  assert (Hz : forall n, printable_ascii (replicate n 48)) by (intros; by apply Forall_replicate).
  repeat case_match; repeat apply printable_app; try (by apply printable_literal); try done;
    try (by apply Forall_take); try (by apply Forall_drop); try constructor; apply printable_digits; lia.
Qed.

Lemma printable_float f : float_wf f -> printable_ascii (float_token f).
Proof.
  destruct f as [neg c e|[]|]; intros Hf; try by apply printable_literal.
  destruct Hf as [Hc _]. cbn [float_token]. rewrite float_repr_magnitude.
  apply printable_app; [destruct neg; by apply printable_literal|by apply printable_magnitude].
Qed.

Lemma printable_join l : Forall printable_ascii l -> printable_ascii (join (u ",") l).
Proof.
  induction 1 as [|x l Hx Hl IH]; [constructor|]. destruct l as [|y l]; [done|].
  rewrite join_cons2. repeat apply printable_app; [done|by apply printable_literal|done].
Qed.

Lemma each_Ok {A} (f : A -> res unit) l : each f l = Ok tt <-> Forall (fun x => f x = Ok tt) l.
Proof.
  induction l as [|x l IH]; cbn; [by split|]. rewrite bind_Ok, list.Forall_cons, <- IH. split.
  - by intros ([] & ? & ?).
  - intros [? ?]. by exists tt.
Qed.

Section Wire.
Context (limits : json_limits).

Lemma wire_dumps_printable t : wire_value limits t -> printable_ascii (wire_dumps t).
Proof.
  induction t as [t Hs|ts IH|ts IH] using fjson_tree_ind; intros Ht.
  - destruct t as [|[]|z|f|s|ts|ts]; try done; try by apply printable_literal.
    + apply printable_int.
    + by apply printable_float.
    + by apply printable_string.
  - apply wire_value_tuple in Ht. cbn [wire_dumps].
    repeat apply printable_app; try by apply printable_literal.
    apply printable_join, Forall_map. rewrite list.Forall_forall in *. intros x Hx. apply (IH x Hx), Ht, Hx.
  - apply wire_value_map in Ht as [_ Ht]. rewrite wire_dumps_map.
    repeat apply printable_app; try by apply printable_literal.
    apply printable_join, Forall_map. rewrite list.Forall_forall in *. intros [k t] Hx.
    destruct (Ht _ Hx) as [Hk Hv]. cbn [fst snd] in *.
    change (printable_ascii (string_with ascii_escape k ++ u ":" ++ wire_dumps t)).
    apply printable_app; [by apply printable_string|]. apply printable_app; [by apply printable_literal|].
    by apply (IH (k, t)).
Qed.

Lemma wire_value_check n t : wire_value limits t -> nests n t = true -> dumps_check limits n t = Ok tt.
Proof.
  revert n; induction t as [t Hs|ts IH|ts IH] using fjson_tree_ind; intros n Ht Hn.
  - destruct t; try done. cbn in Ht |- *. by rewrite Ht.
  - apply wire_value_tuple in Ht. apply nests_tuple in Hn as (m & -> & Hn). cbn. apply each_Ok.
    rewrite list.Forall_forall in *. intros x Hx. apply IH; auto.
  - apply wire_value_map in Ht as [_ Ht]. apply nests_map in Hn as (m & -> & Hn). cbn. apply each_Ok.
    rewrite list.Forall_forall in *. intros [k x] Hx. apply (IH (k, x) Hx); [apply (Ht (k, x) Hx)|apply (Hn (k, x) Hx)].
Qed.

Lemma wire_value_dumps t : wire_value limits t -> nests (max_nesting limits) t = true ->
  json_dumps limits t = Ok (wire_dumps t).
Proof. intros Ht Hn. unfold json_dumps. by rewrite wire_value_check. Qed.

Lemma utf8_decode_ascii s : Forall (fun c => 0 <= c < 128) s -> utf8_decode s = Some s.
Proof.
  induction 1 as [|c s Hc _ IH]; [done|]. cbn. replace (c <? 128) with true by lia. by rewrite IH.
Qed.

(** ** Frames *)

(** A message its frame carries unchanged: the constructor's version, a
    method, values JSON carries, nested no deeper than the interpreter reads
    and writes, and a response with a result or an error. *)
Definition message_ok (m : JsonRpcMessage) : Prop :=
  (wire_value limits (FMap (message_to_dict m)) /\ nests (max_nesting limits) (FMap (message_to_dict m)) = true)
  /\ match m with
     | MRequest r => rq_jsonrpc r = JSONRPC_VERSION /\ rq_method r <> []
     | MNotification n => nt_jsonrpc n = JSONRPC_VERSION /\ nt_method n <> []
     | MResponse r =>
         rp_jsonrpc r = JSONRPC_VERSION
         /\ match rp_error r with Some e => rp_result r = FNull /\ re_message e <> [] | None => True end
     end.

(** The same, decided. *)
Definition text_ok_b (s : pystr) : bool := forallb (fun c => in_range 0 0x10FFFF c && negb (is_surrogate c)) s.

Fixpoint wire_value_b (t : fjson) : bool :=
  match t with
  | FStr s => text_ok_b s
  | FInt z => int_printable limits z
  | FFloat (FFin neg c e) => (0 <=? c) && bool_decide (float_of_decimal neg c e = FFin neg c e)
  | FTuple ts => forallb wire_value_b ts
  | FMap ts => no_dup ts.*1 && forallb (fun '(k, t) => text_ok_b k && wire_value_b t) ts
  | _ => true
  end.

Definition message_ok_b (m : JsonRpcMessage) : bool :=
  wire_value_b (FMap (message_to_dict m)) && nests (max_nesting limits) (FMap (message_to_dict m))
  && match m with
     | MRequest r => bool_decide (rq_jsonrpc r = JSONRPC_VERSION) && negb (bool_decide (rq_method r = []))
     | MNotification n => bool_decide (nt_jsonrpc n = JSONRPC_VERSION) && negb (bool_decide (nt_method n = []))
     | MResponse r =>
         bool_decide (rp_jsonrpc r = JSONRPC_VERSION)
         && match rp_error r with
            | Some e => match rp_result r with FNull => true | _ => false end && negb (bool_decide (re_message e = []))
            | None => true
            end
     end.

Lemma forallb_in {A} (p : A -> bool) l : forallb p l = true -> forall x, x ∈ l -> p x = true.
Proof. rewrite List.forallb_forall. intros H x Hx. by apply H, list_elem_of_In. Qed.

Lemma text_ok_b_ok s : text_ok_b s = true -> Forall scalar_value s.
Proof.
  intros H. apply list.Forall_forall. intros c Hc. apply (forallb_in _ _ H) in Hc.
  apply andb_true_iff in Hc as [Hc Hs]. unfold in_range in Hc. split; [lia|by apply negb_true_iff].
Qed.

Lemma wire_value_b_ok t : wire_value_b t = true -> wire_value limits t.
Proof.
  induction t as [t Ht | ts IH | ts IH] using fjson_tree_ind; intros H.
  - destruct t as [| | |[neg c e| |]| | |]; try done.
    + cbn in H |- *. apply andb_prop in H as [H1 H2]. apply bool_decide_eq_true in H2. split; [lia|done].
    + by apply text_ok_b_ok.
  - apply wire_value_tuple. rewrite list.Forall_forall in *. intros t Ht.
    apply IH; [done|]. by apply (forallb_in _ _ H).
  - apply wire_value_map. cbn in H. apply andb_prop in H as [H1 H2]. split; [by apply no_dup_true|].
    rewrite list.Forall_forall in *. intros [k t] Ht. specialize (IH _ Ht). apply (forallb_in _ _ H2) in Ht.
    apply andb_true_iff in Ht as [? ?]. split; [by apply text_ok_b_ok|by apply IH].
Qed.

Lemma message_ok_b_ok m : message_ok_b m = true -> message_ok m.
Proof.
  unfold message_ok_b. intros H. apply andb_prop in H as [Hw H]. apply andb_prop in Hw as [Hw Hd].
  split; [split; [by apply wire_value_b_ok|done]|].
  destruct m as [r|n|r]; [..|destruct (rp_error r); [destruct (rp_result r) eqn:?|]]; bool_hyps; try done; auto.
Qed.

Lemma parse_id_json i : parse_id (id_json i) = Ok i.
Proof. by destruct i as [| |[]]. Qed.

Lemma decode_value_dict m : message_ok m -> decode_value (FMap (message_to_dict m)) = Ok m.
Proof.
  intros [_ Hm]. destruct m as [[method params i v]|[method params v]|[i result error v]]; cbn in Hm.
  - destruct Hm as [-> Hn]. destruct method as [|c method]; [done|].
    unfold message_to_dict, request_to_dict. cbn [rq_method rq_params rq_id rq_jsonrpc decode_value].
    destruct params as [|kv params]; cbn [params_field]; unfold require_str; lookup_keys;
      rewrite parse_id_json; reflexivity.
  - destruct Hm as [-> Hn]. destruct method as [|c method]; [done|].
    unfold message_to_dict, notification_to_dict. cbn [nt_method nt_params nt_jsonrpc decode_value].
    destruct params as [|kv params]; cbn [params_field]; unfold require_str; lookup_keys; reflexivity.
  - destruct Hm as [-> Hn]. unfold message_to_dict, response_to_dict.
    cbn [rp_id rp_result rp_error rp_jsonrpc decode_value].
    destruct error as [[code message data]|]; lookup_keys; rewrite parse_id_json; [|reflexivity].
    destruct Hn as [-> Hn]. cbn in Hn. destruct message as [|c message]; [done|].
    cbn [re_code re_message re_data error_to_dict decode_error_object]. unfold require_int, require_str.
    destruct code, data; cbn [opt_value opt_field pyint_json]; lookup_keys; reflexivity.
Qed.

(** A well-formed message comes back from its frame. *)
Lemma decode_frame m : message_ok m ->
  decode_message limits (Bytes (wire_dumps (FMap (message_to_dict m)) ++ [10])) = Ok m.
Proof.
  intros Hm. pose proof (proj1 Hm) as [Hw Hd]. unfold decode_message. rewrite utf8_decode_ascii.
  - cbn [mbind result_bind]. rewrite loads_dumps by done. by apply decode_value_dict.
  - apply Forall_app. split; [|by repeat constructor].
    eapply list.Forall_impl; [exact (wire_dumps_printable _ Hw)|]. cbn. lia.
Qed.

(** C32. A frame carries its message: the encoding of a well-formed message
    succeeds, is one line of printable ASCII ended by its only newline, and
    decodes to the message. *)
Theorem message_roundtrip m (Hm : message_ok m) :
  exists text, encode_message limits m = Ok (text ++ [10]) /\ printable_ascii text
    /\ decode_message limits (Bytes (text ++ [10])) = Ok m.
Proof.
  pose proof (proj1 Hm) as [Hw Hd].
  exists (wire_dumps (FMap (message_to_dict m))). unfold encode_message.
  rewrite wire_value_dumps by done. split; [done|]. split; [by apply wire_dumps_printable|].
  by apply decode_frame.
Qed.

(** What a frame that is not a message raises: a [ProtocolError], or the
    exceptions of decoding that the [try] does not cover. *)
Definition frame_error (e : exn) : Prop :=
  (exists m, e = ProtocolError m) \/ (exists m, e = UnicodeDecodeError m)
  \/ e = ValueError "Exceeds the limit for integer string conversion" \/ e = too_deep_to_read.

Class OnlyProtocol {A} (m : res A) : Prop := only_protocol : forall e, m = Raise e -> exists t, e = ProtocolError t.

#[global] Instance only_protocol_Ok {A} (a : A) : OnlyProtocol (Ok a).
Proof. by intros e [=]. Qed.

#[global] Instance only_protocol_raise {A} t : OnlyProtocol (A := A) (Raise (ProtocolError t)).
Proof. intros e [= <-]. eauto. Qed.

#[global] Instance only_protocol_if b t : OnlyProtocol (raise_if b (ProtocolError t)).
Proof. intros e H. apply raise_if_Raise in H as [_ <-]. eauto. Qed.

#[global] Instance only_protocol_bind {A B} (m : res A) (f : A -> res B) :
  OnlyProtocol m -> (forall a, OnlyProtocol (f a)) -> OnlyProtocol (m ≫= f).
Proof. intros Hm Hf e H. apply bind_Raise in H as [H|(a & _ & H)]; [by apply Hm|by apply (Hf a)]. Qed.

#[global] Instance only_protocol_str d k : OnlyProtocol (require_str d k).
Proof. unfold require_str. repeat case_match; apply _. Qed.

#[global] Instance only_protocol_int d k : OnlyProtocol (require_int d k).
Proof. unfold require_int. repeat case_match; apply _. Qed.

#[global] Instance only_protocol_id t : OnlyProtocol (parse_id t).
Proof. unfold parse_id. repeat case_match; apply _. Qed.

#[global] Instance only_protocol_error_object t : OnlyProtocol (decode_error_object t).
Proof. unfold decode_error_object. repeat case_match; apply _. Qed.

#[global] Instance only_protocol_value t : OnlyProtocol (decode_value t).
Proof.
  unfold decode_value. destruct t; try apply _. apply only_protocol_bind; [apply _|]. intros _.
  repeat first [case_match | apply _ | apply only_protocol_bind; [|intros]].
Qed.
End Wire.

Theorem decode_message_errors (limits : json_limits) line e (He : decode_message limits line = Raise e) :
  ((exists m, e = ProtocolError m)
   \/ (exists m b, e = UnicodeDecodeError m /\ line = Bytes b /\ utf8_decode b = None)
   \/ e = ValueError "Exceeds the limit for integer string conversion" \/ e = too_deep_to_read).
Proof.
  unfold decode_message in He. apply bind_Raise in He as [He|(text & _ & He)].
  { destruct line as [b|s]; [|done]. destruct (utf8_decode b) eqn:Hb; [done|]. injection He as <-.
    right; left. eauto. }
  destruct (loads limits text) as [v|e'] eqn:Hl.
  - left. by apply only_protocol_value in He.
  - apply loads_errors in Hl as [[m ->]|[-> | ->]]; [left; injection He as <-; by eexists|..];
      right; right; [left|right]; by injection He as <-.
Qed.

(** ** Dictionaries written field by field *)

Lemma dict_lookup_app k d1 d2 :
  dict_lookup k (d1 ++ d2) = match dict_lookup k d1 with Some v => Some v | None => dict_lookup k d2 end.
Proof. induction d1 as [|[k' v] d1 IH]; [done|]. cbn. by case_decide. Qed.

Lemma dict_lookup_opt {A} a b (f : A -> fjson) o :
  dict_lookup (u a) (opt_field b f o) = if String.eqb a b then f <$> o else None.
Proof. destruct o as [x|]; cbn [opt_field]; [rewrite dict_lookup_literal|]; by destruct (String.eqb a b). Qed.

Lemma dict_lookup_tags a b l :
  dict_lookup (u a) (tags_field b l)
  = if String.eqb a b then match l with [] => None | _ => Some (FTuple (FStr <$> l)) end else None.
Proof. destruct l as [|x l]; cbn [tags_field]; [|rewrite dict_lookup_literal]; by destruct (String.eqb a b). Qed.

Lemma option_match_id {A} (o : option A) : match o with Some v => Some v | None => None end = o.
Proof. by destruct o. Qed.

(** Evaluate a lookup of a literal key in such a dictionary. *)
Ltac lookup_fields :=
  unfold has_key, dict_get;
  repeat (rewrite ?dict_lookup_app, ?dict_lookup_literal, ?dict_lookup_nil, ?dict_lookup_opt, ?dict_lookup_tags,
            ?option_match_id;
          cbn [String.eqb Ascii.eqb Bool.eqb]).

Lemma strings_of_texts l : strings_of (FStr <$> l) = Some l.
Proof. induction l as [|s l IH]; [done|]. cbn. by rewrite IH. Qed.

(** A text that is absent or not empty. *)
Definition opt_nonempty (o : option pystr) : Prop := o <> Some [].

Lemma optional_str_field d key o :
  dict_lookup (u key) d = FStr <$> o -> opt_nonempty o -> optional_str d key = Ok o.
Proof.
  intros H Ho. unfold optional_str, dict_get. rewrite H. destruct o as [[|c s]|]; [|done..].
  by exfalso; apply Ho.
Qed.

Lemma optional_tags_field d key l :
  dict_lookup (u key) d = match l with [] => None | _ => Some (FTuple (FStr <$> l)) end ->
  optional_str_list d key = Ok l.
Proof.
  intros H. unfold optional_str_list. rewrite H. destruct l as [|s l]; [done|].
  by rewrite (strings_of_texts (s :: l)).
Qed.

Lemma require_str_field d key c s : dict_lookup (u key) d = Some (FStr (c :: s)) -> require_str d key = Ok (c :: s).
Proof. intros H. unfold require_str, dict_get. by rewrite H. Qed.

(** A tool's metadata that its dictionary carries unchanged. *)
Definition metadata_ok (m : ToolMetadata) : Prop :=
  tm_name m <> [] /\ tm_description m <> []
  /\ opt_nonempty (tm_skill_id m) /\ opt_nonempty (tm_version m)
  /\ opt_nonempty (tm_category m) /\ opt_nonempty (tm_command_prefix m).

(** Tool metadata round trips through its wire dictionary. *)
Theorem metadata_roundtrip m (Hm : metadata_ok m) : metadata_from_dict (metadata_to_dict m) = Ok m.
Proof.
  destruct m as [name description schema skill version ctags ptags category prefix].
  destruct Hm as (Hn & Hd & Hs & Hv & Hc & Hp). cbn in *.
  destruct name as [|n name]; [done|]. destruct description as [|d description]; [done|].
  unfold metadata_from_dict, metadata_to_dict.
  cbn [tm_name tm_description tm_input_schema tm_skill_id tm_version tm_capability_tags tm_permission_tags
       tm_category tm_command_prefix].
  lookup_fields.
  rewrite (require_str_field _ "name" n name) by (lookup_fields; reflexivity).
  cbn [mbind result_bind].
  rewrite (require_str_field _ "description" d description) by (lookup_fields; reflexivity). cbn [mbind result_bind].
  rewrite (optional_str_field _ "skill_id" skill) by (done || (lookup_fields; by destruct skill)).
  cbn [mbind result_bind].
  rewrite (optional_str_field _ "version" version) by (done || (lookup_fields; by destruct version)).
  cbn [mbind result_bind].
  rewrite (optional_tags_field _ "capability_tags" ctags) by (lookup_fields; by destruct ctags).
  cbn [mbind result_bind].
  rewrite (optional_tags_field _ "permission_tags" ptags) by (lookup_fields; by destruct ptags).
  cbn [mbind result_bind].
  rewrite (optional_str_field _ "category" category) by (done || (lookup_fields; by destruct category)).
  cbn [mbind result_bind].
  rewrite (optional_str_field _ "command_prefix" prefix) by (done || (lookup_fields; by destruct prefix)).
  done.
Qed.

(** ** Trusted execution contexts *)

(** The text of a datetime: short, ASCII, without the letter Z. *)
Definition iso_text (n : nat) (s : pystr) : Prop :=
  (length s <= n)%nat /\ Forall (fun c => 0 <= c < 128 /\ c <> 90) s.

Lemma iso_text_app a b s t : iso_text a s -> iso_text b t -> iso_text (a + b) (s ++ t).
Proof. intros [? ?] [? ?]. split; [rewrite length_app; lia|by apply Forall_app]. Qed.

Lemma iso_text_weaken a b s : (a <= b)%nat -> iso_text a s -> iso_text b s.
Proof. intros ? [? ?]. split; [lia|done]. Qed.

Lemma iso_text_literal n s :
  Nat.leb (length s) n && forallb (fun c => in_range 0 127 c && negb (c =? 90)) s = true -> iso_text n s.
Proof.
  intros [Hn%Nat.leb_le H]%andb_true_iff. split; [done|]. rewrite List.forallb_forall in H. apply list.Forall_forall. intros c Hc.
  apply list_elem_of_In, H in Hc. unfold in_range in Hc. lia.
Qed.

Lemma iso_text_zfill k n : iso_text k (zfill k n).
Proof.
  revert n; induction k as [|k IH]; intros n; cbn [zfill].
  { split; [done|constructor]. }
  replace (S k) with (k + 1)%nat by lia.
  apply iso_text_app; [apply IH|]. split; [done|]. repeat constructor; Z.to_euclidean_division_equations; lia.
Qed.

Lemma iso_text_nil n : iso_text n [].
Proof. split; [cbn; lia|constructor]. Qed.

Lemma iso_text_offset off : iso_text 16 (iso_offset off).
Proof.
  unfold iso_offset.
  apply (iso_text_app 1 15); [by case_match; apply iso_text_literal|].
  apply (iso_text_app 2 13); [apply iso_text_zfill|].
  apply (iso_text_app 1 12); [by apply iso_text_literal|].
  apply (iso_text_app 2 10); [apply iso_text_zfill|].
  case_match; [apply iso_text_nil|].
  apply (iso_text_app 1 9); [by apply iso_text_literal|].
  apply (iso_text_app 2 7); [apply iso_text_zfill|].
  case_match; [apply iso_text_nil|].
  apply (iso_text_app 1 6); [by apply iso_text_literal|apply iso_text_zfill].
Qed.

Lemma iso_text_time us : iso_text 15 (iso_time us).
Proof.
  unfold iso_time.
  apply (iso_text_app 2 13); [apply iso_text_zfill|].
  apply (iso_text_app 1 12); [by apply iso_text_literal|].
  apply (iso_text_app 2 10); [apply iso_text_zfill|].
  apply (iso_text_app 1 9); [by apply iso_text_literal|].
  apply (iso_text_app 2 7); [apply iso_text_zfill|].
  case_match; [apply iso_text_nil|].
  apply (iso_text_app 1 6); [by apply iso_text_literal|apply iso_text_zfill].
Qed.

Lemma iso_text_datetime d : iso_text 42 (isoformat d).
Proof.
  unfold isoformat. destruct (ord2ymd _) as [[y m] dd].
  apply (iso_text_app 4 38); [apply iso_text_zfill|].
  apply (iso_text_app 1 37); [by apply iso_text_literal|].
  apply (iso_text_app 2 35); [apply iso_text_zfill|].
  apply (iso_text_app 1 34); [by apply iso_text_literal|].
  apply (iso_text_app 2 32); [apply iso_text_zfill|].
  apply (iso_text_app 1 31); [by apply iso_text_literal|].
  apply (iso_text_app 15 16); [apply iso_text_time|].
  destruct (dt_off d); [apply iso_text_offset|apply iso_text_nil].
Qed.

Lemma iso_text_replace n s : iso_text n s -> replace_z s = s.
Proof.
  intros [_ H]. unfold replace_z. induction H as [|c s [_ Hc] _ IH]; [done|].
  cbn. replace (c =? 90) with false by lia. cbn. by f_equal.
Qed.

Lemma iso_text_size n s : iso_text n s -> exists k, utf8_size s = Ok k /\ k <= Z.of_nat n.
Proof.
  intros [Hl H]. exists (len s). split; [|unfold len; lia]. unfold utf8_size.
  replace (utf8 s) with (Some s); [done|]. clear Hl. induction H as [|c s [Hc _] _ IH]; [done|].
  cbn. unfold utf8_char. replace (c <? 128) with true by lia. cbn. by rewrite <- IH.
Qed.

(** Two timestamps that read the same: wall clock and offset. *)
Definition same_reading (d d' : datetime) : Prop := dt_wall d' = dt_wall d /\ dt_off d' = dt_off d.

Lemma same_reading_iso d d' : same_reading d d' -> isoformat d' = isoformat d.
Proof. intros [Hw Ho]. unfold isoformat. by rewrite Hw, Ho. Qed.

Definition opt_reading (o o' : option datetime) : Prop :=
  match o, o' with
  | None, None => True
  | Some d, Some d' => same_reading d d'
  | _, _ => False
  end.

Section Contexts.
Context (fromisoformat : pystr -> option datetime) (limits : json_limits).

(** [datetime.fromisoformat] inverts [isoformat] on the timestamp, up to the
    identity of the zone object. *)
Definition reads_back (d : datetime) : Prop :=
  exists d', fromisoformat (isoformat d) = Some d' /\ same_reading d d'.

Lemma parse_timestamp_iso o field :
  (forall d, o = Some d -> reads_back d) -> (forall d, o = Some d -> is_naive d = false) ->
  exists o', parse_timestamp fromisoformat ((fun d => FStr (isoformat d)) <$> o) field = Ok o' /\ opt_reading o o'.
Proof.
  intros Hiso Ha. destruct o as [d|]; [|by exists None]. destruct (Hiso d eq_refl) as (d' & Hd' & Hs).
  exists (Some d'). split; [|done]. cbn [fmap option_fmap option_map parse_timestamp].
  pose proof (iso_text_datetime d) as Ht. destruct (iso_text_size _ _ Ht) as (k & -> & Hk).
  cbn [mbind result_bind]. replace (MAX_CONTEXT_IDENTIFIER_BYTES <? k) with false
    by (unfold MAX_CONTEXT_IDENTIFIER_BYTES; lia). cbn [raise_if].
  rewrite (iso_text_replace 42), Hd' by done. cbn. unfold is_naive.
  destruct Hs as [_ Hoff]. rewrite Hoff. specialize (Ha d eq_refl). unfold is_naive in Ha. by rewrite Ha.
Qed.

(** A trigger as its constructor leaves it. *)
Definition trigger_built (t : ToolExecutionTrigger) : Prop :=
  trigger_post_init (Inst (tg_kind t)) (Inst <$> tg_id t) (Inst <$> tg_source_id t) (Inst <$> tg_triggered_at t)
    (Inst <$> tg_scheduled_for t) = Ok t.

Definition trigger_same (t t' : ToolExecutionTrigger) : Prop :=
  tg_kind t' = tg_kind t /\ tg_id t' = tg_id t /\ tg_source_id t' = tg_source_id t
  /\ opt_reading (tg_triggered_at t) (tg_triggered_at t') /\ opt_reading (tg_scheduled_for t) (tg_scheduled_for t').

Lemma opt_aware_Ok o f : opt_aware (Inst <$> o) f = Ok o <-> (forall d, o = Some d -> is_naive d = false).
Proof.
  destruct o as [d|]; [|split; [by intros _ d [=]|done]]. cbn. destruct (is_naive d) eqn:E; cbn.
  - split; [done|]. intros H. specialize (H d eq_refl). congruence.
  - split; [|done]. intros _ d' [= <-]. done.
Qed.

Lemma trigger_built_iff t :
  trigger_built t <->
  mem (tg_kind t) SUPPORTED_TRIGGER_KINDS = true
  /\ optional_context_string (Inst <$> tg_id t) "trigger.id" = Ok (tg_id t)
  /\ optional_context_string (Inst <$> tg_source_id t) "trigger.source_id" = Ok (tg_source_id t)
  /\ (forall d, tg_triggered_at t = Some d -> is_naive d = false)
  /\ (forall d, tg_scheduled_for t = Some d -> is_naive d = false).
Proof.
  unfold trigger_built. destruct t as [k i s a b]. cbn [tg_kind tg_id tg_source_id tg_triggered_at tg_scheduled_for].
  split.
  - unfold trigger_post_init. intros H. inv_ok.
    rewrite opt_aware_Ok in *. bool_hyps. by rewrite mem_true.
  - intros (Hk & Hi & Hs & Ha & Hb). unfold trigger_post_init. rewrite Hk.
    assert (Hsize : exists n, utf8_size k = Ok n /\ (MAX_TRIGGER_KIND_BYTES <? n) = false).
    { apply mem_true in Hk. unfold SUPPORTED_TRIGGER_KINDS in Hk.
      repeat (apply elem_of_cons in Hk as [->|Hk]; [eexists; split; vm_compute; reflexivity|]).
      by apply elem_of_nil in Hk. }
    destruct Hsize as (n & -> & Hn). cbn [negb raise_if mbind result_bind]. rewrite Hn.
    cbn [raise_if mbind result_bind]. rewrite Hi. cbn [mbind result_bind]. rewrite Hs. cbn [mbind result_bind].
    rewrite (proj2 (opt_aware_Ok a _)) by done. cbn [mbind result_bind].
    by rewrite (proj2 (opt_aware_Ok b _)).
Qed.

Lemma as_str_field o : as_str <$> opt_value (default FNull (FStr <$> o)) = Inst <$> o.
Proof. by destruct o. Qed.

Lemma opt_iso_field o :
  opt_value (default FNull ((fun d => FStr (isoformat d)) <$> o)) = (fun d => FStr (isoformat d)) <$> o.
Proof. by destruct o. Qed.

Lemma forallb_opt_field {A} (p : pystr * fjson -> bool) k (f : A -> fjson) o :
  (forall v, p (u k, v) = true) -> forallb p (opt_field k f o) = true.
Proof. intros Hp. destruct o; [|done]. cbn. by rewrite Hp. Qed.

(** The timestamps of a trigger. *)
Definition timestamp_of (t : ToolExecutionTrigger) (d : datetime) : Prop :=
  tg_triggered_at t = Some d \/ tg_scheduled_for t = Some d.

Lemma trigger_roundtrip t : (forall d, timestamp_of t d -> reads_back d) -> trigger_built t ->
  exists t', trigger_from_dict fromisoformat (FMap (trigger_to_dict t)) = Ok t'
    /\ trigger_same t t' /\ trigger_built t'.
Proof.
  intros Hiso Ht. pose proof Ht as (Hk & Hi & Hs & Ha & Hb)%trigger_built_iff.
  destruct (parse_timestamp_iso (tg_triggered_at t) "trigger.triggered_at") as (a' & Pa & Sa);
    [intros d Hd; apply Hiso; by left|done|].
  destruct (parse_timestamp_iso (tg_scheduled_for t) "trigger.scheduled_for") as (b' & Pb & Sb);
    [intros d Hd; apply Hiso; by right|done|].
  assert (Hn : forall o o', opt_reading o o' -> (forall d, o = Some d -> is_naive d = false) ->
                 forall d, o' = Some d -> is_naive d = false).
  { intros [d|] [d'|] Hr Ho; try done. intros ? [= <-]. destruct Hr as [_ Hr]. unfold is_naive. rewrite Hr.
    by apply Ho. }
  set (t' := MkTrigger (tg_kind t) (tg_id t) (tg_source_id t) a' b').
  assert (Ht' : trigger_built t').
  { apply trigger_built_iff. split_and!; [done..|exact (Hn _ _ Sa Ha)|exact (Hn _ _ Sb Hb)]. }
  exists t'. split; [|by split_and!]. unfold trigger_from_dict, trigger_to_dict.
  assert (Hu : unknown_fields (trigger_to_dict t) TRIGGER_FIELDS = false).
  { unfold unknown_fields, trigger_to_dict. rewrite !forallb_app, !forallb_opt_field; done. }
  unfold trigger_to_dict in Hu. rewrite Hu. cbn [raise_if mbind result_bind].
  lookup_fields.
  change (default FNull (Some (FStr (tg_kind t)))) with (FStr (tg_kind t)). cbv iota beta.
  rewrite !as_str_field, !opt_iso_field, Hi. cbn [mbind result_bind]. rewrite Hs. cbn [mbind result_bind].
  rewrite Pa. cbn [mbind result_bind]. rewrite Pb. cbn [mbind result_bind]. exact Ht'.
Qed.

(** The context agrees up to the zone objects of its timestamps. *)
Definition context_same (c c' : ToolExecutionContext) : Prop :=
  tc_invocation_id c' = tc_invocation_id c /\ tc_attempt c' = tc_attempt c
  /\ trigger_same (tc_trigger c) (tc_trigger c')
  /\ tc_idempotency_key c' = tc_idempotency_key c /\ tc_version c' = tc_version c.

Lemma trigger_same_dict t t' : trigger_same t t' -> trigger_to_dict t' = trigger_to_dict t.
Proof.
  destruct t as [k i s a b], t' as [k' i' s' a' b']. intros (Hk & Hi & Hs & Ha & Hb). cbn in *. subst.
  unfold trigger_to_dict. cbn.
  assert (Hf : forall key o o', opt_reading o o' ->
            opt_field key (fun d => FStr (isoformat d)) o' = opt_field key (fun d => FStr (isoformat d)) o).
  { intros key [d|] [d'|]; try done. cbn. intros Hd. by rewrite (same_reading_iso d d'). }
  by rewrite (Hf _ _ _ Ha), (Hf _ _ _ Hb).
Qed.

(** A context as its constructor leaves it, the trigger included. *)
Definition context_built (c : ToolExecutionContext) : Prop :=
  trigger_built (tc_trigger c)
  /\ tool_context_post_init limits (DInt (tc_version c)) (Inst (tc_invocation_id c)) (Inst <$> tc_idempotency_key c)
       (DInt (tc_attempt c)) (Inst (tc_trigger c)) = Ok c.

Lemma tool_context_built_Ok v i k a t c :
  tool_context_post_init limits (DInt v) (Inst i) (Inst <$> k) (DInt a) (Inst t) = Ok c <->
  c = MkContext i a t k v /\ v = TOOL_EXECUTION_CONTEXT_VERSION
  /\ require_context_string (Inst i) "invocation_id" MAX_CONTEXT_IDENTIFIER_BYTES = Ok i
  /\ optional_context_string (Inst <$> k) "idempotency_key" = Ok k
  /\ 1 <= a
  /\ exists n, encoded_size limits (tool_context_to_dict c) = Ok n /\ n <= MAX_TOOL_EXECUTION_CONTEXT_BYTES.
Proof.
  assert (Hreq : forall s f m r, require_context_string (Inst s) f m = Ok r -> r = s).
  { intros s f m r H. destruct s as [|x s]; [done|]. cbn [require_context_string] in H. inv_ok. done. }
  assert (Hopt : forall o f r, optional_context_string (Inst <$> o) f = Ok r -> r = o).
  { intros [s|] f r H; [|by injection H]. cbn [fmap option_fmap option_map optional_context_string] in H. inv_ok.
    f_equal. by eapply Hreq. }
  unfold tool_context_post_init. split.
  - intros H. inv_ok. bool_hyps. pose proof (Hreq _ _ _ _ Hm0). pose proof (Hopt _ _ _ Hm1). subst.
    split_and!; try done. eexists. split; [done|]. lia.
  - intros (-> & -> & Hi & Hk & Ha & n & Hn & Hle). rewrite Z.eqb_refl. cbn [negb raise_if mbind result_bind].
    rewrite Hi. cbn [mbind result_bind]. rewrite Hk. cbn [mbind result_bind].
    replace (a <? 1) with false by lia. cbn [raise_if mbind result_bind]. rewrite Hn. cbn [mbind result_bind].
    by replace (MAX_TOOL_EXECUTION_CONTEXT_BYTES <? n) with false by lia.
Qed.

(** A trusted execution context round trips: what a host puts on the wire,
    the service rebuilds as the same context, up to the identity of the zone
    objects of its timestamps. *)
Theorem tool_context_roundtrip c (Hiso : forall d, timestamp_of (tc_trigger c) d -> reads_back d)
    (Hc : context_built c) :
  exists c', tool_context_from_dict fromisoformat limits (FMap (tool_context_to_dict c)) = Ok c'
    /\ context_same c c' /\ context_built c'.
Proof.
  destruct Hc as [Ht Hp]. pose proof (trigger_roundtrip _ Hiso Ht) as (t' & Pt & St & Bt).
  apply tool_context_built_Ok in Hp as (_ & Hv & Hi & Hk & Ha & n & Hn & Hle).
  set (c' := MkContext (tc_invocation_id c) (tc_attempt c) t' (tc_idempotency_key c) (tc_version c)).
  assert (Hd : tool_context_to_dict c' = tool_context_to_dict c).
  { unfold tool_context_to_dict, c'.
    cbn [tc_invocation_id tc_attempt tc_trigger tc_idempotency_key tc_version]. by rewrite (trigger_same_dict _ _ St). }
  assert (Hp' : tool_context_post_init limits (DInt (tc_version c)) (Inst (tc_invocation_id c))
                  (Inst <$> tc_idempotency_key c) (DInt (tc_attempt c)) (Inst t') = Ok c').
  { apply tool_context_built_Ok. split_and!; try done. exists n. by rewrite Hd. }
  exists c'. split; [|by split_and!]. unfold tool_context_from_dict. rewrite Hn. cbn [mbind result_bind].
  replace (MAX_TOOL_EXECUTION_CONTEXT_BYTES <? n) with false by lia. cbn [raise_if mbind result_bind].
  assert (Hu : unknown_fields (tool_context_to_dict c) CONTEXT_FIELDS = false).
  { unfold unknown_fields, tool_context_to_dict. by rewrite forallb_app, forallb_opt_field. }
  rewrite Hu. cbn [raise_if mbind result_bind]. clear Hd Hu Hn. unfold tool_context_to_dict. lookup_fields.
  change (default FNull (Some ?x)) with x. cbv iota beta. cbn [as_str]. rewrite Hi. cbn [mbind result_bind].
  change (default FNull (Some ?x)) with x. cbv iota beta. rewrite Pt. cbn [mbind result_bind].
  rewrite as_str_field, Hk. cbn [mbind result_bind]. exact Hp'.
Qed.
End Contexts.

(** ** Host ingress payloads *)

Lemma Forall_exists2 {A B} (R : A -> B -> Prop) l :
  Forall (fun x => exists y, R x y) l <-> exists ys, Forall2 R l ys.
Proof.
  split.
  - induction 1 as [|x l [y Hy] _ [ys IH]]; [by exists []|]. exists (y :: ys). by constructor.
  - intros [ys H]. induction H; constructor; eauto.
Qed.

(** Nodes of a tree. *)
Fixpoint tree_nodes (t : fjson) : nat :=
  match t with
  | FTuple ts => S (foldr (fun t n => (tree_nodes t + n)%nat) 0%nat ts)
  | FMap ts => S (foldr (fun kt n => (tree_nodes kt.2 + n)%nat) 0%nat ts)
  | _ => 1%nat
  end.

Lemma tree_nodes_elem ts t : t ∈ ts -> (tree_nodes t < tree_nodes (FTuple ts))%nat.
Proof.
  intros H. cbn. induction ts as [|t' ts IH]; [by apply elem_of_nil in H|].
  apply elem_of_cons in H as [->|H]; cbn; [lia|]. specialize (IH H). lia.
Qed.

Lemma tree_nodes_member ts kt : kt ∈ ts -> (tree_nodes kt.2 < tree_nodes (FMap ts))%nat.
Proof.
  intros H. cbn. induction ts as [|t' ts IH]; [by apply elem_of_nil in H|].
  apply elem_of_cons in H as [->|H]; cbn; [lia|]. specialize (IH H). lia.
Qed.

Section Ingress.
Context (h : store).

(** The value spells a JSON tree of at most [n] nested levels: lists and
    string-keyed dicts down to finite scalars. *)
Fixpoint spells (n : nat) (v : pyval) (t : fjson) : Prop :=
  match n with
  | O => False
  | S n' =>
      match v with
      | VNone => t = FNull
      | VBool b => t = FBool b
      | VInt z => t = FInt z
      | VFloat f => isfinite f = true /\ t = FFloat f
      | VStr s => t = FStr s
      | VOther => False
      | VRef l =>
          match h !! l with
          | Some (OList items) => exists ts, t = FTuple ts /\ Forall2 (spells n') items ts
          | Some (ODict items) =>
              exists ts, t = FMap ts /\ Forall2 (fun kv kt => kv.1 = VStr kt.1 /\ spells n' kv.2 kt.2) items ts
          | _ => False
          end
      end
  end.

Lemma validate_spells n v : validate_host_ingress_json h n v = Ok tt <-> exists t, spells n v t.
Proof.
  revert v; induction n as [|n IH]; intros v; [split; [done|by intros [t []]]|].
  destruct v as [|b|z|f|s|l|]; cbn; try (split; [by eexists|done]).
  - rewrite raise_if_Ok, negb_false_iff. split; [by eexists|by intros (t & ? & _)].
  - destruct (h !! l) as [[items|items|items]|]; try (split; [done|by intros [t []]]).
    + rewrite each_Ok. setoid_rewrite IH. rewrite Forall_exists2. split.
      * intros [ts Hts]. by exists (FTuple ts), ts.
      * intros (t & ts & -> & Hts). by exists ts.
    + rewrite each_Ok. transitivity (exists ts, Forall2 (fun kv kt => kv.1 = VStr kt.1 /\ spells n kv.2 kt.2) items ts).
      * rewrite <- Forall_exists2. apply Forall_iff. intros [k v]. cbn. destruct k; try (split; [done|by intros ([] & [=] & _)]).
        rewrite IH. split; [intros [t Ht]; by exists (s, t)|intros ([s' t] & _ & Ht); by exists t].
      * split; [intros [ts Hts]; by exists (FMap ts), ts|intros (t & ts & -> & Hts); by exists ts].
  - split; [done|by intros [t []]].
Qed.

Lemma Forall2_fun {A B} (R R' : A -> B -> Prop) l ys ys' :
  (forall x y y', R x y -> R' x y' -> y = y') -> Forall2 R l ys -> Forall2 R' l ys' -> ys = ys'.
Proof.
  intros HR H. revert ys'. induction H as [|x y l ys Hxy _ IH]; intros ys' H'; inversion H'; subst; [done|].
  f_equal; eauto.
Qed.

Lemma Forall2_impl_in {A B} (R Q : A -> B -> Prop) l k :
  Forall2 R l k -> (forall x y, x ∈ l -> y ∈ k -> R x y -> Q x y) -> Forall2 Q l k.
Proof.
  induction 1 as [|x y l k Hxy _ IH]; intros H; constructor; [apply H; [by left|by left|done]|].
  apply IH. intros. apply H; [by right|by right|done].
Qed.

Lemma spells_fun n n' v t t' : spells n v t -> spells n' v t' -> t = t'.
Proof.
  revert n' v t t'; induction n as [|n IH]; intros [|n'] v t t' H H'; try done.
  destruct v as [|b|z|f|s|l|]; cbn in H, H'; try congruence.
  - destruct H, H'. congruence.
  - destruct (h !! l) as [[items|items|items]|]; try done.
    + destruct H as (ts & -> & H), H' as (ts' & -> & H'). f_equal. eapply Forall2_fun; [|exact H|exact H'].
      cbn. intros. by eapply IH.
    + destruct H as (ts & -> & H), H' as (ts' & -> & H'). f_equal. eapply Forall2_fun; [|exact H|exact H'].
      cbn. intros kv [k t] [k' t'] [Hk Ht] [Hk' Ht']. cbn in *. f_equal; [congruence|by eapply IH].
  - done.
Qed.

(** Writing a value that spells a tree: no container repeats on a path, since
    a container inside itself would spell a tree inside itself. *)
Lemma spells_json_tree n v t path fuel :
  spells n v t -> (forall l, l ∈ path -> exists m tl, spells m (VRef l) tl /\ (tree_nodes t < tree_nodes tl)%nat) ->
  path ⊆ dom h -> (base.size h < fuel + base.size path)%nat -> json_tree h fuel path v = Ok t.
Proof.
  revert v t path fuel; induction n as [|n IH]; intros v t path fuel Ht Hp Hd Hf; [done|].
  pose proof (subseteq_size path (dom h) Hd) as Hs. rewrite size_dom in Hs.
  destruct fuel as [|fuel]; [lia|].
  destruct v as [|b|z|f|s|l|]; cbn in Ht; try (subst t; done); try (destruct Ht as [_ ->]; done); try done.
  assert (Hfun : spells (S n) (VRef l) t) by done.
  destruct (h !! l) as [obj|] eqn:Hl; [|done]. cbn [json_tree]. rewrite Hl.
  assert (Hlp : l ∉ path).
  { intros Hin. destruct (Hp l Hin) as (m & tl & Htl & Hlt). rewrite (spells_fun _ _ _ _ _ Hfun Htl) in Hlt. lia. }
  rewrite bool_decide_false by done. cbn [raise_if mbind result_bind].
  assert (Hd' : {[l]} ∪ path ⊆ dom h) by (apply elem_of_dom_2 in Hl; set_solver).
  assert (Hf' : (base.size h < fuel + base.size ({[l]} ∪ path))%nat) by (rewrite size_union, size_singleton by set_solver; lia).
  assert (Hp' : forall t', (tree_nodes t' < tree_nodes t)%nat -> forall l', l' ∈ {[l]} ∪ path ->
                exists m tl, spells m (VRef l') tl /\ (tree_nodes t' < tree_nodes tl)%nat).
  { intros t' Hlt l' [->%elem_of_singleton|Hl']%elem_of_union; [by exists (S n), t|].
    destruct (Hp l' Hl') as (m & tl & ? & ?). exists m, tl. split; [done|lia]. }
  destruct obj as [items|items|items]; [| done |].
  - destruct Ht as (ts & -> & Ht).
    assert (Htr : traverse (json_tree h fuel ({[l]} ∪ path)) items = Ok ts); [|by rewrite Htr].
    apply traverse_Ok. eapply Forall2_impl_in; [exact Ht|]. intros x y Hx Hy Hxy.
    apply IH; [done|apply Hp', (tree_nodes_elem _ _ Hy)|done|done].
  - destruct Ht as (ts & -> & Ht).
    match goal with |- context [traverse ?f items] => assert (Htr : traverse f items = Ok ts) end; [|by rewrite Htr].
    apply traverse_Ok. eapply Forall2_impl_in; [exact Ht|]. intros [k x] [k' y] Hx Hy [Hk Hxy]. cbn in *. subst k.
    cbn [json_key]. rewrite (IH x y); [done|done|apply Hp', (tree_nodes_member _ _ Hy)|done|done].
Qed.

Lemma spells_dumps n v t : spells n v t -> dumps_tree h v = Ok t.
Proof.
  intros Ht. apply (spells_json_tree n); [done|set_solver|set_solver|]. rewrite size_empty. lia.
Qed.

(** A host-ingress payload is accepted exactly when it is a JSON value -
    lists and string-keyed dicts of finite scalars - of at most 32 levels below
    the root whose compact text is at most 64 KiB; the value itself is
    returned, and every refusal is a [ProtocolError]: a cyclic payload is
    refused, never followed without end. *)
Theorem host_ingress_payload_exact (limits : json_limits) v :
  (forall v', validate_host_ingress_payload h limits v = Ok v' <->
     v' = v /\ exists t s, spells 33 v t /\ json_dumps limits t = Ok s /\ len s <= 64 * 1024)
  /\ (forall e, validate_host_ingress_payload h limits v = Raise e -> exists m, e = ProtocolError m).
Proof.
  unfold validate_host_ingress_payload. change (S MAX_HOST_INGRESS_PAYLOAD_DEPTH) with 33%nat. split.
  - intros v'. rewrite bind_Ok. split.
    + intros ([] & Hv & H). apply validate_spells in Hv as [t Ht]. rewrite (spells_dumps _ _ _ Ht) in H.
      destruct (json_dumps limits t) as [s|] eqn:Hd; [|done].
      inv_ok. bool_hyps. split; [done|]. exists t, s. unfold MAX_HOST_INGRESS_PAYLOAD_BYTES in *. by split_and!.
    + intros (-> & t & s & Ht & Hd & Hs). exists tt. split; [by apply validate_spells; eexists|].
      rewrite (spells_dumps _ _ _ Ht), Hd. unfold MAX_HOST_INGRESS_PAYLOAD_BYTES.
      by replace (64 * 1024 <? len s) with false by lia.
  - intros e H. apply bind_Raise in H as [H|(_ & _ & H)].
    + revert v H. generalize 33%nat as n. induction n as [|n IH]; intros v H; [injection H as <-; by eexists|].
      cbn in H. destruct v as [|b|z|f|s|l|]; try done; try (injection H as <-; by eexists).
      * apply raise_if_Raise in H as [_ <-]. by eexists.
      * destruct (h !! l) as [[items|items|items]|]; try (injection H as <-; by eexists).
        -- induction items as [|x items IHi]; [done|]. cbn in H. apply bind_Raise in H as [H|(_ & _ & H)]; eauto.
        -- induction items as [|[k x] items IHi]; [done|]. cbn in H.
           apply bind_Raise in H as [H|(_ & _ & H)]; [|by apply IHi]. cbn in H. destruct k; eauto; by injection H as <-; eexists.
    + destruct (dumps_tree h v); [|injection H as <-; by eexists].
      destruct (json_dumps limits _); [|injection H as <-; by eexists].
      apply bind_Raise in H as [H|(_ & _ & H)]; [apply raise_if_Raise in H as [_ <-]; by eexists|done].
Qed.
End Ingress.

(** ** Witnesses *)

Definition sample_request : JsonRpcMessage :=
  MRequest (MkRequest TOOLS_CALL
    [(u "name", FStr [0x1F600; 10]); (u "arguments", FMap [(u "x", FTuple [FInt (-5); FFloat (FFin false 15 (-1)); FNull])])]
    (IdInt (PInt 7)) JSONRPC_VERSION).

Lemma message_roundtrip_witness :
  exists text, encode_message sample_limits sample_request = Ok (text ++ [10])
    /\ decode_message sample_limits (Bytes (text ++ [10])) = Ok sample_request.
Proof.
  destruct (message_roundtrip sample_limits sample_request) as (text & H1 & _ & H2); [|by exists text].
  apply message_ok_b_ok. vm_compute. reflexivity.
Defined.

Definition noon : datetime := utc_datetime (738000 * day_us + 12 * hour_us).

Definition noon_context : ToolExecutionContext :=
  MkContext (u "inv-1") 2 (MkTrigger (u "scheduler") (Some (u "occ-1")) None (Some noon) None) (Some (u "key-1")) 1.

Definition noon_iso (s : pystr) : option datetime :=
  if bool_decide (s = u "2021-07-30T12:00:00+00:00") then Some noon else None.

Lemma tool_context_roundtrip_witness :
  exists c', tool_context_from_dict noon_iso sample_limits (FMap (tool_context_to_dict noon_context)) = Ok c'
    /\ context_same noon_context c'.
Proof.
  destruct (tool_context_roundtrip noon_iso sample_limits noon_context) as (c' & H1 & H2 & _).
  - intros d [[= <-]|[=]]. exists noon. split; [vm_compute; reflexivity|by split].
  - split; vm_compute; reflexivity.
  - exists c'. exact (conj H1 H2).
Defined.
