(* ===== verification/RpcService.v ===== *)
(** * The isolated feature service ([kestrel_sdk/isolated_feature/service.py])

    The service's registries and lifecycle flags, the dispatch of one request
    and the serve loop.  Feature code - the [configure] and
    [on_config_transition] hooks and the registered handlers - is outside the
    repository: dispatch stops at its call and resumes with its outcome.  The
    loop is a step relation, because handlers run as concurrent tasks: a step is
    what one of them does between two points where it waits - for feature code,
    for the write lock, for the writer's [drain] - and any write or drain may
    fail.  The cancellation of [serve] itself from outside is not modelled. *)

From stdpp Require Import gmap.
From S2P Require Export RpcProtocolProps.

(** ** State *)

(** A handler by name; what it does is an outcome of the steps below. *)
Inductive callable : Type := Handler (id_ : positive) | NotCallable.

Record Service := MkService {
  sv_name : pystr;
  sv_version : pystr;
  sv_protocol_version : pystr;
  sv_tools : list (pystr * ToolMetadata);
  sv_handlers : gmap pystr positive;
  sv_host_ingress_handlers : list (pystr * positive);
  sv_stopping : bool;
  sv_host_config : pydict;
  sv_channel_capability : option pydict;
  sv_has_inbound_producer : option bool;
  sv_inbound_frozen : bool;
  sv_config_transition_capabilities : option ConfigTransitionCapabilities;
  sv_restart_required : bool;
  sv_tool_execution_context_capabilities : option ToolExecutionContextCapabilities
}.

Definition service_init (name version protocol_version : pystr) : Service :=
  MkService name version protocol_version [] ∅ [] false [] None None false None false
    (Some (MkContextCaps [TOOL_EXECUTION_CONTEXT_VERSION])).

(** [d[k] = v] for any values. *)
Fixpoint assoc_set {A} (k : pystr) (v : A) (l : list (pystr * A)) : list (pystr * A) :=
  match l with
  | [] => [(k, v)]
  | (k', v') :: l' => if decide (k = k') then (k, v) :: l' else (k', v') :: assoc_set k v l'
  end.

Fixpoint assoc_get {A} (k : pystr) (l : list (pystr * A)) : option A :=
  match l with
  | [] => None
  | (k', v) :: l' => if decide (k = k') then Some v else assoc_get k l'
  end.

Definition set_stopping (s : Service) : Service :=
  MkService (sv_name s) (sv_version s) (sv_protocol_version s) (sv_tools s) (sv_handlers s)
    (sv_host_ingress_handlers s) true (sv_host_config s) (sv_channel_capability s)
    (sv_has_inbound_producer s) (sv_inbound_frozen s) (sv_config_transition_capabilities s)
    (sv_restart_required s) (sv_tool_execution_context_capabilities s).

Definition set_restart_required (s : Service) : Service :=
  MkService (sv_name s) (sv_version s) (sv_protocol_version s) (sv_tools s) (sv_handlers s)
    (sv_host_ingress_handlers s) (sv_stopping s) (sv_host_config s) (sv_channel_capability s)
    (sv_has_inbound_producer s) (sv_inbound_frozen s) (sv_config_transition_capabilities s)
    true (sv_tool_execution_context_capabilities s).

Definition set_host_config (c : pydict) (s : Service) : Service :=
  MkService (sv_name s) (sv_version s) (sv_protocol_version s) (sv_tools s) (sv_handlers s)
    (sv_host_ingress_handlers s) (sv_stopping s) c (sv_channel_capability s)
    (sv_has_inbound_producer s) (sv_inbound_frozen s) (sv_config_transition_capabilities s)
    (sv_restart_required s) (sv_tool_execution_context_capabilities s).

Definition set_inbound (p : option bool) (frozen : bool) (s : Service) : Service :=
  MkService (sv_name s) (sv_version s) (sv_protocol_version s) (sv_tools s) (sv_handlers s)
    (sv_host_ingress_handlers s) (sv_stopping s) (sv_host_config s) (sv_channel_capability s)
    p frozen (sv_config_transition_capabilities s) (sv_restart_required s)
    (sv_tool_execution_context_capabilities s).

(** ** Registration and advertisement *)

Definition advertise_channel (channel_type send_tool : pystr) (status_tool : option pystr) (s : Service)
    : Service :=
  let capability := [(u "channel_type", FStr channel_type); (u "send_tool", FStr send_tool)]
                    ++ opt_field "status_tool" FStr status_tool in
  MkService (sv_name s) (sv_version s) (sv_protocol_version s) (sv_tools s) (sv_handlers s)
    (sv_host_ingress_handlers s) (sv_stopping s) (sv_host_config s) (Some capability)
    (sv_has_inbound_producer s) (sv_inbound_frozen s) (sv_config_transition_capabilities s)
    (sv_restart_required s) (sv_tool_execution_context_capabilities s).

Definition advertise_inbound_producer (has_producer : dyn bool) (s : Service) : res Service :=
  match has_producer with
  | Foreign => Raise (TypeError "has_producer must be a bool")
  | Inst b =>
      _ ← raise_if (sv_inbound_frozen s && negb (bool_decide (sv_has_inbound_producer s = Some b)))
            (RuntimeError "inbound producer declaration is negotiated at initialize");
      Ok (set_inbound (Some b) (sv_inbound_frozen s) s)
  end.

Definition advertise_config_transition (supports_live_apply : bool) (s : Service) : Service :=
  MkService (sv_name s) (sv_version s) (sv_protocol_version s) (sv_tools s) (sv_handlers s)
    (sv_host_ingress_handlers s) (sv_stopping s) (sv_host_config s) (sv_channel_capability s)
    (sv_has_inbound_producer s) (sv_inbound_frozen s) (Some (MkTransitionCaps supports_live_apply))
    (sv_restart_required s) (sv_tool_execution_context_capabilities s).

Definition register_tool (metadata : ToolMetadata) (handler : positive) (s : Service) : Service :=
  MkService (sv_name s) (sv_version s) (sv_protocol_version s)
    (assoc_set (tm_name metadata) metadata (sv_tools s)) (<[tm_name metadata := handler]> (sv_handlers s))
    (sv_host_ingress_handlers s) (sv_stopping s) (sv_host_config s) (sv_channel_capability s)
    (sv_has_inbound_producer s) (sv_inbound_frozen s) (sv_config_transition_capabilities s)
    (sv_restart_required s) (sv_tool_execution_context_capabilities s).

Definition register_host_ingress (name : dyn pystr) (handler : callable) (s : Service) : res Service :=
  validated ← validate_host_ingress_name name;
  match handler with
  | NotCallable => Raise (TypeError "host ingress handler must be callable")
  | Handler f =>
      Ok (MkService (sv_name s) (sv_version s) (sv_protocol_version s) (sv_tools s) (sv_handlers s)
            (assoc_set validated f (sv_host_ingress_handlers s)) (sv_stopping s) (sv_host_config s)
            (sv_channel_capability s) (sv_has_inbound_producer s) (sv_inbound_frozen s)
            (sv_config_transition_capabilities s) (sv_restart_required s)
            (sv_tool_execution_context_capabilities s))
  end.

Definition get_tools (s : Service) : list ToolMetadata := (sv_tools s).*2.

Definition health (s : Service) : pydict :=
  if sv_restart_required s
  then [(u "status", FStr (u "restart-required")); (u "ready", FBool false)]
  else [(u "status", FStr (u "ready")); (u "ready", FBool true)].

(** ** Failures and outcomes

    An exception as the request handler tells them apart, with [str(exc)]. *)

Inductive failure : Type := ProtocolFailure (text : pystr) | OtherFailure (text : pystr).

(** [str(e)] of the exceptions the protocol functions raise. *)
Definition exn_text (e : exn) : pystr :=
  match e with
  | TypeError m | ValueError m | RuntimeError m | ProtocolError m | UnicodeDecodeError m => u m
  | _ => []
  end.

Definition failure_of (e : exn) : failure :=
  match e with ProtocolError m => ProtocolFailure (u m) | _ => OtherFailure (exn_text e) end.

Abbreviation attempt := (result failure).

Definition checked {A} (m : res A) : attempt A :=
  match m with Ok a => Ok a | Raise e => Raise (failure_of e) end.

Definition refuse {A} (m : string) : attempt A := Raise (ProtocolFailure (u m)).

(** What feature code does when it is called. *)
Inductive outcome : Type :=
| Returned (v : object)
| ReturnedTransition (r : ConfigTransitionResult)
| Failed (f : failure)
| CancelledInside.

(** The calls to feature code at which dispatch waits: a coroutine of the
    handler, or a worker thread that may start it later. *)
Inductive feature_call : Type :=
| CallConfigure (config : pydict)
| CallTransition (next_config : pydict)
| CallTool (handler : positive) (arguments : pydict) (context : option ToolExecutionContext)
| CallIngress (handler : positive) (payload : fjson).

(** ** Dispatch *)

(** The result of a request: a dictionary the service builds, or the value a
    handler returned. *)
Inductive reply : Type := RTree (t : fjson) | RObject (o : object).

(** Dispatch until it answers or waits for feature code. *)
Inductive begun : Type :=
| Answered (r : attempt reply)
| Waits (c : feature_call).

Definition method_is (m : pystr) (r : JsonRpcRequest) : bool := bool_decide (rq_method r = m).

Section Service.
(** [repr] of a decoded value, [datetime.fromisoformat], and the interpreter's
    limits on JSON text. *)
Variable py_repr : fjson -> pystr.
Variable fromisoformat : pystr -> option datetime.
Variable limits : json_limits.

Definition capabilities (s : Service) : attempt pydict :=
  ingress ← match sv_host_ingress_handlers s with
            | [] => Ok []
            | hs =>
                c ← checked (ingress_caps_post_init hs.*1 (DInt HOST_INGRESS_VERSION));
                Ok [(HOST_INGRESS_CAPABILITY, FMap (ingress_caps_to_dict c))]
            end;
  Ok ([(u "tools", FBool true); (u "events", FBool true)]
      ++ match sv_channel_capability s with Some c => [(u "channel", FMap c)] | None => [] end
      ++ match sv_has_inbound_producer s with
         | Some b => [(INBOUND_PRODUCER_CAPABILITY, FBool b)] | None => [] end
      ++ match sv_config_transition_capabilities s with
         | Some c => [(CONFIG_TRANSITION_CAPABILITY, FMap (transition_caps_to_dict c))] | None => [] end
      ++ match sv_tool_execution_context_capabilities s with
         | Some c => [(TOOL_EXECUTION_CONTEXT_CAPABILITY, FMap (context_caps_to_dict c))] | None => [] end
      ++ ingress).

(** [on_initialize] once [configure] has run, or was not needed. *)
Definition initialized (s : Service) : Service * attempt reply :=
  match capabilities s with
  | Raise f => (s, Raise f)
  | Ok caps =>
      (set_inbound (sv_has_inbound_producer s) true s,
       Ok (RTree (FMap [(u "protocolVersion", FStr (sv_protocol_version s));
                        (u "serverInfo", FMap [(u "name", FStr (sv_name s)); (u "version", FStr (sv_version s))]);
                        (u "capabilities", FMap caps)])))
  end.

Definition on_initialize (params : pydict) (s : Service) : Service * begun :=
  let requested := dict_get (u "protocolVersion") params in
  if negb (is_text (sv_protocol_version s) requested) then
    (s, Answered (Raise (ProtocolFailure (u "unsupported protocolVersion " ++ py_repr requested
                                          ++ u "; expected " ++ py_repr (FStr (sv_protocol_version s))))))
  else
    match dict_get (u "config") params with
    | FMap config => (set_host_config config s, Waits (CallConfigure config))
    | _ => let '(s', r) := initialized s in (s', Answered r)
    end.

(** The checks of [tools/call], down to the handler of [call_tool]. *)
Definition begin_tool_call (params : pydict) (s : Service) : attempt feature_call :=
  _ ← raise_if (sv_restart_required s) (ProtocolFailure (u "service is awaiting restart"));
  match dict_get (u "name") params with
  | FStr (c :: name) =>
      arguments ← match dict_lookup (u "arguments") params with
                  | None | Some FNull => Ok []
                  | Some (FMap a) => Ok a
                  | Some _ => refuse "tools/call arguments must be an object"
                  end;
      context ← match dict_lookup TOOL_EXECUTION_CONTEXT params with
                | None => Ok None
                | Some data =>
                    match sv_tool_execution_context_capabilities s with
                    | None => refuse "tool execution context is not supported"
                    | Some caps =>
                        context ← checked (tool_context_from_dict fromisoformat limits data);
                        _ ← raise_if (negb (context_caps_supports caps (tc_version context)))
                              (ProtocolFailure (u "tool execution context version is not supported"));
                        Ok (Some context)
                    end
                end;
      match sv_handlers s !! (c :: name) with
      | None => Raise (ProtocolFailure (u "unknown tool: " ++ c :: name))
      | Some f => Ok (CallTool f arguments context)
      end
  | _ => refuse "tools/call requires name"
  end.

(** The checks of [host/ingress], down to the handler of
    [call_host_ingress]. *)
Definition begin_host_ingress (params : pydict) (s : Service) : attempt feature_call :=
  _ ← raise_if (sv_stopping s || sv_restart_required s) (ProtocolFailure (u "host ingress is unavailable"));
  _ ← raise_if (negb (same_keys params [u "name"; u "payload"]))
        (ProtocolFailure (u "host ingress request is invalid"));
  name ← checked (validate_host_ingress_name (as_str (dict_get (u "name") params)));
  match assoc_get name (sv_host_ingress_handlers s) with
  | None => refuse "host ingress is unavailable"
  | Some f =>
      let payload := dict_get (u "payload") params in
      let '(h, v) := object_of payload in
      _ ← checked (validate_host_ingress_payload h limits v);
      Ok (CallIngress f payload)
  end.

Definition begin_transition (params : pydict) (s : Service) : attempt feature_call :=
  _ ← raise_if (sv_restart_required s) (ProtocolFailure (u "service is awaiting restart"));
  match sv_config_transition_capabilities s with
  | None => refuse "config transitions are not supported"
  | Some _ =>
      match dict_get (u "config") params with
      | FMap next_config => Ok (CallTransition next_config)
      | _ => refuse "config transition requires config"
      end
  end.

Definition waits (m : attempt feature_call) : begun :=
  match m with Ok c => Waits c | Raise f => Answered (Raise f) end.

Definition tools_list (s : Service) : attempt reply :=
  _ ← raise_if (sv_restart_required s) (ProtocolFailure (u "service is awaiting restart"));
  Ok (RTree (FMap [(u "tools", FTuple ((fun t => FMap (metadata_to_dict t)) <$> get_tools s))])).

(** [_dispatch] up to its call of feature code. *)
Definition dispatch (s : Service) (r : JsonRpcRequest) : Service * begun :=
  let params := rq_params r in
  if method_is INITIALIZE r then on_initialize params s
  else if method_is CONFIG_TRANSITION r then (s, waits (begin_transition params s))
  else if method_is HEALTH r then (s, Answered (Ok (RTree (FMap (health s)))))
  else if method_is TOOLS_LIST r then (s, Answered (tools_list s))
  else if method_is TOOLS_CALL r then (s, waits (begin_tool_call params s))
  else if method_is HOST_INGRESS r then (s, waits (begin_host_ingress params s))
  else if method_is SHUTDOWN r then (set_stopping s, Answered (Ok (RTree (FMap [(u "ok", FBool true)]))))
  else (s, Answered (Raise (ProtocolFailure (u "unknown method: " ++ rq_method r)))).

(** The rest of [_dispatch], once the call has an outcome. *)
Definition resume (s : Service) (c : feature_call) (o : outcome) : Service * attempt reply :=
  match o with
  | Failed f => (s, Raise f)
  | CancelledInside => (s, Raise (OtherFailure []))
  | _ =>
      match c with
      | CallConfigure _ => initialized s
      | CallTransition next_config =>
          match o with
          | ReturnedTransition result =>
              let live := match sv_config_transition_capabilities s with
                          | Some caps => ct_supports_live_apply caps | None => false end in
              match tr_action result with
              | Applied =>
                  if live then (set_host_config next_config s, Ok (RTree (FMap (transition_result_to_dict result))))
                  else (s, refuse "config transition hook returned an unadvertised action")
              | Restart => (set_restart_required s, Ok (RTree (FMap (transition_result_to_dict result))))
              end
          | _ => (s, refuse "config transition hook returned an invalid result")
          end
      | CallTool _ _ _ =>
          (s, Ok (RObject match o with Returned v => v | _ => (∅, VOther) end))
      | CallIngress _ _ =>
          let '(h, v) := match o with Returned v => v | _ => (∅, VOther) end in
          (s, (v' ← checked (validate_host_ingress_payload h limits v); Ok (RObject (h, v'))))
      end
  end.

(** ** Responses *)

(** [_error_message] *)
Definition error_message (r : JsonRpcRequest) (text : pystr) : pystr :=
  if method_is CONFIG_TRANSITION r then u "config transition failed"
  else if method_is HOST_INGRESS r then u "host ingress failed"
  else if method_is INITIALIZE r
          && match dict_get (u "config") (rq_params r) with FMap _ => true | _ => false end
       then u "initialization failed"
  else text.

Definition error_response (id_ : JsonRpcId) (code : Z) (message : pystr) : JsonRpcMessage :=
  MResponse (MkResponse id_ FNull (Some (MkRpcError (PInt code) message FNull)) JSONRPC_VERSION).

(** The tree [encode_message] writes for a result. *)
Definition reply_tree (r : reply) : res fjson :=
  t ← match r with RTree t => Ok t | RObject (h, v) => dumps_tree h v end;
  _ ← json_dumps limits t;
  Ok t.

(** What [_handle_request] sends: a result that cannot be encoded is answered
    like any other exception. *)
Definition response (r : JsonRpcRequest) (m : attempt reply) : JsonRpcMessage :=
  match m with
  | Raise (ProtocolFailure text) => error_response (rq_id r) (-32602) (error_message r text)
  | Raise (OtherFailure text) => error_response (rq_id r) (-32603) (error_message r text)
  | Ok rep =>
      match reply_tree rep with
      | Ok t => MResponse (MkResponse (rq_id r) t None JSONRPC_VERSION)
      | Raise e => error_response (rq_id r) (-32603) (error_message r (exn_text e))
      end
  end.

(** Whether the answer is sent inside the [try], so that a send that fails is
    followed by a second one. *)
Definition in_try (m : attempt reply) : bool :=
  match m with Ok rep => match reply_tree rep with Ok _ => true | Raise _ => false end | Raise _ => false end.

(** The answer once feature code has an outcome.  A cancellation that the task
    itself did not get is answered for host ingress, any other propagates. *)
Definition answer (cancelling : bool) (r : JsonRpcRequest) (o : outcome) (m : attempt reply)
    : option (bool * JsonRpcMessage) :=
  match o with
  | CancelledInside =>
      if method_is HOST_INGRESS r && negb cancelling
      then Some (false, error_response (rq_id r) (-32602) (u "host ingress failed")) else None
  | _ => Some (in_try m, response r m)
  end.

(** ** The serve loop *)

(** A request being handled: its task has not started; it waits for feature
    code; it waits for the write lock with its answer, inside the [try] or in
    a handler; its frame is written and it waits in [drain], holding the
    lock. *)
Inductive phase : Type :=
| Queued
| Running (c : feature_call)
| Sending (retry : bool) (m : JsonRpcMessage)
| Draining (retry : bool).

(** How [_handle_request] ended: its last send completed, its last send
    raised, or it was cancelled. *)
Inductive ending : Type := Sent | SendFailed | Cancelled.

#[global] Instance ending_eq_dec : EqDecision ending.
Proof. solve_decision. Defined.

(** What [serve] does: it reads a line; awaits a request it handles inline;
    answers a malformed line; gives the tasks their grace period; has
    cancelled those left and gathers them; has left, and the writer is gone. *)
Inductive loop : Type :=
| Reads
| Awaits (k : nat)
| Rejects (m : JsonRpcMessage)
| RejectDrains
| Grace
| Gathers
| Left.

(** Who holds the write lock. *)
Inductive sender : Type := ByRequest (k : nat) | ByLoop | ByFeature.

#[global] Instance sender_eq_dec : EqDecision sender.
Proof. solve_decision. Defined.

(** [_ToolExecutionContextScope]: the context, and whether it is active. *)
Definition scope : Type := option ToolExecutionContext * bool.

(** The service's state.  A request is known by its position among those read;
    a message written in answer to a request carries its position.
    [sr_faults] are the requests whose sends raised, one entry per send;
    [sr_cancelling] the tasks that were cancelled, [sr_interrupts] those that
    have not seen it yet. *)
Record Server := MkServer {
  sr_service : Service;
  sr_requests : list JsonRpcRequest;
  sr_tasks : gmap nat phase;
  sr_loop : loop;
  sr_lock : option sender;
  sr_sent : list (option nat * JsonRpcMessage);
  sr_ended : list (nat * ending);
  sr_faults : list nat;
  sr_interrupts : gset nat;
  sr_cancelling : gset nat;
  sr_scopes : gmap nat scope
}.

Definition server_init (s : Service) : Server := MkServer s [] ∅ Reads None [] [] [] ∅ ∅ ∅.

Definition with_service (svc : Service) (s : Server) : Server :=
  MkServer svc (sr_requests s) (sr_tasks s) (sr_loop s) (sr_lock s) (sr_sent s) (sr_ended s) (sr_faults s)
    (sr_interrupts s) (sr_cancelling s) (sr_scopes s).

Definition set_phase (k : nat) (p : phase) (s : Server) : Server :=
  MkServer (sr_service s) (sr_requests s) (<[k := p]> (sr_tasks s)) (sr_loop s) (sr_lock s) (sr_sent s) (sr_ended s)
    (sr_faults s) (sr_interrupts s) (sr_cancelling s) (sr_scopes s).

Definition set_loop (l : loop) (s : Server) : Server :=
  MkServer (sr_service s) (sr_requests s) (sr_tasks s) l (sr_lock s) (sr_sent s) (sr_ended s) (sr_faults s)
    (sr_interrupts s) (sr_cancelling s) (sr_scopes s).

Definition set_lock (w : option sender) (s : Server) : Server :=
  MkServer (sr_service s) (sr_requests s) (sr_tasks s) (sr_loop s) w (sr_sent s) (sr_ended s) (sr_faults s)
    (sr_interrupts s) (sr_cancelling s) (sr_scopes s).

Definition set_scopes (scopes : gmap nat scope) (s : Server) : Server :=
  MkServer (sr_service s) (sr_requests s) (sr_tasks s) (sr_loop s) (sr_lock s) (sr_sent s) (sr_ended s) (sr_faults s)
    (sr_interrupts s) (sr_cancelling s) scopes.

(** The frame is handed to the writer, and the lock is held until it drains. *)
Definition send (who : sender) (x : option nat * JsonRpcMessage) (s : Server) : Server :=
  MkServer (sr_service s) (sr_requests s) (sr_tasks s) (sr_loop s) (Some who) (sr_sent s ++ [x]) (sr_ended s)
    (sr_faults s) (sr_interrupts s) (sr_cancelling s) (sr_scopes s).

Definition fault (k : nat) (s : Server) : Server :=
  MkServer (sr_service s) (sr_requests s) (sr_tasks s) (sr_loop s) (sr_lock s) (sr_sent s) (sr_ended s)
    (sr_faults s ++ [k]) (sr_interrupts s) (sr_cancelling s) (sr_scopes s).

Definition awaits (k : nat) (l : loop) : bool := match l with Awaits j => bool_decide (j = k) | _ => false end.

(** The end of [_handle_request]: leaving [_send] releases the lock, and an
    exception of the request the loop awaits leaves [serve]. *)
Definition end_request (k : nat) (how : ending) (s : Server) : Server :=
  MkServer (sr_service s) (sr_requests s) (delete k (sr_tasks s))
    (if awaits k (sr_loop s) then if decide (how = Sent) then Reads else Grace else sr_loop s)
    (if decide (sr_lock s = Some (ByRequest k)) then None else sr_lock s)
    (sr_sent s) (sr_ended s ++ [(k, how)]) (sr_faults s) (sr_interrupts s ∖ {[k]}) (sr_cancelling s) (sr_scopes s).

(** [ToolExecutionContext] seen through a scope: [None] once it is revoked. *)
Definition scope_get (s : scope) : option ToolExecutionContext := if s.2 then s.1 else None.

Definition invalidate (k : nat) (scopes : gmap nat scope) : gmap nat scope :=
  alter (fun s => (s.1, false)) k scopes.

(** Handle request [k] up to its first wait. *)
Definition begin (k : nat) (r : JsonRpcRequest) (s : Server) : Server :=
  let '(svc, b) := dispatch (sr_service s) r in
  let s := with_service svc s in
  match b with
  | Answered m => set_phase k (Sending (in_try m) (response r m)) s
  | Waits c =>
      set_phase k (Running c)
        (match c with CallTool _ _ context => set_scopes (<[k := (context, true)]> (sr_scopes s)) s | _ => s end)
  end.

(** The requests the loop awaits before it reads on. *)
Definition is_inline (r : JsonRpcRequest) : bool :=
  method_is INITIALIZE r || method_is CONFIG_TRANSITION r || method_is SHUTDOWN r.

Definition accept_request (r : JsonRpcRequest) (s : Server) : Server :=
  let k := length (sr_requests s) in
  let s' := MkServer (sr_service s) (sr_requests s ++ [r]) (<[k := Queued]> (sr_tasks s)) (sr_loop s) (sr_lock s)
              (sr_sent s) (sr_ended s) (sr_faults s) (sr_interrupts s) (sr_cancelling s) (sr_scopes s) in
  if is_inline r then begin k r (set_loop (Awaits k) s') else s'.

(** One line read by [serve]. *)
Definition read_line (line : list Z) (s : Server) : Server :=
  match line with
  | [] => set_loop Grace s
  | _ =>
      match decode_message limits (Bytes line) with
      | Ok (MRequest r) => accept_request r s
      | Ok _ => s
      | Raise (ProtocolError m) => set_loop (Rejects (error_response IdNone (-32600) (u m))) s
      | Raise _ => set_loop Grace s
      end
  end.

(** A request's feature code has an outcome: the scope of a tool call is
    revoked, then the answer waits for the lock. *)
Definition finish (k : nat) (r : JsonRpcRequest) (c : feature_call) (o : outcome) (s : Server) : Server :=
  let '(svc, m) := resume (sr_service s) c o in
  let s := set_scopes (invalidate k (sr_scopes s)) (with_service svc s) in
  match answer (bool_decide (k ∈ sr_cancelling s)) r o m with
  | Some (retry, msg) => set_phase k (Sending retry msg) s
  | None => end_request k Cancelled s
  end.

(** A send of request [k] raised an exception with this text: inside the [try]
    the last handler of [_handle_request] sends an error, in a handler the
    exception leaves it. *)
Definition send_failed (k : nat) (r : JsonRpcRequest) (retry : bool) (text : pystr) (s : Server) : Server :=
  let s := fault k (set_lock None s) in
  if retry then set_phase k (Sending false (error_response (rq_id r) (-32603) (error_message r text))) s
  else end_request k SendFailed s.

(** [_send] from the lock on: encode and write; [raised] is the text of the
    exception of [write]. *)
Definition write_frame (who : sender) (raised : option pystr) (s : Server) : option Server :=
  match sr_lock s, who with
  | Some _, _ => None
  | None, ByRequest k =>
      match sr_tasks s !! k, sr_requests s !! k with
      | Some (Sending retry m), Some r =>
          if decide (k ∈ sr_interrupts s) then None
          else Some match raised with
                    | None => set_phase k (Draining retry) (send who (Some k, m) s)
                    | Some text => send_failed k r retry text s
                    end
      | _, _ => None
      end
  | None, ByLoop =>
      match sr_loop s with
      | Rejects m => Some match raised with
                          | None => set_loop RejectDrains (send who (None, m) s)
                          | Some _ => set_loop Grace s
                          end
      | _ => None
      end
  | None, ByFeature => None
  end.

(** The [drain] of the lock's holder returned or raised. *)
Definition drained (who : sender) (raised : option pystr) (s : Server) : option Server :=
  if decide (sr_lock s = Some who) then
    match who with
    | ByRequest k =>
        match sr_tasks s !! k, sr_requests s !! k with
        | Some (Draining retry), Some r =>
            if decide (k ∈ sr_interrupts s) then None
            else Some match raised with
                      | None => end_request k Sent s
                      | Some text => send_failed k r retry text s
                      end
        | _, _ => None
        end
    | ByLoop =>
        match sr_loop s with
        | RejectDrains => Some (set_loop (match raised with None => Reads | Some _ => Grace end) (set_lock None s))
        | _ => None
        end
    | ByFeature => Some (set_lock None s)
    end
  else None.

(** ** The end of [serve] *)

(** The grace period is over: the tasks still there are cancelled. *)
Definition cancel_tasks (s : Server) : Server :=
  MkServer (sr_service s) (sr_requests s) (sr_tasks s) Gathers (sr_lock s) (sr_sent s) (sr_ended s) (sr_faults s)
    (dom (sr_tasks s)) (sr_cancelling s ∪ dom (sr_tasks s)) (sr_scopes s).

(** The cancellation reaches a task: one that has not started never does, one
    in [_send] ends, and feature code sees it and may do anything. *)
Definition interrupt (k : nat) (s : Server) : option Server :=
  if decide (k ∈ sr_interrupts s) then
    match sr_tasks s !! k with
    | Some (Running _) =>
        Some (MkServer (sr_service s) (sr_requests s) (sr_tasks s) (sr_loop s) (sr_lock s) (sr_sent s) (sr_ended s)
                (sr_faults s) (sr_interrupts s ∖ {[k]}) (sr_cancelling s) (sr_scopes s))
    | Some _ => Some (end_request k Cancelled s)
    | None => None
    end
  else None.

(** ** Steps *)

(** What feature code may do to its service at any time. *)
Inductive feature_op : Type :=
| OpRegisterTool (m : ToolMetadata) (h : positive)
| OpRegisterIngress (name : dyn pystr) (h : callable)
| OpAdvertiseChannel (channel_type send_tool : pystr) (status_tool : option pystr)
| OpAdvertiseInbound (b : dyn bool)
| OpAdvertiseTransition (live : bool)
| OpEmitEvent (event_type : pystr) (payload : pydict) (write_fails : bool).

Inductive event : Type :=
| Read (line : list Z)
| Start (k : nat)
| Finish (k : nat) (o : outcome)
| Write (who : sender) (raised : option pystr)
| Drain (who : sender) (raised : option pystr)
| Stop
| Timeout
| Interrupt (k : nat)
| Leave
| Feature (op : feature_op).

Definition event_frame (event_type : pystr) (payload : pydict) : JsonRpcMessage :=
  MNotification (MkNotification FEATURE_EVENT [(u "type", FStr event_type); (u "payload", FMap payload)] JSONRPC_VERSION).

(** [emit_event] once it has the lock: after [serve] has left, or if the
    payload cannot be encoded or written, the exception is the feature's. *)
Definition emit_event (event_type : pystr) (payload : pydict) (write_fails : bool) (s : Server) : option Server :=
  match sr_loop s, sr_lock s with
  | Left, _ => Some s
  | _, Some _ => None
  | _, None =>
      match encode_message limits (event_frame event_type payload) with
      | Ok _ => Some (if write_fails then s else send ByFeature (None, event_frame event_type payload) s)
      | Raise _ => Some s
      end
  end.

(** A call that raises leaves the service as it is. *)
Definition feature_step (op : feature_op) (s : Server) : option Server :=
  let svc := sr_service s in
  let keep m := Some match m with Ok svc' => with_service svc' s | Raise _ => s end in
  match op with
  | OpRegisterTool m h => Some (with_service (register_tool m h svc) s)
  | OpRegisterIngress name h => keep (register_host_ingress name h svc)
  | OpAdvertiseChannel t send_tool status => Some (with_service (advertise_channel t send_tool status svc) s)
  | OpAdvertiseInbound b => keep (advertise_inbound_producer b svc)
  | OpAdvertiseTransition live => Some (with_service (advertise_config_transition live svc) s)
  | OpEmitEvent t payload write_fails => emit_event t payload write_fails s
  end.

(** One step of the service; [None] when the event is not possible. *)
Definition step (e : event) (s : Server) : option Server :=
  match e with
  | Read line =>
      match sr_loop s with
      | Reads => if sv_stopping (sr_service s) then None else Some (read_line line s)
      | _ => None
      end
  | Start k =>
      match sr_tasks s !! k, sr_requests s !! k with
      | Some Queued, Some r => if decide (k ∈ sr_interrupts s) then None else Some (begin k r s)
      | _, _ => None
      end
  | Finish k o =>
      match sr_tasks s !! k, sr_requests s !! k with
      | Some (Running c), Some r => if decide (k ∈ sr_interrupts s) then None else Some (finish k r c o s)
      | _, _ => None
      end
  | Write who raised => write_frame who raised s
  | Drain who raised => drained who raised s
  | Stop =>
      match sr_loop s with
      | Reads => if sv_stopping (sr_service s) then Some (set_loop Grace s) else None
      | _ => None
      end
  | Timeout =>
      match sr_loop s with
      | Grace => if decide (sr_tasks s = ∅) then None else Some (cancel_tasks s)
      | _ => None
      end
  | Interrupt k => interrupt k s
  | Leave =>
      match sr_loop s with
      | Grace | Gathers => if decide (sr_tasks s = ∅) then Some (set_loop Left s) else None
      | _ => None
      end
  | Feature op => feature_step op s
  end.

(** The states a run of events leads to. *)
Fixpoint run (es : list event) (s : Server) : option Server :=
  match es with
  | [] => Some s
  | e :: es' => s' ← step e s; run es' s'
  end.
End Service.
