(* ===== verification/ClientEvents.v ===== *)
(** * Feature events on the host ([kestrel_sdk/isolated_feature/client.py])

    [on_event], [_drain_pending], [_flush_buffer], [_dispatch_event] and
    [_handle_notification]: events read before any handler is registered are
    buffered, the oldest dropped past the cap; the event lock serialises the
    flush of the buffer with the delivery of live events.  A step runs to the
    next wait: for the lock, or for a handler. *)

From stdpp Require Import sets.
From S2P Require Export RpcProtocol.

Definition MAX_PENDING_EVENTS : nat := 256.

(** Who may hold the event lock: the read loop, or the buffered-event drain. *)
Inductive owner : Type := Reader | Drainer.

#[global] Instance owner_eq_dec : EqDecision owner.
Proof. solve_decision. Defined.

(** A delivery under the lock: the handlers of the current event still to
    complete, the first of them being awaited, and the events after it. *)
Record delivery := MkDelivery { dv_by : owner; dv_handlers : list positive; dv_event : pydict; dv_rest : list pydict }.

(** [ev_drains] counts drain tasks that have not started; [ev_waiting] is the
    queue of the lock, with [ev_held] the event a waiting reader holds.  The
    last four fields log the events read, those whose delivery began, those
    dropped by the buffer's cap, and those lost with a failed or closed
    delivery. *)
Record Events := MkEvents {
  ev_handlers : list positive;
  ev_buffer : list pydict;
  ev_drains : nat;
  ev_waiting : list owner;
  ev_held : option pydict;
  ev_active : option delivery;
  ev_received : list pydict;
  ev_dispatched : list pydict;
  ev_dropped : list pydict;
  ev_lost : list pydict
}.

Definition events_init : Events := MkEvents [] [] 0 [] None None [] [] [] [].

(** [deque(maxlen=n).append] *)
Definition deque_append {A} (maxlen : nat) (x : A) (l : list A) : list A :=
  drop (S (length l) - maxlen) (l ++ [x]).

(** What the append pushes out. *)
Definition deque_dropped {A} (maxlen : nat) (x : A) (l : list A) : list A :=
  take (S (length l) - maxlen) (l ++ [x]).

Definition set_active (a : option delivery) (e : Events) : Events :=
  MkEvents (ev_handlers e) (ev_buffer e) (ev_drains e) (ev_waiting e) (ev_held e) a
    (ev_received e) (ev_dispatched e) (ev_dropped e) (ev_lost e).

(** Deliver the events of [queue] under the lock, up to the first handler;
    with no handler registered an event is passed over.  The lock is free
    once the queue is empty. *)
Fixpoint deliver (by_ : owner) (queue : list pydict) (e : Events) : Events :=
  match queue with
  | [] => set_active None e
  | ev :: rest =>
      let e' := MkEvents (ev_handlers e) (ev_buffer e) (ev_drains e) (ev_waiting e) (ev_held e)
                  (Some (MkDelivery by_ (ev_handlers e) ev rest))
                  (ev_received e) (ev_dispatched e ++ [ev]) (ev_dropped e) (ev_lost e) in
      match ev_handlers e with
      | [] => deliver by_ rest e'
      | _ => e'
      end
  end.

(** [_flush_buffer], then the live event if there is one. *)
Definition flush_buffer (by_ : owner) (live : list pydict) (e : Events) : Events :=
  deliver by_ (ev_buffer e ++ live)
    (MkEvents (ev_handlers e) [] (ev_drains e) (ev_waiting e) (ev_held e) (ev_active e)
       (ev_received e) (ev_dispatched e) (ev_dropped e) (ev_lost e)).

Definition lock_free (e : Events) : bool :=
  match ev_active e, ev_waiting e with None, [] => true | _, _ => false end.

(** [_handle_notification] once it has the lock. *)
Definition handle_event (params : pydict) (e : Events) : Events :=
  match ev_handlers e with
  | [] =>
      MkEvents [] (deque_append MAX_PENDING_EVENTS params (ev_buffer e)) (ev_drains e) (ev_waiting e) (ev_held e)
        (ev_active e) (ev_received e) (ev_dispatched e)
        (ev_dropped e ++ deque_dropped MAX_PENDING_EVENTS params (ev_buffer e)) (ev_lost e)
  | _ => flush_buffer Reader [params] e
  end.

(** The read loop has decoded a feature event. *)
Definition receive (params : pydict) (e : Events) : Events :=
  let e' := MkEvents (ev_handlers e) (ev_buffer e) (ev_drains e) (ev_waiting e) (ev_held e) (ev_active e)
              (ev_received e ++ [params]) (ev_dispatched e) (ev_dropped e) (ev_lost e) in
  if lock_free e then handle_event params e'
  else MkEvents (ev_handlers e) (ev_buffer e) (ev_drains e) (ev_waiting e ++ [Reader]) (Some params) (ev_active e)
         (ev_received e ++ [params]) (ev_dispatched e) (ev_dropped e) (ev_lost e).

(** [on_event], when shutdown has not started. *)
Definition on_event (handler : positive) (e : Events) : Events :=
  let first := bool_decide (ev_handlers e = []) && negb (bool_decide (ev_buffer e = [])) in
  MkEvents (ev_handlers e ++ [handler]) (ev_buffer e) (ev_drains e + (if first then 1 else 0))
    (ev_waiting e) (ev_held e) (ev_active e) (ev_received e) (ev_dispatched e) (ev_dropped e) (ev_lost e).

(** A drain task reaches the lock. *)
Definition start_drain (e : Events) : option Events :=
  match ev_drains e with
  | O => None
  | S n =>
      let e' := MkEvents (ev_handlers e) (ev_buffer e) n (ev_waiting e) (ev_held e) (ev_active e)
                  (ev_received e) (ev_dispatched e) (ev_dropped e) (ev_lost e) in
      Some (if lock_free e then flush_buffer Drainer [] e'
            else MkEvents (ev_handlers e) (ev_buffer e) n (ev_waiting e ++ [Drainer]) (ev_held e) (ev_active e)
                   (ev_received e) (ev_dispatched e) (ev_dropped e) (ev_lost e))
  end.

(** The free lock goes to the first that waits. *)
Definition grant (e : Events) : option Events :=
  match ev_active e, ev_waiting e with
  | None, Drainer :: ws =>
      Some (flush_buffer Drainer []
              (MkEvents (ev_handlers e) (ev_buffer e) (ev_drains e) ws (ev_held e) None
                 (ev_received e) (ev_dispatched e) (ev_dropped e) (ev_lost e)))
  | None, Reader :: ws =>
      match ev_held e with
      | Some params =>
          Some (handle_event params
                  (MkEvents (ev_handlers e) (ev_buffer e) (ev_drains e) ws None None
                     (ev_received e) (ev_dispatched e) (ev_dropped e) (ev_lost e)))
      | None => None
      end
  | _, _ => None
  end.

(** The awaited handler has finished: the next handler, the next event, or,
    when it raised, the end of this delivery.  With the new state, whether
    the read loop is ended by it. *)
Definition handler_done (ok : bool) (e : Events) : option (Events * bool) :=
  match ev_active e with
  | Some (MkDelivery by_ (_ :: handlers) ev rest) =>
      if ok then
        Some (match handlers with
              | [] => deliver by_ rest e
              | _ => set_active (Some (MkDelivery by_ handlers ev rest)) e
              end, false)
      else
        Some (MkEvents (ev_handlers e) (ev_buffer e) (ev_drains e) (ev_waiting e) (ev_held e) None
                (ev_received e) (ev_dispatched e) (ev_dropped e) (ev_lost e ++ rest),
              match by_ with Reader => true | Drainer => false end)
  | _ => None
  end.

(** The read loop waits for the lock or for a handler. *)
Definition reader_busy (e : Events) : bool :=
  match ev_held e, ev_active e with
  | Some _, _ | _, Some (MkDelivery Reader _ _ _) => true
  | _, _ => false
  end.

(** The reader is cancelled while it waits for the lock. *)
Definition drop_held (e : Events) : Events :=
  MkEvents (ev_handlers e) (ev_buffer e) (ev_drains e)
    (base.filter (fun w => w = Drainer) (ev_waiting e)) None (ev_active e)
    (ev_received e) (ev_dispatched e) (ev_dropped e) (ev_lost e ++ match ev_held e with Some p => [p] | None => [] end).

(** [close] once every event task is done: handlers and buffer are
    released. *)
Definition clear_events (e : Events) : Events :=
  MkEvents [] [] 0 [] None None (ev_received e) (ev_dispatched e) (ev_dropped e) (ev_lost e ++ ev_buffer e).

Inductive events_op : Type :=
| Receive (params : pydict)
| OnEvent (handler : positive)
| StartDrain
| Grant
| HandlerDone (ok : bool)
| DropHeld
| Clear.

Definition events_step (s : events_op) (e : Events) : option Events :=
  match s with
  | Receive params => if reader_busy e then None else Some (receive params e)
  | OnEvent h => Some (on_event h e)
  | StartDrain => start_drain e
  | Grant => grant e
  | HandlerDone ok => fst <$> handler_done ok e
  | DropHeld => Some (drop_held e)
  | Clear => if lock_free e && negb (reader_busy e) then Some (clear_events e) else None
  end.

Fixpoint events_run (ss : list events_op) (e : Events) : option Events :=
  match ss with
  | [] => Some e
  | s :: ss' => e' ← events_step s e; events_run ss' e'
  end.

(** ** Invariant *)

(** The events read and not yet dispatched, in order. *)
Definition undelivered (e : Events) : list pydict :=
  match ev_active e with Some d => dv_rest d | None => [] end
  ++ ev_buffer e ++ match ev_held e with Some p => [p] | None => [] end.

Record events_ok (e : Events) : Prop := {
  ok_order : ev_dispatched e ++ undelivered e `sublist_of` ev_received e;
  ok_account : ev_received e ≡ₚ ev_dispatched e ++ undelivered e ++ ev_dropped e ++ ev_lost e;
  ok_buffer : (length (ev_buffer e) <= MAX_PENDING_EVENTS)%nat;
  ok_active : forall d, ev_active e = Some d -> ev_buffer e = [] /\ ev_handlers e <> [] /\ dv_handlers d <> [];
  ok_drain : ev_buffer e <> [] -> ev_handlers e <> [] -> (0 < ev_drains e)%nat \/ Drainer ∈ ev_waiting e
}.

#[local] Ltac fields := cbn [ev_handlers ev_buffer ev_drains ev_waiting ev_held ev_active ev_received ev_dispatched
  ev_dropped ev_lost set_active].

(** What [deliver] leaves: the queue split between the log and the rest. *)
Lemma deliver_spec by_ q e :
  exists done rest active,
    deliver by_ q e = MkEvents (ev_handlers e) (ev_buffer e) (ev_drains e) (ev_waiting e) (ev_held e) active
                        (ev_received e) (ev_dispatched e ++ done) (ev_dropped e) (ev_lost e)
    /\ done ++ rest = q
    /\ match active with
       | None => rest = []
       | Some d => dv_rest d = rest /\ dv_handlers d = ev_handlers e /\ ev_handlers e <> [] /\ q <> []
       end.
Proof.
  revert e; induction q as [|ev q IH]; intros e; cbn [deliver].
  { exists [], [], None. by rewrite app_nil_r. }
  destruct (ev_handlers e) as [|hd hs] eqn:Hh.
  - destruct (IH (MkEvents (ev_handlers e) (ev_buffer e) (ev_drains e) (ev_waiting e) (ev_held e)
                    (Some (MkDelivery by_ (ev_handlers e) ev q)) (ev_received e) (ev_dispatched e ++ [ev])
                    (ev_dropped e) (ev_lost e))) as (dn & rest & active & Hd & Hq & Ha).
    revert Hd Ha. fields. rewrite Hh. intros Hd Ha. exists (ev :: dn), rest, active. split_and!.
    + rewrite Hd. by rewrite <- app_assoc.
    + by rewrite <- Hq.
    + destruct active as [d|]; [|done]. by destruct Ha as (_ & _ & ? & _).
  - exists [ev], q, (Some (MkDelivery by_ (hd :: hs) ev q)). split_and!; done.
Qed.

(** A queue delivered in place of the events it came from. *)
Lemma deliver_ok by_ q e :
  ev_dispatched e ++ q ++ undelivered (set_active None e) `sublist_of` ev_received e ->
  ev_received e ≡ₚ ev_dispatched e ++ (q ++ undelivered (set_active None e)) ++ ev_dropped e ++ ev_lost e ->
  (q <> [] -> ev_handlers e <> [] -> ev_buffer e = []) ->
  (length (ev_buffer e) <= MAX_PENDING_EVENTS)%nat ->
  (ev_buffer e <> [] -> ev_handlers e <> [] -> (0 < ev_drains e)%nat \/ Drainer ∈ ev_waiting e) ->
  events_ok (deliver by_ q e).
Proof.
  intros Ho Ha Hb Hl Hd. destruct (deliver_spec by_ q e) as (dn & rest & active & -> & <- & Hact).
  assert (Hu : rest = match active with Some d => dv_rest d | None => [] end).
  { destruct active; [by destruct Hact|done]. }
  unfold undelivered in *. revert Ho Ha. fields. rewrite !app_nil_l. intros Ho Ha.
  split; unfold undelivered; fields; rewrite <- ?Hu, <- ?app_assoc in *; try done.
  intros d ->. destruct Hact as (_ & -> & Hne & Hq). auto.
Qed.

Lemma flush_buffer_ok by_ live e :
  ev_held e = None \/ live = [] -> ev_active e = None ->
  ev_dispatched e ++ ev_buffer e ++ live ++ match ev_held e with Some p => [p] | None => [] end `sublist_of` ev_received e ->
  ev_received e ≡ₚ ev_dispatched e ++ (ev_buffer e ++ live ++ match ev_held e with Some p => [p] | None => [] end)
                   ++ ev_dropped e ++ ev_lost e ->
  events_ok (flush_buffer by_ live e).
Proof.
  intros Hh Ha Ho Hp. unfold flush_buffer. apply deliver_ok; unfold undelivered; fields; rewrite ?app_nil_l; try done.
  - by rewrite <- app_assoc.
  - by rewrite <- (app_assoc (ev_buffer e)).
  - cbn. lia.
Qed.

Lemma sublist_drop_app (n : nat) (l k r : list pydict) : l ++ k `sublist_of` r -> l ++ drop n k `sublist_of` r.
Proof. intros H. etrans; [|exact H]. apply sublist_app; [done|apply sublist_drop]. Qed.

Lemma handle_event_ok params e :
  ev_held e = None -> ev_active e = None -> (length (ev_buffer e) <= MAX_PENDING_EVENTS)%nat ->
  ev_dispatched e ++ ev_buffer e ++ [params] `sublist_of` ev_received e ->
  ev_received e ≡ₚ ev_dispatched e ++ (ev_buffer e ++ [params]) ++ ev_dropped e ++ ev_lost e ->
  events_ok (handle_event params e).
Proof.
  intros Hh Ha Hl Ho Hp. unfold handle_event. destruct (ev_handlers e) as [|hd hs] eqn:He.
  - split; unfold undelivered; fields; rewrite ?Ha, ?Hh, ?app_nil_l, ?app_nil_r; try done.
    + by apply sublist_drop_app.
    + rewrite Hp. unfold deque_append, deque_dropped. set (n := (S _ - _)%nat).
      rewrite <- (take_drop n (ev_buffer e ++ [params])) at 1. solve_Permutation.
    + unfold deque_append. rewrite length_drop, length_app. cbn [length]. lia.
  - apply flush_buffer_ok; rewrite ?Hh, ?app_nil_r; auto.
Qed.

Lemma events_init_ok : events_ok events_init.
Proof. split; cbn; [done|done|lia|done|done]. Qed.

Lemma sublist_snoc (l r : list pydict) x : l `sublist_of` r -> l ++ [x] `sublist_of` r ++ [x].
Proof. intros H. by apply sublist_app. Qed.

Lemma receive_ok params e : events_ok e -> reader_busy e = false -> events_ok (receive params e).
Proof.
  intros [Ho Ha Hl Hact Hd] Hr. unfold receive, lock_free. unfold reader_busy in Hr.
  destruct (ev_held e) as [?|] eqn:Hh; [done|]. unfold undelivered in *. rewrite Hh in *.
  destruct (ev_active e) as [d|] eqn:He; [|destruct (ev_waiting e) eqn:Hw].
  - destruct (Hact d eq_refl) as (Hb & ? & ?). rewrite Hb in *.
    split; unfold undelivered; fields; rewrite ?He, ?Hb, ?app_nil_l, ?app_nil_r in *; try done.
    + rewrite app_assoc. by apply sublist_snoc.
    + rewrite Ha. solve_Permutation.
  - apply handle_event_ok; fields; rewrite ?app_nil_l, ?app_nil_r in *; try done.
    + rewrite app_assoc. by apply sublist_snoc.
    + rewrite Ha. solve_Permutation.
  - split; unfold undelivered; fields; rewrite ?He, ?app_nil_l, ?app_nil_r in *; try done.
    + rewrite app_assoc. by apply sublist_snoc.
    + rewrite Ha. solve_Permutation.
    + intros Hb Hn. destruct (Hd Hb Hn); [by left|]. right. set_solver.
Qed.

Lemma on_event_ok h e : events_ok e -> events_ok (on_event h e).
Proof.
  intros [Ho Ha Hl Hact Hd]. split; unfold on_event, undelivered in *; fields; try done.
  - intros d Hd'. destruct (Hact d Hd') as (? & ? & ?). split_and!; try done. by destruct (ev_handlers e).
  - intros Hb _. destruct (ev_handlers e) as [|hd hs]; cbn.
    + left. rewrite bool_decide_false by done. cbn. lia.
    + destruct Hd; [done..| |by right]. left. lia.
Qed.

Lemma start_drain_ok e e' : events_ok e -> start_drain e = Some e' -> events_ok e'.
Proof.
  intros [Ho Ha Hl Hact Hd]. unfold start_drain. destruct (ev_drains e) as [|n]; [done|]. intros [= <-].
  unfold undelivered, lock_free in *. destruct (ev_active e) as [d|] eqn:He; [|destruct (ev_waiting e) eqn:Hw].
  - split; unfold undelivered; fields; rewrite ?He; try done. intros _ _. right. set_solver.
  - apply flush_buffer_ok; fields; rewrite ?app_nil_l; auto.
  - split; unfold undelivered; fields; rewrite ?He; try done. intros _ _. right. set_solver.
Qed.

Lemma grant_ok e e' : events_ok e -> grant e = Some e' -> events_ok e'.
Proof.
  intros [Ho Ha Hl Hact Hd]. unfold grant, undelivered in *. destruct (ev_active e) as [d|] eqn:He; [done|].
  rewrite ?app_nil_l in *. destruct (ev_waiting e) as [|[|] ws] eqn:Hw; [done| |].
  - destruct (ev_held e) as [params|] eqn:Hh; [|done]. intros [= <-].
    apply handle_event_ok; fields; rewrite ?app_nil_r; done.
  - intros [= <-]. apply flush_buffer_ok; fields; auto.
Qed.

Lemma handler_done_ok b e e' ends : events_ok e -> handler_done b e = Some (e', ends) -> events_ok e'.
Proof.
  intros [Ho Ha Hl Hact Hd]. unfold handler_done, undelivered in *.
  destruct (ev_active e) as [[by_ [|hd hs] ev rest]|] eqn:He; try done.
  destruct (Hact _ eq_refl) as (Hb & Hh & _). cbn [dv_rest] in *. rewrite Hb in *.
  destruct b; intros [= <- <-].
  - destruct hs as [|hd' hs].
    + apply deliver_ok; unfold undelivered; fields; rewrite ?Hb; done.
    + split; unfold undelivered; fields; rewrite ?Hb; try done.
      intros d [= <-]. split_and!; try done.
  - split; unfold undelivered; fields; rewrite ?Hb, ?app_nil_l in *; try done.
    + etrans; [|exact Ho]. apply sublist_app; [done|]. by apply sublist_inserts_l.
    + rewrite Ha. solve_Permutation.
Qed.

Lemma drop_held_ok e : events_ok e -> events_ok (drop_held e).
Proof.
  intros [Ho Ha Hl Hact Hd]. unfold undelivered in *. split; unfold drop_held, undelivered; fields; try done.
  - etrans; [|exact Ho]. rewrite app_nil_r. apply sublist_app; [done|]. apply sublist_app; [done|].
    by apply sublist_inserts_r.
  - rewrite Ha, app_nil_r. solve_Permutation.
  - intros Hb Hn. destruct (Hd Hb Hn) as [|Hin]; [by left|]. right. by apply list_elem_of_filter.
Qed.

Lemma clear_events_ok e : events_ok e -> lock_free e = true -> reader_busy e = false -> events_ok (clear_events e).
Proof.
  intros [Ho Ha Hl Hact Hd]. unfold lock_free, reader_busy, undelivered in *.
  destruct (ev_active e); [done|]. destruct (ev_waiting e); [|done]. destruct (ev_held e); [done|]. intros _ _.
  rewrite ?app_nil_l, ?app_nil_r in *. split; unfold clear_events, undelivered; fields; try done.
  - rewrite !app_nil_r. etrans; [|exact Ho]. by apply sublist_inserts_r.
  - rewrite Ha. rewrite !app_nil_l. solve_Permutation.
  - cbn. lia.
Qed.

Lemma events_step_ok s e e' : events_ok e -> events_step s e = Some e' -> events_ok e'.
Proof.
  intros Hok. destruct s; cbn; try (intros [= <-]).
  - destruct (reader_busy e) eqn:Hb; [done|]. intros [= <-]. by apply receive_ok.
  - by apply on_event_ok.
  - by apply start_drain_ok.
  - by apply grant_ok.
  - destruct (handler_done ok e) as [[e1 ends]|] eqn:E; [|done]. intros [= <-]. by eapply handler_done_ok.
  - by apply drop_held_ok.
  - destruct (lock_free e && negb (reader_busy e)) eqn:E; [|done]. intros [= <-].
    apply andb_prop in E as [? E]. apply clear_events_ok; [done..|]. by destruct (reader_busy e).
Qed.

Lemma events_run_ok ss e e' : events_ok e -> events_run ss e = Some e' -> events_ok e'.
Proof.
  revert e; induction ss as [|s ss IH]; intros e He; [by intros [= <-]|]. cbn.
  destruct (events_step s e) as [e1|] eqn:E; [|done]. apply IH. by eapply events_step_ok.
Qed.

Lemma sublist_full {A} (l r : list A) : l `sublist_of` r -> (length r <= length l)%nat -> l = r.
Proof.
  induction 1 as [|x l r H IH|x l r H IH]; intros Hl; [done| |]; cbn in Hl.
  - f_equal. apply IH. lia.
  - apply sublist_length in H. lia.
Qed.

(** Events keep the order of the wire: after any interleaving of the
    read loop, subscriptions, drains and handlers, the events whose delivery
    began followed by those still held are, in order, among the events read;
    every event read is delivered, held, dropped by the buffer's cap or lost
    with a failed or closed delivery, none twice; with nothing dropped or
    lost the order and the count are those of the wire.  The buffer stays
    within its cap, and buffered events a handler could take have a drain on
    its way. *)
Theorem events_in_order ss e : events_run ss events_init = Some e ->
  ev_dispatched e ++ undelivered e `sublist_of` ev_received e
  /\ ev_received e ≡ₚ ev_dispatched e ++ undelivered e ++ ev_dropped e ++ ev_lost e
  /\ (ev_dropped e = [] -> ev_lost e = [] -> ev_received e = ev_dispatched e ++ undelivered e)
  /\ (length (ev_buffer e) <= MAX_PENDING_EVENTS)%nat
  /\ (ev_buffer e <> [] -> ev_handlers e <> [] -> (0 < ev_drains e)%nat \/ Drainer ∈ ev_waiting e).
Proof.
  intros H. destruct (events_run_ok _ _ _ events_init_ok H) as [Ho Ha Hl _ Hd]. split_and!; try done.
  intros Hdr Hlo. rewrite Hdr, Hlo, !app_nil_r in Ha. symmetry. apply sublist_full; [done|].
  by rewrite Ha.
Qed.

(** Two events before the first handler, one while the drain delivers. *)
Definition sample_event (n : Z) : pydict := [(u "n", FInt n)].

Definition sample_deliveries : list events_op :=
  [Receive (sample_event 1); Receive (sample_event 2); OnEvent 7; StartDrain; Receive (sample_event 3);
   HandlerDone true; HandlerDone true; Grant].

Definition sample_events : Events :=
  MkEvents [7%positive] [] 0 [] None (Some (MkDelivery Reader [7%positive] (sample_event 3) []))
    [sample_event 1; sample_event 2; sample_event 3] [sample_event 1; sample_event 2; sample_event 3] [] [].

Lemma events_in_order_witness :
  ev_dispatched sample_events ++ undelivered sample_events `sublist_of` ev_received sample_events
  /\ ev_received sample_events ≡ₚ ev_dispatched sample_events ++ undelivered sample_events
                                  ++ ev_dropped sample_events ++ ev_lost sample_events
  /\ (ev_dropped sample_events = [] -> ev_lost sample_events = [] ->
      ev_received sample_events = ev_dispatched sample_events ++ undelivered sample_events)
  /\ (length (ev_buffer sample_events) <= MAX_PENDING_EVENTS)%nat
  /\ (ev_buffer sample_events <> [] -> ev_handlers sample_events <> [] ->
      (0 < ev_drains sample_events)%nat \/ Drainer ∈ ev_waiting sample_events).
Proof. apply (events_in_order sample_deliveries sample_events). reflexivity. Defined.
