(* ===== verification/RpcClient.v ===== *)
(** * The isolated feature client ([kestrel_sdk/isolated_feature/client.py])

    [IsolatedFeatureClient]: requests matched to responses by id, the read
    loop and its terminal state, the lifecycle lock, and the typed operations
    with their gates before the request and their checks after the response.
    A step of the client runs to the next wait of the code: for the lifecycle
    lock, for a response, for a line, or inside event delivery. *)

From stdpp Require Import gmap.
From S2P Require Export RpcProtocol.
From S2P Require ClientEvents.

(** ** Data *)

(** [_terminal_sentinel]: what ended the stream. *)
Inductive terminal : Type := StreamEof | ProtocolFailed | StreamClosed.

(** What an operation raises: [ProtocolError] and its subclasses, the errors
    of a dead stream, cancellation, or another exception. *)
Inductive client_error : Type :=
| EofError
| ConnError (m : string)
| Protocol (text : pystr)
| TransitionFailed (m : string)
| TransitionUnsupported
| ContextUnsupported
| IngressFailed (m : string)
| IngressUnsupported
| IngressUnknownName
| Cancelled
| OtherError (e : exn).

(** [isinstance(e, ProtocolError)] *)
Definition is_protocol_error (e : client_error) : bool :=
  match e with
  | EofError | ConnError _ | Cancelled | OtherError _ => false
  | _ => true
  end.

Definition client_error_of (e : exn) : client_error :=
  match e with ProtocolError m => Protocol (u m) | _ => OtherError e end.

Inductive operation : Type :=
| Initialize (client_info config : option pydict)
| Health
| ListTools
| CallTool (name : pystr) (arguments : option pydict) (context : option (dyn ToolExecutionContext))
| CallHostIngress (name : dyn pystr) (payload : object)
| PrepareConfigTransition (next_config : dyn pydict)
| Shutdown.

Inductive value : Type := Json (t : fjson) | Tools (l : list ToolMetadata) | Transition (r : ConfigTransitionResult).

Abbreviation outcome := (value + client_error)%type.

(** A future's result. *)
Abbreviation resolution := (fjson + client_error)%type.

(** What an operation does with the response; a transition has read
    [supports_live_apply] before its request. *)
Inductive continuation : Type :=
| AfterInitialize
| AfterHealth
| AfterListTools
| AfterCallTool
| AfterHostIngress
| AfterTransition (supports_live_apply : bool)
| AfterShutdown.

(** A call that waits for the lifecycle lock, or for the response to an id. *)
Inductive call_state : Type := Queued (op : operation) | Waiting (k : continuation) (id_ : Z).

Record Negotiated := MkNegotiated {
  ng_server_info : option pydict;
  ng_capabilities : pydict;
  ng_tools : list ToolMetadata;
  ng_ready : bool
}.

Record Lifecycle := MkLifecycle {
  lf_shutdown_started : bool;
  lf_restart_required : bool;
  lf_lock : option nat;
  lf_queue : list nat
}.

Inductive read_state : Type := NotStarted | Reading | Ended.

(** [Closing joined]: [close] runs; [joined] when it joins a read task. *)
Inductive close_state : Type := Open | Closing (joined : bool) | Closed.

(** [wr_pending] and [wr_resolved] are the futures by id, before and after
    they are done; the value is the call that waits.  [wr_sent] is what was
    written, with the call that wrote it, and [wr_responses] the responses
    read. *)
Record Wire := MkWire {
  wr_next_id : Z;
  wr_pending : gmap Z nat;
  wr_resolved : gmap nat resolution;
  wr_read : read_state;
  wr_closed : option terminal;
  wr_close : close_state;
  wr_sent : list (nat * JsonRpcRequest);
  wr_responses : list JsonRpcResponse
}.

(** Calls are numbered in the order they are made. *)
Record Calls := MkCalls {
  ca_count : nat;
  ca_active : gmap nat call_state;
  ca_outcomes : list (nat * outcome)
}.

Record Client := MkClient {
  cl_protocol_version : pystr;
  cl_negotiated : Negotiated;
  cl_life : Lifecycle;
  cl_wire : Wire;
  cl_calls : Calls;
  cl_events : ClientEvents.Events
}.

Definition client_init (protocol_version : pystr) : Client :=
  MkClient protocol_version (MkNegotiated None [] [] false) (MkLifecycle false false None [])
    (MkWire 0 ∅ ∅ NotStarted None Open [] []) (MkCalls 0 ∅ []) ClientEvents.events_init.

Definition set_negotiated (g : Negotiated) (c : Client) : Client :=
  MkClient (cl_protocol_version c) g (cl_life c) (cl_wire c) (cl_calls c) (cl_events c).
Definition set_life (l : Lifecycle) (c : Client) : Client :=
  MkClient (cl_protocol_version c) (cl_negotiated c) l (cl_wire c) (cl_calls c) (cl_events c).
Definition set_wire (w : Wire) (c : Client) : Client :=
  MkClient (cl_protocol_version c) (cl_negotiated c) (cl_life c) w (cl_calls c) (cl_events c).
Definition set_calls (a : Calls) (c : Client) : Client :=
  MkClient (cl_protocol_version c) (cl_negotiated c) (cl_life c) (cl_wire c) a (cl_events c).
Definition set_events (e : ClientEvents.Events) (c : Client) : Client :=
  MkClient (cl_protocol_version c) (cl_negotiated c) (cl_life c) (cl_wire c) (cl_calls c) e.

Definition set_ready (b : bool) (c : Client) : Client :=
  set_negotiated (MkNegotiated (ng_server_info (cl_negotiated c)) (ng_capabilities (cl_negotiated c))
                    (ng_tools (cl_negotiated c)) b) c.

Definition restart_required (c : Client) : bool := lf_restart_required (cl_life c).

(** [_mark_restart_required] *)
Definition mark_restart_required (c : Client) : Client :=
  set_ready false
    (set_life (MkLifecycle (lf_shutdown_started (cl_life c)) true (lf_lock (cl_life c)) (lf_queue (cl_life c))) c).

(** ** Negotiated capabilities *)

(** A capability that is absent or malformed is not supported; the tests
    catch [ProtocolError] only. *)
Definition capability_of {A} (parse : pydict -> res A) (key : pystr) (capabilities : pydict) : option A :=
  match dict_get key capabilities with
  | FMap d => match parse d with Ok a => Some a | Raise _ => None end
  | _ => None
  end.

Definition config_transition_capabilities (g : Negotiated) : option ConfigTransitionCapabilities :=
  capability_of transition_caps_from_dict CONFIG_TRANSITION_CAPABILITY (ng_capabilities g).

Definition tool_execution_context_capabilities (g : Negotiated) : option ToolExecutionContextCapabilities :=
  capability_of (fun d => context_caps_from_dict (FMap d)) TOOL_EXECUTION_CONTEXT_CAPABILITY (ng_capabilities g).

Definition supports_tool_execution_context (g : Negotiated) : bool :=
  match tool_execution_context_capabilities g with
  | Some caps => context_caps_supports caps TOOL_EXECUTION_CONTEXT_VERSION
  | None => false
  end.

Definition host_ingress_capabilities (g : Negotiated) : option HostIngressCapabilities :=
  capability_of (fun d => ingress_caps_from_dict (FMap d)) HOST_INGRESS_CAPABILITY (ng_capabilities g).

Definition supports_host_ingress_name (name : dyn pystr) (g : Negotiated) : bool :=
  match validate_host_ingress_name name with
  | Raise _ => false
  | Ok validated_name =>
      match host_ingress_capabilities g with
      | Some caps => ingress_caps_supports caps validated_name
      | None => false
      end
  end.

Definition inbound_producer_declaration (g : Negotiated) : option bool :=
  match dict_get INBOUND_PRODUCER_CAPABILITY (ng_capabilities g) with FBool b => Some b | _ => None end.

Definition idle_retirement_is_declared_safe (g : Negotiated) : bool :=
  bool_decide (inbound_producer_declaration g = Some false).

(** ** Requests *)

(** [_fresh_terminal_error] *)
Definition fresh_terminal_error (w : Wire) : client_error :=
  match wr_closed w with
  | Some StreamEof => EofError
  | Some ProtocolFailed => Protocol (u "isolated feature protocol failed")
  | _ => match wr_close w with
         | Closed => ConnError "isolated feature client is closed"
         | _ => ConnError "isolated feature stream closed"
         end
  end.

(** [start] *)
Definition start (w : Wire) : Wire :=
  match wr_closed w, wr_read w with
  | None, NotStarted =>
      MkWire (wr_next_id w) (wr_pending w) (wr_resolved w) Reading (wr_closed w) (wr_close w) (wr_sent w) (wr_responses w)
  | _, _ => w
  end.

Section Client.
(** The interpreter's limits on JSON text. *)
Variable limits : json_limits.

(** [request] up to its wait, made by call [n]; [write] is what
    [writer.write] raises, if it does.  The id is used up even when nothing is
    written. *)
Definition open_request (method : pystr) (params : pydict) (n : nat) (write : option exn) (w0 : Wire)
    : Wire * (Z + client_error) :=
  let w := start w0 in
  match wr_closed w with
  | Some _ => (w, inr (fresh_terminal_error w))
  | None =>
      let id_ := wr_next_id w + 1 in
      let r := MkRequest method params (IdInt (PInt id_)) JSONRPC_VERSION in
      let used := MkWire id_ (wr_pending w) (wr_resolved w) (wr_read w) (wr_closed w) (wr_close w) (wr_sent w)
                    (wr_responses w) in
      match encode_message limits (MRequest r), write with
      | Raise e, _ | Ok _, Some e => (used, inr (OtherError e))
      | Ok _, None =>
          (MkWire id_ (<[id_ := n]> (wr_pending w)) (wr_resolved w) (wr_read w) (wr_closed w) (wr_close w)
             (wr_sent w ++ [(n, r)]) (wr_responses w), inl id_)
      end
  end.

(** ** Operations: the gates before the request *)

Inductive gated : Type :=
| Refused (e : client_error)
| Answered (v : value)
| Sends (method : pystr) (params : pydict).

Definition restart_required_health : fjson :=
  FMap [(u "status", FStr (u "restart-required")); (u "ready", FBool false)].

Definition default_client_info : pydict := [(u "name", FStr (u "kestrel-sdk-host"))].

Definition gate_call_tool (name : pystr) (arguments : option pydict)
    (context : option (dyn ToolExecutionContext)) (c : Client) : gated :=
  if restart_required c then Refused (Protocol (u "service replacement is required before tools can be called"))
  else if negb (ng_ready (cl_negotiated c)) then
    Refused (Protocol (u "health must report ready before tools can be called"))
  else
    let params := [(u "name", FStr name); (u "arguments", FMap (default [] arguments))] in
    match context with
    | None => Sends TOOLS_CALL params
    | Some Foreign => Refused (OtherError (TypeError "context must be a ToolExecutionContext"))
    | Some (Inst ctx) =>
        match tool_execution_context_capabilities (cl_negotiated c) with
        | Some caps =>
            if context_caps_supports caps (tc_version ctx)
            then Sends TOOLS_CALL (params ++ [(TOOL_EXECUTION_CONTEXT, FMap (tool_context_to_dict ctx))])
            else Refused ContextUnsupported
        | None => Refused ContextUnsupported
        end
    end.

Definition gate_host_ingress (name : dyn pystr) (payload : object) (c : Client) : gated :=
  if lf_shutdown_started (cl_life c) || restart_required c
  then Refused (IngressFailed "host ingress is unavailable")
  else
    match validate_host_ingress_name name with
    | Raise _ => Refused (IngressFailed "host ingress failed")
    | Ok validated_name =>
        match validate_host_ingress_payload payload.1 limits payload.2, dumps_tree payload.1 payload.2 with
        | Ok _, Ok tree =>
            match host_ingress_capabilities (cl_negotiated c) with
            | None => Refused IngressUnsupported
            | Some caps =>
                if ingress_caps_supports caps validated_name
                then Sends HOST_INGRESS [(u "name", FStr validated_name); (u "payload", tree)]
                else Refused IngressUnknownName
            end
        | _, _ => Refused (IngressFailed "host ingress failed")
        end
    end.

(** [prepare_config_transition] before the lock. *)
Definition precheck_transition (next_config : dyn pydict) (c : Client) : option client_error :=
  match next_config with
  | Foreign => Some (TransitionFailed "next config must be an object")
  | Inst _ =>
      match config_transition_capabilities (cl_negotiated c) with
      | None => Some TransitionUnsupported
      | Some _ => None
      end
  end.

Definition gate_transition (next_config : dyn pydict) (c : Client) : gated :=
  match next_config with
  | Foreign => Refused (TransitionFailed "next config must be an object")
  | Inst config =>
      if lf_shutdown_started (cl_life c) then Refused (TransitionFailed "service shutdown is already in progress")
      else if restart_required c then Refused (TransitionFailed "service replacement is already required")
      else match config_transition_capabilities (cl_negotiated c) with
           | None => Refused TransitionUnsupported
           | Some _ => Sends CONFIG_TRANSITION [(u "config", FMap config)]
           end
  end.

(** The body of an operation up to its request. *)
Definition gate (op : operation) (c : Client) : Client * gated :=
  match op with
  | Initialize client_info config =>
      (c, Sends INITIALIZE
            ([(u "protocolVersion", FStr (cl_protocol_version c));
              (u "clientInfo", FMap match client_info with Some (kv :: i) => kv :: i | _ => default_client_info end)]
             ++ opt_field "config" FMap config))
  | Health =>
      if restart_required c then (set_ready false c, Answered (Json restart_required_health))
      else (c, Sends HEALTH [])
  | ListTools =>
      (c, if restart_required c
          then Refused (Protocol (u "service replacement is required before tools are exposed"))
          else if negb (ng_ready (cl_negotiated c))
               then Refused (Protocol (u "health must report ready before tools are exposed"))
               else Sends TOOLS_LIST [])
  | CallTool name arguments context => (c, gate_call_tool name arguments context c)
  | CallHostIngress name payload => (c, gate_host_ingress name payload c)
  | PrepareConfigTransition next_config => (c, gate_transition next_config c)
  | Shutdown =>
      let l := cl_life c in
      if lf_shutdown_started l then (c, Refused (Protocol (u "shutdown is already in progress")))
      else (set_life (MkLifecycle true (lf_restart_required l) (lf_lock l) (lf_queue l)) c, Sends SHUTDOWN [])
  end.

(** The operations that take the lifecycle lock. *)
Definition takes_lock (op : operation) : bool :=
  match op with PrepareConfigTransition _ | Shutdown => true | _ => false end.

Definition precheck (op : operation) (c : Client) : option client_error :=
  match op with PrepareConfigTransition next_config => precheck_transition next_config c | _ => None end.

(** ** Operations: the response *)

(** [_dict_field] *)
Definition dict_field (key : string) (d : pydict) : pydict + client_error :=
  match dict_lookup (u key) d with
  | None => inl []
  | Some (FMap v) => inl v
  | Some _ => inr (Protocol (u (key ++ " must be an object")%string))
  end.

Definition settle_initialize (r : resolution) (c : Client) : Client * outcome :=
  match r with
  | inl (FMap d) =>
      if negb (is_text (cl_protocol_version c) (dict_get (u "protocolVersion") d))
      then (c, inr (Protocol (u "service returned incompatible protocolVersion")))
      else
        let g := cl_negotiated c in
        match dict_field "serverInfo" d with
        | inr e => (c, inr e)
        | inl info =>
            match dict_field "capabilities" d with
            | inr e => (set_negotiated (MkNegotiated (Some info) (ng_capabilities g) (ng_tools g) (ng_ready g)) c, inr e)
            | inl caps =>
                (set_negotiated (MkNegotiated (Some info) caps (ng_tools g) (ng_ready g)) c, inl (Json (FMap d)))
            end
        end
  | inl _ => (c, inr (Protocol (u "initialize result must be an object")))
  | inr e => (c, inr e)
  end.

(** [result.get("ready") is True or result.get("status") in {...}]; a list
    or a dict cannot be looked up in a set. *)
Definition reports_ready (d : pydict) : bool + client_error :=
  match dict_get (u "ready") d, dict_get (u "status") d with
  | FBool true, _ => inl true
  | _, FStr s => inl (bool_decide (s = u "ready") || bool_decide (s = u "ok"))
  | _, (FTuple _ | FMap _) => inr (OtherError (TypeError "unhashable type"))
  | _, _ => inl false
  end.

Definition settle_health (r : resolution) (c : Client) : Client * outcome :=
  match r with
  | inl (FMap d) =>
      if restart_required c then (set_ready false c, inl (Json restart_required_health))
      else match reports_ready d with
           | inl b => (set_ready b c, inl (Json (FMap d)))
           | inr e => (c, inr e)
           end
  | inl _ => (c, inr (Protocol (u "health result must be an object")))
  | inr e => (c, inr e)
  end.

Definition metadata_of (item : fjson) : res ToolMetadata :=
  match item with FMap d => metadata_from_dict d | _ => Raise (AttributeError "get") end.

Definition settle_list_tools (r : resolution) (c : Client) : Client * outcome :=
  match r with
  | inl (FMap d) =>
      match dict_get (u "tools") d with
      | FTuple items =>
          match traverse metadata_of items with
          | Ok tools =>
              let g := cl_negotiated c in
              (set_negotiated (MkNegotiated (ng_server_info g) (ng_capabilities g) tools (ng_ready g)) c, inl (Tools tools))
          | Raise e => (c, inr (client_error_of e))
          end
      | _ => (c, inr (Protocol (u "tools/list result must contain a tools list")))
      end
  | inl _ => (c, inr (Protocol (u "tools/list result must contain a tools list")))
  | inr e => (c, inr e)
  end.

Definition settle_host_ingress (r : resolution) (c : Client) : Client * outcome :=
  match r with
  | inl t =>
      let '(h, v) := object_of t in
      match validate_host_ingress_payload h limits v with
      | Ok _ => (c, inl (Json t))
      | Raise _ => (c, inr (IngressFailed "host ingress failed"))
      end
  | inr Cancelled => (c, inr Cancelled)
  | inr _ => (c, inr (IngressFailed "host ingress failed"))
  end.

Definition transition_failed : client_error := TransitionFailed "config transition failed".

(** [supports_live_apply] is read before the request. *)
Definition settle_transition (supports_live_apply : bool) (r : resolution) (c : Client) : Client * outcome :=
  match r with
  | inr Cancelled => (mark_restart_required c, inr Cancelled)
  | inr e =>
      if is_protocol_error e && bool_decide (wr_closed (cl_wire c) = None) then (c, inr transition_failed)
      else (mark_restart_required c, inr transition_failed)
  | inl (FMap d) =>
      match transition_result_from_dict d with
      | Raise (ProtocolError _) => (mark_restart_required c, inr transition_failed)
      | Raise e => (c, inr (OtherError e))
      | Ok t =>
          match tr_action t with
          | Restart => (mark_restart_required c, inl (Transition t))
          | Applied =>
              if supports_live_apply then (c, inl (Transition t))
              else (mark_restart_required c,
                    inr (TransitionFailed "service returned an unadvertised config transition action"))
          end
      end
  | inl _ => (mark_restart_required c, inr transition_failed)
  end.

Definition settle_shutdown (r : resolution) (c : Client) : Client * outcome :=
  match r with
  | inl (FMap d) => (c, inl (Json (FMap d)))
  | inl _ => (c, inr (Protocol (u "shutdown result must be an object")))
  | inr e => (c, inr e)
  end.

Definition continuation_of (op : operation) (c : Client) : continuation :=
  match op with
  | Initialize _ _ => AfterInitialize
  | Health => AfterHealth
  | ListTools => AfterListTools
  | CallTool _ _ _ => AfterCallTool
  | CallHostIngress _ _ => AfterHostIngress
  | PrepareConfigTransition _ =>
      AfterTransition match config_transition_capabilities (cl_negotiated c) with
                      | Some caps => ct_supports_live_apply caps | None => false end
  | Shutdown => AfterShutdown
  end.

Definition settle_call_tool (r : resolution) (c : Client) : Client * outcome :=
  match r with inl t => (c, inl (Json t)) | inr e => (c, inr e) end.

Definition settle (k : continuation) (r : resolution) (c : Client) : Client * outcome :=
  match k with
  | AfterInitialize => settle_initialize r c
  | AfterHealth => settle_health r c
  | AfterListTools => settle_list_tools r c
  | AfterCallTool => settle_call_tool r c
  | AfterHostIngress => settle_host_ingress r c
  | AfterTransition live => settle_transition live r c
  | AfterShutdown => settle_shutdown r c
  end.

(** ** Calls *)

(** Call [n] returns or raises, and releases the lock it may hold. *)
Definition finish (n : nat) (o : outcome) (c : Client) : Client :=
  let a := cl_calls c in
  let l := cl_life c in
  set_life (MkLifecycle (lf_shutdown_started l) (lf_restart_required l)
              (if bool_decide (lf_lock l = Some n) then None else lf_lock l) (lf_queue l))
    (set_calls (MkCalls (ca_count a) (delete n (ca_active a)) (ca_outcomes a ++ [(n, o)])) c).

Definition set_call (n : nat) (s : call_state) (c : Client) : Client :=
  let a := cl_calls c in set_calls (MkCalls (ca_count a) (<[n := s]> (ca_active a)) (ca_outcomes a)) c.

(** Call [n] no longer waits. *)
Definition without (n : nat) (a : Calls) : Calls := MkCalls (ca_count a) (delete n (ca_active a)) (ca_outcomes a).

(** The future of call [n] has the result [r]. *)
Definition conclude (n : nat) (k : continuation) (r : resolution) (c : Client) : Client :=
  let '(c', o) := settle k r c in finish n o c'.

(** Call [n] runs its operation up to a wait. *)
Definition run_call (n : nat) (op : operation) (write : option exn) (c : Client) : Client :=
  let '(c1, g) := gate op c in
  match g with
  | Refused e => finish n (inr e) c1
  | Answered v => finish n (inl v) c1
  | Sends method params =>
      let k := continuation_of op c1 in
      let '(w, r) := open_request method params n write (cl_wire c1) in
      match r with
      | inl id_ => set_call n (Waiting k id_) (set_wire w c1)
      | inr e => conclude n k (inr e) (set_wire w c1)
      end
  end.

Definition set_lock (holder : option nat) (queue : list nat) (c : Client) : Client :=
  set_life (MkLifecycle (lf_shutdown_started (cl_life c)) (lf_restart_required (cl_life c)) holder queue) c.

(** A new call. *)
Definition begin_call (op : operation) (write : option exn) (c0 : Client) : Client :=
  let n := ca_count (cl_calls c0) in
  let c := set_calls (MkCalls (S n) (ca_active (cl_calls c0)) (ca_outcomes (cl_calls c0))) c0 in
  match precheck op c with
  | Some e => finish n (inr e) c
  | None =>
      if takes_lock op then
        match lf_lock (cl_life c), lf_queue (cl_life c) with
        | None, [] => run_call n op write (set_lock (Some n) [] c)
        | holder, queue => set_call n (Queued op) (set_lock holder (queue ++ [n]) c)
        end
      else run_call n op write c
  end.

(** The free lock goes to the call that waits longest. *)
Definition acquire (write : option exn) (c : Client) : option Client :=
  match lf_lock (cl_life c), lf_queue (cl_life c) with
  | None, n :: queue =>
      match ca_active (cl_calls c) !! n with
      | Some (Queued op) => Some (run_call n op write (set_calls (without n (cl_calls c)) (set_lock (Some n) queue c)))
      | _ => None
      end
  | _, _ => None
  end.

(** The request's [finally], with the future of call [n]. *)
Definition forget (n : nat) (id_ : Z) (c : Client) : Client :=
  let w := cl_wire c in
  set_wire (MkWire (wr_next_id w) (delete id_ (wr_pending w)) (delete n (wr_resolved w)) (wr_read w) (wr_closed w)
              (wr_close w) (wr_sent w) (wr_responses w)) c.

(** Call [n] resumes with its done future. *)
Definition wake (n : nat) (c : Client) : option Client :=
  match ca_active (cl_calls c) !! n, wr_resolved (cl_wire c) !! n with
  | Some (Waiting k id_), Some r => Some (conclude n k r (forget n id_ c))
  | _, _ => None
  end.

(** Call [n] is ended where it waits: its caller is cancelled, or the
    writer's [drain] raises. *)
Definition interrupt (n : nat) (e : client_error) (c : Client) : option Client :=
  match ca_active (cl_calls c) !! n with
  | Some (Waiting k id_) => Some (conclude n k (inr e) (forget n id_ c))
  | Some (Queued _) =>
      match e with
      | Cancelled =>
          Some (finish n (inr Cancelled)
                  (set_lock (lf_lock (cl_life c)) (base.filter (fun m => m <> n) (lf_queue (cl_life c))) c))
      | _ => None
      end
  | None => None
  end.

(** ** The read loop *)

(** The key of an id in the dictionary of futures: [True] and [1] are equal
    keys. *)
Definition id_key (i : JsonRpcId) : option Z :=
  match i with IdInt (PInt z) => Some z | IdInt (PBool b) => Some (Z.b2z b) | _ => None end.

Definition resolution_of (r : JsonRpcResponse) : resolution :=
  match rp_error r with Some e => inr (Protocol (re_message e)) | None => inl (rp_result r) end.

Definition read_response (r : JsonRpcResponse) (w : Wire) : Wire :=
  let w' := MkWire (wr_next_id w) (wr_pending w) (wr_resolved w) (wr_read w) (wr_closed w) (wr_close w) (wr_sent w)
              (wr_responses w ++ [r]) in
  match id_key (rp_id r) with
  | None => w'
  | Some id_ =>
      match wr_pending w !! id_ with
      | None => w'
      | Some n =>
          MkWire (wr_next_id w) (delete id_ (wr_pending w)) (<[n := resolution_of r]> (wr_resolved w)) (wr_read w)
            (wr_closed w) (wr_close w) (wr_sent w) (wr_responses w ++ [r])
      end
  end.

(** The loop's [finally]: every future that waits gets a fresh terminal
    error. *)
Definition terminate (t : terminal) (w : Wire) : Wire :=
  let w' := MkWire (wr_next_id w) ∅ (wr_resolved w) Ended (Some t) (wr_close w) (wr_sent w) (wr_responses w) in
  let e := fresh_terminal_error w' in
  MkWire (wr_next_id w) ∅
    (map_fold (fun _ n resolved => <[n := inr e]> resolved) (wr_resolved w) (wr_pending w))
    Ended (Some t) (wr_close w) (wr_sent w) (wr_responses w).

(** [_terminal_sentinel] of an exception of [decode_message]. *)
Definition sentinel (e : exn) : terminal :=
  match e with ProtocolError _ => ProtocolFailed | _ => StreamClosed end.

(** One line, [b''] at the end of the stream. *)
Definition read_line (line : list Z) (c : Client) : Client :=
  match line with
  | [] => set_wire (terminate StreamEof (cl_wire c)) c
  | _ =>
      match decode_message limits (Bytes line) with
      | Ok (MResponse r) => set_wire (read_response r (cl_wire c)) c
      | Ok (MNotification nt) =>
          if bool_decide (nt_method nt = FEATURE_EVENT)
          then set_events (ClientEvents.receive (nt_params nt) (cl_events c)) c
          else c
      | Ok (MRequest _) => c
      | Raise e => set_wire (terminate (sentinel e) (cl_wire c)) c
      end
  end.

(** ** Steps *)

Inductive event : Type :=
| Begin (op : operation) (write : option exn)
| Acquire (write : option exn)
| Wake (n : nat)
| Interrupt (n : nat) (e : client_error)
| Line (line : list Z)
| ReadFails
| OnEvent (handler : positive)
| StartDrain
| Grant
| HandlerDone (ok : bool)
| BeginClose
| FinishClose.

Definition reading (c : Client) : bool :=
  match wr_read (cl_wire c) with Reading => negb (ClientEvents.reader_busy (cl_events c)) | _ => false end.

Definition begin_close (c : Client) : Client :=
  let l := cl_life c in
  let w := cl_wire c in
  let joined := match wr_read w with NotStarted => false | _ => true end in
  set_life (MkLifecycle true (lf_restart_required l) (lf_lock l) (lf_queue l))
    (set_wire (MkWire (wr_next_id w) (wr_pending w) (wr_resolved w) (wr_read w) (wr_closed w)
                 (match wr_close w with Open => Closing joined | s => s end) (wr_sent w) (wr_responses w)) c).

(** The close task, once the tasks it joins are done. *)
Definition finish_close (c : Client) : option Client :=
  let w := cl_wire c in
  let done joined := match joined, wr_read w with false, _ => true | true, Ended => true | _, _ => false end in
  match wr_close w with
  | Closing joined =>
      if done joined && ClientEvents.lock_free (cl_events c) then
        Some (set_events (ClientEvents.clear_events (cl_events c))
                (set_wire (MkWire (wr_next_id w) (wr_pending w) (wr_resolved w)
                             (if joined then NotStarted else wr_read w) (Some StreamClosed) Closed (wr_sent w)
                             (wr_responses w)) c))
      else None
  | _ => None
  end.

(** One step; [None] when the event is not possible. *)
Definition step (e : event) (c : Client) : option Client :=
  match e with
  | Begin op write => Some (begin_call op write c)
  | Acquire write => acquire write c
  | Wake n => wake n c
  | Interrupt n e => interrupt n e c
  | Line line => if reading c then Some (read_line line c) else None
  | ReadFails =>
      match wr_read (cl_wire c) with
      | Reading =>
          match ClientEvents.ev_active (cl_events c) with
          | Some (ClientEvents.MkDelivery ClientEvents.Reader _ _ _) => None
          | _ => Some (set_events (ClientEvents.drop_held (cl_events c))
                         (set_wire (terminate StreamClosed (cl_wire c)) c))
          end
      | _ => None
      end
  | OnEvent h =>
      Some (if lf_shutdown_started (cl_life c) then c else set_events (ClientEvents.on_event h (cl_events c)) c)
  | StartDrain => (fun e => set_events e c) <$> ClientEvents.start_drain (cl_events c)
  | Grant => (fun e => set_events e c) <$> ClientEvents.grant (cl_events c)
  | HandlerDone ok =>
      match ClientEvents.handler_done ok (cl_events c) with
      | Some (e, true) => Some (set_events e (set_wire (terminate StreamClosed (cl_wire c)) c))
      | Some (e, false) => Some (set_events e c)
      | None => None
      end
  | BeginClose => Some (begin_close c)
  | FinishClose => finish_close c
  end.

Fixpoint run (es : list event) (c : Client) : option Client :=
  match es with
  | [] => Some c
  | e :: es' => c' ← step e c; run es' c'
  end.
End Client.
