(* ===== verification/RpcClientProps.v ===== *)
(** * The isolated feature client: theorems

    Every call ends once, with what the service answered under the call's own
    id or with a terminal error; a dead stream leaves no call waiting; and a
    client fenced for replacement sends nothing but the handshake and
    shutdown. *)

From stdpp Require Import gmap.
From S2P Require Export RpcClient.

Section Props.
Variable limits : json_limits.

(** ** Invariant *)

(** Where the result of a future comes from. *)
Definition resolves (w : Wire) (id_ : Z) (r : resolution) : Prop :=
  (exists resp, resp ∈ wr_responses w /\ id_key (rp_id resp) = Some id_ /\ r = resolution_of resp)
  \/ exists e, r = inr e.

(** What an operation returns, against the result it was sent. *)
Definition reads_as (v : value) (t : fjson) : Prop :=
  match v with
  | Json t' => t' = t
  | Tools l => exists d items, t = FMap d /\ dict_get (u "tools") d = FTuple items /\ traverse metadata_of items = Ok l
  | Transition r => exists d, t = FMap d /\ transition_result_from_dict d = Ok r
  end.

(** Call [n] wrote a request and a response to it carried [v]. *)
Definition answered (w : Wire) (n : nat) (v : value) : Prop :=
  exists rq id_ resp, (n, rq) ∈ wr_sent w /\ rq_id rq = IdInt (PInt id_)
    /\ resp ∈ wr_responses w /\ id_key (rp_id resp) = Some id_ /\ rp_error resp = None
    /\ reads_as v (rp_result resp).

Record wire_ok (w : Wire) (a : Calls) : Prop := {
  wk_pending : forall id_ n, wr_pending w !! id_ = Some n ->
    wr_resolved w !! n = None /\ exists k, ca_active a !! n = Some (Waiting k id_);
  wk_resolved : forall n r, wr_resolved w !! n = Some r ->
    exists k id_, ca_active a !! n = Some (Waiting k id_) /\ resolves w id_ r;
  wk_waiting : forall n k id_, ca_active a !! n = Some (Waiting k id_) ->
    1 <= id_ <= wr_next_id w /\ (exists rq, (n, rq) ∈ wr_sent w /\ rq_id rq = IdInt (PInt id_))
    /\ (wr_pending w !! id_ = Some n \/ is_Some (wr_resolved w !! n));
  wk_distinct : forall n m k k' id_, ca_active a !! n = Some (Waiting k id_) ->
    ca_active a !! m = Some (Waiting k' id_) -> n = m;
  wk_dead : wr_read w <> Reading -> wr_pending w = ∅;
  wk_ended : wr_read w = Ended -> wr_closed w <> None;
  wk_ids : forall n rq, (n, rq) ∈ wr_sent w -> exists id_, rq_id rq = IdInt (PInt id_) /\ 1 <= id_ <= wr_next_id w;
  wk_sent : NoDup (rq_id <$> (wr_sent w).*2);
  wk_next : 0 <= wr_next_id w
}.

(** [cur] is the call that runs, if one does: neither waiting nor ended. *)
Record calls_ok (cur : option nat) (w : Wire) (l : Lifecycle) (a : Calls) : Prop := {
  ak_once : NoDup (ca_outcomes a).*1;
  ak_all : forall n, (n < ca_count a)%nat <->
    n ∈ (ca_outcomes a).*1 \/ is_Some (ca_active a !! n) \/ cur = Some n;
  ak_apart : forall n, n ∈ (ca_outcomes a).*1 -> ca_active a !! n = None /\ cur <> Some n;
  ak_cur : forall n, cur = Some n -> ca_active a !! n = None;
  ak_results : forall n v, (n, inl v) ∈ ca_outcomes a -> v = Json restart_required_health \/ answered w n v;
  ak_lock : forall n, lf_lock l = Some n -> cur = Some n \/ exists k id_, ca_active a !! n = Some (Waiting k id_);
  ak_queue : forall n, n ∈ lf_queue l <-> exists op, ca_active a !! n = Some (Queued op);
  ak_nodup : NoDup (lf_queue l)
}.

Definition fence_ok (c : Client) : Prop := restart_required c = true -> ng_ready (cl_negotiated c) = false.

Record client_ok (c : Client) : Prop := {
  ck_wire : wire_ok (cl_wire c) (cl_calls c);
  ck_calls : calls_ok None (cl_wire c) (cl_life c) (cl_calls c);
  ck_fenced : fence_ok c
}.

(** ** Settling a call touches only what was negotiated and the fence *)

Record frame (c c' : Client) : Prop := {
  fr_version : cl_protocol_version c' = cl_protocol_version c;
  fr_wire : cl_wire c' = cl_wire c;
  fr_calls : cl_calls c' = cl_calls c;
  fr_events : cl_events c' = cl_events c;
  fr_lock : lf_lock (cl_life c') = lf_lock (cl_life c);
  fr_queue : lf_queue (cl_life c') = lf_queue (cl_life c);
  fr_restart : restart_required c = true -> restart_required c' = true;
  fr_fence : fence_ok c -> fence_ok c'
}.

#[local] Hint Constructors frame : core.

Lemma frame_refl c : frame c c.
Proof. by split. Qed.

Lemma frame_mark c : frame c (mark_restart_required c).
Proof. by split. Qed.

Lemma frame_unready c : frame c (set_ready false c).
Proof. by split. Qed.

Lemma frame_negotiated c g :
  ng_ready g = ng_ready (cl_negotiated c) -> frame c (set_negotiated g c).
Proof. intros Hg. split; try done. unfold fence_ok, restart_required. cbn. by rewrite Hg. Qed.

Lemma frame_ready c b : restart_required c = false -> frame c (set_ready b c).
Proof. intros H. split; try done. unfold fence_ok. change (restart_required (set_ready b c)) with (restart_required c). congruence. Qed.

#[local] Hint Resolve frame_refl frame_mark frame_unready frame_negotiated frame_ready : core.

Lemma settle_frame k r c : frame c (settle limits k r c).1.
Proof.
  destruct k; cbn [settle].
  - unfold settle_initialize. destruct r as [[]|]; cbn [fst]; auto. destruct (negb _); cbn [fst]; auto.
    destruct (dict_field "serverInfo" _); cbn [fst]; auto. destruct (dict_field "capabilities" _); cbn [fst]; auto.
  - unfold settle_health. destruct r as [[]|]; cbn [fst]; auto. destruct (restart_required c) eqn:Hr; cbn [fst]; auto.
    destruct (reports_ready _); cbn [fst]; auto.
  - unfold settle_list_tools. destruct r as [[]|]; cbn [fst]; auto. destruct (dict_get _ _); cbn [fst]; auto.
    destruct (traverse _ _); cbn [fst]; auto.
  - destruct r; cbn; auto.
  - unfold settle_host_ingress. destruct r as [t|[]]; cbn [fst]; auto. destruct (object_of t).
    destruct (validate_host_ingress_payload _ _ _); cbn [fst]; auto.
  - unfold settle_transition. destruct r as [[]|e]; cbn [fst]; auto.
    + destruct (transition_result_from_dict _) as [t|[]]; cbn [fst]; auto. destruct (tr_action t); cbn [fst]; auto.
      destruct supports_live_apply; cbn [fst]; auto.
    + destruct e; cbn [fst]; auto; destruct (_ && _); cbn [fst]; auto.
  - unfold settle_shutdown. destruct r as [[]|]; cbn; auto.
Qed.

(** An operation returns what the response carried. *)
Lemma settle_reads k r c v : (settle limits k r c).2 = inl v ->
  v = Json restart_required_health \/ exists t, r = inl t /\ reads_as v t.
Proof.
  destruct k; cbn [settle].
  - unfold settle_initialize. destruct r as [[| | | | | |d]|]; try done. destruct (negb _); [done|].
    destruct (dict_field "serverInfo" _); [|done]. destruct (dict_field "capabilities" _); [|done].
    intros [= <-]. right. by eexists.
  - unfold settle_health. destruct r as [[| | | | | |d]|]; try done. destruct (restart_required c).
    { intros [= <-]. by left. }
    destruct (reports_ready _); [|done]. intros [= <-]. right. by eexists.
  - unfold settle_list_tools. destruct r as [[| | | | | |d]|]; try done. destruct (dict_get _ _) as [| | | | |items|] eqn:Hd; try done.
    destruct (traverse _ _) eqn:Ht; [|done]. intros [= <-]. right. eexists. split; [done|]. by exists d, items.
  - destruct r; cbn; [|done]. intros [= <-]. right. by eexists.
  - unfold settle_host_ingress. destruct r as [t|[]]; cbn [snd]; try done. destruct (object_of t).
    destruct (validate_host_ingress_payload _ _ _); [|done]. intros [= <-]. right. by eexists.
  - unfold settle_transition. destruct r as [[| | | | | |d]|e]; try done.
    + destruct (transition_result_from_dict _) as [t|[]] eqn:Ht; try done. destruct (tr_action t).
      * intros [= <-]. right. eexists. split; [done|]. by exists d.
      * destruct supports_live_apply; [|done]. intros [= <-]. right. eexists. split; [done|]. by exists d.
    + destruct e; try done; destruct (_ && _); done.
  - unfold settle_shutdown. destruct r as [[]|]; try done. intros [= <-]. right. by eexists.
Qed.

(** The gates do not touch the wire or the calls. *)
Lemma gate_frame op c : frame c (gate limits op c).1.
Proof.
  destruct op; cbn [gate]; auto.
  - destruct (restart_required c); cbn; auto.
  - destruct (lf_shutdown_started _); cbn [fst]; auto.
Qed.

Lemma gate_answers op c v : (gate limits op c).2 = Answered v -> v = Json restart_required_health.
Proof.
  destruct op; cbn [gate]; try done.
  - destruct (restart_required c); [by intros [= <-]|done].
  - cbn. destruct (restart_required c); [done|]. by destruct (negb _).
  - cbn. unfold gate_call_tool. destruct (restart_required c); [done|]. destruct (negb _); [done|].
    destruct context as [[]|]; try done. destruct (tool_execution_context_capabilities _); [|done].
    by destruct (context_caps_supports _ _).
  - cbn. unfold gate_host_ingress. destruct (_ || _); [done|]. destruct (validate_host_ingress_name _); [|done].
    destruct (validate_host_ingress_payload _ _ _); [|done]. destruct (dumps_tree _ _); [|done].
    destruct (host_ingress_capabilities _); [|done]. by destruct (ingress_caps_supports _ _).
  - cbn. unfold gate_transition. destruct next_config; [|done]. destruct (lf_shutdown_started _); [done|].
    destruct (restart_required c); [done|]. by destruct (config_transition_capabilities _).
  - by destruct (lf_shutdown_started _).
Qed.

(** ** The tables *)

Definition with_call (n : nat) (s : call_state) (a : Calls) : Calls :=
  MkCalls (ca_count a) (<[n := s]> (ca_active a)) (ca_outcomes a).

Lemma without_none n a : ca_active a !! n = None -> without n a = a.
Proof. intros H. unfold without. rewrite delete_id by done. by destruct a. Qed.

Lemma wire_ok_active w a a' : ca_active a' = ca_active a -> wire_ok w a -> wire_ok w a'.
Proof. intros E []. split; rewrite ?E; auto. Qed.

Lemma resolves_mono w w' id_ r : (forall x, x ∈ wr_responses w -> x ∈ wr_responses w') ->
  resolves w id_ r -> resolves w' id_ r.
Proof. intros H [(resp & ? & ? & ?)|?]; [left; exists resp; auto|by right]. Qed.

Lemma answered_mono w w' n v : (forall x, x ∈ wr_sent w -> x ∈ wr_sent w') ->
  (forall x, x ∈ wr_responses w -> x ∈ wr_responses w') -> answered w n v -> answered w' n v.
Proof. intros Hs Hr (rq & id_ & resp & ? & ? & ? & ? & ? & ?). exists rq, id_, resp. auto 10. Qed.

Lemma calls_ok_mono cur w w' l l' a :
  (forall x, x ∈ wr_sent w -> x ∈ wr_sent w') -> (forall x, x ∈ wr_responses w -> x ∈ wr_responses w') ->
  lf_lock l' = lf_lock l -> lf_queue l' = lf_queue l -> calls_ok cur w l a -> calls_ok cur w' l' a.
Proof.
  intros Hs Hr Hl Hq []. split; rewrite ?Hl, ?Hq; try done.
  intros n v Hv. destruct (ak_results0 n v Hv); [by left|right]. by eapply answered_mono.
Qed.

(** A call that does not wait for a response can come and go. *)
Lemma wire_ok_queue n op w a : ca_active a !! n = None -> wire_ok w a -> wire_ok w (with_call n (Queued op) a).
Proof.
  intros Hn []. assert (Hne : forall m s, ca_active a !! m = Some s -> m <> n) by (intros m s Hm ->; congruence).
  split; cbn; try done.
  - intros id_ m Hm. destruct (wk_pending0 id_ m Hm) as (? & k & Hk). split; [done|]. exists k.
    rewrite lookup_insert_ne by (symmetry; eauto). done.
  - intros m r Hm. destruct (wk_resolved0 m r Hm) as (k & id_ & Hk & ?). exists k, id_.
    rewrite lookup_insert_ne by (symmetry; eauto). done.
  - intros m k id_. rewrite lookup_insert_Some. intros [[_ [=]]|[_ Hm]]. by apply (wk_waiting0 m k).
  - intros m m' k k' id_. rewrite !lookup_insert_Some. intros [[_ [=]]|[_ Hm]] [[_ [=]]|[_ Hm']]. by eapply wk_distinct0.
Qed.

Lemma wire_ok_unqueue n op w a : ca_active a !! n = Some (Queued op) -> wire_ok w a -> wire_ok w (without n a).
Proof.
  intros Hn []. assert (Hne : forall m k id_, ca_active a !! m = Some (Waiting k id_) -> m <> n)
    by (intros m k id_ Hm ->; congruence).
  split; cbn; try done.
  - intros id_ m Hm. destruct (wk_pending0 id_ m Hm) as (? & k & Hk). split; [done|]. exists k.
    rewrite lookup_delete_ne by (symmetry; eauto). done.
  - intros m r Hm. destruct (wk_resolved0 m r Hm) as (k & id_ & Hk & ?). exists k, id_.
    rewrite lookup_delete_ne by (symmetry; eauto). done.
  - intros m k id_. rewrite lookup_delete_Some. intros [_ Hm]. by apply (wk_waiting0 m k).
  - intros m m' k k' id_. rewrite !lookup_delete_Some. intros [_ Hm] [_ Hm']. by eapply wk_distinct0.
Qed.

(** A waiting call leaves with its future. *)
Lemma forget_wire_ok n k id_ c :
  ca_active (cl_calls c) !! n = Some (Waiting k id_) -> wire_ok (cl_wire c) (cl_calls c) ->
  wire_ok (cl_wire (forget n id_ c)) (without n (cl_calls c)).
Proof.
  intros Hn []. set (w := cl_wire c) in *. set (a := cl_calls c) in *. split; cbn; fold w a; try done.
  - intros i m. rewrite lookup_delete_Some. intros [Hi Hm]. destruct (wk_pending0 i m Hm) as (Hr & k' & Hk').
    assert (m <> n) by (intros ->; congruence).
    rewrite lookup_delete_ne by done. split; [done|]. exists k'. by rewrite lookup_delete_ne.
  - intros m r. rewrite lookup_delete_Some. intros [Hi Hm]. destruct (wk_resolved0 m r Hm) as (k' & i & Hk' & Hr).
    exists k', i. rewrite lookup_delete_ne by done. done.
  - intros m k' i. rewrite lookup_delete_Some. intros [Hi Hm]. destruct (wk_waiting0 m k' i Hm) as (? & ? & Hw).
    split; [done|]. split; [done|]. rewrite !lookup_delete_ne; [done|done|]. intros ->. apply Hi. by eapply wk_distinct0.
  - intros m m' k' k2 i. rewrite !lookup_delete_Some. intros [_ Hm] [_ Hm']. by eapply wk_distinct0.
  - intros Hd. by rewrite (wk_dead0 Hd), delete_empty.
Qed.

(** ** The calls *)

Lemma calls_fresh w l a : calls_ok None w l a ->
  calls_ok (Some (ca_count a)) w l (MkCalls (S (ca_count a)) (ca_active a) (ca_outcomes a)).
Proof.
  intros []. assert (Hn : ~ (ca_count a < ca_count a)%nat) by lia. rewrite ak_all0 in Hn.
  assert (Hact : ca_active a !! ca_count a = None).
  { destruct (ca_active a !! ca_count a) eqn:E; [|done]. exfalso. eauto 6. }
  split; cbn; try done.
  - intros n. specialize (ak_all0 n). destruct (decide (n = ca_count a)) as [->|Hne]; [split; [auto|lia]|].
    split.
    + intros Hlt. destruct (proj1 ak_all0) as [?|[?|?]]; [lia|auto..]. done.
    + intros [?|[?|[= <-]]]; [| |done]; assert (n < ca_count a)%nat by (apply ak_all0; auto); lia.
  - intros n Hn'. split; [by apply ak_apart0|]. intros [= <-]. tauto.
  - by intros n [= <-].
  - intros n Hl. right. by destruct (ak_lock0 n Hl).
Qed.

(** The running call ends. *)
Lemma calls_finish n o w l l' a :
  calls_ok (Some n) w l a -> (forall v, o = inl v -> v = Json restart_required_health \/ answered w n v) ->
  lf_lock l' = (if bool_decide (lf_lock l = Some n) then None else lf_lock l) -> lf_queue l' = lf_queue l ->
  calls_ok None w l' (MkCalls (ca_count a) (ca_active a) (ca_outcomes a ++ [(n, o)])).
Proof.
  intros [] Ho Hl Hq. pose proof (ak_cur0 n eq_refl) as Hn.
  split; cbn; rewrite ?Hq, ?fmap_app; cbn; try done.
  - apply list.NoDup_app. split_and!; [done| |apply NoDup_singleton]. intros m Hm ->%list_elem_of_singleton.
    by destruct (ak_apart0 n Hm).
  - intros m. rewrite ak_all0, elem_of_app, list_elem_of_singleton. split; [|naive_solver].
    intros [?|[?|[= ->]]]; auto.
  - intros m. rewrite elem_of_app, list_elem_of_singleton. intros [Hm| ->]; [|done]. split; [|done].
    by apply ak_apart0.
  - intros m v. rewrite elem_of_app, list_elem_of_singleton. intros [Hm|[= -> <-]]; [by apply ak_results0|].
    by apply Ho.
  - intros m. rewrite Hl. case_bool_decide as Hb; [done|]. intros Hm.
    destruct (ak_lock0 m Hm) as [[= ->]|?]; [done|by right].
Qed.

(** The running call waits for its response. *)
Lemma calls_wait n k id_ w l a : calls_ok (Some n) w l a -> calls_ok None w l (with_call n (Waiting k id_) a).
Proof.
  intros []. pose proof (ak_cur0 n eq_refl) as Hn. split; cbn; try done.
  - intros m. rewrite ak_all0. destruct (decide (m = n)) as [->|Hne].
    + rewrite lookup_insert_eq. split; eauto.
    + rewrite lookup_insert_ne by done. naive_solver.
  - intros m Hm. destruct (ak_apart0 m Hm) as [? Hne]. split; [|done]. rewrite lookup_insert_ne by congruence. done.
  - intros m Hm. right. destruct (decide (m = n)) as [->|Hne]; [rewrite lookup_insert_eq; eauto|].
    rewrite lookup_insert_ne by done. destruct (ak_lock0 m Hm) as [[= ->]|?]; done.
  - intros m. rewrite ak_queue0. destruct (decide (m = n)) as [->|Hne].
    + rewrite lookup_insert_eq, Hn. split; intros [op [=]].
    + by rewrite lookup_insert_ne.
Qed.

(** The running call queues for the lock. *)
Lemma calls_queue n op w l l' a : calls_ok (Some n) w l a -> lf_lock l <> Some n ->
  lf_lock l' = lf_lock l -> lf_queue l' = lf_queue l ++ [n] -> calls_ok None w l' (with_call n (Queued op) a).
Proof.
  intros [] Hne Hl Hq. pose proof (ak_cur0 n eq_refl) as Hn. split; cbn; rewrite ?Hl, ?Hq; try done.
  - intros m. rewrite ak_all0. destruct (decide (m = n)) as [->|Hnm].
    + rewrite lookup_insert_eq. split; eauto.
    + rewrite lookup_insert_ne by done. naive_solver.
  - intros m Hm. destruct (ak_apart0 m Hm) as [? Hnm]. split; [|done]. rewrite lookup_insert_ne by congruence. done.
  - intros m Hm. right. destruct (decide (m = n)) as [->|Hnm]; [done|]. rewrite lookup_insert_ne by done.
    destruct (ak_lock0 m Hm) as [[= ->]|?]; done.
  - intros m. rewrite elem_of_app, list_elem_of_singleton, ak_queue0. destruct (decide (m = n)) as [->|Hnm].
    + rewrite lookup_insert_eq. split; eauto.
    + rewrite lookup_insert_ne by done. naive_solver.
  - apply list.NoDup_app. split_and!; [done| |apply NoDup_singleton]. intros m Hm ->%list_elem_of_singleton.
    apply ak_queue0 in Hm as [? ?]. congruence.
Qed.

(** A waiting call runs again. *)
Lemma calls_resume n k id_ w l a : calls_ok None w l a -> ca_active a !! n = Some (Waiting k id_) ->
  calls_ok (Some n) w l (without n a).
Proof.
  intros [] Hn. split; cbn; try done.
  - intros m. rewrite ak_all0. destruct (decide (m = n)) as [->|Hnm].
    + split; eauto.
    + rewrite lookup_delete_ne by done. naive_solver.
  - intros m Hm. destruct (ak_apart0 m Hm) as [? _]. split; [|congruence]. rewrite lookup_delete_None. auto.
  - intros m [= <-]. apply lookup_delete_eq.
  - intros m Hm. destruct (decide (m = n)) as [->|Hnm]; [by left|]. right. rewrite lookup_delete_ne by done.
    by destruct (ak_lock0 m Hm).
  - intros m. rewrite ak_queue0. destruct (decide (m = n)) as [->|Hnm].
    + rewrite lookup_delete_eq, Hn. split; intros [op [=]].
    + by rewrite lookup_delete_ne.
Qed.

(** A queued call runs: granted the lock, or cancelled. *)
Lemma calls_unqueue n op w l l' a : calls_ok None w l a -> ca_active a !! n = Some (Queued op) ->
  (lf_lock l' = Some n \/ lf_lock l' = lf_lock l) -> lf_queue l' = base.filter (fun m => m <> n) (lf_queue l) ->
  calls_ok (Some n) w l' (without n a).
Proof.
  intros [] Hn Hl Hq. split; cbn; rewrite ?Hq; try done.
  - intros m. rewrite ak_all0. destruct (decide (m = n)) as [->|Hnm].
    + split; eauto.
    + rewrite lookup_delete_ne by done. naive_solver.
  - intros m Hm. destruct (ak_apart0 m Hm) as [? _]. split; [|congruence]. rewrite lookup_delete_None. auto.
  - intros m [= <-]. apply lookup_delete_eq.
  - intros m Hm. destruct (decide (m = n)) as [->|Hnm]; [by left|]. right. rewrite lookup_delete_ne by done.
    destruct Hl as [Hl|Hl]; rewrite Hl in Hm; [congruence|]. by destruct (ak_lock0 m Hm).
  - intros m. rewrite list_elem_of_filter, ak_queue0. destruct (decide (m = n)) as [->|Hnm].
    + rewrite lookup_delete_eq. split; [tauto|intros [op' [=]]].
    + rewrite lookup_delete_ne by done. naive_solver.
  - by apply list.NoDup_filter.
Qed.

(** ** The wire *)

Lemma start_ok w a : wire_ok w a -> wire_ok (start w) a.
Proof.
  intros Hw. unfold start. destruct (wr_closed w) eqn:Hc; [done|]. destruct (wr_read w) eqn:Hr; try done.
  destruct Hw. split; cbn; try done.
Qed.

Lemma open_request_ok method params n write w a w' r k :
  wire_ok w a -> ca_active a !! n = None -> open_request limits method params n write w = (w', r) ->
  (forall x, x ∈ wr_sent w -> x ∈ wr_sent w') /\ wr_responses w' = wr_responses w
  /\ match r with
     | inl id_ => wire_ok w' (with_call n (Waiting k id_) a)
     | inr _ => wire_ok w' a
     end.
Proof.
  intros Hw Hn. unfold open_request. pose proof (start_ok w a Hw) as Hs.
  assert (Hsame : wr_sent (start w) = wr_sent w /\ wr_responses (start w) = wr_responses w).
  { unfold start. destruct (wr_closed w), (wr_read w); done. }
  destruct Hsame as [Hs1 Hs2].
  destruct (wr_closed (start w)) eqn:Hc; [intros [= <- <-]; rewrite Hs1; done|].
  assert (Hused : wire_ok (MkWire (wr_next_id (start w) + 1) (wr_pending (start w)) (wr_resolved (start w))
                    (wr_read (start w)) None (wr_close (start w)) (wr_sent (start w)) (wr_responses (start w))) a).
  { destruct Hs. split; cbn; try done.
    - intros m k' i Hm. destruct (wk_waiting0 m k' i Hm) as (? & ? & ?). split; [lia|done].
    - intros Hr. specialize (wk_ended0 Hr). congruence.
    - intros m rq Hm. destruct (wk_ids0 m rq Hm) as (i & ? & ?). exists i. split; [done|lia].
    - lia. }
  destruct (encode_message _ _) eqn:He; [destruct write as [e|]|]; intros [= <- <-]; cbn;
    rewrite ?Hc, ?Hs1, ?Hs2 in *; [done| |done].
  split; [intros x Hx; apply elem_of_app; by left|]. split; [done|]. clear Hused.
  rewrite <- Hs1, <- Hs2. destruct Hs. set (w1 := start w) in *. set (i0 := wr_next_id w1 + 1).
  assert (Hres : wr_resolved w1 !! n = None).
  { destruct (wr_resolved w1 !! n) as [r|] eqn:E; [|done]. destruct (wk_resolved0 n r E) as (? & ? & ? & _). congruence. }
  assert (Hold : forall m k' i, ca_active a !! m = Some (Waiting k' i) -> m <> n /\ i <> i0).
  { intros m k' i Hm. split; [intros ->; congruence|]. destruct (wk_waiting0 m k' i Hm) as (? & _). lia. }
  split; cbn; try done.
  - intros i m. rewrite lookup_insert_Some. intros [[<- <-]|[Hi Hm]].
    + split; [done|]. exists k. by rewrite lookup_insert_eq.
    + destruct (wk_pending0 i m Hm) as (? & k' & Hk'). split; [done|]. exists k'.
      rewrite lookup_insert_ne; [done|]. destruct (Hold _ _ _ Hk'). done.
  - intros m r Hm. destruct (wk_resolved0 m r Hm) as (k' & i & Hk' & ?). exists k', i.
    rewrite lookup_insert_ne; [done|]. destruct (Hold _ _ _ Hk'). done.
  - intros m k' i. rewrite lookup_insert_Some. intros [[<- [= <- <-]]|[Hne Hm]].
    + split; [subst i0; lia|]. split; [|left; by rewrite lookup_insert_eq].
      eexists. split; [apply elem_of_app; right; by left|done].
    + destruct (wk_waiting0 m k' i Hm) as (? & (rq & Hrq & ?) & Hor). split; [subst i0; lia|].
      split; [exists rq; split; [apply elem_of_app; by left|done]|].
      destruct (Hold _ _ _ Hm). destruct Hor; [left; by rewrite lookup_insert_ne|by right].
  - intros m m' k1 k2 i. rewrite !lookup_insert_Some.
    intros [[<- [= _ Hi]]|[Hne Hm]] [[<- [= _ Hi']]|[Hne' Hm']]; [done| | |by eapply wk_distinct0].
    + destruct (Hold _ _ _ Hm'). congruence.
    + destruct (Hold _ _ _ Hm). congruence.
  - intros Hr. exfalso. clear Hold Hres. unfold w1, start in *. destruct (wr_closed w) eqn:Hcw; [congruence|].
    destruct (wr_read w) eqn:Hrw; [done|congruence|]. by apply wk_ended0.
  - intros Hr. specialize (wk_ended0 Hr). congruence.
  - intros m rq. rewrite elem_of_app, list_elem_of_singleton. intros [Hm|[= -> ->]].
    + destruct (wk_ids0 m rq Hm) as (i & ? & ?). exists i. split; [done|subst i0; lia].
    + eexists. split; [done|subst i0; lia].
  - rewrite !fmap_app. apply list.NoDup_app. split_and!; [done| |apply NoDup_singleton].
    intros x Hx Hx'. cbn in Hx'. apply list_elem_of_singleton in Hx' as ->.
    apply list_elem_of_fmap in Hx as (rq & Hrq & Hx). apply list_elem_of_fmap in Hx as ([m rq'] & -> & Hx).
    destruct (wk_ids0 m rq' Hx) as (i & Hi & ?). cbn in Hrq. rewrite Hi in Hrq. injection Hrq as Heq. subst i0. lia.
  - fold i0. lia.
Qed.

Lemma terminated_futures (e : client_error) (pending : gmap Z nat) (resolved : gmap nat resolution) :
  let futures := map_fold (fun _ n acc => <[n := inr e]> acc) resolved pending in
  (forall id_ n, pending !! id_ = Some n -> futures !! n = Some (inr e))
  /\ (forall n r, futures !! n = Some r ->
       resolved !! n = Some r \/ r = inr e /\ exists id_, pending !! id_ = Some n)
  /\ (forall n, is_Some (resolved !! n) -> is_Some (futures !! n)).
Proof.
  cbn zeta. apply (map_fold_weak_ind (fun acc m =>
    (forall id_ n, m !! id_ = Some n -> acc !! n = Some (inr e))
    /\ (forall n r, acc !! n = Some r -> resolved !! n = Some r \/ r = inr e /\ exists id_, m !! id_ = Some n)
    /\ (forall n, is_Some (resolved !! n) -> is_Some (acc !! n)))).
  - split_and!; auto. intros id_ n. by rewrite lookup_empty.
  - intros i n m acc Hi (H1 & H2 & H3). split_and!.
    + intros id_ n'. rewrite lookup_insert_Some. intros [[<- <-]|[Hne Hm]]; [by rewrite lookup_insert_eq|].
      destruct (decide (n = n')) as [->|]; [by rewrite lookup_insert_eq|]. rewrite lookup_insert_ne by done. eauto.
    + intros n' r. rewrite lookup_insert_Some. intros [[<- <-]|[Hne Hm]].
      * right. split; [done|]. exists i. by rewrite lookup_insert_eq.
      * destruct (H2 n' r Hm) as [|(? & id_ & Hid)]; [by left|]. right. split; [done|]. exists id_.
        rewrite lookup_insert_ne by congruence. done.
    + intros n' Hn'. destruct (decide (n = n')) as [->|]; [rewrite lookup_insert_eq; eauto|].
      rewrite lookup_insert_ne by done. auto.
Qed.

Lemma terminate_ok t w a : wire_ok w a -> wire_ok (terminate t w) a.
Proof.
  intros []. unfold terminate. set (e := fresh_terminal_error _).
  destruct (terminated_futures e (wr_pending w) (wr_resolved w)) as (H1 & H2 & H3). split; cbn; try done.
  - intros n r Hr. destruct (H2 n r Hr) as [Hr'|(-> & id_ & Hid)].
    + destruct (wk_resolved0 n r Hr') as (k & id_ & ? & ?). exists k, id_. done.
    + destruct (wk_pending0 id_ n Hid) as (_ & k & Hk). exists k, id_. split; [done|]. right. by exists e.
  - intros n k id_ Hn. destruct (wk_waiting0 n k id_ Hn) as (? & ? & Hor). split_and!; try done; try lia.
    right. destruct Hor as [Hp|Hr]; [exists (inr e); exact (H1 _ _ Hp)|exact (H3 _ Hr)].
Qed.

Lemma read_response_ok resp w a : wire_ok w a -> wr_read w = Reading -> wire_ok (read_response resp w) a.
Proof.
  intros [] Hread. assert (Hmono : forall id_ r (w' : Wire), wr_responses w' = wr_responses w ++ [resp] ->
    resolves w id_ r -> resolves w' id_ r).
  { intros id_ r w' Hw'. apply resolves_mono. intros x Hx. rewrite Hw'. apply elem_of_app. by left. }
  assert (Hlog : wire_ok (MkWire (wr_next_id w) (wr_pending w) (wr_resolved w) (wr_read w) (wr_closed w) (wr_close w)
                   (wr_sent w) (wr_responses w ++ [resp])) a).
  { split; cbn; try done. intros n r Hr. destruct (wk_resolved0 n r Hr) as (k & i & ? & ?). exists k, i.
    split; [done|]. by eapply Hmono. }
  unfold read_response. destruct (id_key (rp_id resp)) as [i|] eqn:Hi; [|done].
  destruct (wr_pending w !! i) as [n|] eqn:Hp; [|done]. destruct (wk_pending0 i n Hp) as (Hn & k0 & Hk0).
  split; cbn; try done.
  - intros j m. rewrite lookup_delete_Some. intros [Hj Hm]. destruct (wk_pending0 j m Hm) as (Hr & k & Hk).
    assert (n <> m) by (intros ->; rewrite Hk in Hk0; congruence).
    rewrite lookup_insert_ne by done. eauto.
  - intros m r. rewrite lookup_insert_Some. intros [[<- <-]|[Hne Hm]].
    + exists k0, i. split; [done|]. left. exists resp. split; [|done]. apply elem_of_app. right. by left.
    + destruct (wk_resolved0 m r Hm) as (k & j & ? & ?). exists k, j. split; [done|]. by eapply Hmono.
  - intros m k j Hm. destruct (wk_waiting0 m k j Hm) as (? & ? & Hor). split; [done|]. split; [done|].
    destruct (decide (n = m)) as [<-|Hne]; [right; rewrite lookup_insert_eq; eauto|].
    rewrite lookup_insert_ne by done. destruct Hor as [Hor|]; [|by right]. left.
    rewrite lookup_delete_ne; [done|]. intros ->. congruence.
Qed.

(** ** The operations *)

(** A response to the request of call [n] carried [t]. *)
Definition carried (w : Wire) (n : nat) (t : fjson) : Prop :=
  exists rq id_ resp, (n, rq) ∈ wr_sent w /\ rq_id rq = IdInt (PInt id_)
    /\ resp ∈ wr_responses w /\ id_key (rp_id resp) = Some id_ /\ rp_error resp = None /\ rp_result resp = t.

Lemma call_finish_ok n o c :
  wire_ok (cl_wire c) (without n (cl_calls c)) ->
  calls_ok (Some n) (cl_wire c) (cl_life c) (without n (cl_calls c)) -> fence_ok c ->
  (forall v, o = inl v -> v = Json restart_required_health \/ answered (cl_wire c) n v) ->
  client_ok (finish n o c).
Proof.
  intros Hw Ha Hf Ho. split; [| |done].
  - eapply wire_ok_active; [|exact Hw]. done.
  - exact (calls_finish n o _ _ (cl_life (finish n o c)) _ Ha Ho eq_refl eq_refl).
Qed.

Lemma conclude_ok n k r c :
  wire_ok (cl_wire c) (without n (cl_calls c)) ->
  calls_ok (Some n) (cl_wire c) (cl_life c) (without n (cl_calls c)) -> fence_ok c ->
  (forall t, r = inl t -> carried (cl_wire c) n t) ->
  client_ok (conclude limits n k r c).
Proof.
  intros Hw Ha Hf Hr. unfold conclude. pose proof (settle_frame k r c) as Hfr. pose proof (settle_reads k r c) as Hv.
  destruct (settle limits k r c) as [c' o]. cbn [fst snd] in *. destruct Hfr.
  apply call_finish_ok; rewrite ?fr_wire0, ?fr_calls0; auto.
  - eapply calls_ok_mono; [..|exact Ha]; auto.
  - intros v ->. destruct (Hv v eq_refl) as [|(t & Ht & Hread)]; [by left|right].
    destruct (Hr t Ht) as (rq & id_ & resp & ? & ? & ? & ? & ? & <-). exists rq, id_, resp. auto 10.
Qed.

Lemma run_call_ok n op write c :
  ca_active (cl_calls c) !! n = None -> wire_ok (cl_wire c) (cl_calls c) ->
  calls_ok (Some n) (cl_wire c) (cl_life c) (cl_calls c) -> fence_ok c ->
  client_ok (run_call limits n op write c).
Proof.
  intros Hn Hw Ha Hf. unfold run_call. pose proof (gate_frame op c) as Hfr. pose proof (gate_answers op c) as Hv.
  destruct (gate limits op c) as [c1 g]. cbn [fst snd] in *. destruct Hfr.
  assert (Ha1 : calls_ok (Some n) (cl_wire c1) (cl_life c1) (cl_calls c1)).
  { rewrite fr_calls0. eapply calls_ok_mono; [..|exact Ha]; rewrite ?fr_wire0; auto. }
  rewrite <- fr_calls0, <- fr_wire0 in *. pose proof (without_none n _ Hn) as Hwo.
  destruct g as [e|v|method params].
  - apply call_finish_ok; rewrite ?Hwo; auto. done.
  - apply call_finish_ok; rewrite ?Hwo; auto. intros v' [= <-]. left. auto.
  - destruct (open_request _ _ _ _ _ _) as [w r] eqn:Ho.
    destruct (open_request_ok _ _ _ _ _ _ _ _ (continuation_of op c1) Hw Hn Ho) as (Hs & Hrs & Hw').
    assert (Ha2 : calls_ok (Some n) w (cl_life c1) (cl_calls c1)).
    { eapply calls_ok_mono; [..|exact Ha1]; rewrite ?Hrs; auto. }
    destruct r as [id_|e].
    + split; [exact Hw'|by apply calls_wait|by apply fr_fence0].
    + apply conclude_ok; cbn; rewrite ?Hwo; auto. done.
Qed.

Lemma begin_call_ok op write c : client_ok c -> client_ok (begin_call limits op write c).
Proof.
  intros [Hw Ha Hf]. unfold begin_call.
  assert (Hlk : lf_lock (cl_life c) <> Some (ca_count (cl_calls c))).
  { intros Hl. destruct (ak_lock _ _ _ _ Ha _ Hl) as [|(k & i & Hk)]; [done|].
    assert (ca_count (cl_calls c) < ca_count (cl_calls c))%nat by (apply (ak_all _ _ _ _ Ha); eauto). lia. }
  apply calls_fresh in Ha.
  set (n := ca_count (cl_calls c)) in *.
  set (c0 := set_calls (MkCalls (S n) (ca_active (cl_calls c)) (ca_outcomes (cl_calls c))) c).
  change (MkCalls (S n) (ca_active (cl_calls c)) (ca_outcomes (cl_calls c))) with (cl_calls c0) in Ha.
  change (cl_life c) with (cl_life c0) in Ha. change (cl_wire c) with (cl_wire c0) in *.
  assert (Hw0 : wire_ok (cl_wire c0) (cl_calls c0)) by (eapply wire_ok_active; [|exact Hw]; done).
  assert (Hn : ca_active (cl_calls c0) !! n = None) by by apply (ak_cur _ _ _ _ Ha).
  assert (Hf0 : fence_ok c0) by done.
  destruct (precheck op c0).
  { apply call_finish_ok; rewrite ?without_none; auto. done. }
  destruct (takes_lock op); [|by apply run_call_ok].
  assert (Hqueue : forall holder queue, lf_lock (cl_life c0) = holder -> lf_queue (cl_life c0) = queue ->
            client_ok (set_call n (Queued op) (set_lock holder (queue ++ [n]) c0))).
  { intros holder queue <- <-. split; [by apply wire_ok_queue| |done].
    eapply calls_queue; [exact Ha|exact Hlk|done..]. }
  destruct (lf_lock (cl_life c0)) eqn:Hl; [by apply Hqueue|].
  destruct (lf_queue (cl_life c0)) eqn:Hq; [|by apply Hqueue].
  apply run_call_ok; try done. destruct Ha. split; cbn; try done.
  - intros m [= <-]. by left.
  - by rewrite <- Hq.
  - apply NoDup_nil_2.
Qed.

Lemma acquire_ok write c c' : client_ok c -> acquire limits write c = Some c' -> client_ok c'.
Proof.
  intros [Hw Ha Hf]. unfold acquire. destruct (lf_lock (cl_life c)) eqn:Hl; [done|].
  destruct (lf_queue (cl_life c)) as [|n queue] eqn:Hq; [done|].
  destruct (ca_active (cl_calls c) !! n) as [[op|]|] eqn:Hn; try done. intros [= <-].
  assert (Hfilter : queue = base.filter (fun m => m <> n) (lf_queue (cl_life c))).
  { pose proof (ak_nodup _ _ _ _ Ha) as Hnd. rewrite Hq in *. apply list.NoDup_cons in Hnd as [Hnq _].
    rewrite filter_cons_False by tauto. symmetry. apply filter_id. intros m Hm ->. done. }
  apply run_call_ok; [apply lookup_delete_eq|by eapply wire_ok_unqueue| |done].
  eapply calls_unqueue; [exact Ha|exact Hn|by left|exact Hfilter].
Qed.

(** Call [n] is released from where it waited for a response. *)
Lemma resume_ok n k id_ r c : client_ok c -> ca_active (cl_calls c) !! n = Some (Waiting k id_) ->
  (forall t, r = inl t -> wr_resolved (cl_wire c) !! n = Some r) ->
  client_ok (conclude limits n k r (forget n id_ c)).
Proof.
  intros [Hw Ha Hf] Hn Hr. apply conclude_ok; [exact (forget_wire_ok n k id_ c Hn Hw)| |done|].
  - eapply (calls_ok_mono _ (cl_wire c) _ (cl_life c)); [by auto..|]. eapply calls_resume; [exact Ha|exact Hn].
  - intros t Ht. specialize (Hr t Ht). destruct (wk_resolved _ _ Hw n r Hr) as (k' & i & Hk & Hres).
    rewrite Hn in Hk. injection Hk as <- <-. destruct (wk_waiting _ _ Hw n k id_ Hn) as (_ & (rq & ? & ?) & _).
    destruct Hres as [(resp & ? & ? & Hre)|[e ->]]; [|done]. exists rq, id_, resp.
    unfold resolution_of in Hre. destruct (rp_error resp) eqn:He; rewrite Ht in Hre; [done|].
    injection Hre as ->. auto 10.
Qed.

Lemma wake_ok n c c' : client_ok c -> wake limits n c = Some c' -> client_ok c'.
Proof.
  intros Hok. unfold wake. destruct (ca_active (cl_calls c) !! n) as [[op|k id_]|] eqn:Hn; try done.
  destruct (wr_resolved (cl_wire c) !! n) as [r|] eqn:Hr; [|done]. intros [= <-]. by apply resume_ok.
Qed.

Lemma interrupt_ok n e c c' : client_ok c -> interrupt limits n e c = Some c' -> client_ok c'.
Proof.
  intros Hok. unfold interrupt. destruct (ca_active (cl_calls c) !! n) as [[op|k id_]|] eqn:Hn; [| |done].
  - destruct e; try done. intros [= <-]. destruct Hok as [Hw Ha Hf].
    apply call_finish_ok; [by eapply wire_ok_unqueue| |done|done].
    eapply calls_unqueue; [exact Ha|exact Hn|by right|done].
  - intros [= <-]. by apply resume_ok.
Qed.

Lemma set_wire_ok w c : wire_ok w (cl_calls c) ->
  (forall x, x ∈ wr_sent (cl_wire c) -> x ∈ wr_sent w) ->
  (forall x, x ∈ wr_responses (cl_wire c) -> x ∈ wr_responses w) -> client_ok c -> client_ok (set_wire w c).
Proof. intros Hw Hs Hr [_ Ha Hf]. split; [done| |done]. eapply calls_ok_mono; [..|exact Ha]; auto. Qed.

Lemma terminate_client_ok t c : client_ok c -> client_ok (set_wire (terminate t (cl_wire c)) c).
Proof. intros Hok. apply set_wire_ok; auto. apply terminate_ok, Hok. Qed.

Lemma set_events_ok e c : client_ok c -> client_ok (set_events e c).
Proof. by intros []. Qed.

Lemma read_line_ok line c : client_ok c -> wr_read (cl_wire c) = Reading ->
  client_ok (read_line limits line c).
Proof.
  intros Hok Hr. unfold read_line. destruct line as [|b line]; [by apply terminate_client_ok|].
  destruct (decode_message _ _) as [[r|nt|r]|e]; [done| | |by apply terminate_client_ok].
  - case_bool_decide; [by apply set_events_ok|done].
  - assert (Hlog : wr_sent (read_response r (cl_wire c)) = wr_sent (cl_wire c)
                   /\ wr_responses (read_response r (cl_wire c)) = wr_responses (cl_wire c) ++ [r]).
    { unfold read_response. destruct (id_key _); [|done]. by destruct (wr_pending _ !! _). }
    destruct Hlog as [Hs Hl]. apply set_wire_ok; [by apply read_response_ok; [apply Hok|]| | |done].
    + by rewrite Hs.
    + rewrite Hl. intros x Hx. apply elem_of_app. by left.
Qed.

Lemma begin_close_ok c : client_ok c -> client_ok (begin_close c).
Proof. intros [Hw Ha Hf]. split; [by destruct Hw|by eapply calls_ok_mono; [..|exact Ha]; auto|done]. Qed.

Lemma finish_close_ok c c' : client_ok c -> finish_close c = Some c' -> client_ok c'.
Proof.
  intros [Hw Ha Hf]. unfold finish_close. destruct (wr_close (cl_wire c)) as [|joined|]; try done.
  destruct (_ && _) eqn:Hd; [|done]. intros [= <-]. split; [|by eapply calls_ok_mono; [..|exact Ha]; auto|done].
  destruct Hw. split; cbn; try done. intros Hr. apply wk_dead0. intros Hrd. apply andb_prop in Hd as [Hd _].
  destruct joined; rewrite Hrd in *; done.
Qed.

Lemma client_step_ok e c c' : client_ok c -> step limits e c = Some c' -> client_ok c'.
Proof.
  intros Hok. destruct e as [op w|w|n|n e|line| |h| | |b| |]; cbn [step].
  - intros [= <-]. by apply begin_call_ok.
  - by apply acquire_ok.
  - by apply wake_ok.
  - by apply interrupt_ok.
  - unfold reading. destruct (wr_read (cl_wire c)) eqn:Hr; try done. destruct (negb _); [|done].
    intros [= <-]. by apply read_line_ok.
  - destruct (wr_read (cl_wire c)); try done.
    destruct (ClientEvents.ev_active _) as [[[] ? ? ?]|]; try done; intros [= <-];
      by apply set_events_ok, terminate_client_ok.
  - intros [= <-]. destruct (lf_shutdown_started _); [done|by apply set_events_ok].
  - destruct (ClientEvents.start_drain _); [|done]. intros [= <-]. by apply set_events_ok.
  - destruct (ClientEvents.grant _); [|done]. intros [= <-]. by apply set_events_ok.
  - destruct (ClientEvents.handler_done _ _) as [[e []]|]; [| |done]; intros [= <-];
      [by apply set_events_ok, terminate_client_ok|by apply set_events_ok].
  - intros [= <-]. by apply begin_close_ok.
  - by apply finish_close_ok.
Qed.

Lemma client_init_ok version : client_ok (client_init version).
Proof.
  split; [|split|]; cbn; try done.
  - split; cbn; try done; intros; try set_solver; by constructor.
  - constructor.
  - intros n. split; [lia|]. intros [Hn|[[? Hn]|Hn]]; [by apply elem_of_nil in Hn|done|done].
  - intros n v Hn. by apply elem_of_nil in Hn.
  - intros n. split; [by intros Hn%elem_of_nil|by intros [? ?]].
  - constructor.
Qed.

Lemma client_run_ok es c c' : client_ok c -> run limits es c = Some c' -> client_ok c'.
Proof.
  revert c; induction es as [|e es IH]; intros c Hc; [by intros [= <-]|]. cbn.
  destruct (step limits e c) as [c1|] eqn:E; [|done]. apply IH. by eapply client_step_ok.
Qed.

(** ** A dead stream *)

Definition dead (c : Client) : Prop := wr_closed (cl_wire c) <> None /\ wr_read (cl_wire c) <> Reading.

Definition settles (e : event) : bool := match e with Wake _ | Acquire _ => true | _ => false end.

Lemma conclude_same n k r c : cl_wire (conclude limits n k r c) = cl_wire c
  /\ ca_active (cl_calls (conclude limits n k r c)) = delete n (ca_active (cl_calls c))
  /\ exists o, ca_outcomes (cl_calls (conclude limits n k r c)) = ca_outcomes (cl_calls c) ++ [(n, o)].
Proof.
  unfold conclude. pose proof (settle_frame k r c) as Hfr. destruct (settle limits k r c) as [c' o].
  destruct Hfr. cbn in *. rewrite fr_wire0, fr_calls0. split_and!; [done..|]. by exists o.
Qed.

(** Nothing is written to a dead stream: a call that runs ends at once. *)
Lemma dead_run_call n op write c : dead c ->
  cl_wire (run_call limits n op write c) = cl_wire c
  /\ ca_active (cl_calls (run_call limits n op write c)) = delete n (ca_active (cl_calls c))
  /\ exists o, ca_outcomes (cl_calls (run_call limits n op write c)) = ca_outcomes (cl_calls c) ++ [(n, o)].
Proof.
  intros [Hc Hr]. unfold run_call. pose proof (gate_frame op c) as Hfr.
  destruct (gate limits op c) as [c1 g]. destruct Hfr. cbn in *.
  destruct g as [e|v|method params];
    [cbn; rewrite fr_wire0, fr_calls0; split_and!; [done..|by eexists]|
     cbn; rewrite fr_wire0, fr_calls0; split_and!; [done..|by eexists]|].
  assert (Hs : start (cl_wire c) = cl_wire c) by (unfold start; by destruct (wr_closed (cl_wire c))).
  unfold open_request. rewrite fr_wire0, Hs. destruct (wr_closed (cl_wire c)) as [t|] eqn:Hcl; [|done].
  destruct (conclude_same n (continuation_of op c1) (inr (fresh_terminal_error (cl_wire c)))
              (set_wire (cl_wire c) c1)) as (-> & -> & Ho). cbn in *. by rewrite fr_calls0 in *.
Qed.

Lemma dead_step e c c' : client_ok c -> dead c -> settles e = true -> step limits e c = Some c' ->
  dead c' /\ S (base.size (ca_active (cl_calls c'))) = base.size (ca_active (cl_calls c)).
Proof.
  intros Hok Hd He. destruct e; try done; cbn [step].
  - unfold acquire. destruct (lf_lock (cl_life c)); [done|]. destruct (lf_queue (cl_life c)) as [|n queue]; [done|].
    destruct (ca_active (cl_calls c) !! n) as [[op|]|] eqn:Hn; try done. intros [= <-].
    match goal with |- context [run_call _ _ _ _ ?c0] => destruct (dead_run_call n op write c0) as (Hw & Ha & _); [done|] end.
    unfold dead. rewrite Hw, Ha. split; [done|]. cbn. rewrite delete_delete_eq.
    rewrite <- (insert_delete_id (ca_active (cl_calls c)) n _ Hn) at 2. by rewrite map_size_insert_None by apply lookup_delete_eq.
  - unfold wake. destruct (ca_active (cl_calls c) !! n) as [[|k id_]|] eqn:Hn; try done.
    destruct (wr_resolved (cl_wire c) !! n) as [r|]; [|done]. intros [= <-].
    destruct (conclude_same n k r (forget n id_ c)) as (Hw & Ha & _). unfold dead. rewrite Hw, Ha. split; [done|]. cbn.
    rewrite <- (insert_delete_id (ca_active (cl_calls c)) n _ Hn) at 2. by rewrite map_size_insert_None by apply lookup_delete_eq.
Qed.

Lemma dead_run es c c' : client_ok c -> dead c -> forallb settles es = true -> run limits es c = Some c' ->
  client_ok c' /\ dead c' /\ (length es + base.size (ca_active (cl_calls c')) = base.size (ca_active (cl_calls c)))%nat.
Proof.
  revert c; induction es as [|e es IH]; intros c Hok Hd; [by intros _ [= <-]|]. cbn [forallb run]. intros He H.
  apply andb_prop in He as [He Hes]. destruct (step limits e c) as [c1|] eqn:E; [|done].
  destruct (dead_step _ _ _ Hok Hd He E) as [Hd1 Hs]. pose proof (client_step_ok _ _ _ Hok E) as Hok1.
  destruct (IH c1 Hok1 Hd1 Hes H) as (? & ? & ?). split_and!; [done..|]. cbn [length]. lia.
Qed.

(** On a dead stream every call still open can be settled. *)
Lemma dead_enabled c : client_ok c -> dead c -> ca_active (cl_calls c) <> ∅ ->
  exists e c', settles e = true /\ step limits e c = Some c'.
Proof.
  intros [Hw Ha _] [_ Hr] Hne. apply map_choose in Hne as (n & s & Hn).
  assert (Hwait : forall m k id_, ca_active (cl_calls c) !! m = Some (Waiting k id_) ->
            exists e c', settles e = true /\ step limits e c = Some c').
  { intros m k id_ Hm. destruct (wk_waiting _ _ Hw m k id_ Hm) as (_ & _ & [Hp|[r Hres]]).
    - rewrite (wk_dead _ _ Hw Hr), lookup_empty in Hp. done.
    - exists (Wake m). cbn [step]. unfold wake. rewrite Hm, Hres. eauto. }
  destruct s as [op|k id_]; [|by eapply Hwait].
  destruct (lf_lock (cl_life c)) as [m|] eqn:Hl.
  { destruct (ak_lock _ _ _ _ Ha m Hl) as [|(k & id_ & Hm)]; [done|by eapply Hwait]. }
  assert (Hq : n ∈ lf_queue (cl_life c)) by (apply (ak_queue _ _ _ _ Ha); eauto).
  destruct (lf_queue (cl_life c)) as [|m queue] eqn:Hqe; [by apply elem_of_nil in Hq|].
  assert (Hm : m ∈ lf_queue (cl_life c)) by (rewrite Hqe; by left).
  apply (ak_queue _ _ _ _ Ha) in Hm as [op' Hm]. exists (Acquire None). cbn [step]. unfold acquire.
  rewrite Hl, Hqe, Hm. eauto.
Qed.

(** ** The fence *)

Definition lifecycle_frames (c c' : Client) : Prop :=
  exists frames, wr_sent (cl_wire c') = wr_sent (cl_wire c) ++ frames
    /\ Forall (fun '(_, rq) => rq_method rq = INITIALIZE \/ rq_method rq = SHUTDOWN) frames.

Lemma no_frames c c' : wr_sent (cl_wire c') = wr_sent (cl_wire c) -> lifecycle_frames c c'.
Proof. intros H. exists []. by rewrite app_nil_r. Qed.

Lemma conclude_fenced n k r c : restart_required c = true ->
  restart_required (conclude limits n k r c) = true
  /\ cl_wire (conclude limits n k r c) = cl_wire c.
Proof.
  intros Hr. unfold conclude. pose proof (settle_frame k r c) as Hfr. destruct (settle limits k r c) as [c' o].
  destruct Hfr. cbn in *. split; [by apply fr_restart0|done].
Qed.

(** A fenced client only lets the handshake and shutdown through. *)
Lemma fenced_gate op c method params : restart_required c = true ->
  (gate limits op c).2 = Sends method params -> method = INITIALIZE \/ method = SHUTDOWN.
Proof.
  intros Hr. destruct op; cbn [gate]; rewrite ?Hr.
  - intros [= <- _]. by left.
  - done.
  - done.
  - cbn. unfold gate_call_tool. by rewrite Hr.
  - cbn. unfold gate_host_ingress. by rewrite Hr, orb_true_r.
  - cbn. unfold gate_transition. destruct next_config; [|done]. by destruct (lf_shutdown_started _); rewrite ?Hr.
  - destruct (lf_shutdown_started _); [done|]. intros [= <- _]. by right.
Qed.

Lemma fenced_run_call n op write c : restart_required c = true ->
  restart_required (run_call limits n op write c) = true
  /\ lifecycle_frames c (run_call limits n op write c).
Proof.
  intros Hr. unfold run_call. pose proof (gate_frame op c) as Hfr. pose proof (fenced_gate op c) as Hg.
  destruct (gate limits op c) as [c1 g]. cbn [fst snd] in *. destruct Hfr. specialize (fr_restart0 Hr).
  destruct g as [e|v|method params]; [split; [done|apply no_frames; cbn; by rewrite fr_wire0]..|].
  unfold open_request. rewrite fr_wire0.
  assert (Hs : wr_sent (start (cl_wire c)) = wr_sent (cl_wire c))
    by (unfold start; by destruct (wr_closed (cl_wire c)), (wr_read (cl_wire c))).
  assert (Hc : forall n k r w, wr_sent w = wr_sent (cl_wire c) ->
            restart_required (conclude limits n k r (set_wire w c1)) = true
            /\ lifecycle_frames c (conclude limits n k r (set_wire w c1))).
  { intros n0 k r w Hw. destruct (conclude_fenced n0 k r (set_wire w c1)) as [? Hcw]; [done|]. split; [done|].
    apply no_frames. by rewrite Hcw. }
  destruct (wr_closed (start _)); [cbv beta iota; by apply Hc|].
  destruct (encode_message _ _); [destruct write|]; cbv beta iota zeta; [by apply Hc| |by apply Hc].
  split; [done|]. eexists [_]. split; [cbn; by rewrite Hs|]. apply Forall_singleton. cbn. by eapply Hg.
Qed.

#[local] Ltac fenced_call c Hr :=
  match goal with |- context [run_call ?m ?n ?op ?w ?c0] => exact (fenced_run_call n op w c0 Hr) end.

Lemma fenced_step e c c' : restart_required c = true -> step limits e c = Some c' ->
  restart_required c' = true /\ lifecycle_frames c c'.
Proof.
  intros Hr. destruct e as [op w|w|n|n e|line| |h| | |b| |]; cbn [step].
  - intros [= <-]. unfold begin_call. destruct (precheck op _); [split; [done|by apply no_frames]|].
    destruct (takes_lock op); [|fenced_call c Hr].
    destruct (lf_lock _); [split; [done|by apply no_frames]|].
    destruct (lf_queue _); [fenced_call c Hr|split; [done|by apply no_frames]].
  - unfold acquire. destruct (lf_lock _); [done|]. destruct (lf_queue _); [done|].
    destruct (ca_active _ !! _) as [[|]|]; try done. intros [= <-]. fenced_call c Hr.
  - unfold wake. destruct (ca_active _ !! _) as [[|k id_]|]; try done. destruct (wr_resolved _ !! _) as [r|]; [|done].
    intros [= <-]. destruct (conclude_fenced n k r (forget n id_ c)) as [? Hw]; [done|]. split; [done|].
    apply no_frames. by rewrite Hw.
  - unfold interrupt. destruct (ca_active _ !! _) as [[op|k id_]|]; [| |done].
    + destruct e; try done. intros [= <-]. split; [done|by apply no_frames].
    + intros [= <-]. destruct (conclude_fenced n k (inr e) (forget n id_ c)) as [? Hw]; [done|]. split; [done|].
      apply no_frames. by rewrite Hw.
  - destruct (reading c); [|done]. intros [= <-]. unfold read_line. destruct line as [|b line]; [by split; [|apply no_frames]|].
    destruct (decode_message _ _) as [[r|nt|r]|e]; try (by split; [|apply no_frames]).
    + case_bool_decide; by split; [|apply no_frames].
    + split; [done|]. apply no_frames. cbn. unfold read_response. destruct (id_key _); [|done].
      by destruct (wr_pending _ !! _).
  - destruct (wr_read _); try done. destruct (ClientEvents.ev_active _) as [[[] ? ? ?]|]; try done;
      intros [= <-]; by split; [|apply no_frames].
  - intros [= <-]. destruct (lf_shutdown_started _); by split; [|apply no_frames].
  - destruct (ClientEvents.start_drain _); [|done]. intros [= <-]. by split; [|apply no_frames].
  - destruct (ClientEvents.grant _); [|done]. intros [= <-]. by split; [|apply no_frames].
  - destruct (ClientEvents.handler_done _ _) as [[e []]|]; [| |done]; intros [= <-]; by split; [|apply no_frames].
  - intros [= <-]. by split; [|apply no_frames].
  - unfold finish_close. destruct (wr_close _); try done. destruct (_ && _); [|done]. intros [= <-].
    by split; [|apply no_frames].
Qed.

(** C13. Every call ends once, with its own answer: after any interleaving of
    calls, cancellations, lines and closing, each call made has returned or
    raised exactly once or is still open, never both; no id is used twice;
    and what a call returned is what a response to the id of its own request
    carried, or the local restart notice of [health]. *)
Theorem calls_end_once version es c : run limits es (client_init version) = Some c ->
  NoDup (ca_outcomes (cl_calls c)).*1
  /\ (forall n, (n < ca_count (cl_calls c))%nat <->
        n ∈ (ca_outcomes (cl_calls c)).*1 \/ is_Some (ca_active (cl_calls c) !! n))
  /\ (forall n, n ∈ (ca_outcomes (cl_calls c)).*1 -> ca_active (cl_calls c) !! n = None)
  /\ NoDup (rq_id <$> (wr_sent (cl_wire c)).*2)
  /\ (forall n v, (n, inl v) ∈ ca_outcomes (cl_calls c) ->
        v = Json restart_required_health \/ answered (cl_wire c) n v).
Proof.
  intros H. destruct (client_run_ok _ _ _ (client_init_ok version) H) as [Hw [] _]. split_and!; try done.
  - intros n. rewrite ak_all0. split; [intros [?|[?|?]]; auto; done|intros [?|?]; auto].
  - intros n Hn. by apply ak_apart0.
  - apply (wk_sent _ _ Hw).
Qed.

(** A call on a dead stream: settled at once or, when it needs the lifecycle
    lock and another call holds it or waits for it, the last in the queue. *)
Definition settled_or_queued (op : operation) (c c2 : Client) : Prop :=
  (exists o, ca_outcomes (cl_calls c2) = ca_outcomes (cl_calls c) ++ [(ca_count (cl_calls c), o)]
             /\ ca_active (cl_calls c2) = ca_active (cl_calls c))
  \/ (takes_lock op = true /\ (lf_lock (cl_life c) <> None \/ lf_queue (cl_life c) <> [])
      /\ ca_outcomes (cl_calls c2) = ca_outcomes (cl_calls c)
      /\ ca_active (cl_calls c2) = <[ca_count (cl_calls c) := Queued op]> (ca_active (cl_calls c))
      /\ lf_queue (cl_life c2) = lf_queue (cl_life c) ++ [ca_count (cl_calls c)]).

Lemma dead_begin_call op write c : client_ok c -> dead c ->
  wr_sent (cl_wire (begin_call limits op write c)) = wr_sent (cl_wire c) /\ dead (begin_call limits op write c)
  /\ settled_or_queued op c (begin_call limits op write c).
Proof.
  intros [_ Ha _] Hd. apply calls_fresh in Ha. pose proof (ak_cur _ _ _ _ Ha _ eq_refl) as Hn. cbn in Hn.
  assert (Hrun : forall c0, dead c0 -> cl_wire c0 = cl_wire c -> ca_active (cl_calls c0) = ca_active (cl_calls c) ->
    ca_outcomes (cl_calls c0) = ca_outcomes (cl_calls c) ->
    let c2 := run_call limits (ca_count (cl_calls c)) op write c0 in
    wr_sent (cl_wire c2) = wr_sent (cl_wire c) /\ dead c2 /\ settled_or_queued op c c2).
  { intros c0 Hd0 E1 E2 E3. destruct (dead_run_call (ca_count (cl_calls c)) op write c0 Hd0) as (Hw & Hact & o & Ho).
    cbv zeta. unfold dead. rewrite Hw, E1. split_and!; [done|apply Hd|apply Hd|left; exists o].
    by rewrite Ho, Hact, E2, E3, delete_id. }
  unfold begin_call. destruct (precheck op _).
  { split_and!; [done|exact Hd|left]. eexists. split; [done|]. cbn. by rewrite delete_id. }
  destruct (takes_lock op) eqn:Ht; [|by apply Hrun].
  destruct (lf_lock _) eqn:El; [|destruct (lf_queue _) eqn:Eq; [by apply Hrun|]];
    (split_and!; [done|exact Hd|right]); cbn in *; split_and!; auto; rewrite ?El, ?Eq; auto.
Qed.

(** C26. A dead stream leaves no call waiting: once the read loop has ended,
    waking the calls and granting the lifecycle lock settles one open call
    per step, and while a call is open such a step is possible.  A call made
    then writes nothing and ends at once, except for a transition or a
    shutdown that must wait for the lifecycle lock: it is the last in the
    lock's queue, the stream is still dead, and it is settled as the others
    are. *)
Theorem dead_stream_settles_calls version hist c es c' :
  run limits hist (client_init version) = Some c -> dead c ->
  forallb settles es = true -> run limits es c = Some c' ->
  (length es + base.size (ca_active (cl_calls c')) = base.size (ca_active (cl_calls c)))%nat
  /\ (ca_active (cl_calls c') <> ∅ -> exists e c2, settles e = true /\ step limits e c' = Some c2)
  /\ (forall op write, wr_sent (cl_wire (begin_call limits op write c')) = wr_sent (cl_wire c')
        /\ dead (begin_call limits op write c') /\ settled_or_queued op c' (begin_call limits op write c')).
Proof.
  intros H0 Hd Hes H. pose proof (client_run_ok _ _ _ (client_init_ok version) H0) as Hok.
  destruct (dead_run _ _ _ Hok Hd Hes H) as (Hok' & Hd' & Hl). split_and!; [done|by apply dead_enabled|].
  intros op write. by apply dead_begin_call.
Qed.

(** C20. The replacement fence: once a client is fenced - after a prepare-only
    transition, an interrupted one or one with an unknown outcome - it stays
    fenced and not ready, and the only frames it still writes are the
    handshake's and shutdown's. *)
Theorem replacement_fence version hist c e c' :
  run limits hist (client_init version) = Some c -> restart_required c = true ->
  step limits e c = Some c' ->
  restart_required c' = true /\ ng_ready (cl_negotiated c') = false
  /\ exists frames, wr_sent (cl_wire c') = wr_sent (cl_wire c) ++ frames
     /\ Forall (fun '(_, rq) => rq_method rq = INITIALIZE \/ rq_method rq = SHUTDOWN) frames.
Proof.
  intros H0 Hr H. pose proof (client_run_ok _ _ _ (client_init_ok version) H0) as Hok.
  destruct (fenced_step e c c' Hr H) as [Hr' Hf]. split_and!; [done| |done].
  exact (ck_fenced _ (client_step_ok _ _ _ Hok H) Hr').
Qed.

(** ** Transitions *)

(** How a transition ends once its request was made: live-applied as
    advertised; fenced; rejected by the service over a live stream; or, when
    the action of the result is a list or a dictionary, with a [TypeError]
    that leaves the client as it was. *)
Lemma transition_outcomes live r c :
  (settle_transition live r c = (c, inl (Transition (MkTransitionResult Applied))) /\ live = true)
  \/ restart_required (settle_transition live r c).1 = true
  \/ (settle_transition live r c = (c, inr transition_failed)
      /\ exists e, r = inr e /\ is_protocol_error e = true /\ wr_closed (cl_wire c) = None)
  \/ (settle_transition live r c = (c, inr (OtherError (TypeError "unhashable type")))
      /\ exists d, r = inl (FMap d) /\ match dict_get (u "action") d with FTuple _ | FMap _ => True | _ => False end).
Proof.
  destruct r as [[| | | | | |d]|e]; cbn [settle_transition]; auto.
  - destruct (transition_result_from_dict d) as [[[]]|e] eqn:Ht; cbn; auto.
    + destruct live; auto.
    + revert Ht. unfold transition_result_from_dict.
      destruct (dict_get (u "action") d) eqn:Hd; try (intros [= <-]; auto).
      * case_bool_decide; [done|]. case_bool_decide; [done|]. intros [= <-]. auto.
      * right; right; right. split; [done|]. exists d. by rewrite Hd.
      * right; right; right. split; [done|]. exists d. by rewrite Hd.
  - destruct e; auto; cbn [is_protocol_error andb]; case_bool_decide; cbn; eauto 10.
Qed.

(** A success response whose action is a list is malformed, but leaves the
    client unfenced. *)
Lemma unhashable_action_not_fenced live c items :
  settle_transition live (inl (FMap [(u "action", FTuple items)])) c
  = (c, inr (OtherError (TypeError "unhashable type"))).
Proof. reflexivity. Qed.
End Props.

(** ** Witnesses *)

Definition frame_of (m : JsonRpcMessage) : list Z :=
  match encode_message sample_limits m with Ok text => text | Raise _ => [] end.

Definition result_frame (id_ : Z) (t : fjson) : list Z :=
  frame_of (MResponse (MkResponse (IdInt (PInt id_)) t None JSONRPC_VERSION)).

Definition handshake_result : fjson :=
  FMap [(u "protocolVersion", FStr PROTOCOL_VERSION); (u "serverInfo", FMap []);
        (u "capabilities", FMap [(CONFIG_TRANSITION_CAPABILITY, FMap (transition_caps_to_dict (MkTransitionCaps false)))])].

(** Handshake, health, a tool call whose answer overtakes a transition that
    fences the client, and a second call for the lock. *)
Definition sample_session : list event :=
  [Begin (Initialize None None) None; Line (result_frame 1 handshake_result); Wake 0;
   Begin Health None; Line (result_frame 2 (FMap [(u "ready", FBool true)])); Wake 1;
   Begin (CallTool (u "send") None None) None; Begin (PrepareConfigTransition (Inst [])) None; Begin Shutdown None;
   Line (result_frame 4 (FMap [(u "action", FStr CONFIG_TRANSITION_RESTART)])); Wake 3].

Definition client_after (es : list event) : Client :=
  match run sample_limits es (client_init PROTOCOL_VERSION) with Some c => c | None => client_init [] end.

Lemma calls_end_once_witness :
  NoDup (ca_outcomes (cl_calls (client_after sample_session))).*1
  /\ (forall n, (n < ca_count (cl_calls (client_after sample_session)))%nat <->
        n ∈ (ca_outcomes (cl_calls (client_after sample_session))).*1
        \/ is_Some (ca_active (cl_calls (client_after sample_session)) !! n))
  /\ (forall n, n ∈ (ca_outcomes (cl_calls (client_after sample_session))).*1 ->
        ca_active (cl_calls (client_after sample_session)) !! n = None)
  /\ NoDup (rq_id <$> (wr_sent (cl_wire (client_after sample_session))).*2)
  /\ (forall n v, (n, inl v) ∈ ca_outcomes (cl_calls (client_after sample_session)) ->
        v = Json restart_required_health \/ answered (cl_wire (client_after sample_session)) n v).
Proof. apply (calls_end_once sample_limits PROTOCOL_VERSION sample_session (client_after sample_session)). vm_compute. reflexivity. Defined.

(** The stream ends: the tool call and the shutdown in the queue are
    settled. *)
Definition sample_end : list event := sample_session ++ [Line []].

Lemma dead_stream_settles_calls_witness :
  (2 + base.size (ca_active (cl_calls (client_after (sample_end ++ [Wake 2; Acquire None]))))
   = base.size (ca_active (cl_calls (client_after sample_end))))%nat
  /\ (ca_active (cl_calls (client_after (sample_end ++ [Wake 2; Acquire None]))) <> ∅ ->
       exists e c2, settles e = true
         /\ step sample_limits e (client_after (sample_end ++ [Wake 2; Acquire None])) = Some c2)
  /\ (forall op write,
       let c' := client_after (sample_end ++ [Wake 2; Acquire None]) in
       wr_sent (cl_wire (begin_call sample_limits op write c')) = wr_sent (cl_wire c')
       /\ dead (begin_call sample_limits op write c') /\ settled_or_queued op c' (begin_call sample_limits op write c')).
Proof.
  apply (dead_stream_settles_calls sample_limits PROTOCOL_VERSION sample_end (client_after sample_end)
           [Wake 2; Acquire None] (client_after (sample_end ++ [Wake 2; Acquire None]))).
  - vm_compute. reflexivity.
  - split; vm_compute; discriminate.
  - reflexivity.
  - vm_compute. reflexivity.
Defined.

Lemma replacement_fence_witness :
  restart_required (client_after (sample_session ++ [Acquire None])) = true
  /\ ng_ready (cl_negotiated (client_after (sample_session ++ [Acquire None]))) = false
  /\ exists frames, wr_sent (cl_wire (client_after (sample_session ++ [Acquire None])))
                    = wr_sent (cl_wire (client_after sample_session)) ++ frames
     /\ Forall (fun '(_, rq) => rq_method rq = INITIALIZE \/ rq_method rq = SHUTDOWN) frames.
Proof.
  apply (replacement_fence sample_limits PROTOCOL_VERSION sample_session (client_after sample_session) (Acquire None)).
  - vm_compute. reflexivity.
  - vm_compute. reflexivity.
  - vm_compute. reflexivity.
Defined.
