(* ===== verification/StdioWriter.v ===== *)
(** * The threaded stdio writer ([kestrel_sdk/isolated_feature/service.py])

    [_ThreadedStdioWriter]: senders queue frames under the state lock and one
    worker thread writes them.  A step is one critical section or one call of
    the stream; the result of a stream call is part of the step. *)

From stdpp Require Import gmap.
From S2P Require Export PyData.

(** A drain's completion, by its number. *)
Definition completion : Type := nat.

(** A queued frame with the drain that waits for it ([close] queues one
    without), or the sentinel that stops the worker. *)
Inductive job : Type := Frame (data : list Z) (waiter : option completion) | Sentinel.

(** Where [_write_loop] is: at [Queue.get], inside [_write_and_flush] with the
    rest of a frame, or past the loop with the stream closed. *)
Inductive worker : Type :=
| Getting
| Writing (rest : list Z) (waiter : option completion)
| Stopped.

Inductive drain_result : Type := Drained | DrainFailed.

(** [w_stream] is what the stream has taken; [w_results] the completions
    resolved, in order; [w_accepted] all bytes [write] has taken and
    [w_marks], for each drain, how many there were when it was queued. *)
Record writer := MkWriter {
  w_pending : list Z;
  w_jobs : list job;
  w_drains : list completion;
  w_closing : bool;
  w_terminal_failure : bool;
  w_worker : worker;
  w_stream : list Z;
  w_results : list (completion * drain_result);
  w_next : completion;
  w_accepted : list Z;
  w_marks : list nat
}.

Definition writer_init : writer := MkWriter [] [] [] false false Getting [] [] 0%nat [] [].

Definition terminal_error : exn := ConnectionError "isolated feature stdio writer has a terminal I/O failure".
Definition closed_error : exn := ConnectionError "isolated feature stdio writer is closed".

Definition write (data : list Z) (w : writer) : res writer :=
  _ ← raise_if (w_terminal_failure w) terminal_error;
  _ ← raise_if (w_closing w) closed_error;
  Ok (MkWriter (w_pending w ++ data) (w_jobs w) (w_drains w) (w_closing w) (w_terminal_failure w) (w_worker w)
        (w_stream w) (w_results w) (w_next w) (w_accepted w ++ data) (w_marks w)).

(** [drain] up to its wait: [None] when there is nothing to wait for. *)
Definition drain (w : writer) : res (option completion * writer) :=
  _ ← raise_if (w_terminal_failure w) terminal_error;
  _ ← raise_if (w_closing w) closed_error;
  match w_pending w with
  | [] => Ok (None, w)
  | data =>
      let d := w_next w in
      Ok (Some d, MkWriter [] (w_jobs w ++ [Frame data (Some d)]) (w_drains w ++ [d]) (w_closing w)
                    (w_terminal_failure w) (w_worker w) (w_stream w) (w_results w) (S d) (w_accepted w)
                    (w_marks w ++ [length (w_accepted w)]))
  end.

Definition close (w : writer) : writer :=
  if w_terminal_failure w then w
  else if w_closing w then w
  else MkWriter [] (w_jobs w ++ (match w_pending w with [] => [] | data => [Frame data None] end) ++ [Sentinel])
         (w_drains w) true (w_terminal_failure w) (w_worker w) (w_stream w) (w_results w) (w_next w)
         (w_accepted w) (w_marks w).

(** [_latch_terminal_failure] and the failures it reports; the worker then
    closes the stream. *)
Definition fail (w : writer) : writer :=
  MkWriter [] [] [] (w_closing w) true Stopped (w_stream w)
    (w_results w ++ ((fun d => (d, DrainFailed)) <$> w_drains w)) (w_next w) (w_accepted w) (w_marks w).

Definition set_worker (k : worker) (w : writer) : writer :=
  MkWriter (w_pending w) (w_jobs w) (w_drains w) (w_closing w) (w_terminal_failure w) k
    (w_stream w) (w_results w) (w_next w) (w_accepted w) (w_marks w).

(** [self._jobs.get()] *)
Definition get_job (w : writer) : option writer :=
  match w_worker w, w_jobs w with
  | Getting, j :: jobs =>
      let w' := MkWriter (w_pending w) jobs (w_drains w) (w_closing w) (w_terminal_failure w)
                  (match j with Frame data d => Writing data d | Sentinel => Stopped end)
                  (w_stream w) (w_results w) (w_next w) (w_accepted w) (w_marks w) in
      Some w'
  | _, _ => None
  end.

(** What one [stream.write(view)] does: it takes some bytes, would block, or
    raises. *)
Inductive write_result : Type := Took (n : nat) | WouldBlock | WriteRaised.

(** One turn of the loop of [_write_and_flush]; [Took 0] is a closed pipe, and
    a stream takes no more than it is given. *)
Definition write_chunk (r : write_result) (w : writer) : option writer :=
  match w_worker w with
  | Writing (b :: rest) d =>
      let data := b :: rest in
      match r with
      | Took (S n) =>
          if (S n <=? length data)%nat then
            Some (MkWriter (w_pending w) (w_jobs w) (w_drains w) (w_closing w) (w_terminal_failure w)
                    (Writing (drop (S n) data) d) (w_stream w ++ take (S n) data) (w_results w) (w_next w)
                    (w_accepted w) (w_marks w))
          else None
      | _ => Some (fail w)
      end
  | _ => None
  end.

(** [stream.flush()], and the completion of the frame. *)
Definition flush (ok : bool) (w : writer) : option writer :=
  match w_worker w with
  | Writing [] d =>
      if ok then
        Some (MkWriter (w_pending w) (w_jobs w)
                (match d with Some d => base.filter (fun k => k <> d) (w_drains w) | None => w_drains w end)
                (w_closing w) (w_terminal_failure w) Getting (w_stream w)
                (w_results w ++ match d with Some d => [(d, Drained)] | None => [] end) (w_next w)
                (w_accepted w) (w_marks w))
      else Some (fail w)
  | _ => None
  end.

Inductive event : Type :=
| Write (data : list Z)
| Drain
| Close
| GetJob
| Chunk (r : write_result)
| Flush (ok : bool).

(** A call that raises changes nothing. *)
Definition step (e : event) (w : writer) : option writer :=
  match e with
  | Write data => Some (match write data w with Ok w' => w' | Raise _ => w end)
  | Drain => Some (match drain w with Ok (_, w') => w' | Raise _ => w end)
  | Close => Some (close w)
  | GetJob => get_job w
  | Chunk r => write_chunk r w
  | Flush ok => flush ok w
  end.

Fixpoint run (es : list event) (w : writer) : option writer :=
  match es with
  | [] => Some w
  | e :: es' => w' ← step e w; run es' w'
  end.

(** ** The abstract channel

    What a client may rely on: a byte pipe that delivers a prefix of what it
    accepted, in order, until it is closed or fails. *)

Module Channel.
Inductive channel_status : Type := Open | Closing | Failed.

Record channel := MkChannel { accepted : list Z; delivered : list Z; state : channel_status }.

Inductive pipe_step : channel -> channel -> Prop :=
| accept c data : state c = Open -> pipe_step c (MkChannel (accepted c ++ data) (delivered c) Open)
| deliver c data rest : state c <> Failed -> accepted c = delivered c ++ data ++ rest ->
    pipe_step c (MkChannel (accepted c) (delivered c ++ data) (state c))
| begin_close c : state c = Open -> pipe_step c (MkChannel (accepted c) (delivered c) Closing)
| fail c : pipe_step c (MkChannel (accepted c) (delivered c) Failed).
End Channel.

Definition channel_of (w : writer) : Channel.channel :=
  Channel.MkChannel (w_accepted w) (w_stream w)
    (if w_terminal_failure w then Channel.Failed else if w_closing w then Channel.Closing else Channel.Open).

(** ** Invariant *)

Definition job_data (j : job) : list Z := match j with Frame data _ => data | Sentinel => [] end.
Definition queued (w : writer) : list Z := concat (job_data <$> w_jobs w).
Definition current (w : writer) : list Z := match w_worker w with Writing rest _ => rest | _ => [] end.

Definition waiters (jobs : list job) : list completion :=
  omap (fun j => match j with Frame _ d => d | Sentinel => None end) jobs.
Definition current_waiter (w : writer) : list completion :=
  match w_worker w with Writing _ (Some d) => [d] | _ => [] end.

(** The mark of a queued drain is the end of its frame: the bytes up to its
    frame's end are exactly those accepted before it. *)
Fixpoint marks_ok (marks : list nat) (pos : nat) (jobs : list job) : Prop :=
  match jobs with
  | [] => True
  | Frame data d :: jobs' =>
      (forall k, d = Some k -> marks !! k = Some (pos + length data)%nat)
      /\ marks_ok marks (pos + length data) jobs'
  | Sentinel :: jobs' => jobs' = [] /\ marks_ok marks pos jobs'
  end.

Record writer_ok (w : writer) : Prop := {
  ok_bytes : w_terminal_failure w = false -> w_accepted w = w_stream w ++ current w ++ queued w ++ w_pending w;
  ok_prefix : w_stream w `prefix_of` w_accepted w;
  ok_drains : w_drains w = current_waiter w ++ waiters (w_jobs w);
  ok_settled : (w_results w).*1 ++ w_drains w ≡ₚ seq 0 (w_next w);
  ok_marks : length (w_marks w) = w_next w;
  ok_jobs : marks_ok (w_marks w) (length (w_stream w ++ current w)) (w_jobs w);
  ok_current : forall k rest, w_worker w = Writing rest (Some k) -> w_marks w !! k = Some (length (w_stream w ++ rest));
  ok_done : forall k, (k, Drained) ∈ w_results w -> exists m, w_marks w !! k = Some m /\ (m <= length (w_stream w))%nat;
  ok_failed : w_terminal_failure w = true -> w_worker w = Stopped /\ w_jobs w = [] /\ w_pending w = [];
  ok_stopped : w_worker w = Stopped -> w_jobs w = [] /\ (w_terminal_failure w = true \/ w_closing w = true);
  ok_open : w_closing w = false -> Sentinel ∉ w_jobs w;
  ok_closing : w_closing w = true -> w_pending w = [] /\ (w_worker w = Stopped \/ w_terminal_failure w = true \/ Sentinel ∈ w_jobs w)
}.

(** ** The worker's own steps *)

Definition worker_event (e : event) : bool :=
  match e with GetJob | Chunk _ | Flush _ => true | _ => false end.

Definition job_work (j : job) : nat := match j with Frame data _ => length data + 2 | Sentinel => 1 end.

(** No run of the worker from [w] has more steps than this. *)
Definition work (w : writer) : nat :=
  match w_worker w with Writing rest _ => S (length rest) | _ => 0 end + sum_list (job_work <$> w_jobs w).

(** The worker blocks in [get] on an empty queue, or has left its loop. *)
Definition at_rest (w : writer) : bool :=
  match w_worker w with
  | Getting => match w_jobs w with [] => true | _ => false end
  | Writing _ _ => false
  | Stopped => true
  end.

#[local] Ltac fields := cbn [w_pending w_jobs w_drains w_closing w_terminal_failure w_worker w_stream w_results
  w_next w_accepted w_marks].

Lemma writer_init_ok : writer_ok writer_init.
Proof. split; cbn; try done; try (intros; set_solver). Qed.

Lemma marks_app marks x pos jobs : marks_ok marks pos jobs -> marks_ok (marks ++ [x]) pos jobs.
Proof.
  revert pos; induction jobs as [|[data d|] jobs IH]; intros pos; cbn; [done| |by intros [? ?]; auto].
  intros [Hd Hj]. split; [|by apply IH]. intros k Hk. by apply lookup_app_l_Some, Hd.
Qed.

Lemma marks_snoc marks pos jobs data d :
  Sentinel ∉ jobs -> marks_ok marks pos jobs ->
  (forall k, d = Some k -> marks !! k = Some (pos + length (concat (job_data <$> jobs)) + length data)%nat) ->
  marks_ok marks pos (jobs ++ [Frame data d]).
Proof.
  revert pos; induction jobs as [|[data' d'|] jobs IH]; intros pos Hs Hm Hd.
  - cbn in *. split; [|done]. intros k Hk. rewrite (Hd k Hk). f_equal. lia.
  - cbn [app marks_ok] in *. destruct Hm as [Hd' Hm]. split; [done|]. apply IH; [set_solver|done|].
    intros k Hk. rewrite (Hd k Hk). cbn. rewrite length_app. f_equal. lia.
  - set_solver.
Qed.

Lemma marks_sentinel marks pos jobs : marks_ok marks pos jobs -> Sentinel ∉ jobs -> marks_ok marks pos (jobs ++ [Sentinel]).
Proof.
  revert pos; induction jobs as [|[data d|] jobs IH]; intros pos; cbn; [done| |set_solver].
  intros [Hd Hm] Hs. split; [done|]. apply IH; [done|set_solver].
Qed.

Lemma waiters_app a b : waiters (a ++ b) = waiters a ++ waiters b.
Proof. apply omap_app. Qed.

Lemma write_ok data w w' : writer_ok w -> write data w = Ok w' -> writer_ok w'.
Proof.
  intros Hok H. unfold write in H. inv_ok. destruct Hok. split; fields; try done.
  - intros _. rewrite ok_bytes0 by done. unfold current, queued. fields. by rewrite <- !app_assoc.
  - by apply prefix_app_r.
  - intros Ht. congruence.
  - intros Hc. congruence.
Qed.

Lemma drain_ok w o w' : writer_ok w -> drain w = Ok (o, w') -> writer_ok w'.
Proof.
  intros Hok H. unfold drain in H. inv_ok. destruct (w_pending w) as [|b data] eqn:Hp; inv_ok; [done|].
  destruct Hok. assert (Hl : w_marks w !! w_next w = None) by (apply lookup_ge_None; lia).
  split; fields; try done.
  - intros _. rewrite ok_bytes0, Hp by done. unfold current, queued. fields.
    rewrite fmap_app, concat_app. cbn. by rewrite !app_nil_r.
  - rewrite ok_drains0, waiters_app. by rewrite app_assoc.
  - rewrite seq_S, app_assoc, ok_settled0. done.
  - rewrite length_app. cbn. lia.
  - apply marks_snoc; [by apply ok_open0|by apply marks_app|]. intros k [= <-].
    rewrite lookup_app_r, ok_marks0, Nat.sub_diag by lia. cbn. f_equal.
    rewrite ok_bytes0, Hp by done. unfold current, queued. fields. rewrite !length_app. cbn [length]. lia.
  - intros k rest Hw. specialize (ok_current0 k rest Hw). by apply lookup_app_l_Some.
  - intros k Hk. destruct (ok_done0 k Hk) as (m & Hk' & Hle). exists m. split; [by apply lookup_app_l_Some|done].
  - intros Ht. congruence.
  - intros Hw. destruct (ok_stopped0 Hw) as [_ [?|?]]; congruence.
  - intros _. specialize (ok_open0 Hm0). set_solver.
  - intros Hc. congruence.
Qed.

Lemma close_ok w : writer_ok w -> writer_ok (close w).
Proof.
  intros Hok. unfold close. destruct (w_terminal_failure w) eqn:Ht; [done|]. destruct (w_closing w) eqn:Hc; [done|].
  destruct Hok. specialize (ok_open0 Hc).
  set (last := match w_pending w with [] => [] | data => [Frame data None] end).
  assert (Hlast : concat (job_data <$> last) = w_pending w /\ waiters last = [] /\ (Sentinel ∉ last)
                  /\ marks_ok (w_marks w) (length (w_stream w ++ current w)) (w_jobs w ++ last)).
  { unfold last. destruct (w_pending w) as [|b data]; cbn [fmap list_fmap concat job_data app].
    - rewrite app_nil_r. split_and!; try done. set_solver.
    - rewrite app_nil_r. split_and!; [done|done|set_solver|]. by apply marks_snoc. }
  destruct Hlast as (H1 & H2 & H3 & H4).
  split; fields; try done.
  - intros _. rewrite ok_bytes0 by done. unfold current, queued. fields.
    rewrite !fmap_app, !concat_app, H1. cbn. by rewrite !app_nil_r.
  - rewrite !waiters_app, H2. cbn. by rewrite app_nil_r.
  - unfold current in *. fields. rewrite app_assoc. apply marks_sentinel; [done|set_solver].
  - intros Hw. destruct (ok_stopped0 Hw) as [_ [?|?]]; congruence.
  - split; [done|]. right; right. rewrite !elem_of_app. right; right; by left.
Qed.

Lemma writer_fail_ok w : writer_ok w -> writer_ok (fail w).
Proof.
  intros []. split; fields; try done.
  - unfold fail. fields. rewrite app_nil_r, fmap_app, <- list_fmap_compose, <- ok_settled0.
    f_equiv. clear. induction (w_drains w) as [|d l IH]; [done|]. cbn. by f_equiv.
  - intros k Hk. apply ok_done0. apply elem_of_app in Hk as [Hk|Hk]; [done|].
    apply list_elem_of_fmap in Hk as (d & [=] & _).
  - intros _. split; [done|by left].
  - intros _. set_solver.
  - intros _. split; [done|by left].
Qed.

Lemma writer_get_job_ok w w' : writer_ok w -> get_job w = Some w' -> writer_ok w'.
Proof.
  intros Hok H. unfold get_job in H. destruct (w_worker w) eqn:Hw; try done.
  destruct (w_jobs w) as [|j jobs] eqn:Hj; [done|]. injection H as <-. destruct Hok.
  assert (Ht : w_terminal_failure w = false).
  { destruct (w_terminal_failure w); [|done]. destruct ok_failed0 as [? _]; [done|congruence]. }
  unfold current, queued, current_waiter in *. rewrite Hw, Hj in *. cbn [app] in *.
  destruct j as [data d|]; split; unfold current, queued, current_waiter; fields; rewrite ?Ht; try done.
  - intros _. rewrite ok_bytes0 by done. cbn. by rewrite <- app_assoc.
  - rewrite ok_drains0. by destruct d.
  - destruct ok_jobs0 as [_ H]. by rewrite app_nil_r, <- length_app in H.
  - intros k rest [= <- ->]. destruct ok_jobs0 as [H _]. rewrite (H k eq_refl), app_nil_r. by rewrite length_app.
  - intros Hc. specialize (ok_open0 Hc). set_solver.
  - intros Hc. destruct (ok_closing0 Hc) as [Hp [?|[?|Hs]]]; [congruence..|]. split; [done|]. right; right. set_solver.
  - intros _. by rewrite ok_bytes0.
  - by destruct ok_jobs0 as [-> _].
  - intros _. split; [by destruct ok_jobs0|]. right. destruct (w_closing w) eqn:Hc; [done|].
    exfalso. apply (ok_open0 eq_refl). by left.
  - intros Hc. exfalso. apply (ok_open0 Hc). by left.
  - intros Hc. destruct (ok_closing0 Hc) as [Hp _]. split; [done|by left].
Qed.

Lemma writer_write_chunk_ok r w w' : writer_ok w -> write_chunk r w = Some w' -> writer_ok w'.
Proof.
  intros Hok H. unfold write_chunk in H. destruct (w_worker w) as [|[|b rest] d|] eqn:Hw; try done.
  destruct r as [[|n]| |]; try (injection H as <-; by apply writer_fail_ok).
  destruct (Nat.leb_spec (S n) (length (b :: rest))); [|done]. injection H as <-. destruct Hok.
  assert (Ht : w_terminal_failure w = false).
  { destruct (w_terminal_failure w); [|done]. destruct ok_failed0 as [? _]; [done|congruence]. }
  assert (Hsplit : (w_stream w ++ take (S n) (b :: rest)) ++ drop (S n) (b :: rest) = w_stream w ++ b :: rest)
    by by rewrite <- app_assoc, take_drop.
  cbn [take drop] in *. unfold current, queued, current_waiter in *. rewrite Hw in *.
  split; unfold current, queued, current_waiter; fields; rewrite ?Ht; try done.
  - intros _. rewrite (app_assoc (_ ++ _ :: _)), Hsplit, ok_bytes0 by done. by rewrite <- (app_assoc (w_stream w)).
  - rewrite ok_bytes0 by done. rewrite (app_assoc (w_stream w)), <- Hsplit.
    rewrite <- (app_assoc (_ ++ _ :: _)). by apply prefix_app_r.
  - by rewrite Hsplit.
  - intros k rest' [= <- ->]. rewrite Hsplit. by apply ok_current0.
  - intros k Hk. destruct (ok_done0 k Hk) as (m & Hm & Hle). exists m. split; [done|].
    rewrite length_app. lia.
  - intros Hc. destruct (ok_closing0 Hc) as [Hp [?|[?|Hs]]]; [congruence..|]. auto.
Qed.

Lemma writer_flush_ok ok w w' : writer_ok w -> flush ok w = Some w' -> writer_ok w'.
Proof.
  intros Hok H. unfold flush in H. destruct (w_worker w) as [|[|b rest] d|] eqn:Hw; try done.
  destruct ok; injection H as <-; [|by apply writer_fail_ok]. destruct Hok.
  assert (Ht : w_terminal_failure w = false).
  { destruct (w_terminal_failure w); [|done]. destruct ok_failed0 as [? _]; [done|congruence]. }
  assert (Hnd : NoDup (w_drains w)).
  { assert (Hn : NoDup ((w_results w).*1 ++ w_drains w)) by (rewrite ok_settled0; apply NoDup_seq).
    by apply list.NoDup_app in Hn as (_ & _ & ?). }
  unfold current, queued, current_waiter in *. rewrite Hw in *.
  assert (Hdr : match d with Some d => base.filter (fun k => k <> d) (w_drains w) | None => w_drains w end
                = waiters (w_jobs w)).
  { destruct d as [k|]; [|done]. rewrite ok_drains0 in *. cbn [app] in *. apply list.NoDup_cons in Hnd as [Hk _].
    rewrite filter_cons_False by tauto. apply filter_id. intros x Hx ->. done. }
  split; unfold current, queued, current_waiter; fields; rewrite ?Ht, ?Hdr; try done.
  - intros _. by rewrite ok_bytes0.
  - rewrite fmap_app, <- app_assoc, <- ok_settled0, ok_drains0. by destruct d.
  - intros k Hk. apply elem_of_app in Hk as [Hk|Hk]; [by apply ok_done0|].
    destruct d as [d|]; [|by apply elem_of_nil in Hk]. apply list_elem_of_singleton in Hk as [= ->].
    eexists. split; [by apply ok_current0|]. rewrite app_nil_r. done.
  - intros Hc. destruct (ok_closing0 Hc) as [Hp [?|[?|Hs]]]; [congruence..|]. auto.
Qed.

Lemma writer_step_ok e w w' : writer_ok w -> step e w = Some w' -> writer_ok w'.
Proof.
  intros Hok. destruct e as [data| | | |r|ok]; cbn.
  - intros [= <-]. destruct (write data w) eqn:E; [by eapply write_ok|done].
  - intros [= <-]. destruct (drain w) as [[o w'']|] eqn:E; [by eapply drain_ok|done].
  - intros [= <-]. by apply close_ok.
  - by apply writer_get_job_ok.
  - by apply writer_write_chunk_ok.
  - by apply writer_flush_ok.
Qed.

Lemma writer_run_ok es w w' : writer_ok w -> run es w = Some w' -> writer_ok w'.
Proof.
  revert w; induction es as [|e es IH]; intros w Hw; [by intros [= <-]|]. cbn.
  destruct (step e w) as [w1|] eqn:E; [|done]. apply IH. by eapply writer_step_ok.
Qed.

(** ** Refinement *)

(** One writer step is one step of the channel, or none. *)
Lemma writer_step_refines e w w' : writer_ok w -> step e w = Some w' ->
  channel_of w' = channel_of w \/ Channel.pipe_step (channel_of w) (channel_of w').
Proof.
  intros Hok. unfold channel_of. destruct e as [data| | | |r|ok]; cbn [step].
  - intros [= <-]. destruct (write data w) as [w'|] eqn:E; [|by left]. right. unfold write in E. inv_ok. fields.
    rewrite Hm, Hm0. by apply (Channel.accept (Channel.MkChannel (w_accepted w) (w_stream w) Channel.Open)).
  - intros [= <-]. left. destruct (drain w) as [[o w'']|] eqn:E; [|done]. unfold drain in E. inv_ok.
    destruct (w_pending w); by inv_ok.
  - intros [= <-]. unfold close. destruct (w_terminal_failure w) eqn:Ht; [left; by rewrite Ht|].
    destruct (w_closing w) eqn:Hc; [left; by rewrite Ht, Hc|]. right. fields. rewrite ?Ht, ?Hc.
    by apply (Channel.begin_close (Channel.MkChannel (w_accepted w) (w_stream w) Channel.Open)).
  - intros H. left. unfold get_job in H. destruct (w_worker w); try done. destruct (w_jobs w); [done|].
    by injection H as <-.
  - intros H. unfold write_chunk in H. destruct (w_worker w) as [|[|b rest] d|] eqn:Hw; try done.
    assert (Hf : Channel.pipe_step (channel_of w) (channel_of (fail w))) by apply (Channel.fail (channel_of w)).
    destruct r as [[|n]| |]; try (injection H as <-; by right).
    destruct (S n <=? _)%nat; [|done]. injection H as <-. fields. right.
    assert (Ht : w_terminal_failure w = false).
    { destruct (w_terminal_failure w) eqn:Ht; [|done]. destruct (ok_failed _ Hok Ht) as [? _]. congruence. }
    apply (Channel.deliver (channel_of w) _ (drop (S n) (b :: rest) ++ queued w ++ w_pending w)).
    + unfold channel_of. cbn. rewrite Ht. by destruct (w_closing w).
    + cbn [Channel.accepted Channel.delivered channel_of]. rewrite (ok_bytes _ Hok Ht). unfold current. rewrite Hw.
      rewrite <- (take_drop n rest) at 1. cbn. by rewrite <- !app_assoc.
  - intros H. unfold flush in H. destruct (w_worker w) as [|[|b rest] d|] eqn:Hw; try done.
    destruct ok; injection H as <-; [by left|]. right. apply (Channel.fail (channel_of w)).
Qed.

Lemma writer_run_refines es w w' : writer_ok w -> run es w = Some w' ->
  rtc Channel.pipe_step (channel_of w) (channel_of w').
Proof.
  revert w; induction es as [|e es IH]; intros w Hw; [by intros [= <-]|]. cbn.
  destruct (step e w) as [w1|] eqn:E; [|done]. intros H.
  specialize (IH w1 (writer_step_ok _ _ _ Hw E) H).
  destruct (writer_step_refines _ _ _ Hw E) as [<-|Hs]; [done|by eapply rtc_l].
Qed.

Lemma results_nodup w : writer_ok w -> NoDup (w_results w).*1.
Proof.
  intros Hok. assert (Hn : NoDup ((w_results w).*1 ++ w_drains w)) by (rewrite (ok_settled _ Hok); apply NoDup_seq).
  by apply list.NoDup_app in Hn as [? _].
Qed.

Lemma worker_step_work e w w' : worker_event e = true -> step e w = Some w' -> (work w' < work w)%nat.
Proof.
  intros He. unfold work. destruct e as [| | | |r|ok]; try done; cbn [step].
  - unfold get_job. destruct (w_worker w); try done. destruct (w_jobs w) as [|[data d|] jobs]; try done; intros [= <-];
      cbn; lia.
  - unfold write_chunk. destruct (w_worker w) as [|[|b rest] d|]; try done.
    destruct r as [[|n]| |]; try (intros [= <-]; cbn; lia).
    destruct (Nat.leb_spec (S n) (length (b :: rest))); [|done]. intros [= <-]. cbn. rewrite length_drop. cbn in *. lia.
  - unfold flush. destruct (w_worker w) as [|[|b rest] d|]; try done. destruct ok; intros [= <-]; cbn; lia.
Qed.

Lemma worker_run_work es w w' : forallb worker_event es = true -> run es w = Some w' ->
  (length es + work w' <= work w)%nat.
Proof.
  revert w; induction es as [|e es IH]; intros w He; [intros [= <-]; cbn; lia|]. cbn in He |- *.
  apply andb_prop in He as [He Hes]. destruct (step e w) as [w1|] eqn:E; [|done]. cbn. intros H.
  pose proof (worker_step_work _ _ _ He E). specialize (IH _ Hes H). lia.
Qed.

(** Whatever the stream does next, a worker that is not at rest can go on. *)
Lemma worker_goes_on r ok w : at_rest w = false -> (forall n, r = Took n -> (n <= 1)%nat) ->
  exists e w', worker_event e = true /\ step e w = Some w' /\ (e = GetJob \/ e = Chunk r \/ e = Flush ok).
Proof.
  unfold at_rest. intros H Hr. destruct (w_worker w) as [|[|b rest] d|] eqn:Hw; [|..|done].
  - exists GetJob. cbn. unfold get_job. rewrite Hw. destruct (w_jobs w); [done|]. eexists; split; [done|]; split; [reflexivity|tauto].
  - exists (Flush ok). cbn. unfold flush. rewrite Hw. destruct ok; (eexists; split; [done|]; split; [reflexivity|tauto]).
  - exists (Chunk r). cbn. unfold write_chunk. rewrite Hw. destruct r as [[|n]| |]; try (eexists; split; [done|]; split; [reflexivity|tauto]).
    specialize (Hr _ eq_refl). cbn [length]. destruct (Nat.leb_spec (S n) (S (length rest))); [|lia]. eexists; split; [done|]; split; [reflexivity|tauto].
Qed.

Lemma at_rest_settled w : writer_ok w -> at_rest w = true ->
  w_drains w = [] /\ (w_terminal_failure w = false -> w_accepted w = w_stream w ++ w_pending w).
Proof.
  unfold at_rest. intros Hok H.
  assert (Hj : w_jobs w = [] /\ current w = [] /\ current_waiter w = []).
  { unfold current, current_waiter. destruct (w_worker w) eqn:Hw; [by destruct (w_jobs w)|done|].
    by destruct (ok_stopped _ Hok Hw). }
  destruct Hj as (Hj & Hc & Hd). rewrite (ok_drains _ Hok), Hd, Hj. split; [done|]. intros Ht.
  rewrite (ok_bytes _ Hok Ht), Hc. unfold queued. by rewrite Hj.
Qed.

(** C12. The writer implements the channel: every sequence of calls, worker
    steps and stream outcomes that the writer can go through from its start
    is a sequence of steps of the abstract byte pipe, and what the stream
    has taken is a prefix, in order, of the bytes the callers wrote. *)
Theorem writer_refines_channel es w : run es writer_init = Some w ->
  rtc Channel.pipe_step (Channel.MkChannel [] [] Channel.Open) (channel_of w)
  /\ w_stream w `prefix_of` w_accepted w
  /\ (w_terminal_failure w = false -> w_accepted w = w_stream w ++ current w ++ queued w ++ w_pending w).
Proof.
  intros H. pose proof (writer_run_ok _ _ _ writer_init_ok H) as Hok. split_and!.
  - apply (writer_run_refines _ _ _ writer_init_ok H).
  - apply (ok_prefix _ Hok).
  - apply (ok_bytes _ Hok).
Qed.

(** A drain that returned has its bytes on the stream: after any history,
    each completion is resolved at most once and only if a drain made it, and
    for one resolved with success, the bytes accepted before that drain are
    the first bytes of the stream, with the flush done; the worker that has
    stopped leaves no drain waiting. *)
Theorem drained_means_delivered es w : run es writer_init = Some w ->
  NoDup (w_results w).*1
  /\ (forall k r, (k, r) ∈ w_results w -> (k < w_next w)%nat)
  /\ (forall k, (k, Drained) ∈ w_results w ->
       exists m, w_marks w !! k = Some m /\ (m <= length (w_stream w))%nat
                 /\ take m (w_stream w) = take m (w_accepted w))
  /\ (w_worker w = Stopped -> (w_results w).*1 ≡ₚ seq 0 (w_next w)).
Proof.
  intros H. pose proof (writer_run_ok _ _ _ writer_init_ok H) as Hok. split_and!.
  - by apply results_nodup.
  - intros k r Hk. assert (Hs : k ∈ seq 0 (w_next w)); [|apply elem_of_seq in Hs; lia].
    rewrite <- (ok_settled _ Hok), elem_of_app. left. apply list_elem_of_fmap. by exists (k, r).
  - intros k Hk. destruct (ok_done _ Hok k Hk) as (m & Hm & Hle). exists m. split_and!; [done..|].
    destruct (ok_prefix _ Hok) as [rest ->]. by rewrite take_app_le.
  - intros Hw. rewrite <- (ok_settled _ Hok), (proj1 (at_rest_settled w Hok ltac:(by unfold at_rest; rewrite Hw))).
    by rewrite app_nil_r.
Qed.

(** The worker settles every drain: from any state the writer can reach,
    the worker alone takes at most [work w] steps, whatever each call of the
    stream does; while it is not at rest it always has a step, whether the
    stream takes a byte, would block, is closed or raises; and at rest every
    drain has been resolved, and if the stream never failed every byte handed
    over by a drain or by [close] has been written. *)
Theorem worker_settles_drains hist w es w' :
  run hist writer_init = Some w -> forallb worker_event es = true -> run es w = Some w' ->
  (length es <= work w)%nat
  /\ (at_rest w' = false -> forall r ok, (forall n, r = Took n -> (n <= 1)%nat) ->
       exists e w2, worker_event e = true /\ step e w' = Some w2 /\ (e = GetJob \/ e = Chunk r \/ e = Flush ok))
  /\ (at_rest w' = true -> w_drains w' = []
       /\ (w_terminal_failure w' = false -> w_accepted w' = w_stream w' ++ w_pending w')).
Proof.
  intros H0 He H. pose proof (writer_run_ok _ _ _ writer_init_ok H0) as Hok.
  pose proof (writer_run_ok _ _ _ Hok H) as Hok'. split_and!.
  - pose proof (worker_run_work _ _ _ He H). lia.
  - intros Hr r ok. by apply worker_goes_on.
  - by apply at_rest_settled.
Qed.

(** ** Witnesses *)

(** Two senders; the stream takes the first frame in two pieces and the
    second would block. *)
Definition sample_writes : list event :=
  [Write [104; 105; 10]; Drain; Write [1; 10]; Drain; GetJob; Chunk (Took 2); Chunk (Took 1); Flush true; GetJob].

Definition sample_writer : writer :=
  MkWriter [] [] [1%nat] false false (Writing [1; 10] (Some 1%nat)) [104; 105; 10] [(0%nat, Drained)] 2%nat
    [104; 105; 10; 1; 10] [3; 5]%nat.

Lemma sample_writes_state : run sample_writes writer_init = Some sample_writer.
Proof. reflexivity. Qed.

Lemma writer_refines_channel_witness :
  rtc Channel.pipe_step (Channel.MkChannel [] [] Channel.Open) (channel_of sample_writer)
  /\ w_stream sample_writer `prefix_of` w_accepted sample_writer
  /\ (w_terminal_failure sample_writer = false ->
      w_accepted sample_writer = w_stream sample_writer ++ current sample_writer ++ queued sample_writer ++ w_pending sample_writer).
Proof. apply (writer_refines_channel sample_writes sample_writer). reflexivity. Defined.

Lemma drained_means_delivered_witness :
  NoDup (w_results sample_writer).*1
  /\ (forall k r, (k, r) ∈ w_results sample_writer -> (k < w_next sample_writer)%nat)
  /\ (forall k, (k, Drained) ∈ w_results sample_writer ->
       exists m, w_marks sample_writer !! k = Some m /\ (m <= length (w_stream sample_writer))%nat
                 /\ take m (w_stream sample_writer) = take m (w_accepted sample_writer))
  /\ (w_worker sample_writer = Stopped -> (w_results sample_writer).*1 ≡ₚ seq 0 (w_next sample_writer)).
Proof. apply (drained_means_delivered sample_writes sample_writer). reflexivity. Defined.

(** The blocked stream fails the writer: the second drain is told. *)
Lemma worker_settles_drains_witness :
  (1 <= work sample_writer)%nat
  /\ (at_rest (fail sample_writer) = false -> forall r ok, (forall n, r = Took n -> (n <= 1)%nat) ->
       exists e w2, worker_event e = true /\ step e (fail sample_writer) = Some w2
                    /\ (e = GetJob \/ e = Chunk r \/ e = Flush ok))
  /\ (at_rest (fail sample_writer) = true -> w_drains (fail sample_writer) = []
       /\ (w_terminal_failure (fail sample_writer) = false ->
           w_accepted (fail sample_writer) = w_stream (fail sample_writer) ++ w_pending (fail sample_writer))).
Proof.
  apply (worker_settles_drains sample_writes sample_writer [Chunk WouldBlock] (fail sample_writer)); reflexivity.
Defined.
