(* ===== verification/StdioReader.v ===== *)
(** * The threaded stdio reader ([kestrel_sdk/isolated_feature/service.py])

    [_ThreadedStdioReader]: callers queue reads, one worker thread serves
    them in order, and [close] resolves every read that still waits.  A step
    is one critical section or one call of the stream.  Resolving a future
    and the callback that forgets it are one step; a future that is already
    done keeps its result. *)

From stdpp Require Import gmap.
From S2P Require Export PyData.

Abbreviation completion := nat.

(** A line, or the error that [stream.readline] raised. *)
Inductive outcome : Type := Line (data : list Z) | ReadRaised.

(** The worker is at [Queue.get] (or not started), inside [stream.readline]
    for a completion, or past the loop. *)
Inductive worker : Type := Idle | Reading (k : completion) | Finished.

(** [r_reads] is what the stream returned, in order; [r_next] the number of
    reads asked for. *)
Record reader := MkReader {
  r_requests : list (option completion);
  r_pending : list completion;
  r_closed : bool;
  r_worker : worker;
  r_results : list (completion * outcome);
  r_next : completion;
  r_reads : list outcome
}.

Definition reader_init : reader := MkReader [] [] false Idle [] 0%nat [].

(** [_set_future_result] through the loop: the first result stays. *)
Definition resolve (k : completion) (v : outcome) (r : reader) : reader :=
  if decide (k ∈ (r_results r).*1) then r
  else MkReader (r_requests r) (base.filter (fun j => j <> k) (r_pending r)) (r_closed r) (r_worker r)
         (r_results r ++ [(k, v)]) (r_next r) (r_reads r).

(** [readline] up to its wait; [None] when it returns [b''] at once. *)
Definition readline (r : reader) : option completion * reader :=
  if r_closed r then (None, r)
  else
    let k := r_next r in
    (Some k, MkReader (r_requests r ++ [Some k]) (r_pending r ++ [k]) false (r_worker r) (r_results r) (S k) (r_reads r)).

Definition close (r : reader) : reader :=
  if r_closed r then r
  else
    let r' := MkReader [None] [] true (r_worker r) (r_results r) (r_next r) (r_reads r) in
    foldl (fun r k => resolve k (Line []) r) r' (r_pending r).

(** [requests.get()] of [_threaded_stdio_read_loop]. *)
Definition get_request (r : reader) : option reader :=
  match r_worker r, r_requests r with
  | Idle, q :: requests =>
      Some (MkReader requests (r_pending r) (r_closed r)
              (match q with Some k => Reading k | None => Finished end)
              (r_results r) (r_next r) (r_reads r))
  | _, _ => None
  end.

(** [stream.readline()] returns or raises, and the completion is resolved. *)
Definition serve_read (v : outcome) (r : reader) : option reader :=
  match r_worker r with
  | Reading k =>
      Some (resolve k v (MkReader (r_requests r) (r_pending r) (r_closed r) Idle (r_results r) (r_next r)
                           (r_reads r ++ [v])))
  | _ => None
  end.

Inductive event : Type := Readline | Close | GetRequest | Serve (v : outcome).

Definition step (e : event) (r : reader) : option reader :=
  match e with
  | Readline => Some (readline r).2
  | Close => Some (close r)
  | GetRequest => get_request r
  | Serve v => serve_read v r
  end.

Fixpoint run (es : list event) (r : reader) : option reader :=
  match es with
  | [] => Some r
  | e :: es' => r' ← step e r; run es' r'
  end.

(** ** Invariant *)

(** The completion the worker serves, if it does. *)
Definition serving (r : reader) : list completion := match r_worker r with Reading k => [k] | _ => [] end.

(** The [n] first reads have the [n] first outcomes of the stream, the reads
    after them were cut off by [close]. *)
Definition in_order (r : reader) (n : nat) : Prop :=
  r_results r = zip (seq 0 n) (take n (r_reads r)) ++ ((fun k => (k, Line [])) <$> seq n (length (r_results r) - n))
  /\ (n <= length (r_reads r))%nat.

Record reader_ok (r : reader) : Prop := {
  ok_open : r_closed r = false ->
    r_results r = zip (seq 0 (length (r_reads r))) (r_reads r)
    /\ r_pending r = serving r ++ omap id (r_requests r)
    /\ r_pending r = seq (length (r_reads r)) (r_next r - length (r_reads r))
    /\ (length (r_reads r) <= r_next r)%nat
    /\ r_worker r <> Finished /\ None ∉ r_requests r;
  ok_shut : r_closed r = true -> r_pending r = [] /\ length (r_results r) = r_next r
    /\ (exists n, in_order r n)
    /\ (forall k, r_worker r = Reading k -> k ∈ (r_results r).*1)
    /\ (r_worker r = Finished \/ r_requests r = [None])
    /\ (r_worker r = Finished -> r_requests r = [])
}.

#[local] Ltac fields := cbn [r_requests r_pending r_closed r_worker r_results r_next r_reads].

Lemma zip_firsts (l : list outcome) i : (zip (seq i (length l)) l).*1 = seq i (length l).
Proof. apply fst_zip. by rewrite length_seq. Qed.

Lemma in_order_firsts r n : in_order r n -> (r_results r).*1 = seq 0 (length (r_results r)).
Proof.
  intros [H Hn]. assert (Hl : length (zip (seq 0 n) (take n (r_reads r))) = n).
  { rewrite length_zip_with, length_seq, length_take. lia. }
  assert (Hle : (n <= length (r_results r))%nat) by (rewrite H, length_app, Hl; lia).
  rewrite H at 1. rewrite fmap_app, <- list_fmap_compose.
  assert (Hf : (zip (seq 0 n) (take n (r_reads r))).*1 = seq 0 n)
    by (apply fst_zip; rewrite length_seq, length_take; lia).
  rewrite Hf. set (m := length (r_results r)) in *.
  assert (He : seq 0 m = seq 0 n ++ seq n (m - n)) by (rewrite <- seq_app; f_equal; lia).
  rewrite He. f_equal. clear. induction (seq n _) as [|x l IH]; [done|]. cbn. by f_equal.
Qed.

(** [close] resolves the reads that wait, in their order. *)
Lemma resolve_all ks r : (forall k, k ∈ ks -> k ∉ (r_results r).*1) -> NoDup ks -> r_pending r = [] ->
  foldl (fun r k => resolve k (Line []) r) r ks
  = MkReader (r_requests r) [] (r_closed r) (r_worker r) (r_results r ++ ((fun k => (k, Line [])) <$> ks))
      (r_next r) (r_reads r).
Proof.
  revert r; induction ks as [|k ks IH]; intros r Hks Hnd Hp; cbn [foldl].
  { destruct r. cbn in *. by rewrite app_nil_r, Hp. }
  apply list.NoDup_cons in Hnd as [Hk Hnd]. unfold resolve at 2. rewrite decide_False by (apply Hks; by left).
  rewrite IH; fields.
  - by rewrite <- app_assoc.
  - intros j Hj. rewrite fmap_app, elem_of_app. cbn. rewrite list_elem_of_singleton.
    intros [Hj'| ->]; [|done]. by eapply Hks; [right|].
  - done.
  - by rewrite Hp.
Qed.

Lemma reader_init_ok : reader_ok reader_init.
Proof. split; cbn; [|done]. intros _. split_and!; try done. set_solver. Qed.

Lemma readline_ok r : reader_ok r -> reader_ok (readline r).2.
Proof.
  intros [Ho Hs]. unfold readline. destruct (r_closed r) eqn:Hc; cbn [snd]; [by split; rewrite Hc|].
  destruct (Ho eq_refl) as (Hr & Hp & Hq & Hle & Hw & Hn). split; fields; [|done]. intros _. split_and!; try done.
  - unfold serving in *. fields. rewrite Hp, omap_app, app_assoc. done.
  - rewrite Hq. replace (S (r_next r) - length (r_reads r))%nat with (S (r_next r - length (r_reads r))) by lia.
    rewrite seq_S. do 2 f_equal. lia.
  - lia.
  - set_solver.
Qed.

Lemma get_request_ok r r' : reader_ok r -> get_request r = Some r' -> reader_ok r'.
Proof.
  intros [Ho Hs]. unfold get_request. destruct (r_worker r) eqn:Hw; try done.
  destruct (r_requests r) as [|q requests] eqn:Hq; [done|]. intros [= <-]. split; fields; intros Hc.
  - destruct (Ho Hc) as (Hr & Hp & Hd & Hle & _ & Hn). destruct q as [k|]; [|set_solver].
    unfold serving in *. rewrite Hw in Hp. fields. split_and!; try done. set_solver.
  - destruct (Hs Hc) as (Hp & Hl & Hi & _ & [|[= -> ->]] & _); [done|]. split_and!; try done. by left.
Qed.

Lemma filter_seq_first i n : (i < n)%nat ->
  base.filter (fun j => j <> i) (seq i (n - i)) = seq (S i) (n - S i).
Proof.
  intros Hlt. replace (n - i)%nat with (S (n - S i)) by lia. cbn [seq]. rewrite filter_cons_False by auto.
  apply filter_id. intros j. rewrite elem_of_seq. lia.
Qed.

Lemma serve_ok v r r' : reader_ok r -> serve_read v r = Some r' -> reader_ok r'.
Proof.
  intros [Ho Hs]. unfold serve_read. destruct (r_worker r) as [|k|] eqn:Hw; try done. intros [= <-].
  destruct (r_closed r) eqn:Hc.
  - destruct (Hs eq_refl) as (Hp & Hl & (n & Hi & Hn) & Hk & Hf & _). unfold resolve. fields.
    rewrite decide_True by auto. split; fields; [congruence|]. intros _. split_and!; try done.
    + exists n. split; fields; [|rewrite length_app; lia]. by rewrite take_app_le.
    + destruct Hf as [|Hf]; [done|]. by right.
  - destruct (Ho eq_refl) as (Hr & Hp & Hq & Hle & _ & Hn). unfold serving in Hp. rewrite Hw in Hp.
    assert (Hkr : k = length (r_reads r) /\ (length (r_reads r) < r_next r)%nat
                  /\ omap id (r_requests r) = seq (S (length (r_reads r))) (r_next r - S (length (r_reads r)))).
    { rewrite Hp in Hq. destruct (r_next r - length (r_reads r))%nat as [|m] eqn:Hm; [done|].
      cbn in Hq. injection Hq as Hk Hrest. split_and!; [done|lia|]. rewrite Hrest. f_equal. lia. }
    destruct Hkr as (-> & Hlt & Hrest). unfold resolve. fields. rewrite decide_False; cycle 1.
    { rewrite Hr, zip_firsts, elem_of_seq. lia. }
    split; fields; [|congruence]. intros _. rewrite length_app. cbn [length]. rewrite Nat.add_1_r. split_and!; try done.
    + rewrite Hr, seq_S. rewrite zip_with_app by by rewrite length_seq. done.
    + unfold serving. fields. rewrite Hq, Hrest. by apply filter_seq_first.
    + rewrite Hq. by apply filter_seq_first.
Qed.

Lemma close_reader_ok r : reader_ok r -> reader_ok (close r).
Proof.
  intros Hok. unfold close. destruct (r_closed r) eqn:Hc; [done|].
  destruct (ok_open _ Hok Hc) as (Hr & Hp & Hq & Hle & Hw & Hn).
  assert (Hlen : length (r_results r) = length (r_reads r)) by (rewrite Hr, length_zip_with, length_seq; lia).
  assert (Hfst : (r_results r).*1 = seq 0 (length (r_reads r))) by (by rewrite Hr, zip_firsts).
  rewrite resolve_all; fields; [|intros k; rewrite Hfst, Hq, !elem_of_seq; lia|rewrite Hq; apply NoDup_seq|done].
  split; fields; [done|]. intros _.
  assert (Hall : length (r_results r ++ ((fun k => (k, Line [])) <$> r_pending r)) = r_next r)
    by (rewrite length_app, length_fmap, Hq, length_seq, Hlen; lia).
  assert (Hin : in_order (MkReader [None] [] true (r_worker r) (r_results r ++ ((fun k => (k, Line [])) <$> r_pending r))
                  (r_next r) (r_reads r)) (length (r_reads r))).
  { split; fields; [|lia]. rewrite Hall, take_ge, <- Hr, Hq by lia. done. }
  split_and!; try done; [by eexists| |by right].
  intros k Hk. pose proof (in_order_firsts _ _ Hin) as Hf. revert Hf. fields. intros ->.
  rewrite Hall. assert (Hkp : k ∈ r_pending r) by (rewrite Hp; unfold serving; rewrite Hk; by left).
  rewrite Hq in Hkp. rewrite elem_of_seq in *. lia.
Qed.

Lemma reader_step_ok e r r' : reader_ok r -> step e r = Some r' -> reader_ok r'.
Proof.
  intros Hok. destruct e; cbn; [intros [= <-]..| |].
  - by apply readline_ok.
  - by apply close_reader_ok.
  - by apply get_request_ok.
  - by apply serve_ok.
Qed.

Lemma reader_run_ok es r r' : reader_ok r -> run es r = Some r' -> reader_ok r'.
Proof.
  revert r; induction es as [|e es IH]; intros r Hr; [by intros [= <-]|]. cbn.
  destruct (step e r) as [r1|] eqn:E; [|done]. apply IH. by eapply reader_step_ok.
Qed.

(** Reads are answered in order: after any interleaving of callers,
    [close] and the worker, the reads that have a result are the first ones
    asked for, each with one result; the first of them have, in order, what
    the stream returned or raised, and the others, if any, the empty line
    of [close]; once the reader is closed no read waits. *)
Theorem reads_answered_in_order es r : run es reader_init = Some r ->
  (exists n, in_order r n)
  /\ (r_results r).*1 = seq 0 (length (r_results r))
  /\ (r_closed r = false -> r_results r = zip (seq 0 (length (r_reads r))) (r_reads r))
  /\ (r_closed r = true -> length (r_results r) = r_next r).
Proof.
  intros H. pose proof (reader_run_ok _ _ _ reader_init_ok H) as Hok.
  assert (Hi : exists n, in_order r n).
  { destruct (r_closed r) eqn:Hc; [by destruct (ok_shut _ Hok Hc) as (_ & _ & ? & _)|].
    destruct (ok_open _ Hok Hc) as (Hr & _). exists (length (r_reads r)). split; [|lia].
    rewrite firstn_all, <- Hr. rewrite Hr at 3. rewrite length_zip_with, length_seq, Nat.min_id, Nat.sub_diag.
    by rewrite app_nil_r. }
  split_and!; [done| | |].
  - destruct Hi as [n Hi]. by apply (in_order_firsts r n).
  - intros Hc. by destruct (ok_open _ Hok Hc).
  - intros Hc. by destruct (ok_shut _ Hok Hc) as (_ & ? & _).
Qed.

(** Two reads, one line, and a third read cut off by [close] while the
    worker is in the stream. *)
Definition sample_reads : list event :=
  [Readline; Readline; GetRequest; Serve (Line [123; 10]); GetRequest; Readline; Close; Serve (Line [125; 10])].

Definition sample_reader : reader :=
  MkReader [None] [] true Idle [(0%nat, Line [123; 10]); (1%nat, Line []); (2%nat, Line [])] 3%nat
    [Line [123; 10]; Line [125; 10]].

Lemma reads_answered_in_order_witness :
  (exists n, in_order sample_reader n)
  /\ (r_results sample_reader).*1 = seq 0 (length (r_results sample_reader))
  /\ (r_closed sample_reader = false ->
       r_results sample_reader = zip (seq 0 (length (r_reads sample_reader))) (r_reads sample_reader))
  /\ (r_closed sample_reader = true -> length (r_results sample_reader) = r_next sample_reader).
Proof. apply (reads_answered_in_order sample_reads sample_reader). reflexivity. Defined.
