(* ===== verification/RpcServiceProps.v ===== *)
(** * The isolated feature service: properties

    Every request read ends once or is still handled, and is answered by one
    frame as long as its sends succeed; the loop always leaves; the restart
    fence; the revocation of execution contexts; and what lifecycle errors
    reveal. *)

From stdpp Require Import gmap.
From S2P Require Export RpcService.

(** How often [k] occurs. *)
Definition times (k : nat) (l : list nat) : nat := length (base.filter (fun j => j = k) l).

Lemma times_app k l l' : times k (l ++ l') = (times k l + times k l')%nat.
Proof. unfold times. by rewrite list.filter_app, length_app. Qed.

Lemma times_one k j : times k [j] = if decide (j = k) then 1%nat else 0%nat.
Proof. unfold times. rewrite filter_cons, filter_nil. by case_decide. Qed.

#[local] Arguments times : simpl never.

(** A message that answers no request: a notification, or the error for a
    frame without an id. *)
Definition unsolicited (m : JsonRpcMessage) : Prop :=
  match m with MNotification _ => True | MResponse r => rp_id r = IdNone | MRequest _ => False end.

Section Service.
Context (py_repr : fjson -> pystr) (fromisoformat : pystr -> option datetime) (limits : json_limits).

Abbreviation step := (RpcService.step py_repr fromisoformat limits).
Abbreviation run := (RpcService.run py_repr fromisoformat limits).
Abbreviation begin := (RpcService.begin py_repr fromisoformat limits).
Abbreviation dispatch := (RpcService.dispatch py_repr fromisoformat limits).

(** The requests whose frames were written, in the order of the frames. *)
Definition answered (s : Server) : list nat := omap fst (sr_sent s).

Definition handled (s : Server) : list nat := (map_to_list (sr_tasks s)).*1.

(** Each request read has ended or is being handled, and only one of these,
    once. *)
Definition accounted (s : Server) : Prop :=
  (sr_ended s).*1 ++ handled s ≡ₚ seq 0 (length (sr_requests s)).

Definition message_id (m : JsonRpcMessage) : option JsonRpcId :=
  match m with MResponse r => Some (rp_id r) | _ => None end.

(** Requests whose parameters may hold credentials or host-only state. *)
Definition secret_bearing (r : JsonRpcRequest) : bool :=
  method_is CONFIG_TRANSITION r || method_is HOST_INGRESS r
  || method_is INITIALIZE r && match dict_get (u "config") (rq_params r) with FMap _ => true | _ => false end.

(** The one text such a request's errors have. *)
Definition lifecycle_text (r : JsonRpcRequest) : pystr :=
  if method_is CONFIG_TRANSITION r then u "config transition failed"
  else if method_is HOST_INGRESS r then u "host ingress failed"
  else u "initialization failed".

(** An answer to a request: it carries the request's id, and an error of a
    secret-bearing request has the fixed text and no data. *)
Definition answer_ok (r : JsonRpcRequest) (m : JsonRpcMessage) : Prop :=
  message_id m = Some (rq_id r)
  /\ (secret_bearing r = true -> forall rp e, m = MResponse rp -> rp_error rp = Some e ->
        re_message e = lifecycle_text r /\ re_data e = FNull).

(** An answer to request [k]. *)
Definition answers (s : Server) (k : nat) (m : JsonRpcMessage) : Prop :=
  exists r, sr_requests s !! k = Some r /\ answer_ok r m.

(** The frames [n] written for a request and the sends [f] of it that raised,
    by where it is. *)
Definition phase_counts (p : option phase) (n f : nat) : Prop :=
  match p with
  | Some Queued | Some (Running _) | Some (Sending true _) => n = 0 /\ f = 0
  | Some (Draining true) => n = 1 /\ f = 0
  | Some (Sending false _) => n <= f /\ f <= 1
  | Some (Draining false) => 1 <= n <= 1 + f /\ f <= 1
  | None => n <= 1 + f /\ n <= 2
  end%nat.

Record server_ok (s : Server) : Prop := {
  si_accounted : accounted s;
  si_sent : forall k m, (Some k, m) ∈ sr_sent s -> answers s k m;
  si_sending : forall k b m, sr_tasks s !! k = Some (Sending b m) -> answers s k m;
  si_unsolicited : forall m, (None, m) ∈ sr_sent s -> unsolicited m;
  si_rejects : forall m, sr_loop s = Rejects m -> unsolicited m;
  si_counts : forall k, phase_counts (sr_tasks s !! k) (times k (answered s)) (times k (sr_faults s));
  si_fresh : forall k, (length (sr_requests s) <= k)%nat -> times k (answered s) = 0%nat /\ times k (sr_faults s) = 0%nat;
  si_ended_sent : forall k, (k, Sent) ∈ sr_ended s -> (1 <= times k (answered s))%nat;
  si_ended_failed : forall k, (k, SendFailed) ∈ sr_ended s -> (1 <= times k (sr_faults s))%nat
}.

(** ** Answers *)

Lemma error_message_secret r t : secret_bearing r = true -> error_message r t = lifecycle_text r.
Proof.
  unfold secret_bearing, error_message, lifecycle_text.
  destruct (method_is CONFIG_TRANSITION r), (method_is HOST_INGRESS r); try done. cbn. by intros ->.
Qed.

Lemma error_response_ok r code t :
  (secret_bearing r = true -> t = lifecycle_text r) -> answer_ok r (error_response (rq_id r) code t).
Proof. intros Ht. split; [done|]. intros Hs rp e [= <-] [= <-]. cbn. auto. Qed.

Lemma response_ok r m : answer_ok r (response limits r m).
Proof.
  unfold response. destruct m as [rep|[t|t]]; try (apply error_response_ok, error_message_secret).
  destruct (reply_tree limits rep); [|apply error_response_ok, error_message_secret].
  split; [done|]. by intros _ rp e [= <-].
Qed.

Lemma answer_answers c r o m b msg : answer limits c r o m = Some (b, msg) -> answer_ok r msg.
Proof.
  destruct o; cbn; try (intros [= _ <-]; apply response_ok).
  destruct (method_is HOST_INGRESS r) eqn:Hi; [|done]. destruct c; [done|]. intros [= _ <-]. apply error_response_ok.
  unfold lifecycle_text. intros _. rewrite Hi. destruct (method_is CONFIG_TRANSITION r) eqn:Hc; [|done].
  unfold method_is in *. bool_hyps. exfalso. rewrite Hi in Hc. by vm_compute in Hc.
Qed.

(** ** The primitive changes *)

Lemma handled_delete (tasks : gmap nat phase) k p :
  tasks !! k = Some p -> (map_to_list tasks).*1 ≡ₚ k :: (map_to_list (delete k tasks)).*1.
Proof. intros Hk. by rewrite <- (map_to_list_delete tasks k p Hk). Qed.

Lemma handled_update (tasks : gmap nat phase) k p p' :
  tasks !! k = Some p -> (map_to_list (<[k := p']> tasks)).*1 ≡ₚ (map_to_list tasks).*1.
Proof.
  intros Hk. rewrite <- insert_delete_eq, map_to_list_insert by apply lookup_delete_eq.
  cbn. symmetry. by apply handled_delete with p.
Qed.

Lemma accounted_lookup s k p : accounted s -> sr_tasks s !! k = Some p -> (k < length (sr_requests s))%nat.
Proof.
  intros Ha Hk. assert (Hin : k ∈ seq 0 (length (sr_requests s))); [|apply elem_of_seq in Hin; lia].
  unfold accounted in Ha. rewrite <- Ha. rewrite !elem_of_app. right. apply list_elem_of_fmap. exists (k, p). split; [done|].
  by apply elem_of_map_to_list.
Qed.

(** What the frames and requests determine is unchanged. *)
Lemma rebuild_ok s s' : server_ok s ->
  sr_requests s' = sr_requests s -> sr_tasks s' = sr_tasks s -> sr_sent s' = sr_sent s -> sr_ended s' = sr_ended s ->
  sr_faults s' = sr_faults s -> (forall m, sr_loop s' = Rejects m -> unsolicited m) -> server_ok s'.
Proof.
  intros [] E1 E2 E3 E4 E5 Hl. split; [..|done|clear si_rejects0| | |]; unfold accounted, handled, answers, answered in *; rewrite ?E1, ?E2, ?E3, ?E4, ?E5; try done.
Qed.

Lemma set_phase_ok k p p' s : server_ok s -> sr_tasks s !! k = Some p ->
  (forall b m, p' = Sending b m -> answers s k m) ->
  phase_counts (Some p') (times k (answered s)) (times k (sr_faults s)) -> server_ok (set_phase k p' s).
Proof.
  intros [] Hk Hp Hc. split; cbn; try done.
  - unfold accounted, handled in *. cbn. by rewrite (handled_update _ _ _ _ Hk).
  - intros j b m [[<- ->]|[_ Hj]]%lookup_insert_Some; [by eapply Hp|by eapply si_sending0].
  - intros j. destruct (decide (k = j)) as [<-|Hne]; [by rewrite lookup_insert_eq|by rewrite lookup_insert_ne].
Qed.

Lemma end_request_ok k p how s : server_ok s -> sr_tasks s !! k = Some p ->
  phase_counts None (times k (answered s)) (times k (sr_faults s)) ->
  (how = Sent -> 1 <= times k (answered s))%nat -> (how = SendFailed -> 1 <= times k (sr_faults s))%nat ->
  server_ok (end_request k how s).
Proof.
  intros [] Hk Hc Hs Hf. split; cbn; try done.
  - unfold accounted, handled in *. cbn. rewrite fmap_app, <- si_accounted0, (handled_delete _ _ _ Hk). cbn. solve_Permutation.
  - intros j b m [_ Hj]%lookup_delete_Some. by eapply si_sending0.
  - intros m. destruct (awaits k (sr_loop s)); [by destruct (decide (how = Sent))|apply si_rejects0].
  - intros j. destruct (decide (k = j)) as [<-|Hne]; [by rewrite lookup_delete_eq|by rewrite lookup_delete_ne].
  - intros j [Hj|[= -> <-]%list_elem_of_singleton]%elem_of_app; [by apply si_ended_sent0|by apply Hs].
  - intros j [Hj|[= -> <-]%list_elem_of_singleton]%elem_of_app; [by apply si_ended_failed0|by apply Hf].
Qed.

Lemma answered_send who x s :
  answered (send who x s) = answered s ++ match x.1 with Some k => [k] | None => [] end.
Proof. unfold answered. cbn. rewrite omap_app. by destruct x as [[k|] m]. Qed.

Lemma send_unsolicited_ok who m s : server_ok s -> unsolicited m -> server_ok (send who (None, m) s).
Proof.
  intros [] Hm. split; try done; rewrite ?answered_send; cbn [fst]; rewrite ?app_nil_r; try done.
  - intros k m' [H|[=]%list_elem_of_singleton]%elem_of_app. by apply si_sent0.
  - intros m' [H|[= ->]%list_elem_of_singleton]%elem_of_app; [by apply si_unsolicited0|done].
Qed.

Lemma written_ok k b m who s : server_ok s -> sr_tasks s !! k = Some (Sending b m) ->
  server_ok (set_phase k (Draining b) (send who (Some k, m) s)).
Proof.
  intros [] Hk. pose proof (si_counts0 k) as Hc. rewrite Hk in Hc.
  assert (Hlt : (k < length (sr_requests s))%nat) by (by eapply accounted_lookup).
  assert (Ha : forall j, times j (answered (send who (Some k, m) s)) = (times j (answered s) + if decide (k = j) then 1 else 0)%nat).
  { intros j. rewrite answered_send. cbn [fst]. by rewrite times_app, times_one. }
  assert (E : answered (set_phase k (Draining b) (send who (Some k, m) s)) = answered (send who (Some k, m) s)) by done.
  split; try done; rewrite ?E.
  - unfold accounted, handled in *. cbn. by rewrite (handled_update _ _ _ _ Hk).
  - intros j m' [H|[= -> ->]%list_elem_of_singleton]%elem_of_app; [by apply si_sent0|by eapply si_sending0].
  - cbn. intros j b' m' [[_ [=]]|[_ Hj]]%lookup_insert_Some. by eapply si_sending0.
  - intros m' [H|[=]%list_elem_of_singleton]%elem_of_app. by apply si_unsolicited0.
  - intros j.
    change (phase_counts (<[k := Draining b]> (sr_tasks s) !! j) (times j (answered (send who (Some k, m) s))) (times j (sr_faults s))).
    rewrite Ha. destruct (decide (k = j)) as [<-|Hne].
    + rewrite lookup_insert_eq. destruct b; cbn in *; lia.
    + rewrite lookup_insert_ne by done. specialize (si_counts0 j). by rewrite Nat.add_0_r.
  - intros j Hj. change (length (sr_requests s) <= j)%nat in Hj. rewrite Ha, decide_False, Nat.add_0_r by lia. by apply si_fresh0.
  - intros j Hj. rewrite Ha. apply si_ended_sent0 in Hj. lia.
Qed.

Lemma send_failed_ok k r b p text s : server_ok s -> sr_requests s !! k = Some r -> sr_tasks s !! k = Some p ->
  ((exists m, p = Sending b m) \/ p = Draining b) -> server_ok (send_failed k r b text s).
Proof.
  intros Hs Hr Hk Hp. pose proof (si_counts _ Hs k) as Hc. rewrite Hk in Hc.
  assert (Hf : forall j, times j (sr_faults s ++ [k]) = (times j (sr_faults s) + if decide (k = j) then 1 else 0)%nat).
  { intros j. by rewrite times_app, times_one. }
  (* the state after the fault, with the counts of [k] left open *)
  assert (Hone : times k (sr_faults s ++ [k]) = S (times k (sr_faults s))) by (rewrite Hf, decide_True by done; lia).
  unfold send_failed. destruct b.
  - assert (Hn : (times k (answered s) <= 1)%nat /\ times k (sr_faults s) = 0%nat) by (destruct Hp as [[m ->]| ->]; cbn in Hc; lia).
    destruct Hs. split; try done; cbn.
    + unfold accounted, handled in *. cbn. by rewrite (handled_update _ _ _ _ Hk).
    + intros j b' m' [[<- [= <- <-]]|[_ Hj]]%lookup_insert_Some; [|by eapply si_sending0].
      exists r. split; [done|]. apply error_response_ok, error_message_secret.
    + intros j. destruct (decide (k = j)) as [<-|Hne].
      * rewrite lookup_insert_eq. cbn. rewrite Hone. unfold answered in *. cbn. lia.
      * rewrite lookup_insert_ne by done. rewrite Hf, decide_False, Nat.add_0_r by done. apply si_counts0.
    + intros j Hj. cbn in Hj. rewrite Hf, decide_False, Nat.add_0_r; [by apply si_fresh0|].
      intros ->. apply lookup_lt_Some in Hr. lia.
    + intros j Hj. apply si_ended_failed0 in Hj. rewrite Hf. lia.
  - assert (Hn : (times k (answered s) <= 1 + times k (sr_faults s))%nat /\ (times k (sr_faults s) <= 1)%nat)
      by (destruct Hp as [[m ->]| ->]; cbn in Hc; lia).
    assert (Hlt : (k < length (sr_requests s))%nat) by (by eapply lookup_lt_Some).
    destruct Hs. split; try done; cbn.
    + unfold accounted, handled in *. cbn. rewrite fmap_app, <- si_accounted0, (handled_delete _ _ _ Hk). cbn. solve_Permutation.
    + intros j b' m' [_ Hj]%lookup_delete_Some. by eapply si_sending0.
    + intros m. destruct (awaits k (sr_loop s)); [done|apply si_rejects0].
    + intros j. destruct (decide (k = j)) as [<-|Hne].
      * rewrite lookup_delete_eq. cbn. rewrite Hone. unfold answered in *. cbn. lia.
      * rewrite lookup_delete_ne by done. rewrite Hf, decide_False, Nat.add_0_r by done. apply si_counts0.
    + intros j Hj. cbn in Hj. rewrite Hf, decide_False, Nat.add_0_r by lia. by apply si_fresh0.
    + intros j [Hj|[= ->]%list_elem_of_singleton]%elem_of_app. by apply si_ended_sent0.
    + intros j [Hj|[= ->]%list_elem_of_singleton]%elem_of_app; rewrite Hf; [apply si_ended_failed0 in Hj; lia|].
      rewrite decide_True by done. lia.
Qed.

(** ** Every step *)

Lemma begin_ok k r s : server_ok s -> sr_tasks s !! k = Some Queued -> sr_requests s !! k = Some r -> server_ok (begin k r s).
Proof.
  intros Hs Hk Hr. pose proof (si_counts _ Hs k) as Hc. rewrite Hk in Hc. cbn in Hc.
  unfold RpcService.begin. destruct (dispatch (sr_service s) r) as [svc [m|c]].
  - apply set_phase_ok with Queued; [|done| |].
    + apply (rebuild_ok s); try done. apply Hs.
    + intros b m' [= <- <-]. exists r. split; [done|apply response_ok].
    + change (phase_counts (Some (Sending (in_try limits m) (response limits r m))) (times k (answered s)) (times k (sr_faults s))).
      destruct (in_try limits m); cbn; lia.
  - set (s1 := match c with CallTool _ _ _ => _ | _ => _ end).
    assert (H1 : server_ok s1) by (destruct c; apply (rebuild_ok s); try done; apply Hs).
    apply set_phase_ok with Queued; [done|by destruct c|done|]. by destruct c.
Qed.

Lemma accept_ok r s : server_ok s -> server_ok (accept_request py_repr fromisoformat limits r s).
Proof.
  intros Hs. unfold accept_request.
  assert (Hn : sr_tasks s !! length (sr_requests s) = None).
  { destruct (sr_tasks s !! length (sr_requests s)) eqn:E; [|done]. apply accounted_lookup in E; [lia|apply Hs]. }
  match goal with |- server_ok (if _ then begin _ _ (set_loop _ ?s1) else _) => assert (Hs1 : server_ok s1) end.
  { destruct Hs. assert (Hmono : forall k m, answers s k m -> exists r', (sr_requests s ++ [r]) !! k = Some r' /\ answer_ok r' m).
    { intros k m (r' & Hr' & Hm). exists r'. split; [by apply lookup_app_l_Some|done]. }
    split; try done; unfold answers; cbn.
    - unfold accounted, handled in *. cbn.
      rewrite length_app, Nat.add_1_r, seq_S, <- si_accounted0, map_to_list_insert by done. cbn. solve_Permutation.
    - intros k m Hk. by apply Hmono, si_sent0.
    - intros k b m [[_ [=]]|[_ Hk]]%lookup_insert_Some. eapply Hmono, si_sending0, Hk.
    - intros k. destruct (decide (length (sr_requests s) = k)) as [<-|Hne].
      + rewrite lookup_insert_eq. by apply si_fresh0.
      + rewrite lookup_insert_ne by done. apply si_counts0.
    - intros k Hk. rewrite length_app in Hk. apply si_fresh0. cbn in Hk. lia. }
  destruct (is_inline r); [|done]. apply begin_ok.
  - by apply (rebuild_ok _ _ Hs1).
  - cbn. by rewrite lookup_insert_eq.
  - cbn. by rewrite list_lookup_middle.
Qed.

Lemma set_loop_ok l s : server_ok s -> (forall m, l = Rejects m -> unsolicited m) -> server_ok (set_loop l s).
Proof. intros Hs Hl. by apply (rebuild_ok s). Qed.

Lemma finish_ok k r c o s : server_ok s -> sr_tasks s !! k = Some (Running c) -> sr_requests s !! k = Some r ->
  server_ok (finish limits k r c o s).
Proof.
  intros Hs Hk Hr. pose proof (si_counts _ Hs k) as Hc. rewrite Hk in Hc. cbn in Hc.
  unfold finish. destruct (resume limits (sr_service s) c o) as [svc m].
  set (s1 := set_scopes _ _). assert (H1 : server_ok s1) by (apply (rebuild_ok s); try done; apply Hs).
  destruct (answer limits _ r o m) as [[b msg]|] eqn:Hm.
  - apply set_phase_ok with (Running c); [done..| |].
    + intros b' m' [= <- <-]. exists r. split; [done|by eapply answer_answers].
    + change (phase_counts (Some (Sending b msg)) (times k (answered s)) (times k (sr_faults s))). destruct b; cbn; lia.
  - apply end_request_ok with (Running c); try done.
    change (phase_counts None (times k (answered s)) (times k (sr_faults s))). cbn. lia.
Qed.

Lemma write_frame_ok who raised s s' : server_ok s -> write_frame who raised s = Some s' -> server_ok s'.
Proof.
  intros Hs. unfold write_frame. destruct (sr_lock s); [done|]. destruct who as [k| |]; [..|done].
  - destruct (sr_tasks s !! k) as [[| |b m|]|] eqn:Hk; try done. destruct (sr_requests s !! k) as [r|] eqn:Hr; [|done].
    destruct (decide _); [done|]. intros [= <-]. destruct raised; [|by apply written_ok].
    eapply send_failed_ok; [done..|]. left. by exists m.
  - destruct (sr_loop s) as [| |m| | | |] eqn:Hl; try done. intros [= <-]. destruct raised; [by apply set_loop_ok|].
    apply set_loop_ok; [|done]. apply send_unsolicited_ok; [done|]. by apply (si_rejects _ Hs).
Qed.

Lemma drained_ok who raised s s' : server_ok s -> drained who raised s = Some s' -> server_ok s'.
Proof.
  intros Hs. unfold drained. destruct (decide _); [|done]. destruct who as [k| |].
  - destruct (sr_tasks s !! k) as [[| | |b]|] eqn:Hk; try done. destruct (sr_requests s !! k) as [r|] eqn:Hr; [|done].
    destruct (decide _); [done|]. intros [= <-]. destruct raised; [eapply send_failed_ok; [done..|by right]|].
    pose proof (si_counts _ Hs k) as Hc. rewrite Hk in Hc. apply end_request_ok with (Draining b); try done.
    + destruct b; cbn in *; lia.
    + intros _. destruct b; cbn in *; lia.
  - destruct (sr_loop s); try done. intros [= <-]. destruct raised; by apply (rebuild_ok s).
  - intros [= <-]. apply (rebuild_ok s); try done. apply Hs.
Qed.

Lemma interrupt_request_ok k s s' : server_ok s -> interrupt k s = Some s' -> server_ok s'.
Proof.
  intros Hs. unfold interrupt. destruct (decide _); [|done]. destruct (sr_tasks s !! k) as [p|] eqn:Hk; [|done].
  assert (Hend : server_ok (end_request k Cancelled s)).
  { apply end_request_ok with p; try done. pose proof (si_counts _ Hs k) as Hc. rewrite Hk in Hc.
    destruct p as [| |[] m|[]]; cbn in *; lia. }
  destruct p; intros [= <-]; try done. apply (rebuild_ok s); try done. apply Hs.
Qed.

Lemma feature_step_ok op s s' : server_ok s -> feature_step limits op s = Some s' -> server_ok s'.
Proof.
  intros Hs. assert (Hw : forall svc, server_ok (with_service svc s)) by (intros svc; apply (rebuild_ok s); try done; apply Hs).
  destruct op; cbn [feature_step]; try (intros [= <-]; done).
  - intros [= <-]. by destruct (register_host_ingress _ _ _).
  - intros [= <-]. by destruct (advertise_inbound_producer _ _).
  - unfold emit_event. destruct (sr_loop s); try (by intros [= <-]); (destruct (sr_lock s); [done|]);
      (destruct (encode_message _ _); intros [= <-]; [|done]);
      (destruct write_fails; [done|]); by apply send_unsolicited_ok.
Qed.

Lemma step_ok e s s' : server_ok s -> step e s = Some s' -> server_ok s'.
Proof.
  intros Hs. destruct e as [line|k|k o|who raised|who raised| | |k| |op]; cbn [RpcService.step].
  - destruct (sr_loop s); try done. destruct (sv_stopping _); [done|]. intros [= <-]. unfold read_line.
    destruct line as [|b line]; [by apply set_loop_ok|].
    destruct (decode_message limits _) as [[r|n|r]|[]]; try done; try (by apply set_loop_ok); [by apply accept_ok|].
    apply set_loop_ok; [done|]. by intros m' [= <-].
  - destruct (sr_tasks s !! k) as [[]|] eqn:Hk; try done. destruct (sr_requests s !! k) eqn:Hr; [|done].
    destruct (decide _); [done|]. intros [= <-]. by eapply begin_ok.
  - destruct (sr_tasks s !! k) as [[]|] eqn:Hk; try done. destruct (sr_requests s !! k) eqn:Hr; [|done].
    destruct (decide _); [done|]. intros [= <-]. by eapply finish_ok.
  - by apply write_frame_ok.
  - by apply drained_ok.
  - destruct (sr_loop s); try done. destruct (sv_stopping _); [|done]. intros [= <-]. by apply set_loop_ok.
  - destruct (sr_loop s); try done. destruct (decide _); [done|]. intros [= <-]. by apply (rebuild_ok s).
  - by apply interrupt_request_ok.
  - destruct (sr_loop s); try done; (destruct (decide _); [|done]); intros [= <-]; by apply set_loop_ok.
  - by apply feature_step_ok.
Qed.

Lemma run_ok es s s' : server_ok s -> run es s = Some s' -> server_ok s'.
Proof.
  revert s; induction es as [|e es IH]; intros s Hs; [by intros [= <-]|]. cbn.
  destruct (step e s) as [s1|] eqn:E; [|done]. apply IH. by eapply step_ok.
Qed.

Lemma init_ok svc : server_ok (server_init svc).
Proof.
  split; try done; try (by intros ? ? H%elem_of_nil); try (by intros ? H%elem_of_nil).
  - by vm_compute.
  - intros k. change (0 <= 1 /\ 0 <= 2)%nat. lia.
Qed.

(** C11. One end per request, and answers to that request only.  However the
    handlers interleave, and whichever writes and drains fail, each request
    read has ended - its answer sent, its last send failed, or cancelled - or
    is still being handled: exactly one of these, exactly once.  Every frame
    written for a request carries its id.  A request is written at most one
    frame, plus one for each of its sends that failed, and never more than two;
    one that ended with its answer sent was written one at least, so exactly
    one when none of its sends failed; and only a failed send can end it
    unanswered without a cancellation. *)
Theorem service_answers_once svc es s (Hrun : run es (server_init svc) = Some s) :
  (sr_ended s).*1 ++ handled s ≡ₚ seq 0 (length (sr_requests s))
  /\ (forall k m, (Some k, m) ∈ sr_sent s ->
        exists r, sr_requests s !! k = Some r /\ message_id m = Some (rq_id r))
  /\ (forall k, times k (answered s) <= 1 + times k (sr_faults s) /\ times k (answered s) <= 2)%nat
  /\ (forall k how, (k, how) ∈ sr_ended s ->
        match how with
        | Sent => 1 <= times k (answered s)
        | SendFailed => 1 <= times k (sr_faults s)
        | Cancelled => True
        end)%nat.
Proof.
  pose proof (run_ok _ _ _ (init_ok svc) Hrun) as Hs. split; [apply Hs|]. split_and!.
  - intros k m H. destruct (si_sent _ Hs k m H) as (r & Hr & Hm & _). eauto.
  - intros k. pose proof (si_counts _ Hs k) as Hc. destruct (sr_tasks s !! k) as [[| |[] m|[]]|]; cbn in Hc; lia.
  - intros k [] H; [by apply (si_ended_sent _ Hs)|by apply (si_ended_failed _ Hs)|done].
Qed.

(** Lifecycle errors reveal nothing: every error answered to a config
    transition, to a host-ingress call or to an initialization with a
    configuration has one fixed text and no data, whatever the configuration,
    the payload, the exception of the handler or the point of failure. *)
Theorem lifecycle_errors_reveal_nothing svc es s k rp e r (Hrun : run es (server_init svc) = Some s)
    (Hsent : (Some k, MResponse rp) ∈ sr_sent s) (Hr : sr_requests s !! k = Some r)
    (Hs : secret_bearing r = true) (He : rp_error rp = Some e) :
  re_message e = lifecycle_text r /\ re_data e = FNull.
Proof.
  destruct (si_sent _ (run_ok _ _ _ (init_ok svc) Hrun) k _ Hsent) as (r' & Hr' & _ & Hm).
  rewrite Hr in Hr'. injection Hr' as <-. by eapply Hm.
Qed.

(** ** Steps that start no feature code *)

(** The flags, the requests, the running calls and their scopes stay. *)
Record quiet (s s' : Server) : Prop := {
  qt_restart : sv_restart_required (sr_service s') = sv_restart_required (sr_service s);
  qt_config : sv_host_config (sr_service s') = sv_host_config (sr_service s);
  qt_requests : sr_requests s' = sr_requests s;
  qt_scopes : sr_scopes s' = sr_scopes s;
  qt_running : forall k c, sr_tasks s' !! k = Some (Running c) <-> sr_tasks s !! k = Some (Running c);
  qt_tasks : forall k, is_Some (sr_tasks s' !! k) -> is_Some (sr_tasks s !! k)
}.

Lemma quiet_same s s' : sr_service s' = sr_service s -> sr_requests s' = sr_requests s -> sr_scopes s' = sr_scopes s ->
  sr_tasks s' = sr_tasks s -> quiet s s'.
Proof. intros E1 E2 E3 E4. split; by rewrite ?E1, ?E2, ?E3, ?E4. Qed.

Definition not_running (p : phase) : Prop := match p with Running _ => False | _ => True end.

Lemma quiet_phase s s' k p p' : sr_service s' = sr_service s -> sr_requests s' = sr_requests s ->
  sr_scopes s' = sr_scopes s -> sr_tasks s !! k = Some p -> sr_tasks s' = <[k := p']> (sr_tasks s) ->
  not_running p -> not_running p' -> quiet s s'.
Proof.
  intros E1 E2 E3 Hk E4 Hp Hp'. split; rewrite ?E1, ?E2, ?E3, ?E4; try done.
  - intros j c. destruct (decide (k = j)) as [<-|Hne]; [|by rewrite lookup_insert_ne].
    rewrite lookup_insert_eq, Hk. split; intros [= ->]; done.
  - intros j. destruct (decide (k = j)) as [<-|Hne]; [by rewrite Hk|by rewrite lookup_insert_ne].
Qed.

Lemma quiet_end s k p how : sr_tasks s !! k = Some p -> not_running p -> quiet s (end_request k how s).
Proof.
  intros Hk Hp. split; try done; cbn.
  - intros j c. destruct (decide (k = j)) as [<-|Hne]; [|by rewrite lookup_delete_ne].
    rewrite lookup_delete_eq, Hk. split; [done|]. by intros [= ->].
  - intros j. destruct (decide (k = j)) as [<-|Hne]; [by rewrite lookup_delete_eq|by rewrite lookup_delete_ne].
Qed.

Lemma quiet_send_failed s k r b p text : sr_tasks s !! k = Some p -> not_running p -> quiet s (send_failed k r b text s).
Proof.
  intros Hk Hp. unfold send_failed. destruct b; [by eapply quiet_phase|].
  destruct (quiet_end (fault k (set_lock None s)) k p SendFailed Hk Hp). by split.
Qed.

Lemma quiet_feature op s s' : feature_step limits op s = Some s' -> quiet s s'.
Proof.
  destruct op; cbn [feature_step]; try (intros [= <-]; by split).
  - intros [= <-]. destruct (register_host_ingress _ _ _) eqn:E; [|by split]. unfold register_host_ingress in E. inv_ok.
    destruct h; by inv_ok.
  - intros [= <-]. destruct (advertise_inbound_producer _ _) eqn:E; [|by split]. unfold advertise_inbound_producer in E.
    destruct b; inv_ok. by split.
  - unfold emit_event. destruct (sr_loop s); try (by intros [= <-]; split); (destruct (sr_lock s); [done|]);
      (destruct (encode_message _ _); intros [= <-]; [|by split]); destruct write_fails; by split.
Qed.

Lemma quiet_step e s s' : step e s = Some s' ->
  match e with Read _ | Start _ | Finish _ _ => True | _ => quiet s s' end.
Proof.
  destruct e as [line|k|k o|who raised|who raised| | |k| |op]; cbn [RpcService.step]; try done.
  - unfold write_frame. destruct (sr_lock s); [done|]. destruct who as [k| |]; [..|done].
    + destruct (sr_tasks s !! k) as [[| |b m|]|] eqn:Hk; try done. destruct (sr_requests s !! k); [|done].
      destruct (decide _); [done|]. intros [= <-]. destruct raised; [by eapply quiet_send_failed|by eapply quiet_phase].
    + destruct (sr_loop s); try done. intros [= <-]. destruct raised; by apply quiet_same.
  - unfold drained. destruct (decide _); [|done]. destruct who as [k| |].
    + destruct (sr_tasks s !! k) as [[| | |b]|] eqn:Hk; try done. destruct (sr_requests s !! k); [|done].
      destruct (decide _); [done|]. intros [= <-]. destruct raised; [by eapply quiet_send_failed|by eapply quiet_end].
    + destruct (sr_loop s); try done. intros [= <-]. by apply quiet_same.
    + intros [= <-]. by apply quiet_same.
  - destruct (sr_loop s); try done. destruct (sv_stopping _); [|done]. intros [= <-]. by apply quiet_same.
  - destruct (sr_loop s); try done. destruct (decide _); [done|]. intros [= <-]. by apply quiet_same.
  - unfold interrupt. destruct (decide _); [|done]. destruct (sr_tasks s !! k) as [[]|] eqn:Hk; try done;
      intros [= <-]; [by eapply quiet_end|by apply quiet_same|by eapply quiet_end..].
  - destruct (sr_loop s); try done; (destruct (decide _); [|done]); intros [= <-]; by apply quiet_same.
  - by apply quiet_feature.
Qed.

(** ** Leaving *)

(** The loop has stopped reading. *)
Definition leaving (s : Server) : Prop := match sr_loop s with Grace | Gathers | Left => True | _ => False end.

Definition phase_weight (p : phase) : nat :=
  match p with
  | Queued => 6 | Running _ => 5 | Sending true _ => 4 | Draining true => 3 | Sending false _ => 2 | Draining false => 1
  end.

Definition loop_weight (s : Server) : nat :=
  match sr_loop s with Grace => base.size (sr_tasks s) + 2 | Gathers => 1 | _ => 0 end.

(** The steps that are left. *)
Definition pending (s : Server) : nat :=
  sum_list ((phase_weight ∘ snd) <$> map_to_list (sr_tasks s)) + base.size (sr_interrupts s) + loop_weight s
  + (if decide (sr_lock s = Some ByFeature) then 1 else 0).

Definition is_feature (e : event) : bool := match e with Feature _ => true | _ => false end.

Lemma weight_delete (t : gmap nat phase) k p : t !! k = Some p ->
  sum_list ((phase_weight ∘ snd) <$> map_to_list t)
  = (phase_weight p + sum_list ((phase_weight ∘ snd) <$> map_to_list (delete k t)))%nat.
Proof. intros Hk. by rewrite <- (map_to_list_delete t k p Hk). Qed.

Lemma weight_insert (t : gmap nat phase) k p p' : t !! k = Some p ->
  (sum_list ((phase_weight ∘ snd) <$> map_to_list (<[k := p']> t)) + phase_weight p
   = sum_list ((phase_weight ∘ snd) <$> map_to_list t) + phase_weight p')%nat.
Proof.
  intros Hk. rewrite (weight_delete t k p Hk), (weight_delete (<[k := p']> t) k p') by apply lookup_insert_eq.
  rewrite delete_insert_eq. lia.
Qed.

Lemma size_insert (t : gmap nat phase) k p p' : t !! k = Some p -> base.size (<[k := p']> t) = base.size t.
Proof. intros Hk. apply map_size_insert_Some. by exists p. Qed.

Lemma size_delete (t : gmap nat phase) k p : t !! k = Some p -> base.size t = S (base.size (delete k t)).
Proof. intros Hk. rewrite map_size_delete_Some by by exists p. assert (base.size t <> 0)%nat; [|lia].
  intros E%map_size_empty_inv. by rewrite E in Hk. Qed.

Lemma size_minus (x : gset nat) k : (base.size (x ∖ {[k]}) <= base.size x)%nat.
Proof. apply subseteq_size. set_solver. Qed.

(** A request moves on. *)
Lemma pending_phase s s' k p p' : leaving s -> sr_tasks s !! k = Some p ->
  sr_tasks s' = <[k := p']> (sr_tasks s) -> (phase_weight p' < phase_weight p)%nat -> sr_loop s' = sr_loop s -> sr_interrupts s' = sr_interrupts s ->
  (sr_lock s' = Some ByFeature -> sr_lock s = Some ByFeature) -> leaving s' /\ (pending s' < pending s)%nat.
Proof.
  intros Hl Hk E1 Hw E2 E3 E4. split; [unfold leaving; by rewrite E2|]. unfold pending, loop_weight.
  rewrite E1, E2, E3, (size_insert _ _ _ _ Hk). pose proof (weight_insert _ _ _ p' Hk).
  destruct (decide (sr_lock s' = _)) as [El|_]; [rewrite decide_True by auto|]; lia.
Qed.

Lemma pending_end s s' k p : leaving s -> sr_tasks s !! k = Some p ->
  sr_tasks s' = delete k (sr_tasks s) -> sr_loop s' = sr_loop s -> sr_interrupts s' = sr_interrupts s ∖ {[k]} ->
  (sr_lock s' = Some ByFeature -> sr_lock s = Some ByFeature) -> leaving s' /\ (pending s' < pending s)%nat.
Proof.
  intros Hl Hk E1 E2 E3 E4. split; [unfold leaving; by rewrite E2|]. unfold pending, loop_weight.
  rewrite E1, E2, E3. rewrite (weight_delete _ _ _ Hk), (size_delete _ _ _ Hk).
  pose proof (size_minus (sr_interrupts s) k). assert (1 <= phase_weight p)%nat by (destruct p as [| |[]|[]]; cbn; lia).
  destruct (decide (sr_lock s' = _)) as [El|_]; [rewrite decide_True by auto|]; destruct (sr_loop s); lia.
Qed.

Lemma leaving_awaits s k : leaving s -> awaits k (sr_loop s) = false.
Proof. unfold leaving. by destruct (sr_loop s). Qed.

Lemma end_request_drains s k how p : leaving s -> sr_tasks s !! k = Some p ->
  leaving (end_request k how s) /\ (pending (end_request k how s) < pending s)%nat.
Proof.
  intros Hl Hk. eapply pending_end; [done|exact Hk|done|by cbn; rewrite leaving_awaits|done|]. cbn. by destruct (decide _).
Qed.

Lemma send_failed_drains s k r b p text : leaving s -> sr_tasks s !! k = Some p ->
  ((exists m, p = Sending b m) \/ p = Draining b) ->
  leaving (send_failed k r b text s) /\ (pending (send_failed k r b text s) < pending s)%nat.
Proof.
  intros Hl Hk Hp. unfold send_failed. destruct b.
  - eapply pending_phase; [done|exact Hk|done| |done..]. destruct Hp as [[m ->]| ->]; cbn; lia.
  - eapply (pending_end _ _ k); [done|exact Hk|done| |done|].
    + cbn. by rewrite leaving_awaits.
    + cbn. by destruct (decide _).
Qed.

Lemma step_drains e s s' : leaving s -> is_feature e = false -> step e s = Some s' ->
  leaving s' /\ (pending s' < pending s)%nat.
Proof.
  intros Hl He. destruct e as [line|k|k o|who raised|who raised| | |k| |op]; cbn [RpcService.step]; try done.
  - unfold leaving in Hl. by destruct (sr_loop s).
  - destruct (sr_tasks s !! k) as [[]|] eqn:Hk; try done. destruct (sr_requests s !! k) as [r|]; [|done].
    destruct (decide _); [done|]. intros [= <-]. unfold RpcService.begin.
    destruct (dispatch (sr_service s) r) as [svc [m|c]].
    + eapply pending_phase; [done|exact Hk|done| |done..]. destruct (in_try limits m); cbn; lia.
    + eapply (pending_phase _ _ k _ (Running c)); [done|exact Hk|by destruct c|cbn; lia|..]; by destruct c.
  - destruct (sr_tasks s !! k) as [[]|] eqn:Hk; try done. destruct (sr_requests s !! k) as [r|]; [|done].
    destruct (decide _); [done|]. intros [= <-]. unfold finish. destruct (resume limits (sr_service s) c o) as [svc m].
    destruct (answer limits _ r o m) as [[b msg]|].
    + eapply (pending_phase _ _ k); [done|exact Hk|done| |done..]. destruct b; cbn; lia.
    + eapply (pending_end _ _ k); [done|exact Hk|done| |done|].
      * cbn. by rewrite leaving_awaits.
      * cbn. by destruct (decide _).
  - unfold write_frame. destruct (sr_lock s); [done|]. destruct who as [k| |]; [..|done].
    + destruct (sr_tasks s !! k) as [[| |b m|]|] eqn:Hk; try done. destruct (sr_requests s !! k); [|done].
      destruct (decide _); [done|]. intros [= <-].
      destruct raised; [eapply send_failed_drains; [done..|eauto]|].
      eapply (pending_phase _ _ k); [done|exact Hk|done| |done..]. destruct b; cbn; lia.
    + unfold leaving in Hl. by destruct (sr_loop s).
  - unfold drained. destruct (decide _) as [Hlk|]; [|done]. destruct who as [k| |].
    + destruct (sr_tasks s !! k) as [[| | |b]|] eqn:Hk; try done. destruct (sr_requests s !! k); [|done].
      destruct (decide _); [done|]. intros [= <-].
      destruct raised; [eapply send_failed_drains; [done..|eauto]|by eapply end_request_drains].
    + unfold leaving in Hl. by destruct (sr_loop s).
    + intros [= <-]. split; [done|]. unfold pending, loop_weight.
      rewrite (decide_True _ _ Hlk), decide_False by done. cbn. lia.
  - unfold leaving in Hl. by destruct (sr_loop s).
  - destruct (sr_loop s) eqn:El; try done. destruct (decide _); [done|]. intros [= <-]. split; [done|].
    unfold pending, loop_weight. cbn. rewrite El, size_dom. lia.
  - unfold interrupt. destruct (decide _) as [Hi|]; [|done].
    destruct (sr_tasks s !! k) as [p|] eqn:Hk; [|done].
    assert (Hend : leaving (end_request k Cancelled s) /\ (pending (end_request k Cancelled s) < pending s)%nat)
      by (by eapply end_request_drains).
    destruct p; intros [= <-]; try done. split; [done|]. unfold pending, loop_weight. cbn.
    rewrite (size_difference (sr_interrupts s) {[k]}), size_singleton by set_solver.
    assert (base.size (sr_interrupts s) <> 0)%nat; [|lia]. apply size_non_empty_iff. set_solver.
  - destruct (sr_loop s) eqn:El; try done; (destruct (decide _); [|done]); intros [= <-]; (split; [done|]);
      unfold pending, loop_weight; cbn; rewrite El; lia.
Qed.

Lemma run_drains es s s' :
  leaving s -> forallb (fun e => negb (is_feature e)) es = true -> run es s = Some s' ->
  (length es + pending s' <= pending s)%nat.
Proof.
  revert s; induction es as [|e es IH]; intros s Hl Hf; [intros [= <-]; cbn; lia|].
  cbn in *. apply andb_true_iff in Hf as [He Hf]. apply negb_true_iff in He.
  destruct (step e s) as [s1|] eqn:E; [|done]. cbn. apply step_drains in E as (H1 & H2); [|done..].
  intros H. apply IH in H; [lia|done..].
Qed.

(** What the loop does by itself, with handlers that let their cancellation
    through. *)
Definition is_leaving (e : event) : bool :=
  match e with Timeout | Leave | Interrupt _ | Finish _ CancelledInside => true | _ => false end.

(** Every task left has been cancelled and has not seen it. *)
Definition gathered (s : Server) : Prop :=
  sr_loop s = Gathers
  /\ forall k p, sr_tasks s !! k = Some p -> k ∈ sr_interrupts s /\ k ∈ sr_cancelling s /\ is_Some (sr_requests s !! k).

Lemma gathered_end k s s' : gathered s -> sr_loop s' = Gathers -> sr_requests s' = sr_requests s ->
  sr_tasks s' = delete k (sr_tasks s) -> sr_interrupts s ∖ {[k]} ⊆ sr_interrupts s' ->
  sr_cancelling s' = sr_cancelling s -> gathered s'.
Proof.
  intros [_ H] E1 E2 E3 E4 E5. split; [done|]. intros j p. rewrite E2, E3, E5. intros [Hne Hj]%lookup_delete_Some.
  destruct (H j p Hj) as (? & ? & ?). split_and!; [set_solver|done..].
Qed.

Lemma end_one k p s : gathered s -> sr_tasks s !! k = Some p ->
  exists es s', forallb is_leaving es = true /\ run es s = Some s' /\ gathered s'
    /\ sr_tasks s' = delete k (sr_tasks s) /\ sr_sent s' = sr_sent s.
Proof.
  intros Hg Hk. destruct (proj2 Hg k p Hk) as (Hi & Hc & [r Hr]). pose proof (proj1 Hg) as Hl.
  assert (Hend : forall s0, sr_loop s0 = sr_loop s -> sr_requests s0 = sr_requests s -> sr_tasks s0 = sr_tasks s ->
    sr_interrupts s ∖ {[k]} ⊆ sr_interrupts s0 -> sr_cancelling s0 = sr_cancelling s -> gathered (end_request k Cancelled s0)).
  { intros s0 E1 E2 E3 E4 E5. apply (gathered_end k s); cbn; rewrite ?E1, ?E2, ?E3, ?Hl; try done. set_solver. }
  assert (Hint : interrupt k s = match p with
    | Running _ => Some (MkServer (sr_service s) (sr_requests s) (sr_tasks s) (sr_loop s) (sr_lock s) (sr_sent s)
        (sr_ended s) (sr_faults s) (sr_interrupts s ∖ {[k]}) (sr_cancelling s) (sr_scopes s))
    | _ => Some (end_request k Cancelled s) end).
  { unfold interrupt. rewrite decide_True, Hk by done. done. }
  destruct p as [|c|b m|b]; try (exists [Interrupt k], (end_request k Cancelled s);
    cbn [RpcService.run RpcService.step mbind option_bind]; rewrite Hint; split_and!; try done; apply Hend; set_solver).
  set (s1 := MkServer _ _ _ _ _ _ _ _ _ _ _) in Hint.
  set (s2 := set_scopes (invalidate k (sr_scopes s1)) (with_service (sr_service s1) s1)).
  exists [Interrupt k; Finish k CancelledInside], (end_request k Cancelled s2).
  split_and!; [done| |by apply Hend|done|done]. cbn [RpcService.run RpcService.step mbind option_bind].
  rewrite Hint. cbn [mbind option_bind].
  change (sr_tasks s1) with (sr_tasks s). change (sr_requests s1) with (sr_requests s).
  rewrite Hk, Hr, decide_False by (cbn; set_solver). cbn [mbind option_bind]. unfold finish, resume.
  change (bool_decide _) with (bool_decide (k ∈ sr_cancelling s)). rewrite bool_decide_true by done.
  cbn [answer negb]. by rewrite andb_false_r.
Qed.

Lemma run_app es es' s s' s'' : run es s = Some s' -> run es' s' = Some s'' -> run (es ++ es') s = Some s''.
Proof.
  revert s; induction es as [|e es IH]; intros s; [by intros [= ->]|]. cbn.
  destruct (step e s); [|done]. cbn. apply IH.
Qed.

Lemma end_all n s : gathered s -> base.size (sr_tasks s) = n ->
  exists es s', forallb is_leaving es = true /\ run es s = Some s' /\ gathered s' /\ sr_tasks s' = ∅ /\ sr_sent s' = sr_sent s.
Proof.
  revert s; induction n as [|n IH]; intros s Hg Hn.
  { exists [], s. split_and!; try done. by apply map_size_empty_inv. }
  destruct (map_choose (sr_tasks s)) as (k & p & Hk); [intros E; by rewrite E, map_size_empty in Hn|].
  destruct (end_one k p s Hg Hk) as (es & s1 & H1 & H2 & H3 & H4 & H5).
  destruct (IH s1 H3) as (es' & s2 & J1 & J2 & J3 & J4 & J5).
  { rewrite H4. rewrite (size_delete _ _ _ Hk) in Hn. lia. }
  exists (es ++ es'), s2. split_and!; [by rewrite forallb_app, H1|by eapply run_app|done|done|congruence].
Qed.

(** C30. [serve] returns.  Once its loop has stopped reading, only finitely
    many steps of the service remain, whatever the handlers answer and the
    writer does: at most seven per request still handled, one per cancellation
    still under way and three more (calls that feature code makes to its
    service not counted).  And the loop leaves by itself: after the grace
    period it cancels every task that is left, whether it waits in a handler,
    in a drain or behind the write lock, and when the handlers let their
    cancellation through, [serve] returns with no task left, without a write
    or a drain having to complete. *)
Theorem service_drains svc es s (Hrun : run es (server_init svc) = Some s) :
  (leaving s -> forall more s', forallb (fun e => negb (is_feature e)) more = true -> run more s = Some s' ->
     (length more <= 7 * base.size (sr_tasks s) + base.size (sr_interrupts s) + 3)%nat)
  /\ (sr_loop s = Grace -> exists more s', forallb is_leaving more = true /\ run more s = Some s'
        /\ sr_loop s' = Left /\ sr_tasks s' = ∅ /\ sr_sent s' = sr_sent s).
Proof.
  pose proof (run_ok _ _ _ (init_ok svc) Hrun) as Hok. split.
  - intros Hl more s' Hf H. apply run_drains in H; [|done..].
    assert (Hw : (sum_list ((phase_weight ∘ snd) <$> map_to_list (sr_tasks s)) <= 6 * base.size (sr_tasks s))%nat).
    { rewrite <- length_map_to_list. induction (map_to_list (sr_tasks s)) as [|[k p] l IH]; [done|].
      cbn in *. assert (phase_weight p <= 6)%nat by (destruct p as [| |[]|[]]; cbn; lia). lia. }
    enough (pending s <= 7 * base.size (sr_tasks s) + base.size (sr_interrupts s) + 3)%nat by lia.
    unfold pending, loop_weight. destruct (sr_loop s), (decide _); lia.
  - intros Hl. assert (Hleave : forall s0, sr_loop s0 = Grace \/ sr_loop s0 = Gathers -> sr_tasks s0 = ∅ ->
      step Leave s0 = Some (set_loop Left s0)).
    { intros s0 [E|E] Ht; cbn; rewrite E; by rewrite decide_True. }
    destruct (decide (sr_tasks s = ∅)) as [Ht|Ht].
    { exists [Leave], (set_loop Left s). split_and!; try done. cbn [RpcService.run]. by rewrite Hleave by auto. }
    assert (Hg : gathered (cancel_tasks s)).
    { split; [done|]. cbn. intros k p Hk. assert (k ∈ dom (sr_tasks s)) by (apply elem_of_dom; eauto).
      split_and!; [done|set_solver|]. apply lookup_lt_is_Some. eapply accounted_lookup; [apply Hok|done]. }
    destruct (end_all _ _ Hg eq_refl) as (es' & s1 & H1 & H2 & H3 & H4 & H5).
    exists (Timeout :: es' ++ [Leave]), (set_loop Left s1). split_and!; try done.
    + cbn. by rewrite forallb_app, H1.
    + cbn [RpcService.run RpcService.step]. rewrite Hl, decide_False by done. cbn [mbind option_bind].
      eapply run_app; [exact H2|]. cbn [RpcService.run]. rewrite Hleave; [done|right; apply H3|done].
Qed.

(** ** The restart fence *)

Definition fenced (s : Server) : Prop := sv_restart_required (sr_service s) = true.

(** Calls to feature code other than [configure]. *)
Definition feature_work (c : feature_call) : Prop := match c with CallConfigure _ => False | _ => True end.

Lemma initialized_fields svc svc' m : initialized svc = (svc', m) ->
  sv_restart_required svc' = sv_restart_required svc /\ sv_stopping svc' = sv_stopping svc
  /\ sv_host_config svc' = sv_host_config svc.
Proof. unfold initialized. destruct (capabilities svc); by intros [= <- _]. Qed.

(** What dispatch does to the flags and the configuration. *)
Lemma dispatch_fields svc r svc' b : dispatch svc r = (svc', b) ->
  sv_restart_required svc' = sv_restart_required svc
  /\ (sv_host_config svc' = sv_host_config svc
      \/ method_is INITIALIZE r = true /\ dict_get (u "config") (rq_params r) = FMap (sv_host_config svc')).
Proof.
  unfold RpcService.dispatch.
  destruct (method_is INITIALIZE r) eqn:Hi.
  { unfold on_initialize. destruct (negb _); [intros [= <- _]; auto|].
    destruct (dict_get (u "config") (rq_params r)) eqn:Hc;
      try (destruct (initialized svc) as [s1 m] eqn:E; intros [= <- _]; apply initialized_fields in E; tauto). }
  repeat case_match; intros [= <- _]; auto.
Qed.

Lemma dispatch_fenced svc r svc' c :
  sv_restart_required svc = true -> dispatch svc r = (svc', Waits c) -> ~ feature_work c.
Proof.
  intros Hr. unfold RpcService.dispatch.
  destruct (method_is INITIALIZE r).
  { unfold on_initialize. repeat case_match; intros Heq; inversion Heq; subst; cbn; tauto. }
  unfold begin_transition, begin_tool_call, begin_host_ingress, waits. rewrite Hr, orb_true_r.
  repeat case_match; by intros [=].
Qed.

Lemma resume_restart svc c o svc' m :
  resume limits svc c o = (svc', m) -> sv_restart_required svc = true -> sv_restart_required svc' = true.
Proof.
  unfold resume. intros H Hr.
  destruct o, c; try (by injection H as <- _); try (by apply initialized_fields in H as [-> _]);
    repeat case_match; by injection H as <- _.
Qed.

(** The phases [begin] and [finish] leave. *)
Lemma begin_tasks k r s : exists p, sr_tasks (begin k r s) = <[k := p]> (sr_tasks s)
  /\ sr_service (begin k r s) = (dispatch (sr_service s) r).1 /\ sr_requests (begin k r s) = sr_requests s
  /\ forall c, p = Running c -> (dispatch (sr_service s) r).2 = Waits c.
Proof.
  unfold RpcService.begin. destruct (dispatch (sr_service s) r) as [svc [m|c]].
  - by eexists (Sending _ _).
  - exists (Running c). split_and!; [by destruct c..|by intros ? [= <-]].
Qed.

Lemma finish_state k r c o s :
  let s' := finish limits k r c o s in
  (sr_tasks s' = delete k (sr_tasks s) \/ exists b m, sr_tasks s' = <[k := Sending b m]> (sr_tasks s))
  /\ sr_service s' = (resume limits (sr_service s) c o).1 /\ sr_requests s' = sr_requests s
  /\ sr_scopes s' = invalidate k (sr_scopes s).
Proof.
  cbv zeta. unfold finish. destruct (resume limits (sr_service s) c o) as [svc m].
  destruct (answer limits _ r o m) as [[b msg]|]; split_and!; try done; [right; by exists b, msg|by left].
Qed.

Lemma finish_running k r c o s k' c' : sr_tasks (finish limits k r c o s) !! k' = Some (Running c') ->
  k' <> k /\ sr_tasks s !! k' = Some (Running c').
Proof.
  destruct (finish_state k r c o s) as [[->|(b & m & ->)] _].
  - by intros [? ?]%lookup_delete_Some.
  - by intros [[_ [=]]|[? ?]]%lookup_insert_Some.
Qed.

Lemma begin_fenced k r s : fenced s ->
  fenced (begin k r s)
  /\ forall k' c, sr_tasks (begin k r s) !! k' = Some (Running c) ->
      sr_tasks s !! k' = Some (Running c) \/ ~ feature_work c.
Proof.
  intros Hf. destruct (begin_tasks k r s) as (p & Ht & Hsvc & _ & Hp).
  destruct (dispatch (sr_service s) r) as [svc b] eqn:E. cbn in Hsvc, Hp. unfold fenced in *. rewrite Hsvc. split.
  - by apply dispatch_fields in E as [-> _].
  - intros k' c. rewrite Ht. intros [[-> ->]|[_ H]]%lookup_insert_Some; [right|by left].
    rewrite (Hp c eq_refl) in E. by eapply dispatch_fenced.
Qed.

Lemma step_fenced e s s' : fenced s -> step e s = Some s' ->
  fenced s' /\ forall k c, sr_tasks s' !! k = Some (Running c) -> sr_tasks s !! k = Some (Running c) \/ ~ feature_work c.
Proof.
  intros Hf He. pose proof (quiet_step _ _ _ He) as Hq.
  assert (Hquiet : quiet s s' -> fenced s' /\ forall k c, sr_tasks s' !! k = Some (Running c) ->
    sr_tasks s !! k = Some (Running c) \/ ~ feature_work c).
  { intros []. split; [by unfold fenced; rewrite qt_restart0|]. intros k c Hk. left. by apply qt_running0. }
  destruct e as [line|k|k o|who raised|who raised| | |k| |op]; try (by apply Hquiet); clear Hq; cbn [RpcService.step] in He.
  - destruct (sr_loop s); try done. destruct (sv_stopping _); [done|]. injection He as <-. unfold read_line.
    destruct line as [|b line]; [by auto|].
    destruct (decode_message limits _) as [[r|n|r]|[]]; try (by auto). unfold accept_request.
    match goal with |- fenced (if _ then begin ?k _ (set_loop _ ?s1) else _) /\ _ =>
      assert (Hs1 : fenced s1) by done;
      assert (Hold : forall k' c, sr_tasks s1 !! k' = Some (Running c) -> sr_tasks s !! k' = Some (Running c)) end.
    { cbn. intros k' c H1. apply lookup_insert_Some in H1 as [[_ [=]]|[_ H1]]. done. }
    destruct (is_inline r); [|split; [done|intros; left; by apply Hold]].
    match goal with |- context [begin ?k r ?s2] => destruct (begin_fenced k r s2 Hs1) as [H1 H2] end. split; [done|].
    intros k' c H3. apply H2 in H3 as [H3|H3]; [left; by apply Hold|by right].
  - destruct (sr_tasks s !! k) as [[]|] eqn:Hk; try done. destruct (sr_requests s !! k) eqn:Hr; [|done].
    destruct (decide _); [done|]. injection He as <-. by apply begin_fenced.
  - destruct (sr_tasks s !! k) as [[]|] eqn:Hk; try done. destruct (sr_requests s !! k) as [r|] eqn:Hr; [|done].
    destruct (decide _); [done|]. injection He as <-. split.
    + unfold fenced. destruct (finish_state k r c o s) as (_ & -> & _).
      destruct (resume limits (sr_service s) c o) as [svc m] eqn:E. by apply resume_restart in E.
    + intros k' c' [_ H]%finish_running. by left.
Qed.

(** C16. The restart fence: once a config transition has retired the service's
    resources, the flag stays up and no tool, host-ingress or transition
    handler is started any more - only calls already running go on. *)
Theorem restart_fence es s s' (Hf : fenced s) (Hrun : run es s = Some s') :
  fenced s' /\ forall k c, sr_tasks s' !! k = Some (Running c) -> feature_work c -> sr_tasks s !! k = Some (Running c).
Proof.
  revert s Hf Hrun; induction es as [|e es IH]; intros s Hf Hrun; [injection Hrun as <-; auto|].
  cbn in Hrun. destruct (step e s) as [s1|] eqn:E; [|done]. apply step_fenced in E as [H1 H2]; [|done].
  destruct (IH s1 H1 Hrun) as [H3 H4]. split; [done|]. intros k c Hk Hc.
  destruct (H2 k c (H4 k c Hk Hc)); [done|contradiction].
Qed.

(** ** Which request a running call serves *)

Definition call_from (r : JsonRpcRequest) (c : feature_call) : Prop :=
  match c with
  | CallConfigure config => method_is INITIALIZE r = true /\ dict_get (u "config") (rq_params r) = FMap config
  | CallTransition config => method_is CONFIG_TRANSITION r = true /\ dict_get (u "config") (rq_params r) = FMap config
  | CallTool _ _ _ => method_is TOOLS_CALL r = true
  | CallIngress _ payload => method_is HOST_INGRESS r = true /\ dict_get (u "payload") (rq_params r) = payload
  end.

Lemma begin_transition_Ok params svc c : begin_transition params svc = Ok c ->
  exists config, c = CallTransition config /\ dict_get (u "config") params = FMap config.
Proof. unfold begin_transition. intros H. inv_ok. repeat case_match; try done. injection H as <-. eauto. Qed.

Lemma begin_tool_call_Ok params svc c : begin_tool_call fromisoformat limits params svc = Ok c ->
  exists f a x, c = CallTool f a x.
Proof.
  unfold begin_tool_call. intros H. inv_ok.
  destruct (dict_get (u "name") params) as [| | | |[|b name]| |]; try done. inv_ok.
  destruct (sv_handlers svc !! _); [|done]. injection H as <-. eauto.
Qed.

Lemma begin_host_ingress_Ok params svc c : begin_host_ingress limits params svc = Ok c ->
  exists f, c = CallIngress f (dict_get (u "payload") params).
Proof.
  unfold begin_host_ingress. intros H. inv_ok. destruct (assoc_get _ _); [|done].
  destruct (object_of _) as [h v]. inv_ok. eauto.
Qed.

Lemma waits_Waits m c : waits m = Waits c <-> m = Ok c.
Proof. destruct m; cbn; split; congruence. Qed.

Lemma dispatch_call svc r svc' c : dispatch svc r = (svc', Waits c) -> call_from r c.
Proof.
  unfold RpcService.dispatch.
  destruct (method_is INITIALIZE r) eqn:E1.
  { unfold on_initialize. destruct (negb _); [by intros [=]|].
    destruct (dict_get (u "config") (rq_params r)) eqn:Hc; try (by destruct (initialized svc); intros [=]).
    by intros [= _ <-]. }
  destruct (method_is CONFIG_TRANSITION r) eqn:E2.
  { intros [= _ H]. apply waits_Waits, begin_transition_Ok in H as (config & -> & H). done. }
  destruct (method_is HEALTH r); [by intros [=]|]. destruct (method_is TOOLS_LIST r); [by intros [=]|].
  destruct (method_is TOOLS_CALL r) eqn:E3.
  { intros [= _ H]. by apply waits_Waits, begin_tool_call_Ok in H as (f & a & x & ->). }
  destruct (method_is HOST_INGRESS r) eqn:E4.
  { intros [= _ H]. by apply waits_Waits, begin_host_ingress_Ok in H as (f & ->). }
  destruct (method_is SHUTDOWN r); by intros [=].
Qed.

(** ** Running calls and their scopes *)

(** A running call serves its request, and an active scope belongs to a tool
    call that runs with that context. *)
Definition calls_ok (s : Server) : Prop :=
  (forall k c, sr_tasks s !! k = Some (Running c) -> exists r, sr_requests s !! k = Some r /\ call_from r c)
  /\ (forall k p, sr_tasks s !! k = Some p -> (k < length (sr_requests s))%nat)
  /\ (forall k x, sr_scopes s !! k = Some x -> (k < length (sr_requests s))%nat)
  /\ (forall k x, sr_scopes s !! k = Some (x, true) ->
        exists f a, sr_tasks s !! k = Some (Running (CallTool f a x))).

Lemma begin_calls k r s :
  calls_ok s -> sr_requests s !! k = Some r -> sr_tasks s !! k = Some Queued -> calls_ok (begin k r s).
Proof.
  intros (H1 & H2 & H3 & H4) Hr Hk. pose proof (H2 _ _ Hk) as Hlt. unfold RpcService.begin.
  assert (Hno : forall x, sr_scopes s !! k <> Some (x, true)).
  { intros x Hx. apply H4 in Hx as (f & a & Hx). congruence. }
  assert (Hphase : forall p : phase, (forall c, p = Running c -> call_from r c) ->
    (forall k' c', <[k := p]> (sr_tasks s) !! k' = Some (Running c') -> exists r', sr_requests s !! k' = Some r' /\ call_from r' c')
    /\ (forall k' p', <[k := p]> (sr_tasks s) !! k' = Some p' -> (k' < length (sr_requests s))%nat)).
  { intros p Hp. split; intros k' x [[<- E]|[_ H]]%lookup_insert_Some; eauto. }
  assert (Hact : forall (p : phase) k' x, k <> k' -> sr_scopes s !! k' = Some (x, true) ->
    exists f a, <[k := p]> (sr_tasks s) !! k' = Some (Running (CallTool f a x))).
  { intros p k' x Hne H. rewrite lookup_insert_ne by done. auto. }
  destruct (dispatch (sr_service s) r) as [svc [m|c]] eqn:E.
  - destruct (Hphase (Sending (in_try limits m) (response limits r m))) as [P1 P2]; [done|].
    split_and!; [exact P1|exact P2|exact H3|]. intros k' x H. destruct (decide (k = k')) as [<-|Hne]; [by apply Hno in H|].
    by apply Hact.
  - destruct (Hphase (Running c)) as [P1 P2]; [intros ? [= <-]; by eapply dispatch_call|].
    split_and!; [destruct c; exact P1|destruct c; exact P2|..].
    + intros k' x H. destruct c; try (by eapply H3). cbn in H.
      apply lookup_insert_Some in H as [[<- _]|[_ H]]; [done|by eapply H3].
    + intros k' x H. destruct (decide (k = k')) as [<-|Hne].
      * destruct c; try by apply Hno in H. cbn in H. rewrite lookup_insert_eq in H. injection H as <-.
        cbn. rewrite lookup_insert_eq. eauto.
      * destruct c; try (by apply Hact). cbn in H. rewrite lookup_insert_ne in H by done. by apply Hact.
Qed.

Lemma finish_calls k r c o s : calls_ok s -> is_Some (sr_tasks s !! k) -> calls_ok (finish limits k r c o s).
Proof.
  intros (H1 & H2 & H3 & H4) [q Hk]. pose proof (finish_state k r c o s) as (Ht & _ & Hr & Hsc).
  unfold calls_ok. rewrite Hr, Hsc. unfold invalidate. split_and!.
  - intros k' c' [_ H]%finish_running. auto.
  - intros k' p H. destruct Ht as [E|(b & m & E)]; rewrite E in H; [apply lookup_delete_Some in H as [_ H]; eauto|].
    apply lookup_insert_Some in H as [[<- _]|[_ H]]; by eauto.
  - intros k' x H. apply lookup_alter_Some in H as [(-> & y & Hy & _)|[_ H]]; eauto.
  - intros k' x H. apply lookup_alter_Some in H as [(-> & y & Hy & [=])|[Hne H]].
    destruct (H4 _ _ H) as (f & a & Hf). exists f, a. destruct Ht as [->|(b & m & ->)];
      [by rewrite lookup_delete_ne|by rewrite lookup_insert_ne].
Qed.

Lemma quiet_calls s s' : calls_ok s -> quiet s s' -> calls_ok s'.
Proof.
  intros (H1 & H2 & H3 & H4) []. unfold calls_ok. rewrite qt_requests0, qt_scopes0. split_and!; [|..|done|].
  - intros k c Hk. by apply H1, qt_running0.
  - intros k p Hk. destruct (qt_tasks0 k) as [q Hq]; [eauto|]. by eapply H2.
  - intros k x Hk. destruct (H4 k x Hk) as (f & a & H). exists f, a. by apply qt_running0.
Qed.

Lemma step_calls e s s' : calls_ok s -> step e s = Some s' -> calls_ok s'.
Proof.
  intros Hs He. pose proof (quiet_step _ _ _ He) as Hq.
  destruct e as [line|k|k o|who raised|who raised| | |k| |op]; try (by eapply quiet_calls); clear Hq; cbn [RpcService.step] in He.
  - destruct (sr_loop s); try done. destruct (sv_stopping _); [done|]. injection He as <-. unfold read_line.
    destruct line as [|b line]; [done|].
    destruct (decode_message limits _) as [[r|n|r]|[]]; try done. unfold accept_request.
    match goal with |- calls_ok (if _ then begin _ _ (set_loop _ ?s1) else _) => assert (Hs1 : calls_ok s1) end.
    { destruct Hs as (H1 & H2 & H3 & H4). split_and!; cbn.
      - intros k c H5. apply lookup_insert_Some in H5 as [[_ [=]]|[_ H5]].
        destruct (H1 k c H5) as (r' & Hr' & Hc). exists r'. split; [by apply lookup_app_l_Some|done].
      - intros k p H5. rewrite length_app. cbn. apply lookup_insert_Some in H5 as [[<- _]|[_ H5]]; [lia|].
        apply H2 in H5. lia.
      - intros k x H5. rewrite length_app. cbn. apply H3 in H5. lia.
      - intros k x H5. pose proof (H3 _ _ H5). rewrite lookup_insert_ne by lia. auto. }
    destruct (is_inline r); [|done]. apply begin_calls; [done| |apply lookup_insert_eq].
    cbn. by rewrite list_lookup_middle.
  - destruct (sr_tasks s !! k) as [[]|] eqn:Hk; try done. destruct (sr_requests s !! k) eqn:Hr; [|done].
    destruct (decide _); [done|]. injection He as <-. by apply begin_calls.
  - destruct (sr_tasks s !! k) as [[]|] eqn:Hk; try done. destruct (sr_requests s !! k) eqn:Hr; [|done].
    destruct (decide _); [done|]. injection He as <-. by apply finish_calls.
Qed.

Lemma run_calls es s s' : calls_ok s -> run es s = Some s' -> calls_ok s'.
Proof.
  revert s; induction es as [|e es IH]; intros s Hs; [by intros [= <-]|]. cbn.
  destruct (step e s) as [s1|] eqn:E; [|done]. apply IH. by eapply step_calls.
Qed.

Lemma init_calls svc : calls_ok (server_init svc).
Proof. split_and!; intros ? ? H; done. Qed.

(** An execution context is visible only during its own tool call: every
    copy of a call's scope reads [None] once the call has succeeded, failed or
    been cancelled. *)
Theorem context_revoked svc es s k x c (Hrun : run es (server_init svc) = Some s)
    (Hx : sr_scopes s !! k = Some x) (Hc : scope_get x = Some c) :
  exists f a, sr_tasks s !! k = Some (Running (CallTool f a (Some c))).
Proof.
  destruct (run_calls _ _ _ (init_calls svc) Hrun) as (_ & _ & _ & H). destruct x as [y []]; [|done].
  cbn in Hc. subst y. by apply H.
Qed.

Lemma resume_config svc c o : sv_host_config (resume limits svc c o).1 <> sv_host_config svc ->
  exists next, c = CallTransition next /\ o = ReturnedTransition (MkTransitionResult Applied)
    /\ exists caps, sv_config_transition_capabilities svc = Some caps /\ ct_supports_live_apply caps = true
    /\ sv_host_config (resume limits svc c o).1 = next.
Proof.
  assert (Hi : sv_host_config (initialized svc).1 = sv_host_config svc).
  { destruct (initialized svc) as [svc' m] eqn:E. cbn. by apply initialized_fields in E as (_ & _ & ?). }
  intros H. destruct c as [cfg|next|f a x|f p].
  - exfalso. apply H. destruct o; cbn; done.
  - destruct o as [v|[[]]|f|]; cbn in *; try done.
    destruct (sv_config_transition_capabilities svc) as [[[]]|]; cbn in *; try done.
    exists next. split_and!; [done..|]. eexists. split_and!; done.
  - by destruct o.
  - exfalso. apply H. destruct o as [[h v]| | |]; done.
Qed.

(** Custody of the configuration: a step that changes the service's
    configuration either begins an [initialize] request, whose configuration
    it stores, or ends a config transition whose hook returned [applied] - and
    then the service had advertised live application and stores the
    configuration of that very request. *)
Theorem host_config_custody svc es e s s' (Hrun : run es (server_init svc) = Some s) (He : step e s = Some s')
    (Hch : sv_host_config (sr_service s') <> sv_host_config (sr_service s)) :
  exists k r, sr_requests s' !! k = Some r
    /\ dict_get (u "config") (rq_params r) = FMap (sv_host_config (sr_service s'))
    /\ (method_is INITIALIZE r = true
        \/ method_is CONFIG_TRANSITION r = true
           /\ e = Finish k (ReturnedTransition (MkTransitionResult Applied))
           /\ exists caps, sv_config_transition_capabilities (sr_service s) = Some caps
                /\ ct_supports_live_apply caps = true).
Proof.
  pose proof (run_calls _ _ _ (init_calls svc) Hrun) as Hok. pose proof (quiet_step _ _ _ He) as Hq.
  assert (Hbegin : forall k r s0, sr_requests s0 !! k = Some r ->
            sv_host_config (sr_service (begin k r s0)) <> sv_host_config (sr_service s0) ->
            sr_requests (begin k r s0) !! k = Some r /\ method_is INITIALIZE r = true
            /\ dict_get (u "config") (rq_params r) = FMap (sv_host_config (sr_service (begin k r s0)))).
  { intros k r s0 Hk. destruct (begin_tasks k r s0) as (_ & _ & -> & -> & _).
    destruct (dispatch (sr_service s0) r) as [svc' b] eqn:E. cbn. intros Hne.
    apply dispatch_fields in E as [_ [E|[? ?]]]; done. }
  destruct e as [line|k|k o|who raised|who raised| | |k| |op]; try (by destruct Hq); clear Hq; cbn [RpcService.step] in He.
  - destruct (sr_loop s); try done. destruct (sv_stopping _); [done|]. injection He as <-. unfold read_line in *.
    destruct line as [|b line]; [done|].
    destruct (decode_message limits _) as [[r|n|r]|[]]; try done. unfold accept_request in *.
    destruct (is_inline r); [|done]. exists (length (sr_requests s)), r.
    edestruct Hbegin as (H1 & H2 & H3); [|exact Hch|split_and!; [exact H1|exact H3|by left]].
    cbn. by rewrite list_lookup_middle.
  - destruct (sr_tasks s !! k) as [[]|] eqn:Hk; try done. destruct (sr_requests s !! k) as [r|] eqn:Hr; [|done].
    destruct (decide _); [done|]. injection He as <-. destruct (Hbegin _ _ _ Hr Hch) as (? & ? & ?). exists k, r. auto.
  - destruct (sr_tasks s !! k) as [[|c| |]|] eqn:Hk; try done. destruct (sr_requests s !! k) as [r|] eqn:Hr; [|done].
    destruct (decide _); [done|]. injection He as <-. destruct Hok as [Hcalls _].
    destruct (Hcalls _ _ Hk) as (r' & Hr' & Hfrom).
    rewrite Hr in Hr'. injection Hr' as <-. destruct (finish_state k r c o s) as (_ & Esvc & Ereq & _).
    rewrite Esvc in *. apply resume_config in Hch as (next & -> & -> & caps & Hcaps & Hlive & Hnext).
    exists k, r. rewrite Ereq, Hnext. destruct Hfrom as [Hm Hcfg]. split_and!; [done..|].
    right. split_and!; eauto.
Qed.
End Service.

(** ** Frames the loop does not survive *)

(** A line that is not UTF-8 is not answered as a malformed frame: its
    [UnicodeDecodeError] leaves [serve]. *)
Lemma invalid_utf8_ends_service py_repr fromisoformat limits s line
    (Hline : line <> []) (Hbad : utf8_decode line = None) (Hr : sr_loop s = Reads)
    (Hs : sv_stopping (sr_service s) = false) :
  step py_repr fromisoformat limits (Read line) s = Some (set_loop Grace s).
Proof.
  cbn [step]. rewrite Hr, Hs. unfold read_line, decode_message.
  destruct line as [|b line]; [done|]. by rewrite Hbad.
Qed.

(** ** A sample session *)

Definition sample_metadata : ToolMetadata :=
  MkMetadata (u "ping") (u "Ping") [(u "type", FStr (u "object"))] (Some (u "ops.ping")) None [u "net"] [] None None.

Definition sample_service : Service :=
  advertise_config_transition true
    (register_tool sample_metadata 7%positive (service_init (u "svc") (u "1.0.0") PROTOCOL_VERSION)).

Definition line_of (m : JsonRpcMessage) : list Z :=
  match encode_message sample_limits m with Ok b => b | Raise _ => [] end.

Definition rpc (method : pystr) (params : pydict) (n : Z) : list Z :=
  line_of (MRequest (MkRequest method params (IdInt (PInt n)) JSONRPC_VERSION)).

Definition no_iso (s : pystr) : option datetime := None.
Definition no_repr (t : fjson) : pystr := [].

Definition sample_config : pydict := [(u "token", FStr (u "s3cret"))].

Definition sample_trigger : ToolExecutionTrigger := MkTrigger (u "scheduler") (Some (u "occ-1")) None None None.

Definition sample_context : ToolExecutionContext :=
  MkContext (u "inv-1") 1 sample_trigger (Some (u "key-1")) 1.

(** The answer of request [k] is written and drained. *)
Definition delivered (k : nat) : list event := [Write (ByRequest k) None; Drain (ByRequest k) None].

(** Initialize, start a tool call with a context, transition, then try
    another call. *)
Definition sample_events : list event :=
  Read (rpc INITIALIZE [(u "protocolVersion", FStr PROTOCOL_VERSION); (u "config", FMap sample_config)] 1)
  :: Finish 0 (Returned (∅, VNone)) :: delivered 0
  ++ [Read (rpc TOOLS_CALL [(u "name", FStr (u "ping")); (u "execution_context", FMap (tool_context_to_dict sample_context))] 2);
      Start 1;
      Read (rpc CONFIG_TRANSITION [(u "config", FMap sample_config)] 3)].

Definition sample_restart : list event :=
  sample_events ++ Finish 2 (ReturnedTransition (MkTransitionResult Restart)) :: delivered 2.

(** The fenced call is refused, and the writer fails both of its sends. *)
Definition sample_more : list event :=
  [Read (rpc TOOLS_CALL [(u "name", FStr (u "ping"))] 4); Start 3; Finish 1 (Returned (∅, VInt 5));
   Write (ByRequest 1) None; Drain (ByRequest 1) (Some (u "writer queue")); Write (ByRequest 1) (Some (u "writer queue"));
   Write (ByRequest 3) (Some (u "writer queue"))].

Definition after_events (es : list event) : Server :=
  default (server_init sample_service) (run no_repr no_iso sample_limits es (server_init sample_service)).

(** ** Witnesses *)

Lemma service_answers_once_witness :
  exists s, run no_repr no_iso sample_limits (sample_restart ++ sample_more) (server_init sample_service) = Some s
    /\ (sr_ended s).*1 ++ handled s ≡ₚ seq 0 4 /\ sr_ended s = [(0, Sent); (2, Sent); (1, SendFailed); (3, SendFailed)]%nat
    /\ (times 1 (answered s) <= 1 + times 1 (sr_faults s))%nat.
Proof.
  destruct (run no_repr no_iso sample_limits (sample_restart ++ sample_more) (server_init sample_service)) as [s|] eqn:E.
  - exists s. split; [done|].
    pose proof (service_answers_once no_repr no_iso sample_limits sample_service _ s E) as (H & _ & Hc & _).
    assert (Hl : length (sr_requests s) = 4%nat /\ sr_ended s = [(0, Sent); (2, Sent); (1, SendFailed); (3, SendFailed)]%nat).
    { vm_compute in E. injection E as <-. split; reflexivity. }
    destruct Hl as [Hl He]. rewrite Hl in H. split_and!; [exact H|exact He|apply Hc].
  - vm_compute in E. discriminate E.
Defined.

Lemma lifecycle_errors_reveal_nothing_witness :
  exists s rp e,
    run no_repr no_iso sample_limits (sample_events ++ Finish 2 (Failed (OtherFailure (u "bad token s3cret"))) :: delivered 2)
      (server_init sample_service) = Some s
    /\ (Some 2%nat, MResponse rp) ∈ sr_sent s /\ rp_error rp = Some e
    /\ re_message e = u "config transition failed".
Proof.
  destruct (run no_repr no_iso sample_limits (sample_events ++ Finish 2 (Failed (OtherFailure (u "bad token s3cret"))) :: delivered 2)
      (server_init sample_service)) as [s|] eqn:E; [|vm_compute in E; discriminate E].
  set (e := MkRpcError (PInt (-32603)) (u "config transition failed") FNull).
  set (rp := MkResponse (IdInt (PInt 3)) FNull (Some e) JSONRPC_VERSION).
  assert (Hin : (Some 2%nat, MResponse rp) ∈ sr_sent s).
  { pose proof E as E'. vm_compute in E'. injection E' as <-. cbn [sr_sent]. right. left. }
  exists s, rp, e. split_and!; [done|done|done|].
  apply (lifecycle_errors_reveal_nothing no_repr no_iso sample_limits sample_service _ s 2 rp e
           (MkRequest CONFIG_TRANSITION [(u "config", FMap sample_config)] (IdInt (PInt 3)) JSONRPC_VERSION) E Hin);
    [|vm_compute; reflexivity|reflexivity].
  vm_compute in E. injection E as <-. vm_compute. reflexivity.
Defined.

(** The hook of a transition is cancelled, which ends the loop while a tool
    call is still waiting. *)
Lemma service_drains_witness :
  exists s, run no_repr no_iso sample_limits (sample_events ++ [Finish 2 CancelledInside]) (server_init sample_service) = Some s
    /\ (length [Timeout; Interrupt 1%nat; Finish 1%nat (Returned (∅, VNone))] <= 7 * base.size (sr_tasks s) + base.size (sr_interrupts s) + 3)%nat
    /\ exists more s', forallb is_leaving more = true /\ run no_repr no_iso sample_limits more s = Some s'
         /\ sr_loop s' = Left /\ sr_tasks s' = ∅.
Proof.
  destruct (run no_repr no_iso sample_limits (sample_events ++ [Finish 2 CancelledInside]) (server_init sample_service))
    as [s|] eqn:E; [|vm_compute in E; discriminate E].
  assert (Hr : sr_loop s = Grace) by (pose proof E as E'; vm_compute in E'; by injection E' as <-).
  assert (Hmore : is_Some (run no_repr no_iso sample_limits [Timeout; Interrupt 1%nat; Finish 1%nat (Returned (∅, VNone))] s)).
  { pose proof E as E'. vm_compute in E'. injection E' as <-. eexists. vm_compute. reflexivity. }
  destruct Hmore as [s1 Hs1].
  pose proof (service_drains no_repr no_iso sample_limits sample_service _ s E) as [H1 H2].
  exists s. split_and!; [done| |].
  - apply (H1 ltac:(unfold leaving; by rewrite Hr) _ s1); [reflexivity|exact Hs1].
  - destruct (H2 Hr) as (more & s' & ? & ? & ? & ? & _). exists more, s'. split_and!; done.
Defined.

Lemma restart_fence_witness :
  exists s, run no_repr no_iso sample_limits
      [Read (rpc TOOLS_CALL [(u "name", FStr (u "ping"))] 4); Start 3; Finish 1 (Returned (∅, VInt 5))]
      (after_events sample_restart) = Some s
    /\ fenced s.
Proof.
  destruct (run no_repr no_iso sample_limits _ (after_events sample_restart)) as [s|] eqn:E; [|vm_compute in E; discriminate E].
  exists s. split; [done|]. refine (proj1 (restart_fence no_repr no_iso sample_limits _ _ s _ E)). vm_compute. reflexivity.
Defined.

Lemma context_revoked_witness :
  exists s, run no_repr no_iso sample_limits sample_events (server_init sample_service) = Some s
    /\ exists f a, sr_tasks s !! 1%nat = Some (Running (CallTool f a (Some sample_context))).
Proof.
  destruct (run no_repr no_iso sample_limits sample_events (server_init sample_service)) as [s|] eqn:E;
    [|vm_compute in E; discriminate E].
  exists s. split; [done|].
  apply (context_revoked no_repr no_iso sample_limits sample_service _ s 1 (Some sample_context, true) _ E); [|reflexivity].
  vm_compute in E. injection E as <-. vm_compute. reflexivity.
Defined.

Lemma host_config_custody_witness :
  exists s k r, run no_repr no_iso sample_limits [] (server_init sample_service) = Some s
    /\ sr_requests (default s (step no_repr no_iso sample_limits (Read (rpc INITIALIZE
          [(u "protocolVersion", FStr PROTOCOL_VERSION); (u "config", FMap sample_config)] 1)) s)) !! k = Some r.
Proof.
  destruct (step no_repr no_iso sample_limits (Read (rpc INITIALIZE
     [(u "protocolVersion", FStr PROTOCOL_VERSION); (u "config", FMap sample_config)] 1)) (server_init sample_service))
    as [s'|] eqn:E; [|vm_compute in E; discriminate E].
  exists (server_init sample_service). rewrite E. cbn [default from_option id].
  destruct (host_config_custody no_repr no_iso sample_limits sample_service [] _ (server_init sample_service) s' eq_refl E)
    as (k & r & Hr & _); [|by exists k, r].
  vm_compute in E. injection E as <-. vm_compute. discriminate.
Defined.
