(* ===== verification/RpcSystem.v ===== *)
(** * Client and service together

    The host's client and the isolated service joined by two byte streams:
    what one writes is what the other reads, line by line and in order, until
    a stream ends.  The negotiation of capabilities and the correlation of a
    call with the handler that answered it are properties of the pair. *)

From stdpp Require Import gmap.
From S2P Require Import RpcService RpcServiceProps RpcClient RpcClientProps.

(** ** Negotiation *)

Definition declared_versions (s : Service) : Prop :=
  match sv_tool_execution_context_capabilities s with
  | Some c => context_caps_post_init (DInt <$> cc_versions c) = Ok c
  | None => True
  end.

Lemma as_int_ints (l : list Z) : as_int <$> (FInt <$> l) = DInt <$> l.
Proof. rewrite <- list_fmap_compose. by apply list_fmap_ext. Qed.

Lemma context_caps_roundtrip c : context_caps_post_init (DInt <$> cc_versions c) = Ok c ->
  context_caps_from_dict (FMap (context_caps_to_dict c)) = Ok c.
Proof.
  intros H. unfold context_caps_from_dict, context_caps_to_dict.
  assert (Hk : same_keys [(u "versions", FTuple (FInt <$> cc_versions c))] [u "versions"] = true) by reflexivity.
  rewrite Hk. cbn [negb raise_if mbind result_bind]. lookup_keys. unfold id. by rewrite as_int_ints.
Qed.

Lemma ingress_caps_roundtrip c : ingress_caps_post_init (hi_names c) (DInt (hi_version c)) = Ok c ->
  ingress_caps_from_dict (FMap (ingress_caps_to_dict c)) = Ok c.
Proof.
  intros H. unfold ingress_caps_from_dict, ingress_caps_to_dict.
  assert (Hk : same_keys [(u "version", FInt (hi_version c)); (u "names", FTuple (FStr <$> hi_names c))]
                 [u "version"; u "names"] = true) by reflexivity.
  rewrite Hk. cbn [negb raise_if mbind result_bind]. lookup_keys. unfold id. by rewrite strings_of_texts.
Qed.

Lemma transition_caps_roundtrip c : transition_caps_from_dict (transition_caps_to_dict c) = Ok c.
Proof. destruct c. unfold transition_caps_from_dict, transition_caps_to_dict. lookup_keys. reflexivity. Qed.

Lemma ingress_caps_built names v c : ingress_caps_post_init names v = Ok c ->
  c = MkIngressCaps names HOST_INGRESS_VERSION
  /\ Forall (fun n => validate_host_ingress_name (Inst n) = Ok n) names.
Proof.
  unfold ingress_caps_post_init. intros H. apply bind_Ok in H as (z & Hz & H).
  assert (z = HOST_INGRESS_VERSION) as ->.
  { destruct v as [v|b|]; try done. apply bind_Ok in Hz as ([] & Hz & [= <-]). apply raise_if_Ok in Hz.
    apply negb_false_iff in Hz. lia. }
  apply bind_Ok in H as ([] & _ & H). apply bind_Ok in H as ([] & _ & H). apply bind_Ok in H as (vs & Hvs & [= <-]).
  split; [done|]. apply list.Forall_forall. intros n Hn. apply traverse_Ok in Hvs.
  apply list_elem_of_lookup in Hn as (i & Hi). destruct (Forall2_lookup_l _ _ _ _ _ Hvs Hi) as (y & _ & Hy).
  rewrite Hy. f_equal. unfold validate_host_ingress_name in Hy. inv_ok. done.
Qed.

(** What a service advertises is what it is. *)
Lemma capabilities_lookup s caps : capabilities s = Ok caps ->
  dict_get CONFIG_TRANSITION_CAPABILITY caps
    = default FNull ((fun c => FMap (transition_caps_to_dict c)) <$> sv_config_transition_capabilities s)
  /\ dict_get INBOUND_PRODUCER_CAPABILITY caps = default FNull (FBool <$> sv_has_inbound_producer s)
  /\ dict_get TOOL_EXECUTION_CONTEXT_CAPABILITY caps
     = default FNull ((fun c => FMap (context_caps_to_dict c)) <$> sv_tool_execution_context_capabilities s)
  /\ match sv_host_ingress_handlers s with
     | [] => dict_get HOST_INGRESS_CAPABILITY caps = FNull
     | hs => exists c, ingress_caps_post_init hs.*1 (DInt HOST_INGRESS_VERSION) = Ok c
                      /\ dict_get HOST_INGRESS_CAPABILITY caps = FMap (ingress_caps_to_dict c)
     end.
Proof.
  unfold capabilities. intros H. destruct (sv_host_ingress_handlers s) as [|h hs].
  - cbn [mbind result_bind] in H. injection H as <-.
    unfold CONFIG_TRANSITION_CAPABILITY, INBOUND_PRODUCER_CAPABILITY, TOOL_EXECUTION_CONTEXT_CAPABILITY,
      HOST_INGRESS_CAPABILITY.
    destruct (sv_channel_capability s), (sv_has_inbound_producer s), (sv_config_transition_capabilities s),
      (sv_tool_execution_context_capabilities s); cbn [app]; lookup_keys; done.
  - destruct (ingress_caps_post_init _ _) as [c|e] eqn:Hc; cbn [checked] in H; [|done].
    cbn [mbind result_bind] in H. injection H as <-.
    unfold CONFIG_TRANSITION_CAPABILITY, INBOUND_PRODUCER_CAPABILITY, TOOL_EXECUTION_CONTEXT_CAPABILITY,
      HOST_INGRESS_CAPABILITY.
    destruct (sv_channel_capability s), (sv_has_inbound_producer s), (sv_config_transition_capabilities s),
      (sv_tool_execution_context_capabilities s); cbn [app]; lookup_keys; split_and!; try done; by exists c.
Qed.

Lemma assoc_get_in {A} (k : pystr) (l : list (pystr * A)) : is_Some (assoc_get k l) <-> k ∈ l.*1.
Proof.
  induction l as [|[k' v] l IH]; cbn [assoc_get fmap list_fmap fst].
  - split; [by intros [? ?]|by intros ?%elem_of_nil].
  - rewrite list.elem_of_cons, <- IH. case_decide; naive_solver.
Qed.

(** Negotiation is faithful: a host that took the capabilities a service
    computed from its registrations sees the service's transition support,
    its inbound declaration and its context versions exactly, and may call a
    host-ingress name if and only if the service has a handler registered
    under it. *)
Theorem negotiation_exact s caps g (Hcaps : capabilities s = Ok caps) (Hg : ng_capabilities g = caps)
    (Hversions : declared_versions s) :
  config_transition_capabilities g = sv_config_transition_capabilities s
  /\ inbound_producer_declaration g = sv_has_inbound_producer s
  /\ tool_execution_context_capabilities g = sv_tool_execution_context_capabilities s
  /\ (forall name, supports_host_ingress_name name g = true <->
        exists n f, name = Inst n /\ assoc_get n (sv_host_ingress_handlers s) = Some f).
Proof.
  destruct (capabilities_lookup _ _ Hcaps) as (Ht & Hi & Hc & Hh). subst caps.
  unfold config_transition_capabilities, inbound_producer_declaration, tool_execution_context_capabilities,
    supports_host_ingress_name, host_ingress_capabilities, capability_of. rewrite Ht, Hi, Hc. split_and!.
  - destruct (sv_config_transition_capabilities s) as [c|]; [|done]. cbn. by rewrite transition_caps_roundtrip.
  - by destruct (sv_has_inbound_producer s).
  - unfold declared_versions in Hversions. destruct (sv_tool_execution_context_capabilities s) as [c|]; [|done].
    change (default FNull _) with (FMap (context_caps_to_dict c)). cbv beta iota. by rewrite context_caps_roundtrip.
  - intros name. destruct (sv_host_ingress_handlers s) as [|h hs] eqn:Hhs.
    { rewrite Hh. destruct (validate_host_ingress_name name); split; try done; by intros (n & f & _ & [=]). }
    destruct Hh as (c & Hpost & ->). destruct (ingress_caps_built _ _ _ Hpost) as [-> Hvalid].
    rewrite ingress_caps_roundtrip by done. cbn [ingress_caps_supports hi_names hi_version].
    rewrite list.Forall_forall in Hvalid. split.
    + destruct (validate_host_ingress_name name) as [n|] eqn:Hn; [|done]. unfold ingress_caps_supports. cbn.
      intros Hm%mem_true. destruct name as [n'|]; [|done].
      assert (n = n') as -> by (unfold validate_host_ingress_name in Hn; by inv_ok).
      change (n' ∈ (h :: hs).*1) in Hm. apply assoc_get_in in Hm as [f Hf]. eauto.
    + intros (n & f & -> & Hf). assert (Hin : n ∈ (h :: hs).*1) by (apply assoc_get_in; eauto).
      rewrite Hvalid by done. unfold ingress_caps_supports. cbn. by apply mem_true.
Qed.

(** ** The pair *)

(** [sy_to_server] and [sy_to_client] are the frames on the way. *)
Record System := MkSystem {
  sy_client : Client;
  sy_server : Server;
  sy_to_server : list (list Z);
  sy_to_client : list (list Z)
}.

Inductive system_event : Type :=
| ClientDoes (e : RpcClient.event)
| ServerDoes (e : RpcService.event)
| ServerReads
| ClientReads
| ServerEof
| ClientEof.

Section System.
Variable py_repr : fjson -> pystr.
Variable fromisoformat : pystr -> option datetime.
Variable limits : json_limits.

Definition frames (ms : list JsonRpcMessage) : list (list Z) :=
  omap (fun m => match encode_message limits m with Ok line => Some line | Raise _ => None end) ms.

(** What was written since. *)
Definition client_frames (c c' : Client) : list (list Z) :=
  frames (MRequest <$> (drop (length (wr_sent (cl_wire c))) (wr_sent (cl_wire c'))).*2).
Definition server_frames (s s' : Server) : list (list Z) :=
  frames (drop (length (sr_sent s)) (sr_sent s')).*2.

Definition client_step (e : RpcClient.event) (y : System) : option System :=
  c' ← RpcClient.step limits e (sy_client y);
  Some (MkSystem c' (sy_server y) (sy_to_server y ++ client_frames (sy_client y) c') (sy_to_client y)).

Definition server_step (e : RpcService.event) (y : System) : option System :=
  s' ← RpcService.step py_repr fromisoformat limits e (sy_server y);
  Some (MkSystem (sy_client y) s' (sy_to_server y) (sy_to_client y ++ server_frames (sy_server y) s')).

(** The lines are those of the streams: a process makes up none itself. *)
Definition system_step (e : system_event) (y : System) : option System :=
  match e with
  | ClientDoes (Line _) | ServerDoes (Read _) => None
  | ClientDoes e => client_step e y
  | ServerDoes e => server_step e y
  | ServerReads =>
      match sy_to_server y with
      | line :: rest => server_step (Read line) (MkSystem (sy_client y) (sy_server y) rest (sy_to_client y))
      | [] => None
      end
  | ClientReads =>
      match sy_to_client y with
      | line :: rest => client_step (Line line) (MkSystem (sy_client y) (sy_server y) (sy_to_server y) rest)
      | [] => None
      end
  | ServerEof => server_step (Read []) y
  | ClientEof => client_step (Line []) y
  end.

Fixpoint system_run (es : list system_event) (y : System) : option System :=
  match es with
  | [] => Some y
  | e :: es' => y' ← system_step e y; system_run es' y'
  end.

Definition system_init (version : pystr) (svc : Service) : System :=
  MkSystem (client_init version) (server_init svc) [] [].

(** ** What a step adds *)

Record server_grows (e : RpcService.event) (s s' : Server) : Prop := {
  sg_sent : exists ms, sr_sent s' = sr_sent s ++ ms;
  sg_requests : sr_requests s' = sr_requests s
    \/ exists line r, e = Read line /\ line <> [] /\ decode_message limits (Bytes line) = Ok (MRequest r)
                      /\ sr_requests s' = sr_requests s ++ [r]
}.

Lemma server_same e s s' : sr_sent s' = sr_sent s -> sr_requests s' = sr_requests s -> server_grows e s s'.
Proof. intros Hs Hr. split; [exists []; by rewrite app_nil_r|by left]. Qed.

Lemma server_sends e s s' x : sr_sent s' = sr_sent s ++ [x] -> sr_requests s' = sr_requests s -> server_grows e s s'.
Proof. intros Hs Hr. split; [by exists [x]|by left]. Qed.

Lemma begin_same k r s :
  sr_sent (begin py_repr fromisoformat limits k r s) = sr_sent s
  /\ sr_requests (begin py_repr fromisoformat limits k r s) = sr_requests s.
Proof. unfold begin. destruct (dispatch _ _ _ _ _) as [svc [m|[]]]; done. Qed.

Lemma send_failed_same e k r retry text s : server_grows e s (send_failed k r retry text s).
Proof. by destruct retry; apply server_same. Qed.

#[local] Hint Resolve send_failed_same : core.

Lemma server_step_grows e s s' : RpcService.step py_repr fromisoformat limits e s = Some s' -> server_grows e s s'.
Proof.
  destruct e as [line|k|k o|who raised|who raised| | |k| |op]; cbn [RpcService.step].
  - destruct (sr_loop s); try done. destruct (sv_stopping _); [done|]. intros [= <-]. unfold RpcService.read_line.
    destruct line as [|b line]; [by apply server_same|].
    destruct (decode_message limits (Bytes (b :: line))) as [[r|n|r]|e] eqn:Hd; try by apply server_same.
    + unfold accept_request. destruct (is_inline r).
      * match goal with |- context [begin _ _ _ ?k ?r ?s1] => destruct (begin_same k r s1) as [Hs Hq] end.
        split; [exists []; by rewrite Hs, app_nil_r|]. right. exists (b :: line), r. by rewrite Hq.
      * split; [exists []; by rewrite app_nil_r|]. right. by exists (b :: line), r.
    + destruct e; by apply server_same.
  - destruct (sr_tasks s !! k) as [[]|]; try done. destruct (sr_requests s !! k) as [r|]; [|done].
    destruct (decide _); [done|]. intros [= <-]. destruct (begin_same k r s). by apply server_same.
  - destruct (sr_tasks s !! k) as [[]|]; try done. destruct (sr_requests s !! k); [|done].
    destruct (decide _); [done|]. intros [= <-].
    unfold RpcService.finish. destruct (resume _ _ _ _) as [svc m]. destruct (answer _ _ _ _ _) as [[]|]; by apply server_same.
  - unfold write_frame. destruct (sr_lock s); [done|]. destruct who as [k| |]; [..|done].
    + destruct (sr_tasks s !! k) as [[| |b m|]|]; try done. destruct (sr_requests s !! k); [|done].
      destruct (decide _); [done|]. intros [= <-]. destruct raised; [done|by eapply server_sends].
    + destruct (sr_loop s); try done. intros [= <-]. destruct raised; [by apply server_same|by eapply server_sends].
  - unfold drained. destruct (decide _); [|done]. destruct who as [k| |].
    + destruct (sr_tasks s !! k) as [[| | |b]|]; try done. destruct (sr_requests s !! k); [|done].
      destruct (decide _); [done|]. intros [= <-]. destruct raised; [done|by apply server_same].
    + destruct (sr_loop s); try done. intros [= <-]. by apply server_same.
    + intros [= <-]. by apply server_same.
  - destruct (sr_loop s); try done. destruct (sv_stopping _); [|done]. intros [= <-]. by apply server_same.
  - destruct (sr_loop s); try done. destruct (decide _); [done|]. intros [= <-]. by apply server_same.
  - unfold RpcService.interrupt. destruct (decide _); [|done]. destruct (sr_tasks s !! k) as [[]|]; try done;
      intros [= <-]; by apply server_same.
  - destruct (sr_loop s); try done; (destruct (decide _); [|done]); intros [= <-]; by apply server_same.
  - destruct op; cbn [feature_step]; try (intros [= <-]; by apply server_same).
    + intros [= <-]. by destruct (register_host_ingress _ _ _); apply server_same.
    + intros [= <-]. by destruct (advertise_inbound_producer _ _); apply server_same.
    + unfold emit_event. destruct (sr_loop s); try (by intros [= <-]; apply server_same); (destruct (sr_lock s); [done|]);
        (destruct (encode_message _ _); intros [= <-]; [|by apply server_same]);
        destruct write_fails; try (by apply server_same); by eapply server_sends.
Qed.

Record client_grows (e : RpcClient.event) (c c' : Client) : Prop := {
  cg_sent : exists fs, wr_sent (cl_wire c') = wr_sent (cl_wire c) ++ fs;
  cg_responses : wr_responses (cl_wire c') = wr_responses (cl_wire c)
    \/ exists line r, e = Line line /\ line <> [] /\ decode_message limits (Bytes line) = Ok (MResponse r)
                      /\ wr_responses (cl_wire c') = wr_responses (cl_wire c) ++ [r]
}.

Lemma client_same e c c' : wr_sent (cl_wire c') = wr_sent (cl_wire c) ->
  wr_responses (cl_wire c') = wr_responses (cl_wire c) -> client_grows e c c'.
Proof. intros Hs Hr. split; [exists []; by rewrite app_nil_r|by left]. Qed.

Lemma run_call_grows e n op write c0 c : wr_sent (cl_wire c0) = wr_sent (cl_wire c) ->
  wr_responses (cl_wire c0) = wr_responses (cl_wire c) -> client_grows e c (run_call limits n op write c0).
Proof.
  intros Hs0 Hr0. unfold run_call. pose proof (gate_frame limits op c0) as Hfr. destruct (gate limits op c0) as [c1 g].
  cbn [fst] in Hfr. destruct Hfr. assert (Hs : wr_sent (start (cl_wire c0)) = wr_sent (cl_wire c)
    /\ wr_responses (start (cl_wire c0)) = wr_responses (cl_wire c))
    by (unfold start; by destruct (wr_closed (cl_wire c0)), (wr_read (cl_wire c0))).
  destruct Hs as [Hs Hr].
  destruct g; [apply client_same; cbn; by rewrite fr_wire..|]. unfold open_request. rewrite fr_wire.
  assert (Hc : forall k r w, wr_sent w = wr_sent (cl_wire c) -> wr_responses w = wr_responses (cl_wire c) ->
            client_grows e c (conclude limits n k r (set_wire w c1))).
  { intros k r w Hw1 Hw2. destruct (conclude_same limits n k r (set_wire w c1)) as (Hw & _ & _).
    apply client_same; by rewrite Hw. }
  destruct (wr_closed (start (cl_wire c0))); [by apply Hc|].
  destruct (encode_message _ _); [destruct write|]; cbv beta iota zeta; [by apply Hc| |by apply Hc].
  split; cbn; [eexists; by rewrite Hs|by left].
Qed.

Lemma client_step_grows e c c' : RpcClient.step limits e c = Some c' -> client_grows e c c'.
Proof.
  destruct e as [op w|w|n|n e|line| |h| | |b| |]; cbn [RpcClient.step].
  - intros [= <-]. unfold begin_call. destruct (precheck op _); [by apply client_same|].
    destruct (takes_lock op); [|by apply run_call_grows].
    destruct (lf_lock _); [by apply client_same|]. destruct (lf_queue _); [by apply run_call_grows|by apply client_same].
  - unfold acquire. destruct (lf_lock _); [done|]. destruct (lf_queue _) as [|n q]; [done|].
    destruct (ca_active _ !! _) as [[|]|]; try done. intros [= <-]. by apply run_call_grows.
  - unfold wake. destruct (ca_active _ !! _) as [[|k id_]|]; try done. destruct (wr_resolved _ !! _) as [r|]; [|done].
    intros [= <-]. destruct (conclude_same limits n k r (forget n id_ c)) as (Hw & _ & _). apply client_same; by rewrite Hw.
  - unfold interrupt. destruct (ca_active _ !! _) as [[op|k id_]|]; [| |done].
    + destruct e; try done. intros [= <-]. by apply client_same.
    + intros [= <-]. destruct (conclude_same limits n k (inr e) (forget n id_ c)) as (Hw & _ & _).
      apply client_same; by rewrite Hw.
  - destruct (reading c); [|done]. intros [= <-]. unfold RpcClient.read_line.
    destruct line as [|x line]; [by apply client_same|].
    destruct (decode_message limits (Bytes (x :: line))) as [[r|nt|r]|e] eqn:Hd; try (by apply client_same).
    + case_bool_decide; by apply client_same.
    + assert (Hg : wr_sent (read_response r (cl_wire c)) = wr_sent (cl_wire c)
                   /\ wr_responses (read_response r (cl_wire c)) = wr_responses (cl_wire c) ++ [r])
        by (unfold read_response; destruct (id_key _); [|done]; by destruct (wr_pending _ !! _)).
      destruct Hg as [Hs Hr]. split; [exists []; cbn; by rewrite app_nil_r|]. right. by exists (x :: line), r.
  - destruct (wr_read _); try done.
    destruct (ClientEvents.ev_active _) as [[[] ? ? ?]|]; try done; intros [= <-]; by apply client_same.
  - intros [= <-]. destruct (lf_shutdown_started _); by apply client_same.
  - destruct (ClientEvents.start_drain _); [|done]. intros [= <-]. by apply client_same.
  - destruct (ClientEvents.grant _); [|done]. intros [= <-]. by apply client_same.
  - destruct (ClientEvents.handler_done _ _) as [[e []]|]; [| |done]; intros [= <-]; by apply client_same.
  - intros [= <-]. by apply client_same.
  - unfold finish_close. destruct (wr_close _); try done. destruct (_ && _); [|done]. intros [= <-].
    by apply client_same.
Qed.

(** ** Invariant of the pair *)

Record system_ok (y : System) : Prop := {
  so_client : client_ok (sy_client y);
  so_server : server_ok (sy_server y);
  so_to_server : forall line, line ∈ sy_to_server y ->
    exists x, x ∈ wr_sent (cl_wire (sy_client y)) /\ encode_message limits (MRequest x.2) = Ok line;
  so_to_client : forall line, line ∈ sy_to_client y ->
    exists x, x ∈ sr_sent (sy_server y) /\ encode_message limits x.2 = Ok line;
  so_requests : forall r, r ∈ sr_requests (sy_server y) ->
    exists x line, x ∈ wr_sent (cl_wire (sy_client y)) /\ encode_message limits (MRequest x.2) = Ok line
                   /\ decode_message limits (Bytes line) = Ok (MRequest r);
  so_responses : forall r, r ∈ wr_responses (cl_wire (sy_client y)) ->
    exists x line, x ∈ sr_sent (sy_server y) /\ encode_message limits x.2 = Ok line
                   /\ decode_message limits (Bytes line) = Ok (MResponse r)
}.

Lemma elem_of_frames line ms : line ∈ frames ms <-> exists m, m ∈ ms /\ encode_message limits m = Ok line.
Proof.
  unfold frames. rewrite list_elem_of_omap. split; intros (m & Hm & He); exists m; (split; [done|]).
  - destruct (encode_message limits m); congruence.
  - by rewrite He.
Qed.

Lemma elem_of_dropped {A} (x : A) k l : x ∈ drop k l -> x ∈ l.
Proof. intros Hx. rewrite <- (take_drop k l). apply elem_of_app. by right. Qed.

Lemma client_frames_from c c' line : line ∈ client_frames c c' ->
  exists x, x ∈ wr_sent (cl_wire c') /\ encode_message limits (MRequest x.2) = Ok line.
Proof.
  unfold client_frames. rewrite elem_of_frames. intros (m & Hm & He).
  apply list_elem_of_fmap in Hm as (r & -> & Hr). apply list_elem_of_fmap in Hr as (x & -> & Hx).
  exists x. split; [|done]. by eapply elem_of_dropped.
Qed.

Lemma server_frames_from s s' line : line ∈ server_frames s s' ->
  exists x, x ∈ sr_sent s' /\ encode_message limits x.2 = Ok line.
Proof.
  unfold server_frames. rewrite elem_of_frames. intros (m & Hm & He).
  apply list_elem_of_fmap in Hm as (x & -> & Hx). exists x. split; [|done]. by eapply elem_of_dropped.
Qed.

(** A step of the client that reads only what was on the way. *)
Lemma client_step_system e y y' to_client :
  system_ok y -> (forall line, line ∈ to_client -> line ∈ sy_to_client y) ->
  (forall line, e = Line line -> line <> [] -> line ∈ sy_to_client y) ->
  client_step e (MkSystem (sy_client y) (sy_server y) (sy_to_server y) to_client) = Some y' -> system_ok y'.
Proof.
  intros [] Hq He H. unfold client_step in H. cbn in H.
  destruct (RpcClient.step limits e (sy_client y)) as [c'|] eqn:E; [|done]. injection H as <-.
  destruct (client_step_grows _ _ _ E) as [[fs Hfs] Hrs].
  assert (Hmono : forall x, x ∈ wr_sent (cl_wire (sy_client y)) -> x ∈ wr_sent (cl_wire c'))
    by (intros x Hx; rewrite Hfs; apply elem_of_app; by left).
  split; cbn; auto.
  - by eapply client_step_ok.
  - intros line [Hl|Hl]%elem_of_app; [|by eapply client_frames_from].
    destruct (so_to_server0 line Hl) as (x & ? & ?). exists x. auto.
  - intros r Hr. destruct (so_requests0 r Hr) as (x & line & ? & ? & ?). exists x, line. auto.
  - destruct Hrs as [->|(line & r & -> & Hne & Hd & ->)]; [done|].
    intros r' [Hr'|Hr']%elem_of_app; [by apply so_responses0|]. apply list_elem_of_singleton in Hr' as ->.
    destruct (so_to_client0 line (He line eq_refl Hne)) as (x & ? & ?). exists x, line. done.
Qed.

Lemma server_step_system e y y' to_server :
  system_ok y -> (forall line, line ∈ to_server -> line ∈ sy_to_server y) ->
  (forall line, e = Read line -> line <> [] -> line ∈ sy_to_server y) ->
  server_step e (MkSystem (sy_client y) (sy_server y) to_server (sy_to_client y)) = Some y' -> system_ok y'.
Proof.
  intros [] Hq He H. unfold server_step in H. cbn in H.
  destruct (RpcService.step py_repr fromisoformat limits e (sy_server y)) as [s'|] eqn:E; [|done]. injection H as <-.
  destruct (server_step_grows _ _ _ E) as [(ms & Hms) Hrs].
  assert (Hmono : forall x, x ∈ sr_sent (sy_server y) -> x ∈ sr_sent s')
    by (intros x Hx; rewrite Hms; apply elem_of_app; by left).
  split; cbn; auto.
  - by eapply RpcServiceProps.step_ok.
  - intros line [Hl|Hl]%elem_of_app; [|by eapply server_frames_from].
    destruct (so_to_client0 line Hl) as (x & ? & ?). exists x. auto.
  - destruct Hrs as [->|(line & r & -> & Hne & Hd & ->)]; [done|].
    intros r' [Hr'|Hr']%elem_of_app; [by apply so_requests0|]. apply list_elem_of_singleton in Hr' as ->.
    destruct (so_to_server0 line (He line eq_refl Hne)) as (x & ? & ?). exists x, line. done.
  - intros r Hr. destruct (so_responses0 r Hr) as (x & line & ? & ? & ?). exists x, line. auto.
Qed.

Lemma system_step_ok e y y' : system_ok y -> system_step e y = Some y' -> system_ok y'.
Proof.
  intros Hok. assert (Hy : y = MkSystem (sy_client y) (sy_server y) (sy_to_server y) (sy_to_client y)) by by destruct y.
  destruct e as [e|e| | | |]; cbn [system_step].
  - intros H. rewrite Hy in H. destruct e; try done; (eapply client_step_system; [exact Hok| | |exact H]; [done|by intros ? [=]]).
  - intros H. rewrite Hy in H. destruct e; try done; (eapply server_step_system; [exact Hok| | |exact H]; [done|by intros ? [=]]).
  - destruct (sy_to_server y) as [|line rest] eqn:Hl; [done|]. intros H.
    eapply server_step_system; [exact Hok| | |exact H]; rewrite Hl; [by right|]. intros l [= <-] _. by left.
  - destruct (sy_to_client y) as [|line rest] eqn:Hl; [done|]. intros H.
    eapply client_step_system; [exact Hok| | |exact H]; rewrite Hl; [by right|]. intros l [= <-] _. by left.
  - intros H. rewrite Hy in H. eapply server_step_system; [exact Hok| | |exact H]; [done|by intros ? [= <-]].
  - intros H. rewrite Hy in H. eapply client_step_system; [exact Hok| | |exact H]; [done|by intros ? [= <-]].
Qed.

Lemma system_run_ok es y y' : system_ok y -> system_run es y = Some y' -> system_ok y'.
Proof.
  revert y; induction es as [|e es IH]; intros y Hy; [by intros [= <-]|]. cbn.
  destruct (system_step e y) as [y1|] eqn:E; [|done]. apply IH. by eapply system_step_ok.
Qed.

Lemma system_init_ok version svc : system_ok (system_init version svc).
Proof.
  split; cbn; [apply client_init_ok|apply RpcServiceProps.init_ok|..]; intros ? H; by apply elem_of_nil in H.
Qed.

(** ** Correlation *)

Lemma decode_encoded m line : message_ok limits m -> encode_message limits m = Ok line ->
  decode_message limits (Bytes line) = Ok m.
Proof.
  intros Hm He. destruct (Hm) as [[Hw Hn] _]. unfold encode_message in He. rewrite wire_value_dumps in He by done.
  injection He as <-. by apply decode_frame.
Qed.

Lemma requests_ok_b (l : list (nat * JsonRpcRequest)) :
  forallb (fun x => message_ok_b limits (MRequest x.2)) l = true -> Forall (fun x => message_ok limits (MRequest x.2)) l.
Proof. intros H. apply list.Forall_forall. intros x Hx. by apply message_ok_b_ok, (forallb_in _ _ H). Qed.

Lemma messages_ok_b (l : list (option nat * JsonRpcMessage)) :
  forallb (fun x => message_ok_b limits x.2) l = true -> Forall (fun x => message_ok limits x.2) l.
Proof. intros H. apply list.Forall_forall. intros x Hx. by apply message_ok_b_ok, (forallb_in _ _ H). Qed.

Lemma sent_unique (l : list (nat * JsonRpcRequest)) x x' : NoDup (rq_id <$> l.*2) -> x ∈ l -> x' ∈ l ->
  rq_id x.2 = rq_id x'.2 -> x = x'.
Proof.
  intros Hnd (i & Hi)%list_elem_of_lookup_1 (j & Hj)%list_elem_of_lookup_1 E.
  assert (i = j) as ->; [|congruence].
  eapply (NoDup_lookup (rq_id <$> l.*2)); [done| |].
  - rewrite !list_lookup_fmap, Hi. cbn. done.
  - rewrite !list_lookup_fmap, Hj. cbn. by rewrite E.
Qed.

(** C10. A call is answered by its own request: when the frames both sides
    write are well formed, what a call of the host returned is the result
    that the service sent in answer to the very request this call wrote -
    however the handlers, the calls and the two streams interleave, and
    whichever of the service's writes and drains fail.  The one exception is
    the fixed health notice [restart-required], which a host fenced for
    replacement returns in place of what the service says. *)
Theorem call_gets_its_answer version svc es y n v
    (Hrun : system_run es (system_init version svc) = Some y)
    (Hreq : Forall (fun x => message_ok limits (MRequest x.2)) (wr_sent (cl_wire (sy_client y))))
    (Hresp : Forall (fun x => message_ok limits x.2) (sr_sent (sy_server y)))
    (Hout : (n, inl v) ∈ ca_outcomes (cl_calls (sy_client y))) :
  v = Json restart_required_health
  \/ exists rq k resp, (n, rq) ∈ wr_sent (cl_wire (sy_client y))
     /\ sr_requests (sy_server y) !! k = Some rq
     /\ (Some k, MResponse resp) ∈ sr_sent (sy_server y)
     /\ rp_error resp = None /\ reads_as v (rp_result resp).
Proof.
  pose proof (system_run_ok _ _ _ (system_init_ok version svc) Hrun) as Hok.
  destruct (so_client _ Hok) as [Hw Ha _]. destruct (ak_results _ _ _ _ Ha n v Hout) as [|Hans]; [by left|right].
  destruct Hans as (rq & id_ & resp & Hrq & Hid & Hin & Hkey & Herr & Hread).
  destruct (so_responses _ Hok resp Hin) as ([o m] & line & Hsent & He & Hd). cbn in He.
  assert (Hm : m = MResponse resp).
  { rewrite list.Forall_forall in Hresp. specialize (Hresp _ Hsent). cbn in Hresp.
    eapply decode_encoded in Hresp; [|exact He]. congruence. }
  subst m. destruct o as [k|].
  2:{ pose proof (si_unsolicited _ (so_server _ Hok) _ Hsent) as Hu. cbn in Hu. by rewrite Hu in Hkey. }
  destruct (si_sent _ (so_server _ Hok) k _ Hsent) as (r & Hr & Hrid & _). cbn in Hrid.
  assert (Hrin : r ∈ sr_requests (sy_server y)) by by eapply list_elem_of_lookup_2.
  destruct (so_requests _ Hok r Hrin) as ([n' rq'] & line' & Hrq' & He' & Hd'). cbn in He'.
  assert (Hsame : rq' = r).
  { rewrite list.Forall_forall in Hreq. specialize (Hreq _ Hrq'). cbn in Hreq.
    eapply decode_encoded in Hreq; [|exact He']. congruence. }
  subst rq'. assert (r = rq); [|subst r; exists rq, k, resp; auto].
  destruct (wk_ids _ _ Hw n' r Hrq') as (id' & Hid' & _). injection Hrid as Hrid. rewrite Hrid, Hid' in Hkey.
  injection Hkey as ->. assert (Hx : (n', r) = (n, rq)); [|congruence].
  eapply sent_unique; [apply (wk_sent _ _ Hw)|done|done|]. cbn. congruence.
Qed.
End System.

(** ** An exception without text

    The service sends [str(exc)] as the error's message; a message that is
    empty is no error object to the host, whose read loop ends. *)
Lemma empty_error_text_ends_client c r (Hr : rq_id r = IdInt (PInt 1)) (Hm : secret_bearing r = false) :
  exists line, encode_message sample_limits (response sample_limits r (Raise (OtherFailure []))) = Ok line
    /\ RpcClient.read_line sample_limits line c = set_wire (terminate ProtocolFailed (cl_wire c)) c.
Proof.
  unfold secret_bearing in Hm. apply orb_false_iff in Hm as [Hm H3]. apply orb_false_iff in Hm as [H1 H2].
  unfold response, error_message. rewrite H1, H2, H3, Hr.
  set (line := frame_of (error_response (IdInt (PInt 1)) (-32603) [])).
  exists line. split; [vm_compute; reflexivity|]. unfold RpcClient.read_line.
  assert (Hd : decode_message sample_limits (Bytes line) = Raise (ProtocolError "message must be a non-empty string"))
    by (vm_compute; reflexivity).
  rewrite Hd. assert (Hn : exists b l, line = b :: l) by (vm_compute; eauto). by destruct Hn as (b & l & ->).
Qed.

(** ** Witnesses *)

Definition echo_schema : ToolMetadata := MkMetadata (u "echo") (u "Echo") [] None None [] [] None None.

(** A service with one tool and one host-ingress handler, and a host that
    calls the tool. *)
Definition echo_service : Service :=
  match register_host_ingress (Inst (u "inbox")) (Handler 2)
          (register_tool echo_schema 1 (service_init (u "echo") (u "1.0.0") PROTOCOL_VERSION)) with
  | Ok s => s
  | Raise _ => service_init [] [] []
  end.

Definition echo_capabilities : pydict := match capabilities echo_service with Ok caps => caps | Raise _ => [] end.

Lemma negotiation_exact_witness :
  config_transition_capabilities (MkNegotiated None echo_capabilities [] false) = None
  /\ inbound_producer_declaration (MkNegotiated None echo_capabilities [] false) = None
  /\ tool_execution_context_capabilities (MkNegotiated None echo_capabilities [] false)
     = Some (MkContextCaps [TOOL_EXECUTION_CONTEXT_VERSION])
  /\ (forall name, supports_host_ingress_name name (MkNegotiated None echo_capabilities [] false) = true <->
        exists n f, name = Inst n /\ assoc_get n (sv_host_ingress_handlers echo_service) = Some f).
Proof.
  apply (negotiation_exact echo_service echo_capabilities (MkNegotiated None echo_capabilities [] false)).
  - vm_compute. reflexivity.
  - reflexivity.
  - vm_compute. reflexivity.
Defined.

Definition no_iso_text (s : pystr) : option datetime := None.
Definition quoted (t : fjson) : pystr := wire_dumps t.

Definition answer_sent (k : nat) : list system_event := ServerDoes <$> delivered k.

Definition echo_session : list system_event :=
  [ClientDoes (Begin (Initialize None None) None); ServerReads] ++ answer_sent 0 ++ [ClientReads; ClientDoes (Wake 0);
   ClientDoes (Begin Health None); ServerReads; ServerDoes (Start 1)] ++ answer_sent 1 ++ [ClientReads; ClientDoes (Wake 1);
   ClientDoes (Begin (CallTool (u "echo") None None) None); ServerReads; ServerDoes (Start 2);
   ServerDoes (Finish 2 (Returned (object_of (FStr (u "hello")))))] ++ answer_sent 2 ++ [ClientReads; ClientDoes (Wake 2)].

Definition echo_system : System :=
  match system_run quoted no_iso_text sample_limits echo_session (system_init PROTOCOL_VERSION echo_service) with
  | Some y => y
  | None => system_init [] echo_service
  end.

Lemma call_gets_its_answer_witness :
  Json (FStr (u "hello")) = Json restart_required_health
  \/ exists rq k resp, (2%nat, rq) ∈ wr_sent (cl_wire (sy_client echo_system))
     /\ sr_requests (sy_server echo_system) !! k = Some rq
     /\ (Some k, MResponse resp) ∈ sr_sent (sy_server echo_system)
     /\ rp_error resp = None /\ reads_as (Json (FStr (u "hello"))) (rp_result resp).
Proof.
  apply (call_gets_its_answer quoted no_iso_text sample_limits PROTOCOL_VERSION echo_service echo_session echo_system 2%nat).
  - vm_compute. reflexivity.
  - apply (requests_ok_b sample_limits). vm_compute. reflexivity.
  - apply (messages_ok_b sample_limits). vm_compute. reflexivity.
  - assert (Hi : ca_outcomes (cl_calls (sy_client echo_system)) !! 2%nat = Some (2%nat, inl (Json (FStr (u "hello")))))
      by (vm_compute; reflexivity).
    by eapply list_elem_of_lookup_2.
Defined.
