(* ===== verification/Decisions.v ===== *)
(** * Decision requests ([kestrel_sdk/llm/decisions.py])

    Typed questions over a JSON state, and the validation that turns a
    caller's request into an immutable, measured snapshot: text and
    cardinality rules first, then one bounded deep-freeze of the whole wire
    form.  [concentration] (floating-point logarithms) is not modelled. *)

From stdpp Require Import gmap.
From S2P Require Export Regex FrozenJsonProps.

Definition MAX_QUESTIONS : Z := 64.
Definition MIN_OPTIONS : Z := 2.
Definition MAX_OPTIONS : Z := 26.
Definition MAX_INSTRUCTIONS_CHARS : Z := 4096.
Definition MAX_DESCRIPTION_CHARS : Z := 1024.
Definition MAX_REQUEST_BYTES : Z := Z.shiftl 1 20.
Definition MAX_STATE_DEPTH : Z := 64.

(** [^[A-Za-z0-9_][A-Za-z0-9_.-]{0,63}$] *)
Definition ID_PATTERN : re :=
  RCat (RChar (fun c => is_alnum c || (c =? 95)))
       (RUpTo 63 (RChar (fun c => is_alnum c || mem c (u "_.-")))).

(** ** Questions *)

(** A frozen question. *)
Inductive Question : Type :=
| ChoiceQuestion (instructions : pystr) (options : list (pystr * option pystr))
| ScoreQuestion (instructions : pystr) (levels : list pystr)
| NoulQuestion (instructions : pystr) (true_means false_means : option pystr).

(** A question as the caller built it: fields of any value, [None] where the
    container is not a mapping, or not a sequence. *)
Inductive question_arg : Type :=
| ArgChoice (instructions : pyval) (options : option (list (pyval * pyval)))
| ArgScore (instructions : pyval) (levels : option (list pyval))
| ArgNoul (instructions true_means false_means : pyval)
| ArgForeign.

(** The caller's request: any state, and the items of its questions. *)
Record DecisionRequest := MkDecisionRequest {
  dq_state : pyval;
  dq_questions : option (list (pyval * question_arg))
}.

Record ValidatedDecisionRequest := MkValidated {
  vd_state : fjson;
  vd_questions : list (pystr * Question);
  vd_wire : fjson;
  vd_encoded_bytes : Z
}.

Definition invalid {A} (rule m : string) : res A := Raise (DecisionRequestInvalid rule m).
Definition refuse_if (b : bool) (rule m : string) : res unit := raise_if b (DecisionRequestInvalid rule m).

Definition check_id (value : pyval) (what : string) : res pystr :=
  match value with
  | VStr s =>
      _ ← refuse_if (negb (re_match ID_PATTERN s)) "id" (what +:+ " must match the identifier pattern");
      Ok s
  | _ => invalid "id" (what +:+ " must match the identifier pattern")
  end.

Definition check_text (value : pyval) (what : string) (max_chars : Z) : res pystr :=
  match value with
  | VStr s =>
      _ ← refuse_if (len (strip s) =? 0) "text" (what +:+ " must be a non-empty string");
      _ ← refuse_if (max_chars <? len s) "text" (what +:+ " must be at most {max_chars} characters");
      Ok s
  | _ => invalid "text" (what +:+ " must be a non-empty string")
  end.

Definition check_optional_text (value : pyval) (what : string) : res (option pystr) :=
  match value with
  | VNone => Ok None
  | _ => s ← check_text value what MAX_DESCRIPTION_CHARS; Ok (Some s)
  end.

Definition check_cardinality (count : Z) (what : string) : res unit :=
  refuse_if (negb ((MIN_OPTIONS <=? count) && (count <=? MAX_OPTIONS))) "options"
    (what +:+ " must have between 2 and 26 entries").

(** [d[k] = v] on insertion-ordered items. *)
Fixpoint put {A} (k : pystr) (v : A) (l : list (pystr * A)) : list (pystr * A) :=
  match l with
  | [] => [(k, v)]
  | (k', v') :: l' => if decide (k = k') then (k, v) :: l' else (k', v') :: put k v l'
  end.

Fixpoint freeze_options (items : list (pyval * pyval)) (options : list (pystr * option pystr))
    : res (list (pystr * option pystr)) :=
  match items with
  | [] => Ok options
  | (option_id, description) :: items' =>
      k ← check_id option_id "option id";
      d ← check_optional_text description "option description";
      freeze_options items' (put k d options)
  end.

Definition opt_text_json (o : option pystr) : fjson := match o with Some s => FStr s | None => FNull end.

(** The systemone wire form of a frozen question. *)
Definition question_wire (q : Question) : fjson :=
  match q with
  | ChoiceQuestion i os =>
      FMap [(u "type", FStr (u "choice")); (u "instructions", FStr i);
            (u "criteria", FMap (prod_map id opt_text_json <$> os))]
  | ScoreQuestion i ls =>
      FMap [(u "type", FStr (u "score")); (u "instructions", FStr i); (u "criteria", FTuple (FStr <$> ls))]
  | NoulQuestion i t f =>
      FMap ([(u "type", FStr (u "noul")); (u "instructions", FStr i)]
            ++ if bool_decide (t = None) && bool_decide (f = None) then []
               else [(u "criteria", FMap [(u "true", opt_text_json t); (u "false", opt_text_json f)])])
  end.

Definition freeze_question (question : question_arg) : res Question :=
  match question with
  | ArgChoice instructions options =>
      i ← check_text instructions "instructions" MAX_INSTRUCTIONS_CHARS;
      match options with
      | None => invalid "options" "options must be a mapping"
      | Some items =>
          _ ← check_cardinality (len items) "options";
          os ← freeze_options items [];
          Ok (ChoiceQuestion i os)
      end
  | ArgScore instructions levels =>
      i ← check_text instructions "instructions" MAX_INSTRUCTIONS_CHARS;
      match levels with
      | None => invalid "options" "levels must be a sequence"
      | Some ls =>
          _ ← check_cardinality (len ls) "levels";
          texts ← traverse (fun l => check_text l "level" MAX_DESCRIPTION_CHARS) ls;
          Ok (ScoreQuestion i texts)
      end
  | ArgNoul instructions true_means false_means =>
      i ← check_text instructions "instructions" MAX_INSTRUCTIONS_CHARS;
      t ← check_optional_text true_means "true_means";
      f ← check_optional_text false_means "false_means";
      Ok (NoulQuestion i t f)
  | ArgForeign => invalid "type" "must be a ChoiceQuestion, ScoreQuestion or NoulQuestion"
  end.

Fixpoint freeze_questions (items : list (pyval * question_arg)) (questions : list (pystr * Question))
    : res (list (pystr * Question)) :=
  match items with
  | [] => Ok questions
  | (question_id, question) :: items' =>
      k ← check_id question_id "question id";
      q ← freeze_question question;
      freeze_questions items' (put k q questions)
  end.

Definition questions_wire (qs : list (pystr * Question)) : fjson := FMap (prod_map id question_wire <$> qs).

(** The wire dicts are new objects of the store; the state is the caller's. *)
Definition build_wire (h : heap) (state : pyval) (qs : list (pystr * Question)) : pyval * heap :=
  let '(qv, h') := thaw_json (questions_wire qs) h in
  alloc (CDict [(VStr (u "state"), state); (VStr (u "questions"), qv)]) h'.

Definition decision_limits : JSONLimits :=
  {| max_depth := Some (MAX_STATE_DEPTH + 1); max_nodes := None; max_keys := None;
     max_encoded_bytes := Some MAX_REQUEST_BYTES |}.

(** [except (JSONTypeError, JSONLimitError) as error] *)
Definition as_request_error {A} (m : res A) : res A :=
  match m with
  | Raise (JSONTypeError rule msg) | Raise (JSONLimitError rule msg) => Raise (DecisionRequestInvalid rule msg)
  | m => m
  end.

Section Validation.
(** [sys.get_int_max_str_digits()] *)
Variable msd : Z.

Definition validate_decision_request (h : heap) (request : dyn DecisionRequest)
    : res ValidatedDecisionRequest :=
  match request with
  | Foreign => invalid "type" "expected DecisionRequest"
  | Inst r =>
      match dq_questions r with
      | None => invalid "questions" "questions must be a mapping"
      | Some items =>
          _ ← refuse_if (negb ((1 <=? len items) && (len items <=? MAX_QUESTIONS))) "questions"
                "a request must have between 1 and 64 questions";
          qs ← freeze_questions items [];
          let '(root, h') := build_wire h (dq_state r) qs in
          '(wire, size) ← as_request_error (freeze_json h' decision_limits default_validators msd root);
          match wire, size with
          | FMap ((_, state) :: _), Some n => Ok (MkValidated state qs wire n)
          | _, _ => Raise (TypeError "unreachable assertion")
          end
      end
  end.

(** The [canonical_json] property. *)
Definition canonical_json (v : ValidatedDecisionRequest) : res (list Z) := canonical_json_bytes msd (vd_wire v).
End Validation.

(** ** Answers, results and errors *)

Inductive Answer : Type :=
| ChoiceAnswer (choice : pystr) (probabilities : list (pystr * pyfloat))
| ScoreAnswer (score : pyfloat) (probabilities : list pyfloat)
| NoulAnswer (p_true : pyfloat).

Record DecisionResult := MkDecisionResult {
  ds_answers : list (pystr * Answer);
  ds_vendor : pystr;
  ds_route : pystr;
  ds_model : pystr;
  ds_thresholds : list (pystr * pyfloat);
  ds_calibrated : option bool;
  ds_input_tokens : option Z;
  ds_duration_ms : Z
}.

Record DecisionModelInfo := MkDecisionModelInfo {
  dm_id : pystr;
  dm_vendor : pystr;
  dm_route : pystr;
  dm_context_limit : option Z;
  dm_max_questions : option Z;
  dm_max_options : option Z;
  dm_max_request_bytes : option Z;
  dm_parallel_questions : option bool;
  dm_created_at : option pystr
}.

Inductive UnavailableReason : Type :=
| DISABLED | SELECTOR_CONFLICT | NO_ROUTE | NO_LOCAL_ROUTE | NO_CANDIDATE.

Inductive RejectionReason : Type :=
| NO_MODELS | AMBIGUOUS_MODEL | NOT_CALIBRATED | NO_FIT | UNVERIFIED_PIN | NOT_SERVED | PIN_CONFLICT.

Record RouteRejection := MkRouteRejection {
  rr_route : pystr;
  rr_reason : RejectionReason;
  rr_model : option pystr;
  rr_detail : option pystr
}.
