(* ===== verification/DecisionsProps.v ===== *)
(** * Properties of decision requests

    When exactly a request is accepted, what an accepted snapshot guarantees
    to an adapter, and that nothing but [DecisionRequestInvalid] escapes. *)

From stdpp Require Import gmap.
From S2P Require Export Decisions.

(** ** Frozen questions are well formed *)

Definition id_ok (s : pystr) : Prop := re_match ID_PATTERN s = true.

(** Text that says something, within its bound. *)
Definition text_within (max_chars : Z) (s : pystr) : Prop := strip s <> [] /\ len s <= max_chars.

Definition opt_within (o : option pystr) : Prop := forall s, o = Some s -> text_within MAX_DESCRIPTION_CHARS s.

Definition options_count (n : nat) : Prop := MIN_OPTIONS <= Z.of_nat n <= MAX_OPTIONS.

Definition question_wf (q : Question) : Prop :=
  match q with
  | ChoiceQuestion i os =>
      text_within MAX_INSTRUCTIONS_CHARS i /\ options_count (length os) /\ NoDup os.*1
      /\ Forall id_ok os.*1 /\ Forall opt_within os.*2
  | ScoreQuestion i ls =>
      text_within MAX_INSTRUCTIONS_CHARS i /\ options_count (length ls)
      /\ Forall (text_within MAX_DESCRIPTION_CHARS) ls
  | NoulQuestion i t f => text_within MAX_INSTRUCTIONS_CHARS i /\ opt_within t /\ opt_within f
  end.

Lemma refuse_Ok b rule m x : refuse_if b rule m = Ok x <-> b = false.
Proof. apply raise_if_Ok. Qed.

Lemma check_id_Ok v what s : check_id v what = Ok s <-> v = VStr s /\ id_ok s.
Proof.
  unfold check_id, id_ok. destruct v as [| | | |t| |]; try (split; [done|by intros [? _]]).
  rewrite bind_Ok. setoid_rewrite refuse_Ok. setoid_rewrite negb_false_iff.
  split; [by intros (_ & ? & [= <-])|]. intros [[= ->] ?]. by exists tt.
Qed.

Lemma check_text_Ok v what n s : check_text v what n = Ok s <-> v = VStr s /\ text_within n s.
Proof.
  unfold check_text, text_within. destruct v as [| | | |t| |]; try (split; [done|by intros [? _]]).
  assert (Hs : (len (strip t) =? 0) = false <-> strip t <> []).
  { rewrite Z.eqb_neq. unfold len. destruct (strip t); cbn; (split; [try done|try lia; done]). }
  split.
  - intros H. inv_ok. apply refuse_Ok in Hm, Hm0. apply Hs in Hm. bool_hyps. done.
  - intros [[= ->] [H1 H2]]. apply bind_Ok. exists tt. split; [by apply refuse_Ok, Hs|].
    apply bind_Ok. exists tt. split; [apply refuse_Ok; lia|done].
Qed.

Lemma check_optional_Ok v what o :
  check_optional_text v what = Ok o -> opt_within o /\ v = match o with Some s => VStr s | None => VNone end.
Proof.
  intros H. destruct v; cbn [check_optional_text] in H;
    try (apply bind_Ok in H as (t & Ht & H); apply check_text_Ok in Ht as [Hv Ht];
         first [discriminate Hv | injection Hv as ->; injection H as <-]).
  - injection H as <-. by split.
  - split; [|done]. intros x Hx. by injection Hx as <-.
Qed.

Lemma put_fresh {A} k (v : A) l : k ∉ l.*1 -> put k v l = l ++ [(k, v)].
Proof.
  induction l as [|[k' v'] l IH]; [done|]. cbn. intros Hk. rewrite not_elem_of_cons in Hk. destruct Hk.
  rewrite decide_False by done. by rewrite IH.
Qed.

(** Loops that [put] checked entries of a mapping keep its order. *)
Lemma freeze_options_Ok items os r :
  NoDup items.*1 -> (forall k, k ∈ os.*1 -> VStr k ∉ items.*1) -> freeze_options items os = Ok r ->
  exists new, r = os ++ new /\ length new = length items /\ items.*1 = VStr <$> new.*1
    /\ Forall id_ok new.*1 /\ Forall opt_within new.*2.
Proof.
  revert os; induction items as [|[k d] items IH]; intros os Hn Hos H.
  - injection H as <-. exists []. rewrite app_nil_r. split_and!; done || constructor.
  - cbn in Hn. apply list.NoDup_cons in Hn as [Hk Hn]. cbn [freeze_options] in H. inv_ok.
    apply check_id_Ok in Hm as [-> Hid]. apply check_optional_Ok in Hm0 as [Ho _].
    rewrite put_fresh in H by (intros Hin; apply (Hos _ Hin); cbn; left).
    apply IH in H as (new & -> & Hl & Hkeys & Hids & Hws); [| done|].
    + exists ((r0, r1) :: new). rewrite <- app_assoc. cbn. split_and!; [done|by f_equal|by f_equal|..];
        by constructor.
    + intros k Hin. rewrite fmap_app in Hin. apply elem_of_app in Hin as [Hin|Hin].
      * intros Hi. apply (Hos k Hin). cbn. by right.
      * apply list_elem_of_singleton in Hin as ->. done.
Qed.

Lemma freeze_question_wf a q :
  (forall i items, a = ArgChoice i (Some items) -> NoDup items.*1) ->
  freeze_question a = Ok q -> question_wf q.
Proof.
  intros Hd H. destruct a as [i [items|]|i [ls|]|i t f|]; cbn [freeze_question] in H; inv_ok; try done.
  - apply check_text_Ok in Hm as [-> ?]. apply refuse_Ok in Hm0. bool_hyps.
    specialize (Hd _ _ eq_refl). apply freeze_options_Ok in Hm1 as (new & Heq & Hl & Hk & Hid & Ho); [|done|cbn; set_solver].
    cbn in Heq. subst. unfold len in *. cbn. rewrite Hk in Hd.
    apply (NoDup_fmap_1 VStr) in Hd. unfold options_count. rewrite Hl. split_and!; done || lia.
  - apply check_text_Ok in Hm as [-> ?]. apply refuse_Ok in Hm0. bool_hyps.
    apply traverse_Ok in Hm1 as HF. cbn. unfold options_count, len in *.
    rewrite <- (list.Forall2_length _ _ _ HF). split_and!; [done|lia|lia|].
    clear -HF. induction HF as [|x y l k Hxy _ IH]; [constructor|]. constructor; [|done].
    by apply check_text_Ok in Hxy as [_ ?].
  - apply check_text_Ok in Hm as [-> ?]. apply check_optional_Ok in Hm0 as [? _], Hm1 as [? _]. done.
Qed.

(** Every mapping the request carries has distinct keys. *)
Definition arg_wf (a : question_arg) : Prop :=
  match a with ArgChoice _ (Some items) => NoDup items.*1 | _ => True end.

Definition request_mappings (r : DecisionRequest) : Prop :=
  forall items, dq_questions r = Some items -> NoDup items.*1 /\ Forall arg_wf items.*2.

Lemma freeze_questions_Ok items qs r :
  NoDup items.*1 -> Forall arg_wf items.*2 -> (forall k, k ∈ qs.*1 -> VStr k ∉ items.*1) ->
  freeze_questions items qs = Ok r ->
  exists new, r = qs ++ new /\ length new = length items /\ items.*1 = VStr <$> new.*1
    /\ Forall id_ok new.*1 /\ Forall question_wf new.*2.
Proof.
  revert qs; induction items as [|[k a] items IH]; intros qs Hn Hw Hqs H.
  - injection H as <-. exists []. rewrite app_nil_r. split_and!; done || constructor.
  - cbn in Hn, Hw. apply list.NoDup_cons in Hn as [Hk Hn]. apply list.Forall_cons in Hw as [Ha Hw].
    cbn [freeze_questions] in H. inv_ok. apply check_id_Ok in Hm as [-> Hid].
    apply freeze_question_wf in Hm0; [|by intros ? ? ->].
    rewrite put_fresh in H by (intros Hin; apply (Hqs _ Hin); cbn; left).
    apply IH in H as (new & -> & Hl & Hkeys & Hids & Hws); [|done|done|].
    + exists ((r0, r1) :: new). rewrite <- app_assoc. cbn. split_and!; [done|by f_equal|by f_equal|..];
        by constructor.
    + intros k Hin. rewrite fmap_app in Hin. apply elem_of_app in Hin as [Hin|Hin].
      * intros Hi. apply (Hqs k Hin). cbn. by right.
      * apply list_elem_of_singleton in Hin as ->. done.
Qed.

Lemma freeze_questions_wf items qs :
  NoDup items.*1 -> Forall arg_wf items.*2 -> freeze_questions items [] = Ok qs ->
  length qs = length items /\ NoDup qs.*1 /\ Forall id_ok qs.*1 /\ Forall question_wf qs.*2.
Proof.
  intros Hn Hw H. apply freeze_questions_Ok in H as (new & -> & Hl & Hk & ? & ?); [|done|done|cbn; set_solver].
  rewrite Hk in Hn. by apply (NoDup_fmap_1 VStr) in Hn.
Qed.

(** ** The wire form *)

Definition wire_of (state : fjson) (qs : list (pystr * Question)) : fjson :=
  FMap [(u "state", state); (u "questions", questions_wire qs)].

Lemma opt_wire_scalar o : keys_distinct (opt_text_json o) /\ depth_of (opt_text_json o) = 0.
Proof. by destruct o. Qed.

Lemma keys_distinct_map ts : NoDup ts.*1 -> Forall keys_distinct ts.*2 -> keys_distinct (FMap ts).
Proof.
  intros Hn Hf. split; [done|]. clear Hn. induction ts as [|[k t] ts IH]; [done|].
  cbn in Hf. apply list.Forall_cons in Hf as [? ?]. cbn. auto.
Qed.

Lemma keys_distinct_tuple ts : Forall keys_distinct ts -> keys_distinct (FTuple ts).
Proof. intros Hf. cbn. induction Hf; cbn; auto. Qed.

Lemma depth_map_le n ts : Forall (fun t => depth_of t <= n) ts.*2 -> 0 <= n -> depth_of (FMap ts) <= n + 1.
Proof.
  intros Hf Hn. cbn. induction ts as [|[k t] ts IH]; cbn; [lia|].
  cbn in Hf. apply list.Forall_cons in Hf as [? ?]. specialize (IH ltac:(done)). lia.
Qed.

Lemma depth_tuple_le n ts : Forall (fun t => depth_of t <= n) ts -> 0 <= n -> depth_of (FTuple ts) <= n + 1.
Proof. intros Hf Hn. cbn. induction Hf; cbn; lia. Qed.

Lemma fmap_keys {A B} (f : A -> B) (l : list (pystr * A)) : (prod_map id f <$> l).*1 = l.*1.
Proof. induction l as [|[k a] l IH]; [done|]. cbn. by rewrite IH. Qed.

Lemma fmap_values {A B} (f : A -> B) (l : list (pystr * A)) : (prod_map id f <$> l).*2 = f <$> l.*2.
Proof. induction l as [|[k a] l IH]; [done|]. cbn. by rewrite IH. Qed.

Lemma question_wire_shape q : question_wf q -> keys_distinct (question_wire q) /\ depth_of (question_wire q) <= 2.
Proof.
  assert (Hk : forall ks : list pystr, no_dup ks = true -> NoDup ks) by (intros ks; apply no_dup_true).
  intros Hq. destruct q as [i os|i ls|i t f]; cbn [question_wire].
  - destruct Hq as (_ & _ & Hn & _ & _).
    assert (Hd : depth_of (FMap (prod_map id opt_text_json <$> os)) <= 0 + 1).
    { apply depth_map_le; [|done]. rewrite fmap_values. apply Forall_fmap, list.Forall_forall.
      intros o _. cbn. by rewrite (proj2 (opt_wire_scalar o)). }
    split.
    + apply keys_distinct_map; [by apply Hk|]. repeat constructor.
      * by rewrite fmap_keys.
      * assert (HF : Forall keys_distinct (prod_map id opt_text_json <$> os).*2).
        { rewrite fmap_values. apply Forall_fmap, list.Forall_forall. intros o _. apply opt_wire_scalar. }
        apply keys_distinct_map in HF as [_ HF]; [done|by rewrite fmap_keys].
    + apply (depth_map_le 1); [|done]. repeat (apply list.Forall_cons; split); [done|done|exact Hd|constructor].
  - assert (Hf : Forall (fun t => depth_of t <= 0) (FStr <$> ls)).
    { apply Forall_fmap, list.Forall_forall. intros ? _. cbn. lia. }
    split.
    + apply keys_distinct_map; [by apply Hk|]. cbn [snd fmap list_fmap].
      repeat (apply list.Forall_cons; split); [done|done| |constructor].
      apply keys_distinct_tuple, Forall_fmap, list.Forall_forall. done.
    + apply (depth_map_le 1); [|done]. repeat (apply list.Forall_cons; split); [done|done| |constructor].
      by apply (depth_tuple_le 0).
  - destruct (bool_decide (t = None) && bool_decide (f = None)); cbn [app].
    { split; [|done]. apply keys_distinct_map; [by apply Hk|]. by repeat constructor. }
    split.
    + apply keys_distinct_map; [by apply Hk|]. cbn [snd fmap list_fmap].
      repeat (apply list.Forall_cons; split); [done|done| |constructor].
      apply keys_distinct_map; [by apply Hk|]. cbn [snd fmap list_fmap].
      repeat (apply list.Forall_cons; split); [apply opt_wire_scalar..|constructor].
    + apply (depth_map_le 1); [|done]. cbn [snd fmap list_fmap].
      repeat (apply list.Forall_cons; split); [done|done| |constructor].
      apply (depth_map_le 0); [|done]. cbn [snd fmap list_fmap].
      repeat (apply list.Forall_cons; split); [rewrite (proj2 (opt_wire_scalar _)); lia..|constructor].
Qed.

Lemma questions_wire_shape qs :
  NoDup qs.*1 -> Forall question_wf qs.*2 ->
  keys_distinct (questions_wire qs) /\ 0 <= depth_of (questions_wire qs) <= 3.
Proof.
  intros Hn Hw. unfold questions_wire. split.
  - apply keys_distinct_map; [by rewrite fmap_keys|]. rewrite fmap_values. apply Forall_fmap.
    eapply list.Forall_impl; [exact Hw|]. intros q Hq. by apply question_wire_shape.
  - split; [|apply (depth_map_le 2); [|done]].
    + cbn. induction (prod_map id question_wire <$> qs) as [|[k t] ts IH]; cbn; lia.
    + rewrite fmap_values. apply Forall_fmap.
      eapply list.Forall_impl; [exact Hw|]. intros q Hq. by apply question_wire_shape.
Qed.

(** ** The store *)

(** Every container reachable from [v] is an object of the store. *)
Definition closed (h : heap) (v : pyval) : Prop := forall l, rtc (child h) v (VRef l) -> is_Some (h !! l).

Lemma closed_child h v v' : closed h v -> child h v v' -> closed h v'.
Proof. intros Hc Hv l Hl. apply Hc. by eapply rtc_l. Qed.

(** A larger store gives no new meaning to a value of the smaller one. *)
Lemma unfolds_shrink h h' v t : h ⊆ h' -> closed h v -> unfolds h' v t -> unfolds h v t.
Proof.
  intros Hsub; revert v; induction t as [t Ht | ts IH | ts IH] using fjson_tree_ind; intros v Hc Hu.
  - destruct t; try done; inversion Hu; subst; constructor.
  - inversion Hu as [| | | | |l items ts' Hl HF|]; subst.
    destruct (Hc l (rtc_refl _ _)) as [c Hlc].
    assert (Heq : h' !! l = Some c) by (by eapply lookup_weaken). rewrite Hl in Heq. injection Heq as <-.
    apply (unfolds_seq _ _ items); [done|].
    assert (Hci : Forall (closed h) items).
    { apply list.Forall_forall. intros x Hx. eapply closed_child; [exact Hc|]. by eapply child_seq. }
    clear -IH HF Hci. induction HF; [done|]. apply list.Forall_cons in IH as [], Hci as []. constructor; eauto.
  - inversion Hu as [| | | | | |l items ts' Hl HF]; subst.
    destruct (Hc l (rtc_refl _ _)) as [c Hlc].
    assert (Heq : h' !! l = Some c) by (by eapply lookup_weaken). rewrite Hl in Heq. injection Heq as <-.
    apply (unfolds_dict _ _ items); [done|].
    assert (Hci : Forall (fun kv => closed h kv.2) items).
    { apply list.Forall_forall. intros [k x] Hx. eapply closed_child; [exact Hc|]. by eapply child_dict. }
    clear -IH HF Hci. induction HF as [|? ? ? ? [? ?]]; [done|].
    apply list.Forall_cons in IH as [], Hci as []. constructor; [split|]; eauto.
Qed.

(** What the wire dicts denote once they are built. *)
Lemma build_wire_spec h state qs root h' :
  heap_wf h -> keys_distinct (questions_wire qs) -> build_wire h state qs = (root, h') ->
  h ⊆ h' /\ heap_wf h'
  /\ (forall t, closed h state -> unfolds h state t -> unfolds h' root (wire_of t qs))
  /\ (forall w, closed h state -> unfolds h' root w -> exists t, w = wire_of t qs /\ unfolds h state t).
Proof.
  intros Hwf Hk Hb. unfold build_wire in Hb. destruct (thaw_json (questions_wire qs) h) as [qv h1] eqn:Ht.
  destruct (thaw_json_thaws _ Hk _ _ _ Hwf Ht) as (Hs1 & Hwf1 & Hq).
  apply alloc_spec in Hb as (Hs2 & l & -> & -> & Hl).
  assert (Hs : h ⊆ <[l:=CDict [(VStr (u "state"), state); (VStr (u "questions"), qv)]]> h1) by by etrans.
  split_and!; [done| | |].
  - apply heap_wf_alloc; [done|]. intros items [= <-]. apply no_dup_true. by vm_compute.
  - intros t _ Hu. eapply unfolds_dict; [apply lookup_insert_eq|].
    constructor; [split; [done|exact (unfolds_mono _ _ _ _ Hs Hu)]|].
    constructor; [split; [done|exact (unfolds_mono _ _ _ _ Hs2 Hq)]|constructor].
  - intros w Hc Hu.
    set (items := [(VStr (u "state"), state); (VStr (u "questions"), qv)]) in *.
    assert (Hts : exists ts, w = FMap ts /\ Forall2 (fun kv kt => kv.1 = VStr kt.1 /\
              unfolds (<[l:=CDict items]> h1) kv.2 kt.2) items ts).
    { assert (Hl' : <[l:=CDict items]> h1 !! l = Some (CDict items)) by apply lookup_insert_eq.
      inversion Hu as [| | | | |l0 it0 ts H0 HF|l0 it0 ts H0 HF]; subst; rewrite Hl' in H0; [done|].
      injection H0 as <-. eauto. }
    destruct Hts as (ts & -> & HF). unfold items in HF.
    apply list.Forall2_cons_inv_l in HF as ([k1 t] & ts1 & [Hk1 Hu1] & HF & ->).
    apply list.Forall2_cons_inv_l in HF as ([k2 qt] & ts2 & [Hk2 Hu2] & HF & ->).
    apply Forall2_nil_inv_l in HF as ->. cbn in Hk1, Hk2, Hu1, Hu2. injection Hk1 as <-. injection Hk2 as <-.
    exists t. split; [|by eapply unfolds_shrink].
    unfold wire_of. do 3 f_equal. assert (qt = questions_wire qs) as ->; [|done].
    eapply unfolds_functional; [exact Hu2|]. exact (unfolds_mono _ _ _ _ Hs2 Hq).
Qed.

Lemma as_request_error_Ok {A} (m : res A) a : as_request_error m = Ok a <-> m = Ok a.
Proof. destruct m as [b|[]]; done. Qed.

Lemma decision_limits_ok : limits_ok decision_limits.
Proof. done. Qed.

Lemma wire_depth t qs :
  0 <= depth_of (questions_wire qs) <= 3 ->
  over (Some (MAX_STATE_DEPTH + 1)) (depth_of (wire_of t qs)) = false <-> depth_of t <= MAX_STATE_DEPTH.
Proof.
  intros Hq. unfold over, wire_of, MAX_STATE_DEPTH. rewrite Z.ltb_ge.
  change (depth_of (FMap [(u "state", t); (u "questions", questions_wire qs)]))
    with (Z.max (1 + depth_of t) (Z.max (1 + depth_of (questions_wire qs)) 0)). lia.
Qed.

(** The frozen snapshot of a request, and what it must satisfy. *)
Record accepted_request (msd : Z) (h : heap) (r : DecisionRequest) (v : ValidatedDecisionRequest) : Prop :=
  AcceptedRequest {
  ar_items : exists items, dq_questions r = Some items /\ 1 <= len items <= MAX_QUESTIONS
             /\ freeze_questions items [] = Ok (vd_questions v);
  ar_state : unfolds h (dq_state r) (vd_state v);
  ar_wire : vd_wire v = wire_of (vd_state v) (vd_questions v);
  ar_finite : accepted default_validators (vd_wire v);
  ar_depth : depth_of (vd_state v) <= MAX_STATE_DEPTH;
  ar_bytes : c_bytes (cost_of (vd_wire v)) <= MAX_REQUEST_BYTES;
  ar_encodable : encodable msd (vd_wire v);
  ar_size : vd_encoded_bytes v = c_bytes (cost_of (vd_wire v))
}.

Lemma wire_within t qs :
  0 <= depth_of (questions_wire qs) <= 3 ->
  within decision_limits (wire_of t qs) <->
  depth_of t <= MAX_STATE_DEPTH /\ c_bytes (cost_of (wire_of t qs)) <= MAX_REQUEST_BYTES.
Proof.
  intros Hq. unfold within. change (max_depth decision_limits) with (Some (MAX_STATE_DEPTH + 1)).
  rewrite (wire_depth t qs Hq).
  assert (Hb : over (max_encoded_bytes decision_limits) (c_bytes (cost_of (wire_of t qs))) = false
          <-> c_bytes (cost_of (wire_of t qs)) <= MAX_REQUEST_BYTES) by apply Z.ltb_ge.
  rewrite Hb. split; [by intros (? & _ & _ & ?)|by intros [? ?]].
Qed.

Lemma validate_decision_Ok msd h r v :
  heap_wf h -> closed h (dq_state r) -> request_mappings r ->
  validate_decision_request msd h (Inst r) = Ok v <-> accepted_request msd h r v.
Proof.
  intros Hwf Hc Hm. unfold validate_decision_request.
  assert (Hq : forall items qs, dq_questions r = Some items -> freeze_questions items [] = Ok qs ->
          keys_distinct (questions_wire qs) /\ 0 <= depth_of (questions_wire qs) <= 3).
  { intros items qs Hi Hf. destruct (Hm items Hi) as [Hn Hw].
    destruct (freeze_questions_wf _ _ Hn Hw Hf) as (_ & ? & _ & ?). by apply questions_wire_shape. }
  split.
  - intros H. destruct (dq_questions r) as [items|] eqn:Hi; [|done].
    apply bind_Ok in H as ([] & Hm0 & H). apply refuse_Ok in Hm0. bool_hyps.
    apply bind_Ok in H as (qs & Hm1 & H).
    destruct (Hq items qs eq_refl Hm1) as [Hkd Hdq].
    destruct (build_wire h (dq_state r) qs) as [root h'] eqn:Hb.
    destruct (build_wire_spec _ _ _ _ _ Hwf Hkd Hb) as (_ & Hwf' & _ & Hu).
    apply bind_Ok in H as ([w n] & Hm2 & H).
    apply (proj1 (as_request_error_Ok _ _)) in Hm2. apply freeze_json_Ok in Hm2 as (Hun & Hacc & Hwi & Henc & Hn);
      [|apply _|done|apply decision_limits_ok].
    destruct (Hu w Hc Hun) as (t & -> & Hst). apply wire_within in Hwi as [Hd Hby]; [|done].
    cbn in H. subst n. injection H as <-. split; cbn [vd_questions vd_state vd_wire vd_encoded_bytes]; try done.
    + exists items. done.
    + apply Henc. eexists. done.
  - intros [(items & Hi & Hcnt & Hf) Hst Hw Hfin Hd Hby Henc Hsz]. rewrite Hi.
    destruct (Hq items _ Hi Hf) as [Hkd Hdq].
    apply bind_Ok. exists tt. split; [apply refuse_Ok; unfold MAX_QUESTIONS in *; lia|].
    rewrite Hf. cbn [mbind result_bind].
    destruct (build_wire h (dq_state r) (vd_questions v)) as [root h'] eqn:Hb.
    destruct (build_wire_spec _ _ _ _ _ Hwf Hkd Hb) as (_ & Hwf' & Hu & _).
    apply bind_Ok. exists (vd_wire v, Some (vd_encoded_bytes v)). split.
    + apply (proj2 (as_request_error_Ok _ _)), freeze_json_Ok; [apply _|done|apply decision_limits_ok|].
      rewrite Hw in *. split_and!; [by apply Hu|done|by apply wire_within|done|by rewrite Hsz].
    + rewrite Hw. cbn. destruct v; cbn in *. by subst.
Qed.

(** ** Errors *)

Definition request_error (e : exn) : Prop := exists rule m, e = DecisionRequestInvalid rule m.

Definition only_invalid {A} (m : res A) : Prop := forall e, m = Raise e -> request_error e.

Lemma only_invalid_bind {A B} (m : res A) (f : A -> res B) :
  only_invalid m -> (forall a, only_invalid (f a)) -> only_invalid (m ≫= f).
Proof. intros Hm Hf e He. apply bind_Raise in He as [He|(a & _ & He)]; [by apply Hm|by eapply Hf]. Qed.

Lemma only_invalid_Ok {A} (a : A) : only_invalid (Ok a : res A).
Proof. done. Qed.

Lemma only_invalid_raise {A} rule m : only_invalid (invalid rule m : res A).
Proof. intros e [= <-]. by do 2 eexists. Qed.

Lemma only_invalid_refuse b rule m : only_invalid (refuse_if b rule m).
Proof. intros e He. apply raise_if_Raise in He as [_ <-]. by do 2 eexists. Qed.

#[export] Hint Resolve only_invalid_bind only_invalid_Ok only_invalid_raise only_invalid_refuse : kestrel.

Lemma only_invalid_check_id v w : only_invalid (check_id v w).
Proof. destruct v; cbn; eauto with kestrel. Qed.

Lemma only_invalid_check_text v w n : only_invalid (check_text v w n).
Proof. destruct v; cbn; eauto with kestrel. Qed.

#[export] Hint Resolve only_invalid_check_id only_invalid_check_text : kestrel.

Lemma only_invalid_optional v w : only_invalid (check_optional_text v w).
Proof. destruct v; cbn [check_optional_text]; eauto with kestrel. Qed.

#[export] Hint Resolve only_invalid_optional : kestrel.

Lemma only_invalid_options items os : only_invalid (freeze_options items os).
Proof.
  revert os; induction items as [|[k d] items IH]; intros os; cbn [freeze_options]; eauto with kestrel.
Qed.

Lemma only_invalid_traverse {A B} (f : A -> res B) l :
  (forall a, only_invalid (f a)) -> only_invalid (traverse f l).
Proof. intros Hf. induction l as [|x l IH]; cbn [traverse]; eauto with kestrel. Qed.

#[export] Hint Resolve only_invalid_options only_invalid_traverse : kestrel.

Lemma only_invalid_question a : only_invalid (freeze_question a).
Proof.
  destruct a as [i [items|]|i [ls|]|i t f|]; cbn [freeze_question]; unfold check_cardinality;
    eauto 8 with kestrel.
Qed.

#[export] Hint Resolve only_invalid_question : kestrel.

Lemma only_invalid_questions items qs : only_invalid (freeze_questions items qs).
Proof.
  revert qs; induction items as [|[k a] items IH]; intros qs; cbn [freeze_questions]; eauto 6 with kestrel.
Qed.

#[export] Instance default_raises_json :
  RaisesOnly (fun e => exists rule m, e = JSONTypeError rule m \/ e = JSONLimitError rule m) default_validators.
Proof.
  split; try (intros rule m; exists rule, m; auto); try done.
  intros [] e [= <-]; by do 2 eexists; left.
Qed.

Lemma only_invalid_freeze h limits msd v :
  only_invalid (as_request_error (freeze_json h limits default_validators msd v)).
Proof.
  intros e He. destruct (freeze_json h limits default_validators msd v) as [r|e'] eqn:Hf; [done|].
  apply (freeze_json_errors
    (fun e => exists rule m, e = JSONTypeError rule m \/ e = JSONLimitError rule m)) in Hf
    as (rule & m & [-> | ->]); [| |apply _]; injection He as <-; by do 2 eexists.
Qed.

(** ** The development's main properties *)

(** A decision request is accepted exactly when it has between 1 and 64
    questions, each of which freezes; its state denotes a finite JSON tree at
    most 64 levels deep; and the whole wire form has finite printable numbers,
    valid Unicode and at most 1 MiB of encoded bytes.  The snapshot is then
    determined: that tree, the frozen questions, the wire form built of both,
    and its byte measure. *)
Theorem validate_decision_request_exact msd h r v
    (Hwf : heap_wf h) (Hc : closed h (dq_state r)) (Hm : request_mappings r) :
  validate_decision_request msd h (Inst r) = Ok v <-> accepted_request msd h r v.
Proof. by apply validate_decision_Ok. Qed.

(** C40. What an adapter may rely on: every question of an accepted snapshot
    has a distinct well-formed identifier, text within its bounds and between
    2 and 26 options or levels, and [canonical_json] never fails: it is the
    wire form's encoding, of exactly [encoded_bytes] bytes, at most 1 MiB. *)
Theorem decision_snapshot_invariant msd h r v
    (Hwf : heap_wf h) (Hc : closed h (dq_state r)) (Hm : request_mappings r)
    (Hv : validate_decision_request msd h (Inst r) = Ok v) :
  1 <= len (vd_questions v) <= MAX_QUESTIONS /\ NoDup (vd_questions v).*1
  /\ Forall id_ok (vd_questions v).*1 /\ Forall question_wf (vd_questions v).*2
  /\ exists bs, canonical_json msd v = Ok bs /\ len bs = vd_encoded_bytes v
                /\ vd_encoded_bytes v <= MAX_REQUEST_BYTES.
Proof.
  apply validate_decision_Ok in Hv as [(items & Hi & Hn & Hf) _ _ _ _ Hb He Hs]; [|done..].
  destruct (Hm items Hi) as [Hnd Hw]. destruct (freeze_questions_wf _ _ Hnd Hw Hf) as (Hl & ? & ? & ?).
  split; [unfold len in *; lia|]. split_and!; [done..|].
  destruct (encodable_encodes _ _ He) as (bs & Hbs & Hlen).
  exists bs. unfold canonical_json, canonical_json_bytes. rewrite (encodable_printable _ _ He), Hbs.
  split_and!; [done|congruence|congruence].
Qed.

(** Every violation surfaces as [DecisionRequestInvalid] naming a rule:
    whatever the caller passes, cyclic or foreign values included, validation
    raises nothing else and its final assertion cannot fail. *)
Theorem decision_errors_only_invalid msd h request e
    (Hwf : heap_wf h)
    (Hr : forall r, request = Inst r -> closed h (dq_state r) /\ request_mappings r)
    (He : validate_decision_request msd h request = Raise e) :
  exists rule m, e = DecisionRequestInvalid rule m.
Proof.
  destruct request as [r|]; [|injection He as <-; by do 2 eexists].
  destruct (Hr r eq_refl) as [Hc Hm]. cbn [validate_decision_request] in He.
  destruct (dq_questions r) as [items|] eqn:Hi; [|injection He as <-; by do 2 eexists].
  apply bind_Raise in He as [He|([] & _ & He)]; [by eapply only_invalid_refuse|].
  apply bind_Raise in He as [He|(qs & Hq & He)]; [by eapply only_invalid_questions|].
  destruct (Hm items Hi) as [Hn Hw]. destruct (freeze_questions_wf _ _ Hn Hw Hq) as (_ & Hnd & _ & Hqw).
  destruct (questions_wire_shape qs Hnd Hqw) as [Hkd _].
  destruct (build_wire h (dq_state r) qs) as [root h'] eqn:Hb.
  destruct (build_wire_spec _ _ _ _ _ Hwf Hkd Hb) as (_ & Hwf' & _ & Hu).
  apply bind_Raise in He as [He|([w n] & Hf & He)]; [by eapply only_invalid_freeze|].
  apply (proj1 (as_request_error_Ok _ _)) in Hf. apply freeze_json_Ok in Hf as (Hun & _ & _ & _ & Hsz);
    [|apply _|done|apply decision_limits_ok].
  destruct (Hu w Hc Hun) as (t & -> & _). cbn in Hsz. by subst n.
Qed.

(** ** A concrete request *)

Definition decision_heap : heap :=
  {[ 1%positive := CDict [(VStr (u "text"), VStr (u "hello")); (VStr (u "n"), VInt 3)] ]}.

Definition decision_request : DecisionRequest :=
  MkDecisionRequest (VRef 1%positive)
    (Some [(VStr (u "spam"), ArgNoul (VStr (u "Is it spam?")) VNone (VStr (u "a normal message")));
           (VStr (u "tone"), ArgChoice (VStr (u "Which tone?"))
                               (Some [(VStr (u "warm"), VNone); (VStr (u "cold"), VStr (u "distant"))]))]).

Lemma decision_heap_closed : closed decision_heap (VRef 1%positive).
Proof.
  assert (Hch : forall v, child decision_heap (VRef 1%positive) v -> forall v', ~ child decision_heap v v').
  { intros v Hv v' Hv'. inversion Hv as [l items x Hl Hin|l items k x Hl Hin]; subst.
    - unfold decision_heap in Hl. by rewrite lookup_singleton_eq in Hl.
    - unfold decision_heap in Hl. rewrite lookup_singleton_eq in Hl. injection Hl as <-.
      apply elem_of_cons in Hin as [[= -> ->]|Hin]; [inversion Hv'|].
      apply list_elem_of_singleton in Hin as [= -> ->]. inversion Hv'. }
  intros l Hl. apply rtc_inv in Hl as [[= <-]|(v & Hv & Hl)]; [by eexists|].
  apply rtc_inv in Hl as [->|(v' & Hv' & _)]; [|by destruct (Hch v Hv v')].
  exfalso. inversion Hv as [l' items x Hl Hin|l' items k x Hl Hin]; subst;
    unfold decision_heap in Hl; rewrite lookup_singleton_eq in Hl; [done|]. injection Hl as <-.
  apply elem_of_cons in Hin as [[=]|Hin]. by apply list_elem_of_singleton in Hin.
Qed.

Lemma decision_request_mappings : request_mappings decision_request.
Proof.
  intros items [= <-]. split; [by apply no_dup_true; vm_compute|].
  constructor; [done|]. constructor; [|constructor]. apply no_dup_true. by vm_compute.
Qed.

Lemma validate_decision_request_exact_witness :
  exists v, validate_decision_request 4300 decision_heap (Inst decision_request) = Ok v
            /\ accepted_request 4300 decision_heap decision_request v.
Proof.
  destruct (validate_decision_request 4300 decision_heap (Inst decision_request)) as [v|e] eqn:H.
  - exists v. split; [reflexivity|].
    exact (proj1 (validate_decision_request_exact 4300 decision_heap decision_request v
      (heap_wfb_wf decision_heap eq_refl) decision_heap_closed decision_request_mappings) H).
  - vm_compute in H. discriminate H.
Defined.

Lemma decision_snapshot_invariant_witness :
  exists v bs, validate_decision_request 4300 decision_heap (Inst decision_request) = Ok v
               /\ canonical_json 4300 v = Ok bs /\ len bs = vd_encoded_bytes v.
Proof.
  destruct (validate_decision_request 4300 decision_heap (Inst decision_request)) as [v|e] eqn:H.
  - destruct (decision_snapshot_invariant 4300 decision_heap decision_request v
      (heap_wfb_wf decision_heap eq_refl) decision_heap_closed decision_request_mappings H)
      as (_ & _ & _ & _ & bs & Hb & Hl & _).
    exists v, bs. split; [reflexivity|]. split; assumption.
  - vm_compute in H. discriminate H.
Defined.

Lemma decision_errors_only_invalid_witness :
  exists rule m, validate_decision_request 4300 decision_heap
    (Inst (MkDecisionRequest VNone (Some []))) = Raise (DecisionRequestInvalid rule m).
Proof.
  destruct (validate_decision_request 4300 decision_heap (Inst (MkDecisionRequest VNone (Some [])))) as [v|e] eqn:H.
  - vm_compute in H. discriminate H.
  - destruct (decision_errors_only_invalid 4300 decision_heap (Inst (MkDecisionRequest VNone (Some []))) e
      (heap_wfb_wf decision_heap eq_refl)) as (rule & m & ->).
    + intros r [= <-]. split.
      * intros l Hl. apply rtc_inv in Hl as [[=]|(v & Hv & _)]. inversion Hv.
      * intros items [= <-]. split; constructor.
    + exact H.
    + exists rule, m. reflexivity.
Defined.
