(* ===== verification/PayerPolicy.v ===== *)
(** * Payer policies ([kestrel_sdk/payer_policy.py])

    Who pays for which metered resource: the support matrix and its lookup,
    the checks a [PayerSpec] passes when it is built, and the validation of a
    whole [PayerPolicy] against the matrix.  Field constraints declared with
    pydantic's [Field] are enforced by pydantic, which is a parameter. *)

From S2P Require Export PyData.

(** ** The enums, in declaration order *)

Inductive ResourceClass : Type := LLM | STORAGE | COMPUTE | TOOLS | COMMS.

Inductive PayerKind : Type :=
| KIND_NONE
| HOST_ENV
| HOST_MASTER_PROVISIONED
| USER_MASTER_PROVISIONED
| USER_BYOK
| SELF_WALLET
| SPONSOR.

Inductive SupportStatus : Type := READY | NOT_IMPLEMENTED | OUT_OF_SCOPE | NOT_APPLICABLE.

#[global] Instance ResourceClass_eq_dec : EqDecision ResourceClass.
Proof. solve_decision. Defined.
#[global] Instance PayerKind_eq_dec : EqDecision PayerKind.
Proof. solve_decision. Defined.
#[global] Instance SupportStatus_eq_dec : EqDecision SupportStatus.
Proof. solve_decision. Defined.

(** [tuple(PayerKind)] *)
Definition all_kinds : list PayerKind :=
  [KIND_NONE; HOST_ENV; HOST_MASTER_PROVISIONED; USER_MASTER_PROVISIONED; USER_BYOK;
   SELF_WALLET; SPONSOR].

(** ** The support matrix *)

Abbreviation triple := (ResourceClass * pystr * PayerKind)%type.

Definition SUPPORT_MATRIX : list (triple * SupportStatus) :=
  [((LLM, u "openrouter", HOST_ENV), READY);
   ((LLM, u "openrouter", HOST_MASTER_PROVISIONED), READY);
   ((LLM, u "openrouter", USER_MASTER_PROVISIONED), READY);
   ((LLM, u "openrouter", USER_BYOK), READY);
   ((LLM, u "openrouter", SPONSOR), READY);
   ((LLM, u "openrouter", SELF_WALLET), NOT_IMPLEMENTED);
   ((LLM, u "openrouter", KIND_NONE), READY);
   ((LLM, u "local", HOST_ENV), READY);
   ((LLM, u "local", HOST_MASTER_PROVISIONED), NOT_APPLICABLE);
   ((LLM, u "local", USER_MASTER_PROVISIONED), NOT_APPLICABLE);
   ((LLM, u "local", SPONSOR), NOT_APPLICABLE);
   ((LLM, u "local", SELF_WALLET), NOT_APPLICABLE);
   ((LLM, u "local", KIND_NONE), READY);
   ((STORAGE, u "lighthouse", HOST_ENV), READY);
   ((STORAGE, u "lighthouse", HOST_MASTER_PROVISIONED), NOT_IMPLEMENTED);
   ((STORAGE, u "lighthouse", USER_MASTER_PROVISIONED), NOT_IMPLEMENTED);
   ((STORAGE, u "lighthouse", SPONSOR), NOT_IMPLEMENTED);
   ((STORAGE, u "lighthouse", SELF_WALLET), READY);
   ((STORAGE, u "lighthouse", KIND_NONE), READY);
   ((STORAGE, u "local-disk", HOST_ENV), READY);
   ((STORAGE, u "local-disk", HOST_MASTER_PROVISIONED), NOT_APPLICABLE);
   ((STORAGE, u "local-disk", USER_MASTER_PROVISIONED), NOT_APPLICABLE);
   ((STORAGE, u "local-disk", SPONSOR), NOT_APPLICABLE);
   ((STORAGE, u "local-disk", SELF_WALLET), NOT_APPLICABLE);
   ((STORAGE, u "local-disk", KIND_NONE), READY);
   ((COMPUTE, u "*", HOST_ENV), READY);
   ((COMPUTE, u "*", HOST_MASTER_PROVISIONED), OUT_OF_SCOPE);
   ((COMPUTE, u "*", USER_MASTER_PROVISIONED), OUT_OF_SCOPE);
   ((COMPUTE, u "*", SPONSOR), OUT_OF_SCOPE);
   ((COMPUTE, u "*", SELF_WALLET), OUT_OF_SCOPE);
   ((COMPUTE, u "*", KIND_NONE), READY);
   ((TOOLS, u "*", HOST_ENV), READY);
   ((TOOLS, u "*", HOST_MASTER_PROVISIONED), OUT_OF_SCOPE);
   ((TOOLS, u "*", USER_MASTER_PROVISIONED), OUT_OF_SCOPE);
   ((TOOLS, u "*", SPONSOR), OUT_OF_SCOPE);
   ((TOOLS, u "*", SELF_WALLET), OUT_OF_SCOPE);
   ((TOOLS, u "*", KIND_NONE), READY);
   ((COMMS, u "*", HOST_ENV), READY);
   ((COMMS, u "*", HOST_MASTER_PROVISIONED), OUT_OF_SCOPE);
   ((COMMS, u "*", USER_MASTER_PROVISIONED), OUT_OF_SCOPE);
   ((COMMS, u "*", SPONSOR), OUT_OF_SCOPE);
   ((COMMS, u "*", SELF_WALLET), OUT_OF_SCOPE);
   ((COMMS, u "*", KIND_NONE), READY)].

(** [SUPPORT_MATRIX.get(key)] *)
Fixpoint matrix_get (key : triple) (m : list (triple * SupportStatus)) : option SupportStatus :=
  match m with
  | [] => None
  | (k, s) :: m' => if decide (k = key) then Some s else matrix_get key m'
  end.

Definition VENDOR_WILDCARD : pystr := u "*".

Definition status_for (resource_class : ResourceClass) (vendor : pystr) (kind : PayerKind)
    : SupportStatus :=
  match matrix_get (resource_class, vendor, kind) SUPPORT_MATRIX with
  | Some concrete => concrete
  | None =>
      match matrix_get (resource_class, VENDOR_WILDCARD, kind) SUPPORT_MATRIX with
      | Some wildcard => wildcard
      | None => NOT_IMPLEMENTED
      end
  end.

Definition is_offerable (resource_class : ResourceClass) (vendor : pystr) (kind : PayerKind)
    : bool :=
  bool_decide (status_for resource_class vendor kind = READY).

Definition supported_kinds_for (resource_class : ResourceClass) (vendor : pystr)
    : list PayerKind :=
  filter (fun k => is_offerable resource_class vendor k) all_kinds.

(** ** Specs and policies *)

Record PayerSpec := MkPayerSpec {
  vendor : pystr;
  kind : PayerKind;
  master_did : option pystr;
  monthly_cap_usd : option decimal
}.

Record PayerPolicy := MkPayerPolicy {
  llm : PayerSpec;
  storage : PayerSpec;
  compute : PayerSpec;
  tools : PayerSpec;
  comms : PayerSpec
}.

(** [UnsupportedCombinationError] carries the refused combination. *)
Inductive payer_error : Type :=
| PolicyValidationError (m : string)
| Unsupported (resource_class : ResourceClass) (vendor : pystr) (kind : PayerKind)
    (status : SupportStatus).

Definition requires_master (k : PayerKind) : bool :=
  bool_decide (k = USER_MASTER_PROVISIONED \/ k = SPONSOR).

(** Python truthiness of an optional string. *)
Definition truthy (s : option pystr) : bool :=
  match s with Some (_ :: _) => true | _ => false end.

Definition check_master_did (self : PayerSpec) : result payer_error PayerSpec :=
  _ ← raise_if (requires_master (kind self) && negb (truthy (master_did self)))
        (PolicyValidationError "requires master_did to identify the principal funding the agent");
  _ ← raise_if (negb (requires_master (kind self)) && bool_decide (is_Some (master_did self)))
        (PolicyValidationError "must NOT set master_did");
  _ ← raise_if (bool_decide (kind self = USER_BYOK) && bool_decide (is_Some (monthly_cap_usd self)))
        (PolicyValidationError "PayerSpec(kind=user_byok) must NOT set monthly_cap_usd");
  Ok self.

Definition spec_validate_against_matrix (self : PayerSpec) (resource_class : ResourceClass)
    : result payer_error unit :=
  let status := status_for resource_class (vendor self) (kind self) in
  raise_if (negb (bool_decide (status = READY)))
    (Unsupported resource_class (vendor self) (kind self) status).

Definition iter_specs (self : PayerPolicy) : list (ResourceClass * PayerSpec) :=
  [(LLM, llm self); (STORAGE, storage self); (COMPUTE, compute self);
   (TOOLS, tools self); (COMMS, comms self)].

Definition validate_against_matrix (self : PayerPolicy) : result payer_error unit :=
  _ ← traverse (fun '(resource_class, spec) => spec_validate_against_matrix spec resource_class)
        (iter_specs self);
  Ok tt.

Section Construction.
(** Pydantic's own check of the declared field constraints. *)
Variable pydantic_fields : PayerSpec -> result payer_error unit.

(** [PayerSpec(...)]: the declared constraints, then the after-validator. *)
Definition make_spec (spec : PayerSpec) : result payer_error PayerSpec :=
  _ ← pydantic_fields spec;
  check_master_did spec.

Definition host_env (v : pystr) : result payer_error PayerSpec :=
  make_spec (MkPayerSpec v HOST_ENV None None).

Definition host_env_default : result payer_error PayerPolicy :=
  l ← host_env (u "openrouter");
  s ← host_env (u "lighthouse");
  c ← host_env (u "*");
  t ← host_env (u "*");
  m ← host_env (u "*");
  Ok (MkPayerPolicy l s c t m).
End Construction.

(** ** Lemmas *)

(** The entries of one class and kind, by vendor. *)
Definition vendor_entries (rc : ResourceClass) (k : PayerKind)
    (m : list (triple * SupportStatus)) : list (pystr * SupportStatus) :=
  omap (fun '((rc', v, k'), s) =>
          if decide (rc' = rc /\ k' = k) then Some (v, s) else None) m.

Fixpoint assoc (v : pystr) (l : list (pystr * SupportStatus)) : option SupportStatus :=
  match l with
  | [] => None
  | (v', s) :: l' => if decide (v' = v) then Some s else assoc v l'
  end.

Lemma matrix_get_vendor rc v k m :
  matrix_get (rc, v, k) m = assoc v (vendor_entries rc k m).
Proof.
  induction m as [|[[[rc' v'] k'] s] m IH]; [done|]. cbn.
  destruct (decide (rc' = rc /\ k' = k)) as [[-> ->]|Hne]; cbn.
  - destruct (decide (v' = v)) as [->|Hv]; [by rewrite decide_True|].
    rewrite decide_False by congruence. apply IH.
  - rewrite decide_False by naive_solver. apply IH.
Qed.

Lemma matrix_keys_distinct : NoDup SUPPORT_MATRIX.*1.
Proof. apply (bool_decide_unpack _). by vm_compute. Qed.

Lemma status_for_entries rc v k :
  status_for rc v k =
  default NOT_IMPLEMENTED
    (union (assoc v (vendor_entries rc k SUPPORT_MATRIX))
           (assoc VENDOR_WILDCARD (vendor_entries rc k SUPPORT_MATRIX))).
Proof.
  unfold status_for. rewrite !matrix_get_vendor.
  destruct (assoc v _), (assoc VENDOR_WILDCARD _); done.
Qed.

(** The vendors and classes for which a kind of payer is implemented. *)
Definition implemented (rc : ResourceClass) (v : pystr) (k : PayerKind) : Prop :=
  match k with
  | KIND_NONE | HOST_ENV =>
      match rc with
      | LLM => v = u "openrouter" \/ v = u "local"
      | STORAGE => v = u "lighthouse" \/ v = u "local-disk"
      | COMPUTE | TOOLS | COMMS => True
      end
  | HOST_MASTER_PROVISIONED | USER_MASTER_PROVISIONED | USER_BYOK | SPONSOR =>
      rc = LLM /\ v = u "openrouter"
  | SELF_WALLET => rc = STORAGE /\ v = u "lighthouse"
  end.

Lemma spec_validate_Ok spec rc u :
  spec_validate_against_matrix spec rc = Ok u <-> is_offerable rc (vendor spec) (kind spec) = true.
Proof.
  unfold spec_validate_against_matrix. rewrite raise_if_Ok, negb_false_iff. done.
Qed.

(** The specs that come before the first refused one. *)
Lemma traverse_Raise {E A B} (f : A -> result E B) l e :
  traverse f l = Raise e <->
  exists pre x post, l = pre ++ x :: post /\ Forall (fun y => is_Ok (f y) = true) pre /\ f x = Raise e.
Proof.
  induction l as [|x l IH]; cbn [traverse].
  - split; [done|]. by intros ([] & ? & ? & ? & _).
  - rewrite bind_Raise. split.
    + intros [H|(a & Ha & H)].
      * by exists [], x, l.
      * apply bind_Raise in H as [H|(b & _ & H)]; [|done].
        apply IH in H as (pre & y & post & -> & Hpre & Hy).
        exists (x :: pre), y, post. split_and!; [done| |done]. constructor; [by rewrite Ha | done].
    + intros ([|x' pre] & y & post & [= -> ->] & Hpre & Hy); [by left|].
      apply list.Forall_cons in Hpre as [Hx Hpre]. destruct (f x') as [a|] eqn:Ha; [|done].
      right. exists a. split; [done|]. apply bind_Raise. left. apply IH. by exists pre, y, post.
Qed.

(** ** Theorems *)

(** The support matrix as a rule: the setup wizard offers a combination
    exactly when its kind of payer is implemented for that vendor. Delegated
    masters, sponsors and passphrase keys exist only for OpenRouter, the
    agent's own wallet only for Lighthouse, and a vendor without an entry of
    its own is covered by the wildcard of its class, where there is one. *)
Theorem is_offerable_exact rc v k : is_offerable rc v k = true <-> implemented rc v k.
Proof.
  unfold is_offerable. rewrite bool_decide_eq_true, status_for_entries.
  destruct rc, k; cbv -[u assoc VENDOR_WILDCARD]; cbn [assoc]; unfold VENDOR_WILDCARD;
    repeat case_decide; subst; cbn; naive_solver.
Qed.

(** The kinds listed for a vendor are the offerable ones, each once, in
    the order of the enum. *)
Theorem supported_kinds_for_exact rc v :
  (forall k, k ∈ supported_kinds_for rc v <-> implemented rc v k)
  /\ supported_kinds_for rc v `sublist_of` all_kinds
  /\ NoDup (supported_kinds_for rc v).
Proof.
  assert (Hs : supported_kinds_for rc v `sublist_of` all_kinds) by apply sublist_filter.
  split_and!; [|exact Hs|].
  - intros k. unfold supported_kinds_for. rewrite list_elem_of_filter.
    rewrite Is_true_true, is_offerable_exact. split; [tauto|]. intros H. split; [done|].
    destruct k; unfold all_kinds; rewrite !elem_of_cons; tauto.
  - eapply sublist_NoDup; [|exact Hs]. apply (bool_decide_unpack _). by vm_compute.
Qed.

(** Who must be named as the funding principal, and what must be absent. *)
Record funding_discipline (s : PayerSpec) : Prop := {
  fd_named : kind s = USER_MASTER_PROVISIONED \/ kind s = SPONSOR ->
    exists c did, master_did s = Some (c :: did);
  fd_implicit : kind s <> USER_MASTER_PROVISIONED -> kind s <> SPONSOR -> master_did s = None;
  fd_byok : kind s = USER_BYOK -> monthly_cap_usd s = None
}.

(** Building a [PayerSpec] succeeds exactly on values that pass the
    declared field constraints and the funding discipline: a delegated or
    sponsored spec names its principal, no other spec does, and a
    zero-knowledge key carries no platform cap. The value is unchanged. *)
Theorem make_spec_exact pydantic_fields spec s :
  make_spec pydantic_fields spec = Ok s <->
  is_Ok (pydantic_fields spec) = true /\ s = spec /\ funding_discipline spec.
Proof.
  unfold make_spec, check_master_did, requires_master. rewrite bind_Ok. split.
  - intros ([] & Hf & H). rewrite Hf. inv_ok. split_and!; [done..|].
    destruct s as [v k m c]; cbn in *.
    split; cbn.
    + intros Hk. rewrite bool_decide_eq_true_2 in Hm by done. destruct m as [[|x d]|]; try done. eauto.
    + intros H1 H2. rewrite bool_decide_eq_false_2 in Hm0 by tauto. by destruct m.
    + intros ->. by destruct c.
  - intros (Hf & -> & [H1 H2 H3]). destruct (pydantic_fields spec) as [[]|]; [|done].
    exists tt. split; [done|]. destruct spec as [v k m c]; cbn in *.
    destruct (decide (k = USER_MASTER_PROVISIONED \/ k = SPONSOR)) as [Hk|Hk].
    + destruct (H1 Hk) as (x & d & ->). rewrite (bool_decide_eq_true_2 (_ \/ _)) by done. cbn.
      by destruct Hk; subst.
    + rewrite (bool_decide_eq_false_2 (_ \/ _)) by done. rewrite H2 by tauto. cbn.
      case_bool_decide; [|done]. by rewrite H3.
Qed.

(** A policy passes validation exactly when the matrix marks the
    combination of every class READY; otherwise the exception names the first
    class, in declaration order, whose combination is not offerable, with the
    status the matrix gives it. *)
Theorem validate_against_matrix_exact p :
  (validate_against_matrix p = Ok tt <->
   Forall (fun '(rc, s) => implemented rc (vendor s) (kind s)) (iter_specs p))
  /\ forall e, validate_against_matrix p = Raise e <->
     exists pre rc s post, iter_specs p = pre ++ (rc, s) :: post
     /\ Forall (fun '(rc', s') => implemented rc' (vendor s') (kind s')) pre
     /\ ~ implemented rc (vendor s) (kind s)
     /\ e = Unsupported rc (vendor s) (kind s) (status_for rc (vendor s) (kind s)).
Proof.
  set (f := fun '(rc, s) => spec_validate_against_matrix s rc).
  assert (Hf : forall x, is_Ok (f x) = true <-> implemented x.1 (vendor x.2) (kind x.2)).
  { intros [rc s]. rewrite <- is_offerable_exact; cbn.
    rewrite <- (spec_validate_Ok s rc tt). by destruct (spec_validate_against_matrix s rc) as [[]|]. }
  unfold validate_against_matrix. fold f. split.
  - rewrite bind_Ok. transitivity (exists ys, traverse f (iter_specs p) = Ok ys);
      [by split; [intros (ys & H & _) | intros [ys H]]; exists ys|].
    split.
    + intros [ys H]. apply traverse_Ok in H. apply list.Forall_forall. intros [rc s] Hin.
      destruct (list_elem_of_lookup_1 _ _ Hin) as [i Hi].
      destruct (Forall2_lookup_l _ _ _ _ _ H Hi) as (y & _ & Hy).
      apply (Hf (rc, s)). by rewrite Hy.
    + intros HF. destruct (traverse f (iter_specs p)) as [ys|e] eqn:Ht; [eauto|].
      apply traverse_Raise in Ht as (pre & [rc s] & post & Heq & _ & Hx). rewrite Heq in HF.
      apply Forall_app in HF as [_ HF]. apply list.Forall_cons in HF as [Hi _].
      apply (Hf (rc, s)) in Hi. by rewrite Hx in Hi.
  - intros e. rewrite bind_Raise.
    transitivity (traverse f (iter_specs p) = Raise e);
      [by split; [intros [H|(ys & _ & H)] | left]|]. rewrite traverse_Raise.
    assert (Hpre : forall pre, Forall (fun y => is_Ok (f y) = true) pre <->
      Forall (fun '(rc', s') => implemented rc' (vendor s') (kind s')) pre).
    { intros pre. apply Forall_proper; [|done]. intros [rc s]. apply (Hf (rc, s)). }
    setoid_rewrite Hpre. split.
    + intros (pre & [rc s] & post & Heq & HF & Hx). exists pre, rc, s, post. split_and!; [done..| |].
      * rewrite <- (Hf (rc, s)). by rewrite Hx.
      * unfold f, spec_validate_against_matrix in Hx. by apply raise_if_Raise in Hx as [_ <-].
    + intros (pre & rc & s & post & Heq & HF & Hn & ->). exists pre, (rc, s), post. split_and!; [done..|].
      cbn. unfold spec_validate_against_matrix. apply raise_if_Raise. split; [|done].
      apply negb_true_iff, not_true_iff_false. by rewrite <- is_offerable_exact in Hn.
Qed.

(** The default policy can be built and is consistent with the matrix,
    whenever pydantic accepts specs with a vendor and no cap. *)
Theorem host_env_default_valid pydantic_fields
    (Hfields : forall s, vendor s <> [] -> monthly_cap_usd s = None -> pydantic_fields s = Ok tt) :
  exists p, host_env_default pydantic_fields = Ok p /\ validate_against_matrix p = Ok tt
            /\ Forall (fun '(_, s) => kind s = HOST_ENV) (iter_specs p).
Proof.
  unfold host_env_default, host_env, make_spec. rewrite !Hfields by done.
  eexists. split; [reflexivity|]. split; [by vm_compute|]. by repeat constructor.
Qed.

(** A field check that accepts what the declarations accept. *)
Definition declared_fields (s : PayerSpec) : result payer_error unit :=
  _ ← raise_if (bool_decide (vendor s = [])) (PolicyValidationError "vendor too short");
  raise_if (match monthly_cap_usd s with Some d => dec_ltb d dec_zero | None => false end)
    (PolicyValidationError "monthly_cap_usd must be >= 0").

Lemma host_env_default_valid_witness :
  exists p, host_env_default declared_fields = Ok p /\ validate_against_matrix p = Ok tt
            /\ Forall (fun '(_, s) => kind s = HOST_ENV) (iter_specs p).
Proof.
  apply host_env_default_valid. intros [v k m c] Hv Hc. cbn in *. subst.
  unfold declared_fields. cbn. by rewrite bool_decide_eq_false_2.
Defined.

(** Building a policy does not consult the matrix: a policy whose specs all
    build may still be refused by [validate_against_matrix]. *)
Lemma construction_skips_matrix :
  exists p, Forall (fun '(_, s) => make_spec declared_fields s = Ok s) (iter_specs p)
            /\ is_Ok (validate_against_matrix p) = false.
Proof.
  set (s := fun k => MkPayerSpec (u "openrouter") k None None).
  exists (MkPayerPolicy (s SELF_WALLET) (s HOST_ENV) (s HOST_ENV) (s HOST_ENV) (s HOST_ENV)).
  split; [by repeat constructor | by vm_compute].
Qed.
