(* ===== verification/Operator.v ===== *)
(** * Operator authority ([kestrel_sdk/operator/context.py], [targets.py])

    The authenticated context of an operator call, its fail-closed checks and
    its one-hour validity, and the closed descriptors of execution targets.
    Constructors take arguments of unknown dynamic type ([dyn]). *)

From Stdlib Require Import Sorted.
From stdpp Require Import gmap.
From S2P Require Export ValidationProps FrozenJsonProps.

(** ** Aware datetimes *)

Definition aware_datetime (value : dyn datetime) (field_name : string) : res datetime :=
  match value with
  | Foreign => Raise (TypeError (field_name +:+ " must be a datetime"))
  | Inst d =>
      _ ← raise_if (is_naive d) (ValueError (field_name +:+ " must be timezone-aware"));
      Ok d
  end.

(** An argument that may be [None]. *)
Definition opt_check {A B} (check : A -> res B) (value : option A) : res (option B) :=
  match value with
  | None => Ok None
  | Some v => b ← check v; Ok (Some b)
  end.

(** ** Operator contexts *)

Definition MAX_OPERATOR_CONTEXT_LIFETIME : Z := hour_us.

Record OperatorContext := MkOperatorContext {
  principal_id : pystr;
  tenant_id : pystr;
  granted_actions : gset pystr;
  granted_capabilities : gset pystr;
  permitted_boundary_ids : gset pystr;
  correlation_id : pystr;
  issued_at : datetime;
  expires_at : datetime;
  acting_agent_id : option pystr
}.

(** The constructor's arguments. *)
Record ContextArgs := MkContextArgs {
  a_principal_id : dyn pystr;
  a_tenant_id : dyn pystr;
  a_granted_actions : dyniter (dyn pystr);
  a_granted_capabilities : dyniter (dyn pystr);
  a_permitted_boundary_ids : dyniter (dyn pystr);
  a_correlation_id : dyn pystr;
  a_issued_at : dyn datetime;
  a_expires_at : dyn datetime;
  a_acting_agent_id : option (dyn pystr)
}.

(** [OperatorContext(...)]: [__post_init__], then the stored fields. *)
Definition context_post_init (a : ContextArgs) : res OperatorContext :=
  principal ← stable_token (a_principal_id a) "principal_id";
  tenant ← stable_token (a_tenant_id a) "tenant_id";
  correlation ← stable_token (a_correlation_id a) "correlation_id";
  agent ← opt_check (fun v => stable_token v "acting_agent_id") (a_acting_agent_id a);
  issued ← aware_datetime (a_issued_at a) "issued_at";
  expires ← aware_datetime (a_expires_at a) "expires_at";
  _ ← raise_if (dt_leb expires issued) (ValueError "expires_at must be after issued_at");
  _ ← raise_if (MAX_OPERATOR_CONTEXT_LIFETIME <? dt_sub expires issued)
        (ValueError "operator context validity must not exceed one hour");
  actions ← frozen_tokens (a_granted_actions a) "granted_actions";
  capabilities ← frozen_tokens (a_granted_capabilities a) "granted_capabilities";
  boundaries ← frozen_tokens (a_permitted_boundary_ids a) "permitted_boundary_ids";
  Ok (MkOperatorContext principal tenant actions capabilities boundaries correlation
        issued expires agent).

Definition contains_valid (values : gset pystr) (candidate : dyn pystr) : bool :=
  match stable_token candidate "authorization value" with
  | Ok s => bool_decide (s ∈ values)
  | Raise _ => false
  end.

Definition allows_action (self : OperatorContext) (action : dyn pystr) : bool :=
  contains_valid (granted_actions self) action.

Definition allows_capability (self : OperatorContext) (capability : dyn pystr) : bool :=
  contains_valid (granted_capabilities self) capability.

Definition allows_boundary (self : OperatorContext) (boundary_id : dyn pystr) : bool :=
  contains_valid (permitted_boundary_ids self) boundary_id.

Definition matches_tenant (self : OperatorContext) (tenant : dyn pystr) : bool :=
  match stable_token tenant "tenant_id" with
  | Ok s => bool_decide (s = tenant_id self)
  | Raise _ => false
  end.

Definition require_action (self : OperatorContext) (action : dyn pystr) : res unit :=
  raise_if (negb (allows_action self action))
    (OperatorAuthorizationError "operator action is not granted").

Definition require_capability (self : OperatorContext) (capability : dyn pystr) : res unit :=
  raise_if (negb (allows_capability self capability))
    (OperatorAuthorizationError "operator capability is not granted").

Definition require_boundary (self : OperatorContext) (boundary_id : dyn pystr) : res unit :=
  raise_if (negb (allows_boundary self boundary_id))
    (OperatorAuthorizationError "operator boundary is not permitted").

Definition require_tenant (self : OperatorContext) (tenant : dyn pystr) : res unit :=
  raise_if (negb (matches_tenant self tenant))
    (OperatorAuthorizationError "operator tenant does not match").

(** [now] is [datetime.now(UTC)]. *)
Definition require_fresh (now : datetime) (self : OperatorContext) (at_ : option (dyn datetime))
    : res unit :=
  instant ← match at_ with
            | None => Ok now
            | Some v => aware_datetime v "at"
            end;
  raise_if (dt_ltb instant (issued_at self) || dt_leb (expires_at self) instant)
    (OperatorAuthorizationError "operator context is not fresh").

(** ** Execution targets *)

Record ExecutionTargetDescriptor := MkTargetDescriptor {
  td_target_id : pystr;
  td_target_kind : pystr;
  td_display_name : pystr;
  td_tenant_id : pystr;
  td_boundary_id : pystr;
  td_capabilities : gset pystr
}.

Definition target_descriptor_post_init
    (target_id target_kind display_name tenant boundary_id : dyn pystr)
    (capabilities : dyniter (dyn pystr)) : res ExecutionTargetDescriptor :=
  tid ← stable_token target_id "target_id";
  tk ← stable_token target_kind "target_kind";
  dn ← non_empty_text display_name "display_name";
  tn ← stable_token tenant "tenant_id";
  bd ← stable_token boundary_id "boundary_id";
  caps ← frozen_tokens capabilities "capabilities";
  Ok (MkTargetDescriptor tid tk dn tn bd caps).

Definition target_to_dict (self : ExecutionTargetDescriptor) : fjson :=
  FMap [(u "target_id", FStr (td_target_id self));
        (u "target_kind", FStr (td_target_kind self));
        (u "display_name", FStr (td_display_name self));
        (u "tenant_id", FStr (td_tenant_id self));
        (u "boundary_id", FStr (td_boundary_id self));
        (u "capabilities", FTuple (FStr <$> sorted_tokens (td_capabilities self)))].

Record ExecutionTargetReference := MkTargetReference {
  tr_target_id : pystr;
  tr_boundary_id : pystr;
  tr_capability : pystr
}.

#[global] Instance ExecutionTargetReference_eq_dec : EqDecision ExecutionTargetReference.
Proof. solve_decision. Defined.

Definition target_reference_post_init (target_id boundary_id capability : dyn pystr)
    : res ExecutionTargetReference :=
  tid ← stable_token target_id "target_id";
  bd ← stable_token boundary_id "boundary_id";
  cap ← stable_token capability "capability";
  Ok (MkTargetReference tid bd cap).

(** ** Lemmas *)

Lemma aware_datetime_Ok v field d :
  aware_datetime v field = Ok d <-> v = Inst d /\ is_naive d = false.
Proof.
  destruct v as [d'|]; cbn; [|by split; [|intros []]]. rewrite bind_Ok.
  setoid_rewrite raise_if_Ok. split; [by intros (_ & H & [= <-])|].
  intros [[= ->] H]. by exists tt.
Qed.

Lemma opt_token_Ok v field r :
  opt_check (fun v => stable_token v field) v = Ok r <->
  v = Inst <$> r /\ (forall s, r = Some s -> well_formed_token s).
Proof.
  destruct v as [v|]; cbn.
  - rewrite bind_Ok. setoid_rewrite stable_token_Ok. split.
    + intros (s & [-> Hs] & [= <-]). split; [done|]. by intros s' [= <-].
    + intros [Hv Hr]. destruct r as [s|]; [|done]. injection Hv as ->. exists s. auto.
  - split; [by intros [= <-]|]. intros [Hv _]. by destruct r.
Qed.

Lemma frozen_tokens_wf vs field S :
  frozen_tokens vs field = Ok S -> set_Forall well_formed_token S.
Proof.
  intros H. apply frozen_tokens_Ok in H as (l & _ & Hl & ->). intros s Hs.
  rewrite elem_of_list_to_set in Hs. by eapply list.Forall_forall in Hl.
Qed.

Lemma contains_valid_exact S v :
  set_Forall well_formed_token S ->
  contains_valid S v = true <-> exists s, v = Inst s /\ s ∈ S.
Proof.
  intros HS. unfold contains_valid. split.
  - destruct (stable_token v _) as [s|] eqn:H; [|done]. intros Hb. bool_hyps.
    apply stable_token_Ok in H as [-> _]. by exists s.
  - intros (s & -> & Hs). rewrite (proj2 (stable_token_Ok (Inst s) _ s)) by auto.
    by apply bool_decide_eq_true.
Qed.

(** The invariant of a constructed context. *)
Record context_wf (c : OperatorContext) : Prop := {
  cw_principal : well_formed_token (principal_id c);
  cw_tenant : well_formed_token (tenant_id c);
  cw_correlation : well_formed_token (correlation_id c);
  cw_agent : forall s, acting_agent_id c = Some s -> well_formed_token s;
  cw_actions : set_Forall well_formed_token (granted_actions c);
  cw_capabilities : set_Forall well_formed_token (granted_capabilities c);
  cw_boundaries : set_Forall well_formed_token (permitted_boundary_ids c);
  cw_issued : is_naive (issued_at c) = false;
  cw_expires : is_naive (expires_at c) = false;
  cw_window : 0 < dt_sub (expires_at c) (issued_at c) <= MAX_OPERATOR_CONTEXT_LIFETIME
}.

(** The arguments that spell a context. *)
Record context_args (c : OperatorContext) (a : ContextArgs) : Prop := {
  ca_principal : a_principal_id a = Inst (principal_id c);
  ca_tenant : a_tenant_id a = Inst (tenant_id c);
  ca_correlation : a_correlation_id a = Inst (correlation_id c);
  ca_agent : a_acting_agent_id a = Inst <$> acting_agent_id c;
  ca_issued : a_issued_at a = Inst (issued_at c);
  ca_expires : a_expires_at a = Inst (expires_at c);
  ca_actions : exists l, a_granted_actions a = Iter (Inst <$> l)
               /\ granted_actions c = list_to_set l;
  ca_capabilities : exists l, a_granted_capabilities a = Iter (Inst <$> l)
               /\ granted_capabilities c = list_to_set l;
  ca_boundaries : exists l, a_permitted_boundary_ids a = Iter (Inst <$> l)
               /\ permitted_boundary_ids c = list_to_set l
}.

Lemma frozen_tokens_set vs field S :
  frozen_tokens vs field = Ok S <->
  (exists l, vs = Iter (Inst <$> l) /\ S = list_to_set l) /\ set_Forall well_formed_token S.
Proof.
  rewrite frozen_tokens_Ok. split.
  - intros (l & -> & Hl & ->). split; [by exists l|]. intros s Hs.
    rewrite elem_of_list_to_set in Hs. by eapply list.Forall_forall in Hl.
  - intros [(l & -> & ->) HS]. exists l. split_and!; [done| |done].
    apply list.Forall_forall. intros s Hs. apply HS. by rewrite elem_of_list_to_set.
Qed.

Lemma context_post_init_Ok a c :
  context_post_init a = Ok c <-> context_args c a /\ context_wf c.
Proof.
  unfold context_post_init. split.
  - intros H. inv_ok. bool_hyps.
    repeat match goal with
    | H : stable_token _ _ = Ok _ |- _ => apply stable_token_Ok in H as [? ?]
    | H : aware_datetime _ _ = Ok _ |- _ => apply aware_datetime_Ok in H as [? ?]
    | H : frozen_tokens _ _ = Ok _ |- _ => apply frozen_tokens_set in H as [? ?]
    | H : opt_check _ _ = Ok _ |- _ => apply opt_token_Ok in H as [? ?]
    | H : dt_leb _ _ = false |- _ => unfold dt_leb in H; apply Z.leb_gt in H
    end.
    split; split; cbn; auto.
  - intros [[] []]. destruct c as [p t ga gc pb co is_ ex ag]; cbn in *.
    ok_step ltac:(by apply stable_token_Ok). ok_step ltac:(by apply stable_token_Ok).
    ok_step ltac:(by apply stable_token_Ok). ok_step ltac:(by apply opt_token_Ok).
    ok_step ltac:(by apply aware_datetime_Ok). ok_step ltac:(by apply aware_datetime_Ok).
    ok_guard ltac:(apply Z.leb_gt; lia). ok_guard ltac:(apply Z.ltb_ge; lia).
    ok_step ltac:(by apply frozen_tokens_set). ok_step ltac:(by apply frozen_tokens_set).
    ok_step ltac:(by apply frozen_tokens_set). done.
Qed.

(** The trusted clock an operation is checked at. *)
Definition check_time (now : datetime) (at_ : option (dyn datetime)) (t : datetime) : Prop :=
  match at_ with None => t = now | Some v => v = Inst t /\ is_naive t = false end.

Definition within_validity (c : OperatorContext) (t : datetime) : Prop :=
  0 <= dt_sub t (issued_at c) /\ dt_sub t (expires_at c) < 0.

Lemma require_fresh_Ok now c at_ u :
  require_fresh now c at_ = Ok u <-> exists t, check_time now at_ t /\ within_validity c t.
Proof.
  unfold require_fresh. rewrite bind_Ok.
  assert (Ht : forall t, (match at_ with None => Ok now | Some v => aware_datetime v "at" end) = Ok t
                         <-> check_time now at_ t).
  { intros t. destruct at_ as [v|]; cbn; [apply aware_datetime_Ok|]. split; congruence. }
  setoid_rewrite Ht. unfold within_validity. setoid_rewrite raise_if_Ok.
  setoid_rewrite orb_false_iff. unfold dt_ltb, dt_leb. setoid_rewrite Z.ltb_ge.
  setoid_rewrite Z.leb_gt. setoid_rewrite (dt_sub_opp _ (expires_at c)).
  split; intros (t & H1 & H2); exists t; (split; [done|lia]).
Qed.

Lemma require_action_Ok c v u : context_wf c ->
  require_action c v = Ok u <-> exists s, v = Inst s /\ s ∈ granted_actions c.
Proof.
  intros Hc. unfold require_action. rewrite raise_if_Ok, negb_false_iff.
  apply contains_valid_exact, Hc.
Qed.

Lemma require_capability_Ok c v u : context_wf c ->
  require_capability c v = Ok u <-> exists s, v = Inst s /\ s ∈ granted_capabilities c.
Proof.
  intros Hc. unfold require_capability. rewrite raise_if_Ok, negb_false_iff.
  apply contains_valid_exact, Hc.
Qed.

Lemma require_boundary_Ok c v u : context_wf c ->
  require_boundary c v = Ok u <-> exists s, v = Inst s /\ s ∈ permitted_boundary_ids c.
Proof.
  intros Hc. unfold require_boundary. rewrite raise_if_Ok, negb_false_iff.
  apply contains_valid_exact, Hc.
Qed.

Lemma matches_tenant_true c v : context_wf c ->
  matches_tenant c v = true <-> v = Inst (tenant_id c).
Proof.
  intros Hc. unfold matches_tenant. split.
  - destruct (stable_token v _) as [s|] eqn:H; [|done]. intros Hb. bool_hyps. subst s.
    by apply stable_token_Ok in H as [-> _].
  - intros ->. rewrite (proj2 (stable_token_Ok _ _ (tenant_id c))).
    + by apply bool_decide_eq_true.
    + split; [done | apply Hc].
Qed.

Lemma require_tenant_Ok c v u : context_wf c ->
  require_tenant c v = Ok u <-> v = Inst (tenant_id c).
Proof.
  intros Hc. unfold require_tenant. rewrite raise_if_Ok, negb_false_iff.
  by apply matches_tenant_true.
Qed.

(** ** Theorems *)

(** A context is built exactly from arguments that spell a well-formed
    one: tokens everywhere, sets of tokens, aware times and a validity window
    that is positive and at most one hour. Nothing is normalised silently. *)
Theorem context_post_init_exact a c :
  context_post_init a = Ok c <-> context_args c a /\ context_wf c.
Proof. exact (context_post_init_Ok a c). Qed.

(** Authority is by exact membership and fails closed: each check passes
    only on a string that was granted (the tenant check only on the trusted
    tenant), and every other object raises [OperatorAuthorizationError]. *)
Theorem context_checks_fail_closed a c (Hc : context_post_init a = Ok c) v :
  (require_action c v = Ok tt <-> exists s, v = Inst s /\ s ∈ granted_actions c)
  /\ (require_capability c v = Ok tt <-> exists s, v = Inst s /\ s ∈ granted_capabilities c)
  /\ (require_boundary c v = Ok tt <-> exists s, v = Inst s /\ s ∈ permitted_boundary_ids c)
  /\ (require_tenant c v = Ok tt <-> v = Inst (tenant_id c))
  /\ Forall (fun check => check = Ok tt \/ exists m, check = Raise (OperatorAuthorizationError m))
       [require_action c v; require_capability c v; require_boundary c v; require_tenant c v].
Proof.
  apply context_post_init_Ok in Hc as [_ Hc].
  split_and!; [by apply require_action_Ok | by apply require_capability_Ok
              | by apply require_boundary_Ok | by apply require_tenant_Ok |].
  assert (H : forall b m, raise_if b (OperatorAuthorizationError m) = Ok tt
                \/ exists m', raise_if b (OperatorAuthorizationError m) = Raise (OperatorAuthorizationError m'))
    by (intros [] m; [right; by exists m | by left]).
  rewrite !list.Forall_cons. split_and!; [apply H..|by constructor].
Qed.

(** C38. A context is usable for less than an hour: two checks that both pass
    are less than an hour apart on the UTC line, when the times that share a
    time-zone object share its offset. *)
Theorem context_usable_under_an_hour a c now1 now2 at1 at2 t1 t2
    (Hc : context_post_init a = Ok c)
    (H1 : require_fresh now1 c at1 = Ok tt) (H2 : require_fresh now2 c at2 = Ok tt)
    (Ht1 : check_time now1 at1 t1) (Ht2 : check_time now2 at2 t2)
    (Hclock : forall x y, x ∈ [t1; t2; issued_at c; expires_at c] ->
                          y ∈ [t1; t2; issued_at c; expires_at c] -> same_clock x y) :
  Z.abs (instant t1 - instant t2) < hour_us.
Proof.
  apply context_post_init_Ok in Hc as [_ Hc]. apply cw_window in Hc.
  apply require_fresh_Ok in H1 as (t1' & Ht1' & H1). apply require_fresh_Ok in H2 as (t2' & Ht2' & H2).
  assert (t1' = t1) as -> by (destruct at1; unfold check_time in *; naive_solver).
  assert (t2' = t2) as -> by (destruct at2; unfold check_time in *; naive_solver).
  unfold within_validity, MAX_OPERATOR_CONTEXT_LIFETIME in *.
  rewrite !dt_sub_same_clock in * by (apply Hclock; rewrite !elem_of_cons; tauto).
  lia.
Qed.

(** The one-hour bound is on the wall clock: across the end of daylight
    saving time a context may stay valid for two hours. *)
Lemma context_window_ignores_offset :
  exists a c now1 now2,
    context_post_init a = Ok c
    /\ require_fresh now1 c None = Ok tt /\ require_fresh now2 c None = Ok tt
    /\ instant now2 - instant now1 > hour_us.
Proof.
  set (tok := u "t").
  (* 00:30-04:00 to 01:30-05:00 in one zone object *)
  set (issued := Datetime (30 * minute_us + 10 * hour_us) (Some 2%positive) (Some (- 4 * hour_us))).
  set (expires := Datetime (90 * minute_us + 10 * hour_us) (Some 2%positive) (Some (- 5 * hour_us))).
  eexists (MkContextArgs (Inst tok) (Inst tok) (Iter []) (Iter []) (Iter []) (Inst tok)
             (Inst issued) (Inst expires) None).
  eexists. exists (utc_datetime (instant issued)), (utc_datetime (instant expires - 1)).
  split; [vm_compute; reflexivity|]. split_and!; by vm_compute.
Qed.

Lemma target_descriptor_Ok ti tk dn tn bd caps d :
  target_descriptor_post_init ti tk dn tn bd caps = Ok d ->
  well_formed_token (td_target_id d) /\ well_formed_token (td_target_kind d)
  /\ well_formed_text (td_display_name d) /\ well_formed_token (td_tenant_id d)
  /\ well_formed_token (td_boundary_id d) /\ set_Forall well_formed_token (td_capabilities d).
Proof.
  intros H. unfold target_descriptor_post_init in H. inv_ok. cbn.
  repeat match goal with
  | H : stable_token _ _ = Ok _ |- _ => apply stable_token_Ok in H as [_ ?]
  | H : non_empty_text _ _ = Ok _ |- _ => apply non_empty_text_Ok in H as [_ ?]
  | H : frozen_tokens _ _ = Ok _ |- _ => apply frozen_tokens_set in H as [_ ?]
  end. done.
Qed.

(** The strings of a frozen value, keys included. *)
Fixpoint fjson_strings (t : fjson) : list pystr :=
  match t with
  | FStr s => [s]
  | FTuple ts => concat (map fjson_strings ts)
  | FMap ts => concat (map (fun '(k, t) => k :: fjson_strings t) ts)
  | _ => []
  end.

#[global] Instance FStr_inj : Inj (=) (=) FStr.
Proof. by intros ?? [= ->]. Qed.

(** The wire shape of a target descriptor carries the whole descriptor
    and nothing else: two descriptors with the same shape are equal, all its
    text is safe to display, and capabilities are listed in order. *)
Theorem target_to_dict_faithful ti tk dn tn bd caps d
    (Hd : target_descriptor_post_init ti tk dn tn bd caps = Ok d) :
  (forall d', target_to_dict d' = target_to_dict d -> d' = d)
  /\ Forall (Forall (fun c => unsafe_browser_codepoint c = false)) (fjson_strings (target_to_dict d))
  /\ StronglySorted str_le (sorted_tokens (td_capabilities d)).
Proof.
  split_and!; [| |apply sorted_tokens_sorted].
  - intros d' H. destruct d as [i k n t b c], d' as [i' k' n' t' b' c'].
    unfold target_to_dict in H; cbn in H. injection H as -> -> -> -> -> Hs.
    f_equal. apply sorted_tokens_inj. by apply (inj (fmap FStr)) in Hs.
  - apply target_descriptor_Ok in Hd as (H1 & H2 & (_ & _ & _ & H3) & H4 & H5 & H6).
    apply well_formed_token_safe in H1, H2, H4, H5.
    assert (HF : Forall (Forall (fun c => unsafe_browser_codepoint c = false))
              (concat (map fjson_strings (FStr <$> sorted_tokens (td_capabilities d))))).
    { apply Forall_concat, Forall_forall. intros l. rewrite in_map_iff. intros (x & <- & Hx). apply list_elem_of_In, list_elem_of_fmap in Hx as (s & -> & Hs).
      repeat constructor. apply well_formed_token_safe, H6. by apply elem_of_sorted_tokens. }
    cbn. rewrite app_nil_r, !list.Forall_cons.
    split_and!; first [done | apply safe_literal; vm_compute; reflexivity].
Qed.

(** ** Witnesses *)

Definition sample_context_args : ContextArgs :=
  MkContextArgs (Inst (u "operator:7")) (Inst (u "lab")) (Iter [Inst (u "run.launch")])
    (Iter [Inst (u "compute.gpu")]) (Iter [Inst (u "boundary-1")]) (Inst (u "corr-1"))
    (Inst (utc_datetime (2 * day_us))) (Inst (utc_datetime (2 * day_us + hour_us))) None.

Definition sample_context : OperatorContext :=
  MkOperatorContext (u "operator:7") (u "lab") {[u "run.launch"]} {[u "compute.gpu"]}
    {[u "boundary-1"]} (u "corr-1") (utc_datetime (2 * day_us)) (utc_datetime (2 * day_us + hour_us))
    None.

Lemma sample_context_built : context_post_init sample_context_args = Ok sample_context.
Proof. vm_compute. reflexivity. Qed.

Lemma context_checks_fail_closed_witness :
  require_action sample_context (Inst (u "run.launch")) = Ok tt
  /\ require_action sample_context Foreign <> Ok tt.
Proof.
  destruct (context_checks_fail_closed _ _ sample_context_built (Inst (u "run.launch")))
    as [Hgrant _].
  destruct (context_checks_fail_closed _ _ sample_context_built Foreign) as [Hdeny _].
  split.
  - apply Hgrant. exists (u "run.launch"). split; [reflexivity|].
    apply (bool_decide_unpack _). vm_compute. exact I.
  - intros H. apply Hdeny in H as (s & Hs & _). discriminate Hs.
Defined.

Lemma context_usable_under_an_hour_witness :
  Z.abs (instant (utc_datetime (2 * day_us)) - instant (utc_datetime (2 * day_us + minute_us))) < hour_us.
Proof.
  apply (context_usable_under_an_hour sample_context_args sample_context
           (utc_datetime (2 * day_us)) (utc_datetime (2 * day_us + minute_us)) None None).
  - exact sample_context_built.
  - vm_compute. reflexivity.
  - vm_compute. reflexivity.
  - reflexivity.
  - reflexivity.
  - intros x y Hx Hy _. rewrite !elem_of_cons, elem_of_nil in Hx, Hy.
    destruct Hx as [->|[->|[->|[->|[]]]]], Hy as [->|[->|[->|[->|[]]]]]; reflexivity.
Defined.

Definition sample_target : ExecutionTargetDescriptor :=
  MkTargetDescriptor (u "t1") (u "vm") (u "Lab VM") (u "lab") (u "b1") {[u "gpu"; u "cpu"]}.

Lemma sample_target_built :
  target_descriptor_post_init (Inst (u "t1")) (Inst (u "vm")) (Inst (u "Lab VM")) (Inst (u "lab"))
    (Inst (u "b1")) (Iter [Inst (u "gpu"); Inst (u "cpu")]) = Ok sample_target.
Proof. vm_compute. reflexivity. Qed.

Lemma target_to_dict_faithful_witness :
  StronglySorted str_le (sorted_tokens (td_capabilities sample_target)).
Proof.
  destruct (target_to_dict_faithful _ _ _ _ _ _ _ sample_target_built) as (_ & _ & H).
  exact H.
Defined.
