(* ===== verification/Runs.v ===== *)
(** * The operator run plane ([kestrel_sdk/operator/runs.py])

    Durable identities of runs, stages and attempts, the authorization of
    launches, records and controls, idempotency scopes, bounded queries and
    pages, and the domain policy of artifact metadata. *)

From stdpp Require Import gmap.
From S2P Require Export Operator.

(** ** Actions and enums *)

Definition RUN_LAUNCH_ACTION : pystr := u "run.launch".
Definition RUN_READ_ACTION : pystr := u "run.read".
Definition RUN_ATTACH_ACTION : pystr := u "run.attach".
Definition RUN_PAUSE_ACTION : pystr := u "run.pause".
Definition RUN_RESUME_ACTION : pystr := u "run.resume".
Definition RUN_CANCEL_ACTION : pystr := u "run.cancel".
Definition RUN_RETRY_ACTION : pystr := u "run.retry".
Definition ARTIFACT_READ_ACTION : pystr := u "artifact.read".

Inductive RunSource : Type := MANUAL | AGENT.

Inductive RunState : Type := QUEUED | RUNNING | PAUSED | SUCCEEDED | FAILED | CANCELLED.

Inductive RunControlAction : Type := PAUSE | RESUME | CANCEL | RETRY.

#[global] Instance RunSource_eq_dec : EqDecision RunSource.
Proof. solve_decision. Defined.
#[global] Instance RunState_eq_dec : EqDecision RunState.
Proof. solve_decision. Defined.
#[global] Instance RunControlAction_eq_dec : EqDecision RunControlAction.
Proof. solve_decision. Defined.

Definition run_state_rank (s : RunState) : nat :=
  match s with
  | QUEUED => 0 | RUNNING => 1 | PAUSED => 2 | SUCCEEDED => 3 | FAILED => 4 | CANCELLED => 5
  end.

#[global] Instance RunState_countable : Countable RunState.
Proof.
  refine (inj_countable' run_state_rank
    (fun n => nth n [QUEUED; RUNNING; PAUSED; SUCCEEDED; FAILED; CANCELLED] QUEUED) _).
  by intros [].
Defined.

Definition is_terminal (s : RunState) : bool :=
  bool_decide (s ∈ [SUCCEEDED; FAILED; CANCELLED]).

Definition required_action (a : RunControlAction) : pystr :=
  match a with
  | PAUSE => RUN_PAUSE_ACTION
  | RESUME => RUN_RESUME_ACTION
  | CANCEL => RUN_CANCEL_ACTION
  | RETRY => RUN_RETRY_ACTION
  end.

(** [isinstance(value, C)] on an argument that is stored as it is. *)
Definition require_instance {A} (value : dyn A) (e : exn) : res A :=
  match value with Inst a => Ok a | Foreign => Raise e end.

(** [isinstance(value, int) and not isinstance(value, bool)] *)
Definition require_int (value : dynint) (e : exn) : res Z :=
  match value with DInt z => Ok z | _ => Raise e end.

(** ** Launches *)

Record RunLaunch := MkRunLaunch {
  rl_run_id : pystr;
  rl_kind : pystr;
  rl_source : RunSource;
  rl_initiated_by : pystr;
  rl_tenant_id : pystr;
  rl_target : ExecutionTargetReference;
  rl_idempotency_key : pystr;
  rl_orchestrator : option pystr
}.

#[global] Instance RunLaunch_eq_dec : EqDecision RunLaunch.
Proof. solve_decision. Defined.

Record LaunchArgs := MkLaunchArgs {
  la_run_id : dyn pystr;
  la_kind : dyn pystr;
  la_source : dyn RunSource;
  la_initiated_by : dyn pystr;
  la_tenant_id : dyn pystr;
  la_target : dyn ExecutionTargetReference;
  la_idempotency_key : dyn pystr;
  la_orchestrator : option (dyn pystr)
}.

Definition launch_post_init (a : LaunchArgs) : res RunLaunch :=
  run_id ← stable_token (la_run_id a) "run_id";
  kind ← stable_token (la_kind a) "kind";
  source ← require_instance (la_source a) (TypeError "source must be a RunSource");
  initiated_by ← stable_token (la_initiated_by a) "initiated_by";
  tenant ← stable_token (la_tenant_id a) "tenant_id";
  target ← require_instance (la_target a) (TypeError "target must be an ExecutionTargetReference");
  key ← stable_token (la_idempotency_key a) "idempotency_key";
  orchestrator ←
    match source, la_orchestrator a with
    | MANUAL, Some _ => Raise (ValueError "a manual run must not specify an orchestrator")
    | MANUAL, None => Ok None
    | AGENT, None => Raise (ValueError "an agent run must specify an orchestrator")
    | AGENT, Some v => s ← stable_token v "orchestrator"; Ok (Some s)
    end;
  Ok (MkRunLaunch run_id kind source initiated_by tenant target key orchestrator).

Definition replay_identity (self : RunLaunch)
    : pystr * pystr * RunSource * pystr * pystr * ExecutionTargetReference * option pystr :=
  (rl_run_id self, rl_kind self, rl_source self, rl_initiated_by self, rl_tenant_id self,
   rl_target self, rl_orchestrator self).

Definition launch_idempotency_scope (self : RunLaunch) (tenant : dyn pystr)
    : res (pystr * pystr * pystr) :=
  t ← stable_token tenant "trusted tenant_id";
  Ok (t, RUN_LAUNCH_ACTION, rl_idempotency_key self).

Definition launch_authorize (now : datetime) (self : RunLaunch) (context : dyn OperatorContext)
    (at_ : option (dyn datetime)) : res unit :=
  c ← require_instance context (TypeError "context must be an OperatorContext");
  _ ← require_fresh now c at_;
  _ ← require_action c (Inst RUN_LAUNCH_ACTION);
  _ ← require_tenant c (Inst (rl_tenant_id self));
  _ ← require_boundary c (Inst (tr_boundary_id (rl_target self)));
  _ ← require_capability c (Inst (tr_capability (rl_target self)));
  match rl_source self with
  | MANUAL =>
      _ ← raise_if (bool_decide (is_Some (acting_agent_id c)))
            (OperatorAuthorizationError "agent-mediated runs must use agent source provenance");
      raise_if (negb (bool_decide (rl_initiated_by self = principal_id c)))
        (OperatorAuthorizationError "manual run source does not match")
  | AGENT =>
      raise_if (negb (bool_decide (acting_agent_id c = Some (rl_initiated_by self))))
        (OperatorAuthorizationError "agent run source does not match")
  end.

(** ** Records *)

Record RunRecord := MkRunRecord {
  rr_launch : RunLaunch;
  rr_state : RunState;
  rr_accepted_at : datetime;
  rr_state_changed_at : datetime;
  rr_sequence : Z
}.

Definition record_post_init (launch : dyn RunLaunch) (state : dyn RunState)
    (accepted_at : dyn datetime) (state_changed_at : option (dyn datetime)) (sequence : dynint)
    : res RunRecord :=
  l ← require_instance launch (TypeError "launch must be a RunLaunch");
  s ← require_instance state (TypeError "state must be a RunState");
  accepted ← aware_datetime accepted_at "accepted_at";
  changed ← match state_changed_at with
            | None => Ok accepted
            | Some v => aware_datetime v "state_changed_at"
            end;
  _ ← raise_if (dt_ltb changed accepted)
        (ValueError "state_changed_at must not precede accepted_at");
  n ← require_int sequence (TypeError "sequence must be an integer");
  _ ← raise_if (n <? 0) (ValueError "sequence must be non-negative");
  Ok (MkRunRecord l s accepted changed n).

Definition record_run_id (self : RunRecord) : pystr := rl_run_id (rr_launch self).

Definition record_authorize (now : datetime) (self : RunRecord) (context : dyn OperatorContext)
    (action : dyn pystr) (at_ : option (dyn datetime)) : res unit :=
  c ← require_instance context (TypeError "context must be an OperatorContext");
  _ ← stable_token action "action";
  _ ← raise_if (negb (matches_tenant c (Inst (rl_tenant_id (rr_launch self)))))
        (RunNotFoundError "run not found");
  _ ← require_fresh now c at_;
  _ ← require_action c action;
  _ ← require_boundary c (Inst (tr_boundary_id (rl_target (rr_launch self))));
  require_capability c (Inst (tr_capability (rl_target (rr_launch self)))).

(** ** Stages, attempts and engine jobs *)

Record RunStage := MkRunStage {
  rs_run_id : pystr;
  rs_stage_id : pystr;
  rs_kind : pystr;
  rs_state : RunState
}.

Definition stage_post_init (run_id stage_id kind : dyn pystr) (state : dyn RunState)
    : res RunStage :=
  r ← stable_token run_id "run_id";
  s ← stable_token stage_id "stage_id";
  k ← stable_token kind "kind";
  st ← require_instance state (TypeError "state must be a RunState");
  Ok (MkRunStage r s k st).

Record RunAttempt := MkRunAttempt {
  ra_run_id : pystr;
  ra_stage_id : pystr;
  ra_attempt_id : pystr;
  ra_attempt : Z
}.

Definition attempt_post_init (run_id stage_id attempt_id : dyn pystr) (attempt : dynint)
    : res RunAttempt :=
  r ← stable_token run_id "run_id";
  s ← stable_token stage_id "stage_id";
  a ← stable_token attempt_id "attempt_id";
  n ← require_int attempt (TypeError "attempt must be an integer");
  _ ← raise_if (n <? 1) (ValueError "attempt must be at least 1");
  Ok (MkRunAttempt r s a n).

Record ExternalEngineJobLink := MkJobLink {
  jl_run_id : pystr;
  jl_stage_id : pystr;
  jl_attempt_id : pystr;
  jl_engine : pystr;
  jl_external_job_id : pystr
}.

Definition job_link_post_init (run_id stage_id attempt_id engine external_job_id : dyn pystr)
    : res ExternalEngineJobLink :=
  r ← stable_token run_id "run_id";
  s ← stable_token stage_id "stage_id";
  a ← stable_token attempt_id "attempt_id";
  e ← stable_token engine "engine";
  j ← non_empty_text external_job_id "external_job_id";
  Ok (MkJobLink r s a e j).

(** ** Controls *)

Record RunControl := MkRunControl {
  rc_run_id : pystr;
  rc_action : RunControlAction;
  rc_idempotency_key : pystr;
  rc_stage_id : option pystr;
  rc_expected_sequence : option Z
}.

Definition control_post_init (run_id : dyn pystr) (action : dyn RunControlAction)
    (idempotency_key : dyn pystr) (stage_id : option (dyn pystr))
    (expected_sequence : option dynint) : res RunControl :=
  r ← stable_token run_id "run_id";
  a ← require_instance action (TypeError "action must be a RunControlAction");
  k ← stable_token idempotency_key "idempotency_key";
  s ← match a, stage_id with
      | RETRY, None => Raise (ValueError "stage_id is required for retry")
      | RETRY, Some v => t ← stable_token v "stage_id"; Ok (Some t)
      | _, Some _ => Raise (ValueError "stage_id is allowed only for retry")
      | _, None => Ok None
      end;
  n ← match expected_sequence with
      | None => Ok None
      | Some v =>
          z ← require_int v (TypeError "expected_sequence must be an integer or None");
          _ ← raise_if (z <? 0) (ValueError "expected_sequence must be non-negative");
          Ok (Some z)
      end;
  Ok (MkRunControl r a k s n).

Definition control_idempotency_scope (self : RunControl) (tenant : dyn pystr)
    : res (pystr * pystr * pystr * option pystr * pystr) :=
  t ← stable_token tenant "tenant_id";
  Ok (t, rc_run_id self, required_action (rc_action self), rc_stage_id self,
      rc_idempotency_key self).

Definition control_authorize (now : datetime) (self : RunControl) (context : dyn OperatorContext)
    (at_ : option (dyn datetime)) : res unit :=
  c ← require_instance context (TypeError "context must be an OperatorContext");
  _ ← require_fresh now c at_;
  require_action c (Inst (required_action (rc_action self))).

(** ** Queries and pages *)

Definition cursor_char (c : Z) : bool := is_alnum c || (c =? 95) || (c =? 45).

(** [[A-Za-z0-9_-]{1,1024}] *)
Definition CURSOR : re := RCat (RChar cursor_char) (RUpTo 1023 (RChar cursor_char)).

Record RunQuery := MkRunQuery {
  rq_limit : Z;
  rq_cursor : option pystr;
  rq_states : gset RunState;
  rq_kinds : gset pystr
}.

(** [states] is [None] for an object that is not iterable, the elements of
    any iterable (a string included) otherwise. *)
Definition query_post_init (limit : dynint) (cursor : option (dyn pystr))
    (states : option (list (dyn RunState))) (kinds : dyniter (dyn pystr)) : res RunQuery :=
  n ← require_int limit (TypeError "limit must be an integer");
  _ ← raise_if (negb ((1 <=? n) && (n <=? 100))) (ValueError "limit must be between 1 and 100");
  c ← opt_check (fun v =>
        match v with
        | Inst s => _ ← raise_if (negb (re_match CURSOR s))
                          (ValueError "cursor must be a bounded opaque URL-safe token"); Ok s
        | Foreign => Raise (ValueError "cursor must be a bounded opaque URL-safe token")
        end) cursor;
  ss ← match states with
       | None => Raise (TypeError "object is not iterable")
       | Some vs =>
           l ← traverse (fun v => require_instance v (TypeError "states must contain RunState values")) vs;
           Ok (list_to_set l)
       end;
  ks ← frozen_tokens kinds "kinds";
  Ok (MkRunQuery n c ss ks).

Record RunPage := MkRunPage {
  rp_records : list RunRecord;
  rp_next_cursor : option pystr
}.

(** The [run_ids] loop. *)
Fixpoint check_unique_run_ids (seen : gset pystr) (l : list RunRecord) : res unit :=
  match l with
  | [] => Ok tt
  | r :: l' =>
      if bool_decide (record_run_id r ∈ seen)
      then Raise (ValueError "records must not contain duplicate run_id values")
      else check_unique_run_ids ({[record_run_id r]} ∪ seen) l'
  end.

Definition page_post_init (records : dyniter (dyn RunRecord)) (next_cursor : option (dyn pystr))
    : res RunPage :=
  normalized ← match records with
               | Iter l => Ok l
               | _ => Raise (TypeError "records must be an iterable of RunRecord values")
               end;
  _ ← raise_if (100 <? len normalized)
        (ValueError "a run page must contain at most 100 records");
  rs ← traverse (fun v => require_instance v (TypeError "records must contain RunRecord values"))
         normalized;
  _ ← check_unique_run_ids ∅ rs;
  c ← opt_check (fun v =>
        match v with
        | Foreign => Raise (TypeError "next_cursor must be a string or None")
        | Inst s => _ ← raise_if (negb (re_match CURSOR s))
                          (ValueError "next_cursor must be a bounded opaque URL-safe token"); Ok s
        end) next_cursor;
  Ok (MkRunPage rs c).

(** ** Artifact metadata *)

Definition MAX_METADATA_STRING : Z := 4096.
Definition MAX_SAFE_INTEGER : Z := 9007199254740991.
Definition MAX_FLOAT_SIGNIFICANT_DIGITS : Z := 15.

Definition METADATA_LIMITS : JSONLimits :=
  {| max_depth := Some 16; max_nodes := Some 1024; max_keys := Some 256;
     max_encoded_bytes := None |}.

(** [abs(value) > n] of a float, exactly. *)
Definition float_abs_gtb (f : pyfloat) (n : Z) : bool :=
  match f with
  | FFin _ coef expo => if 0 <=? expo then n <? coef * 10 ^ expo else n * 10 ^ (- expo) <? coef
  | FInf _ => true
  | FNaN => false
  end.

(** [len(Decimal(text).as_tuple().digits)] of the text of a finite float: the
    digits before the exponent without leading zeros, at least one. *)
Definition decimal_digits (text : pystr) : Z :=
  let mantissa := (cut 101 text).1 in
  Z.max 1 (len (drop_while (Z.eqb 48) (filter (fun c => is_digit c) mantissa))).

Definition metadata_key (v : pyval) : res pystr :=
  match v with
  | VStr s => browser_safe_string (Inst s) "metadata key" 256 false
  | _ => Raise (TypeError "metadata keys must be strings")
  end.

Definition metadata_string (s : pystr) : res pystr :=
  browser_safe_string (Inst s) "metadata string" MAX_METADATA_STRING true.

Definition metadata_number (n : pynum) : res pynum :=
  match n with
  | NInt z =>
      _ ← raise_if (negb ((- MAX_SAFE_INTEGER <=? z) && (z <=? MAX_SAFE_INTEGER)))
            (ValueError "metadata integer exceeds the interoperable JSON range");
      Ok n
  | NFloat f =>
      _ ← raise_if (float_abs_gtb f MAX_SAFE_INTEGER)
            (ValueError "metadata number exceeds the interoperable JSON range");
      _ ← raise_if (isfinite f && (MAX_FLOAT_SIGNIFICANT_DIGITS <? decimal_digits (float_repr f)))
            (ValueError "metadata number exceeds supported precision");
      Ok n
  end.

Definition metadata_validators : validators :=
  {| validate_key := metadata_key;
     validate_string := Some metadata_string;
     validate_number := Some metadata_number |}.

Definition freeze_metadata (h : heap) (msd : Z) (value : pyval) : res fjson :=
  match value with
  | VRef l =>
      match h !! l with
      | Some (CDict _) =>
          r ← freeze_json h METADATA_LIMITS metadata_validators msd value; Ok r.1
      | _ => Raise (TypeError "metadata must be a mapping")
      end
  | _ => Raise (TypeError "metadata must be a mapping")
  end.

(** ** Lemmas *)

Lemma require_instance_Ok {A} (v : dyn A) e a : require_instance v e = Ok a <-> v = Inst a.
Proof. destruct v; cbn; [|done]. split; congruence. Qed.

Lemma require_int_Ok v e z : require_int v e = Ok z <-> v = DInt z.
Proof. destruct v; cbn; split; congruence. Qed.

(** Turn hypotheses on the validators into facts about their arguments. *)
Ltac field_facts :=
  repeat match goal with
  | H : stable_token _ _ = Ok _ |- _ => apply stable_token_Ok in H as [? ?]
  | H : non_empty_text _ _ = Ok _ |- _ => apply non_empty_text_Ok in H as [? ?]
  | H : aware_datetime _ _ = Ok _ |- _ => apply aware_datetime_Ok in H as [? ?]
  | H : frozen_tokens _ _ = Ok _ |- _ => apply frozen_tokens_set in H as [? ?]
  | H : require_instance _ _ = Ok _ |- _ => apply require_instance_Ok in H
  | H : require_int _ _ = Ok _ |- _ => apply require_int_Ok in H
  | H : unique_tuple _ _ = Ok _ |- _ => apply unique_tuple_Ok in H as [? ?]
  end.

(** Evaluate the next validator of a constructor applied to good arguments. *)
Ltac field_step :=
  first [ ok_step ltac:(by apply stable_token_Ok)
        | ok_step ltac:(by apply non_empty_text_Ok)
        | ok_step ltac:(by apply aware_datetime_Ok)
        | ok_step ltac:(by apply frozen_tokens_set)
        | ok_step ltac:(by apply require_instance_Ok)
        | ok_step ltac:(by apply require_int_Ok)
        | ok_step ltac:(by apply unique_tuple_Ok) ].

(** The invariant of a launch: manual runs have no orchestrator, agent runs
    have one. *)
Record launch_wf (l : RunLaunch) : Prop := {
  lw_run_id : well_formed_token (rl_run_id l);
  lw_kind : well_formed_token (rl_kind l);
  lw_initiated_by : well_formed_token (rl_initiated_by l);
  lw_tenant_id : well_formed_token (rl_tenant_id l);
  lw_key : well_formed_token (rl_idempotency_key l);
  lw_orchestrator :
    match rl_source l, rl_orchestrator l with
    | MANUAL, None => True
    | AGENT, Some o => well_formed_token o
    | _, _ => False
    end
}.

Record launch_args (l : RunLaunch) (a : LaunchArgs) : Prop := {
  lr_run_id : la_run_id a = Inst (rl_run_id l);
  lr_kind : la_kind a = Inst (rl_kind l);
  lr_source : la_source a = Inst (rl_source l);
  lr_initiated_by : la_initiated_by a = Inst (rl_initiated_by l);
  lr_tenant_id : la_tenant_id a = Inst (rl_tenant_id l);
  lr_target : la_target a = Inst (rl_target l);
  lr_key : la_idempotency_key a = Inst (rl_idempotency_key l);
  lr_orchestrator : la_orchestrator a = Inst <$> rl_orchestrator l
}.

Lemma launch_post_init_Ok a l :
  launch_post_init a = Ok l <-> launch_args l a /\ launch_wf l.
Proof.
  unfold launch_post_init. split.
  - intros H. inv_ok. field_facts.
    match goal with H : context [la_orchestrator a] |- _ => rename H into Ho end.
    destruct (la_orchestrator a) as [v|] eqn:Hv;
      match goal with s : RunSource |- _ => destruct s end; inv_ok; field_facts;
      split; split; cbn; try done; rewrite Hv; cbn; congruence.
  - intros [[] []]. destruct l as [r k s i t tg ik o]; cbn in *.
    repeat field_step. rewrite lr_orchestrator0. destruct s, o as [o|]; try done; cbn [fmap option_fmap option_map].
    by rewrite (proj2 (stable_token_Ok (Inst o) _ o)).
Qed.

Lemma required_action_inj : Inj (=) (=) required_action.
Proof. intros [] [] H; vm_compute in H; congruence. Qed.

(** ** Authorization *)

(** Who a launch is attributed to. *)
Definition provenance (c : OperatorContext) (l : RunLaunch) : Prop :=
  match rl_source l with
  | MANUAL => acting_agent_id c = None /\ rl_initiated_by l = principal_id c
  | AGENT => acting_agent_id c = Some (rl_initiated_by l)
  end.

Definition fresh_at (now : datetime) (at_ : option (dyn datetime)) (c : OperatorContext) : Prop :=
  exists t, check_time now at_ t /\ within_validity c t.

Ltac guard_facts Hc :=
  repeat match goal with
  | H : require_fresh _ _ _ = Ok _ |- _ => apply require_fresh_Ok in H
  | H : require_action _ _ = Ok _ |- _ => apply (require_action_Ok _ _ _ Hc) in H as (? & [= <-] & ?)
  | H : require_capability _ _ = Ok _ |- _ =>
      apply (require_capability_Ok _ _ _ Hc) in H as (? & [= <-] & ?)
  | H : require_boundary _ _ = Ok _ |- _ =>
      apply (require_boundary_Ok _ _ _ Hc) in H as (? & [= <-] & ?)
  | H : require_tenant _ _ = Ok _ |- _ => apply (require_tenant_Ok _ _ _ Hc) in H as [= ?]
  end.

(** A launch is authorized exactly when the context is fresh, grants
    [run.launch], the launch's boundary and capability, belongs to the
    launch's tenant, and is the launch's own initiator: the principal of a
    manual run, the acting agent of an agent run, never one for the other. *)
Theorem launch_authorize_exact a c (Hc : context_post_init a = Ok c) now l at_ :
  launch_authorize now l (Inst c) at_ = Ok tt <->
  fresh_at now at_ c
  /\ RUN_LAUNCH_ACTION ∈ granted_actions c
  /\ rl_tenant_id l = tenant_id c
  /\ tr_boundary_id (rl_target l) ∈ permitted_boundary_ids c
  /\ tr_capability (rl_target l) ∈ granted_capabilities c
  /\ provenance c l.
Proof.
  apply context_post_init_Ok in Hc as [_ Hc]. unfold launch_authorize, provenance, fresh_at.
  cbn [require_instance mbind result_bind]. split.
  - intros H. inv_ok. guard_facts Hc. split_and!; try done.
    destruct (rl_source l); inv_ok; bool_hyps; [|done]. split; [|done].
    by apply eq_None_not_Some.
  - intros (Hf & Ha & Ht & Hb & Hcap & Hp).
    ok_step ltac:(by apply (require_fresh_Ok _ _ _ tt)).
    ok_step ltac:(apply (require_action_Ok _ _ tt Hc); by eexists).
    ok_step ltac:(apply (require_tenant_Ok _ _ tt Hc); by f_equal).
    ok_step ltac:(apply (require_boundary_Ok _ _ tt Hc); by eexists).
    ok_step ltac:(apply (require_capability_Ok _ _ tt Hc); by eexists).
    destruct (rl_source l).
    + destruct Hp as [-> ->]. ok_guard done.
      apply raise_if_Ok, negb_false_iff. by apply bool_decide_eq_true.
    + apply raise_if_Ok, negb_false_iff. by apply bool_decide_eq_true.
Qed.

Lemma record_authorize_Ok c (Hc : context_wf c) now r action at_ :
  record_authorize now r (Inst c) action at_ = Ok tt <->
  rl_tenant_id (rr_launch r) = tenant_id c
  /\ fresh_at now at_ c
  /\ (exists s, action = Inst s /\ s ∈ granted_actions c)
  /\ tr_boundary_id (rl_target (rr_launch r)) ∈ permitted_boundary_ids c
  /\ tr_capability (rl_target (rr_launch r)) ∈ granted_capabilities c.
Proof.
  unfold record_authorize, fresh_at. cbn [require_instance mbind result_bind]. split.
  - intros H. inv_ok. bool_hyps.
    match goal with H : matches_tenant _ _ = true |- _ =>
      apply (matches_tenant_true _ _ Hc) in H as [= ?] end.
    match goal with H : require_action _ _ = Ok _ |- _ =>
      apply (require_action_Ok _ _ _ Hc) in H end.
    guard_facts Hc. done.
  - intros (Ht & Hf & (s & -> & Ha) & Hb & Hcap).
    ok_step ltac:(apply stable_token_Ok; split; [done | by apply (cw_actions _ Hc)]).
    ok_guard ltac:(apply negb_false_iff, (matches_tenant_true _ _ Hc); by f_equal).
    ok_step ltac:(by apply (require_fresh_Ok _ _ _ tt)).
    ok_step ltac:(apply (require_action_Ok _ _ tt Hc); by eexists).
    ok_step ltac:(apply (require_boundary_Ok _ _ tt Hc); by eexists).
    apply (require_capability_Ok _ _ tt Hc); by eexists.
Qed.

(** C33. Record authorization is no existence oracle. For a record of another
    tenant the outcome depends only on the action's syntax: every well-formed
    action gives the [RunNotFoundError] of an absent run, whatever the record
    and the clock. For a record of the caller's tenant that error never
    occurs, and success needs freshness, action, boundary and capability. *)
Theorem record_authorize_no_oracle a c (Hc : context_post_init a = Ok c) now r action at_ :
  (rl_tenant_id (rr_launch r) <> tenant_id c ->
     (forall s, well_formed_token s ->
        record_authorize now r (Inst c) (Inst s) at_ = Raise (RunNotFoundError "run not found"))
     /\ (forall r' now' at', rl_tenant_id (rr_launch r') <> tenant_id c ->
        record_authorize now r (Inst c) action at_ = record_authorize now' r' (Inst c) action at'))
  /\ (rl_tenant_id (rr_launch r) = tenant_id c ->
     (forall m, record_authorize now r (Inst c) action at_ <> Raise (RunNotFoundError m))
     /\ (record_authorize now r (Inst c) action at_ = Ok tt <->
         fresh_at now at_ c /\ (exists s, action = Inst s /\ s ∈ granted_actions c)
         /\ tr_boundary_id (rl_target (rr_launch r)) ∈ permitted_boundary_ids c
         /\ tr_capability (rl_target (rr_launch r)) ∈ granted_capabilities c)).
Proof.
  apply context_post_init_Ok in Hc as [_ Hc].
  assert (Hforeign : forall now r at_ v, rl_tenant_id (rr_launch r) <> tenant_id c ->
    record_authorize now r (Inst c) v at_ =
    (_ ← stable_token v "action"; Raise (RunNotFoundError "run not found"))).
  { intros now0 r0 at0 v Hne. unfold record_authorize. cbn [require_instance mbind result_bind].
    destruct (stable_token v "action"); [|done].
    replace (matches_tenant c _) with false; [done|]. symmetry. apply not_true_iff_false.
    rewrite (matches_tenant_true _ _ Hc). congruence. }
  split.
  - intros Hne. split.
    + intros s Hs. rewrite Hforeign by done. by rewrite (proj2 (stable_token_Ok (Inst s) _ s)).
    + intros r' now' at' Hne'. by rewrite !Hforeign.
  - intros Heq. split; [|rewrite record_authorize_Ok by done; tauto]. intros m.
    unfold record_authorize. cbn [require_instance mbind result_bind].
    rewrite (proj2 (matches_tenant_true _ (Inst (rl_tenant_id _)) Hc)) by by f_equal.
    unfold require_fresh, require_action, require_boundary, require_capability, raise_if.
    destruct (stable_token action "action") eqn:Ha; [|apply stable_token_Raise in Ha as ->; done].
    cbn. destruct at_ as [[]|]; cbn; try (destruct (is_naive _); cbn);
      repeat (destruct (_ || _); cbn); repeat (destruct (negb _); cbn); done.
Qed.

(** ** Idempotency *)

(** The idempotency scope together with the replay identity determine a
    launch: under one trusted tenant, a request that matches both is the same
    request, so no differing input can pass for a replay. *)
Theorem launch_replay_exact l1 l2 tenant s1 s2
    (H1 : launch_idempotency_scope l1 tenant = Ok s1)
    (H2 : launch_idempotency_scope l2 tenant = Ok s2) :
  s1 = s2 /\ replay_identity l1 = replay_identity l2 <-> l1 = l2.
Proof.
  unfold launch_idempotency_scope in *. inv_ok. rewrite Hm0 in Hm. injection Hm as ->.
  destruct l1, l2; unfold replay_identity; cbn. split; [|by intros [= -> -> -> -> -> -> -> ->]].
  intros [Hs Hr]. by injection Hs as ->; injection Hr as -> -> -> -> -> -> ->.
Qed.

(** The scope of a control names its tenant, run, action, stage and key
    and nothing else: two controls share it exactly when they differ at most
    in the expected sequence, the compare-and-set precondition. *)
Theorem control_scope_exact c1 c2 t1 t2 s1 s2
    (H1 : control_idempotency_scope c1 t1 = Ok s1)
    (H2 : control_idempotency_scope c2 t2 = Ok s2) :
  s1 = s2 <-> t1 = t2 /\ exists n, c2 = MkRunControl (rc_run_id c1) (rc_action c1)
                (rc_idempotency_key c1) (rc_stage_id c1) n.
Proof.
  unfold control_idempotency_scope in *. inv_ok. field_facts. subst.
  destruct c1 as [r1 a1 k1 i1 n1], c2 as [r2 a2 k2 i2 n2]; cbn. split.
  - intros [= -> -> Ha -> ->]. apply required_action_inj in Ha as ->. split; [done|]. by exists n2.
  - by intros [[= ->] (n0 & [= -> -> -> -> ->])].
Qed.

(** ** Pages and queries *)

Definition cursor_ok (c : option pystr) : Prop :=
  forall s, c = Some s -> 1 <= len s <= 1024 /\ Forall (fun x => cursor_char x = true) s.

Lemma cursor_lang s :
  re_match CURSOR s = true <-> 1 <= len s <= 1024 /\ Forall (fun x => cursor_char x = true) s.
Proof.
  unfold CURSOR, len. rewrite re_match_lang, cat_lang_iff. split.
  - intros (s1 & s2 & -> & H1 & H2). apply char_lang in H1 as (c & -> & Hc).
    apply upto_char_lang in H2 as [Hl HF]. cbn [app length]. split; [lia|]. by constructor.
  - intros [Hl HF]. destruct s as [|c s]; [cbn in Hl; lia|]. cbn [length] in Hl.
    apply list.Forall_cons in HF as [Hc HF]. exists [c], s. split_and!; [done|by constructor|].
    apply upto_char_lang. split; [lia | done].
Qed.

Lemma opt_cursor_Ok (e : exn) (e' : exn) v r :
  opt_check (fun v => match v with
    | Foreign => Raise e'
    | Inst s => _ ← raise_if (negb (re_match CURSOR s)) e; Ok s
    end) v = Ok r <-> v = Inst <$> r /\ cursor_ok r.
Proof.
  destruct v as [v|]; cbn [opt_check].
  - rewrite bind_Ok. split.
    + intros (s & H & [= <-]). destruct v as [s'|]; inv_ok. bool_hyps. split; [done|].
      intros ? [= <-]. by apply cursor_lang.
    + intros [Hv Hr]. destruct r as [s|]; [|done]. injection Hv as ->. exists s.
      specialize (Hr s eq_refl). apply cursor_lang in Hr. by rewrite Hr.
  - split; [by intros [= <-]|]. intros [Hv _]. by destruct r.
Qed.

Lemma check_unique_Ok seen l u :
  check_unique_run_ids seen l = Ok u <->
  NoDup (record_run_id <$> l) /\ Forall (fun r => record_run_id r ∉ seen) l.
Proof.
  revert seen; induction l as [|r l IH]; intros seen; cbn.
  - split; [by repeat constructor|]. by destruct u.
  - rewrite list.NoDup_cons, list.Forall_cons. case_bool_decide as Hr.
    + split; [done|]. by intros (_ & Hn & _).
    + rewrite IH, list_elem_of_fmap, !list.Forall_forall. setoid_rewrite not_elem_of_union.
      setoid_rewrite not_elem_of_singleton. split.
      * intros [Hnd HF]. split_and!; [|done|done|].
        -- intros (r' & Heq & Hin). by destruct (HF r' Hin) as [Hne _].
        -- intros x Hx. by destruct (HF x Hx).
      * intros ((Hn & Hnd) & _ & HF). split; [done|]. intros x Hx. split; [|by apply HF].
        intros Heq. apply Hn. by exists x.
Qed.

Lemma traverse_instance {A} (vs : list (dyn A)) e l :
  traverse (fun v => require_instance v e) vs = Ok l <-> vs = Inst <$> l.
Proof.
  rewrite traverse_Ok. split.
  - induction 1 as [|v a vs l Hv _ IH]; [done|]. apply require_instance_Ok in Hv as ->.
    cbn. by f_equal.
  - intros ->. induction l; constructor; [by apply require_instance_Ok | done].
Qed.

(** A page holds exactly the records it was given, in order: it is
    accepted if and only if they are at most 100 run records with distinct
    run ids and the cursor is absent or a bounded URL-safe token. Nothing is
    deduplicated silently. *)
Theorem page_post_init_exact records cursor p :
  page_post_init records cursor = Ok p <->
  records = Iter (Inst <$> rp_records p) /\ len (rp_records p) <= 100
  /\ NoDup (record_run_id <$> rp_records p)
  /\ cursor = Inst <$> rp_next_cursor p /\ cursor_ok (rp_next_cursor p).
Proof.
  unfold page_post_init. split.
  - intros H. inv_ok. bool_hyps. destruct records as [l| |]; inv_ok.
    rewrite traverse_instance in *. rewrite check_unique_Ok in *. rewrite opt_cursor_Ok in *.
    subst. unfold len in *. rewrite length_fmap in *. cbn. naive_solver.
  - intros (-> & Hl & Hnd & -> & Hc). destruct p as [rs c]; cbn in *.
    ok_guard ltac:(apply Z.ltb_ge; unfold len in *; by rewrite length_fmap).
    ok_step ltac:(by apply traverse_instance).
    ok_step ltac:(apply (check_unique_Ok _ _ tt); split; [done|]; apply list.Forall_forall; set_solver).
    by ok_step ltac:(by apply opt_cursor_Ok).
Qed.

Lemma traverse_instance_set vs e (S : gset RunState) :
  (l ← traverse (fun v => require_instance v e) vs; Ok (list_to_set l)) = Ok S <->
  exists l, vs = Inst <$> l /\ S = list_to_set l.
Proof.
  rewrite bind_Ok. setoid_rewrite traverse_instance.
  split; intros (l & -> & H); exists l; split; congruence.
Qed.

(** A query is accepted exactly when its limit is an integer (not a
    boolean) between 1 and 100, its cursor a bounded URL-safe token, its
    states run states and its kinds tokens. *)
Theorem query_post_init_exact limit cursor states kinds q :
  query_post_init limit cursor states kinds = Ok q <->
  limit = DInt (rq_limit q) /\ 1 <= rq_limit q <= 100
  /\ cursor = Inst <$> rq_cursor q /\ cursor_ok (rq_cursor q)
  /\ (exists l, states = Some (Inst <$> l) /\ rq_states q = list_to_set l)
  /\ (exists l, kinds = Iter (Inst <$> l) /\ Forall well_formed_token l
      /\ rq_kinds q = list_to_set l).
Proof.
  unfold query_post_init. split.
  - intros H. inv_ok. bool_hyps. rewrite require_int_Ok in *. rewrite opt_cursor_Ok in *.
    rewrite frozen_tokens_Ok in *.
    match goal with H : _ = Ok ?S |- _ => match type of S with gset RunState => rename H into Hs end end.
    destruct states as [vs|]; [|done]. apply traverse_instance_set in Hs as (l & -> & ->).
    cbn. naive_solver.
  - intros (-> & Hl & -> & Hc & (l & -> & HS) & (ks & -> & Hks & HK)).
    destruct q as [n c S K]; cbn [rq_limit rq_cursor rq_states rq_kinds] in *. subst.
    ok_step ltac:(by apply require_int_Ok).
    ok_guard ltac:(apply negb_false_iff, andb_true_iff; lia).
    ok_step ltac:(by apply opt_cursor_Ok).
    ok_step ltac:(apply traverse_instance_set; by exists l).
    by ok_step ltac:(apply frozen_tokens_Ok; by exists ks).
Qed.

(** ** Records and metadata *)

(** A run record is accepted exactly when its clocks are aware and in
    order and its sequence is a non-negative integer; without an explicit
    transition time it is the acceptance time. *)
Theorem record_post_init_exact launch state accepted changed sequence r :
  record_post_init launch state accepted changed sequence = Ok r <->
  launch = Inst (rr_launch r) /\ state = Inst (rr_state r)
  /\ accepted = Inst (rr_accepted_at r) /\ sequence = DInt (rr_sequence r)
  /\ (changed = Some (Inst (rr_state_changed_at r))
      \/ changed = None /\ rr_state_changed_at r = rr_accepted_at r)
  /\ is_naive (rr_accepted_at r) = false /\ is_naive (rr_state_changed_at r) = false
  /\ 0 <= dt_sub (rr_state_changed_at r) (rr_accepted_at r) /\ 0 <= rr_sequence r.
Proof.
  unfold record_post_init. split.
  - intros H. inv_ok. bool_hyps. destruct changed as [v|]; inv_ok; field_facts; subst; cbn;
      unfold dt_ltb in *; bool_hyps; split_and!; auto.
  - intros (-> & -> & -> & -> & Hch & Ha & Hc & Ht & Hn). destruct r as [l s a c n].
    cbn [rr_launch rr_state rr_accepted_at rr_state_changed_at rr_sequence] in *.
    field_step. field_step.
    ok_step ltac:(by apply aware_datetime_Ok).
    apply bind_Ok. exists c. split.
    { destruct Hch as [->|[-> ->]]; [by apply aware_datetime_Ok | done]. }
    ok_guard ltac:(unfold dt_ltb; apply Z.ltb_ge; lia). field_step.
    by ok_guard ltac:(by apply Z.ltb_ge).
Qed.

#[local] Arguments browser_safe_string : simpl never.

#[export] Instance metadata_validators_faithful : FaithfulValidators metadata_validators.
Proof.
  split; cbn.
  - intros [] k H; try done. cbn in H. by apply browser_safe_string_Ok in H as ([= <-] & _).
  - intros s s' H. unfold metadata_string in H. by apply browser_safe_string_Ok in H as ([= ->] & _).
  - intros [z|f] n' H; cbn in H; by inv_ok.
Qed.

Lemma browser_safe_string_Raise v field m b e :
  browser_safe_string v field m b = Raise e -> is_TypeError e = true \/ is_ValueError e = true.
Proof.
  unfold browser_safe_string. destruct v; [|intros [= <-]; by left].
  intros H. apply bind_Raise in H as [H|(? & _ & H)]; [apply raise_if_Raise in H as [_ <-]; by right|].
  apply bind_Raise in H as [H|(? & _ & H)]; [apply raise_if_Raise in H as [_ <-]; by right | done].
Qed.

#[export] Instance metadata_validators_pythonic : PythonicValidators metadata_validators.
Proof.
  split; cbn.
  - intros [] H; cbn in H; try done. by apply browser_safe_string_Raise in H as [].
  - intros s H. unfold metadata_string in H. by apply browser_safe_string_Raise in H as [].
  - intros [z|f]; cbn; unfold raise_if; repeat (destruct (negb _) || destruct (float_abs_gtb _ _) || destruct (_ && _)); done.
Qed.

(** A scalar every interoperable JSON reader keeps exactly, and shows safely. *)
Definition interoperable (t : fjson) : Prop :=
  match t with
  | FInt z => - 2 ^ 53 < z < 2 ^ 53
  | FFloat f => isfinite f = true /\ float_abs_gtb f MAX_SAFE_INTEGER = false
                /\ decimal_digits (float_repr f) <= 15
  | FStr s => len s <= 4096 /\ Forall (fun c => unsafe_browser_codepoint c = false) s
  | _ => True
  end.

Definition safe_key (k : pystr) : Prop :=
  1 <= len k <= 256 /\ Forall (fun c => unsafe_browser_codepoint c = false) k.

Lemma metadata_accepted t : accepted metadata_validators t -> everywhere interoperable safe_key t.
Proof.
  apply everywhere_impl.
  - intros []; cbn; try done.
    + intros H. inv_ok. bool_hyps. unfold MAX_SAFE_INTEGER in *. lia.
    + intros [Hf H]. inv_ok. rewrite Hf in *. cbn in *. bool_hyps. done.
    + unfold metadata_string. intros H. by apply browser_safe_string_Ok in H as (_ & _ & Hl & HF).
  - intros k H. cbn in H. apply browser_safe_string_Ok in H as (_ & Hne & Hl & HF).
    split; [|done]. specialize (Hne eq_refl). unfold len in *. destruct k; [done|cbn [length] in *; lia].
Qed.

(** Frozen artifact metadata is a mapping that denotes the caller's
    value, at most 16 deep with at most 1024 nodes and 256 keys, whose text
    is browser-safe and whose numbers survive any JSON reader. *)
Theorem freeze_metadata_interoperable h msd v t
    (Hwf : heap_wf h) (Hf : freeze_metadata h msd v = Ok t) :
  unfolds h v t /\ (exists kts, t = FMap kts) /\ everywhere interoperable safe_key t
  /\ depth_of t <= 16 /\ c_nodes (cost_of t) <= 1024 /\ c_keys (cost_of t) <= 256.
Proof.
  unfold freeze_metadata in Hf. destruct v as [| | | | |l|]; try done.
  destruct (h !! l) as [[items|]|] eqn:Hl; try done. apply bind_Ok in Hf as ([t' n] & Hf & [= <-]).
  apply freeze_json_Ok in Hf as (Hu & Ha & (Hd & Hn & Hk & _) & _); [|apply _|done|done].
  cbn in Hd, Hn, Hk. bool_hyps. split_and!; [done| |by apply metadata_accepted|lia..].
  cbn. inversion Hu; [congruence|]. eauto.
Qed.

(** The digit count reads the text of [repr]: a whole number printed
    positionally counts its trailing zero, so [1e14] is refused. *)
Lemma metadata_refuses_round_float :
  metadata_number (NFloat (FFin false 1 14))
  = Raise (ValueError "metadata number exceeds supported precision")
  /\ metadata_number (NInt (10 ^ 14)) = Ok (NInt (10 ^ 14)).
Proof. split; vm_compute; reflexivity. Qed.

(** ** Witnesses *)

Definition sample_launch : RunLaunch :=
  MkRunLaunch (u "run-1") (u "train") MANUAL (u "operator:7") (u "lab")
    (MkTargetReference (u "t1") (u "boundary-1") (u "compute.gpu")) (u "key-1") None.

Lemma launch_authorize_exact_witness :
  launch_authorize (utc_datetime (2 * day_us)) sample_launch (Inst sample_context) None = Ok tt
  /\ fresh_at (utc_datetime (2 * day_us)) None sample_context.
Proof.
  assert (H : launch_authorize (utc_datetime (2 * day_us)) sample_launch (Inst sample_context) None
              = Ok tt) by (vm_compute; reflexivity).
  split; [exact H|].
  apply (launch_authorize_exact _ _ sample_context_built _ sample_launch) in H as [Hf _]. exact Hf.
Defined.

Definition foreign_record : RunRecord :=
  MkRunRecord (MkRunLaunch (u "run-9") (u "train") MANUAL (u "eve") (u "other")
    (MkTargetReference (u "t1") (u "boundary-1") (u "compute.gpu")) (u "key-1") None)
    RUNNING (utc_datetime 0) (utc_datetime 0) 3.

Lemma record_authorize_no_oracle_witness :
  record_authorize (utc_datetime 0) foreign_record (Inst sample_context) (Inst RUN_READ_ACTION) None
  = Raise (RunNotFoundError "run not found").
Proof.
  destruct (record_authorize_no_oracle _ _ sample_context_built (utc_datetime 0) foreign_record
              Foreign None) as [H _].
  assert (Hne : rl_tenant_id (rr_launch foreign_record) <> tenant_id sample_context)
    by (vm_compute; congruence).
  destruct (H Hne) as [Hr _]. apply Hr. apply (bool_decide_unpack _). vm_compute. exact I.
Defined.

Lemma launch_replay_exact_witness :
  launch_idempotency_scope sample_launch (Inst (u "lab"))
  = Ok (u "lab", RUN_LAUNCH_ACTION, u "key-1")
  /\ sample_launch = sample_launch.
Proof.
  assert (H : launch_idempotency_scope sample_launch (Inst (u "lab"))
              = Ok (u "lab", RUN_LAUNCH_ACTION, u "key-1")) by (vm_compute; reflexivity).
  split; [exact H|]. apply (launch_replay_exact sample_launch sample_launch _ _ _ H H).
  split; reflexivity.
Defined.

Definition sample_control (n : option Z) : RunControl :=
  MkRunControl (u "run-1") RETRY (u "key-2") (Some (u "stage-1")) n.

Lemma control_scope_exact_witness :
  control_idempotency_scope (sample_control None) (Inst (u "lab"))
  = control_idempotency_scope (sample_control (Some 4)) (Inst (u "lab")).
Proof.
  destruct (control_idempotency_scope (sample_control None) (Inst (u "lab"))) as [s1|] eqn:H1;
    [|vm_compute in H1; discriminate H1].
  destruct (control_idempotency_scope (sample_control (Some 4)) (Inst (u "lab"))) as [s2|] eqn:H2;
    [|vm_compute in H2; discriminate H2].
  f_equal. apply (control_scope_exact _ _ _ _ _ _ H1 H2).
  split; [reflexivity|]. exists (Some 4). reflexivity.
Defined.

(** [{"shots": [1, 2.5]}] *)
Definition metadata_heap : heap :=
  <[1%positive := CDict [(VStr (u "shots"), VRef 2%positive)]]>
    (<[2%positive := CSeq [VInt 1; VFloat (FFin false 25 (-1))]]> ∅).

Lemma freeze_metadata_interoperable_witness :
  everywhere interoperable safe_key
    (FMap [(u "shots", FTuple [FInt 1; FFloat (FFin false 25 (-1))])]).
Proof.
  apply (freeze_metadata_interoperable metadata_heap 4300 (VRef 1%positive)).
  - apply heap_wfb_wf. vm_compute. reflexivity.
  - vm_compute. reflexivity.
Defined.
