(* ===== verification/RunArtifacts.v ===== *)
(** * Artifact records of a run ([kestrel_sdk/operator/runs.py])

    The link policy of [ArtifactRecord]: a canonical same-origin path or a
    validated absolute HTTPS URL, and the record that carries it. *)

From stdpp Require Import gmap.
From S2P Require Export UrlSplit Runs.

(** [[A-Za-z0-9][A-Za-z0-9!#$&^_.+-]*/...] *)
Definition media_char (c : Z) : bool := is_alnum c || mem c (u "!#$&^_.+-").

Definition MEDIA_PART : re := RCat (RChar is_alnum) (RStar (RChar media_char)).

Definition MEDIA_TYPE : re := RCat MEDIA_PART (RCat (RLit (u "/")) MEDIA_PART).

Definition ARTIFACT_PREFIX : pystr := u "/authorized/artifacts/".

(** [_CANONICAL_ARTIFACT_PATH.fullmatch(value)]: its capture group. *)
Definition canonical_artifact_path (value : pystr) : option pystr :=
  if re_match (RCat (RLit ARTIFACT_PREFIX) STABLE_TOKEN) value
  then Some (drop (length ARTIFACT_PREFIX) value) else None.

(** Printable ASCII other than the space. *)
Definition url_char (c : Z) : bool := in_range 33 126 c.

Definition ascii_url (value : pystr) : res unit :=
  raise_if (mem 92 value || existsb (fun c => negb (url_char c)) value)
    (ValueError "href contains unsafe characters").

Definition dns_label (label : pystr) : bool :=
  (1 <=? len label) && (len label <=? 63)
  && match head label with Some c => is_alnum c | None => false end
  && match list.last label with Some c => is_alnum c | None => false end
  && forallb (fun c => is_alnum c || (c =? 45)) label.

Definition safe_hostname (value : pystr) : bool :=
  if (253 <? len value) || mem 37 value then false
  else if mem 58 value then IPv6Address value
  else
    let hostname :=
      match list.last value with Some 46 => removelast value | _ => value end in
    negb (bool_decide (hostname = [])) && forallb dns_label (split_char 46 hostname).

(** The loop of [_validate_percent_encoding], three characters at a time on
    an escape. *)
Fixpoint validate_percent_encoding (value : pystr) (field_name : string) (is_path : bool) : res unit :=
  match value with
  | [] => Ok tt
  | c :: s =>
      if c =? 37 then
        match s with
        | a :: b :: s' =>
            if is_hex a && is_hex b then
              let decoded := hex_value a * 16 + hex_value b in
              _ ← raise_if ((is_path && mem decoded (u "/\.%")) || (decoded <? 33) || (126 <? decoded))
                    (ValueError (field_name +:+ " contains unsafe encoding"));
              validate_percent_encoding s' field_name is_path
            else Raise (ValueError (field_name +:+ " contains invalid encoding"))
        | _ => Raise (ValueError (field_name +:+ " contains invalid encoding"))
        end
      else validate_percent_encoding s field_name is_path
  end.

(** The bounded decoding loop; its [else] clause raises. *)
Fixpoint decode_path (rounds : nat) (decoded_path : pystr) : res pystr :=
  match rounds with
  | O => Raise (ValueError "href contains excessive path encoding")
  | S rounds' =>
      let next_path := unquote decoded_path in
      if bool_decide (next_path = decoded_path) then Ok decoded_path
      else decode_path rounds' next_path
  end.

Section Href.
Variable nfkc : pystr -> pystr.

Definition authorized_artifact_href (value : dyn pystr) (artifact_id : pystr) : res pystr :=
  let bounded := ValueError "href must be a bounded authorized artifact URL" in
  match value with
  | Foreign => Raise bounded
  | Inst s =>
      _ ← raise_if (bool_decide (s = []) || (4096 <? len s)) bounded;
      _ ← ascii_url s;
      match canonical_artifact_path s with
      | Some id =>
          _ ← raise_if (negb (bool_decide (id = artifact_id)))
                (ValueError "canonical artifact href must use artifact_id");
          Ok s
      | None =>
          _ ← raise_if (starts_with (u "/") s)
                (ValueError "relative href must use the canonical artifact endpoint");
          match urlsplit nfkc s with
          | None => Raise (ValueError "href must be a valid signed HTTPS URL")
          | Some parsed =>
              match port parsed with
              | None => Raise (ValueError "href must be a valid signed HTTPS URL")
              | Some port =>
                  _ ← raise_if
                        (negb (bool_decide (lower (scheme parsed) = u "https"))
                         || negb (match hostname parsed with
                                  | Some h => safe_hostname h | None => false end)
                         || bool_decide (is_Some (username parsed))
                         || bool_decide (is_Some (password parsed))
                         || negb (bool_decide (fragment parsed = []))
                         || negb (starts_with (u "/") (path parsed))
                         || bool_decide (query parsed = [])
                         || match port with
                            | Some p => negb ((1 <=? p) && (p <=? 65535)) | None => false end)
                        (ValueError "absolute href must be a signed HTTPS URL");
                  _ ← validate_percent_encoding (path parsed) "href path" true;
                  _ ← validate_percent_encoding (query parsed) "href query" false;
                  decoded ← decode_path 4 (path parsed);
                  _ ← raise_if
                        (mem 92 decoded
                         || existsb (fun seg => mem seg [u "."; u ".."]) (split_char 47 decoded)
                         || existsb (fun c => negb (url_char c)) decoded)
                        (ValueError "href contains an unsafe path");
                  Ok s
              end
          end
      end
  end.

Record ArtifactRecord := MkArtifactRecord {
  ar_artifact_id : pystr;
  ar_run_id : pystr;
  ar_type : pystr;
  ar_label : pystr;
  ar_media_type : pystr;
  ar_href : pystr;
  ar_metadata : fjson
}.

Definition artifact_post_init (h : heap) (msd : Z)
    (artifact_id run_id type label media_type href : dyn pystr) (metadata : pyval)
    : res ArtifactRecord :=
  let media_err := ValueError "media_type must be a valid type/subtype token" in
  i ← stable_token artifact_id "artifact_id";
  r ← stable_token run_id "run_id";
  t ← stable_token type "type";
  l ← non_empty_text label "label";
  m ← require_instance media_type media_err;
  _ ← raise_if (negb (re_match MEDIA_TYPE m)) media_err;
  hr ← authorized_artifact_href href i;
  md ← freeze_metadata h msd metadata;
  Ok (MkArtifactRecord i r t l m hr md).
End Href.

(** ** Lemmas *)

(** A path whose escapes passed the check decodes in one round. *)
Lemma validated_unquote s f :
  validate_percent_encoding s f true = Ok tt -> 37 ∉ unquote s.
Proof.
  induction s as [|c s IH IH3] using list_ind_3; [intros _; apply not_elem_of_nil|]. cbn.
  destruct (Z.eqb_spec c 37) as [->|Hc].
  - destruct s as [|a [|b s']]; [done..|]. destruct (is_hex a && is_hex b); [|done].
    intros H. inv_ok. bool_hyps. cbn [andb] in *. bool_hyps.
    rewrite not_elem_of_cons. split; [|by eapply IH3].
    intros Heq. match goal with H : _ ∉ u _ |- _ => apply H end. rewrite <- Heq.
    apply (bool_decide_unpack _). by vm_compute.
  - intros H. rewrite not_elem_of_cons. split; [congruence | by apply IH].
Qed.

Lemma decode_path_validated s f :
  validate_percent_encoding s f true = Ok tt -> decode_path 4 s = Ok (unquote s).
Proof.
  intros H. apply validated_unquote in H. apply unquote_no_percent in H.
  unfold decode_path. case_bool_decide as H1; [by rewrite H1|]. rewrite H.
  by rewrite bool_decide_eq_true_2.
Qed.

Lemma ascii_url_Ok s u :
  ascii_url s = Ok u <-> (92 ∉ s) /\ Forall (fun c => url_char c = true) s.
Proof.
  unfold ascii_url. rewrite raise_if_Ok, orb_false_iff, mem_false.
  apply and_iff_compat_l. rewrite <- not_true_iff_false, existsb_exists. split.
  - intros H. apply list.Forall_forall. intros c Hc. apply not_false_iff_true. intros Hu.
    apply H. exists c. rewrite Hu. split; [by apply list_elem_of_In | done].
  - intros HF (c & Hc & Hn). eapply list.Forall_forall in HF; [|by apply list_elem_of_In].
    by rewrite HF in Hn.
Qed.

Lemma canonical_artifact_path_Some s i :
  canonical_artifact_path s = Some i <-> s = ARTIFACT_PREFIX ++ i /\ well_formed_token i.
Proof.
  unfold canonical_artifact_path. destruct (re_match _ s) eqn:Hm.
  - apply re_match_lang, cat_lang_iff in Hm as (p & t & -> & Hp & Ht). apply lit_lang in Hp as ->.
    rewrite drop_app_length. apply stable_token_lang in Ht. split.
    + by intros [= ->].
    + intros [H _]. by apply app_inv_head in H as ->.
  - split; [done|]. intros [-> Hi]. apply not_true_iff_false in Hm. destruct Hm.
    apply re_match_lang, cat_lang_iff. exists ARTIFACT_PREFIX, i. split_and!; [done| |].
    + by apply lit_lang.
    + by apply stable_token_lang.
Qed.

(** What an absolute artifact link is: an HTTPS URL with a real host name,
    no credentials and no fragment, a signature query, and a path that stays
    plain and free of dot segments after decoding. *)
Definition signed_https_url (nfkc : pystr -> pystr) (s : pystr) : Prop :=
  exists r h, urlsplit nfkc s = Some r /\ lower (scheme r) = u "https"
  /\ hostname r = Some h /\ safe_hostname h = true
  /\ username r = None /\ password r = None /\ fragment r = [] /\ query r <> []
  /\ starts_with (u "/") (path r) = true
  /\ (92 ∉ unquote (path r)) /\ Forall (fun c => url_char c = true) (unquote (path r))
  /\ (u "." ∉ split_char 47 (unquote (path r))) /\ (u ".." ∉ split_char 47 (unquote (path r))).

(** Every accepted artifact link is short printable ASCII without
    backslashes, and is either the canonical path of this very artifact or a
    signed HTTPS URL without credentials, fragment or path traversal, encoded
    or not; the canonical path of a token is always accepted. *)
Theorem artifact_href_safe nfkc artifact_id :
  (forall v s, authorized_artifact_href nfkc v artifact_id = Ok s ->
     v = Inst s /\ 1 <= len s <= 4096 /\ (92 ∉ s) /\ Forall (fun c => url_char c = true) s
     /\ (s = ARTIFACT_PREFIX ++ artifact_id \/ signed_https_url nfkc s))
  /\ (well_formed_token artifact_id ->
     authorized_artifact_href nfkc (Inst (ARTIFACT_PREFIX ++ artifact_id)) artifact_id
     = Ok (ARTIFACT_PREFIX ++ artifact_id)).
Proof.
  split.
  - intros v s H. destruct v as [s'|]; unfold authorized_artifact_href in H; [|done].
    apply bind_Ok in H as ([] & Hlen & H). apply raise_if_Ok in Hlen. bool_hyps.
    apply bind_Ok in H as ([] & Hascii & H). apply ascii_url_Ok in Hascii as [Hbs Hch].
    assert (Hpos : 1 <= len s') by (unfold len; destruct s'; [done | cbn [length]; lia]).
    destruct (canonical_artifact_path s') as [i|] eqn:Hc.
    + inv_ok. bool_hyps. subst. apply canonical_artifact_path_Some in Hc as [-> _]. auto 10.
    + inv_ok. destruct (urlsplit nfkc s') as [r|] eqn:Hu; [|done].
      destruct (port r) as [p|]; [|done]. inv_ok. bool_hyps.
      destruct (hostname r) as [host|] eqn:Hh; [|done].
      match goal with H : validate_percent_encoding (path r) _ _ = _ |- _ =>
        apply decode_path_validated in H; rewrite H in * end.
      inv_ok. repeat match goal with H : existsb _ _ = false |- _ => apply existsb_false in H end.
      split_and!; [done..|]. right. exists r, host.
      repeat match goal with H : ~ is_Some _ |- _ => apply eq_None_not_Some in H end.
      split_and!; try done.
      * eapply list.Forall_impl; [eassumption|]. intros c. cbn. apply negb_false_iff.
      * intros Hin. match goal with H : Forall (fun x => mem x _ = false) _ |- _ =>
          eapply list.Forall_forall in Hin; [|exact H] end.
        apply mem_false in Hin. apply Hin. left.
      * intros Hin. match goal with H : Forall (fun x => mem x _ = false) _ |- _ =>
          eapply list.Forall_forall in Hin; [|exact H] end.
        apply mem_false in Hin. apply Hin. right. left.
  - intros Hid. unfold authorized_artifact_href.
    pose proof Hid as (Hl & HF & _).
    rewrite (proj2 (canonical_artifact_path_Some _ artifact_id)) by done.
    ok_guard ltac:(apply orb_false_iff; split; [done|]; apply Z.ltb_ge;
      rewrite len_app; change (len ARTIFACT_PREFIX) with 22; lia).
    apply bind_Ok. exists tt. split; [|by rewrite bool_decide_eq_true_2].
    assert (Hpre : ascii_url ARTIFACT_PREFIX = Ok tt) by by vm_compute.
    apply ascii_url_Ok in Hpre as [Hp1 Hp2]. apply ascii_url_Ok.
    assert (Htok : forall c, token_char c = true -> url_char c = true /\ c <> 92).
    { intros c Hc. unfold token_char, is_alnum, is_digit, is_upper, is_lower, in_range in Hc.
      unfold url_char, in_range. rewrite !orb_true_iff, mem_true, !andb_true_iff, !Z.leb_le in Hc.
      rewrite andb_true_iff, !Z.leb_le. change (u "._:@-") with [46; 95; 58; 64; 45] in Hc.
      rewrite !elem_of_cons, elem_of_nil in Hc. lia. }
    rewrite Forall_app, not_elem_of_app. split_and!; [done| |done|].
    + intros Hin. eapply list.Forall_forall in HF; [|exact Hin]. by apply Htok in HF as [_ ?].
    + eapply list.Forall_impl; [exact HF|]. intros c Hc. by apply Htok.
Qed.

(** The guard against repeated path encoding never fires: once the
    escapes of the path have been checked, one round of decoding reaches a
    fixed point. *)
Theorem excessive_encoding_unreachable p f
    (Hp : validate_percent_encoding p f true = Ok tt) :
  decode_path 4 p = Ok (unquote p) /\ unquote (unquote p) = unquote p.
Proof.
  split; [by eapply decode_path_validated|].
  apply unquote_no_percent. by eapply validated_unquote.
Qed.

Lemma excessive_encoding_unreachable_witness :
  decode_path 4 (u "/a%41b") = Ok (u "/aAb").
Proof.
  destruct (excessive_encoding_unreachable (u "/a%41b") "href path" ltac:(vm_compute; reflexivity)) as [H _].
  rewrite H. vm_compute. reflexivity.
Defined.
