(* ===== verification/Discovery.v ===== *)
(** * Service discovery ([kestrel_sdk/operator/discovery.py])

    Versioned descriptors, references, requirements and registrations, and
    the compatibility test a resolver applies. *)

From stdpp Require Import gmap.
From S2P Require Export Runs.

Inductive ServiceScope : Type := HOST | AGENT_SCOPE.

#[global] Instance ServiceScope_eq_dec : EqDecision ServiceScope.
Proof. solve_decision. Defined.

(** [scope.value] *)
Definition scope_value (s : ServiceScope) : pystr :=
  match s with HOST => u "host" | AGENT_SCOPE => u "agent" end.

Record CapabilityDescriptor := MkCapability { cap_name : pystr; cap_version : pystr }.

#[global] Instance CapabilityDescriptor_eq_dec : EqDecision CapabilityDescriptor.
Proof. solve_decision. Defined.

Definition capability_post_init (name version : dyn pystr) : res CapabilityDescriptor :=
  n ← stable_token name "name";
  v ← semantic_version version "version" true false;
  Ok (MkCapability n v).

Record ServiceDescriptor := MkServiceDescriptor {
  sd_name : pystr;
  sd_version : pystr;
  sd_scope : ServiceScope;
  sd_capabilities : list CapabilityDescriptor
}.

Definition descriptor_post_init (name version : dyn pystr) (scope : dyn ServiceScope)
    (capabilities : dyniter (dyn CapabilityDescriptor)) : res ServiceDescriptor :=
  let err := TypeError "capabilities must contain CapabilityDescriptor values" in
  n ← stable_token name "name";
  v ← semantic_version version "version" true false;
  s ← require_instance scope (TypeError "scope must be a ServiceScope");
  vs ← match capabilities with Iter l => Ok l | _ => Raise err end;
  caps ← traverse (fun c => require_instance c err) vs;
  caps ← unique_tuple (Iter caps) "capabilities";
  _ ← raise_if (negb (no_dup (cap_name <$> caps)))
        (ValueError "capability names must be unique within a service");
  Ok (MkServiceDescriptor n v s caps).

Definition validate_scope_agent (scope : ServiceScope) (agent_id : option (dyn pystr))
    : res (option pystr) :=
  match scope, agent_id with
  | AGENT_SCOPE, None => Raise (ValueError "agent_id is required for agent-scoped services")
  | AGENT_SCOPE, Some v => a ← stable_token v "agent_id"; Ok (Some a)
  | HOST, Some _ => Raise (ValueError "agent_id is not allowed for host-scoped services")
  | HOST, None => Ok None
  end.

Record ServiceReference := MkServiceReference {
  sr_name : pystr;
  sr_version : pystr;
  sr_scope : ServiceScope;
  sr_agent_id : option pystr
}.

Definition service_reference_post_init (name version : dyn pystr) (scope : dyn ServiceScope)
    (agent_id : option (dyn pystr)) : res ServiceReference :=
  n ← stable_token name "name";
  v ← semantic_version version "version" true false;
  s ← require_instance scope (TypeError "scope must be a ServiceScope");
  a ← validate_scope_agent s agent_id;
  Ok (MkServiceReference n v s a).

Record ServiceRequirement := MkServiceRequirement {
  sq_name : pystr;
  sq_minimum_version : pystr;
  sq_scope : ServiceScope;
  sq_agent_id : option pystr
}.

Definition requirement_post_init (name minimum_version : dyn pystr) (scope : dyn ServiceScope)
    (agent_id : option (dyn pystr)) : res ServiceRequirement :=
  n ← stable_token name "name";
  v ← semantic_version minimum_version "minimum_version" false false;
  s ← require_instance scope (TypeError "scope must be a ServiceScope");
  a ← validate_scope_agent s agent_id;
  Ok (MkServiceRequirement n v s a).

(** Python's [>=] on triples. *)
Definition triple_geb (a b : Z * Z * Z) : bool :=
  let '(a1, a2, a3) := a in
  let '(b1, b2, b3) := b in
  (b1 <? a1) || ((a1 =? b1) && ((b2 <? a2) || ((a2 =? b2) && (b3 <=? a3)))).

Definition same_compatibility_line (candidate required : Z * Z * Z) : bool :=
  let '(c1, c2, _) := candidate in
  let '(r1, r2, _) := required in
  (c1 =? r1) && (negb (r1 =? 0) || (c2 =? r2)).

Definition accepts (self : ServiceRequirement) (descriptor : dyn ServiceDescriptor) : res bool :=
  match descriptor with
  | Foreign => Ok false
  | Inst d =>
      if negb (bool_decide (sd_name d = sq_name self)) || negb (bool_decide (sd_scope d = sq_scope self))
      then Ok false
      else if mem 45 (sd_version d) then Ok false
      else
        required ← semantic_version_parts (sq_minimum_version self);
        candidate ← semantic_version_parts (sd_version d);
        Ok (same_compatibility_line candidate required && triple_geb candidate required)
  end.

Section Registration.
(** The type of the opaque service objects. *)
Context {service : Type}.

Record ServiceRegistration := MkServiceRegistration {
  sg_descriptor : ServiceDescriptor;
  sg_service : service;
  sg_owner : pystr;
  sg_agent_id : option pystr
}.

Definition registration_post_init (descriptor : dyn ServiceDescriptor) (svc : option service)
    (owner : dyn pystr) (agent_id : option (dyn pystr)) : res ServiceRegistration :=
  d ← require_instance descriptor (TypeError "descriptor must be a ServiceDescriptor");
  s ← match svc with None => Raise (ValueError "service must not be None") | Some s => Ok s end;
  o ← stable_token owner "owner";
  a ← validate_scope_agent (sd_scope d) agent_id;
  Ok (MkServiceRegistration d s o a).

Definition registration_identity (self : ServiceRegistration)
    : pystr * pystr * pystr * pystr * option pystr :=
  (sg_owner self, sd_name (sg_descriptor self), sd_version (sg_descriptor self),
   scope_value (sd_scope (sg_descriptor self)), sg_agent_id self).

Definition registration_reference (self : ServiceRegistration) : res ServiceReference :=
  service_reference_post_init (Inst (sd_name (sg_descriptor self)))
    (Inst (sd_version (sg_descriptor self))) (Inst (sd_scope (sg_descriptor self)))
    (Inst <$> sg_agent_id self).
End Registration.
Arguments ServiceRegistration : clear implicits.

(** ** Lemmas *)

Definition parts (g : semver_groups) : Z * Z * Z :=
  (parse_int (sv_major g), parse_int (sv_minor g), parse_int (sv_patch g)).

(** Same major, same minor while the major is zero, and not older. *)
Definition compatible (c r : Z * Z * Z) : Prop :=
  c.1.1 = r.1.1 /\ (r.1.1 = 0 -> c.1.2 = r.1.2)
  /\ (r.1.2 < c.1.2 \/ c.1.2 = r.1.2 /\ r.2 <= c.2).

Lemma compatible_spec c r :
  same_compatibility_line c r && triple_geb c r = true <-> compatible c r.
Proof.
  destruct c as [[c1 c2] c3], r as [[r1 r2] r3]. unfold compatible; cbn.
  rewrite !andb_true_iff, !orb_true_iff, !andb_true_iff, !orb_true_iff, andb_true_iff, negb_true_iff,
    !Z.eqb_eq, !Z.ltb_lt, Z.leb_le, Z.eqb_neq. lia.
Qed.

Lemma compatible_trans a b c : compatible b a -> compatible c b -> compatible c a.
Proof. unfold compatible. lia. Qed.

Lemma semantic_version_parts_groups s g :
  semver_match s = Some g -> semantic_version_parts s = Ok (parts g).
Proof. unfold semantic_version_parts. by intros ->. Qed.

(** What the constructors guarantee about versions. *)
Definition release_version (s : pystr) : Prop :=
  len s <= 128 /\ exists g, semver_match s = Some g /\ sv_build g = None.

Definition stable_version (s : pystr) : Prop :=
  len s <= 128 /\ exists g, semver_match s = Some g /\ sv_pre g = None /\ sv_build g = None.

Lemma release_Ok v field s :
  semantic_version v field true false = Ok s <-> v = Inst s /\ release_version s.
Proof. rewrite semantic_version_Ok. unfold release_version. naive_solver. Qed.

Lemma stable_Ok v field s :
  semantic_version v field false false = Ok s <-> v = Inst s /\ stable_version s.
Proof. rewrite semantic_version_Ok. unfold stable_version. naive_solver. Qed.

(** Host services have no agent, agent services a token. *)
Definition scope_agent (scope : ServiceScope) (agent : option pystr) : Prop :=
  match scope, agent with
  | HOST, None => True
  | AGENT_SCOPE, Some a => well_formed_token a
  | _, _ => False
  end.

Lemma validate_scope_agent_Ok scope v a :
  validate_scope_agent scope v = Ok a <-> v = Inst <$> a /\ scope_agent scope a.
Proof.
  destruct scope, v as [v|]; cbn.
  - split; [done|]. intros [H Ha]. by destruct a.
  - split; [by intros [= <-]|]. intros [H Ha]. by destruct a.
  - rewrite bind_Ok. setoid_rewrite stable_token_Ok. split.
    + by intros (s & [-> Hs] & [= <-]).
    + intros [H Ha]. destruct a as [a|]; [|done]. injection H as ->. by exists a.
  - split; [done|]. intros [H Ha]. by destruct a.
Qed.

Record requirement_wf (r : ServiceRequirement) : Prop := {
  qw_name : well_formed_token (sq_name r);
  qw_version : stable_version (sq_minimum_version r);
  qw_agent : scope_agent (sq_scope r) (sq_agent_id r)
}.

Lemma requirement_post_init_wf n v s a r : requirement_post_init n v s a = Ok r -> requirement_wf r.
Proof.
  unfold requirement_post_init. intros H. inv_ok. field_facts.
  rewrite stable_Ok, validate_scope_agent_Ok in *. split; cbn; naive_solver.
Qed.

Record descriptor_wf (d : ServiceDescriptor) : Prop := {
  dw_name : well_formed_token (sd_name d);
  dw_version : release_version (sd_version d);
  dw_names : NoDup (cap_name <$> sd_capabilities d)
}.

Lemma descriptor_post_init_Ok n v s cs d :
  descriptor_post_init n v s cs = Ok d <->
  n = Inst (sd_name d) /\ v = Inst (sd_version d) /\ s = Inst (sd_scope d)
  /\ cs = Iter (Inst <$> sd_capabilities d) /\ descriptor_wf d.
Proof.
  unfold descriptor_post_init. split.
  - intros H. inv_ok. destruct cs as [l| |]; inv_ok. field_facts. bool_hyps.
    rewrite release_Ok, traverse_instance in *.
    match goal with H : Iter _ = Iter _ |- _ => injection H as -> end.
    subst. cbn. split_and!; try done; try tauto.
    match goal with H : _ /\ release_version _ |- _ => destruct H as [-> ?] end. done.
  - intros (-> & -> & -> & -> & [Hn Hv Hd]). destruct d as [n' v' s' cs'].
    cbn [sd_name sd_version sd_scope sd_capabilities] in *.
    field_step. ok_step ltac:(by apply release_Ok). field_step.
    ok_step ltac:(reflexivity). ok_step ltac:(by apply traverse_instance).
    ok_step ltac:(apply unique_tuple_Ok; split; [done | by eapply NoDup_fmap_1]).
    ok_guard ltac:(by apply negb_false_iff, no_dup_true). done.
Qed.

Lemma dash_free s g :
  semver_match s = Some g -> sv_build g = None -> mem 45 s = false <-> sv_pre g = None.
Proof.
  intros Hg Hb. rewrite mem_false, (semver_dash s g); [|by apply semver_match_captures|done].
  symmetry. apply eq_None_not_Some.
Qed.

(** The decision [accepts] takes on validated values. *)
Definition satisfies_requirement (r : ServiceRequirement) (d : ServiceDescriptor) : Prop :=
  sd_name d = sq_name r /\ sd_scope d = sq_scope r
  /\ exists gr gd, semver_match (sq_minimum_version r) = Some gr
  /\ semver_match (sd_version d) = Some gd /\ sv_pre gd = None /\ compatible (parts gd) (parts gr).

Lemma accepts_Ok r d :
  requirement_wf r -> descriptor_wf d ->
  exists b, accepts r (Inst d) = Ok b /\ (b = true <-> satisfies_requirement r d).
Proof.
  intros [_ (_ & gr & Hgr & _) _] [_ (_ & gd & Hgd & Hbd) _].
  unfold accepts, satisfies_requirement.
  case_bool_decide as Hn; cbn [negb orb]; [|by exists false; split; [|split; [|tauto]]].
  case_bool_decide as Hs; cbn [negb]; [|by exists false; split; [|split; [|tauto]]].
  destruct (mem 45 (sd_version d)) eqn:Hd.
  - exists false. split; [done|]. split; [done|]. intros (_ & _ & gr' & gd' & _ & Hgd' & Hp & _).
    rewrite Hgd in Hgd'. injection Hgd' as <-. apply (dash_free _ _ Hgd Hbd) in Hp. congruence.
  - apply (dash_free _ _ Hgd Hbd) in Hd.
    rewrite (semantic_version_parts_groups _ _ Hgr), (semantic_version_parts_groups _ _ Hgd).
    eexists. split; [reflexivity|]. rewrite compatible_spec, Hgr, Hgd. split.
    + intros Hc. split_and!; [done..|]. by exists gr, gd.
    + intros (_ & _ & ? & ? & [= <-] & [= <-] & _ & Hc). done.
Qed.

(** ** Theorems *)

(** The compatibility test never raises on validated values, and accepts
    exactly the stable releases of the same service and scope that have the
    same major version, the same minor version while the major is zero, and
    are not older than the required minimum. *)
Theorem accepts_exact n v s a r n' v' s' cs d
    (Hr : requirement_post_init n v s a = Ok r)
    (Hd : descriptor_post_init n' v' s' cs = Ok d) :
  (exists b, accepts r (Inst d) = Ok b) /\ accepts r Foreign = Ok false
  /\ (accepts r (Inst d) = Ok true <-> satisfies_requirement r d).
Proof.
  apply requirement_post_init_wf in Hr. apply descriptor_post_init_Ok in Hd as (_ & _ & _ & _ & Hd).
  destruct (accepts_Ok r d Hr Hd) as (b & Hb & Hspec). split_and!; [by exists b|done|].
  rewrite Hb, <- Hspec. split; congruence.
Qed.

(** Upgrades compose: if a requirement accepts a release, and the
    requirement pinned to that release accepts a later one, the original
    requirement accepts the later one too. *)
Theorem accepts_transitive n v s a r n1 v1 s1 cs1 d1 n2 v2 s2 cs2 d2 a' r1
    (Hr : requirement_post_init n v s a = Ok r)
    (Hd1 : descriptor_post_init n1 v1 s1 cs1 = Ok d1)
    (Hd2 : descriptor_post_init n2 v2 s2 cs2 = Ok d2)
    (Hr1 : requirement_post_init (Inst (sd_name d1)) (Inst (sd_version d1)) (Inst (sd_scope d1)) a'
           = Ok r1)
    (H1 : accepts r (Inst d1) = Ok true) (H2 : accepts r1 (Inst d2) = Ok true) :
  accepts r (Inst d2) = Ok true.
Proof.
  apply requirement_post_init_wf in Hr.
  apply descriptor_post_init_Ok in Hd1 as (_ & _ & _ & _ & Hd1).
  apply descriptor_post_init_Ok in Hd2 as (_ & _ & _ & _ & Hd2).
  assert (Hw1 := requirement_post_init_wf _ _ _ _ _ Hr1).
  assert (Heq : sq_name r1 = sd_name d1 /\ sq_minimum_version r1 = sd_version d1
                /\ sq_scope r1 = sd_scope d1).
  { unfold requirement_post_init in Hr1. inv_ok. field_facts. rewrite stable_Ok in *.
    cbn. naive_solver. }
  destruct Heq as (Hqn & Hqv & Hqs).
  destruct (accepts_Ok r d1 Hr Hd1) as (b1 & Hb1 & Hs1).
  destruct (accepts_Ok r1 d2 Hw1 Hd2) as (b2 & Hb2 & Hs2).
  destruct (accepts_Ok r d2 Hr Hd2) as (b & Hb & Hs). rewrite Hb. f_equal. apply Hs.
  rewrite Hb1 in H1. rewrite Hb2 in H2. injection H1 as ->. injection H2 as ->.
  destruct (proj1 Hs1 eq_refl) as (Hn & Hsc & gr & g1 & Hgr & Hg1 & _ & Hc1).
  destruct (proj1 Hs2 eq_refl) as (Hn2 & Hsc2 & g1' & g2 & Hg1' & Hg2 & Hp & Hc2).
  rewrite Hqv, Hg1 in Hg1'. injection Hg1' as <-.
  split; [congruence|]. split; [congruence|]. exists gr, g2. split_and!; [done..|].
  by eapply compatible_trans.
Qed.

(** A registration of a validated descriptor always has an exact
    reference, which repeats its name, version, scope and agent; the agent is
    present exactly for agent-scoped services, so the two scopes never share
    a lookup key. *)
Theorem registration_reference_exact {service} n v s cs d desc svc owner agent
    (g : ServiceRegistration service)
    (Hd : descriptor_post_init n v s cs = Ok d)
    (Hdesc : desc = Inst d)
    (Hg : registration_post_init desc svc owner agent = Ok g) :
  registration_reference g = Ok (MkServiceReference (sd_name d) (sd_version d) (sd_scope d) (sg_agent_id g))
  /\ (is_Some (sg_agent_id g) <-> sd_scope d = AGENT_SCOPE).
Proof.
  apply descriptor_post_init_Ok in Hd as (_ & _ & _ & _ & [Hn Hv _]). subst desc.
  unfold registration_post_init in Hg. inv_ok. field_facts.
  match goal with H : Inst _ = Inst _ |- _ => injection H as -> end.
  rewrite validate_scope_agent_Ok in *.
  match goal with H : _ /\ scope_agent _ _ |- _ => destruct H as [_ Ha] end.
  cbn [sg_agent_id]. split.
  - unfold registration_reference, service_reference_post_init.
    cbn [sg_descriptor sg_agent_id]. field_step. ok_step ltac:(by apply release_Ok). field_step.
    by ok_step ltac:(by apply validate_scope_agent_Ok).
  - unfold scope_agent in Ha. destruct (sd_scope _), r2 as [x|]; split; try done; by intros [].
Qed.

(** ** Witnesses *)

Definition sample_requirement (v : string) : ServiceRequirement :=
  MkServiceRequirement (u "runs") (u v) HOST None.

Definition sample_descriptor (v : string) : ServiceDescriptor :=
  MkServiceDescriptor (u "runs") (u v) HOST [MkCapability (u "launch") (u "1.0.0")].

Lemma accepts_exact_witness :
  satisfies_requirement (sample_requirement "0.3.1") (sample_descriptor "0.3.4").
Proof.
  destruct (accepts_exact (Inst (u "runs")) (Inst (u "0.3.1")) (Inst HOST) None
              (sample_requirement "0.3.1") (Inst (u "runs")) (Inst (u "0.3.4")) (Inst HOST)
              (Iter [Inst (MkCapability (u "launch") (u "1.0.0"))]) (sample_descriptor "0.3.4"))
    as (_ & _ & H).
  - vm_compute. reflexivity.
  - vm_compute. reflexivity.
  - apply H. vm_compute. reflexivity.
Defined.

Lemma accepts_transitive_witness :
  accepts (sample_requirement "1.0.0") (Inst (sample_descriptor "1.2.0")) = Ok true.
Proof.
  apply (accepts_transitive (Inst (u "runs")) (Inst (u "1.0.0")) (Inst HOST) None
    (sample_requirement "1.0.0") (Inst (u "runs")) (Inst (u "1.1.5")) (Inst HOST)
    (Iter [Inst (MkCapability (u "launch") (u "1.0.0"))]) (sample_descriptor "1.1.5")
    (Inst (u "runs")) (Inst (u "1.2.0")) (Inst HOST)
    (Iter [Inst (MkCapability (u "launch") (u "1.0.0"))]) (sample_descriptor "1.2.0")
    None (sample_requirement "1.1.5")); vm_compute; reflexivity.
Defined.

Lemma registration_reference_exact_witness :
  registration_reference (MkServiceRegistration (sample_descriptor "1.1.5") true (u "feature") None)
  = Ok (MkServiceReference (u "runs") (u "1.1.5") HOST None).
Proof.
  apply (registration_reference_exact (Inst (u "runs")) (Inst (u "1.1.5")) (Inst HOST)
    (Iter [Inst (MkCapability (u "launch") (u "1.0.0"))]) (sample_descriptor "1.1.5")
    (Inst (sample_descriptor "1.1.5")) (Some true) (Inst (u "feature")) None).
  - vm_compute. reflexivity.
  - reflexivity.
  - vm_compute. reflexivity.
Defined.
