(* ===== verification/InferenceLease.v ===== *)
(** * Inference leases ([kestrel_sdk/llm/inference_lease.py])

    Requests, capabilities, quotes, routes and leases of privately leased
    inference capacity: their constructors, the matching and fail-closed
    validation of offers, and the serializers an agent may see. *)

From stdpp Require Import gmap.
From S2P Require Export UrlSplit Calendar Runs.

(** ** Enums *)

Inductive InferenceLeaseState : Type :=
| LPENDING | LREADY | LFAILED | LRELEASING | LRELEASED | LEXPIRED.

Inductive InferencePrivacy : Type := PRIVATE_NETWORK | AUTHENTICATED_ENDPOINT | PUBLIC_ENDPOINT.

#[global] Instance InferenceLeaseState_eq_dec : EqDecision InferenceLeaseState.
Proof. solve_decision. Defined.
#[global] Instance InferencePrivacy_eq_dec : EqDecision InferencePrivacy.
Proof. solve_decision. Defined.

Definition lease_state_value (s : InferenceLeaseState) : pystr :=
  match s with
  | LPENDING => u "pending" | LREADY => u "ready" | LFAILED => u "failed"
  | LRELEASING => u "releasing" | LRELEASED => u "released" | LEXPIRED => u "expired"
  end.

Definition privacy_value (p : InferencePrivacy) : pystr :=
  match p with
  | PRIVATE_NETWORK => u "private_network"
  | AUTHENTICATED_ENDPOINT => u "authenticated_endpoint"
  | PUBLIC_ENDPOINT => u "public_endpoint"
  end.

Definition lease_is_terminal (s : InferenceLeaseState) : bool :=
  bool_decide (s ∈ [LFAILED; LRELEASED; LEXPIRED]).

Definition PRIVACY_EXPOSURE (p : InferencePrivacy) : Z :=
  match p with PRIVATE_NETWORK => 0 | AUTHENTICATED_ENDPOINT => 1 | PUBLIC_ENDPOINT => 2 end.

Definition privacy_satisfies (delivered permitted : InferencePrivacy) : bool :=
  PRIVACY_EXPOSURE delivered <=? PRIVACY_EXPOSURE permitted.

(** ** Field validators *)

Definition identifier_char (c : Z) : bool := is_alnum c || mem c (u "._:/-").

(** [[A-Za-z0-9][A-Za-z0-9._:/-]{0,255}] *)
Definition IDENTIFIER_RE : re := RCat (RChar is_alnum) (RUpTo 255 (RChar identifier_char)).

Definition validate_identifier (name : string) (value : dyn pystr) : res pystr :=
  match value with
  | Foreign => Raise (TypeError (name +:+ " must be a string"))
  | Inst s =>
      let normalized := strip s in
      _ ← raise_if (negb (re_match IDENTIFIER_RE normalized))
            (ValueError (name +:+ " must be 1-256 characters using letters, digits, '.', '_', ':', '/', or '-'"));
      Ok normalized
  end.

Definition validate_aware_timestamp (name : string) (value : dyn datetime) : res datetime :=
  d ← aware_datetime value name;
  match astimezone_utc d with
  | Some v => Ok v
  | None => Raise (OverflowError "date value out of range")
  end.

Definition positive_int (name : string) (value : dynint) : res Z :=
  let err := ValueError (name +:+ " must be a positive integer") in
  z ← require_int value err;
  _ ← raise_if (z <=? 0) err;
  Ok z.

Definition non_negative_int (name : string) (value : dynint) : res Z :=
  let err := ValueError (name +:+ " must be a non-negative integer") in
  z ← require_int value err;
  _ ← raise_if (z <? 0) err;
  Ok z.

Definition money (name : string) (value : dyn decimal) : res decimal :=
  d ← require_instance value (TypeError (name +:+ " must be a Decimal"));
  _ ← raise_if (negb (dec_is_finite d) || dec_ltb d dec_zero)
        (ValueError (name +:+ " must be a finite non-negative amount"));
  Ok d.

(** ** Secret-like metadata keys *)

(** [re.sub(r"([a-z0-9])([A-Z])", r"\1_\2", value)] *)
Fixpoint camel_split (value : pystr) : pystr :=
  match value with
  | a :: ((b :: _) as rest) =>
      if (is_lower a || is_digit a) && is_upper b then a :: 95 :: camel_split rest
      else a :: camel_split rest
  | _ => value
  end.

Definition public_key_segments (value : pystr) : list pystr :=
  lower <$> filter (fun seg => seg <> []) (split_on (fun c => negb (is_alnum c)) (camel_split value)).

Definition SECRET_KEY_SEGMENTS : list pystr :=
  [u "authorization"; u "bearer"; u "cookie"; u "credential"; u "password"; u "secret"; u "token"].

Definition SECRET_KEY_PAIRS : list (pystr * pystr) := [(u "api", u "key"); (u "private", u "key")].

(** [itertools.pairwise] *)
Definition pairwise {A} (l : list A) : list (A * A) := zip l (tail l).

Definition is_secret_like_public_key (value : pystr) : bool :=
  let segments := public_key_segments value in
  if existsb (fun segment => mem segment SECRET_KEY_SEGMENTS) segments then true
  else existsb (fun pair => mem pair SECRET_KEY_PAIRS) (pairwise segments).

Definition public_metadata_key (value : pyval) : res pystr :=
  match value with
  | VStr (c :: s) =>
      _ ← raise_if (is_secret_like_public_key (c :: s))
            (ValueError "metadata cannot contain secret-like key");
      Ok (c :: s)
  | _ => Raise (ValueError "metadata keys must be non-empty strings")
  end.

Definition public_metadata_validators : validators :=
  {| validate_key := public_metadata_key; validate_string := None; validate_number := None |}.

(** A value read from the store the constructor runs in. *)
Record stored := Stored { st_heap : heap; st_value : pyval; st_max_digits : Z }.

Definition freeze_public_metadata (value : stored) : res fjson :=
  let err := TypeError "metadata must be a mapping" in
  match st_value value with
  | VRef l =>
      match st_heap value !! l with
      | Some (CDict _) =>
          r ← freeze_json (st_heap value) no_limits public_metadata_validators
                (st_max_digits value) (st_value value);
          Ok r.1
      | _ => Raise err
      end
  | _ => Raise err
  end.

(** A tuple of lowered identifiers without duplicates; a [str] is refused,
    any other object must be iterable. *)
Definition identifier_tuple (name dup : string) (values : dyniter (dyn pystr)) : res (list pystr) :=
  vs ← match values with
       | Iter l => Ok l
       | StrOrBytes => Raise (TypeError "must be a sequence, not a string")
       | NotIterable => Raise (TypeError "object is not iterable")
       end;
  l ← traverse (fun v => s ← validate_identifier name v; Ok (lower s)) vs;
  _ ← raise_if (negb (no_dup l)) (ValueError dup);
  Ok l.

(** ** Requests *)

Record InferenceLeaseRequest := MkRequest {
  q_request_id : pystr;
  q_owner_id : pystr;
  q_model : pystr;
  q_runtime : pystr;
  q_max_hourly_cost_usd : decimal;
  q_max_total_cost_usd : decimal;
  q_privacy : InferencePrivacy;
  q_capabilities : list pystr;
  q_allowed_regions : list pystr;
  q_expected_concurrency : Z;
  q_expected_session_seconds : Z;
  q_idle_ttl_seconds : Z;
  q_ready_deadline_seconds : Z;
  q_requested_at : datetime;
  q_metadata : fjson
}.

Record RequestArgs := MkRequestArgs {
  qa_request_id : dyn pystr;
  qa_owner_id : dyn pystr;
  qa_model : dyn pystr;
  qa_runtime : dyn pystr;
  qa_max_hourly_cost_usd : dyn decimal;
  qa_max_total_cost_usd : dyn decimal;
  qa_privacy : dyn InferencePrivacy;
  qa_capabilities : dyniter (dyn pystr);
  qa_allowed_regions : dyniter (dyn pystr);
  qa_expected_concurrency : dynint;
  qa_expected_session_seconds : dynint;
  qa_idle_ttl_seconds : dynint;
  qa_ready_deadline_seconds : dynint;
  qa_requested_at : dyn datetime;
  qa_metadata : stored
}.

Definition request_post_init (a : RequestArgs) : res InferenceLeaseRequest :=
  request_id ← validate_identifier "request_id" (qa_request_id a);
  owner_id ← validate_identifier "owner_id" (qa_owner_id a);
  model ← validate_identifier "model" (qa_model a);
  runtime ← validate_identifier "runtime" (qa_runtime a);
  hourly ← money "max_hourly_cost_usd" (qa_max_hourly_cost_usd a);
  total ← money "max_total_cost_usd" (qa_max_total_cost_usd a);
  privacy ← require_instance (qa_privacy a) (TypeError "privacy must be an InferencePrivacy");
  capabilities ← identifier_tuple "capability" "capabilities cannot contain duplicates"
                   (qa_capabilities a);
  regions ← identifier_tuple "allowed_region" "allowed_regions cannot contain duplicates"
              (qa_allowed_regions a);
  concurrency ← positive_int "expected_concurrency" (qa_expected_concurrency a);
  session ← positive_int "expected_session_seconds" (qa_expected_session_seconds a);
  idle ← positive_int "idle_ttl_seconds" (qa_idle_ttl_seconds a);
  ready ← positive_int "ready_deadline_seconds" (qa_ready_deadline_seconds a);
  _ ← raise_if (session <? idle)
        (ValueError "idle_ttl_seconds cannot exceed expected_session_seconds");
  requested ← validate_aware_timestamp "requested_at" (qa_requested_at a);
  metadata ← freeze_public_metadata (qa_metadata a);
  Ok (MkRequest request_id owner_id model (lower runtime) hourly total privacy capabilities
        regions concurrency session idle ready requested metadata).

(** [str(value)] of a finite decimal. *)
Definition dec_str (d : decimal) : pystr :=
  match d with
  | DecFin neg coef expo =>
      let ds := digits coef in
      let leftdigits := expo + len ds in
      let dotplace := if (expo <=? 0) && (-6 <? leftdigits) then leftdigits else 1 in
      let intfrac :=
        if dotplace <=? 0 then u "0." ++ replicate (Z.to_nat (- dotplace)) 48 ++ ds
        else if len ds <=? dotplace then ds ++ replicate (Z.to_nat (dotplace - len ds)) 48
        else take (Z.to_nat dotplace) ds ++ u "." ++ drop (Z.to_nat dotplace) ds in
      let e := leftdigits - dotplace in
      (if neg then u "-" else []) ++ intfrac
      ++ (if e =? 0 then [] else u "E" ++ (if e <? 0 then [] else u "+") ++ int_repr e)
  | DecInf neg => if neg then u "-Infinity" else u "Infinity"
  | DecNaN => u "NaN"
  end.

Definition str_tuple (l : list pystr) : fjson := FTuple (FStr <$> l).

Definition request_to_public_dict (self : InferenceLeaseRequest) : fjson :=
  FMap [(u "request_id", FStr (q_request_id self));
        (u "model", FStr (q_model self));
        (u "runtime", FStr (q_runtime self));
        (u "max_hourly_cost_usd", FStr (dec_str (q_max_hourly_cost_usd self)));
        (u "max_total_cost_usd", FStr (dec_str (q_max_total_cost_usd self)));
        (u "privacy", FStr (privacy_value (q_privacy self)));
        (u "capabilities", str_tuple (q_capabilities self));
        (u "allowed_regions", str_tuple (q_allowed_regions self));
        (u "expected_concurrency", FInt (q_expected_concurrency self));
        (u "expected_session_seconds", FInt (q_expected_session_seconds self));
        (u "idle_ttl_seconds", FInt (q_idle_ttl_seconds self));
        (u "ready_deadline_seconds", FInt (q_ready_deadline_seconds self));
        (u "requested_at", FStr (isoformat (q_requested_at self)));
        (u "metadata", q_metadata self)].

(** ** Provider capabilities *)

Record InferenceProviderCapability := MkProviderCapability {
  pc_runtime : pystr;
  pc_privacy : list InferencePrivacy;
  pc_capabilities : list pystr;
  pc_regions : list pystr;
  pc_max_concurrency : Z
}.

(** The privacy argument: a single mode or a string is refused. *)
Definition capability_record_post_init (runtime : dyn pystr)
    (privacy : dyniter (dyn InferencePrivacy)) (capabilities regions : dyniter (dyn pystr))
    (max_concurrency : dynint) : res InferenceProviderCapability :=
  r ← validate_identifier "runtime" runtime;
  ps ← match privacy with
       | Iter l => Ok l
       | StrOrBytes => Raise (TypeError "privacy must be a sequence of privacy modes")
       | NotIterable => Raise (TypeError "object is not iterable")
       end;
  p ← traverse (fun v => require_instance v (TypeError "privacy entries must be InferencePrivacy values")) ps;
  _ ← raise_if (bool_decide (p = []) || negb (no_dup p))
        (ValueError "privacy must contain unique supported modes");
  c ← identifier_tuple "capability" "capabilities cannot contain duplicates" capabilities;
  g ← identifier_tuple "region" "regions cannot contain duplicates" regions;
  m ← positive_int "max_concurrency" max_concurrency;
  Ok (MkProviderCapability (lower r) p c g m).

Definition satisfies (self : InferenceProviderCapability) (request : InferenceLeaseRequest) : bool :=
  let privacy_satisfied :=
    existsb (fun provided => privacy_satisfies provided (q_privacy request)) (pc_privacy self) in
  if negb (bool_decide (pc_runtime self = q_runtime request)) || negb privacy_satisfied then false
  else if pc_max_concurrency self <? q_expected_concurrency request then false
  else if negb (forallb (fun c => mem c (pc_capabilities self)) (q_capabilities request)) then false
  else match q_allowed_regions request with
       | [] => true
       | rs => existsb (fun r => mem r (pc_regions self)) rs
       end.

(** ** Quotes *)

Record InferenceLeaseQuote := MkQuote {
  k_quote_id : pystr;
  k_request_id : pystr;
  k_provider_name : pystr;
  k_runtime : pystr;
  k_region : pystr;
  k_privacy : InferencePrivacy;
  k_hourly_cost_usd : decimal;
  k_estimated_total_cost_usd : decimal;
  k_estimated_ready_seconds : Z;
  k_expires_at : datetime;
  k_metadata : fjson
}.

Definition quote_post_init (quote_id request_id provider_name runtime region : dyn pystr)
    (privacy : dyn InferencePrivacy) (hourly total : dyn decimal) (ready : dynint)
    (expires_at : dyn datetime) (metadata : stored) : res InferenceLeaseQuote :=
  q ← validate_identifier "quote_id" quote_id;
  r ← validate_identifier "request_id" request_id;
  p ← validate_identifier "provider_name" provider_name;
  rt ← validate_identifier "runtime" runtime;
  rg ← validate_identifier "region" region;
  pv ← require_instance privacy (TypeError "privacy must be an InferencePrivacy");
  h ← money "hourly_cost_usd" hourly;
  t ← money "estimated_total_cost_usd" total;
  n ← non_negative_int "estimated_ready_seconds" ready;
  e ← validate_aware_timestamp "expires_at" expires_at;
  m ← freeze_public_metadata metadata;
  Ok (MkQuote q r (lower p) (lower rt) (lower rg) pv h t n e m).

(** [request.allowed_regions and region not in request.allowed_regions] *)
Definition region_refused (request : InferenceLeaseRequest) (region : pystr) : bool :=
  negb (bool_decide (q_allowed_regions request = [])) && negb (mem region (q_allowed_regions request)).

Definition constraint_error (m : string) : exn := InferenceLeaseConstraintError m.

(** [clock] is [_utc_now()]. *)
Definition quote_validate_for (clock : datetime) (self : InferenceLeaseQuote)
    (request : InferenceLeaseRequest) (now : option (dyn datetime)) : res unit :=
  current ← validate_aware_timestamp "now" (default (Inst clock) now);
  _ ← raise_if (negb (bool_decide (k_request_id self = q_request_id request)))
        (constraint_error "quote request_id does not match request");
  _ ← raise_if (negb (bool_decide (k_runtime self = q_runtime request)))
        (constraint_error "quote runtime does not match request");
  _ ← raise_if (negb (privacy_satisfies (k_privacy self) (q_privacy request)))
        (constraint_error "quote privacy is weaker than requested");
  _ ← raise_if (region_refused request (k_region self))
        (constraint_error "quote region is not allowed");
  _ ← raise_if (dec_ltb (q_max_hourly_cost_usd request) (k_hourly_cost_usd self))
        (constraint_error "quote exceeds maximum hourly cost");
  _ ← raise_if (dec_ltb (q_max_total_cost_usd request) (k_estimated_total_cost_usd self))
        (constraint_error "quote exceeds maximum total cost");
  _ ← raise_if (q_ready_deadline_seconds request <? k_estimated_ready_seconds self)
        (constraint_error "quote exceeds readiness deadline");
  raise_if (dt_leb (k_expires_at self) current) (constraint_error "quote is expired").

Definition quote_to_public_dict (self : InferenceLeaseQuote) : fjson :=
  FMap [(u "quote_id", FStr (k_quote_id self));
        (u "request_id", FStr (k_request_id self));
        (u "provider_name", FStr (k_provider_name self));
        (u "runtime", FStr (k_runtime self));
        (u "region", FStr (k_region self));
        (u "privacy", FStr (privacy_value (k_privacy self)));
        (u "hourly_cost_usd", FStr (dec_str (k_hourly_cost_usd self)));
        (u "estimated_total_cost_usd", FStr (dec_str (k_estimated_total_cost_usd self)));
        (u "estimated_ready_seconds", FInt (k_estimated_ready_seconds self));
        (u "expires_at", FStr (isoformat (k_expires_at self)));
        (u "metadata", k_metadata self)].

(** ** Routes *)

(** [pydantic.SecretStr]: a wrapped string; it is falsy when empty. *)
Record SecretStr := Secret { get_secret_value : pystr }.

Definition secret_empty (s : SecretStr) : bool := bool_decide (get_secret_value s = []).

Record InferenceRoute := MkRoute {
  r_endpoint : SecretStr;
  r_model : pystr;
  r_api_key : option SecretStr;
  r_secret_headers : list (pystr * SecretStr);
  r_context_window : option Z;
  r_protocol : pystr
}.

(** The loop over [secret_headers.items()]. *)
Fixpoint validate_headers (items : list (dyn pystr * dyn SecretStr)) : res (list (pystr * SecretStr)) :=
  match items with
  | [] => Ok []
  | (name, value) :: items' =>
      n ← match name with
          | Inst n => _ ← raise_if (bool_decide (strip n = []))
                            (ValueError "secret header names must be non-empty strings"); Ok n
          | Foreign => Raise (ValueError "secret header names must be non-empty strings")
          end;
      v ← require_instance value (TypeError "secret header values must be SecretStr instances");
      _ ← raise_if (secret_empty v) (ValueError "secret header values cannot be empty");
      l ← validate_headers items';
      Ok ((n, v) :: l)
  end.

Definition nonempty (s : option pystr) : bool :=
  match s with Some (_ :: _) => true | _ => false end.

(** [secret_headers] is [None] when it is not a mapping. *)
Definition route_post_init (nfkc : pystr -> pystr) (endpoint : dyn SecretStr) (model : dyn pystr)
    (api_key : option (dyn SecretStr)) (secret_headers : option (list (dyn pystr * dyn SecretStr)))
    (context_window : option dynint) (protocol : dyn pystr) : res InferenceRoute :=
  e ← require_instance endpoint (TypeError "endpoint must be a SecretStr");
  parts ← match urlsplit nfkc (get_secret_value e) with
          | Some p => Ok p | None => Raise (ValueError "invalid URL") end;
  _ ← raise_if (negb (mem (scheme parts) [u "http"; u "https"])
                || negb (bool_decide (is_Some (hostname parts)))
                || nonempty (username parts) || nonempty (password parts)
                || negb (bool_decide (query parts = []))
                || negb (bool_decide (fragment parts = [])))
        (ValueError "endpoint must be an http(s) URL without userinfo, query, or fragment");
  m ← validate_identifier "model" model;
  p ← validate_identifier "protocol" protocol;
  k ← opt_check (fun v => require_instance v (TypeError "api_key must be a SecretStr when provided"))
        api_key;
  _ ← raise_if (match k with Some s => secret_empty s | None => false end)
        (ValueError "api_key cannot be empty when provided");
  items ← match secret_headers with
          | Some l => Ok l | None => Raise (TypeError "secret_headers must be a mapping") end;
  hs ← validate_headers items;
  w ← opt_check (fun v => positive_int "context_window" v) context_window;
  Ok (MkRoute e m k hs w (lower p)).

Definition opt_json {A} (f : A -> fjson) (a : option A) : fjson :=
  match a with Some a => f a | None => FNull end.

Definition route_to_public_dict (self : InferenceRoute) : fjson :=
  FMap [(u "model", FStr (r_model self));
        (u "protocol", FStr (r_protocol self));
        (u "context_window", opt_json FInt (r_context_window self));
        (u "authenticated", FBool (match r_api_key self with Some k => negb (secret_empty k) | None => false end
                                   || negb (bool_decide (r_secret_headers self = []))))].

(** ** Failures *)

Record InferenceLeaseFailure := MkFailure {
  f_code : pystr; f_message : pystr; f_retryable : bool; f_metadata : fjson }.

(** [message] is [str(self.message)]. *)
Definition failure_post_init (code : dyn pystr) (message : pystr) (retryable : bool)
    (metadata : stored) : res InferenceLeaseFailure :=
  c ← validate_identifier "failure code" code;
  let m := strip message in
  _ ← raise_if (bool_decide (m = []) || (1000 <? len m))
        (ValueError "failure message must contain 1-1000 characters");
  md ← freeze_public_metadata metadata;
  Ok (MkFailure (lower c) m retryable md).

Definition failure_to_public_dict (self : InferenceLeaseFailure) : fjson :=
  FMap [(u "code", FStr (f_code self)); (u "message", FStr (f_message self));
        (u "retryable", FBool (f_retryable self)); (u "metadata", f_metadata self)].

(** ** Leases *)

Record InferenceLease := MkLease {
  l_lease_id : pystr;
  l_quote_id : pystr;
  l_request_id : pystr;
  l_owner_id : pystr;
  l_provider_name : pystr;
  l_state : InferenceLeaseState;
  l_model : pystr;
  l_runtime : pystr;
  l_privacy : InferencePrivacy;
  l_created_at : datetime;
  l_updated_at : datetime;
  l_expires_at : datetime;
  l_region : option pystr;
  l_hourly_cost_usd : option decimal;
  l_estimated_total_cost_usd : option decimal;
  l_route : option InferenceRoute;
  l_failure : option InferenceLeaseFailure;
  l_metadata : fjson
}.

Record LeaseArgs := MkLeaseArgs {
  ea_lease_id : dyn pystr;
  ea_quote_id : dyn pystr;
  ea_request_id : dyn pystr;
  ea_owner_id : dyn pystr;
  ea_provider_name : dyn pystr;
  ea_state : dyn InferenceLeaseState;
  ea_model : dyn pystr;
  ea_runtime : dyn pystr;
  ea_privacy : dyn InferencePrivacy;
  ea_created_at : dyn datetime;
  ea_updated_at : dyn datetime;
  ea_expires_at : dyn datetime;
  ea_region : option (dyn pystr);
  ea_hourly_cost_usd : option (dyn decimal);
  ea_estimated_total_cost_usd : option (dyn decimal);
  ea_route : option (dyn InferenceRoute);
  ea_failure : option (dyn InferenceLeaseFailure);
  ea_metadata : stored
}.

Definition lease_post_init (a : LeaseArgs) : res InferenceLease :=
  lease_id ← validate_identifier "lease_id" (ea_lease_id a);
  quote_id ← validate_identifier "quote_id" (ea_quote_id a);
  request_id ← validate_identifier "request_id" (ea_request_id a);
  owner_id ← validate_identifier "owner_id" (ea_owner_id a);
  provider ← validate_identifier "provider_name" (ea_provider_name a);
  model ← validate_identifier "model" (ea_model a);
  runtime ← validate_identifier "runtime" (ea_runtime a);
  state ← require_instance (ea_state a) (TypeError "state must be an InferenceLeaseState");
  privacy ← require_instance (ea_privacy a) (TypeError "privacy must be an InferencePrivacy");
  created ← validate_aware_timestamp "created_at" (ea_created_at a);
  updated ← validate_aware_timestamp "updated_at" (ea_updated_at a);
  expires ← validate_aware_timestamp "expires_at" (ea_expires_at a);
  _ ← raise_if (dt_ltb updated created) (ValueError "updated_at cannot precede created_at");
  _ ← raise_if (dt_leb expires created) (ValueError "expires_at must follow created_at");
  region ← opt_check (fun v => s ← validate_identifier "region" v; Ok (lower s)) (ea_region a);
  hourly ← opt_check (money "hourly_cost_usd") (ea_hourly_cost_usd a);
  total ← opt_check (money "estimated_total_cost_usd") (ea_estimated_total_cost_usd a);
  let is_ready := bool_decide (state = LREADY) in
  _ ← raise_if (is_ready && bool_decide (ea_route a = None)) (ValueError "a ready lease requires a route");
  route ← opt_check (fun v => require_instance v (TypeError "route must be an InferenceRoute"))
            (ea_route a);
  _ ← raise_if (negb is_ready && bool_decide (is_Some route))
        (ValueError "only a ready lease may carry a route");
  _ ← raise_if (match route with Some r => negb (bool_decide (r_model r = model)) | None => false end)
        (ValueError "route model must match lease model");
  _ ← raise_if (is_ready && dt_leb expires updated)
        (ValueError "a ready lease must not already be expired");
  _ ← raise_if (bool_decide (state = LEXPIRED) && dt_ltb updated expires)
        (ValueError "an expired lease must have reached its expiry");
  _ ← raise_if (bool_decide (state = LFAILED) && bool_decide (ea_failure a = None))
        (ValueError "a failed lease requires a failure");
  failure ← opt_check (fun v => require_instance v (TypeError "failure must be an InferenceLeaseFailure"))
              (ea_failure a);
  _ ← raise_if (negb (bool_decide (state = LFAILED)) && bool_decide (is_Some failure))
        (ValueError "only a failed lease may carry a failure");
  metadata ← freeze_public_metadata (ea_metadata a);
  Ok (MkLease lease_id quote_id request_id owner_id (lower provider) state model (lower runtime)
        privacy created updated expires region hourly total route failure metadata).

Definition assert_owner (self : InferenceLease) (owner_id : pystr) : res unit :=
  raise_if (negb (bool_decide (l_owner_id self = owner_id)))
    (InferenceLeaseOwnershipError "inference lease is owned by another agent").

(** [timedelta(microseconds=us).total_seconds() > a] for a positive integer
    [a]: the quotient is rounded to a float of 53 significant bits. *)
Definition total_seconds_gtb (us a : Z) : bool :=
  if a <? 2 ^ 53 then
    let k := Z.log2 a in
    1000000 * (a * 2 ^ (53 - k) + 1) <? us * 2 ^ (53 - k)
  else false.

Definition cost_exceeds (cost : option decimal) (maximum quoted : decimal) : bool :=
  match cost with
  | None => true
  | Some c => dec_ltb maximum c || dec_ltb quoted c
  end.

Definition lease_validate_for (self : InferenceLease) (request : InferenceLeaseRequest)
    (quote : InferenceLeaseQuote) : res unit :=
  _ ← raise_if (negb (bool_decide (l_request_id self = q_request_id request))
                || negb (bool_decide (l_owner_id self = q_owner_id request)))
        (constraint_error "lease request or owner does not match");
  _ ← raise_if (negb (bool_decide (l_quote_id self = k_quote_id quote)))
        (constraint_error "lease quote_id does not match quote");
  _ ← raise_if (negb (bool_decide (l_provider_name self = k_provider_name quote)))
        (constraint_error "lease provider does not match quote");
  _ ← raise_if (negb (bool_decide (l_model self = q_model request))
                || negb (bool_decide (l_runtime self = q_runtime request)))
        (constraint_error "lease model or runtime does not match");
  _ ← raise_if (negb (privacy_satisfies (l_privacy self) (q_privacy request)))
        (constraint_error "lease privacy is weaker than requested");
  _ ← raise_if (match l_region self with None => true | Some r => region_refused request r end)
        (constraint_error "lease region is not allowed");
  _ ← raise_if (cost_exceeds (l_hourly_cost_usd self) (q_max_hourly_cost_usd request) (k_hourly_cost_usd quote))
        (constraint_error "lease exceeds quoted or maximum hourly cost");
  _ ← raise_if (cost_exceeds (l_estimated_total_cost_usd self) (q_max_total_cost_usd request)
                  (k_estimated_total_cost_usd quote))
        (constraint_error "lease exceeds quoted or maximum total cost");
  raise_if (total_seconds_gtb (dt_sub (l_expires_at self) (q_requested_at request))
              (q_ready_deadline_seconds request + q_expected_session_seconds request))
    (constraint_error "lease expiry exceeds request session deadline").

Definition lease_to_public_dict (self : InferenceLease) : fjson :=
  FMap [(u "lease_id", FStr (l_lease_id self));
        (u "quote_id", FStr (l_quote_id self));
        (u "request_id", FStr (l_request_id self));
        (u "provider_name", FStr (l_provider_name self));
        (u "state", FStr (lease_state_value (l_state self)));
        (u "model", FStr (l_model self));
        (u "runtime", FStr (l_runtime self));
        (u "privacy", FStr (privacy_value (l_privacy self)));
        (u "created_at", FStr (isoformat (l_created_at self)));
        (u "updated_at", FStr (isoformat (l_updated_at self)));
        (u "expires_at", FStr (isoformat (l_expires_at self)));
        (u "region", opt_json FStr (l_region self));
        (u "hourly_cost_usd", opt_json (fun d => FStr (dec_str d)) (l_hourly_cost_usd self));
        (u "estimated_total_cost_usd",
         opt_json (fun d => FStr (dec_str d)) (l_estimated_total_cost_usd self));
        (u "route", opt_json route_to_public_dict (l_route self));
        (u "failure", opt_json failure_to_public_dict (l_failure self));
        (u "metadata", l_metadata self)].
