(* ===== verification/InferenceLeaseProps.v ===== *)
(** * Properties of inference leases

    Constructors and their invariants, the exact meaning of [satisfies] and
    of the two [validate_for] methods, secret-like metadata keys, and what
    the public serializers depend on. *)

From Stdlib Require Import QArith Qpower.
From stdpp Require Import gmap.
From S2P Require Export InferenceLease.

#[local] Open Scope Z_scope.

(** ** Decimal order *)

(** The rational value of a finite decimal. *)
Definition dec_value (d : decimal) : Q :=
  match d with
  | DecFin neg coef expo => inject_Z ((if neg then -1 else 1) * coef) * Qpower (inject_Z 10) expo
  | _ => 0
  end%Q.

Lemma ten_nonzero : ~ (inject_Z 10 == 0)%Q.
Proof. discriminate. Qed.

Lemma ten_power_pos e : (0 < Qpower (inject_Z 10) e)%Q.
Proof. by apply Qpower_0_lt. Qed.

Lemma ten_power_Z e : 0 <= e -> (Qpower (inject_Z 10) e == inject_Z (10 ^ e))%Q.
Proof. intros He. by rewrite Zpower_Qpower. Qed.

Lemma dec_scaled_value k d :
  match d with DecFin _ _ e => 0 <= e + k | _ => True end ->
  (inject_Z (dec_scaled k d) == dec_value d * Qpower (inject_Z 10) k)%Q.
Proof.
  destruct d as [neg coef e| |]; cbn [dec_scaled dec_value]; [|intros _; by rewrite Qmult_0_l..].
  intros He. rewrite inject_Z_mult, <- ten_power_Z by done.
  rewrite Qpower_plus by exact ten_nonzero. ring.
Qed.

Lemma dec_leb_value a b :
  dec_is_finite a = true -> dec_is_finite b = true ->
  dec_leb a b = true <-> (dec_value a <= dec_value b)%Q.
Proof.
  intros Ha Hb. unfold dec_leb. set (k := dec_shift a b).
  rewrite Z.leb_le, Zle_Qle, !dec_scaled_value.
  - apply Qmult_le_r, ten_power_pos.
  - destruct a, b; cbn in *; try done. unfold k; cbn. lia.
  - destruct a, b; cbn in *; try done. unfold k; cbn. lia.
Qed.

Lemma dec_ltb_value a b :
  dec_is_finite a = true -> dec_is_finite b = true ->
  dec_ltb a b = false <-> (dec_value b <= dec_value a)%Q.
Proof. intros. unfold dec_ltb. rewrite negb_false_iff. by apply dec_leb_value. Qed.

(** An amount of money: finite and not negative. *)
Definition amount (d : decimal) : Prop := dec_is_finite d = true /\ (0 <= dec_value d)%Q.

Lemma money_Ok name v d : money name v = Ok d <-> v = Inst d /\ amount d.
Proof.
  unfold money, amount. rewrite bind_Ok. setoid_rewrite require_instance_Ok. split.
  - intros (d' & -> & H). inv_ok. bool_hyps. split; [done|]. split; [done|].
    match goal with H : dec_ltb _ _ = false |- _ => apply dec_ltb_value in H; [|done..] end. done.
  - intros (-> & Hf & H). exists d. split; [done|].
    ok_guard ltac:(rewrite Hf; by apply dec_ltb_value). done.
Qed.

(** ** Identifiers *)

(** The normal form of an identifier. *)
Definition well_formed_identifier (s : pystr) : Prop :=
  1 <= len s <= 256 /\ Forall (fun c => identifier_char c = true) s
  /\ exists c, head s = Some c /\ is_alnum c = true.

Lemma identifier_lang s : re_match IDENTIFIER_RE s = true <-> well_formed_identifier s.
Proof.
  unfold IDENTIFIER_RE, well_formed_identifier, len. rewrite re_match_lang, cat_lang_iff. split.
  - intros (s1 & s2 & -> & H1 & H2). apply char_lang in H1 as (c & -> & Hc).
    apply upto_char_lang in H2 as [Hl HF]. cbn [app length]. split_and!; [lia|lia| |by exists c].
    constructor; [|done]. unfold identifier_char. by rewrite Hc.
  - intros (Hl & HF & c & Hh & Hc). destruct s as [|x s]; [done|]. injection Hh as ->.
    cbn [length] in Hl. apply list.Forall_cons in HF as [_ HF].
    exists [c], s. split_and!; [done|by constructor|]. apply upto_char_lang. split; [lia|done].
Qed.

Lemma identifier_char_ascii c : identifier_char c = true -> in_range 0 127 c = true.
Proof.
  unfold identifier_char, is_alnum, is_digit, is_upper, is_lower, in_range.
  rewrite !orb_true_iff, mem_true, !andb_true_iff, !Z.leb_le.
  change (u "._:/-") with [46; 95; 58; 47; 45]. rewrite !elem_of_cons, elem_of_nil. lia.
Qed.

Lemma identifier_char_not_space c : identifier_char c = true -> is_space c = false.
Proof.
  intros Hc. apply negb_true_iff.
  assert (H : implb (identifier_char c) (negb (is_space c)) = true).
  { apply (ascii_forall (fun c => implb (identifier_char c) (negb (is_space c))));
      [by vm_compute | by apply identifier_char_ascii]. }
  by rewrite Hc in H.
Qed.

Definition lower_char (c : Z) : Z := if is_upper c then c + 32 else c.

Lemma identifier_char_lower c :
  identifier_char c = true ->
  identifier_char (lower_char c) = true /\ is_upper (lower_char c) = false
  /\ (is_alnum c = true -> is_alnum (lower_char c) = true).
Proof.
  intros Hc.
  assert (H : implb (identifier_char c)
                (identifier_char (lower_char c) && negb (is_upper (lower_char c))
                 && implb (is_alnum c) (is_alnum (lower_char c))) = true).
  { apply (ascii_forall (fun c => implb (identifier_char c)
                (identifier_char (lower_char c) && negb (is_upper (lower_char c))
                 && implb (is_alnum c) (is_alnum (lower_char c)))));
      [by vm_compute | by apply identifier_char_ascii]. }
  rewrite Hc in H. cbn in H. bool_hyps. split_and!; [done..|].
  intros Ha. match goal with H : implb _ _ = true |- _ => by rewrite Ha in H end.
Qed.

Lemma lower_fmap s : lower s = lower_char <$> s.
Proof. done. Qed.

Lemma well_formed_identifier_lower s :
  well_formed_identifier s -> well_formed_identifier (lower s).
Proof.
  intros (Hl & HF & c & Hh & Hc). rewrite lower_fmap. split_and!.
  1-2: unfold len in *; rewrite length_fmap; lia.
  - apply Forall_fmap. eapply list.Forall_impl; [exact HF|]. intros x Hx. by apply identifier_char_lower.
  - destruct s as [|x s]; [done|]. injection Hh as ->. exists (lower_char c). split; [done|].
    apply list.Forall_cons in HF as [Hx _]. by apply identifier_char_lower.
Qed.

Lemma lower_idemp s : well_formed_identifier s -> lower (lower s) = lower s.
Proof.
  intros (_ & HF & _). rewrite !lower_fmap. induction HF as [|c s Hc _ IH]; [done|].
  assert (Hlc : lower_char (lower_char c) = lower_char c).
  { apply identifier_char_lower in Hc as (_ & Hu & _). unfold lower_char at 1. by rewrite Hu. }
  change (lower_char (lower_char c) :: lower (lower s) = lower_char c :: lower s). f_equal; [exact Hlc | exact IH].
Qed.

Lemma identifier_strip s : well_formed_identifier s -> strip s = s.
Proof.
  intros (_ & HF & _). apply strip_trimmed.
  - destruct s; [done|]. apply list.Forall_cons in HF as [H _]. by apply identifier_char_not_space.
  - apply Forall_rev in HF. destruct (rev s); [done|].
    apply list.Forall_cons in HF as [H _]. by apply identifier_char_not_space.
Qed.

Lemma validate_identifier_Ok name v s :
  validate_identifier name v = Ok s <->
  exists raw, v = Inst raw /\ s = strip raw /\ well_formed_identifier s.
Proof.
  unfold validate_identifier. destruct v as [raw|]; [|by split; [|intros (? & ? & _)]].
  rewrite bind_Ok. setoid_rewrite raise_if_Ok. setoid_rewrite negb_false_iff.
  setoid_rewrite identifier_lang. split.
  - intros (_ & H & [= <-]). by exists raw.
  - intros (raw' & [= <-] & -> & H). by exists tt.
Qed.

(** A normal identifier validates to itself. *)
Lemma validate_identifier_normal name s :
  well_formed_identifier s -> validate_identifier name (Inst s) = Ok s.
Proof. intros H. apply validate_identifier_Ok. exists s. by rewrite identifier_strip. Qed.

Lemma validate_identifier_wf name v s :
  validate_identifier name v = Ok s -> well_formed_identifier s.
Proof. intros H. by apply validate_identifier_Ok in H as (_ & _ & _ & ?). Qed.

(** A normal identifier in lower case. *)
Definition lower_identifier (s : pystr) : Prop := well_formed_identifier s /\ lower s = s.

Lemma lower_identifier_of s : well_formed_identifier s -> lower_identifier (lower s).
Proof. intros H. split; [by apply well_formed_identifier_lower | by apply lower_idemp]. Qed.

Lemma identifier_tuple_Ok name dup vs l :
  identifier_tuple name dup vs = Ok l -> Forall lower_identifier l /\ NoDup l.
Proof.
  unfold identifier_tuple. intros H. inv_ok. bool_hyps. split; [|done].
  match goal with H : traverse _ _ = Ok _ |- _ => apply traverse_Ok in H; rename H into HF end.
  clear -HF. induction HF as [|x y xs ys Hxy _ IH]; [done|]. constructor; [|done].
  inv_ok. apply lower_identifier_of. by eapply validate_identifier_wf.
Qed.

Lemma identifier_tuple_normal name dup l :
  Forall lower_identifier l -> NoDup l -> identifier_tuple name dup (Iter (Inst <$> l)) = Ok l.
Proof.
  intros HF Hnd. unfold identifier_tuple. ok_step ltac:(reflexivity).
  apply bind_Ok. exists l. split.
  - apply traverse_Ok. induction HF as [|s l [Hs Hlow] _ IH]; [constructor|].
    apply list.NoDup_cons in Hnd as [_ Hnd]. constructor; [|by apply IH].
    rewrite validate_identifier_normal by done. cbn. by rewrite Hlow.
  - by ok_guard ltac:(by apply negb_false_iff, no_dup_true).
Qed.

(** ** Timestamps and integers *)

(** A normalised timestamp: aware, in UTC, and within the calendar. *)
Definition utc_timestamp (d : datetime) : Prop := exists w, d = utc_datetime w.

Lemma validate_aware_timestamp_Ok name v d :
  validate_aware_timestamp name v = Ok d ->
  exists raw, v = Inst raw /\ is_naive raw = false
  /\ (d = raw /\ dt_zone raw = Some utc_zone \/ d = utc_datetime (instant raw)).
Proof.
  unfold validate_aware_timestamp. intros H. apply bind_Ok in H as (raw & Hr & H).
  apply aware_datetime_Ok in Hr as [-> Hn]. exists raw. split_and!; [done..|].
  unfold astimezone_utc in H. case_decide as Hz; [injection H as <-; by left|].
  destruct (_ && _); [|done]. injection H as <-. by right.
Qed.

Lemma positive_int_Ok name v z : positive_int name v = Ok z <-> v = DInt z /\ 0 < z.
Proof.
  unfold positive_int. rewrite bind_Ok. setoid_rewrite require_int_Ok. split.
  - intros (? & -> & H). inv_ok. by bool_hyps.
  - intros [-> Hz]. exists z. split; [done|]. by ok_guard ltac:(by apply Z.leb_gt).
Qed.

Lemma non_negative_int_Ok name v z : non_negative_int name v = Ok z <-> v = DInt z /\ 0 <= z.
Proof.
  unfold non_negative_int. rewrite bind_Ok. setoid_rewrite require_int_Ok. split.
  - intros (? & -> & H). inv_ok. by bool_hyps.
  - intros [-> Hz]. exists z. split; [done|]. by ok_guard ltac:(by apply Z.ltb_ge).
Qed.

(** ** Invariants of the constructors *)

Record request_wf (r : InferenceLeaseRequest) : Prop := {
  qf_request_id : well_formed_identifier (q_request_id r);
  qf_owner_id : well_formed_identifier (q_owner_id r);
  qf_model : well_formed_identifier (q_model r);
  qf_runtime : lower_identifier (q_runtime r);
  qf_hourly : amount (q_max_hourly_cost_usd r);
  qf_total : amount (q_max_total_cost_usd r);
  qf_capabilities : Forall lower_identifier (q_capabilities r) /\ NoDup (q_capabilities r);
  qf_regions : Forall lower_identifier (q_allowed_regions r) /\ NoDup (q_allowed_regions r);
  qf_concurrency : 0 < q_expected_concurrency r;
  qf_session : 0 < q_idle_ttl_seconds r <= q_expected_session_seconds r;
  qf_ready : 0 < q_ready_deadline_seconds r;
  qf_requested : dt_zone (q_requested_at r) = Some utc_zone
}.

Lemma aware_timestamp_utc name v d :
  validate_aware_timestamp name v = Ok d -> dt_zone d = Some utc_zone.
Proof. intros H. by apply validate_aware_timestamp_Ok in H as (raw & _ & _ & [[-> ?]| ->]). Qed.

(** Facts about the arguments of a constructor that returned. *)
Ltac lease_facts :=
  repeat match goal with
  | H : validate_identifier _ _ = Ok _ |- _ => apply validate_identifier_wf in H
  | H : money _ _ = Ok _ |- _ => apply money_Ok in H as [_ ?]
  | H : identifier_tuple _ _ _ = Ok _ |- _ => apply identifier_tuple_Ok in H
  | H : positive_int _ _ = Ok _ |- _ => apply positive_int_Ok in H as [_ ?]
  | H : non_negative_int _ _ = Ok _ |- _ => apply non_negative_int_Ok in H as [_ ?]
  | H : validate_aware_timestamp _ _ = Ok _ |- _ => apply aware_timestamp_utc in H
  | H : require_instance _ _ = Ok _ |- _ => apply require_instance_Ok in H
  end.

Lemma request_post_init_wf a r : request_post_init a = Ok r -> request_wf r.
Proof.
  unfold request_post_init. intros H. inv_ok. lease_facts. bool_hyps.
  split; cbn; auto using lower_identifier_of.
Qed.

Record quote_wf (k : InferenceLeaseQuote) : Prop := {
  kf_runtime : lower_identifier (k_runtime k);
  kf_provider : lower_identifier (k_provider_name k);
  kf_region : lower_identifier (k_region k);
  kf_hourly : amount (k_hourly_cost_usd k);
  kf_total : amount (k_estimated_total_cost_usd k);
  kf_ready : 0 <= k_estimated_ready_seconds k;
  kf_expires : dt_zone (k_expires_at k) = Some utc_zone
}.

Lemma quote_post_init_wf qi ri pn rt rg pv h t n e m k :
  quote_post_init qi ri pn rt rg pv h t n e m = Ok k -> quote_wf k.
Proof.
  unfold quote_post_init. intros H. inv_ok. lease_facts.
  split; cbn; auto using lower_identifier_of.
Qed.

(** A lease is consistent: a route exactly while ready and for its model, a
    failure exactly when failed, its clocks in order. *)
Record lease_wf (l : InferenceLease) : Prop := {
  lf_owner : well_formed_identifier (l_owner_id l);
  lf_runtime : lower_identifier (l_runtime l);
  lf_route : is_Some (l_route l) <-> l_state l = LREADY;
  lf_model : forall r, l_route l = Some r -> r_model r = l_model l;
  lf_failure : is_Some (l_failure l) <-> l_state l = LFAILED;
  lf_hourly : forall d, l_hourly_cost_usd l = Some d -> amount d;
  lf_total : forall d, l_estimated_total_cost_usd l = Some d -> amount d;
  lf_region : forall s, l_region l = Some s -> lower_identifier s;
  lf_zones : dt_zone (l_created_at l) = Some utc_zone /\ dt_zone (l_updated_at l) = Some utc_zone
             /\ dt_zone (l_expires_at l) = Some utc_zone;
  lf_order : 0 <= dt_sub (l_updated_at l) (l_created_at l)
             /\ 0 < dt_sub (l_expires_at l) (l_created_at l);
  lf_ready : l_state l = LREADY -> 0 < dt_sub (l_expires_at l) (l_updated_at l);
  lf_expired : l_state l = LEXPIRED -> dt_sub (l_expires_at l) (l_updated_at l) <= 0
}.

Lemma opt_check_Some {A B} (f : A -> res B) v b :
  opt_check f v = Ok (Some b) -> exists a, v = Some a /\ f a = Ok b.
Proof. destruct v as [a|]; cbn; [|done]. intros H. inv_ok. by exists a. Qed.

Lemma opt_check_None {A B} (f : A -> res B) v : opt_check f v = Ok None <-> v = None.
Proof. destruct v as [a|]; cbn; [|done]. split; [|done]. intros H. by inv_ok. Qed.

Lemma opt_instance_Ok {A} (v : option (dyn A)) e r :
  opt_check (fun v => require_instance v e) v = Ok r <-> v = Inst <$> r.
Proof.
  destruct v as [v|]; cbn.
  - rewrite bind_Ok. setoid_rewrite require_instance_Ok. split.
    + by intros (a & -> & [= <-]).
    + destruct r as [a|]; [|done]. intros [= ->]. by exists a.
  - split; [by intros [= <-]|]. by destruct r.
Qed.

Lemma lease_post_init_wf a l : lease_post_init a = Ok l -> lease_wf l.
Proof.
  unfold lease_post_init. intros H. inv_ok. lease_facts.
  repeat match goal with
  | H : opt_check (fun v => require_instance v _) _ = Ok _ |- _ => apply opt_instance_Ok in H
  end.
  match goal with H : ea_route a = _ |- _ => rewrite H in *; clear H end.
  match goal with H : ea_failure a = _ |- _ => rewrite H in *; clear H end.
  unfold dt_ltb, dt_leb in *. bool_hyps.
  match goal with |- lease_wf (MkLease _ _ _ _ _ ?st _ _ _ _ _ _ _ _ _ ?rt ?fl _) =>
    rename rt into route, fl into failure, st into state end.
  split; cbn.
  - done.
  - by apply lower_identifier_of.
  - destruct (decide (state = LREADY)) as [->|Hs].
    + destruct route; [split; [done|by eexists]|]. by rewrite !bool_decide_eq_true_2 in * by done.
    + rewrite (bool_decide_eq_false_2 (state = LREADY)) in * by done. cbn in *. bool_hyps. tauto.
  - intros rt ->. by bool_hyps.
  - destruct (decide (state = LFAILED)) as [->|Hs].
    + destruct failure; [split; [done|by eexists]|]. by rewrite !bool_decide_eq_true_2 in * by done.
    + rewrite (bool_decide_eq_false_2 (state = LFAILED)) in * by done. cbn in *. bool_hyps. tauto.
  - intros d ->. match goal with H : opt_check _ (ea_hourly_cost_usd a) = _ |- _ =>
      apply opt_check_Some in H as (? & _ & H); by apply money_Ok in H as [_ ?] end.
  - intros d ->. match goal with H : opt_check _ (ea_estimated_total_cost_usd a) = _ |- _ =>
      apply opt_check_Some in H as (? & _ & H); by apply money_Ok in H as [_ ?] end.
  - intros s ->. match goal with H : opt_check _ (ea_region a) = _ |- _ =>
      apply opt_check_Some in H as (? & _ & H) end.
    inv_ok. apply lower_identifier_of. by eapply validate_identifier_wf.
  - done.
  - rewrite (dt_sub_opp _ (_ : datetime)) in *. split; lia.
  - intros ->. rewrite (bool_decide_eq_true_2 (LREADY = LREADY)) in * by done. cbn in *. bool_hyps. lia.
  - intros ->. rewrite (bool_decide_eq_true_2 (LEXPIRED = LEXPIRED)) in * by done. cbn in *. bool_hyps.
    rewrite dt_sub_opp. lia.
Qed.

(** ** Offers and allocations *)

(** The region constraint: none, or membership. *)
Definition region_allowed (q : InferenceLeaseRequest) (region : pystr) : Prop :=
  q_allowed_regions q = [] \/ region ∈ q_allowed_regions q.

Lemma region_refused_false q s : region_refused q s = false <-> region_allowed q s.
Proof.
  unfold region_refused, region_allowed.
  rewrite andb_false_iff, !negb_false_iff, bool_decide_eq_true, mem_true. done.
Qed.

Definition no_more_exposed (delivered permitted : InferencePrivacy) : Prop :=
  PRIVACY_EXPOSURE delivered <= PRIVACY_EXPOSURE permitted.

(** What a usable quote guarantees. *)
Record quote_honours (k : InferenceLeaseQuote) (q : InferenceLeaseRequest) (current : datetime) : Prop := {
  kh_request : k_request_id k = q_request_id q;
  kh_runtime : k_runtime k = q_runtime q;
  kh_privacy : no_more_exposed (k_privacy k) (q_privacy q);
  kh_region : region_allowed q (k_region k);
  kh_hourly : (dec_value (k_hourly_cost_usd k) <= dec_value (q_max_hourly_cost_usd q))%Q;
  kh_total : (dec_value (k_estimated_total_cost_usd k) <= dec_value (q_max_total_cost_usd q))%Q;
  kh_ready : k_estimated_ready_seconds k <= q_ready_deadline_seconds q;
  kh_live : 0 < dt_sub (k_expires_at k) current
}.

Lemma quote_validate_for_Ok clock k q now u :
  quote_wf k -> request_wf q ->
  quote_validate_for clock k q now = Ok u <->
  exists current, validate_aware_timestamp "now" (default (Inst clock) now) = Ok current
  /\ quote_honours k q current.
Proof.
  intros Hk Hq. unfold quote_validate_for. rewrite bind_Ok.
  pose proof (proj1 (kf_hourly _ Hk)) as F1. pose proof (proj1 (kf_total _ Hk)) as F2.
  pose proof (proj1 (qf_hourly _ Hq)) as F3. pose proof (proj1 (qf_total _ Hq)) as F4.
  split.
  - intros (c & Hc & H). exists c. split; [done|]. inv_ok.
    rewrite region_refused_false in *. rewrite dec_ltb_value in * by done.
    unfold dt_leb, privacy_satisfies in *. bool_hyps. by split.
  - intros (c & Hc & []). exists c. split; [done|].
    ok_guard ltac:(apply negb_false_iff; by apply bool_decide_eq_true).
    ok_guard ltac:(apply negb_false_iff; by apply bool_decide_eq_true).
    ok_guard ltac:(apply negb_false_iff; by apply Z.leb_le).
    ok_guard ltac:(by apply region_refused_false).
    ok_guard ltac:(by apply dec_ltb_value).
    ok_guard ltac:(by apply dec_ltb_value).
    ok_guard ltac:(by apply Z.ltb_ge).
    apply raise_if_Ok. unfold dt_leb. by apply Z.leb_gt.
Qed.

(** What an acceptable lease guarantees. *)
Record lease_honours (l : InferenceLease) (q : InferenceLeaseRequest) (k : InferenceLeaseQuote) : Prop := {
  lh_owner : l_owner_id l = q_owner_id q;
  lh_request : l_request_id l = q_request_id q;
  lh_quote : l_quote_id l = k_quote_id k;
  lh_provider : l_provider_name l = k_provider_name k;
  lh_model : l_model l = q_model q;
  lh_runtime : l_runtime l = q_runtime q;
  lh_privacy : no_more_exposed (l_privacy l) (q_privacy q);
  lh_region : exists r, l_region l = Some r /\ region_allowed q r;
  lh_hourly : exists c, l_hourly_cost_usd l = Some c
              /\ (dec_value c <= dec_value (q_max_hourly_cost_usd q))%Q
              /\ (dec_value c <= dec_value (k_hourly_cost_usd k))%Q;
  lh_total : exists c, l_estimated_total_cost_usd l = Some c
             /\ (dec_value c <= dec_value (q_max_total_cost_usd q))%Q
             /\ (dec_value c <= dec_value (k_estimated_total_cost_usd k))%Q;
  lh_lifetime : total_seconds_gtb (dt_sub (l_expires_at l) (q_requested_at q))
                  (q_ready_deadline_seconds q + q_expected_session_seconds q) = false
}.

Lemma cost_exceeds_false cost m k :
  (forall c, cost = Some c -> dec_is_finite c = true) -> dec_is_finite m = true ->
  dec_is_finite k = true ->
  cost_exceeds cost m k = false <->
  exists c, cost = Some c /\ (dec_value c <= dec_value m)%Q /\ (dec_value c <= dec_value k)%Q.
Proof.
  intros Hc Hm Hk. destruct cost as [c|]; cbn; [|by split; [|intros (? & ? & _)]].
  specialize (Hc c eq_refl). rewrite orb_false_iff, !dec_ltb_value by done. split.
  - intros [? ?]. by exists c.
  - by intros (? & [= <-] & ? & ?).
Qed.

Lemma lease_validate_for_Ok l q k u :
  lease_wf l -> request_wf q -> quote_wf k ->
  lease_validate_for l q k = Ok u <-> lease_honours l q k.
Proof.
  intros Hl Hq Hk.
  pose proof (cost_exceeds_false (l_hourly_cost_usd l) (q_max_hourly_cost_usd q) (k_hourly_cost_usd k)
    (fun c Hc => proj1 (lf_hourly _ Hl c Hc)) (proj1 (qf_hourly _ Hq)) (proj1 (kf_hourly _ Hk))) as C1.
  pose proof (cost_exceeds_false (l_estimated_total_cost_usd l) (q_max_total_cost_usd q)
    (k_estimated_total_cost_usd k)
    (fun c Hc => proj1 (lf_total _ Hl c Hc)) (proj1 (qf_total _ Hq)) (proj1 (kf_total _ Hk))) as C2.
  assert (R : match l_region l with None => true | Some r => region_refused q r end = false
              <-> exists r, l_region l = Some r /\ region_allowed q r).
  { destruct (l_region l) as [r|]; [|by split; [|intros (? & ? & _)]].
    rewrite region_refused_false. split; [by exists r | by intros (? & [= <-] & ?)]. }
  unfold lease_validate_for. split.
  - intros H. inv_ok. rewrite C1, C2, R in *. unfold privacy_satisfies in *. bool_hyps. by split.
  - intros [].
    ok_guard ltac:(apply orb_false_iff; rewrite !negb_false_iff, !bool_decide_eq_true; done).
    ok_guard ltac:(rewrite negb_false_iff, bool_decide_eq_true; done).
    ok_guard ltac:(rewrite negb_false_iff, bool_decide_eq_true; done).
    ok_guard ltac:(apply orb_false_iff; rewrite !negb_false_iff, !bool_decide_eq_true; done).
    ok_guard ltac:(apply negb_false_iff; by apply Z.leb_le).
    ok_guard ltac:(by apply R). ok_guard ltac:(by apply C1). ok_guard ltac:(by apply C2).
    by apply raise_if_Ok.
Qed.

(** The float comparison is exact below two to the 33 seconds. *)
Lemma total_seconds_gtb_exact us a :
  0 < a < 2 ^ 33 -> total_seconds_gtb us a = false <-> us <= a * second_us.
Proof.
  intros Ha. unfold total_seconds_gtb, second_us.
  rewrite (proj2 (Z.ltb_lt a (2 ^ 53))) by lia. rewrite Z.ltb_ge.
  assert (Hk : 0 <= Z.log2 a <= 32).
  { split; [apply Z.log2_nonneg|]. assert (Z.log2 a < 33); [|lia]. apply Z.log2_lt_pow2; lia. }
  set (p := 2 ^ (53 - Z.log2 a)). assert (Hp : 2 ^ 21 <= p) by (apply Z.pow_le_mono_r; lia).
  change (2 ^ 21) with 2097152 in Hp. split; intros H; [|nia].
  assert (us < a * 1000000 + 1); [|lia]. apply Z.lt_nge. intros Hge. nia.
Qed.

(** A lease passes validation exactly when it honours the request and
    the quote: same owner, request, quote, provider, model and runtime, no
    weaker privacy, an allowed region, known costs within both the maximum
    and the quoted amounts, and an expiry within the session deadline. Every
    refusal is an [InferenceLeaseConstraintError]. *)
Theorem lease_validate_for_exact la l qa q k qi ri pn rt rg pv h t n e m
    (Hl : lease_post_init la = Ok l) (Hq : request_post_init qa = Ok q)
    (Hk : quote_post_init qi ri pn rt rg pv h t n e m = Ok k) :
  (lease_validate_for l q k = Ok tt <-> lease_honours l q k)
  /\ (forall err, lease_validate_for l q k = Raise err -> exists msg, err = constraint_error msg).
Proof.
  apply lease_post_init_wf in Hl. apply request_post_init_wf in Hq. apply quote_post_init_wf in Hk.
  split; [by apply lease_validate_for_Ok|]. intros err H. unfold lease_validate_for in H.
  repeat (apply bind_Raise in H as [H|([] & _ & H)];
          [apply raise_if_Raise in H as [_ <-]; by eexists|]).
  apply raise_if_Raise in H as [_ <-]. by eexists.
Qed.

(** A validated lease never outlives the session it was requested for:
    it expires at most the readiness deadline plus the session length after
    the request, in exact microseconds, for sessions of up to 2^33 seconds. *)
Theorem lease_lifetime_bounded la l qa q k qi ri pn rt rg pv h t n e m
    (Hl : lease_post_init la = Ok l) (Hq : request_post_init qa = Ok q)
    (Hk : quote_post_init qi ri pn rt rg pv h t n e m = Ok k)
    (Hv : lease_validate_for l q k = Ok tt)
    (Hb : q_ready_deadline_seconds q + q_expected_session_seconds q < 2 ^ 33) :
  dt_wall (l_expires_at l) - dt_wall (q_requested_at q)
  <= (q_ready_deadline_seconds q + q_expected_session_seconds q) * second_us.
Proof.
  apply lease_post_init_wf in Hl. apply request_post_init_wf in Hq. apply quote_post_init_wf in Hk.
  apply lease_validate_for_Ok in Hv as []; [|done..].
  destruct (lf_zones _ Hl) as (_ & _ & Hze). pose proof (qf_requested _ Hq) as Hzr.
  destruct (qf_session _ Hq). pose proof (qf_ready _ Hq).
  rewrite total_seconds_gtb_exact in * by lia.
  unfold dt_sub in *. by rewrite decide_True in * by congruence.
Qed.

(** A quote is usable exactly while it honours the request at the time
    it is checked: right request and runtime, no weaker privacy, an allowed
    region, both costs and the readiness within the limits, not expired. *)
Theorem quote_validate_for_exact clock qa q k qi ri pn rt rg pv h t n e m now
    (Hq : request_post_init qa = Ok q)
    (Hk : quote_post_init qi ri pn rt rg pv h t n e m = Ok k) :
  quote_validate_for clock k q now = Ok tt <->
  exists current, validate_aware_timestamp "now" (default (Inst clock) now) = Ok current
  /\ quote_honours k q current.
Proof.
  apply request_post_init_wf in Hq. apply quote_post_init_wf in Hk. by apply quote_validate_for_Ok.
Qed.

(** The lifecycle invariant of every constructed lease: it has a route
    exactly while it is ready, the route serves the lease's model, it has a
    failure exactly when it failed, its clocks are UTC and in order, a ready
    lease is not yet expired and an expired one has reached its expiry. *)
Theorem lease_post_init_invariant a l (Hl : lease_post_init a = Ok l) : lease_wf l.
Proof. exact (lease_post_init_wf a l Hl). Qed.

(** Static matching: a provider declaration satisfies a request exactly
    when the runtime is the same, one of its privacy modes exposes no more
    than permitted, it has the concurrency and every capability, and it
    serves one of the allowed regions, if the request names any. *)
Theorem satisfies_exact c q :
  satisfies c q = true <->
  pc_runtime c = q_runtime q
  /\ (exists p, p ∈ pc_privacy c /\ no_more_exposed p (q_privacy q))
  /\ q_expected_concurrency q <= pc_max_concurrency c
  /\ (forall x, x ∈ q_capabilities q -> x ∈ pc_capabilities c)
  /\ (q_allowed_regions q = [] \/ exists r, r ∈ q_allowed_regions q /\ r ∈ pc_regions c).
Proof.
  unfold satisfies.
  assert (Hp : existsb (fun p => privacy_satisfies p (q_privacy q)) (pc_privacy c) = true <->
    exists p, p ∈ pc_privacy c /\ no_more_exposed p (q_privacy q)).
  { rewrite existsb_exists. unfold privacy_satisfies, no_more_exposed.
    split; intros (p & Hin & H); exists p; (split; [by apply list_elem_of_In|lia]). }
  assert (Hc : forallb (fun c' => mem c' (pc_capabilities c)) (q_capabilities q) = true <->
    forall x, x ∈ q_capabilities q -> x ∈ pc_capabilities c).
  { rewrite List.forallb_forall.
    split; intros H x Hx; [apply mem_true, H; by apply list_elem_of_In|apply mem_true, H; by apply list_elem_of_In]. }
  assert (Hr : (match q_allowed_regions q with [] => true | rs => existsb (fun r => mem r (pc_regions c)) rs end = true)
    <-> q_allowed_regions q = [] \/ exists r, r ∈ q_allowed_regions q /\ r ∈ pc_regions c).
  { destruct (q_allowed_regions q) as [|r0 rs]; [tauto|]. rewrite existsb_exists. split.
    - intros (r & Hin & H). right. exists r. split; [by apply list_elem_of_In|by apply mem_true].
    - intros [?|(r & Hin & H)]; [done|]. exists r. split; [by apply list_elem_of_In|by apply mem_true]. }
  rewrite <- Hp, <- Hc, <- Hr.
  case_bool_decide as Hrt; [|split; [done|tauto]].
  destruct (existsb _ (pc_privacy c)); cbn [negb orb]; [|split; [done|intros (_ & ? & _); done]].
  destruct (Z.ltb_spec (pc_max_concurrency c) (q_expected_concurrency q)); [split; [done|lia]|].
  destruct (forallb _ _); cbn [negb]; [|split; [done|intros (_ & _ & _ & ? & _); done]].
  tauto.
Qed.

(** ** Secret-like keys *)

#[export] Instance public_metadata_validators_faithful : FaithfulValidators public_metadata_validators.
Proof.
  split; cbn; try congruence. intros [] k H; cbn in H; try done.
  destruct s as [|c s]; [done|]. inv_ok. done.
Qed.

Lemma public_metadata_key_Ok k :
  public_metadata_key (VStr k) = Ok k <-> k <> [] /\ is_secret_like_public_key k = false.
Proof.
  destruct k as [|c k]; cbn [public_metadata_key]; [by split; [|intros []]|].
  rewrite bind_Ok. setoid_rewrite raise_if_Ok. split; [by intros (_ & H & _)|].
  intros [_ H]. by exists tt.
Qed.

(** Frozen lease metadata denotes the caller's mapping and no key in it,
    at any depth, is empty or secret-like. *)
Theorem public_metadata_no_secrets value t
    (Hwf : heap_wf (st_heap value)) (Hf : freeze_public_metadata value = Ok t) :
  unfolds (st_heap value) (st_value value) t
  /\ everywhere (fun _ => True) (fun k => k <> [] /\ is_secret_like_public_key k = false) t.
Proof.
  unfold freeze_public_metadata in Hf. destruct value as [h v msd]; cbn in *.
  destruct v as [| | | | |l|]; try done. destruct (h !! l) as [[items|]|]; try done.
  apply bind_Ok in Hf as ([t' n] & Hf & [= <-]). cbn [fst].
  apply freeze_json_Ok in Hf as (Hu & Ha & _); [|apply _|done|done]. split; [done|].
  eapply everywhere_impl; [| |exact Ha]; [done|]. intros k Hk. cbn in Hk. by apply public_metadata_key_Ok.
Qed.

Lemma camel_split_cons a b s :
  camel_split (a :: b :: s) =
  if (is_lower a || is_digit a) && is_upper b then a :: 95 :: camel_split (b :: s)
  else a :: camel_split (b :: s).
Proof. done. Qed.

Lemma camel_split_app x y :
  (forall a b, list.last x = Some a -> head y = Some b -> (is_lower a || is_digit a) && is_upper b = false) ->
  camel_split (x ++ y) = camel_split x ++ camel_split y.
Proof.
  induction x as [|a x IH]; intros H; [done|]. destruct x as [|b x].
  - destruct y as [|c y]; [done|]. cbn [app]. rewrite camel_split_cons.
    by rewrite (H a c eq_refl eq_refl).
  - change ((a :: b :: x) ++ y) with (a :: b :: (x ++ y)).
    rewrite !camel_split_cons. change (b :: x ++ y) with ((b :: x) ++ y). rewrite IH; [|exact H].
    by destruct (_ && _).
Qed.

Lemma camel_split_lower s : Forall (fun c => is_lower c = true) s -> camel_split s = s.
Proof.
  induction 1 as [|a s Ha HF IH]; [done|]. destruct s as [|b s]; [done|].
  rewrite camel_split_cons. apply list.Forall_cons in HF as [Hb _].
  replace (is_upper b) with false; [|unfold is_upper, is_lower, in_range in *; lia].
  by rewrite andb_false_r, IH.
Qed.

Lemma camel_split_head s : head (camel_split s) = head s.
Proof. destruct s as [|a [|b s]]; [done..|]. cbn. by destruct (_ && _). Qed.

Section Split.
Context {A : Type} (p : A -> bool).

Lemma split_on_app_sep a x y : p a = true -> split_on p (x ++ a :: y) = split_on p x ++ split_on p y.
Proof.
  intros Ha. induction x as [|b x IH]; cbn [app split_on]; [by rewrite Ha|].
  rewrite IH. destruct (p b); [done|]. pose proof (split_on_not_nil p x).
  by destruct (split_on p x).
Qed.

Lemma split_on_none x : Forall (fun c => p c = false) x -> split_on p x = [x].
Proof. induction 1 as [|c x Hc _ IH]; [done|]. cbn. by rewrite Hc, IH. Qed.
End Split.

(** [s] starts, or [p] ends, at a word boundary. *)
Definition ends_word (s : pystr) : Prop := s = [] \/ exists a s', s = a :: s' /\ is_alnum a = false.
Definition starts_word (p : pystr) : Prop := p = [] \/ exists p' a, p = p' ++ [a] /\ is_alnum a = false.

Lemma segment_found p seg s :
  Forall (fun c => is_lower c = true) seg -> seg <> [] -> starts_word p -> ends_word s ->
  seg ∈ public_key_segments (p ++ seg ++ s).
Proof.
  intros Hl Hne Hp Hs. unfold public_key_segments. set (sep := fun c => negb (is_alnum c)).
  assert (Hseg : Forall (fun c => sep c = false) seg).
  { eapply list.Forall_impl; [exact Hl|]. intros c Hc. unfold sep, is_alnum. rewrite Hc. by rewrite orb_true_r. }
  assert (Hup : forall c, is_alnum c = false -> is_upper c = false /\ is_lower c = false /\ is_digit c = false).
  { intros c Hc. unfold is_alnum in Hc. by bool_hyps. }
  assert (Hc : camel_split (p ++ seg ++ s) = camel_split p ++ seg ++ camel_split s).
  { rewrite camel_split_app.
    - f_equal. rewrite camel_split_app; [by rewrite camel_split_lower|].
      intros a b _ Hb. destruct Hs as [->|(b' & s' & -> & Hb')]; [done|]. injection Hb as ->.
      apply Hup in Hb' as (-> & _). apply andb_false_r.
    - intros a b Ha _. destruct Hp as [->|(p' & a' & -> & Ha')]; [done|].
      rewrite last_snoc in Ha. injection Ha as ->. by apply Hup in Ha' as (_ & -> & ->). }
  assert (Hlow : lower seg = seg).
  { clear -Hl. induction Hl as [|c seg Hc _ IH]; [done|]. change (lower (c :: seg)) with (lower_char c :: lower seg).
    rewrite IH. f_equal. unfold lower_char, is_upper, is_lower, in_range in *.
    destruct (Z.leb_spec 65 c), (Z.leb_spec c 90); cbn; lia. }
  rewrite Hc. apply list_elem_of_fmap. exists seg. split; [done|].
  apply list_elem_of_filter. split; [done|].
  assert (Hrest : seg ∈ split_on sep (seg ++ camel_split s)).
  { destruct Hs as [->|(b & s' & -> & Hb)].
    - rewrite app_nil_r, split_on_none by done. by left.
    - assert (Hcs : exists y, camel_split (b :: s') = b :: y).
      { pose proof (camel_split_head (b :: s')) as Hh. destruct (camel_split (b :: s')) as [|x y]; [done|].
        injection Hh as ->. by exists y. }
      destruct Hcs as [y ->]. rewrite split_on_app_sep by (unfold sep; by rewrite Hb).
      rewrite split_on_none by done. by left. }
  destruct Hp as [->|(p' & a & -> & Ha)]; [done|].
  assert (Hcp : camel_split (p' ++ [a]) = camel_split p' ++ [a]).
  { rewrite camel_split_app; [done|]. intros x y _ [= <-]. apply Hup in Ha as (-> & _). apply andb_false_r. }
  rewrite Hcp, <- app_assoc. cbn [app]. rewrite split_on_app_sep by (unfold sep; by rewrite Ha).
  apply elem_of_app. by right.
Qed.

(** No secret word hides behind separators: a key that contains one of
    the words as a whole word, in lower case, is always secret-like. *)
Theorem secret_word_detected p word s
    (Hw : word ∈ SECRET_KEY_SEGMENTS) (Hp : starts_word p) (Hs : ends_word s) :
  is_secret_like_public_key (p ++ word ++ s) = true.
Proof.
  unfold is_secret_like_public_key.
  replace (existsb _ _) with true; [done|]. symmetry. apply existsb_exists. exists word.
  split; [|by apply mem_true]. apply list_elem_of_In, segment_found; [| |done|done].
  - assert (Hall : Forall (Forall (fun c => is_lower c = true)) SECRET_KEY_SEGMENTS)
      by (apply (bool_decide_unpack _); by vm_compute).
    by eapply list.Forall_forall in Hall.
  - intros ->. revert Hw. apply mem_false. by vm_compute.
Qed.

(** Words are split at a lower-case letter followed by an upper-case one
    only: an acronym hides the word after it. *)
Lemma acronym_hides_secret :
  is_secret_like_public_key (u "apiKey") = true
  /\ is_secret_like_public_key (u "APIKey") = false
  /\ is_secret_like_public_key (u "JWTToken") = false.
Proof. split_and!; vm_compute; reflexivity. Qed.

(** ** Rebuilding a request *)

Definition request_args (r : InferenceLeaseRequest) (metadata : stored) : RequestArgs :=
  {| qa_request_id := Inst (q_request_id r);
     qa_owner_id := Inst (q_owner_id r);
     qa_model := Inst (q_model r);
     qa_runtime := Inst (q_runtime r);
     qa_max_hourly_cost_usd := Inst (q_max_hourly_cost_usd r);
     qa_max_total_cost_usd := Inst (q_max_total_cost_usd r);
     qa_privacy := Inst (q_privacy r);
     qa_capabilities := Iter (Inst <$> q_capabilities r);
     qa_allowed_regions := Iter (Inst <$> q_allowed_regions r);
     qa_expected_concurrency := DInt (q_expected_concurrency r);
     qa_expected_session_seconds := DInt (q_expected_session_seconds r);
     qa_idle_ttl_seconds := DInt (q_idle_ttl_seconds r);
     qa_ready_deadline_seconds := DInt (q_ready_deadline_seconds r);
     qa_requested_at := Inst (q_requested_at r);
     qa_metadata := metadata |}.

Lemma aware_timestamp_again name name' v d :
  validate_aware_timestamp name v = Ok d -> validate_aware_timestamp name' (Inst d) = Ok d.
Proof.
  intros H. apply validate_aware_timestamp_Ok in H as (raw & _ & Hn & Hd).
  unfold validate_aware_timestamp. ok_step ltac:(apply aware_datetime_Ok; split; [done|]; destruct Hd as [[-> _]| ->]; done).
  unfold astimezone_utc. rewrite decide_True; [done|]. destruct Hd as [[-> ?]| ->]; done.
Qed.

Lemma freeze_public_metadata_thawed value t h0 v' h' :
  heap_wf (st_heap value) -> heap_wf h0 -> freeze_public_metadata value = Ok t ->
  thaw_json t h0 = (v', h') ->
  freeze_public_metadata (Stored h' v' (st_max_digits value)) = Ok t.
Proof.
  intros Hwf Hwf0 Hf Hthaw. unfold freeze_public_metadata in *. destruct value as [h v msd]; cbn in *.
  destruct v as [| | | | |l|]; try done. destruct (h !! l) as [[items|]|] eqn:Hl; try done.
  apply bind_Ok in Hf as ([t' n] & Hf & [= <-]). cbn [fst] in *.
  assert (Hlim : limits_ok no_limits) by done.
  destruct (thaw_freeze_Ok _ _ _ _ _ _ _ _ _ _ Hwf Hlim Hwf0 Hf Hthaw) as [_ Hf'].
  apply freeze_json_Ok in Hf as (Hu & _); [|apply _|done|done].
  inversion Hu; [congruence|]; subst. cbn [thaw_json] in Hthaw.
  destruct (foldr _ _ _) as [kvs h1]. unfold alloc in Hthaw. injection Hthaw as <- <-.
  rewrite lookup_insert_eq. apply bind_Ok. by eexists.
Qed.

(** Normalisation is idempotent: building a request again from its own
    fields, with its metadata thawed into any store, gives the same request. *)
Theorem request_rebuild a r h0 v' h'
    (Hwf : heap_wf (st_heap (qa_metadata a))) (Hwf0 : heap_wf h0)
    (Hr : request_post_init a = Ok r) (Hthaw : thaw_json (q_metadata r) h0 = (v', h')) :
  request_post_init (request_args r (Stored h' v' (st_max_digits (qa_metadata a)))) = Ok r.
Proof.
  pose proof (request_post_init_wf _ _ Hr) as [].
  assert (Hmd : freeze_public_metadata (qa_metadata a) = Ok (q_metadata r)).
  { clear -Hr. unfold request_post_init in Hr. by inv_ok. }
  assert (Hts : exists name, validate_aware_timestamp name (qa_requested_at a) = Ok (q_requested_at r)).
  { clear -Hr. unfold request_post_init in Hr. inv_ok. by eexists. }
  destruct Hts as [name Hts].
  unfold request_post_init. destruct r as [x1 x2 x3 x4 x5 x6 x7 x8 x9 x10 x11 x12 x13 x14 x15].
  cbn [request_args qa_request_id qa_owner_id qa_model
    qa_runtime qa_max_hourly_cost_usd qa_max_total_cost_usd qa_privacy qa_capabilities
    qa_allowed_regions qa_expected_concurrency qa_expected_session_seconds qa_idle_ttl_seconds
    qa_ready_deadline_seconds qa_requested_at qa_metadata q_request_id q_owner_id q_model q_runtime
    q_max_hourly_cost_usd q_max_total_cost_usd q_privacy q_capabilities q_allowed_regions
    q_expected_concurrency q_expected_session_seconds q_idle_ttl_seconds q_ready_deadline_seconds
    q_requested_at q_metadata] in *.
  do 4 ok_step ltac:(apply validate_identifier_normal; first [done | apply qf_runtime0]).
  do 2 ok_step ltac:(by apply money_Ok).
  ok_step ltac:(by apply require_instance_Ok).
  do 2 ok_step ltac:(apply identifier_tuple_normal; first [apply qf_capabilities0 | apply qf_regions0]).
  do 4 ok_step ltac:(apply positive_int_Ok; split; [done|lia]).
  ok_guard ltac:(apply Z.ltb_ge; lia).
  ok_step ltac:(by eapply aware_timestamp_again).
  ok_step ltac:(by eapply freeze_public_metadata_thawed).
  destruct qf_runtime0 as [_ ->]. done.
Qed.

(** ** What an agent can see *)

Definition authenticated (r : InferenceRoute) : bool :=
  match r_api_key r with Some k => negb (secret_empty k) | None => false end
  || negb (bool_decide (r_secret_headers r = [])).

(** Routes that differ at most in the endpoint and the credentials. *)
Definition same_public_route (r r' : InferenceRoute) : Prop :=
  r_model r = r_model r' /\ r_context_window r = r_context_window r'
  /\ r_protocol r = r_protocol r' /\ authenticated r = authenticated r'.

Definition with_secrets (l : InferenceLease) (owner : pystr) (route : option InferenceRoute)
    : InferenceLease :=
  MkLease (l_lease_id l) (l_quote_id l) (l_request_id l) owner (l_provider_name l) (l_state l)
    (l_model l) (l_runtime l) (l_privacy l) (l_created_at l) (l_updated_at l) (l_expires_at l)
    (l_region l) (l_hourly_cost_usd l) (l_estimated_total_cost_usd l) route (l_failure l)
    (l_metadata l).

(** The public form of a lease does not depend on its owner, endpoint,
    API key or header values: it is the same for every owner and for every
    route with the same public description, of which a validated route
    reveals only whether it carries credentials. *)
Theorem lease_public_dict_noninterference l owner route'
    (Hr : option_Forall2 same_public_route (l_route l) route') :
  lease_to_public_dict (with_secrets l owner route') = lease_to_public_dict l
  /\ (forall nfkc e m k hs w p r, route_post_init nfkc e m k hs w p = Ok r ->
       authenticated r = bool_decide (is_Some k) || match hs with Some (_ :: _) => true | _ => false end).
Proof.
  split.
  - unfold lease_to_public_dict, with_secrets; cbn [l_lease_id l_quote_id l_request_id l_provider_name
      l_state l_model l_runtime l_privacy l_created_at l_updated_at l_expires_at l_region
      l_hourly_cost_usd l_estimated_total_cost_usd l_route l_failure l_metadata].
    do 14 f_equal. do 2 f_equal. f_equal.
    destruct Hr as [r r' (Hm & Hw & Hp & Ha)|]; [|done]. cbn [opt_json].
    unfold route_to_public_dict. fold (authenticated r) (authenticated r').
    by rewrite Hm, Hw, Hp, Ha.
  - intros nfkc e m k hs w p r H. unfold route_post_init in H. inv_ok. unfold authenticated.
    cbn [r_api_key r_secret_headers]. rewrite opt_instance_Ok in *. subst k.
    destruct hs as [items|]; [|done]. inv_ok. f_equal.
    + match goal with H : match ?x with Some s => secret_empty s | None => false end = false |- _ =>
        destruct x as [key|]; cbn in *; [by rewrite H|done] end.
    + match goal with H : validate_headers ?x = Ok ?y |- _ => rename H into Hh;
        destruct x as [|[n v] items'] end.
      * by injection Hh as <-.
      * cbn in Hh. by inv_ok.
Qed.

(** ** Witnesses *)

(** [{"region-note": 1}] *)
Definition lease_meta : stored :=
  Stored (<[1%positive := CDict [(VStr (u "note"), VInt 1)]]> ∅) (VRef 1%positive) 4300.

Definition usd (cents : Z) : decimal := DecFin false cents (-2).

Definition t0 : datetime := utc_datetime (738000 * day_us).

Definition sample_request_args : RequestArgs :=
  MkRequestArgs (Inst (u "req-1")) (Inst (u "did:agent:7")) (Inst (u "org/model")) (Inst (u "vLLM"))
    (Inst (usd 250)) (Inst (usd 500)) (Inst AUTHENTICATED_ENDPOINT) (Iter []) (Iter [Inst (u "EU-West")])
    (DInt 1) (DInt 900) (DInt 300) (DInt 600) (Inst t0) lease_meta.

Definition frozen_meta : fjson := FMap [(u "note", FInt 1)].

Definition sample_request : InferenceLeaseRequest :=
  MkRequest (u "req-1") (u "did:agent:7") (u "org/model") (u "vllm") (usd 250) (usd 500)
    AUTHENTICATED_ENDPOINT [] [u "eu-west"] 1 900 300 600 t0 frozen_meta.

Lemma sample_request_built : request_post_init sample_request_args = Ok sample_request.
Proof. vm_compute. reflexivity. Qed.

Definition sample_quote : InferenceLeaseQuote :=
  MkQuote (u "q-1") (u "req-1") (u "prov") (u "vllm") (u "eu-west") PRIVATE_NETWORK
    (DecFin false 2 0) (usd 400) 120 (utc_datetime (738000 * day_us + hour_us)) frozen_meta.

Lemma sample_quote_built :
  quote_post_init (Inst (u "q-1")) (Inst (u "req-1")) (Inst (u "Prov")) (Inst (u "vllm"))
    (Inst (u "EU-West")) (Inst PRIVATE_NETWORK) (Inst (DecFin false 2 0)) (Inst (usd 400)) (DInt 120)
    (Inst (utc_datetime (738000 * day_us + hour_us))) lease_meta = Ok sample_quote.
Proof. vm_compute. reflexivity. Qed.

Definition sample_route : InferenceRoute :=
  MkRoute (Secret (u "https://10.0.0.5:8000/v1")) (u "org/model") (Some (Secret (u "k"))) []
    (Some 8192) (u "openai").

Definition sample_lease_args : LeaseArgs :=
  MkLeaseArgs (Inst (u "lease-1")) (Inst (u "q-1")) (Inst (u "req-1")) (Inst (u "did:agent:7"))
    (Inst (u "prov")) (Inst LREADY) (Inst (u "org/model")) (Inst (u "vllm")) (Inst PRIVATE_NETWORK)
    (Inst t0) (Inst t0) (Inst (utc_datetime (738000 * day_us + 1500 * second_us)))
    (Some (Inst (u "eu-west"))) (Some (Inst (usd 200))) (Some (Inst (usd 400)))
    (Some (Inst sample_route)) None lease_meta.

Definition sample_lease : InferenceLease :=
  MkLease (u "lease-1") (u "q-1") (u "req-1") (u "did:agent:7") (u "prov") LREADY (u "org/model")
    (u "vllm") PRIVATE_NETWORK t0 t0 (utc_datetime (738000 * day_us + 1500 * second_us))
    (Some (u "eu-west")) (Some (usd 200)) (Some (usd 400)) (Some sample_route) None frozen_meta.

Lemma sample_lease_built : lease_post_init sample_lease_args = Ok sample_lease.
Proof. vm_compute. reflexivity. Qed.

Lemma sample_lease_valid : lease_validate_for sample_lease sample_request sample_quote = Ok tt.
Proof. vm_compute. reflexivity. Qed.

Lemma lease_validate_for_exact_witness : lease_honours sample_lease sample_request sample_quote.
Proof.
  destruct (lease_validate_for_exact _ _ _ _ _ _ _ _ _ _ _ _ _ _ _ _
              sample_lease_built sample_request_built sample_quote_built) as [H _].
  apply H. exact sample_lease_valid.
Defined.

Lemma lease_lifetime_bounded_witness :
  dt_wall (l_expires_at sample_lease) - dt_wall (q_requested_at sample_request) <= 1500 * second_us.
Proof.
  apply (lease_lifetime_bounded _ _ _ _ _ _ _ _ _ _ _ _ _ _ _ _
           sample_lease_built sample_request_built sample_quote_built sample_lease_valid).
  vm_compute. reflexivity.
Defined.

Lemma quote_validate_for_exact_witness :
  quote_validate_for t0 sample_quote sample_request None = Ok tt
  /\ exists current, quote_honours sample_quote sample_request current.
Proof.
  assert (H : quote_validate_for t0 sample_quote sample_request None = Ok tt) by (vm_compute; reflexivity).
  split; [exact H|].
  apply (quote_validate_for_exact _ _ _ _ _ _ _ _ _ _ _ _ _ _ _ None
           sample_request_built sample_quote_built) in H as (c & _ & Hc).
  exists c. exact Hc.
Defined.

Lemma lease_post_init_invariant_witness :
  is_Some (l_route sample_lease) <-> l_state sample_lease = LREADY.
Proof. apply (lease_post_init_invariant sample_lease_args), sample_lease_built. Defined.

Lemma public_metadata_no_secrets_witness :
  everywhere (fun _ => True) (fun k => k <> [] /\ is_secret_like_public_key k = false) frozen_meta.
Proof.
  apply (public_metadata_no_secrets lease_meta).
  - apply heap_wfb_wf. vm_compute. reflexivity.
  - vm_compute. reflexivity.
Defined.

Lemma secret_word_detected_witness : is_secret_like_public_key (u "x_token-v2") = true.
Proof.
  apply (secret_word_detected (u "x_") (u "token") (u "-v2")).
  - apply (bool_decide_unpack _). vm_compute. exact I.
  - right. exists (u "x"), 95. split; reflexivity.
  - right. exists 45, (u "v2"). split; reflexivity.
Defined.

Lemma request_rebuild_witness :
  let m := thaw_json (q_metadata sample_request) ∅ in
  request_post_init (request_args sample_request (Stored m.2 m.1 4300)) = Ok sample_request.
Proof.
  apply (request_rebuild sample_request_args sample_request ∅).
  - apply heap_wfb_wf. vm_compute. reflexivity.
  - apply heap_wfb_wf. vm_compute. reflexivity.
  - exact sample_request_built.
  - reflexivity.
Defined.

Lemma lease_public_dict_noninterference_witness :
  lease_to_public_dict (with_secrets sample_lease (u "did:agent:8")
    (Some (MkRoute (Secret (u "https://evil")) (u "org/model") None [(u "x", Secret (u "y"))]
             (Some 8192) (u "openai")))) = lease_to_public_dict sample_lease.
Proof.
  apply lease_public_dict_noninterference. constructor. split_and!; reflexivity.
Defined.
