(* ===== verification/ComputerUse.v ===== *)
(** * Computer use records ([kestrel_sdk/resources.py], [computer_use/models.py])

    The immutable facts environments, sessions and actions exchange.  A
    record class is a [Record] and a [validate_] function: the constraints
    its fields declare, in order, then its after-validator.  Validation of an
    instance rebuilds it, so it also normalises datetimes; the exceptions of
    validators surface as [ValidationError].  SHA-256 is a parameter. *)

From stdpp Require Import gmap sorting.
From S2P Require Export Operator JsonText Calendar UrlSplit Runs InferenceLease.

(** ** Field constraints *)

(** A validator's [ValueError] becomes the record's [ValidationError]. *)
Definition wrap {A} (m : res A) : res A :=
  match m with
  | Raise e => if is_ValueError e then Raise (ValidationError "invalid field") else Raise e
  | Ok a => Ok a
  end.

Definition constraint (b : bool) (m : string) : res unit := raise_if (negb b) (ValidationError m).

(** [Identifier] *)
Definition identifier (s : pystr) : res pystr := wrap (stable_token (Inst s) "identifier").

Definition opt_identifier (s : option pystr) : res (option pystr) := opt_check identifier s.

(** [_WireAwareDatetime] *)
Definition wire_datetime (d : datetime) : res datetime :=
  _ ← constraint (negb (is_naive d)) "timezone_aware";
  wrap (json_roundtrip_datetime d).

Definition opt_wire_datetime (d : option datetime) : res (option datetime) := opt_check wire_datetime d.

Definition non_negative (n : Z) : res unit := constraint (0 <=? n) "greater_than_equal".
Definition positive_field (n : Z) : res unit := constraint (0 <? n) "greater_than".

(** [USD] *)
Definition usd_amount (d : decimal) : res unit :=
  constraint (dec_is_finite d && negb (dec_ltb d dec_zero)) "finite_number".

Definition is_hex_lower (c : Z) : bool := is_digit c || in_range 97 102 c.

(** [^[a-f0-9]{64}$] *)
Definition image_digest (s : pystr) : bool := (len s =? 64) && forallb is_hex_lower s.

Definition digest_field (s : pystr) : res unit := constraint (image_digest s) "string_pattern_mismatch".

(** [^[A-Za-z0-9][A-Za-z0-9._:/-]*@sha256:[a-f0-9]{64}$], at most 2048 characters. *)
Definition PINNED_IMAGE : re :=
  RCat (RChar is_alnum) (RCat (RStar (RChar identifier_char))
    (RCat (RLit (u "@sha256:")) (RExactly 64 (RChar is_hex_lower)))).

Definition pinned_image (s : pystr) : res unit :=
  constraint ((len s <=? 2048) && re_match PINNED_IMAGE s) "string_pattern_mismatch".

(** ** Scopes *)

Record ResourceScope := MkScope {
  sc_tenant_id : pystr; sc_principal_id : pystr; sc_agent_id : option pystr }.

#[global] Instance ResourceScope_eq_dec : EqDecision ResourceScope.
Proof. solve_decision. Defined.

Definition validate_scope (s : ResourceScope) : res ResourceScope :=
  t ← identifier (sc_tenant_id s);
  p ← identifier (sc_principal_id s);
  a ← opt_identifier (sc_agent_id s);
  Ok (MkScope t p a).

(** ** Literals *)

Inductive Location : Type := LOCAL | REMOTE.
Inductive Surface : Type := BROWSER | DESKTOP.
Inductive ComputerCapability : Type :=
| CScreenshot | CClick | CType | CKey | CScroll | CWait | CNavigate
| CAccessibility | CDom | CClipboard | CFiles | CExec | CTakeover.

#[global] Instance Location_eq_dec : EqDecision Location.
Proof. solve_decision. Defined.
#[global] Instance Surface_eq_dec : EqDecision Surface.
Proof. solve_decision. Defined.
#[global] Instance ComputerCapability_eq_dec : EqDecision ComputerCapability.
Proof. solve_decision. Defined.

Definition location_value (l : Location) : pystr :=
  match l with LOCAL => u "local" | REMOTE => u "remote" end.
Definition surface_value (s : Surface) : pystr :=
  match s with BROWSER => u "browser" | DESKTOP => u "desktop" end.
Definition capability_value (c : ComputerCapability) : pystr :=
  match c with
  | CScreenshot => u "screenshot" | CClick => u "click" | CType => u "type" | CKey => u "key"
  | CScroll => u "scroll" | CWait => u "wait" | CNavigate => u "navigate"
  | CAccessibility => u "accessibility" | CDom => u "dom" | CClipboard => u "clipboard"
  | CFiles => u "files" | CExec => u "exec" | CTakeover => u "takeover"
  end.

Definition all_capabilities : list ComputerCapability :=
  [CScreenshot; CClick; CType; CKey; CScroll; CWait; CNavigate; CAccessibility; CDom; CClipboard;
   CFiles; CExec; CTakeover].

Definition capability_rank (c : ComputerCapability) : nat :=
  match c with
  | CScreenshot => 0 | CClick => 1 | CType => 2 | CKey => 3 | CScroll => 4 | CWait => 5
  | CNavigate => 6 | CAccessibility => 7 | CDom => 8 | CClipboard => 9 | CFiles => 10
  | CExec => 11 | CTakeover => 12
  end.

#[global] Instance ComputerCapability_countable : Countable ComputerCapability.
Proof.
  refine (inj_countable' capability_rank (fun n => nth n all_capabilities CScreenshot) _).
  by intros [].
Defined.

Definition surface_rank (s : Surface) : bool := match s with BROWSER => true | DESKTOP => false end.

#[global] Instance Surface_countable : Countable Surface.
Proof. refine (inj_countable' surface_rank (fun b => if b then BROWSER else DESKTOP) _). by intros []. Defined.

(** [sorted(values)] of a set of literals: their strings in order. *)
Definition sorted_capabilities (s : gset ComputerCapability) : list pystr :=
  merge_sort str_le (capability_value <$> elements s).
Definition sorted_surfaces (s : gset Surface) : list pystr :=
  merge_sort str_le (surface_value <$> elements s).

(** ** Environments *)

Record EnvironmentCapabilities := MkCapabilities {
  ec_provider_id : pystr;
  ec_location : Location;
  ec_surfaces : gset Surface;
  ec_operations : gset ComputerCapability;
  ec_profile_persistence : bool;
  ec_cpu_only : bool
}.

Definition validate_capabilities (c : EnvironmentCapabilities) : res EnvironmentCapabilities :=
  p ← identifier (ec_provider_id c);
  Ok (MkCapabilities p (ec_location c) (ec_surfaces c) (ec_operations c) (ec_profile_persistence c)
        (ec_cpu_only c)).

Record EnvironmentRequest := MkEnvRequest {
  er_request_id : pystr;
  er_scope : ResourceScope;
  er_provider_id : pystr;
  er_profile_id : pystr;
  er_image : pystr;
  er_surface : Surface;
  er_required_capabilities : gset ComputerCapability;
  er_location : Location;
  er_requested_at : datetime;
  er_expires_at : datetime;
  er_idle_ttl_seconds : Z;
  er_ready_timeout_seconds : Z;
  er_max_hourly_cost_usd : decimal;
  er_max_total_cost_usd : decimal;
  er_region : option pystr
}.

(** [a > timedelta(microseconds=us).total_seconds()] for a positive integer
    [a]; the quotient is rounded to a float. *)
Definition exceeds_total_seconds (a us : Z) : bool :=
  if a <? 2 ^ 53 then
    let k := Z.log2 a in
    us * 2 ^ (54 - k) <? 1000000 * (a * 2 ^ (54 - k) - (if a =? 2 ^ k then 1 else 2))
  else true.

Definition validate_request (r : EnvironmentRequest) : res EnvironmentRequest :=
  rid ← identifier (er_request_id r);
  sc ← validate_scope (er_scope r);
  pid ← identifier (er_provider_id r);
  prof ← identifier (er_profile_id r);
  _ ← pinned_image (er_image r);
  requested ← wire_datetime (er_requested_at r);
  expires ← wire_datetime (er_expires_at r);
  _ ← positive_field (er_idle_ttl_seconds r);
  _ ← positive_field (er_ready_timeout_seconds r);
  _ ← usd_amount (er_max_hourly_cost_usd r);
  _ ← usd_amount (er_max_total_cost_usd r);
  region ← opt_identifier (er_region r);
  let lifetime := dt_sub expires requested in
  _ ← raise_if (lifetime <=? 0) (ValidationError "environment expiry must follow requested_at");
  _ ← raise_if (exceeds_total_seconds (Z.max (er_idle_ttl_seconds r) (er_ready_timeout_seconds r)) lifetime)
        (ValidationError "idle/readiness timeout exceeds environment lifetime");
  _ ← raise_if (negb (bool_decide (CScreenshot ∈ er_required_capabilities r)))
        (ValidationError "visual computer use requires screenshot capability");
  Ok (MkEnvRequest rid sc pid prof (er_image r) (er_surface r) (er_required_capabilities r)
        (er_location r) requested expires (er_idle_ttl_seconds r) (er_ready_timeout_seconds r)
        (er_max_hourly_cost_usd r) (er_max_total_cost_usd r) region).

(** [model_dump(mode="json")] of a scope. *)
Definition scope_json (s : ResourceScope) : fjson :=
  FMap [(u "schema_version", FInt 1); (u "tenant_id", FStr (sc_tenant_id s));
        (u "principal_id", FStr (sc_principal_id s)); (u "agent_id", opt_json FStr (sc_agent_id s))].

(** The payload of [EnvironmentRequest.digest], given the canonical times. *)
Definition request_payload (r : EnvironmentRequest) (requested expires : pystr) : fjson :=
  FMap [(u "schema_version", FInt 1);
        (u "request_id", FStr (er_request_id r));
        (u "scope", scope_json (er_scope r));
        (u "provider_id", FStr (er_provider_id r));
        (u "profile_id", FStr (er_profile_id r));
        (u "image", FStr (er_image r));
        (u "surface", FStr (surface_value (er_surface r)));
        (u "required_capabilities", FTuple (FStr <$> sorted_capabilities (er_required_capabilities r)));
        (u "location", FStr (location_value (er_location r)));
        (u "requested_at", FStr requested);
        (u "expires_at", FStr expires);
        (u "idle_ttl_seconds", FInt (er_idle_ttl_seconds r));
        (u "ready_timeout_seconds", FInt (er_ready_timeout_seconds r));
        (u "max_hourly_cost_usd", FStr (dec_str (er_max_hourly_cost_usd r)));
        (u "max_total_cost_usd", FStr (dec_str (er_max_total_cost_usd r)));
        (u "region", opt_json FStr (er_region r))].

(** The bytes [EnvironmentRequest.digest] hashes. *)
Definition request_encoding (r : EnvironmentRequest) : res (list Z) :=
  requested ← canonical_utc_datetime (Inst (er_requested_at r));
  expires ← canonical_utc_datetime (Inst (er_expires_at r));
  Ok (sorted_json_bytes (request_payload r requested expires)).

Section Digests.
(** [hashlib.sha256(data).hexdigest()] *)
Variable sha256 : list Z -> pystr.

Definition request_digest (r : EnvironmentRequest) : res pystr :=
  encoded ← request_encoding r;
  Ok (sha256 encoded).
End Digests.

Record EnvironmentQuote := MkEnvQuote {
  eq_quote_id : pystr;
  eq_request_id : pystr;
  eq_request_sha256 : pystr;
  eq_scope : ResourceScope;
  eq_provider_id : pystr;
  eq_location : Location;
  eq_region : option pystr;
  eq_expires_at : datetime;
  eq_hourly_cost_usd : decimal;
  eq_estimated_total_cost_usd : decimal;
  eq_capabilities : EnvironmentCapabilities
}.

Definition validate_quote (q : EnvironmentQuote) : res EnvironmentQuote :=
  qid ← identifier (eq_quote_id q);
  rid ← identifier (eq_request_id q);
  _ ← digest_field (eq_request_sha256 q);
  sc ← validate_scope (eq_scope q);
  pid ← identifier (eq_provider_id q);
  region ← opt_identifier (eq_region q);
  expires ← wire_datetime (eq_expires_at q);
  _ ← usd_amount (eq_hourly_cost_usd q);
  _ ← usd_amount (eq_estimated_total_cost_usd q);
  caps ← validate_capabilities (eq_capabilities q);
  _ ← raise_if (negb (bool_decide (pid = ec_provider_id caps) && bool_decide (eq_location q = ec_location caps)))
        (ValidationError "quote and capabilities identify different providers");
  Ok (MkEnvQuote qid rid (eq_request_sha256 q) sc pid (eq_location q) region expires
        (eq_hourly_cost_usd q) (eq_estimated_total_cost_usd q) caps).

Inductive EnvironmentState : Type := EPending | EReady | EUnknown | EFailed | EReleasing | EReleased.

#[global] Instance EnvironmentState_eq_dec : EqDecision EnvironmentState.
Proof. solve_decision. Defined.

Record EnvironmentLease := MkEnvLease {
  el_lease_id : pystr;
  el_request_id : pystr;
  el_quote_id : pystr;
  el_scope : ResourceScope;
  el_provider_id : pystr;
  el_location : Location;
  el_state : EnvironmentState;
  el_expires_at : datetime;
  el_provider_resource_id : option pystr;
  el_released_at : option datetime;
  el_actual_cost_usd : option decimal
}.

#[global] Instance EnvironmentLease_eq_dec : EqDecision EnvironmentLease.
Proof. solve_decision. Defined.

Definition validate_env_lease (l : EnvironmentLease) : res EnvironmentLease :=
  lid ← identifier (el_lease_id l);
  rid ← identifier (el_request_id l);
  qid ← identifier (el_quote_id l);
  sc ← validate_scope (el_scope l);
  pid ← identifier (el_provider_id l);
  expires ← wire_datetime (el_expires_at l);
  _ ← constraint (match el_provider_resource_id l with
                  | Some s => (1 <=? len s) && (len s <=? 2048) | None => true end) "string_length";
  released ← opt_wire_datetime (el_released_at l);
  _ ← match el_actual_cost_usd l with Some d => usd_amount d | None => Ok tt end;
  _ ← raise_if (negb (bool_decide (el_state l = EReleased <-> is_Some released)))
        (ValidationError "released requires confirmed physical release time");
  _ ← raise_if (bool_decide (el_state l = EReady) && bool_decide (el_provider_resource_id l = None))
        (ValidationError "ready requires an owned provider resource");
  Ok (MkEnvLease lid rid qid sc pid (el_location l) (el_state l) expires (el_provider_resource_id l)
        released (el_actual_cost_usd l)).
