(* ===== verification/ComputerUseProps.v ===== *)
(** * Properties of the computer use records

    Validated records are fixed points of validation, and the digest of an
    environment request identifies its constraints. *)

From stdpp Require Import gmap sorting.
From S2P Require Export ComputerUse InferenceLeaseProps.

(** ** Fields *)

Lemma wrap_Ok {A} (m : res A) a : wrap m = Ok a <-> m = Ok a.
Proof. unfold wrap. destruct m as [b|e]; [done|]. by destruct (is_ValueError e). Qed.

Lemma constraint_Ok b m x : constraint b m = Ok x <-> b = true.
Proof. unfold constraint. rewrite raise_if_Ok. by destruct b. Qed.

Lemma identifier_Ok s s' : identifier s = Ok s' <-> s' = s /\ well_formed_token s.
Proof.
  unfold identifier. rewrite wrap_Ok, stable_token_Ok.
  split; [intros [[= ->] ?]; done | intros [-> ?]; done].
Qed.

Lemma opt_check_Ok {A B} (check : A -> res B) o o' :
  opt_check check o = Ok o' <->
  match o with None => o' = None | Some a => exists b, check a = Ok b /\ o' = Some b end.
Proof.
  destruct o as [a|]; cbn; [|split; [by intros [= <-]|by intros ->]].
  rewrite bind_Ok. split; [intros (b & Hb & [= <-]); eauto|intros (b & Hb & ->); eauto].
Qed.

Lemma opt_identifier_Ok o o' :
  opt_identifier o = Ok o' <-> o' = o /\ forall s, o = Some s -> well_formed_token s.
Proof.
  unfold opt_identifier. rewrite opt_check_Ok. destruct o as [s|]; [|naive_solver].
  split.
  - intros (b & Hb & ->). apply identifier_Ok in Hb as [-> ?]. split; [done|]. by intros ? [= <-].
  - intros [-> H]. exists s. split; [|done]. apply identifier_Ok. eauto.
Qed.

Lemma wire_datetime_Ok d v :
  wire_datetime d = Ok v <-> is_naive d = false /\ json_roundtrip_datetime d = Ok v.
Proof.
  unfold wire_datetime. rewrite bind_Ok. setoid_rewrite constraint_Ok. setoid_rewrite wrap_Ok.
  setoid_rewrite negb_true_iff. split; [by intros (_ & ? & ?)|intros [? ?]; by exists tt].
Qed.

Lemma wire_datetime_idem d v : wire_datetime d = Ok v -> wire_datetime v = Ok v.
Proof.
  rewrite !wire_datetime_Ok. intros [_ H]. unfold json_roundtrip_datetime in H.
  destruct (dt_off d) as [off|] eqn:Ho; [|done].
  destruct (Z.eqb_spec (off mod minute_us) 0) as [He|He].
  - injection H as <-. unfold is_naive, json_roundtrip_datetime. rewrite Ho.
    rewrite (proj2 (Z.eqb_eq _ _) He). by rewrite bool_decide_eq_true_2 by eauto.
  - destruct (astimezone_utc d) as [w|] eqn:Hw; [|done]. injection H as <-.
    unfold astimezone_utc in Hw. case_decide as Hz.
    + injection Hw as <-. unfold is_naive, json_roundtrip_datetime. rewrite Ho.
      rewrite (proj2 (Z.eqb_neq _ _) He). unfold astimezone_utc. rewrite decide_True by done.
      by rewrite bool_decide_eq_true_2 by eauto.
    + cbv zeta in Hw. destruct ((0 <=? instant d) && (instant d <=? dt_max_wall)); [|done].
      by injection Hw as <-.
Qed.

Lemma wire_datetime_aware d v : wire_datetime d = Ok v -> is_naive v = false.
Proof. intros H%wire_datetime_idem. by apply wire_datetime_Ok in H as [? _]. Qed.

Lemma opt_wire_datetime_idem o o' : opt_wire_datetime o = Ok o' -> opt_wire_datetime o' = Ok o'.
Proof.
  unfold opt_wire_datetime. rewrite opt_check_Ok. destruct o as [d|]; [|by intros ->].
  intros (b & Hb & ->). apply opt_check_Ok. eauto using wire_datetime_idem.
Qed.

(** Normalise what the fields of a validated record say, and rebuild it. *)
Ltac field_inv :=
  repeat match goal with
  | H : identifier _ = Ok _ |- _ => apply identifier_Ok in H as [-> H]
  | H : opt_identifier _ = Ok _ |- _ => apply opt_identifier_Ok in H as [-> H]
  | H : constraint _ _ = Ok _ |- _ => apply constraint_Ok in H
  | H : wire_datetime ?d = Ok _ |- _ =>
      lazymatch d with context [_] => apply wire_datetime_idem in H end
  end.

Ltac field_ok :=
  first [ eassumption | apply identifier_Ok; split; [reflexivity|assumption]
        | apply opt_identifier_Ok; split; [reflexivity|assumption]
        | apply constraint_Ok; assumption | apply raise_if_Ok; assumption
        | eapply wire_datetime_idem; eassumption | eapply opt_wire_datetime_idem; eassumption ].

Ltac revalidate :=
  repeat (apply bind_Ok; first [exists tt|eexists]; split; [solve [field_ok]|cbv beta]); reflexivity.

Lemma validate_scope_Ok s s' :
  validate_scope s = Ok s' <->
  s' = s /\ well_formed_token (sc_tenant_id s) /\ well_formed_token (sc_principal_id s)
  /\ forall a, sc_agent_id s = Some a -> well_formed_token a.
Proof.
  unfold validate_scope. split.
  - intros H. inv_ok. apply identifier_Ok in Hm as [-> ?], Hm0 as [-> ?].
    apply opt_identifier_Ok in Hm1 as [-> ?]. by destruct s.
  - intros (-> & ? & ? & ?). destruct s; cbn in *. revalidate.
Qed.

Lemma validate_scope_idem s s' : validate_scope s = Ok s' -> validate_scope s' = Ok s'.
Proof. intros H. pose proof H as H'. apply validate_scope_Ok in H' as [-> _]. done. Qed.

Lemma validate_capabilities_idem c c' :
  validate_capabilities c = Ok c' -> c' = c /\ validate_capabilities c' = Ok c'.
Proof.
  intros H. assert (c' = c) as ->; [|done]. unfold validate_capabilities in H. inv_ok.
  apply identifier_Ok in Hm as [-> ?]. by destruct c.
Qed.

Lemma validate_request_idem r r' : validate_request r = Ok r' -> validate_request r' = Ok r'.
Proof.
  unfold validate_request at 1. intros H. inv_ok.
  apply identifier_Ok in Hm as [-> ?], Hm1 as [-> ?], Hm2 as [-> ?]. apply validate_scope_idem in Hm0.
  apply wire_datetime_idem in Hm4, Hm5. apply opt_identifier_Ok in Hm10 as [-> ?].
  unfold validate_request. cbn [er_request_id er_scope er_provider_id er_profile_id er_image er_surface
    er_required_capabilities er_location er_requested_at er_expires_at er_idle_ttl_seconds
    er_ready_timeout_seconds er_max_hourly_cost_usd er_max_total_cost_usd er_region]. revalidate.
Qed.

Lemma validate_quote_idem q q' : validate_quote q = Ok q' -> validate_quote q' = Ok q'.
Proof.
  unfold validate_quote at 1. intros H. inv_ok.
  apply identifier_Ok in Hm as [-> ?], Hm0 as [-> ?], Hm3 as [-> ?]. apply validate_scope_idem in Hm2.
  apply opt_identifier_Ok in Hm4 as [-> ?]. apply wire_datetime_idem in Hm5.
  apply validate_capabilities_idem in Hm8 as [-> Hm8].
  unfold validate_quote. cbn [eq_quote_id eq_request_id eq_request_sha256 eq_scope eq_provider_id
    eq_location eq_region eq_expires_at eq_hourly_cost_usd eq_estimated_total_cost_usd eq_capabilities].
  revalidate.
Qed.

Lemma validate_env_lease_idem l l' : validate_env_lease l = Ok l' -> validate_env_lease l' = Ok l'.
Proof.
  unfold validate_env_lease at 1. intros H. inv_ok.
  apply identifier_Ok in Hm as [-> ?], Hm0 as [-> ?], Hm1 as [-> ?], Hm3 as [-> ?].
  apply validate_scope_idem in Hm2. apply wire_datetime_idem in Hm4. apply opt_wire_datetime_idem in Hm6.
  unfold validate_env_lease. cbn [el_lease_id el_request_id el_quote_id el_scope el_provider_id el_location
    el_state el_expires_at el_provider_resource_id el_released_at el_actual_cost_usd]. revalidate.
Qed.

(** ** The text of the fields is ASCII *)

(** A decimal the library can build: its coefficient is a digit string. *)
Definition dec_wf (d : decimal) : Prop :=
  match d with DecFin _ coef _ => 0 <= coef | _ => True end.

Lemma ascii_of (p : Z -> bool) s :
  (forall c, p c = true -> in_range 0 127 c = true) -> Forall (fun c => p c = true) s -> ascii_text s.
Proof.
  intros Hp Hs. eapply list.Forall_impl; [exact Hs|]. intros c Hc. apply Hp in Hc.
  unfold in_range in Hc. bool_hyps. lia.
Qed.

Lemma token_ascii s : well_formed_token s -> ascii_text s.
Proof. intros [_ [H _]]. by apply (ascii_of token_char); [apply token_char_ascii|]. Qed.

Lemma ascii_take n s : ascii_text s -> ascii_text (take n s).
Proof. apply Forall_take. Qed.
Lemma ascii_drop n s : ascii_text s -> ascii_text (drop n s).
Proof. apply Forall_drop. Qed.
Lemma ascii_zeros n : ascii_text (replicate n 48).
Proof. apply Forall_replicate. lia. Qed.

Lemma ascii_zfill k n : ascii_text (zfill k n).
Proof.
  revert n; induction k as [|k IH]; intros n; [constructor|]. apply ascii_app; [apply IH|].
  constructor; [|constructor]. Z.to_euclidean_division_equations; lia.
Qed.

Lemma ascii_if (b : bool) s t : ascii_text s -> ascii_text t -> ascii_text (if b then s else t).
Proof. by destruct b. Qed.

Ltac ascii :=
  repeat lazymatch goal with
  | |- ascii_text (_ ++ _) => apply ascii_app
  | |- ascii_text (if _ then _ else _) => apply ascii_if
  | |- ascii_text (zfill _ _) => apply ascii_zfill
  | |- ascii_text (take _ _) => apply ascii_take
  | |- ascii_text (drop _ _) => apply ascii_drop
  | |- ascii_text (replicate _ 48) => apply ascii_zeros
  | |- ascii_text (int_repr _) => apply ascii_int_repr
  | |- ascii_text (digits _) => apply ascii_digits; assumption
  | |- ascii_text _ => first [assumption | apply ascii_literal; reflexivity]
  end.

Lemma ascii_isoformat d : ascii_text (isoformat d).
Proof.
  unfold isoformat. destruct (ord2ymd _) as [[y m] dd]. unfold iso_time, iso_offset.
  destruct (dt_off d); ascii.
Qed.

Lemma ascii_dec_str d : dec_wf d -> ascii_text (dec_str d).
Proof. destruct d as [neg coef expo|neg|]; cbn [dec_wf]; intros Hc; unfold dec_str; cbv zeta; ascii. Qed.

Lemma canonical_ascii d s : canonical_utc_datetime (Inst d) = Ok s -> ascii_text s.
Proof.
  intros H. apply canonical_utc_Ok in H as (d' & _ & _ & H). destruct (astimezone_utc d'); [|done].
  injection H as <-. apply ascii_isoformat.
Qed.

Lemma hex_lower_ascii c : is_hex_lower c = true -> in_range 0 127 c = true.
Proof. unfold is_hex_lower, is_digit, in_range. rewrite !orb_true_iff, !andb_true_iff, !Z.leb_le. lia. Qed.

Lemma pinned_image_ascii s x : pinned_image s = Ok x -> ascii_text s.
Proof.
  unfold pinned_image. rewrite constraint_Ok, andb_true_iff, re_match_lang. unfold PINNED_IMAGE.
  intros [_ H]. apply cat_lang_iff in H as (s1 & s' & -> & H1 & H).
  apply cat_lang_iff in H as (s2 & s'' & -> & H2 & H). apply cat_lang_iff in H as (s3 & s4 & -> & H3 & H4).
  apply lit_lang in H3 as ->. apply exactly_char_lang in H4 as [_ H4]. apply star_char_lang in H2.
  apply char_lang in H1 as (c & -> & Hc). repeat apply ascii_app.
  - apply (ascii_of is_alnum); [|by constructor]. intros. by apply token_char_ascii, is_alnum_token.
  - by apply (ascii_of identifier_char); [apply identifier_char_ascii|].
  - by apply ascii_literal.
  - by apply (ascii_of is_hex_lower); [apply hex_lower_ascii|].
Qed.

(** ** Request digests *)

(** The two requests state the same constraints: identical fields, times that
    are the same instants in whatever zone, amounts printed alike. *)
Record same_request (r1 r2 : EnvironmentRequest) : Prop := SameRequest {
  sq_request_id : er_request_id r1 = er_request_id r2;
  sq_scope : er_scope r1 = er_scope r2;
  sq_provider : er_provider_id r1 = er_provider_id r2;
  sq_profile : er_profile_id r1 = er_profile_id r2;
  sq_image : er_image r1 = er_image r2;
  sq_surface : er_surface r1 = er_surface r2;
  sq_capabilities : er_required_capabilities r1 = er_required_capabilities r2;
  sq_location : er_location r1 = er_location r2;
  sq_requested : instant (er_requested_at r1) = instant (er_requested_at r2);
  sq_expires : instant (er_expires_at r1) = instant (er_expires_at r2);
  sq_idle : er_idle_ttl_seconds r1 = er_idle_ttl_seconds r2;
  sq_ready : er_ready_timeout_seconds r1 = er_ready_timeout_seconds r2;
  sq_hourly : dec_str (er_max_hourly_cost_usd r1) = dec_str (er_max_hourly_cost_usd r2);
  sq_total : dec_str (er_max_total_cost_usd r1) = dec_str (er_max_total_cost_usd r2);
  sq_region : er_region r1 = er_region r2
}.

(** Well-formed datetimes and decimals: those the libraries can build. *)
Record request_wf (r : EnvironmentRequest) : Prop := RequestWf {
  rw_valid : validate_request r = Ok r;
  rw_requested : datetime_wf (er_requested_at r);
  rw_expires : datetime_wf (er_expires_at r);
  rw_hourly : dec_wf (er_max_hourly_cost_usd r);
  rw_total : dec_wf (er_max_total_cost_usd r)
}.

Lemma canonical_same d1 d2 s1 s2 :
  datetime_wf d1 -> datetime_wf d2 ->
  canonical_utc_datetime (Inst d1) = Ok s1 -> canonical_utc_datetime (Inst d2) = Ok s2 ->
  s1 = s2 <-> instant d1 = instant d2.
Proof.
  intros Hd1 Hd2 H1 H2. apply canonical_utc_Ok in H1 as (? & [= <-] & _ & H1).
  apply canonical_utc_Ok in H2 as (? & [= <-] & _ & H2).
  destruct (astimezone_utc d1) as [v1|] eqn:E1; [|done]. destruct (astimezone_utc d2) as [v2|] eqn:E2; [|done].
  apply astimezone_utc_spec in E1 as [-> W1]; [|done]. apply astimezone_utc_spec in E2 as [-> W2]; [|done].
  injection H1 as <-. injection H2 as <-. split; [by apply isoformat_utc_inj|by intros ->].
Qed.

Lemma capability_value_inj : Inj (=) (=) capability_value.
Proof. by intros [] []; vm_compute. Qed.

Lemma sorted_values_inj {A} `{Countable A} (f : A -> pystr) (S T : gset A) :
  Inj (=) (=) f ->
  merge_sort str_le (f <$> elements S) = merge_sort str_le (f <$> elements T) -> S = T.
Proof.
  intros Hf He. apply set_eq. intros x.
  assert (Hx : forall U : gset A, x ∈ U <-> f x ∈ merge_sort str_le (f <$> elements U)).
  { intros U. rewrite merge_sort_Permutation, list_elem_of_fmap. setoid_rewrite elem_of_elements.
    split; [eauto|]. intros (y & Hy & Hin). by apply Hf in Hy as ->. }
  by rewrite !Hx, He.
Qed.

Lemma sorted_values_ascii {A} `{Countable A} (f : A -> pystr) (S : gset A) :
  (forall x, ascii_text (f x)) -> Forall ascii_text (merge_sort str_le (f <$> elements S)).
Proof. intros Hf. rewrite merge_sort_Permutation. apply Forall_fmap, list.Forall_forall. intros x _. apply Hf. Qed.

Lemma wire_str s : ascii_text s -> wire_json (FStr s).
Proof. apply ascii_scalar. Qed.

Lemma wire_opt_str o : (forall s, o = Some s -> ascii_text s) -> wire_json (opt_json FStr o).
Proof. destruct o; cbn; [intros H; by apply ascii_scalar, H|done]. Qed.

Lemma wire_strings l : Forall ascii_text l -> wire_json (FTuple (FStr <$> l)).
Proof.
  intros H. apply everywhere_tuple, Forall_fmap. eapply list.Forall_impl; [exact H|]. intros s. apply wire_str.
Qed.

(** An object whose keys are literals. *)
Lemma wire_object ts :
  forallb (fun k => forallb (fun c => (0 <=? c) && (c <? 128)) k) ts.*1 = true ->
  Forall wire_json ts.*2 -> wire_json (FMap ts).
Proof.
  intros Hk Hv. apply everywhere_map. induction ts as [|[k t] ts IH]; [constructor|].
  cbn in Hk. apply andb_true_iff in Hk as [Hk Hks]. apply list.Forall_cons in Hv as [Ht Hv].
  constructor; [split; [by apply ascii_scalar, ascii_literal|done]|by apply IH].
Qed.

Lemma opt_json_inj o o' : sort_keys (opt_json FStr o) = sort_keys (opt_json FStr o') -> o = o'.
Proof. destruct o, o'; cbn; congruence. Qed.

Lemma wire_scope s s' : validate_scope s = Ok s' -> wire_json (scope_json s).
Proof.
  intros H. apply validate_scope_Ok in H as (_ & ? & ? & ?).
  apply wire_object; [reflexivity|]. repeat constructor; try (by apply ascii_scalar, token_ascii).
  apply wire_opt_str. intros. by apply token_ascii; eauto.
Qed.

Lemma scope_json_inj s s' : sort_keys (scope_json s) = sort_keys (scope_json s') -> s = s'.
Proof.
  intros H. apply sort_keys_members in H; [|done|by apply (bool_decide_unpack _); vm_compute].
  rewrite !list.Forall2_cons in H. cbn [snd sort_keys] in H. destruct H as (_ & H1 & H2 & H3 & _).
  injection H1 as H1. injection H2 as H2. apply opt_json_inj in H3.
  destruct s, s'; cbn in *. congruence.
Qed.

Lemma payload_wire r requested expires :
  request_wf r -> ascii_text requested -> ascii_text expires ->
  wire_json (request_payload r requested expires).
Proof.
  intros [Hv _ _ Hh Ht] Hr He. unfold validate_request in Hv. inv_ok.
  apply identifier_Ok in Hm as [_ ?], Hm1 as [_ ?], Hm2 as [_ ?].
  apply pinned_image_ascii in Hm3. apply opt_identifier_Ok in Hm10 as [_ ?].
  apply wire_object; [reflexivity|].
  repeat (apply list.Forall_cons; split); try exact I; try (by apply wire_str; auto using token_ascii, ascii_dec_str).
  - by eapply wire_scope.
  - apply wire_str. destruct (er_surface r); by apply ascii_literal.
  - apply wire_strings, sorted_values_ascii. intros []; by apply ascii_literal.
  - apply wire_str. destruct (er_location r); by apply ascii_literal.
  - apply wire_opt_str. eauto using token_ascii.
  - constructor.
Qed.

Lemma strings_inj (l l' : list pystr) : FStr <$> l = FStr <$> l' -> l = l'.
Proof. revert l'; induction l as [|x l IH]; intros [|y l'] H; try done. cbn in H. injection H as -> H. f_equal. by apply IH. Qed.

Lemma payload_inj r1 r2 a1 a2 b1 b2 :
  sort_keys (request_payload r1 a1 b1) = sort_keys (request_payload r2 a2 b2) ->
  a1 = a2 /\ b1 = b2 /\
  (instant (er_requested_at r1) = instant (er_requested_at r2) ->
   instant (er_expires_at r1) = instant (er_expires_at r2) -> same_request r1 r2).
Proof.
  intros H. apply sort_keys_members in H; [|done|by apply (bool_decide_unpack _); vm_compute].
  rewrite !list.Forall2_cons in H. cbn [snd] in H. rewrite !sort_keys_strings in H. cbn [sort_keys] in H.
  destruct H as (_ & Hid & Hsc & Hp & Hpr & Him & Hsu & Hca & Hl & Ha & Hb & Hi & Hr & Hh & Ht & Hre & _).
  apply scope_json_inj in Hsc. apply opt_json_inj in Hre.
  injection Hid as Hid. injection Hp as Hp. injection Hpr as Hpr. injection Him as Him. injection Hsu as Hsu.
  injection Hca as Hca. injection Hl as Hl. injection Ha as Ha. injection Hb as Hb. injection Hi as Hi.
  injection Hr as Hr. injection Hh as Hh. injection Ht as Ht.
  apply strings_inj in Hca.
  split_and!; [done|done|]. intros Hra Hrb. split; try done.
  - by destruct (er_surface r1), (er_surface r2).
  - by apply sorted_values_inj in Hca; [|apply capability_value_inj].
  - by destruct (er_location r1), (er_location r2).
Qed.

Lemma payload_same r1 r2 a b :
  same_request r1 r2 -> request_payload r1 a b = request_payload r2 a b.
Proof. intros []. unfold request_payload. congruence. Qed.

Lemma request_encoding_exact r1 r2 e1 e2 :
  request_wf r1 -> request_wf r2 -> request_encoding r1 = Ok e1 -> request_encoding r2 = Ok e2 ->
  e1 = e2 <-> same_request r1 r2.
Proof.
  intros W1 W2 H1 H2. unfold request_encoding in H1, H2. inv_ok.
  rename r into a2, r0 into b2, r3 into a1, r4 into b1.
  pose proof (canonical_same _ _ _ _ (rw_requested _ W1) (rw_requested _ W2) Hm1 Hm) as Ha.
  pose proof (canonical_same _ _ _ _ (rw_expires _ W1) (rw_expires _ W2) Hm2 Hm0) as Hb.
  split.
  - intros He. apply sorted_json_bytes_inj in He; [|apply plain_sort_keys, payload_wire; eauto using canonical_ascii..].
    apply payload_inj in He as (-> & -> & Hs). apply Hs; [by apply Ha|by apply Hb].
  - intros Hs. assert (a1 = a2) as -> by (apply Ha, Hs). assert (b1 = b2) as -> by (apply Hb, Hs).
    by rewrite (payload_same r1 r2).
Qed.

(** C37. The digest of a request binds its exact constraints: two valid
    requests whose encodings do not collide under SHA-256 have the same digest
    exactly when every field agrees, the times as instants and the required
    capabilities as a set, so neither set order nor time zone matters. *)
Theorem request_digest_exact sha256 r1 r2 d1 d2
    (W1 : request_wf r1) (W2 : request_wf r2)
    (H1 : request_digest sha256 r1 = Ok d1) (H2 : request_digest sha256 r2 = Ok d2)
    (Hsha : forall e1 e2, request_encoding r1 = Ok e1 -> request_encoding r2 = Ok e2 ->
            sha256 e1 = sha256 e2 -> e1 = e2) :
  d1 = d2 <-> same_request r1 r2.
Proof.
  unfold request_digest in H1, H2. apply bind_Ok in H1 as (e1 & E1 & [= <-]), H2 as (e2 & E2 & [= <-]).
  rewrite <- (request_encoding_exact r1 r2 e1 e2) by done.
  split; [by apply Hsha|by intros ->].
Qed.

Definition sample_digest : pystr := replicate 64 97.
Definition sample_scope : ResourceScope := MkScope (u "tenant-a") (u "user-1") None.
Definition sample_request (at_ : datetime) (caps : gset ComputerCapability) : EnvironmentRequest :=
  MkEnvRequest (u "req-1") sample_scope (u "azure") (u "default") (u "registry/desk@sha256:" ++ sample_digest)
    DESKTOP caps REMOTE at_ (utc_datetime (738000 * day_us + 20 * hour_us)) 600 60
    (DecFin false 15 (-1)) (DecFin false 20 0) (Some (u "westeurope")).

Lemma sample_request_valid at_ caps :
  at_ = paris_noon \/ at_ = utc_eleven -> CScreenshot ∈ caps ->
  validate_request (sample_request at_ caps) = Ok (sample_request at_ caps).
Proof.
  intros Hat Hc. unfold validate_request, sample_request.
  cbn [er_request_id er_scope er_provider_id er_profile_id er_image er_surface er_required_capabilities
    er_location er_requested_at er_expires_at er_idle_ttl_seconds er_ready_timeout_seconds
    er_max_hourly_cost_usd er_max_total_cost_usd er_region].
  rewrite bool_decide_eq_true_2 by done. destruct Hat as [->| ->]; vm_compute; reflexivity.
Qed.

Lemma sample_request_wf at_ caps :
  at_ = paris_noon \/ at_ = utc_eleven -> CScreenshot ∈ caps -> request_wf (sample_request at_ caps).
Proof.
  intros Hat Hc. split; [by apply sample_request_valid| | |by cbn|by cbn];
    [destruct Hat as [->| ->]|]; vm_compute; (split; [split; discriminate|congruence]).
Qed.

Lemma request_digest_exact_witness :
  request_digest (fun b => b) (sample_request paris_noon {[CScreenshot; CClick]})
  = request_digest (fun b => b) (sample_request utc_eleven {[CClick; CScreenshot]}).
Proof.
  destruct (request_digest (fun b => b) (sample_request paris_noon {[CScreenshot; CClick]})) as [d1|] eqn:H1;
    [|vm_compute in H1; discriminate H1].
  destruct (request_digest (fun b => b) (sample_request utc_eleven {[CClick; CScreenshot]})) as [d2|] eqn:H2;
    [|vm_compute in H2; discriminate H2].
  f_equal. refine (proj2 (request_digest_exact (fun b => b) _ _ d1 d2 _ _ H1 H2 _) _).
  - apply sample_request_wf; [by left|set_solver].
  - apply sample_request_wf; [by right|set_solver].
  - intros e1 e2 _ _ He. exact He.
  - split; reflexivity.
Defined.
