(* ===== verification/ComputerSession.v ===== *)
(** * Sessions, screen frames and actions ([computer_use/models.py])

    The records a driver and its host exchange once an environment is leased,
    each with the constraints its fields declare and its after-validator. *)

From stdpp Require Import gmap.
From S2P Require Export ComputerUse.

Record DriverConnection := MkConnection {
  dc_lease_id : pystr;
  dc_driver_id : pystr;
  dc_endpoint : pystr;
  dc_credential : pystr;
  dc_expires_at : datetime
}.

Definition validate_connection (c : DriverConnection) : res DriverConnection :=
  l ← identifier (dc_lease_id c);
  d ← identifier (dc_driver_id c);
  expires ← wire_datetime (dc_expires_at c);
  _ ← raise_if ((len (dc_endpoint c) =? 0) || (len (dc_credential c) =? 0))
        (ValidationError "driver endpoint and credential must be non-empty");
  Ok (MkConnection l d (dc_endpoint c) (dc_credential c) expires).

(** What [model_dump] emits: the routes and credentials are excluded. *)
Definition connection_dump (c : DriverConnection) : pystr * pystr * datetime :=
  (dc_lease_id c, dc_driver_id c, dc_expires_at c).

Record SessionRequest := MkSessionRequest {
  sr_session_id : pystr;
  sr_scope : ResourceScope;
  sr_lease_id : pystr;
  sr_surface : Surface;
  sr_required_capabilities : gset ComputerCapability;
  sr_expires_at : datetime
}.

Definition validate_session_request (r : SessionRequest) : res SessionRequest :=
  i ← identifier (sr_session_id r);
  sc ← validate_scope (sr_scope r);
  l ← identifier (sr_lease_id r);
  expires ← wire_datetime (sr_expires_at r);
  _ ← raise_if (negb (bool_decide (CScreenshot ∈ sr_required_capabilities r)))
        (ValidationError "visual sessions require screenshot capability");
  Ok (MkSessionRequest i sc l (sr_surface r) (sr_required_capabilities r) expires).

Inductive SessionState : Type := SReady | SPaused | SUnknown | SClosing | SClosed.
Inductive Controller : Type := AgentCtl | HumanCtl | NoCtl.

#[global] Instance SessionState_eq_dec : EqDecision SessionState.
Proof. solve_decision. Defined.
#[global] Instance Controller_eq_dec : EqDecision Controller.
Proof. solve_decision. Defined.

Record ComputerSession := MkSession {
  cs_session_id : pystr;
  cs_scope : ResourceScope;
  cs_lease_id : pystr;
  cs_driver_id : pystr;
  cs_surface : Surface;
  cs_capabilities : gset ComputerCapability;
  cs_state : SessionState;
  cs_controller : Controller;
  cs_control_epoch : Z;
  cs_expires_at : datetime
}.

Definition controller_state (st : SessionState) (c : Controller) : res unit :=
  _ ← raise_if (bool_decide (st = SReady) && negb (bool_decide (c = AgentCtl)))
        (ValidationError "ready sessions require the agent controller");
  _ ← raise_if (negb (bool_decide (st = SReady)) && bool_decide (c = AgentCtl))
        (ValidationError "agent input is fenced outside ready state");
  raise_if (bool_decide (c = HumanCtl) && negb (bool_decide (st = SPaused)))
    (ValidationError "human control requires paused state").

Definition validate_session (s : ComputerSession) : res ComputerSession :=
  i ← identifier (cs_session_id s);
  sc ← validate_scope (cs_scope s);
  l ← identifier (cs_lease_id s);
  d ← identifier (cs_driver_id s);
  _ ← non_negative (cs_control_epoch s);
  expires ← wire_datetime (cs_expires_at s);
  _ ← controller_state (cs_state s) (cs_controller s);
  Ok (MkSession i sc l d (cs_surface s) (cs_capabilities s) (cs_state s) (cs_controller s)
        (cs_control_epoch s) expires).

Inductive MediaType : Type := ImagePng | ImageJpeg.

#[global] Instance MediaType_eq_dec : EqDecision MediaType.
Proof. solve_decision. Defined.

Record ScreenFrame := MkFrame {
  sf_observation_id : pystr;
  sf_session_id : pystr;
  sf_control_epoch : Z;
  sf_observed_at : datetime;
  sf_width : Z;
  sf_height : Z;
  sf_image_sha256 : pystr;
  sf_media_type : MediaType
}.

Definition screen_dimension (n : Z) : res unit :=
  constraint ((1 <=? n) && (n <=? 16384)) "screen dimension".

Definition bounded_pixels (w h : Z) : res unit :=
  raise_if (16777216 <? w * h) (ValidationError "screen frame exceeds pixel limit").

Definition validate_frame (f : ScreenFrame) : res ScreenFrame :=
  o ← identifier (sf_observation_id f);
  s ← identifier (sf_session_id f);
  _ ← non_negative (sf_control_epoch f);
  observed ← wire_datetime (sf_observed_at f);
  _ ← screen_dimension (sf_width f);
  _ ← screen_dimension (sf_height f);
  _ ← digest_field (sf_image_sha256 f);
  _ ← bounded_pixels (sf_width f) (sf_height f);
  Ok (MkFrame o s (sf_control_epoch f) observed (sf_width f) (sf_height f) (sf_image_sha256 f)
        (sf_media_type f)).

Record ScreenObservation := MkObservation { so_frame : ScreenFrame; so_image : list Z }.

Definition MAX_OBSERVATION_BYTES : Z := 32 * 1024 * 1024.

Definition validate_observation (sha256 : list Z -> pystr) (o : ScreenObservation) : res ScreenObservation :=
  f ← validate_frame (so_frame o);
  _ ← raise_if ((len (so_image o) =? 0) || (MAX_OBSERVATION_BYTES <? len (so_image o)))
        (ValidationError "observation image must contain at most 32 MiB");
  _ ← raise_if (negb (bool_decide (sha256 (so_image o) = sf_image_sha256 f)))
        (ValidationError "observation image does not match the frame digest");
  Ok (MkObservation f (so_image o)).

(** ** Actions *)

Inductive Button : Type := LeftButton | MiddleButton | RightButton.

#[global] Instance Button_eq_dec : EqDecision Button.
Proof. solve_decision. Defined.

Inductive ComputerAction : Type :=
| Click (x y : Z) (button : Button)
| TypeText (text : pystr)
| Key (key : pystr)
| Scroll (delta_x delta_y : Z)
| Wait (milliseconds : Z)
| Navigate (url : pystr).

#[global] Instance ComputerAction_eq_dec : EqDecision ComputerAction.
Proof. solve_decision. Defined.

(** The discriminator, as the capability it names. *)
Definition action_kind (a : ComputerAction) : ComputerCapability :=
  match a with
  | Click _ _ _ => CClick | TypeText _ => CType | Key _ => CKey | Scroll _ _ => CScroll
  | Wait _ => CWait | Navigate _ => CNavigate
  end.

Definition str_length (lo hi : Z) (s : pystr) : res unit :=
  constraint ((lo <=? len s) && (len s <=? hi)) "string_length".

Section Actions.
(** The NFKC normalisation [urlsplit] checks the host against. *)
Variable nfkc : pystr -> pystr.

(** [parsed.hostname], [username] and [password] of a split URL are total;
    [urlsplit] itself may raise [ValueError]. *)
Definition web_url (value : pystr) : res pystr :=
  _ ← browser_safe_string (Inst value) "navigation URL" 4096 false;
  p ← match urlsplit nfkc value with Some p => Ok p | None => Raise (ValueError "invalid URL") end;
  _ ← raise_if
        (negb (bool_decide (scheme p ∈ [u "http"; u "https"]))
         || match hostname p with Some (_ :: _) => false | _ => true end
         || bool_decide (is_Some (username p)) || bool_decide (is_Some (password p))
         || mem 92 value
         || existsb (fun c => is_space c || (c <? 32)) value)
        (ValueError "navigation requires an HTTP(S) URL without credentials");
  Ok value.

Definition validate_action (a : ComputerAction) : res ComputerAction :=
  match a with
  | Click x y b => _ ← non_negative x; _ ← non_negative y; Ok a
  | TypeText t => _ ← str_length 1 16384 t; Ok a
  | Key k =>
      _ ← str_length 1 64 k;
      v ← wrap (browser_safe_string (Inst k) "key" 64 false);
      Ok (Key v)
  | Scroll dx dy =>
      _ ← constraint ((-10000 <=? dx) && (dx <=? 10000)) "range";
      _ ← constraint ((-10000 <=? dy) && (dy <=? 10000)) "range";
      Ok a
  | Wait ms => _ ← constraint ((0 <=? ms) && (ms <=? 10000)) "range"; Ok a
  | Navigate url => _ ← str_length 1 4096 url; v ← wrap (web_url url); Ok (Navigate v)
  end.

Record ActionRequest := MkAction {
  ar_action_id : pystr;
  ar_session_id : pystr;
  ar_observation_id : pystr;
  ar_control_epoch : Z;
  ar_not_after : datetime;
  ar_action : ComputerAction
}.

Definition validate_action_request (r : ActionRequest) : res ActionRequest :=
  a ← identifier (ar_action_id r);
  s ← identifier (ar_session_id r);
  o ← identifier (ar_observation_id r);
  _ ← non_negative (ar_control_epoch r);
  deadline ← wire_datetime (ar_not_after r);
  act ← validate_action (ar_action r);
  Ok (MkAction a s o (ar_control_epoch r) deadline act).
End Actions.

Inductive ActionOutcome : Type := ACompleted | ADenied | AUnknown.

#[global] Instance ActionOutcome_eq_dec : EqDecision ActionOutcome.
Proof. solve_decision. Defined.

Record ActionReceipt := MkReceipt {
  rc_action_id : pystr;
  rc_session_id : pystr;
  rc_observation_id : pystr;
  rc_control_epoch : Z;
  rc_outcome : ActionOutcome;
  rc_recorded_at : datetime;
  rc_reason_code : option pystr
}.

Definition validate_receipt (r : ActionReceipt) : res ActionReceipt :=
  a ← identifier (rc_action_id r);
  s ← identifier (rc_session_id r);
  o ← identifier (rc_observation_id r);
  _ ← non_negative (rc_control_epoch r);
  recorded ← wire_datetime (rc_recorded_at r);
  reason ← opt_identifier (rc_reason_code r);
  Ok (MkReceipt a s o (rc_control_epoch r) (rc_outcome r) recorded reason).

Inductive ControlOperation : Type := CPause | CTakeoverOp | CResume | CClose.

Record ControlRequest := MkControlRequest {
  cr_request_id : pystr;
  cr_session_id : pystr;
  cr_expected_control_epoch : Z;
  cr_operation : ControlOperation
}.

Definition validate_control_request (r : ControlRequest) : res ControlRequest :=
  i ← identifier (cr_request_id r);
  s ← identifier (cr_session_id r);
  _ ← non_negative (cr_expected_control_epoch r);
  Ok (MkControlRequest i s (cr_expected_control_epoch r) (cr_operation r)).
