(* ===== verification/Outcome.v ===== *)
(** * Observed unknown outcomes ([resources.py])

    [observed_outcome_unknown] walks the explicit cause/group graph of an
    exception.  Exceptions are objects with identity, so the graph is a heap
    that may share and cycle; the walk is a stack machine over it. *)

From stdpp Require Import gmap.
From S2P Require Export Prelude.

(** What the native descriptors reveal of one exception object:
    [issubclass(type(e), ResourceOutcomeUnknown)], [__cause__], and
    [exceptions] for a group. *)
Record exc_node := ExcNode {
  ex_unknown : bool;
  ex_cause : option positive;
  ex_group : option (list positive)
}.

Abbreviation exc_heap := (gmap positive exc_node).

Definition node_at (h : exc_heap) (i : positive) : exc_node :=
  default (ExcNode false None None) (h !! i).

(** What one iteration pushes, the next element to pop first. *)
Definition pushed (n : exc_node) : list positive :=
  rev (option_list (ex_cause n) ++ default [] (ex_group n)).

(** The [while pending] loop; [pending] is the stack, top first. *)
Fixpoint observe (fuel : nat) (h : exc_heap) (pending : list positive) (seen : gset positive)
    (observed : list positive) : option (list positive) :=
  match fuel with
  | O => None
  | S fuel' =>
      match pending with
      | [] => Some observed
      | current :: rest =>
          if decide (current ∈ seen) then observe fuel' h rest seen observed
          else
            let n := node_at h current in
            observe fuel' h (pushed n ++ rest) ({[current]} ∪ seen)
              (if ex_unknown n then observed ++ [current] else observed)
      end
  end.

(** Every object is expanded at most once. *)
Definition degree (h : exc_heap) (i : positive) : nat := length (pushed (node_at h i)).

Definition observe_fuel (h : exc_heap) : nat := 2 + sum_list_with (degree h) (elements (dom h)).

Definition observed_outcome_unknown (h : exc_heap) (error : option positive) : option (list positive) :=
  observe (observe_fuel h) h (option_list error) ∅ [].

(** ** The graph *)

(** [b] is the explicit cause of [a], or a member of the group [a]. *)
Definition edge (h : exc_heap) (a b : positive) : Prop :=
  ex_cause (node_at h a) = Some b \/ exists l, ex_group (node_at h a) = Some l /\ b ∈ l.

Lemma elem_of_pushed h a b : b ∈ pushed (node_at h a) <-> edge h a b.
Proof.
  unfold pushed, edge. rewrite <- Permutation_rev, elem_of_app. destruct (ex_cause _) as [c|], (ex_group _) as [l|]; cbn; set_solver.
Qed.

Definition weight (h : exc_heap) (seen : gset positive) : nat :=
  sum_list_with (degree h) (elements (dom h ∖ seen)).

Lemma sum_list_with_perm {A} (f : A -> nat) l l' : l ≡ₚ l' -> sum_list_with f l = sum_list_with f l'.
Proof. induction 1; cbn; lia. Qed.

Lemma weight_expand h x seen :
  x ∉ seen -> weight h seen = (degree h x + weight h ({[x]} ∪ seen))%nat.
Proof.
  intros Hx. unfold weight. destruct (decide (x ∈ dom h)) as [Hd|Hd].
  - replace (dom h ∖ seen) with ({[x]} ∪ dom h ∖ ({[x]} ∪ seen)).
    + rewrite (sum_list_with_perm (degree h) _ (x :: elements (dom h ∖ ({[x]} ∪ seen)))); [done|].
      apply elements_union_singleton. set_solver.
    + apply set_eq. intros y. destruct (decide (y = x)); set_solver.
  - replace (dom h ∖ ({[x]} ∪ seen)) with (dom h ∖ seen); [|set_solver].
    apply not_elem_of_dom in Hd.
    assert (H0 : degree h x = 0%nat) by (unfold degree, node_at; by rewrite Hd). by rewrite H0.
Qed.

(** The loop invariant: [e] is the error observed. *)
Record walk_inv (h : exc_heap) (e : positive) (pending : list positive) (seen : gset positive)
    (observed : list positive) : Prop := WalkInv {
  wi_start : e ∈ seen \/ e ∈ pending;
  wi_reach : forall x, x ∈ seen \/ x ∈ pending -> rtc (edge h) e x;
  wi_closed : forall x y, x ∈ seen -> edge h x y -> y ∈ seen \/ y ∈ pending;
  wi_nodup : NoDup observed;
  wi_observed : forall x, x ∈ observed <-> x ∈ seen /\ ex_unknown (node_at h x) = true
}.

Lemma walk_skip h e x rest seen obs :
  x ∈ seen -> walk_inv h e (x :: rest) seen obs -> walk_inv h e rest seen obs.
Proof.
  intros Hx [H1 H2 H3 H4 H5]. split; [set_solver|set_solver| |done|done].
  intros a b Ha Hb. destruct (H3 a b Ha Hb) as [|Hp]; [by left|]. set_solver.
Qed.

Lemma walk_expand h e x rest seen obs :
  x ∉ seen -> walk_inv h e (x :: rest) seen obs ->
  walk_inv h e (pushed (node_at h x) ++ rest) ({[x]} ∪ seen)
    (if ex_unknown (node_at h x) then obs ++ [x] else obs).
Proof.
  intros Hx [H1 H2 H3 H4 H5]. split.
  - set_solver.
  - intros y Hy. rewrite elem_of_app, elem_of_pushed in Hy.
    destruct Hy as [Hy|[Hy|Hy]]; [set_solver| |set_solver].
    eapply rtc_r; [|exact Hy]. apply H2. set_solver.
  - intros a b Ha Hb. rewrite elem_of_app, elem_of_pushed.
    apply elem_of_union in Ha as [Ha|Ha]; [apply elem_of_singleton in Ha as ->; auto|].
    destruct (H3 a b Ha Hb); set_solver.
  - destruct (ex_unknown _); [|done]. apply list.NoDup_app. split_and!; [done| |apply NoDup_singleton].
    intros y Hy%H5. set_solver.
  - intros y. destruct (ex_unknown (node_at h x)) eqn:Hu; [rewrite elem_of_app|]; rewrite H5.
    + rewrite list_elem_of_singleton. set_solver.
    + split; [set_solver|]. intros [Hy Hu']. apply elem_of_union in Hy as [Hy|Hy]; [|done].
      apply elem_of_singleton in Hy as ->. congruence.
Qed.

Lemma walk_done h e seen obs :
  walk_inv h e [] seen obs ->
  NoDup obs /\ forall x, x ∈ obs <-> rtc (edge h) e x /\ ex_unknown (node_at h x) = true.
Proof.
  intros [H1 H2 H3 H4 H5]. split; [done|]. intros x. rewrite H5.
  assert (Hs : x ∈ seen <-> rtc (edge h) e x); [|by rewrite Hs].
  split; [intros; apply H2; by left|]. intros Hr.
  assert (He : e ∈ seen) by set_solver.
  revert He. clear H1 H2 H4 H5. induction Hr as [|a b c Hab _ IH]; intros Ha; [done|].
  apply IH. destruct (H3 a b Ha Hab); [done|set_solver].
Qed.

Lemma observe_total fuel h e pending seen obs :
  walk_inv h e pending seen obs -> (length pending + weight h seen < fuel)%nat ->
  exists l, observe fuel h pending seen obs = Some l /\ NoDup l
    /\ forall x, x ∈ l <-> rtc (edge h) e x /\ ex_unknown (node_at h x) = true.
Proof.
  revert pending seen obs; induction fuel as [|fuel IH]; intros pending seen obs Hinv Hf; [lia|].
  destruct pending as [|x rest]; [exists obs; split; [done|by eapply walk_done]|].
  cbn [observe]. cbn [length] in Hf. case_decide as Hx.
  - apply IH; [by eapply walk_skip|lia].
  - apply IH; [by apply walk_expand|]. rewrite (weight_expand h x seen Hx) in Hf.
    rewrite length_app. fold (degree h x). lia.
Qed.

(** The walk always finishes, on graphs that share objects or cycle, and
    returns exactly the [ResourceOutcomeUnknown] exceptions reachable through
    explicit causes and group members, each once; no error gives none. *)
Theorem observed_outcome_unknown_exact h error :
  exists l, observed_outcome_unknown h error = Some l /\ NoDup l
    /\ forall x, x ∈ l <-> exists e, error = Some e /\ rtc (edge h) e x
                                     /\ ex_unknown (node_at h x) = true.
Proof.
  destruct error as [e|].
  - destruct (observe_total (observe_fuel h) h e [e] ∅ []) as (l & Hl & Hn & Hx).
    + split; [set_solver| |set_solver|constructor|set_solver].
      intros x [?|Hx]; [set_solver|]. apply list_elem_of_singleton in Hx as ->. apply rtc_refl.
    + unfold observe_fuel, weight. rewrite difference_empty_L. cbn. lia.
    + exists l. split_and!; [done..|]. intros x. rewrite Hx. naive_solver.
  - exists []. split_and!; [done|constructor|]. set_solver.
Qed.

(** A shared cause observed through a group, and a cycle. *)
Example outcome_cycle :
  let h : exc_heap := {[1%positive := ExcNode false (Some 2%positive) (Some [2; 3]%positive);
                        2%positive := ExcNode true (Some 1%positive) None;
                        3%positive := ExcNode true None None]} in
  observed_outcome_unknown h (Some 1%positive) = Some [3; 2]%positive.
Proof. vm_compute. reflexivity. Qed.
