(* ===== verification/Acquisition.v ===== *)
(** * Acquisition custody ([computer_use/acquisition.py])

    The checkpoint of one environment acquisition attempt: a record the host
    keeps on one durable row, and the pure transitions that produce its
    successors.  [model_validate] of an instance revalidates it,
    [model_copy] does not. *)

From stdpp Require Import gmap.
From S2P Require Export ComputerUseProps.

(** ** Preparation *)

Definition MAX_ACQUISITION_CREATE_BYTES : Z := 512 * 1024.
Definition MAX_ACQUISITION_IDENTITY_BYTES : Z := 128 * 1024.

(** A [SecretBytes] value: its bytes, and whether they are exactly [bytes]. *)
Record SecretBytes := MkSecretBytes { sb_exact : bool; sb_raw : list Z }.

#[global] Instance SecretBytes_eq_dec : EqDecision SecretBytes.
Proof. solve_decision. Defined.

Record EnvironmentAcquisitionPreparation := MkPreparation {
  pr_create_payload : SecretBytes;
  pr_worker_identity : SecretBytes
}.

#[global] Instance Preparation_eq_dec : EqDecision EnvironmentAcquisitionPreparation.
Proof. solve_decision. Defined.

Definition bounded_bytes (value : SecretBytes) (limit : Z) : res unit :=
  _ ← raise_if (negb (sb_exact value))
        (ValidationError "acquisition preparation requires immutable exact bytes");
  raise_if (negb ((0 <? len (sb_raw value)) && (len (sb_raw value) <=? limit)))
    (ValidationError "acquisition preparation exceeds private byte bounds").

Definition validate_preparation (p : EnvironmentAcquisitionPreparation)
    : res EnvironmentAcquisitionPreparation :=
  _ ← bounded_bytes (pr_create_payload p) MAX_ACQUISITION_CREATE_BYTES;
  _ ← bounded_bytes (pr_worker_identity p) MAX_ACQUISITION_IDENTITY_BYTES;
  Ok p.

(** [n.to_bytes(k, "big")] *)
Fixpoint to_bytes_big (k : nat) (n : Z) : list Z :=
  match k with
  | O => []
  | S k' => to_bytes_big k' (n / 256) ++ [n mod 256]
  end.

Definition framed (raw : list Z) : list Z := to_bytes_big 8 (len raw) ++ raw.

(** Everything [digest.update] is given, in order. *)
Definition preparation_encoding (p : EnvironmentAcquisitionPreparation) : list Z :=
  u "kestrel-environment-preparation-v1" ++ [0]
  ++ framed (sb_raw (pr_create_payload p)) ++ framed (sb_raw (pr_worker_identity p)).

(** ** Quotes *)

Definition capabilities_json (c : EnvironmentCapabilities) : fjson :=
  FMap [(u "schema_version", FInt 1);
        (u "provider_id", FStr (ec_provider_id c));
        (u "location", FStr (location_value (ec_location c)));
        (u "surfaces", FTuple (FStr <$> sorted_surfaces (ec_surfaces c)));
        (u "operations", FTuple (FStr <$> sorted_capabilities (ec_operations c)));
        (u "profile_persistence", FBool (ec_profile_persistence c));
        (u "cpu_only", FBool (ec_cpu_only c))].

Definition quote_payload (q : EnvironmentQuote) (expires : pystr) : fjson :=
  FMap [(u "schema_version", FInt 1);
        (u "quote_id", FStr (eq_quote_id q));
        (u "request_id", FStr (eq_request_id q));
        (u "request_sha256", FStr (eq_request_sha256 q));
        (u "scope", scope_json (eq_scope q));
        (u "provider_id", FStr (eq_provider_id q));
        (u "location", FStr (location_value (eq_location q)));
        (u "region", opt_json FStr (eq_region q));
        (u "expires_at", FStr expires);
        (u "hourly_cost_usd", FStr (dec_str (eq_hourly_cost_usd q)));
        (u "estimated_total_cost_usd", FStr (dec_str (eq_estimated_total_cost_usd q)));
        (u "capabilities", capabilities_json (eq_capabilities q))].

Definition quote_encoding (q : EnvironmentQuote) : res (list Z) :=
  expires ← canonical_utc_datetime (Inst (eq_expires_at q));
  Ok (sorted_json_bytes (quote_payload q expires)).

(** ** Checkpoints *)

Inductive AcquisitionState : Type := Unprepared | Prepared | Dispatching | Accepted | Unknown.

#[global] Instance AcquisitionState_eq_dec : EqDecision AcquisitionState.
Proof. solve_decision. Defined.

Record Checkpoint := MkCheckpoint {
  ck_attempt_id : pystr;
  ck_request_id : pystr;
  ck_request_sha256 : pystr;
  ck_quote_id : pystr;
  ck_quote_sha256 : pystr;
  ck_scope : ResourceScope;
  ck_provider_id : pystr;
  ck_location : Location;
  ck_expires_at : datetime;
  ck_sequence : Z;
  ck_state : AcquisitionState;
  ck_preparation_sha256 : option pystr;
  ck_lease : option EnvironmentLease
}.

#[global] Instance Checkpoint_eq_dec : EqDecision Checkpoint.
Proof. solve_decision. Defined.

Definition dispatched_states : list AcquisitionState := [Dispatching; Accepted; Unknown].

(** The lease facts a checkpoint must agree with. *)
Definition lease_correlated (c : Checkpoint) (l : EnvironmentLease) : bool :=
  bool_decide (el_request_id l = ck_request_id c) && bool_decide (el_quote_id l = ck_quote_id c)
  && bool_decide (el_scope l = ck_scope c) && bool_decide (el_provider_id l = ck_provider_id c)
  && bool_decide (el_location l = ck_location c).

Definition correlated_facts (c : Checkpoint) : res unit :=
  _ ← raise_if (negb (bool_decide (ck_state c = Unprepared <-> ck_preparation_sha256 c = None)))
        (ValidationError "checkpoint preparation state does not match original digest");
  _ ← raise_if (mem (ck_state c) [Unprepared; Prepared; Dispatching] && bool_decide (is_Some (ck_lease c)))
        (ValidationError "undispatched checkpoint cannot claim native acceptance");
  _ ← raise_if (bool_decide (ck_state c = Accepted)
                && negb (bool_decide (is_Some (ck_lease c ≫= el_provider_resource_id))))
        (ValidationError "accepted checkpoint requires original native resource custody");
  match ck_lease c with
  | None => Ok tt
  | Some l =>
      _ ← raise_if (negb (lease_correlated c l))
            (ValidationError "checkpoint lease differs from original acquisition");
      _ ← raise_if (bool_decide (el_state l = EReleased))
            (ValidationError "physical release is recorded by the canonical lease lifecycle");
      raise_if (dt_ltb (ck_expires_at c) (el_expires_at l))
        (ValidationError "native fact extends the original acquisition expiry")
  end.

Definition validate_checkpoint (c : Checkpoint) : res Checkpoint :=
  a ← identifier (ck_attempt_id c);
  rid ← identifier (ck_request_id c);
  _ ← digest_field (ck_request_sha256 c);
  qid ← identifier (ck_quote_id c);
  _ ← digest_field (ck_quote_sha256 c);
  sc ← validate_scope (ck_scope c);
  pid ← identifier (ck_provider_id c);
  expires ← wire_datetime (ck_expires_at c);
  _ ← non_negative (ck_sequence c);
  _ ← match ck_preparation_sha256 c with Some d => digest_field d | None => Ok tt end;
  lease ← opt_check validate_env_lease (ck_lease c);
  let c' := MkCheckpoint a rid (ck_request_sha256 c) qid (ck_quote_sha256 c) sc pid (ck_location c)
              expires (ck_sequence c) (ck_state c) (ck_preparation_sha256 c) lease in
  _ ← correlated_facts c';
  Ok c'.

(** [original.model_copy(update={...})] *)
Definition copy_prepared (c : Checkpoint) (digest : pystr) : Checkpoint :=
  MkCheckpoint (ck_attempt_id c) (ck_request_id c) (ck_request_sha256 c) (ck_quote_id c)
    (ck_quote_sha256 c) (ck_scope c) (ck_provider_id c) (ck_location c) (ck_expires_at c)
    (ck_sequence c + 1) Prepared (Some digest) (ck_lease c).

Definition copy_dispatching (c : Checkpoint) : Checkpoint :=
  MkCheckpoint (ck_attempt_id c) (ck_request_id c) (ck_request_sha256 c) (ck_quote_id c)
    (ck_quote_sha256 c) (ck_scope c) (ck_provider_id c) (ck_location c) (ck_expires_at c)
    (ck_sequence c + 1) Dispatching (ck_preparation_sha256 c) (ck_lease c).

(** The values [_native_fact] validates. *)
Definition with_fact (c : Checkpoint) (st : AcquisitionState) (lease : option EnvironmentLease) : Checkpoint :=
  MkCheckpoint (ck_attempt_id c) (ck_request_id c) (ck_request_sha256 c) (ck_quote_id c)
    (ck_quote_sha256 c) (ck_scope c) (ck_provider_id c) (ck_location c) (ck_expires_at c)
    (ck_sequence c + 1) st (ck_preparation_sha256 c) lease.

(** [(lease_id, expires_at)] agree, and a known native resource is the same. *)
Definition keeps_custody (old new : EnvironmentLease) : bool :=
  bool_decide (el_lease_id new = el_lease_id old) && dt_eqb (el_expires_at new) (el_expires_at old)
  && (bool_decide (el_provider_resource_id old = None)
      || bool_decide (el_provider_resource_id new = el_provider_resource_id old)).

Definition native_fact (self : Checkpoint) (st : AcquisitionState) (lease : option EnvironmentLease)
    : res Checkpoint :=
  original ← validate_checkpoint self;
  _ ← raise_if (negb (mem (ck_state original) dispatched_states))
        (ResourceConflict "native fact has no original dispatch custody");
  lease ← match lease with
          | None => Ok (ck_lease original)
          | Some l => l' ← validate_env_lease l; Ok (Some l')
          end;
  _ ← match ck_lease original, lease with
      | Some old, Some new =>
          raise_if (negb (keeps_custody old new))
            (ResourceConflict "native fact replaces original resource custody")
      | _, _ => Ok tt
      end;
  validate_checkpoint (with_fact original st lease).

Definition accepted (self : Checkpoint) (lease : EnvironmentLease) : res Checkpoint :=
  native_fact self Accepted (Some lease).

Definition unknown (self : Checkpoint) (lease : option EnvironmentLease) : res Checkpoint :=
  native_fact self Unknown lease.

Definition dispatched (self : Checkpoint) : res Checkpoint :=
  original ← validate_checkpoint self;
  _ ← raise_if (negb (bool_decide (ck_state original = Prepared)))
        (ResourceConflict "original acquisition has already begun or is unprepared");
  Ok (copy_dispatching original).

Section Sha256.
(** [hashlib.sha256(data).hexdigest()] *)
Variable sha256 : list Z -> pystr.

Definition preparation_digest (p : EnvironmentAcquisitionPreparation) : res pystr :=
  original ← validate_preparation p;
  Ok (sha256 (preparation_encoding original)).

Definition quote_digest (q : EnvironmentQuote) : res pystr :=
  encoded ← quote_encoding q;
  Ok (sha256 encoded).

Definition prepared (self : Checkpoint) (preparation : EnvironmentAcquisitionPreparation) : res Checkpoint :=
  original ← validate_checkpoint self;
  p ← validate_preparation preparation;
  digest ← preparation_digest p;
  match ck_preparation_sha256 original with
  | Some d =>
      _ ← raise_if (negb (bool_decide (d = digest)))
            (ResourceConflict "acquisition preparation differs from original bytes");
      Ok original
  | None => Ok (copy_prepared original digest)
  end.

Definition quote_matches (q : EnvironmentQuote) (r : EnvironmentRequest) (digest : pystr) : bool :=
  bool_decide (eq_request_id q = er_request_id r) && bool_decide (eq_request_sha256 q = digest)
  && bool_decide (eq_scope q = er_scope r) && bool_decide (eq_provider_id q = er_provider_id r)
  && bool_decide (eq_location q = er_location r).

Definition from_original (attempt_id : pystr) (request : EnvironmentRequest) (quote : EnvironmentQuote)
    : res Checkpoint :=
  r ← validate_request request;
  q ← validate_quote quote;
  digest ← request_digest sha256 r;
  _ ← raise_if (negb (quote_matches q r digest))
        (ResourceConflict "acquisition quote differs from original request");
  qd ← quote_digest q;
  validate_checkpoint (MkCheckpoint attempt_id (er_request_id r) digest (eq_quote_id q) qd (er_scope r)
    (er_provider_id r) (er_location r) (er_expires_at r) 0 Unprepared None None).

(** The names [require_original] compares. *)
Definition same_original (a b : Checkpoint) : bool :=
  bool_decide (ck_attempt_id a = ck_attempt_id b) && bool_decide (ck_request_id a = ck_request_id b)
  && bool_decide (ck_request_sha256 a = ck_request_sha256 b) && bool_decide (ck_quote_id a = ck_quote_id b)
  && bool_decide (ck_quote_sha256 a = ck_quote_sha256 b) && bool_decide (ck_scope a = ck_scope b)
  && bool_decide (ck_provider_id a = ck_provider_id b) && bool_decide (ck_location a = ck_location b)
  && dt_eqb (ck_expires_at a) (ck_expires_at b).

Definition require_original (self : Checkpoint) (request : EnvironmentRequest) (quote : EnvironmentQuote)
    : res unit :=
  original ← validate_checkpoint self;
  expected ← from_original (ck_attempt_id original) request quote;
  raise_if (negb (same_original original expected))
    (ResourceConflict "checkpoint differs from original acquisition").

(** ** The encrypted row *)

Record AcquisitionStorage := MkStorage {
  st_checkpoint : Checkpoint;
  st_preparation : option EnvironmentAcquisitionPreparation
}.

Definition validate_storage (s : AcquisitionStorage) : res AcquisitionStorage :=
  c ← validate_checkpoint (st_checkpoint s);
  p ← opt_check validate_preparation (st_preparation s);
  _ ← raise_if (negb (bool_decide (p = None <-> ck_preparation_sha256 c = None)))
        (ValidationError "storage is missing original private preparation");
  _ ← match p with
      | None => Ok tt
      | Some p =>
          d ← preparation_digest p;
          raise_if (negb (bool_decide (Some d = ck_preparation_sha256 c)))
            (ValidationError "storage preparation differs from original digest")
      end;
  Ok (MkStorage c p).
End Sha256.
