(* ===== verification/AcquisitionProps.v ===== *)
(** * Custody of an acquisition attempt

    The transitions of a checkpoint as a step relation: which facts can never
    change, that an attempt is dispatched at most once however its host
    interleaves compare-and-swap attempts, and what the digests bind. *)

From stdpp Require Import gmap.
From S2P Require Export Acquisition.

(** ** Revalidation *)

Definition valid (c : Checkpoint) : Prop := validate_checkpoint c = Ok c.

Lemma opt_lease_idem o o' :
  opt_check validate_env_lease o = Ok o' -> opt_check validate_env_lease o' = Ok o'.
Proof.
  rewrite !opt_check_Ok. destruct o as [l|]; [|by intros ->]. intros (b & Hb & ->).
  exists b. split; [by eapply validate_env_lease_idem|done].
Qed.

(** Validation only normalises the expiry and the lease. *)
Lemma validate_checkpoint_inv c c' :
  validate_checkpoint c = Ok c' ->
  wire_datetime (ck_expires_at c) = Ok (ck_expires_at c')
  /\ opt_check validate_env_lease (ck_lease c) = Ok (ck_lease c')
  /\ c' = MkCheckpoint (ck_attempt_id c) (ck_request_id c) (ck_request_sha256 c) (ck_quote_id c)
            (ck_quote_sha256 c) (ck_scope c) (ck_provider_id c) (ck_location c) (ck_expires_at c')
            (ck_sequence c) (ck_state c) (ck_preparation_sha256 c) (ck_lease c')
  /\ correlated_facts c' = Ok tt.
Proof.
  unfold validate_checkpoint. intros H. inv_ok.
  apply identifier_Ok in Hm as [-> ?], Hm0 as [-> ?], Hm2 as [-> ?], Hm5 as [-> ?].
  apply validate_scope_Ok in Hm4 as [-> ?]. done.
Qed.

Lemma validate_checkpoint_fixed c c' :
  validate_checkpoint c = Ok c' -> wire_datetime (ck_expires_at c) = Ok (ck_expires_at c) ->
  opt_check validate_env_lease (ck_lease c) = Ok (ck_lease c) -> c' = c.
Proof.
  intros H Hw Hl. apply validate_checkpoint_inv in H as (Hw' & Hl' & -> & _).
  rewrite Hw in Hw'. rewrite Hl in Hl'. destruct c; cbn in *. congruence.
Qed.

Lemma validate_checkpoint_idem c c' : validate_checkpoint c = Ok c' -> valid c'.
Proof.
  intros H. pose proof H as H'. apply validate_checkpoint_inv in H' as (Hw & Hl & Heq & Hc).
  apply wire_datetime_idem in Hw. apply opt_lease_idem in Hl.
  unfold validate_checkpoint in H. inv_ok.
  apply identifier_Ok in Hm as [-> ?], Hm0 as [-> ?], Hm2 as [-> ?], Hm5 as [-> ?].
  apply validate_scope_idem in Hm4.
  unfold valid, validate_checkpoint. cbn [ck_attempt_id ck_request_id ck_request_sha256 ck_quote_id
    ck_quote_sha256 ck_scope ck_provider_id ck_location ck_expires_at ck_sequence ck_state
    ck_preparation_sha256 ck_lease] in *. revalidate.
Qed.

Lemma valid_facts c :
  valid c ->
  wire_datetime (ck_expires_at c) = Ok (ck_expires_at c)
  /\ opt_check validate_env_lease (ck_lease c) = Ok (ck_lease c) /\ correlated_facts c = Ok tt.
Proof. intros H. by apply validate_checkpoint_inv in H as (? & ? & _ & ?). Qed.

Lemma correlated_Ok c x :
  correlated_facts c = Ok x <->
  (ck_state c = Unprepared <-> ck_preparation_sha256 c = None)
  /\ (ck_state c ∈ [Unprepared; Prepared; Dispatching] -> ck_lease c = None)
  /\ (ck_state c = Accepted -> is_Some (ck_lease c ≫= el_provider_resource_id))
  /\ forall l, ck_lease c = Some l ->
       lease_correlated c l = true /\ el_state l <> EReleased
       /\ dt_ltb (ck_expires_at c) (el_expires_at l) = false.
Proof.
  assert (Hn : ~ is_Some (ck_lease c) <-> ck_lease c = None) by by rewrite eq_None_not_Some.
  unfold correlated_facts. destruct x. split.
  - intros H. inv_ok. bool_hyps. split_and!; [done| | |].
    + intros Hin. apply andb_false_iff in Hm0 as [Hm0|Hm0]; bool_hyps; [done|by apply Hn].
    + intros Ha. apply andb_false_iff in Hm1 as [Hm1|Hm1]; bool_hyps; done.
    + intros l Hl. rewrite Hl in H. inv_ok. bool_hyps. done.
  - intros (H1 & H2 & H3 & H4).
    ok_guard ltac:(by rewrite bool_decide_eq_true_2).
    ok_guard ltac:(apply andb_false_iff; destruct (decide (ck_state c ∈ [Unprepared; Prepared; Dispatching]));
      [right; apply bool_decide_eq_false, Hn; auto|by left; apply mem_false]).
    ok_guard ltac:(apply andb_false_iff; destruct (decide (ck_state c = Accepted));
      [right; rewrite bool_decide_eq_true_2; auto|by left; apply bool_decide_eq_false]).
    destruct (ck_lease c) as [l|]; [|done]. destruct (H4 l eq_refl) as (Hl & Hr & Hd).
    ok_guard ltac:(by rewrite Hl). ok_guard ltac:(by apply bool_decide_eq_false). by rewrite Hd.
Qed.

(** ** The transitions on valid checkpoints *)

Lemma dispatched_Ok c c' :
  valid c -> dispatched c = Ok c' <-> ck_state c = Prepared /\ c' = copy_dispatching c.
Proof.
  intros Hv. unfold dispatched. rewrite Hv. cbn [mbind result_bind]. rewrite bind_Ok.
  setoid_rewrite raise_if_Ok. setoid_rewrite negb_false_iff. setoid_rewrite bool_decide_eq_true.
  split; [intros (_ & ? & [= <-]); done|]. intros [? ->]. by exists tt.
Qed.

(** What the lease of the next checkpoint must keep. *)
Definition lease_kept (old new : option EnvironmentLease) : Prop :=
  forall l, old = Some l -> exists l', new = Some l' /\ keeps_custody l l' = true.

Lemma dt_eqb_refl d : dt_eqb d d = true.
Proof. unfold dt_eqb, dt_sub. rewrite decide_True by done. rewrite Z.sub_diag. done. Qed.

Lemma keeps_custody_refl l : keeps_custody l l = true.
Proof.
  unfold keeps_custody. rewrite dt_eqb_refl, (bool_decide_eq_true_2 (el_lease_id l = _)) by done.
  rewrite (bool_decide_eq_true_2 (_ = el_provider_resource_id l)) by done. by rewrite orb_true_r.
Qed.

Lemma native_fact_Ok c st lease c' :
  valid c -> native_fact c st lease = Ok c' ->
  ck_state c ∈ dispatched_states /\ valid c' /\ lease_kept (ck_lease c) (ck_lease c')
  /\ c' = with_fact c st (ck_lease c')
  /\ match lease with
     | None => ck_lease c' = ck_lease c
     | Some l => exists l', validate_env_lease l = Ok l' /\ ck_lease c' = Some l'
     end.
Proof.
  intros Hv H. unfold native_fact in H. rewrite Hv in H. cbn [mbind result_bind] in H. inv_ok.
  bool_hyps. match goal with H : validate_checkpoint (with_fact _ _ ?n) = _ |- _ => rename n into new end.
  destruct (valid_facts c Hv) as (Hw & Hl & _).
  assert (Hn : opt_check validate_env_lease new = Ok new).
  { destruct lease as [l|]; inv_ok; [|done]. apply opt_check_Ok. eexists.
    split; [by eapply validate_env_lease_idem|done]. }
  apply validate_checkpoint_idem in H as Hv'. apply validate_checkpoint_fixed in H as ->; [|done..].
  cbn [ck_lease with_fact]. split_and!; [done|done| |done|].
  - intros l Hcl. rewrite Hcl in Hm1.
    destruct new as [new|]; [exists new; split; [done|]; by inv_ok; bool_hyps|].
    destruct lease as [l0|]; inv_ok; congruence.
  - destruct lease as [l|]; inv_ok; [|congruence]. eauto.
Qed.

Section Transitions.
Context (sha256 : list Z -> pystr).

Lemma validate_preparation_Ok p p' :
  validate_preparation p = Ok p' -> p' = p /\ sb_exact (pr_create_payload p) = true
  /\ sb_exact (pr_worker_identity p) = true
  /\ 0 < len (sb_raw (pr_create_payload p)) <= MAX_ACQUISITION_CREATE_BYTES
  /\ 0 < len (sb_raw (pr_worker_identity p)) <= MAX_ACQUISITION_IDENTITY_BYTES.
Proof. unfold validate_preparation, bounded_bytes. intros H. inv_ok. by bool_hyps. Qed.

Lemma prepared_Ok c p c' :
  valid c -> prepared sha256 c p = Ok c' <->
  validate_preparation p = Ok p
  /\ match ck_preparation_sha256 c with
     | Some d => d = sha256 (preparation_encoding p) /\ c' = c
     | None => c' = copy_prepared c (sha256 (preparation_encoding p))
     end.
Proof.
  intros Hv. unfold prepared. rewrite Hv. cbn [mbind result_bind]. unfold preparation_digest. split.
  - intros H. inv_ok. pose proof Hm as Hm'. apply validate_preparation_Ok in Hm' as [-> _].
    pose proof Hm1 as Hm'. apply validate_preparation_Ok in Hm' as [-> _]. split; [done|].
    destruct (ck_preparation_sha256 c) as [d|]; inv_ok; [by bool_hyps|done].
  - intros [Hp H]. rewrite Hp. cbn [mbind result_bind]. rewrite Hp. cbn [mbind result_bind].
    destruct (ck_preparation_sha256 c) as [d|]; [|by subst].
    destruct H as [-> ->]. by rewrite bool_decide_eq_true_2.
Qed.

(** One successful transition of the row. *)
Inductive step : Checkpoint -> Checkpoint -> Prop :=
| step_prepared c p c' : prepared sha256 c p = Ok c' -> step c c'
| step_dispatched c c' : dispatched c = Ok c' -> step c c'
| step_accepted c l c' : accepted c l = Ok c' -> step c c'
| step_unknown c l c' : unknown c l = Ok c' -> step c c'.

(** [hashlib] digests are 64 lower-case hexadecimal characters. *)
Hypothesis sha256_hex : forall b, image_digest (sha256 b) = true.

Lemma digest_field_Ok d x : digest_field d = Ok x <-> image_digest d = true.
Proof. apply constraint_Ok. Qed.

(** Replace the state, the sequence, the preparation and the lease of a valid
    checkpoint. *)
Lemma valid_update c st seq prep lease :
  valid c -> 0 <= seq -> (forall d, prep = Some d -> image_digest d = true) ->
  opt_check validate_env_lease lease = Ok lease ->
  let c' := MkCheckpoint (ck_attempt_id c) (ck_request_id c) (ck_request_sha256 c) (ck_quote_id c)
              (ck_quote_sha256 c) (ck_scope c) (ck_provider_id c) (ck_location c) (ck_expires_at c)
              seq st prep lease in
  correlated_facts c' = Ok tt -> valid c'.
Proof.
  intros Hv Hs Hp Hl c' Hc. destruct (valid_facts c Hv) as (Hw & _ & _).
  unfold valid, validate_checkpoint in Hv. inv_ok.
  apply identifier_Ok in Hm as [-> ?], Hm0 as [-> ?], Hm2 as [-> ?], Hm5 as [-> ?].
  pose proof Hm4 as Hsc. apply validate_scope_Ok in Hsc as [-> _].
  unfold valid, validate_checkpoint. cbn [ck_attempt_id ck_request_id ck_request_sha256 ck_quote_id
    ck_quote_sha256 ck_scope ck_provider_id ck_location ck_expires_at ck_sequence ck_state
    ck_preparation_sha256 ck_lease c'] in *.
  repeat (apply bind_Ok; first [exists tt|eexists]; split;
    [solve [field_ok | apply constraint_Ok; lia
           | destruct prep; [by apply digest_field_Ok, Hp|done]]|cbv beta]).
  reflexivity.
Qed.

Lemma valid_sequence c : valid c -> 0 <= ck_sequence c.
Proof. intros Hv. unfold valid, validate_checkpoint in Hv. inv_ok. apply constraint_Ok in Hm7. lia. Qed.

Lemma valid_preparation c : valid c -> forall d, ck_preparation_sha256 c = Some d -> image_digest d = true.
Proof.
  intros Hv d Hd. unfold valid, validate_checkpoint in Hv. inv_ok. rewrite Hd in Hm8. by apply digest_field_Ok in Hm8.
Qed.

Lemma step_valid c c' : valid c -> step c c' -> valid c'.
Proof.
  intros Hv Hs. destruct (valid_facts c Hv) as (_ & _ & Hc). apply correlated_Ok in Hc as (H1 & H2 & H3 & H4).
  pose proof (valid_sequence c Hv) as Hseq.
  destruct Hs as [c p c' Hp|c c' Hd|c l c' Ha|c l c' Ha].
  - apply prepared_Ok in Hp as [_ Hp]; [|done]. destruct (ck_preparation_sha256 c) as [d|] eqn:Hd.
    { by destruct Hp as [_ ->]. }
    subst c'. apply valid_update; [done|lia|by intros ? [= <-]|by apply valid_facts|].
    apply correlated_Ok. cbn. assert (Hn : ck_lease c = None) by (apply H2; rewrite (proj2 H1) by done; set_solver).
    rewrite Hn. split_and!; [by split|done|done|done].
  - apply dispatched_Ok in Hd as [Hst ->]; [|done]. apply valid_update; [done|lia|by apply valid_preparation|by apply valid_facts|].
    apply correlated_Ok. cbn. assert (Hn : ck_lease c = None) by (apply H2; rewrite Hst; set_solver).
    rewrite Hn. split_and!; [|done|done|done]. split; [done|]. intros Hp. apply H1 in Hp. congruence.
  - by apply native_fact_Ok in Ha as (_ & ? & _).
  - by apply native_fact_Ok in Ha as (_ & ? & _).
Qed.

(** ** What never changes *)

Record same_facts (c c' : Checkpoint) : Prop := SameFacts {
  fa_attempt : ck_attempt_id c' = ck_attempt_id c;
  fa_request : ck_request_id c' = ck_request_id c;
  fa_request_sha256 : ck_request_sha256 c' = ck_request_sha256 c;
  fa_quote : ck_quote_id c' = ck_quote_id c;
  fa_quote_sha256 : ck_quote_sha256 c' = ck_quote_sha256 c;
  fa_scope : ck_scope c' = ck_scope c;
  fa_provider : ck_provider_id c' = ck_provider_id c;
  fa_location : ck_location c' = ck_location c;
  fa_expires : ck_expires_at c' = ck_expires_at c
}.

(** The native resource a checkpoint knows of. *)
Definition native_id (c : Checkpoint) : option pystr := ck_lease c ≫= el_provider_resource_id.

Record evolves (c c' : Checkpoint) : Prop := Evolves {
  ev_facts : same_facts c c';
  ev_sequence : ck_sequence c <= ck_sequence c' /\ (ck_sequence c = ck_sequence c' -> c = c');
  ev_preparation : forall d, ck_preparation_sha256 c = Some d -> ck_preparation_sha256 c' = Some d;
  ev_lease : forall l, ck_lease c = Some l ->
             exists l', ck_lease c' = Some l' /\ el_lease_id l' = el_lease_id l;
  ev_native : forall n, native_id c = Some n -> native_id c' = Some n
}.

#[global] Instance evolves_preorder : PreOrder evolves.
Proof.
  split.
  - intros c. split; [done|split; [lia|done]|done|eauto|done].
  - intros a b c [[] [Hs Hse] Hp Hl Hn] [[] [Hs' Hse'] Hp' Hl' Hn']. split.
    + split; congruence.
    + split; [lia|]. intros Heq. rewrite Hse by lia. apply Hse'. lia.
    + eauto.
    + intros l Hal. destruct (Hl l Hal) as (l1 & Hb & He). destruct (Hl' l1 Hb) as (l2 & Hc & He').
      exists l2. split; [done|congruence].
    + eauto.
Qed.

Lemma keeps_custody_spec old new :
  keeps_custody old new = true ->
  el_lease_id new = el_lease_id old /\ dt_eqb (el_expires_at new) (el_expires_at old) = true
  /\ forall n, el_provider_resource_id old = Some n -> el_provider_resource_id new = Some n.
Proof.
  unfold keeps_custody. intros H. bool_hyps. split_and!; [done..|]. intros n Hn.
  apply orb_true_iff in H0 as [H0|H0]; bool_hyps; congruence.
Qed.

Lemma native_fact_evolves c st l c' : valid c -> native_fact c st l = Ok c' -> evolves c c'.
Proof.
  intros Hv Ha. apply native_fact_Ok in Ha as (_ & _ & Hk & -> & _); [|done].
  split; [done|cbn; lia|done| |].
  - intros l0 Hl. destruct (Hk l0 Hl) as (l' & ? & ?%keeps_custody_spec). cbn in *. naive_solver.
  - unfold native_id. cbn. intros n Hn. destruct (ck_lease c) as [l0|] eqn:Hl; [|done].
    destruct (Hk l0 eq_refl) as (l' & Hl' & Hc%keeps_custody_spec). cbn in Hl'. rewrite Hl'. cbn in *. naive_solver.
Qed.

Lemma step_evolves c c' : valid c -> step c c' -> evolves c c'.
Proof.
  intros Hv Hs. destruct Hs as [c p c' Hp|c c' Hd|c l c' Ha|c l c' Ha]; [| |by eapply native_fact_evolves..].
  - apply prepared_Ok in Hp as [_ Hp]; [|done]. destruct (ck_preparation_sha256 c) as [d|] eqn:Hd.
    { by destruct Hp as [_ ->]. }
    subst c'. split; [done|cbn; lia|congruence|eauto|done].
  - apply dispatched_Ok in Hd as [Hst ->]; [|done]. split; [done|cbn; lia|done|eauto|done].
Qed.

Lemma steps_evolve c c' : valid c -> rtc step c c' -> valid c' /\ evolves c c'.
Proof.
  intros Hv Hs. induction Hs as [c|a b c Hab _ IH]; [done|].
  destruct (IH (step_valid _ _ Hv Hab)) as [Hc Hev]. split; [done|].
  etransitivity; [by apply step_evolves|done].
Qed.

(** ** One durable row, many writers *)

Inductive op : Type :=
| OpPrepare (p : EnvironmentAcquisitionPreparation)
| OpDispatch
| OpAccept (l : EnvironmentLease)
| OpUnknown (l : option EnvironmentLease).

(** The transition a writer computes from the checkpoint it has read. *)
Definition candidate (o : op) (snapshot : Checkpoint) : res Checkpoint :=
  match o with
  | OpPrepare p => prepared sha256 snapshot p
  | OpDispatch => dispatched snapshot
  | OpAccept l => accepted snapshot l
  | OpUnknown l => unknown snapshot l
  end.

Lemma candidate_step o c c' : candidate o c = Ok c' -> step c c'.
Proof. destruct o; cbn; [apply step_prepared|apply step_dispatched|apply step_accepted|apply step_unknown]. Qed.

Definition is_dispatch (o : op) : bool := match o with OpDispatch => true | _ => false end.
Definition is_native_fact (o : op) : bool := match o with OpAccept _ | OpUnknown _ => true | _ => false end.

(** [cas row snapshot new]: whether the host's compare-and-swap won, and the
    row it leaves. *)
Variable cas : Checkpoint -> Checkpoint -> Checkpoint -> bool * Checkpoint.

(** The operations that won, for writers that arrive in some order, each with
    the checkpoint it read earlier. *)
Fixpoint winners (row : Checkpoint) (attempts : list (Checkpoint * op)) : list op :=
  match attempts with
  | [] => []
  | (snapshot, o) :: rest =>
      match candidate o snapshot with
      | Raise _ => winners row rest
      | Ok new =>
          let '(won, row') := cas row snapshot new in
          if won then o :: winners row' rest else winners row' rest
      end
  end.

Definition cas_correct : Prop :=
  forall row snapshot new,
    match cas row snapshot new with
    | (true, row') => row = snapshot /\ row' = new
    | (false, row') => row' = row
    end.

Lemma candidate_states o c c' :
  valid c -> candidate o c = Ok c' ->
  (is_dispatch o = true -> ck_state c = Prepared /\ ck_state c' = Dispatching)
  /\ (is_native_fact o = true -> ck_state c ∈ dispatched_states)
  /\ (ck_state c ∈ dispatched_states -> ck_state c' ∈ dispatched_states)
  /\ (ck_state c' ∈ dispatched_states -> is_dispatch o = false -> ck_state c ∈ dispatched_states).
Proof.
  intros Hv H. destruct o as [p| |l|l]; cbn in H.
  - apply prepared_Ok in H as [_ H]; [|done]. destruct (valid_facts c Hv) as (_ & _ & Hc).
    apply correlated_Ok in Hc as (H1 & _).
    destruct (ck_preparation_sha256 c) as [d|]; [by destruct H as [_ ->]|subst].
    split_and!; [done|done| |cbn; set_solver]. cbn. rewrite (proj2 H1) by done. set_solver.
  - apply dispatched_Ok in H as [Hst ->]; [|done]. split_and!; [done|done|cbn; set_solver|done].
  - apply native_fact_Ok in H as (Hd & _ & _ & -> & _); [|done]. split_and!; [done|done| |done].
    cbn. set_solver.
  - apply native_fact_Ok in H as (Hd & _ & _ & -> & _); [|done]. split_and!; [done|done| |done].
    cbn. set_solver.
Qed.

Definition dispatches (l : list op) : nat := length (filter (fun o => is_dispatch o = true) l).

Lemma winners_dispatched row attempts :
  cas_correct -> valid row -> ck_state row ∈ dispatched_states ->
  dispatches (winners row attempts) = 0%nat.
Proof.
  intros Hcas. revert row. induction attempts as [|[snap o] rest IH]; intros row Hv Hst; [done|].
  cbn [winners]. destruct (candidate o snap) as [new|e] eqn:Hc; [|by apply IH].
  specialize (Hcas row snap new). destruct (cas row snap new) as [[] row']; [|by subst; apply IH].
  destruct Hcas as [-> ->]. destruct (candidate_states _ _ _ Hv Hc) as (Hd & _ & Hk & _).
  assert (Ho : is_dispatch o = false).
  { destruct (is_dispatch o); [|done]. destruct Hd as [Hp _]; [done|]. rewrite Hp in Hst. set_solver. }
  unfold dispatches. rewrite filter_cons_False by congruence.
  apply IH; [by eapply step_valid, candidate_step|auto].
Qed.

Lemma winners_undispatched row attempts :
  cas_correct -> valid row -> ck_state row ∉ dispatched_states ->
  (dispatches (winners row attempts) <= 1)%nat
  /\ forall pre o post, winners row attempts = pre ++ o :: post -> is_native_fact o = true ->
       OpDispatch ∈ pre.
Proof.
  intros Hcas. revert row. induction attempts as [|[snap o] rest IH]; intros row Hv Hst.
  { split; [cbn; lia|]. intros pre o post H. by destruct pre. }
  cbn [winners]. destruct (candidate o snap) as [new|e] eqn:Hc; [|by apply IH].
  pose proof (Hcas row snap new) as Hrow. destruct (cas row snap new) as [[] row']; [|by subst; apply IH].
  destruct Hrow as [-> ->]. destruct (candidate_states _ _ _ Hv Hc) as (Hd & Hn & _ & Hk).
  assert (Hv' : valid new) by by eapply step_valid, candidate_step.
  destruct (is_dispatch o) eqn:Ho.
  - destruct (Hd eq_refl) as [_ Hst']. destruct o; try done. split.
    + unfold dispatches. rewrite filter_cons_True by done. cbn. fold (dispatches (winners new rest)).
      rewrite winners_dispatched; [done|done|done|rewrite Hst'; set_solver].
    + intros [|x pre] o' post H Hf; cbn in H; injection H as <- H; [done|]. set_solver.
  - assert (Hst' : ck_state new ∉ dispatched_states) by (intros ?; by apply Hst, Hk).
    destruct (IH new Hv' Hst') as [IH1 IH2]. split.
    + unfold dispatches. rewrite filter_cons_False by congruence. done.
    + intros [|x pre] o' post H Hf; cbn in H; injection H as -> H; [by destruct Hst; apply Hn|].
      apply elem_of_cons. right. by eapply IH2.
Qed.
End Transitions.

(** ** What the digests bind *)

Lemma to_bytes_big_length k n : length (to_bytes_big k n) = k.
Proof. revert n; induction k as [|k IH]; intros n; [done|]. cbn. rewrite length_app, IH. cbn. lia. Qed.

Lemma to_bytes_big_inj k a b :
  0 <= a < 256 ^ Z.of_nat k -> 0 <= b < 256 ^ Z.of_nat k -> to_bytes_big k a = to_bytes_big k b -> a = b.
Proof.
  revert a b; induction k as [|k IH]; intros a b; [cbn; lia|].
  rewrite Nat2Z.inj_succ, Z.pow_succ_r by lia. cbn [to_bytes_big]. intros Ha Hb H.
  apply app_inj_2 in H as [H1 [= H2]]; [|done].
  assert (a / 256 = b / 256); [apply IH; [Z.to_euclidean_division_equations; lia..|done]|].
  Z.to_euclidean_division_equations; lia.
Qed.

Lemma framed_inj a b r r' :
  len a < 2 ^ 64 -> len b < 2 ^ 64 -> framed a ++ r = framed b ++ r' -> a = b /\ r = r'.
Proof.
  intros Ha Hb H. unfold framed in H. rewrite <- !app_assoc in H.
  apply app_split in H as [Hl H]; [|by rewrite !to_bytes_big_length].
  change (2 ^ 64) with (256 ^ Z.of_nat 8) in *.
  apply to_bytes_big_inj in Hl; [|split; [apply len_nonneg|done]..].
  apply app_split in H; [done|]. unfold len in Hl. lia.
Qed.

Lemma preparation_encoding_inj p q :
  validate_preparation p = Ok p -> validate_preparation q = Ok q ->
  preparation_encoding p = preparation_encoding q -> p = q.
Proof.
  unfold MAX_ACQUISITION_CREATE_BYTES, MAX_ACQUISITION_IDENTITY_BYTES.
  intros (_ & He1 & He2 & Hl1 & Hl2)%validate_preparation_Ok (_ & Hf1 & Hf2 & Hm1 & Hm2)%validate_preparation_Ok H.
  unfold MAX_ACQUISITION_CREATE_BYTES, MAX_ACQUISITION_IDENTITY_BYTES in *.
  unfold preparation_encoding in H. apply app_inv_head, app_inv_head in H.
  apply framed_inj in H as [Hc H]; [|lia..].
  rewrite <- (app_nil_r (framed (sb_raw (pr_worker_identity p)))), <- (app_nil_r (framed (sb_raw (pr_worker_identity q)))) in H.
  apply framed_inj in H as [Hi _]; [|lia..].
  destruct p as [[] []], q as [[] []]; cbn in *. congruence.
Qed.

Record quote_wf (q : EnvironmentQuote) : Prop := QuoteWf {
  qw_valid : validate_quote q = Ok q;
  qw_expires : datetime_wf (eq_expires_at q);
  qw_hourly : dec_wf (eq_hourly_cost_usd q);
  qw_total : dec_wf (eq_estimated_total_cost_usd q)
}.

(** The two quotes make the same offer. *)
Record same_quote (a b : EnvironmentQuote) : Prop := SameQuote {
  so_quote_id : eq_quote_id a = eq_quote_id b;
  so_request_id : eq_request_id a = eq_request_id b;
  so_request_sha256 : eq_request_sha256 a = eq_request_sha256 b;
  so_scope : eq_scope a = eq_scope b;
  so_provider : eq_provider_id a = eq_provider_id b;
  so_location : eq_location a = eq_location b;
  so_region : eq_region a = eq_region b;
  so_expires : instant (eq_expires_at a) = instant (eq_expires_at b);
  so_hourly : dec_str (eq_hourly_cost_usd a) = dec_str (eq_hourly_cost_usd b);
  so_total : dec_str (eq_estimated_total_cost_usd a) = dec_str (eq_estimated_total_cost_usd b);
  so_capabilities : eq_capabilities a = eq_capabilities b
}.

Lemma surface_value_inj : Inj (=) (=) surface_value.
Proof. by intros [] []; vm_compute. Qed.

Lemma location_value_inj : Inj (=) (=) location_value.
Proof. by intros [] []; vm_compute. Qed.

Lemma capabilities_json_inj a b : sort_keys (capabilities_json a) = sort_keys (capabilities_json b) -> a = b.
Proof.
  intros H. apply sort_keys_members in H; [|done|by apply (bool_decide_unpack _); vm_compute].
  rewrite !list.Forall2_cons in H. cbn [snd] in H. rewrite !sort_keys_strings in H. cbn [sort_keys] in H.
  destruct H as (_ & Hp & Hl & Hs & Ho & Hpp & Hc & _).
  injection Hp as Hp. injection Hl as Hl%location_value_inj. injection Hs as Hs%strings_inj.
  injection Ho as Ho%strings_inj. injection Hpp as Hpp. injection Hc as Hc.
  apply (sorted_values_inj _ _ _ surface_value_inj) in Hs.
  apply (sorted_values_inj _ _ _ capability_value_inj) in Ho.
  destruct a, b; cbn in *. congruence.
Qed.

Lemma wire_capabilities c c' : validate_capabilities c = Ok c' -> wire_json (capabilities_json c).
Proof.
  unfold validate_capabilities. intros H. inv_ok. apply identifier_Ok in Hm as [_ ?].
  apply wire_object; [reflexivity|].
  repeat (apply list.Forall_cons; split); try exact I; [by apply wire_str, token_ascii| | | |constructor].
  - apply wire_str. destruct (ec_location c); by apply ascii_literal.
  - apply wire_strings, sorted_values_ascii. intros []; by apply ascii_literal.
  - apply wire_strings, sorted_values_ascii. intros []; by apply ascii_literal.
Qed.

Lemma digest_ascii d x : digest_field d = Ok x -> ascii_text d.
Proof.
  unfold digest_field, image_digest. rewrite constraint_Ok, andb_true_iff, List.forallb_forall.
  intros [_ H]. apply (ascii_of is_hex_lower); [apply hex_lower_ascii|].
  apply list.Forall_forall. intros c Hc. by apply H, list_elem_of_In.
Qed.

Lemma quote_wire q expires : quote_wf q -> ascii_text expires -> wire_json (quote_payload q expires).
Proof.
  intros [Hv _ Hh Ht] He. unfold validate_quote in Hv. inv_ok.
  apply identifier_Ok in Hm as [_ ?], Hm0 as [_ ?], Hm3 as [_ ?].
  apply digest_ascii in Hm1. apply opt_identifier_Ok in Hm4 as [_ ?].
  apply wire_object; [reflexivity|].
  repeat (apply list.Forall_cons; split); try exact I; try (by apply wire_str; auto using token_ascii, ascii_dec_str).
  - by eapply wire_scope.
  - apply wire_str. destruct (eq_location q); by apply ascii_literal.
  - apply wire_opt_str. eauto using token_ascii.
  - by eapply wire_capabilities.
  - constructor.
Qed.

Lemma quote_payload_inj a b x y :
  sort_keys (quote_payload a x) = sort_keys (quote_payload b y) ->
  x = y /\ (instant (eq_expires_at a) = instant (eq_expires_at b) -> same_quote a b).
Proof.
  intros H. apply sort_keys_members in H; [|done|by apply (bool_decide_unpack _); vm_compute].
  rewrite !list.Forall2_cons in H. cbn [snd] in H.
  destruct H as (_ & Hq & Hr & Hd & Hsc & Hp & Hl & Hre & He & Hh & Ht & Hc & _).
  apply scope_json_inj in Hsc. apply opt_json_inj in Hre. apply capabilities_json_inj in Hc.
  cbn [sort_keys] in Hq, Hr, Hd, Hp, Hl, He, Hh, Ht.
  injection Hq as Hq. injection Hr as Hr. injection Hd as Hd. injection Hp as Hp.
  injection Hl as Hl%location_value_inj. injection He as He. injection Hh as Hh. injection Ht as Ht. done.
Qed.

Lemma quote_encoding_exact q1 q2 e1 e2 :
  quote_wf q1 -> quote_wf q2 -> quote_encoding q1 = Ok e1 -> quote_encoding q2 = Ok e2 ->
  e1 = e2 <-> same_quote q1 q2.
Proof.
  intros W1 W2 H1 H2. unfold quote_encoding in H1, H2. inv_ok. rename r into x2, r0 into x1.
  pose proof (canonical_same _ _ _ _ (qw_expires _ W1) (qw_expires _ W2) Hm0 Hm) as Hx.
  split.
  - intros He. apply sorted_json_bytes_inj in He; [|apply plain_sort_keys, quote_wire; eauto using canonical_ascii..].
    apply quote_payload_inj in He as [-> Hs]. by apply Hs, Hx.
  - intros Hs. assert (x1 = x2) as -> by (apply Hx, Hs). f_equal. destruct Hs. unfold quote_payload. congruence.
Qed.

Section Binding.
Context (sha256 : list Z -> pystr).

Lemma request_wire r : validate_request r = Ok r -> wire_datetime (er_expires_at r) = Ok (er_expires_at r).
Proof.
  unfold validate_request. intros H. inv_ok. apply (f_equal er_expires_at) in H. cbn in H. congruence.
Qed.

Lemma request_digest_same r r' d :
  request_wf r -> request_wf r' -> request_digest sha256 r = Ok d -> request_digest sha256 r' = Ok d ->
  (forall e1 e2, request_encoding r = Ok e1 -> request_encoding r' = Ok e2 -> sha256 e1 = sha256 e2 -> e1 = e2) ->
  same_request r r'.
Proof.
  intros W W' (e1 & E1 & [= H1])%bind_Ok (e2 & E2 & [= H2])%bind_Ok Hn.
  apply (request_encoding_exact r r' e1 e2); [done..|]. apply Hn; congruence.
Qed.

Lemma quote_digest_same q q' d :
  quote_wf q -> quote_wf q' -> quote_digest sha256 q = Ok d -> quote_digest sha256 q' = Ok d ->
  (forall e1 e2, quote_encoding q = Ok e1 -> quote_encoding q' = Ok e2 -> sha256 e1 = sha256 e2 -> e1 = e2) ->
  same_quote q q'.
Proof.
  intros W W' (e1 & E1 & [= H1])%bind_Ok (e2 & E2 & [= H2])%bind_Ok Hn.
  apply (quote_encoding_exact q q' e1 e2); [done..|]. apply Hn; congruence.
Qed.

Lemma from_original_Ok a r q c :
  validate_request r = Ok r -> validate_quote q = Ok q -> from_original sha256 a r q = Ok c ->
  exists d qd, request_digest sha256 r = Ok d /\ quote_matches q r d = true /\ quote_digest sha256 q = Ok qd
    /\ valid c
    /\ c = MkCheckpoint a (er_request_id r) d (eq_quote_id q) qd (er_scope r) (er_provider_id r)
             (er_location r) (er_expires_at r) 0 Unprepared None None.
Proof.
  intros Hr Hq H. unfold from_original in H. rewrite Hr in H. cbn [mbind result_bind] in H.
  rewrite Hq in H. cbn [mbind result_bind] in H. inv_ok. bool_hyps.
  apply validate_checkpoint_idem in H as Hv.
  apply validate_checkpoint_fixed in H as ->; [|by apply request_wire|done]. eauto 10.
Qed.

Lemma same_original_refl c c' : same_facts c c' -> same_original c' c = true.
Proof.
  intros []. unfold same_original. rewrite fa_expires0, dt_eqb_refl. rewrite !bool_decide_eq_true_2 by done. done.
Qed.
End Binding.

(** ** The development's main properties *)

(** C15. Custody is never lost.  From a valid checkpoint, whatever the
    transitions, the checkpoint stays valid; the original facts never change;
    the sequence grows with every change; a preparation digest, a lease
    identity and a known native resource are never dropped or replaced; and a
    recorded lease belongs to the original acquisition, is not released and
    does not outlive its expiry. *)
Theorem checkpoint_custody sha256 c c'
    (Hsha : forall b, image_digest (sha256 b) = true)
    (Hv : valid c) (Hs : rtc (step sha256) c c') :
  valid c' /\ evolves c c'
  /\ forall l, ck_lease c' = Some l ->
       lease_correlated c l = true /\ el_state l <> EReleased
       /\ dt_ltb (ck_expires_at c) (el_expires_at l) = false.
Proof.
  destruct (steps_evolve sha256 Hsha c c' Hv Hs) as [Hv' He]. split_and!; [done..|].
  intros l Hl. destruct (valid_facts c' Hv') as (_ & _ & Hc). apply correlated_Ok in Hc as (_ & _ & _ & Hc).
  destruct (Hc l Hl) as (H1 & H2 & H3). pose proof (ev_facts _ _ He) as Hf.
  unfold lease_correlated in *. rewrite (fa_request _ _ Hf), (fa_quote _ _ Hf), (fa_scope _ _ Hf),
    (fa_provider _ _ Hf), (fa_location _ _ Hf) in H1.
  by rewrite (fa_expires _ _ Hf) in H3.
Qed.

(** C14. One dispatch, ever.  Writers that arrive in any order, each computing
    a transition from whatever checkpoint it read and committing through the
    host's compare-and-swap of the row, win at most one dispatch; none wins
    once the row has been dispatched, and no native fact wins before the
    dispatch. *)
Theorem dispatch_at_most_once sha256 cas row attempts
    (Hsha : forall b, image_digest (sha256 b) = true)
    (Hcas : cas_correct cas) (Hv : valid row) :
  (dispatches (winners sha256 cas row attempts) <= 1)%nat
  /\ (ck_state row ∈ dispatched_states -> dispatches (winners sha256 cas row attempts) = 0%nat)
  /\ (ck_state row ∉ dispatched_states ->
      forall pre o post, winners sha256 cas row attempts = pre ++ o :: post ->
      is_native_fact o = true -> OpDispatch ∈ pre).
Proof.
  destruct (decide (ck_state row ∈ dispatched_states)) as [Hd|Hd].
  - pose proof (winners_dispatched sha256 Hsha cas row attempts Hcas Hv Hd) as H0.
    split_and!; [by rewrite H0; lia|done|done].
  - destruct (winners_undispatched sha256 Hsha cas row attempts Hcas Hv Hd) as [H1 H2]. done.
Qed.

(** A checkpoint stays bound to its original request and quote: every
    checkpoint reached from [from_original] passes [require_original] with
    that request and quote, and any other pair it passes with states the same
    constraints and the same offer, SHA-256 not colliding on their encodings. *)
Theorem original_binding sha256 a r q c c' r' q'
    (Hsha : forall b, image_digest (sha256 b) = true)
    (Wr : request_wf r) (Wq : quote_wf q) (Wr' : request_wf r') (Wq' : quote_wf q')
    (Hc : from_original sha256 a r q = Ok c) (Hs : rtc (step sha256) c c')
    (Nr : forall e1 e2, request_encoding r = Ok e1 -> request_encoding r' = Ok e2 ->
          sha256 e1 = sha256 e2 -> e1 = e2)
    (Nq : forall e1 e2, quote_encoding q = Ok e1 -> quote_encoding q' = Ok e2 ->
          sha256 e1 = sha256 e2 -> e1 = e2) :
  require_original sha256 c' r q = Ok tt
  /\ (require_original sha256 c' r' q' = Ok tt -> same_request r r' /\ same_quote q q').
Proof.
  pose proof (from_original_Ok sha256 a r q c (rw_valid _ Wr) (qw_valid _ Wq) Hc)
    as (d & qd & Hd & Hm & Hqd & Hv & Heq).
  destruct (steps_evolve sha256 Hsha c c' Hv Hs) as [Hv' [Hf _ _ _ _]].
  assert (Ha : ck_attempt_id c' = a) by (rewrite (fa_attempt _ _ Hf), Heq; done).
  unfold require_original. rewrite Hv'. cbn [mbind result_bind]. rewrite Ha. split.
  - rewrite Hc. cbn [mbind result_bind]. by rewrite same_original_refl.
  - intros H. apply bind_Ok in H as (c2 & Hc2 & H). apply raise_if_Ok in H. bool_hyps.
    apply from_original_Ok in Hc2 as (d2 & qd2 & Hd2 & _ & Hqd2 & _ & Heq2); [|apply Wr'|apply Wq'].
    unfold same_original in H. bool_hyps. destruct Hf. subst c c2.
    cbn [ck_request_sha256 ck_quote_sha256] in *. split.
    + apply (request_digest_same sha256 _ _ d); [done..| |done]. congruence.
    + apply (quote_digest_same sha256 _ _ qd); [done..| |done]. congruence.
Qed.

(** Preparation binds the exact bytes once: after a successful
    [prepared], the same payload and identity give the same checkpoint with no
    new sequence number, and any other bytes, SHA-256 not colliding on the two
    length-framed encodings, are refused as a conflict. *)
Theorem prepared_idempotent sha256 c p c1 p'
    (Hsha : forall b, image_digest (sha256 b) = true)
    (Hv : valid c) (Hp : prepared sha256 c p = Ok c1) (Hp' : validate_preparation p' = Ok p')
    (Hn : sha256 (preparation_encoding p) = sha256 (preparation_encoding p') ->
          preparation_encoding p = preparation_encoding p') :
  prepared sha256 c1 p' =
    if decide (p' = p) then Ok c1
    else Raise (ResourceConflict "acquisition preparation differs from original bytes").
Proof.
  assert (Hv1 : valid c1) by by eapply step_valid, step_prepared.
  apply prepared_Ok in Hp as [Hvp Hp]; [|done].
  assert (Hd : ck_preparation_sha256 c1 = Some (sha256 (preparation_encoding p))).
  { destruct (ck_preparation_sha256 c) as [d|] eqn:E; [by destruct Hp as [-> ->]|by subst]. }
  unfold prepared. rewrite Hv1. cbn [mbind result_bind]. rewrite Hp'. cbn [mbind result_bind].
  unfold preparation_digest. rewrite Hp', Hd. cbn [mbind result_bind]. case_decide as Hpp.
  - subst. by rewrite bool_decide_eq_true_2.
  - rewrite bool_decide_eq_false_2; [done|]. intros He. apply Hpp. symmetry.
    by apply preparation_encoding_inj; auto.
Qed.

(** Acceptance, exactly: on a valid checkpoint a valid lease is accepted
    when the attempt has been dispatched, any recorded lease identity, expiry
    and native resource are kept, the lease is the acquisition's own, is not
    released, does not outlive the original expiry and owns a native resource;
    the next checkpoint then records that lease. *)
Theorem accepted_exact c l c'
    (Hv : valid c) (Hl : validate_env_lease l = Ok l) :
  accepted c l = Ok c' <->
  ck_state c ∈ dispatched_states
  /\ (forall old, ck_lease c = Some old -> keeps_custody old l = true)
  /\ lease_correlated c l = true /\ el_state l <> EReleased
  /\ dt_ltb (ck_expires_at c) (el_expires_at l) = false
  /\ is_Some (el_provider_resource_id l) /\ c' = with_fact c Accepted (Some l).
Proof.
  split.
  - intros H. apply native_fact_Ok in H as (Hst & Hv' & Hk & Heq & l' & Hl' & Hc'); [|done].
    rewrite Hl in Hl'. injection Hl' as <-. rewrite Hc' in Heq, Hk. subst c'.
    destruct (valid_facts _ Hv') as (_ & _ & Hc). apply correlated_Ok in Hc as (_ & _ & H3 & H4).
    destruct (H4 l eq_refl) as (? & ? & ?). split_and!; [done| |done|done|done|by apply H3|done].
    intros old Ho. by destruct (Hk old Ho) as (l' & [= <-] & ?).
  - intros (Hst & Hk & Hc & Hr & He & Hid & ->). unfold accepted, native_fact. rewrite Hv.
    cbn [mbind result_bind]. ok_guard ltac:(by rewrite (proj2 (mem_true _ _) Hst)).
    rewrite Hl. cbn [mbind result_bind]. apply bind_Ok. exists tt. split.
    { destruct (ck_lease c) as [old|]; [|done]. by rewrite Hk. }
    apply valid_update; [done| | | |].
    + pose proof (valid_sequence c Hv). lia.
    + by apply valid_preparation.
    + apply opt_check_Ok. eauto.
    + destruct (valid_facts c Hv) as (_ & _ & Hcf). apply correlated_Ok in Hcf as (H1 & _).
      apply correlated_Ok. cbn. split_and!; [|set_solver|done|by intros ? [= <-]].
      split; [done|]. intros Hn. apply H1 in Hn. rewrite Hn in Hst. set_solver.
Qed.

(** ** A concrete attempt *)

(** A stand-in for SHA-256: one hexadecimal letter, repeated. *)
Definition sample_hash (b : list Z) : pystr := replicate 64 (97 + foldr Z.add 0 b mod 6).

Lemma sample_hash_hex b : image_digest (sample_hash b) = true.
Proof.
  unfold sample_hash. set (x := 97 + foldr Z.add 0 b mod 6).
  assert (Hx : is_hex_lower x = true).
  { unfold is_hex_lower, in_range. pose proof (Z.mod_pos_bound (foldr Z.add 0 b) 6 ltac:(lia)).
    apply orb_true_iff. right. unfold x. lia. }
  unfold image_digest. cbn. by rewrite Hx.
Qed.

Definition sample_req : EnvironmentRequest := sample_request utc_eleven {[CScreenshot]}.

Definition sample_quote : EnvironmentQuote :=
  MkEnvQuote (u "quote-1") (u "req-1")
    (match request_digest sample_hash sample_req with Ok d => d | Raise _ => [] end)
    sample_scope (u "azure") REMOTE None (utc_datetime (738000 * day_us + 13 * hour_us))
    (DecFin false 1 0) (DecFin false 9 0)
    (MkCapabilities (u "azure") REMOTE {[DESKTOP]} {[CScreenshot; CClick]} false true).

Definition sample_checkpoint : Checkpoint :=
  match from_original sample_hash (u "attempt-1") sample_req sample_quote with
  | Ok c => c
  | Raise _ => MkCheckpoint [] [] [] [] [] sample_scope [] LOCAL (utc_datetime 0) 0 Unprepared None None
  end.

Definition sample_preparation (b : Z) : EnvironmentAcquisitionPreparation :=
  MkPreparation (MkSecretBytes true [1; 2; b]) (MkSecretBytes true [7]).

Definition sample_lease : EnvironmentLease :=
  MkEnvLease (u "lease-1") (u "req-1") (u "quote-1") sample_scope (u "azure") REMOTE EReady
    (utc_datetime (738000 * day_us + 19 * hour_us)) (Some (u "/vm/1")) None None.

(** The checkpoint after each of the given operations, in order. *)
Definition after (c : Checkpoint) (ops : list op) : Checkpoint :=
  foldl (fun c o => match candidate sample_hash o c with Ok c' => c' | Raise _ => c end) c ops.

Definition sample_ops : list op := [OpPrepare (sample_preparation 3); OpDispatch; OpUnknown None; OpAccept sample_lease].

Lemma after_steps c ops : rtc (step sample_hash) c (after c ops).
Proof.
  revert c; induction ops as [|o ops IH]; intros c; [apply rtc_refl|]. cbn [after foldl].
  destruct (candidate sample_hash o c) as [c'|] eqn:Hc; [|apply IH].
  eapply rtc_l; [by eapply candidate_step|apply IH].
Qed.

Lemma sample_checkpoint_from : from_original sample_hash (u "attempt-1") sample_req sample_quote = Ok sample_checkpoint.
Proof. vm_compute. reflexivity. Qed.

Lemma sample_checkpoint_valid : valid sample_checkpoint.
Proof. vm_compute. reflexivity. Qed.

Lemma checkpoint_custody_witness :
  ck_sequence (after sample_checkpoint sample_ops) = 4
  /\ native_id (after sample_checkpoint sample_ops) = Some (u "/vm/1")
  /\ evolves sample_checkpoint (after sample_checkpoint sample_ops).
Proof.
  split; [vm_compute; reflexivity|]. split; [vm_compute; reflexivity|].
  apply (checkpoint_custody sample_hash).
  - apply sample_hash_hex.
  - apply sample_checkpoint_valid.
  - apply after_steps.
Defined.

(** A compare-and-swap that compares whole rows. *)
Definition row_cas (row snapshot new : Checkpoint) : bool * Checkpoint :=
  if decide (row = snapshot) then (true, new) else (false, row).

Lemma row_cas_correct : cas_correct row_cas.
Proof. intros row snapshot new. unfold row_cas. by case_decide. Qed.

(** Two workers prepare the same bytes, and both read the prepared row before
    either dispatches. *)
Definition racing : list (Checkpoint * op) :=
  let c1 := after sample_checkpoint [OpPrepare (sample_preparation 3)] in
  [(sample_checkpoint, OpPrepare (sample_preparation 3)); (c1, OpDispatch); (c1, OpDispatch);
   (after c1 [OpDispatch], OpAccept sample_lease)].

Lemma dispatch_at_most_once_witness :
  dispatches (winners sample_hash row_cas sample_checkpoint racing) = 1%nat
  /\ (dispatches (winners sample_hash row_cas sample_checkpoint racing) <= 1)%nat.
Proof.
  split; [vm_compute; reflexivity|].
  apply (dispatch_at_most_once sample_hash row_cas sample_checkpoint racing).
  - apply sample_hash_hex.
  - apply row_cas_correct.
  - apply sample_checkpoint_valid.
Defined.

Lemma sample_quote_wf : quote_wf sample_quote.
Proof.
  split; [vm_compute; reflexivity| |by cbn|by cbn]. split; [vm_compute; split; discriminate|done].
Qed.

Lemma original_binding_witness :
  require_original sample_hash (after sample_checkpoint sample_ops) sample_req sample_quote = Ok tt.
Proof.
  apply (original_binding sample_hash (u "attempt-1") sample_req sample_quote sample_checkpoint
           (after sample_checkpoint sample_ops) sample_req sample_quote).
  - apply sample_hash_hex.
  - apply sample_request_wf; [by right|set_solver].
  - apply sample_quote_wf.
  - apply sample_request_wf; [by right|set_solver].
  - apply sample_quote_wf.
  - apply sample_checkpoint_from.
  - apply after_steps.
  - intros e1 e2 E1 E2 _. congruence.
  - intros e1 e2 E1 E2 _. congruence.
Defined.

Lemma prepared_idempotent_witness :
  let c1 := after sample_checkpoint [OpPrepare (sample_preparation 3)] in
  prepared sample_hash c1 (sample_preparation 4)
  = Raise (ResourceConflict "acquisition preparation differs from original bytes").
Proof.
  intros c1. assert (Hne : sample_preparation 4 <> sample_preparation 3) by discriminate.
  assert (H : prepared sample_hash sample_checkpoint (sample_preparation 3) = Ok c1) by (vm_compute; reflexivity).
  rewrite (prepared_idempotent sample_hash sample_checkpoint (sample_preparation 3) c1 (sample_preparation 4)).
  - by rewrite decide_False.
  - apply sample_hash_hex.
  - apply sample_checkpoint_valid.
  - exact H.
  - vm_compute; reflexivity.
  - intros He. exfalso. vm_compute in He. discriminate He.
Defined.

Lemma accepted_exact_witness :
  let c := after sample_checkpoint [OpPrepare (sample_preparation 3); OpDispatch] in
  accepted c sample_lease = Ok (with_fact c Accepted (Some sample_lease)).
Proof.
  intros c. apply (accepted_exact c sample_lease).
  - vm_compute; reflexivity.
  - vm_compute; reflexivity.
  - split; [apply (bool_decide_unpack _); vm_compute; reflexivity|].
    split; [intros old Ho; vm_compute in Ho; discriminate Ho|].
    split; [vm_compute; reflexivity|]. split; [discriminate|]. split; [vm_compute; reflexivity|].
    split; [exists (u "/vm/1"); reflexivity|reflexivity].
Defined.
