(* ===== verification/HumanControl.v ===== *)
(** * Human control ([computer_use/human_control.py])

    The records of an authenticated human consumer and the correlation checks
    the driver and the host apply at an effect.  An observation's pixels are
    in [ComputerSession]; the [HumanControl] protocol has no body. *)

From stdpp Require Import gmap sorting.
From S2P Require Export ComputerSession ComputerUseProps.

(** [HumanCapability] *)
Definition human_capabilities : list ComputerCapability :=
  [CScreenshot; CClick; CType; CKey; CScroll; CWait; CNavigate].

(** [_aware] *)
Definition check_aware (at_ : dyn datetime) : res datetime :=
  match at_ with
  | Inst d => if is_naive d then Raise (ValueError "a trusted timezone-aware current time is required") else Ok d
  | Foreign => Raise (ValueError "a trusted timezone-aware current time is required")
  end.

(** ** Requests *)

Record HumanControlRequest := MkHumanRequest {
  hr_control_id : pystr;
  hr_scope : ResourceScope;
  hr_session_id : pystr;
  hr_lease_id : pystr;
  hr_driver_id : pystr;
  hr_consumer_id : pystr;
  hr_control_epoch : Z;
  hr_issued_at : datetime;
  hr_expires_at : datetime;
  hr_capabilities : gset ComputerCapability;
  hr_max_frame_age_seconds : Z
}.

Definition validate_human_request (r : HumanControlRequest) : res HumanControlRequest :=
  c ← identifier (hr_control_id r);
  sc ← validate_scope (hr_scope r);
  s ← identifier (hr_session_id r);
  l ← identifier (hr_lease_id r);
  d ← identifier (hr_driver_id r);
  co ← identifier (hr_consumer_id r);
  _ ← non_negative (hr_control_epoch r);
  issued ← wire_datetime (hr_issued_at r);
  expires ← wire_datetime (hr_expires_at r);
  _ ← constraint (forallb (fun c => mem c human_capabilities) (elements (hr_capabilities r))) "literal_error";
  _ ← positive_field (hr_max_frame_age_seconds r);
  let lifetime := dt_sub expires issued in
  _ ← raise_if ((lifetime <=? 0) || exceeds_total_seconds (hr_max_frame_age_seconds r) lifetime)
        (ValidationError "human frame/lifetime bounds are inconsistent");
  _ ← raise_if (negb (bool_decide (CScreenshot ∈ hr_capabilities r)))
        (ValidationError "human control requires screenshot capability");
  Ok (MkHumanRequest c sc s l d co (hr_control_epoch r) issued expires (hr_capabilities r)
        (hr_max_frame_age_seconds r)).

Definition human_request_payload (r : HumanControlRequest) (issued expires : pystr) : fjson :=
  FMap [(u "schema_version", FInt 1);
        (u "control_id", FStr (hr_control_id r));
        (u "scope", scope_json (hr_scope r));
        (u "session_id", FStr (hr_session_id r));
        (u "lease_id", FStr (hr_lease_id r));
        (u "driver_id", FStr (hr_driver_id r));
        (u "consumer_id", FStr (hr_consumer_id r));
        (u "control_epoch", FInt (hr_control_epoch r));
        (u "issued_at", FStr issued);
        (u "expires_at", FStr expires);
        (u "capabilities", FTuple (FStr <$> sorted_capabilities (hr_capabilities r)));
        (u "max_frame_age_seconds", FInt (hr_max_frame_age_seconds r))].

Definition human_request_encoding (r : HumanControlRequest) : res (list Z) :=
  issued ← canonical_utc_datetime (Inst (hr_issued_at r));
  expires ← canonical_utc_datetime (Inst (hr_expires_at r));
  Ok (sorted_json_bytes (human_request_payload r issued expires)).

(** [HumanControlRequest.require_session] *)
Definition require_session (self : HumanControlRequest) (session : ComputerSession) (at_ : dyn datetime)
    : res unit :=
  now ← check_aware at_;
  _ ← raise_if (negb (bool_decide (hr_scope self = cs_scope session)
                      && bool_decide (hr_session_id self = cs_session_id session)
                      && bool_decide (hr_lease_id self = cs_lease_id session)
                      && bool_decide (hr_driver_id self = cs_driver_id session)
                      && (hr_control_epoch self =? cs_control_epoch session)))
        (ValueError "human lease belongs to another owner/session/epoch");
  _ ← raise_if (negb (bool_decide (cs_state session = SPaused)) || negb (bool_decide (cs_controller session = HumanCtl)))
        (ValueError "human control requires a paused human session");
  _ ← raise_if (negb (bool_decide (CTakeover ∈ cs_capabilities session))
                || negb (bool_decide (hr_capabilities self ⊆ cs_capabilities session)))
        (ValueError "human capabilities exceed the admitted session");
  raise_if (negb (dt_leb (hr_issued_at self) now && dt_ltb now (hr_expires_at self)
                  && dt_leb (hr_expires_at self) (cs_expires_at session)))
    (ValueError "human lease is outside its fixed lifetime").

(** ** Leases *)

Inductive HumanLeaseState : Type := HActive | HRevoking | HRevoked | HUnknown.

#[global] Instance HumanLeaseState_eq_dec : EqDecision HumanLeaseState.
Proof. solve_decision. Defined.

Record HumanControlLease := MkHumanLease {
  hl_request : HumanControlRequest;
  hl_request_sha256 : pystr;
  hl_state : HumanLeaseState;
  hl_accepted_at : datetime;
  hl_revoked_at : option datetime
}.

(** ** Frames, actions, receipts *)

Record HumanScreenFrame := MkHumanFrame {
  hf_control_id : pystr;
  hf_consumer_id : pystr;
  hf_frame : ScreenFrame
}.

Record HumanScreenObservation := MkHumanObservation {
  ho_control_id : pystr;
  ho_consumer_id : pystr;
  ho_observation : ScreenObservation
}.

(** [HumanScreenObservation.frame_record] *)
Definition frame_record (o : HumanScreenObservation) : HumanScreenFrame :=
  MkHumanFrame (ho_control_id o) (ho_consumer_id o) (so_frame (ho_observation o)).

Record HumanActionRequest := MkHumanAction {
  ha_control_id : pystr;
  ha_consumer_id : pystr;
  ha_action : ActionRequest
}.

Definition button_value (b : Button) : pystr :=
  match b with LeftButton => u "left" | MiddleButton => u "middle" | RightButton => u "right" end.

(** [model_dump(mode="json")] of an action. *)
Definition action_json (a : ComputerAction) : fjson :=
  match a with
  | Click x y b => FMap [(u "schema_version", FInt 1); (u "kind", FStr (u "click")); (u "x", FInt x);
                         (u "y", FInt y); (u "button", FStr (button_value b))]
  | TypeText t => FMap [(u "schema_version", FInt 1); (u "kind", FStr (u "type")); (u "text", FStr t)]
  | Key k => FMap [(u "schema_version", FInt 1); (u "kind", FStr (u "key")); (u "key", FStr k)]
  | Scroll dx dy => FMap [(u "schema_version", FInt 1); (u "kind", FStr (u "scroll"));
                          (u "delta_x", FInt dx); (u "delta_y", FInt dy)]
  | Wait ms => FMap [(u "schema_version", FInt 1); (u "kind", FStr (u "wait")); (u "milliseconds", FInt ms)]
  | Navigate url => FMap [(u "schema_version", FInt 1); (u "kind", FStr (u "navigate")); (u "url", FStr url)]
  end.

Definition action_request_json (r : ActionRequest) (not_after : pystr) : fjson :=
  FMap [(u "schema_version", FInt 1);
        (u "action_id", FStr (ar_action_id r));
        (u "session_id", FStr (ar_session_id r));
        (u "observation_id", FStr (ar_observation_id r));
        (u "control_epoch", FInt (ar_control_epoch r));
        (u "not_after", FStr not_after);
        (u "action", action_json (ar_action r))].

Definition human_action_payload (r : HumanActionRequest) (not_after : pystr) : fjson :=
  FMap [(u "schema_version", FInt 1);
        (u "control_id", FStr (ha_control_id r));
        (u "consumer_id", FStr (ha_consumer_id r));
        (u "action", action_request_json (ha_action r) not_after)].

Definition human_action_encoding (r : HumanActionRequest) : res (list Z) :=
  not_after ← canonical_utc_datetime (Inst (ar_not_after (ha_action r)));
  Ok (sorted_json_bytes (human_action_payload r not_after)).

Record HumanActionReceipt := MkHumanReceipt {
  hc_control_id : pystr;
  hc_consumer_id : pystr;
  hc_receipt : ActionReceipt
}.

(** [HumanActionReceipt.require_request] *)
Definition receipt_require_request (self : HumanActionReceipt) (request : HumanActionRequest) : res unit :=
  let receipt := hc_receipt self in let action := ha_action request in
  raise_if (negb (bool_decide (hc_control_id self = ha_control_id request)
                  && bool_decide (hc_consumer_id self = ha_consumer_id request)
                  && bool_decide (rc_action_id receipt = ar_action_id action)
                  && bool_decide (rc_session_id receipt = ar_session_id action)
                  && bool_decide (rc_observation_id receipt = ar_observation_id action)
                  && (rc_control_epoch receipt =? ar_control_epoch action)))
    (ValueError "human receipt belongs to another original action").

(** ** Revocation *)

Record HumanControlRevocation := MkRevocation {
  rv_request_id : pystr;
  rv_control_id : pystr;
  rv_session_id : pystr;
  rv_consumer_id : pystr;
  rv_control_epoch : Z
}.

#[global] Instance HumanControlRevocation_eq_dec : EqDecision HumanControlRevocation.
Proof. solve_decision. Defined.

Definition validate_revocation (r : HumanControlRevocation) : res HumanControlRevocation :=
  i ← identifier (rv_request_id r);
  c ← identifier (rv_control_id r);
  s ← identifier (rv_session_id r);
  co ← identifier (rv_consumer_id r);
  _ ← non_negative (rv_control_epoch r);
  Ok (MkRevocation i c s co (rv_control_epoch r)).

Definition revocation_payload (r : HumanControlRevocation) : fjson :=
  FMap [(u "schema_version", FInt 1);
        (u "request_id", FStr (rv_request_id r));
        (u "control_id", FStr (rv_control_id r));
        (u "session_id", FStr (rv_session_id r));
        (u "consumer_id", FStr (rv_consumer_id r));
        (u "control_epoch", FInt (rv_control_epoch r))].

Record Tombstone := MkTombstone {
  ts_request : HumanControlRevocation;
  ts_scope : ResourceScope;
  ts_lease_id : pystr;
  ts_driver_id : pystr;
  ts_fenced_at : datetime
}.

Definition validate_tombstone (t : Tombstone) : res Tombstone :=
  r ← validate_revocation (ts_request t);
  sc ← validate_scope (ts_scope t);
  l ← identifier (ts_lease_id t);
  d ← identifier (ts_driver_id t);
  fenced ← wire_datetime (ts_fenced_at t);
  Ok (MkTombstone r sc l d fenced).

(** The fenced target of a revocation: all but its request identifier. *)
Definition same_target (a b : HumanControlRevocation) : bool :=
  bool_decide (rv_control_id a = rv_control_id b) && bool_decide (rv_session_id a = rv_session_id b)
  && bool_decide (rv_consumer_id a = rv_consumer_id b) && (rv_control_epoch a =? rv_control_epoch b).

(** [HumanControlRevocationTombstone.require_revocation] *)
Definition require_revocation (self : Tombstone) (request : HumanControlRevocation)
    (session : ComputerSession) : res unit :=
  _ ← raise_if (negb (bool_decide (ts_scope self = cs_scope session)
                      && bool_decide (ts_lease_id self = cs_lease_id session)
                      && bool_decide (ts_driver_id self = cs_driver_id session)
                      && bool_decide (rv_session_id request = cs_session_id session)))
        (ValueError "human pre-open fence differs from the original retirement target");
  if bool_decide (request = ts_request self) then Ok tt
  else if same_target request (ts_request self) then
    Raise (ValueError "human pre-open fence belongs to another revocation request ID")
  else Raise (ValueError "human pre-open fence differs from the original retirement target").

Section Sha256.
(** [hashlib.sha256(data).hexdigest()] *)
Variable sha256 : list Z -> pystr.

Definition human_request_digest (r : HumanControlRequest) : res pystr :=
  encoded ← human_request_encoding r;
  Ok (sha256 encoded).

Definition human_action_digest (r : HumanActionRequest) : res pystr :=
  encoded ← human_action_encoding r;
  Ok (sha256 encoded).

Definition revocation_digest (r : HumanControlRevocation) : pystr :=
  sha256 (sorted_json_bytes (revocation_payload r)).

(** [HumanControlLease.correlated_acceptance] *)
Definition correlated_acceptance (request : HumanControlRequest) (digest : pystr) (st : HumanLeaseState)
    (accepted_at : datetime) (revoked_at : option datetime) : res unit :=
  d ← wrap (human_request_digest request);
  _ ← raise_if (negb (bool_decide (digest = d)))
        (ValidationError "human lease does not match the original request digest");
  _ ← raise_if (negb (dt_leb (hr_issued_at request) accepted_at && dt_ltb accepted_at (hr_expires_at request)))
        (ValidationError "human lease acceptance is outside the requested lifetime");
  _ ← raise_if (negb (bool_decide (st = HRevoked <-> is_Some revoked_at)))
        (ValidationError "revoked requires confirmed input retirement time");
  match revoked_at with
  | Some r => raise_if (dt_ltb r accepted_at) (ValidationError "input retirement precedes acceptance")
  | None => Ok tt
  end.

Definition validate_human_lease (l : HumanControlLease) : res HumanControlLease :=
  r ← validate_human_request (hl_request l);
  _ ← digest_field (hl_request_sha256 l);
  acc ← wire_datetime (hl_accepted_at l);
  rev ← opt_wire_datetime (hl_revoked_at l);
  _ ← correlated_acceptance r (hl_request_sha256 l) (hl_state l) acc rev;
  Ok (MkHumanLease r (hl_request_sha256 l) (hl_state l) acc rev).

(** [HumanControlLease.require_request]; the chained comparison stops at the
    first difference. *)
Definition require_request (self : HumanControlLease) (request : HumanControlRequest) : res unit :=
  let err := ValueError "human control request differs from the accepted binding" in
  d ← human_request_digest request;
  _ ← raise_if (negb (bool_decide (d = hl_request_sha256 self))) err;
  d' ← human_request_digest (hl_request self);
  raise_if (negb (bool_decide (hl_request_sha256 self = d'))) err.

Definition require_active (self : HumanControlLease) (session : ComputerSession) (at_ : dyn datetime)
    : res unit :=
  _ ← require_request self (hl_request self);
  _ ← require_session (hl_request self) session at_;
  match at_ with
  | Inst now =>
      raise_if (negb (bool_decide (hl_state self = HActive)) || dt_ltb now (hl_accepted_at self))
        (ValueError "human lease is not active")
  | Foreign => Raise (TypeError "unreachable")
  end.

(** [HumanScreenFrame.require_lease] *)
Definition frame_require_lease (self : HumanScreenFrame) (lease : HumanControlLease)
    (session : ComputerSession) (at_ : dyn datetime) : res unit :=
  _ ← require_active lease session at_;
  let request := hl_request lease in let frame := hf_frame self in
  _ ← raise_if (negb (bool_decide (hf_control_id self = hr_control_id request)
                      && bool_decide (hf_consumer_id self = hr_consumer_id request)
                      && bool_decide (sf_session_id frame = hr_session_id request)
                      && (sf_control_epoch frame =? hr_control_epoch request)))
        (ValueError "human observation belongs to another consumer/session/epoch");
  match at_ with
  | Inst now =>
      _ ← raise_if (negb (dt_leb (hl_accepted_at lease) (sf_observed_at frame)
                          && dt_leb (sf_observed_at frame) now))
            (ValueError "human observation is outside the accepted lease");
      raise_if (hr_max_frame_age_seconds request * second_us <=? dt_sub now (sf_observed_at frame))
        (ValueError "human observation is stale")
  | Foreign => Raise (TypeError "unreachable")
  end.

(** [HumanScreenObservation.require_lease] *)
Definition observation_require_lease (self : HumanScreenObservation) (lease : HumanControlLease)
    (session : ComputerSession) (at_ : dyn datetime) : res unit :=
  frame_require_lease (frame_record self) lease session at_.

(** [min(a, b)] on datetimes *)
Definition dt_min (a b : datetime) : datetime := if dt_ltb b a then b else a.

(** [isinstance(action, Click) and (x >= width or y >= height)] *)
Definition click_outside (a : ComputerAction) (f : ScreenFrame) : bool :=
  match a with Click x y _ => (sf_width f <=? x) || (sf_height f <=? y) | _ => false end.

(** [HumanActionRequest.require_lease] *)
Definition action_require_lease (self : HumanActionRequest) (lease : HumanControlLease)
    (session : ComputerSession) (hframe : HumanScreenFrame) (at_ : dyn datetime) : res unit :=
  _ ← frame_require_lease hframe lease session at_;
  let request := hl_request lease in let action := ha_action self in let frame := hf_frame hframe in
  _ ← raise_if (negb (bool_decide (ha_control_id self = hr_control_id request)
                      && bool_decide (ha_consumer_id self = hr_consumer_id request)))
        (ValueError "human action belongs to another consumer lease");
  _ ← raise_if (negb (bool_decide (ar_session_id action = hr_session_id request)
                      && (ar_control_epoch action =? hr_control_epoch request)
                      && bool_decide (ar_observation_id action = sf_observation_id frame)))
        (ValueError "human action belongs to another observation/session/epoch");
  _ ← raise_if (negb (bool_decide (action_kind (ar_action action) ∈ hr_capabilities request)))
        (ValueError "human action exceeds the consumer capabilities");
  match at_ with
  | Inst now =>
      _ ← raise_if (negb (dt_ltb now (ar_not_after action)
                          && dt_leb (ar_not_after action) (dt_min (hr_expires_at request) (cs_expires_at session))
                          && (dt_sub (ar_not_after action) (sf_observed_at frame)
                              <=? hr_max_frame_age_seconds request * second_us)))
            (ValueError "human action deadline exceeds current frame/lease bounds");
      raise_if (click_outside (ar_action action) frame)
        (ValueError "human click exceeds the observed screen")
  | Foreign => Raise (TypeError "unreachable")
  end.

(** [HumanControlRevocation.require_target] *)
Definition require_target (self : HumanControlRevocation) (lease : HumanControlLease)
    (session : ComputerSession) : res unit :=
  _ ← require_request lease (hl_request lease);
  let request := hl_request lease in
  _ ← raise_if (negb (bool_decide (hr_scope request = cs_scope session)
                      && bool_decide (hr_session_id request = cs_session_id session)
                      && bool_decide (hr_lease_id request = cs_lease_id session)
                      && bool_decide (hr_driver_id request = cs_driver_id session)))
        (ValueError "human retirement belongs to another owner/session");
  raise_if (negb (bool_decide (rv_control_id self = hr_control_id request)
                  && bool_decide (rv_session_id self = hr_session_id request)
                  && bool_decide (rv_consumer_id self = hr_consumer_id request)
                  && (rv_control_epoch self =? hr_control_epoch request)))
    (ValueError "human retirement differs from the original consumer lease").
End Sha256.

(** [HumanScreenFrame], [HumanScreenObservation], [HumanActionRequest] and
    [HumanActionReceipt] as validated records. *)
Definition validate_human_frame (f : HumanScreenFrame) : res HumanScreenFrame :=
  c ← identifier (hf_control_id f);
  co ← identifier (hf_consumer_id f);
  fr ← validate_frame (hf_frame f);
  Ok (MkHumanFrame c co fr).

Definition validate_human_observation (sha256 : list Z -> pystr) (o : HumanScreenObservation)
    : res HumanScreenObservation :=
  c ← identifier (ho_control_id o);
  co ← identifier (ho_consumer_id o);
  ob ← validate_observation sha256 (ho_observation o);
  Ok (MkHumanObservation c co ob).

Definition validate_human_action (nfkc : pystr -> pystr) (r : HumanActionRequest) : res HumanActionRequest :=
  c ← identifier (ha_control_id r);
  co ← identifier (ha_consumer_id r);
  a ← validate_action_request nfkc (ha_action r);
  Ok (MkHumanAction c co a).

Definition validate_human_receipt (r : HumanActionReceipt) : res HumanActionReceipt :=
  c ← identifier (hc_control_id r);
  co ← identifier (hc_consumer_id r);
  rc ← validate_receipt (hc_receipt r);
  Ok (MkHumanReceipt c co rc).
