(* ===== verification/HumanControlProps.v ===== *)
(** * Correlation of human control

    When exactly a human action is admitted, what a retirement and a fence
    correlate with, and what the digests of the records bind. *)

From stdpp Require Import gmap.
From S2P Require Export HumanControl.

(** ** Admission *)

(** The session is the consumer's own takeover, at [now]. *)
Record session_admits (r : HumanControlRequest) (s : ComputerSession) (now : datetime) : Prop := SessionAdmits {
  sa_aware : is_naive now = false;
  sa_scope : hr_scope r = cs_scope s;
  sa_session : hr_session_id r = cs_session_id s;
  sa_lease : hr_lease_id r = cs_lease_id s;
  sa_driver : hr_driver_id r = cs_driver_id s;
  sa_epoch : hr_control_epoch r = cs_control_epoch s;
  sa_paused : cs_state s = SPaused;
  sa_human : cs_controller s = HumanCtl;
  sa_takeover : CTakeover ∈ cs_capabilities s;
  sa_subset : hr_capabilities r ⊆ cs_capabilities s;
  sa_issued : dt_leb (hr_issued_at r) now = true;
  sa_live : dt_ltb now (hr_expires_at r) = true;
  sa_session_live : dt_leb (hr_expires_at r) (cs_expires_at s) = true
}.

(** Prove a guard of equalities and tests from the facts in the context. *)
Ltac pass_guard := 
  ok_guard ltac:(repeat match goal with
    | |- negb _ = false => apply negb_false_iff
    | |- _ && _ = true => apply andb_true_iff; split
    | |- _ || _ = false => apply orb_false_iff; split
    | |- bool_decide _ = true => apply bool_decide_eq_true
    | |- (_ =? _) = true => apply Z.eqb_eq
    | |- (_ <=? _) = true => apply Z.leb_le
    | |- (_ <=? _) = false => apply Z.leb_gt
    end; (done || congruence || lia)).

Section Admission.
Context (sha256 : list Z -> pystr).

(** The lease is the accepted binding of its request, active at [now]. *)
Record lease_active (l : HumanControlLease) (s : ComputerSession) (now : datetime) : Prop := LeaseActive {
  la_bound : human_request_digest sha256 (hl_request l) = Ok (hl_request_sha256 l);
  la_session : session_admits (hl_request l) s now;
  la_state : hl_state l = HActive;
  la_accepted : dt_ltb now (hl_accepted_at l) = false
}.

(** The frame belongs to the lease, was observed under it and is fresh. *)
Record frame_admitted (f : HumanScreenFrame) (l : HumanControlLease) (s : ComputerSession) (now : datetime)
    : Prop := FrameAdmitted {
  fr_active : lease_active l s now;
  fr_control : hf_control_id f = hr_control_id (hl_request l);
  fr_consumer : hf_consumer_id f = hr_consumer_id (hl_request l);
  fr_session : sf_session_id (hf_frame f) = hr_session_id (hl_request l);
  fr_epoch : sf_control_epoch (hf_frame f) = hr_control_epoch (hl_request l);
  fr_after : dt_leb (hl_accepted_at l) (sf_observed_at (hf_frame f)) = true;
  fr_before : dt_leb (sf_observed_at (hf_frame f)) now = true;
  fr_fresh : dt_sub now (sf_observed_at (hf_frame f)) < hr_max_frame_age_seconds (hl_request l) * second_us
}.

(** The action is the consumer's, on that frame, within its capabilities,
    its deadline and the screen. *)
Record action_admitted (a : HumanActionRequest) (l : HumanControlLease) (s : ComputerSession)
    (f : HumanScreenFrame) (now : datetime) : Prop := ActionAdmitted {
  aa_frame : frame_admitted f l s now;
  aa_control : ha_control_id a = hr_control_id (hl_request l);
  aa_consumer : ha_consumer_id a = hr_consumer_id (hl_request l);
  aa_session : ar_session_id (ha_action a) = hr_session_id (hl_request l);
  aa_epoch : ar_control_epoch (ha_action a) = hr_control_epoch (hl_request l);
  aa_observation : ar_observation_id (ha_action a) = sf_observation_id (hf_frame f);
  aa_capability : action_kind (ar_action (ha_action a)) ∈ hr_capabilities (hl_request l);
  aa_deadline : dt_ltb now (ar_not_after (ha_action a)) = true;
  aa_lease_bound : dt_leb (ar_not_after (ha_action a)) (dt_min (hr_expires_at (hl_request l)) (cs_expires_at s)) = true;
  aa_age_bound : dt_sub (ar_not_after (ha_action a)) (sf_observed_at (hf_frame f))
                 <= hr_max_frame_age_seconds (hl_request l) * second_us;
  aa_click : forall x y b, ar_action (ha_action a) = Click x y b ->
             x < sf_width (hf_frame f) /\ y < sf_height (hf_frame f)
}.

Lemma check_aware_Ok at_ d : check_aware at_ = Ok d <-> at_ = Inst d /\ is_naive d = false.
Proof.
  unfold check_aware. destruct at_ as [x|]; [|naive_solver].
  destruct (is_naive x) eqn:H; split; intros Hx; try done; try (destruct Hx; congruence).
  by injection Hx as ->.
Qed.

Lemma require_session_Ok r s at_ x :
  require_session r s at_ = Ok x <-> exists now, at_ = Inst now /\ session_admits r s now.
Proof.
  unfold require_session. split.
  - intros H. inv_ok. apply check_aware_Ok in Hm as [-> Ha]. bool_hyps. eauto using SessionAdmits.
  - intros (now & -> & []). apply bind_Ok. exists now. split; [by apply check_aware_Ok|].
    pass_guard. pass_guard. pass_guard. destruct x. by rewrite sa_issued0, sa_live0, sa_session_live0.
Qed.

Lemma require_request_self l x :
  require_request sha256 l (hl_request l) = Ok x <->
  human_request_digest sha256 (hl_request l) = Ok (hl_request_sha256 l).
Proof.
  unfold require_request. split.
  - intros H. inv_ok. bool_hyps. congruence.
  - intros H. rewrite H. cbn [mbind result_bind]. rewrite bool_decide_eq_true_2 by done.
    by destruct x.
Qed.

Lemma require_active_Ok l s at_ x :
  require_active sha256 l s at_ = Ok x <-> exists now, at_ = Inst now /\ lease_active l s now.
Proof.
  unfold require_active. split.
  - intros H. inv_ok. apply require_request_self in Hm. apply require_session_Ok in Hm0 as (now & -> & Hs).
    inv_ok. bool_hyps. eauto using LeaseActive.
  - intros (now & -> & [H1 H2 H3 H4]). apply bind_Ok. exists tt. split; [by apply require_request_self|].
    apply bind_Ok. exists tt. split; [apply require_session_Ok; eauto|].
    rewrite bool_decide_eq_true_2 by done. rewrite H4. by destruct x.
Qed.

Lemma frame_require_lease_Ok f l s at_ x :
  frame_require_lease sha256 f l s at_ = Ok x <-> exists now, at_ = Inst now /\ frame_admitted f l s now.
Proof.
  unfold frame_require_lease. split.
  - intros H. inv_ok. apply require_active_Ok in Hm as (now & -> & Ha). inv_ok. bool_hyps.
    eauto using FrameAdmitted.
  - intros (now & -> & []). apply bind_Ok. exists tt. split; [apply require_active_Ok; eauto|].
    cbv zeta. pass_guard. pass_guard. apply raise_if_Ok, Z.leb_gt. done.
Qed.

Lemma click_outside_false a f :
  click_outside a f = false <-> forall x y b, a = Click x y b -> x < sf_width f /\ y < sf_height f.
Proof.
  destruct a; cbn; try (split; [by intros _ ? ? ? [=]|done]).
  rewrite orb_false_iff, !Z.leb_gt. split; [by intros ? ? ? ? [= <- <- <-]|eauto].
Qed.

Lemma action_require_lease_Ok a l s f at_ x :
  action_require_lease sha256 a l s f at_ = Ok x <-> exists now, at_ = Inst now /\ action_admitted a l s f now.
Proof.
  unfold action_require_lease. split.
  - intros H. apply bind_Ok in H as ([] & H0 & H). apply frame_require_lease_Ok in H0 as (now & -> & Hf).
    inv_ok. bool_hyps.
    pose proof (proj1 (click_outside_false _ _) H) as Hc. eauto 10 using ActionAdmitted.
  - intros (now & -> & []). apply bind_Ok. exists tt. split; [apply frame_require_lease_Ok; eauto|].
    cbv zeta. pass_guard. pass_guard. pass_guard. pass_guard. apply raise_if_Ok. by apply (proj2 (click_outside_false _ _)).
Qed.
End Admission.

(** ** Digests *)

Record same_human_request (a b : HumanControlRequest) : Prop := SameHumanRequest {
  sh_control : hr_control_id a = hr_control_id b;
  sh_scope : hr_scope a = hr_scope b;
  sh_session : hr_session_id a = hr_session_id b;
  sh_lease : hr_lease_id a = hr_lease_id b;
  sh_driver : hr_driver_id a = hr_driver_id b;
  sh_consumer : hr_consumer_id a = hr_consumer_id b;
  sh_epoch : hr_control_epoch a = hr_control_epoch b;
  sh_issued : instant (hr_issued_at a) = instant (hr_issued_at b);
  sh_expires : instant (hr_expires_at a) = instant (hr_expires_at b);
  sh_capabilities : hr_capabilities a = hr_capabilities b;
  sh_age : hr_max_frame_age_seconds a = hr_max_frame_age_seconds b
}.

Record human_request_wf (r : HumanControlRequest) : Prop := HumanRequestWf {
  hw_valid : validate_human_request r = Ok r;
  hw_issued : datetime_wf (hr_issued_at r);
  hw_expires : datetime_wf (hr_expires_at r)
}.

Lemma human_request_wire r issued expires :
  validate_human_request r = Ok r -> ascii_text issued -> ascii_text expires ->
  wire_json (human_request_payload r issued expires).
Proof.
  intros Hv Hi He. unfold validate_human_request in Hv. inv_ok.
  apply identifier_Ok in Hm as [_ ?], Hm1 as [_ ?], Hm2 as [_ ?], Hm3 as [_ ?], Hm4 as [_ ?].
  apply wire_object; [reflexivity|].
  repeat (apply list.Forall_cons; split); try exact I; try (by apply wire_str; auto using token_ascii).
  - by eapply wire_scope.
  - apply wire_strings, sorted_values_ascii. intros []; by apply ascii_literal.
  - constructor.
Qed.

Lemma human_request_payload_inj r1 r2 a1 a2 b1 b2 :
  sort_keys (human_request_payload r1 a1 b1) = sort_keys (human_request_payload r2 a2 b2) ->
  a1 = a2 /\ b1 = b2 /\
  (instant (hr_issued_at r1) = instant (hr_issued_at r2) ->
   instant (hr_expires_at r1) = instant (hr_expires_at r2) -> same_human_request r1 r2).
Proof.
  intros H. apply sort_keys_members in H; [|done|by apply (bool_decide_unpack _); vm_compute].
  rewrite !list.Forall2_cons in H. cbn [snd] in H. rewrite !sort_keys_strings in H.
  destruct H as (_ & Hc & Hsc & Hs & Hl & Hd & Hco & Hep & Ha & Hb & Hca & Hag & _).
  apply scope_json_inj in Hsc. cbn [sort_keys] in Hc, Hs, Hl, Hd, Hco, Hep, Ha, Hb, Hag.
  injection Hc as Hc. injection Hs as Hs. injection Hl as Hl. injection Hd as Hd. injection Hco as Hco.
  injection Hep as Hep. injection Ha as Ha. injection Hb as Hb. injection Hca as Hca%strings_inj.
  injection Hag as Hag. apply (sorted_values_inj _ _ _ capability_value_inj) in Hca. done.
Qed.

Lemma human_request_encoding_exact r1 r2 e1 e2 :
  human_request_wf r1 -> human_request_wf r2 ->
  human_request_encoding r1 = Ok e1 -> human_request_encoding r2 = Ok e2 ->
  e1 = e2 <-> same_human_request r1 r2.
Proof.
  intros W1 W2 H1 H2. unfold human_request_encoding in H1, H2. inv_ok.
  rename r into a2, r0 into b2, r3 into a1, r4 into b1.
  pose proof (canonical_same _ _ _ _ (hw_issued _ W1) (hw_issued _ W2) Hm1 Hm) as Ha.
  pose proof (canonical_same _ _ _ _ (hw_expires _ W1) (hw_expires _ W2) Hm2 Hm0) as Hb.
  split.
  - intros He. apply sorted_json_bytes_inj in He;
      [|apply plain_sort_keys, human_request_wire; eauto using canonical_ascii, hw_valid..].
    apply human_request_payload_inj in He as (-> & -> & Hs). apply Hs; [by apply Ha|by apply Hb].
  - intros Hs. assert (a1 = a2) as -> by (apply Ha, Hs). assert (b1 = b2) as -> by (apply Hb, Hs).
    f_equal. destruct Hs. unfold human_request_payload. congruence.
Qed.

(** The text an action carries is made of scalar values. *)
Definition action_text (a : ComputerAction) : Prop :=
  match a with
  | TypeText t | Key t | Navigate t => text_ok scalar_value t
  | _ => True
  end.

Lemma action_json_kind a :
  exists rest, action_json a
    = FMap ((u "schema_version", FInt 1) :: (u "kind", FStr (capability_value (action_kind a))) :: rest)
    /\ u "kind" ∉ rest.*1.
Proof. destruct a; eexists; (split; [reflexivity|]); by apply (bool_decide_unpack _); vm_compute. Qed.

Lemma action_json_same_kind a b :
  sort_keys (action_json a) = sort_keys (action_json b) -> action_kind a = action_kind b.
Proof.
  destruct (action_json_kind a) as (ra & -> & _), (action_json_kind b) as (rb & -> & Hb). intros H.
  apply (sort_keys_elem _ _ (u "kind") (FStr (capability_value (action_kind a)))) in H
    as (t & Hin & Ht); [|by apply elem_of_cons; right; left].
  apply elem_of_cons in Hin as [[=]|Hin]. apply elem_of_cons in Hin as [Heq|Hin].
  - injection Heq as ->. cbn in Ht. injection Ht as Ht. by apply capability_value_inj.
  - destruct Hb. by apply (list_elem_of_fmap_2 fst) in Hin.
Qed.

Lemma action_json_inj a b : sort_keys (action_json a) = sort_keys (action_json b) -> a = b.
Proof.
  intros H. pose proof (action_json_same_kind a b H) as Hk.
  destruct a, b; try discriminate Hk; clear Hk;
    (apply sort_keys_members in H; [|done|by apply (bool_decide_unpack _); vm_compute]);
    rewrite !list.Forall2_cons in H; cbn [snd sort_keys] in H.
  - destruct H as (_ & _ & Hx & Hy & Hb & _). injection Hx as ->. injection Hy as ->.
    destruct button, button0; done.
  - by destruct H as (_ & _ & [= ->] & _).
  - by destruct H as (_ & _ & [= ->] & _).
  - by destruct H as (_ & _ & [= ->] & [= ->] & _).
  - by destruct H as (_ & _ & [= ->] & _).
  - by destruct H as (_ & _ & [= ->] & _).
Qed.

Lemma wire_action a : action_text a -> wire_json (action_json a).
Proof.
  intros Ha. destruct a as [x y []| | | | |]; (apply wire_object; [reflexivity|]);
    repeat (apply list.Forall_cons; split); try exact I; try (by constructor); try exact Ha;
    by apply wire_str, ascii_literal.
Qed.

Record same_action (a b : HumanActionRequest) : Prop := SameAction {
  sn_control : ha_control_id a = ha_control_id b;
  sn_consumer : ha_consumer_id a = ha_consumer_id b;
  sn_action_id : ar_action_id (ha_action a) = ar_action_id (ha_action b);
  sn_session : ar_session_id (ha_action a) = ar_session_id (ha_action b);
  sn_observation : ar_observation_id (ha_action a) = ar_observation_id (ha_action b);
  sn_epoch : ar_control_epoch (ha_action a) = ar_control_epoch (ha_action b);
  sn_deadline : instant (ar_not_after (ha_action a)) = instant (ar_not_after (ha_action b));
  sn_action : ar_action (ha_action a) = ar_action (ha_action b)
}.

Record human_action_wf (nfkc : pystr -> pystr) (a : HumanActionRequest) : Prop := HumanActionWf {
  hx_valid : validate_human_action nfkc a = Ok a;
  hx_deadline : datetime_wf (ar_not_after (ha_action a));
  hx_text : action_text (ar_action (ha_action a))
}.

Lemma human_action_wire nfkc a not_after :
  human_action_wf nfkc a -> ascii_text not_after -> wire_json (human_action_payload a not_after).
Proof.
  intros [Hv _ Ht] Hn. unfold validate_human_action in Hv. inv_ok.
  apply identifier_Ok in Hm as [_ ?], Hm0 as [_ ?]. unfold validate_action_request in Hm1. inv_ok.
  apply identifier_Ok in Hm as [_ ?], Hm0 as [_ ?], Hm2 as [_ ?].
  apply wire_object; [reflexivity|].
  repeat (apply list.Forall_cons; split); try exact I; try (by apply wire_str, token_ascii); [|constructor].
  apply wire_object; [reflexivity|].
  repeat (apply list.Forall_cons; split); try exact I; try (by apply wire_str; auto using token_ascii);
    [|constructor]. by apply wire_action.
Qed.

Lemma human_action_payload_inj a b x y :
  sort_keys (human_action_payload a x) = sort_keys (human_action_payload b y) ->
  x = y /\ (instant (ar_not_after (ha_action a)) = instant (ar_not_after (ha_action b)) -> same_action a b).
Proof.
  intros H. apply sort_keys_members in H; [|done|by apply (bool_decide_unpack _); vm_compute].
  rewrite !list.Forall2_cons in H. cbn [snd] in H. destruct H as (_ & Hc & Hco & H & _).
  apply sort_keys_members in H; [|done|by apply (bool_decide_unpack _); vm_compute].
  rewrite !list.Forall2_cons in H. cbn [snd] in H. destruct H as (_ & Hi & Hs & Ho & He & Hn & Ha & _).
  apply action_json_inj in Ha. cbn [sort_keys] in *.
  injection Hc as Hc. injection Hco as Hco. injection Hi as Hi. injection Hs as Hs. injection Ho as Ho.
  injection He as He. injection Hn as Hn. done.
Qed.

Lemma human_action_encoding_exact nfkc a b e1 e2 :
  human_action_wf nfkc a -> human_action_wf nfkc b ->
  human_action_encoding a = Ok e1 -> human_action_encoding b = Ok e2 ->
  e1 = e2 <-> same_action a b.
Proof.
  intros W1 W2 H1 H2. unfold human_action_encoding in H1, H2. inv_ok. rename r into x2, r0 into x1.
  pose proof (canonical_same _ _ _ _ (hx_deadline _ _ W1) (hx_deadline _ _ W2) Hm0 Hm) as Hx.
  split.
  - intros He. apply sorted_json_bytes_inj in He;
      [|by eapply plain_sort_keys, human_action_wire; eauto using canonical_ascii..].
    apply human_action_payload_inj in He as [-> Hs]. by apply Hs, Hx.
  - intros Hs. assert (x1 = x2) as -> by (apply Hx, Hs). f_equal. destruct Hs.
    unfold human_action_payload, action_request_json. congruence.
Qed.

(** ** The development's main properties *)

(** C27. A human action is admitted exactly when the trusted time is aware; the
    lease is the accepted binding of its request and active; the session is
    that owner's paused human takeover at the lease's epoch with the needed
    capabilities; the frame is the consumer's own, observed under the lease and
    fresh; and the action is the consumer's, on that very frame, of a granted
    kind, with a deadline ahead of now and within lease, session and frame age,
    and clicks inside the screen.  In particular nothing is admitted outside
    the human takeover of the lease's own epoch. *)
Theorem human_action_exact sha256 a l s f at_ :
  action_require_lease sha256 a l s f at_ = Ok tt <->
  exists now, at_ = Inst now /\ action_admitted sha256 a l s f now.
Proof. apply action_require_lease_Ok. Qed.

(** An admitted action cannot be moved: if the same action request is
    admitted twice, for whatever leases, sessions, frames and times, both times
    it is the same control lease and consumer of the same session, at the same
    control epoch and on the same observation, before the action's deadline. *)
Theorem human_action_not_transferable sha256 a l s f t l' s' f' t'
    (H : action_require_lease sha256 a l s f (Inst t) = Ok tt)
    (H' : action_require_lease sha256 a l' s' f' (Inst t') = Ok tt) :
  hr_control_id (hl_request l) = hr_control_id (hl_request l')
  /\ hr_consumer_id (hl_request l) = hr_consumer_id (hl_request l')
  /\ cs_session_id s = cs_session_id s' /\ cs_control_epoch s = cs_control_epoch s'
  /\ sf_observation_id (hf_frame f) = sf_observation_id (hf_frame f')
  /\ dt_ltb t (ar_not_after (ha_action a)) = true /\ dt_ltb t' (ar_not_after (ha_action a)) = true.
Proof.
  apply action_require_lease_Ok in H as (now & [= <-] & [Hf ? ? ? ? ? ? ? ? ? ?]).
  apply action_require_lease_Ok in H' as (now & [= <-] & [Hf' ? ? ? ? ? ? ? ? ? ?]).
  destruct Hf as [[_ Hs _ _] ? ? ? ? ? ? ?]. destruct Hf' as [[_ Hs' _ _] ? ? ? ? ? ? ?].
  destruct Hs, Hs'. split_and!; congruence.
Qed.

(** Safety retirement reaches the original binding after expiry and after
    the epoch has moved on: it is accepted exactly when the lease is the bound
    acceptance of its request, the session is the same owner's, session, lease
    and driver, and the retirement names the lease's own control, session,
    consumer and epoch, whatever the session's state, controller, current
    epoch and expiry. *)
Theorem retirement_target_exact sha256 v l s :
  require_target sha256 v l s = Ok tt <->
  human_request_digest sha256 (hl_request l) = Ok (hl_request_sha256 l)
  /\ (hr_scope (hl_request l), hr_session_id (hl_request l), hr_lease_id (hl_request l), hr_driver_id (hl_request l))
     = (cs_scope s, cs_session_id s, cs_lease_id s, cs_driver_id s)
  /\ (rv_control_id v, rv_session_id v, rv_consumer_id v, rv_control_epoch v)
     = (hr_control_id (hl_request l), hr_session_id (hl_request l), hr_consumer_id (hl_request l),
        hr_control_epoch (hl_request l)).
Proof.
  unfold require_target. split.
  - intros H. inv_ok. apply require_request_self in Hm. bool_hyps. split_and!; [done|congruence..].
  - intros (H & [= ? ? ? ?] & [= ? ? ? ?]). apply bind_Ok. exists tt.
    split; [by apply require_request_self|]. cbv zeta. pass_guard.
    apply raise_if_Ok. rewrite !bool_decide_eq_true_2 by done. apply negb_false_iff. cbn. by apply Z.eqb_eq.
Qed.

(** A pre-open fence answers one revocation: on the fenced owner, lease,
    driver and session it accepts its own request and nothing else, telling a
    new request identifier for the same fenced target from another target. *)
Theorem tombstone_exact t v s :
  (ts_scope t, ts_lease_id t, ts_driver_id t, rv_session_id v)
  = (cs_scope s, cs_lease_id s, cs_driver_id s, cs_session_id s) ->
  require_revocation t v s =
    if decide (v = ts_request t) then Ok tt
    else if decide (v = MkRevocation (rv_request_id v) (rv_control_id (ts_request t)) (rv_session_id (ts_request t))
                          (rv_consumer_id (ts_request t)) (rv_control_epoch (ts_request t)))
    then Raise (ValueError "human pre-open fence belongs to another revocation request ID")
    else Raise (ValueError "human pre-open fence differs from the original retirement target").
Proof.
  intros [= H1 H2 H3 H4]. unfold require_revocation.
  rewrite (bool_decide_eq_true_2 _ H1), (bool_decide_eq_true_2 _ H2), (bool_decide_eq_true_2 _ H3),
    (bool_decide_eq_true_2 _ H4).
  cbn [andb negb raise_if mbind result_bind]. case_decide as Hv; [by rewrite bool_decide_eq_true_2|].
  rewrite bool_decide_eq_false_2 by done. unfold same_target.
  destruct v as [i c se co e]. cbn [rv_request_id rv_control_id rv_session_id rv_consumer_id rv_control_epoch].
  case_decide as Ht.
  - injection Ht as <- <- <- <-. rewrite !bool_decide_eq_true_2 by done. by rewrite Z.eqb_refl.
  - destruct (bool_decide _ && bool_decide _ && bool_decide _ && (_ =? _)) eqn:E; [|done].
    bool_hyps. destruct Ht. congruence.
Qed.

(** The correlation digests bind their records: for valid requests and
    valid actions whose encodings do not collide under SHA-256, equal digests
    mean the same consumer lease with every limit, respectively the same action
    of the same consumer, payload and deadline included. *)
Theorem human_digests_exact sha256 nfkc r1 r2 a1 a2 dr1 dr2 da1 da2
    (Wr1 : human_request_wf r1) (Wr2 : human_request_wf r2)
    (Wa1 : human_action_wf nfkc a1) (Wa2 : human_action_wf nfkc a2)
    (Hr1 : human_request_digest sha256 r1 = Ok dr1) (Hr2 : human_request_digest sha256 r2 = Ok dr2)
    (Ha1 : human_action_digest sha256 a1 = Ok da1) (Ha2 : human_action_digest sha256 a2 = Ok da2)
    (Nr : forall e1 e2, human_request_encoding r1 = Ok e1 -> human_request_encoding r2 = Ok e2 ->
          sha256 e1 = sha256 e2 -> e1 = e2)
    (Na : forall e1 e2, human_action_encoding a1 = Ok e1 -> human_action_encoding a2 = Ok e2 ->
          sha256 e1 = sha256 e2 -> e1 = e2) :
  (dr1 = dr2 <-> same_human_request r1 r2) /\ (da1 = da2 <-> same_action a1 a2).
Proof.
  unfold human_request_digest in Hr1, Hr2. unfold human_action_digest in Ha1, Ha2.
  apply bind_Ok in Hr1 as (e1 & E1 & [= <-]), Hr2 as (e2 & E2 & [= <-]).
  apply bind_Ok in Ha1 as (g1 & G1 & [= <-]), Ha2 as (g2 & G2 & [= <-]). split.
  - rewrite <- (human_request_encoding_exact r1 r2 e1 e2) by done. split; [by apply Nr|by intros ->].
  - rewrite <- (human_action_encoding_exact nfkc a1 a2 g1 g2) by done. split; [by apply Na|by intros ->].
Qed.

(** ** A concrete takeover *)

Definition sample_time (minutes : Z) : datetime := utc_datetime (738000 * day_us + 12 * hour_us + minutes * minute_us).

Definition sample_session : ComputerSession :=
  MkSession (u "session-1") sample_scope (u "lease-1") (u "driver-1") DESKTOP
    {[CScreenshot; CClick; CType; CTakeover]} SPaused HumanCtl 3 (sample_time 60).

Definition sample_human_request (consumer : pystr) : HumanControlRequest :=
  MkHumanRequest (u "control-1") sample_scope (u "session-1") (u "lease-1") (u "driver-1") consumer 3
    (sample_time 0) (sample_time 30) {[CScreenshot; CClick]} 60.

(** A stand-in for SHA-256. *)
Definition flat_hash (b : list Z) : pystr := replicate 64 (97 + foldr Z.add 0 b mod 6).

Definition sample_human_lease : HumanControlLease :=
  let r := sample_human_request (u "op-1") in
  MkHumanLease r (match human_request_digest flat_hash r with Ok d => d | Raise _ => [] end) HActive
    (sample_time 1) None.

Definition sample_frame : HumanScreenFrame :=
  MkHumanFrame (u "control-1") (u "op-1")
    (MkFrame (u "obs-1") (u "session-1") 3 (sample_time 5) 1920 1080 (replicate 64 97) ImagePng).

Definition sample_human_action (x : Z) : HumanActionRequest :=
  MkHumanAction (u "control-1") (u "op-1")
    (MkAction (u "action-1") (u "session-1") (u "obs-1") 3 (sample_time 6) (Click x 20 LeftButton)).

(** The action is admitted thirty seconds after the frame, a click outside the
    screen is not, nor is anything once the agent is back in control. *)
Definition sample_now : datetime := utc_datetime (738000 * day_us + 12 * hour_us + 5 * minute_us + 30 * second_us).

Example sample_admitted :
  action_require_lease flat_hash (sample_human_action 10) sample_human_lease sample_session sample_frame
    (Inst sample_now) = Ok tt
  /\ action_require_lease flat_hash (sample_human_action 1920) sample_human_lease sample_session sample_frame
       (Inst sample_now) = Raise (ValueError "human click exceeds the observed screen")
  /\ action_require_lease flat_hash (sample_human_action 10) sample_human_lease
       (MkSession (u "session-1") sample_scope (u "lease-1") (u "driver-1") DESKTOP
          {[CScreenshot; CClick; CType; CTakeover]} SReady AgentCtl 4 (sample_time 60)) sample_frame
       (Inst sample_now) = Raise (ValueError "human lease belongs to another owner/session/epoch").
Proof. vm_compute. auto. Qed.

Lemma human_action_not_transferable_witness :
  action_require_lease flat_hash (sample_human_action 10) sample_human_lease sample_session sample_frame
    (Inst sample_now) = Ok tt /\ dt_ltb sample_now (sample_time 6) = true.
Proof.
  assert (H : action_require_lease flat_hash (sample_human_action 10) sample_human_lease sample_session
                sample_frame (Inst sample_now) = Ok tt) by (vm_compute; reflexivity).
  split; [exact H|].
  destruct (human_action_not_transferable flat_hash (sample_human_action 10) sample_human_lease sample_session
    sample_frame sample_now sample_human_lease sample_session sample_frame sample_now H H)
    as (_ & _ & _ & _ & _ & Hd & _). exact Hd.
Defined.

Definition sample_revocation (i : pystr) (epoch : Z) : HumanControlRevocation :=
  MkRevocation i (u "control-1") (u "session-1") (u "op-1") epoch.

Definition sample_tombstone : Tombstone :=
  MkTombstone (sample_revocation (u "rev-1") 3) sample_scope (u "lease-1") (u "driver-1") (sample_time 2).

Lemma tombstone_exact_witness :
  require_revocation sample_tombstone (sample_revocation (u "rev-2") 3) sample_session
  = Raise (ValueError "human pre-open fence belongs to another revocation request ID").
Proof. rewrite (tombstone_exact sample_tombstone _ sample_session); vm_compute; reflexivity. Defined.

Lemma sample_human_request_wf consumer :
  validate_human_request (sample_human_request consumer) = Ok (sample_human_request consumer) ->
  human_request_wf (sample_human_request consumer).
Proof. intros H. split; [done| |]; (split; [vm_compute; split; discriminate|done]). Qed.

Lemma sample_human_action_wf x : 0 <= x -> human_action_wf (fun s => s) (sample_human_action x).
Proof.
  intros Hx. split; [|split; [vm_compute; split; discriminate|done]|done].
  unfold validate_human_action, sample_human_action. cbn [ha_control_id ha_consumer_id ha_action].
  repeat (apply bind_Ok; eexists; split; [vm_compute; reflexivity|cbv beta]).
  apply bind_Ok. eexists. split; [|reflexivity]. unfold validate_action_request.
  cbn [ar_action_id ar_session_id ar_observation_id ar_control_epoch ar_not_after ar_action].
  repeat (apply bind_Ok; eexists; split; [vm_compute; reflexivity|cbv beta]).
  cbn [validate_action]. apply bind_Ok. eexists. split; [|reflexivity].
  apply bind_Ok. exists tt. split; [apply constraint_Ok; lia|reflexivity].
Qed.

Lemma human_digests_exact_witness :
  exists d1 d2 e1 e2,
    human_request_digest (fun b => b) (sample_human_request (u "op-1")) = Ok d1
    /\ human_request_digest (fun b => b) (sample_human_request (u "op-2")) = Ok d2 /\ d1 <> d2
    /\ human_action_digest (fun b => b) (sample_human_action 1) = Ok e1
    /\ human_action_digest (fun b => b) (sample_human_action 2) = Ok e2 /\ e1 <> e2.
Proof.
  destruct (human_request_digest (fun b => b) (sample_human_request (u "op-1"))) as [d1|] eqn:R1;
    [|vm_compute in R1; discriminate R1].
  destruct (human_request_digest (fun b => b) (sample_human_request (u "op-2"))) as [d2|] eqn:R2;
    [|vm_compute in R2; discriminate R2].
  destruct (human_action_digest (fun b => b) (sample_human_action 1)) as [e1|] eqn:A1;
    [|vm_compute in A1; discriminate A1].
  destruct (human_action_digest (fun b => b) (sample_human_action 2)) as [e2|] eqn:A2;
    [|vm_compute in A2; discriminate A2].
  destruct (human_digests_exact (fun b => b) (fun s => s) _ _ _ _ d1 d2 e1 e2
    (sample_human_request_wf (u "op-1") ltac:(vm_compute; reflexivity))
    (sample_human_request_wf (u "op-2") ltac:(vm_compute; reflexivity))
    (sample_human_action_wf 1 ltac:(lia)) (sample_human_action_wf 2 ltac:(lia)) R1 R2 A1 A2
    (fun _ _ _ _ H => H) (fun _ _ _ _ H => H)) as [Hr Ha].
  exists d1, d2, e1, e2. split_and!; try reflexivity.
  - intros H. apply Hr in H. destruct H as [_ _ _ _ _ H _ _ _ _ _]. discriminate H.
  - intros H. apply Ha in H. destruct H as [_ _ _ _ _ _ _ H]. discriminate H.
Defined.
