(* ===== verification/Aead.v ===== *)
(** * The AEAD container ([kestrel_sdk/security/aead.py])

    Version 2 tokens: [KSAv2:] and the URL-safe base64 of
    [alg_id || nonce || ciphertext and tag].  AES-GCM and Fernet
    ([cryptography]) are parameters, [os.urandom] an argument; base64 is the
    standard library's, written out with CPython's decoder. *)

From S2P Require Export PyData.

Definition KSA_V2_PREFIX : list Z := u "KSAv2:".
Definition NONCE_SIZE : Z := 12.
Definition KEY_SIZE : Z := 32.
Definition ALG_ID_SIZE : Z := 1.
Definition GCM_TAG_SIZE : Z := 16.
Definition ALG_AES_256_GCM : Z := 1.

(** ** Base64 *)

Definition URLSAFE_B64_ALPHABET : list Z :=
  u "ABCDEFGHIJKLMNOPQRSTUVWXYZabcdefghijklmnopqrstuvwxyz0123456789-_=".

(** The URL-safe character of a 6-bit value. *)
Definition b64_char (v : Z) : Z := nth (Z.to_nat v) URLSAFE_B64_ALPHABET 0.

(** [base64.urlsafe_b64encode] *)
Fixpoint urlsafe_b64encode (bs : list Z) : list Z :=
  match bs with
  | [] => []
  | [a] => [b64_char (Z.shiftr a 2); b64_char (Z.shiftl (Z.land a 3) 4); 61; 61]
  | [a; b] =>
      [b64_char (Z.shiftr a 2); b64_char (Z.lor (Z.shiftl (Z.land a 3) 4) (Z.shiftr b 4));
       b64_char (Z.shiftl (Z.land b 15) 2); 61]
  | a :: b :: c :: bs' =>
      b64_char (Z.shiftr a 2) :: b64_char (Z.lor (Z.shiftl (Z.land a 3) 4) (Z.shiftr b 4))
      :: b64_char (Z.lor (Z.shiftl (Z.land b 15) 2) (Z.shiftr c 6)) :: b64_char (Z.land c 63)
      :: urlsafe_b64encode bs'
  end.

(** [s.translate(bytes.maketrans(b"-_", b"+/"))] *)
Definition b64_translate (c : Z) : Z := if c =? 45 then 43 else if c =? 95 then 47 else c.

(** [table_a2b_base64] *)
Definition b64_value (c : Z) : option Z :=
  if is_upper c then Some (c - 65)
  else if is_lower c then Some (c - 71)
  else if is_digit c then Some (c + 4)
  else if c =? 43 then Some 62
  else if c =? 47 then Some 63
  else None.

(** The loop of [binascii.a2b_base64]; [None] for [binascii.Error]. *)
Fixpoint a2b (strict : bool) (s : list Z) (quad_pos pads leftchar : Z) (padding_started : bool)
    : option (list Z) :=
  match s with
  | [] => if quad_pos =? 0 then Some [] else None
  | c :: s' =>
      if c =? 61 then
        if 2 <=? quad_pos then
          if 4 <=? quad_pos + (pads + 1) then
            if strict && negb (len s' =? 0) then None else Some []
          else a2b strict s' quad_pos (pads + 1) leftchar true
        else a2b strict s' quad_pos pads leftchar true
      else
        match b64_value c with
        | None => if strict then None else a2b strict s' quad_pos pads leftchar padding_started
        | Some v =>
            if strict && padding_started then None
            else if quad_pos =? 0 then a2b strict s' 1 0 v padding_started
            else if quad_pos =? 1 then
              r ← a2b strict s' 2 0 (Z.land v 15) padding_started;
              Some (Z.lor (Z.shiftl leftchar 2) (Z.shiftr v 4) :: r)
            else if quad_pos =? 2 then
              r ← a2b strict s' 3 0 (Z.land v 3) padding_started;
              Some (Z.lor (Z.shiftl leftchar 4) (Z.shiftr v 2) :: r)
            else
              r ← a2b strict s' 0 0 0 padding_started;
              Some (Z.lor (Z.shiftl leftchar 6) v :: r)
        end
  end.

(** [base64.b64decode(s, altchars=b"-_", validate=strict)] *)
Definition b64decode (strict : bool) (s : list Z) : option (list Z) :=
  let s' := b64_translate <$> s in
  match s' with
  | 61 :: _ => if strict then None else a2b strict s' 0 0 0 false
  | _ => a2b strict s' 0 0 0 false
  end.

Definition strict_urlsafe_b64decode (data : list Z) : option (list Z) :=
  if forallb (fun c => mem c URLSAFE_B64_ALPHABET) data then b64decode true data else None.

(** ** The cipher *)

(** [s.encode("ascii")]: [UnicodeEncodeError] is a [ValueError]. *)
Definition encode_ascii (t : text_or_bytes) : res (list Z) :=
  match t with
  | Bytes b => Ok b
  | Str s => if is_ascii s then Ok s else Raise (ValueError "UnicodeEncodeError")
  end.

(** [s.encode("utf-8")] *)
Definition encode_utf8 (t : text_or_bytes) : res (list Z) :=
  match t with
  | Bytes b => Ok b
  | Str s => match utf8 s with Some b => Ok b | None => Raise (ValueError "UnicodeEncodeError") end
  end.

Definition compose_aad (alg_id : Z) (user_aad : option (list Z)) : list Z := alg_id :: default [] user_aad.

Definition coerce_to_raw_key (key : text_or_bytes) : res (list Z) :=
  k ← encode_ascii key;
  if len k =? KEY_SIZE then Ok k
  else
    match b64decode false k with
    | None => Raise (ValueError "AEADCipher key must be 32 raw bytes or a URL-safe-base64-encoded 32-byte key")
    | Some decoded =>
        _ ← raise_if (negb (len decoded =? KEY_SIZE))
              (ValueError "AEADCipher key after base64 decode must be 32 bytes");
        Ok decoded
    end.

(** [os.urandom(KEY_SIZE)] is the argument. *)
Definition generate_key (random : list Z) : list Z := urlsafe_b64encode random.

Definition has_prefix (token : list Z) : bool := bool_decide (take (length KSA_V2_PREFIX) token = KSA_V2_PREFIX).

(** [s.encode("ascii", errors="ignore")] drops other characters. *)
Definition is_v2 (token : text_or_bytes) : bool :=
  match token with
  | Bytes b => has_prefix b
  | Str s => has_prefix (base.filter (fun c => in_range 0 127 c = true) s)
  end.

Section Cipher.
(** [AESGCM(key).encrypt(nonce, data, aad)] and [decrypt], [None] for its
    exception; [Fernet(key).decrypt(token)]. *)
Variable aes_encrypt : list Z -> list Z -> list Z -> list Z -> list Z.
Variable aes_decrypt : list Z -> list Z -> list Z -> list Z -> option (list Z).
Variable fernet_decrypt : list Z -> list Z -> option (list Z).

(** The object [__init__] builds: its raw key, and the key of the Fernet path. *)
Record AEADCipher := MkCipher { ac_key : list Z; ac_legacy_fernet_b64 : list Z }.

Definition cipher_init (key : text_or_bytes) : res AEADCipher :=
  raw ← coerce_to_raw_key key;
  Ok (MkCipher raw (urlsafe_b64encode raw)).

(** [nonce] is [os.urandom(NONCE_SIZE)]. *)
Definition encrypt (self : AEADCipher) (nonce : list Z) (plaintext : text_or_bytes) (aad : option (list Z))
    : res (list Z) :=
  p ← encode_utf8 plaintext;
  let ct := aes_encrypt (ac_key self) nonce p (compose_aad ALG_AES_256_GCM aad) in
  Ok (KSA_V2_PREFIX ++ urlsafe_b64encode ([ALG_AES_256_GCM] ++ nonce ++ ct)).

Definition decrypt (self : AEADCipher) (token : text_or_bytes) (aad : option (list Z)) : res (list Z) :=
  t ← encode_ascii token;
  if has_prefix t then
    match strict_urlsafe_b64decode (drop (length KSA_V2_PREFIX) t) with
    | None => Raise (DecryptionError "v2 token base64 decode failed (non-canonical encoding)")
    | Some framed =>
        _ ← raise_if (len framed <? ALG_ID_SIZE + NONCE_SIZE + GCM_TAG_SIZE)
              (DecryptionError "v2 token too short to contain alg_id+nonce+tag");
        let alg_id := nth 0 framed 0 in
        let nonce := take (Z.to_nat NONCE_SIZE) (drop (Z.to_nat ALG_ID_SIZE) framed) in
        let ct := drop (Z.to_nat (ALG_ID_SIZE + NONCE_SIZE)) framed in
        _ ← raise_if (negb (alg_id =? ALG_AES_256_GCM)) (DecryptionError "v2 token uses unknown alg_id");
        match aes_decrypt (ac_key self) nonce ct (compose_aad alg_id aad) with
        | Some p => Ok p
        | None => Raise (DecryptionError "v2 AES-GCM decryption failed")
        end
    end
  else
    match aad with
    | Some _ => Raise (DecryptionError "AAD passed but token is legacy Fernet (no AAD support)")
    | None =>
        match fernet_decrypt (ac_legacy_fernet_b64 self) t with
        | Some p => Ok p
        | None => Raise (DecryptionError "Legacy Fernet decryption failed")
        end
    end.
End Cipher.

(** ** Base64 round trip *)

Definition is_byte (b : Z) : Prop := 0 <= b < 256.
Definition bytes_ok (l : list Z) : Prop := Forall is_byte l.

Definition sextets : list Z := seqZ 0 64.

Lemma b64_char_value v :
  0 <= v < 64 -> b64_value (b64_translate (b64_char v)) = Some v /\ b64_char v <> 61
  /\ b64_translate (b64_char v) <> 61 /\ mem (b64_char v) URLSAFE_B64_ALPHABET = true.
Proof.
  assert (Hall : forallb (fun v => bool_decide (b64_value (b64_translate (b64_char v)) = Some v)
            && negb (b64_char v =? 61) && negb (b64_translate (b64_char v) =? 61)
            && mem (b64_char v) URLSAFE_B64_ALPHABET) sextets = true) by (vm_compute; reflexivity).
  intros Hv. rewrite List.forallb_forall in Hall.
  specialize (Hall v ltac:(apply list_elem_of_In; unfold sextets; apply elem_of_seqZ; lia)). bool_hyps. split_and!; [done..|by apply mem_true].
Qed.

(** A sextet is decoded before any padding. *)
Lemma a2b_char strict v s pos pads left :
  0 <= v < 64 ->
  a2b strict (b64_translate (b64_char v) :: s) pos pads left false
  = if pos =? 0 then a2b strict s 1 0 v false
    else if pos =? 1 then r ← a2b strict s 2 0 (Z.land v 15) false; Some (Z.lor (Z.shiftl left 2) (Z.shiftr v 4) :: r)
    else if pos =? 2 then r ← a2b strict s 3 0 (Z.land v 3) false; Some (Z.lor (Z.shiftl left 4) (Z.shiftr v 2) :: r)
    else r ← a2b strict s 0 0 0 false; Some (Z.lor (Z.shiftl left 6) v :: r).
Proof.
  intros Hv. destruct (b64_char_value v Hv) as (H1 & _ & H2 & _). cbn [a2b].
  rewrite (proj2 (Z.eqb_neq _ _) H2), H1. by rewrite andb_false_r.
Qed.

(** The arithmetic of one group, decided on all bytes. *)
Lemma byte_parts a :
  is_byte a ->
  0 <= Z.shiftr a 2 < 64 /\ 0 <= Z.shiftl (Z.land a 3) 4 < 64 /\ 0 <= Z.shiftl (Z.land a 15) 2 < 64
  /\ 0 <= Z.land a 63 < 64.
Proof.
  assert (Hall : forallb (fun a =>
     ((0 <=? Z.shiftr a 2) && (Z.shiftr a 2 <? 64)) && ((0 <=? Z.shiftl (Z.land a 3) 4) && (Z.shiftl (Z.land a 3) 4 <? 64))
     && ((0 <=? Z.shiftl (Z.land a 15) 2) && (Z.shiftl (Z.land a 15) 2 <? 64))
     && ((0 <=? Z.land a 63) && (Z.land a 63 <? 64))) (seqZ 0 256) = true) by (vm_compute; reflexivity).
  intros Ha. unfold is_byte in Ha. rewrite List.forallb_forall in Hall.
  specialize (Hall a ltac:(apply list_elem_of_In, elem_of_seqZ; lia)). bool_hyps. lia.
Qed.

Lemma byte_pair a b :
  is_byte a -> is_byte b ->
  let m := Z.lor (Z.shiftl (Z.land a 3) 4) (Z.shiftr b 4) in
  let n := Z.lor (Z.shiftl (Z.land a 15) 2) (Z.shiftr b 6) in
  (0 <= m < 64 /\ Z.lor (Z.shiftl (Z.shiftr a 2) 2) (Z.shiftr m 4) = a
   /\ Z.land m 15 = Z.shiftr b 4)
  /\ (0 <= n < 64 /\ Z.shiftr n 2 = Z.land a 15 /\ Z.land n 3 = Z.shiftr b 6).
Proof.
  assert (Hall : forallb (fun a => forallb (fun b =>
     let m := Z.lor (Z.shiftl (Z.land a 3) 4) (Z.shiftr b 4) in
     let n := Z.lor (Z.shiftl (Z.land a 15) 2) (Z.shiftr b 6) in
     ((0 <=? m) && (m <? 64)) && (Z.lor (Z.shiftl (Z.shiftr a 2) 2) (Z.shiftr m 4) =? a)
     && (Z.land m 15 =? Z.shiftr b 4)
     && ((0 <=? n) && (n <? 64)) && (Z.shiftr n 2 =? Z.land a 15) && (Z.land n 3 =? Z.shiftr b 6))
     (seqZ 0 256)) (seqZ 0 256) = true) by (vm_compute; reflexivity).
  intros Ha Hb. unfold is_byte in *. rewrite List.forallb_forall in Hall.
  specialize (Hall a ltac:(apply list_elem_of_In, elem_of_seqZ; lia)). rewrite List.forallb_forall in Hall.
  specialize (Hall b ltac:(apply list_elem_of_In, elem_of_seqZ; lia)). cbv zeta in *. bool_hyps. split_and!; lia.
Qed.

Lemma byte_join a :
  is_byte a -> Z.lor (Z.shiftl (Z.shiftr a 4) 4) (Z.land a 15) = a
  /\ Z.lor (Z.shiftl (Z.shiftr a 6) 6) (Z.land a 63) = a
  /\ Z.lor (Z.shiftl (Z.shiftr a 2) 2) (Z.shiftr (Z.shiftl (Z.land a 3) 4) 4) = a
  /\ Z.lor (Z.shiftl (Z.shiftr a 4) 4) (Z.shiftr (Z.shiftl (Z.land a 15) 2) 2) = a.
Proof.
  assert (Hall : forallb (fun a =>
     (Z.lor (Z.shiftl (Z.shiftr a 4) 4) (Z.land a 15) =? a)
     && (Z.lor (Z.shiftl (Z.shiftr a 6) 6) (Z.land a 63) =? a)
     && (Z.lor (Z.shiftl (Z.shiftr a 2) 2) (Z.shiftr (Z.shiftl (Z.land a 3) 4) 4) =? a)
     && (Z.lor (Z.shiftl (Z.shiftr a 4) 4) (Z.shiftr (Z.shiftl (Z.land a 15) 2) 2) =? a)) (seqZ 0 256) = true)
    by (vm_compute; reflexivity).
  intros Ha. unfold is_byte in Ha. rewrite List.forallb_forall in Hall.
  specialize (Hall a ltac:(apply list_elem_of_In, elem_of_seqZ; lia)). bool_hyps. lia.
Qed.

(** One full group. *)
Lemma a2b_group strict a b c s :
  is_byte a -> is_byte b -> is_byte c ->
  a2b strict (b64_translate (b64_char (Z.shiftr a 2))
      :: b64_translate (b64_char (Z.lor (Z.shiftl (Z.land a 3) 4) (Z.shiftr b 4)))
      :: b64_translate (b64_char (Z.lor (Z.shiftl (Z.land b 15) 2) (Z.shiftr c 6)))
      :: b64_translate (b64_char (Z.land c 63)) :: s) 0 0 0 false
  = r ← a2b strict s 0 0 0 false; Some (a :: b :: c :: r).
Proof.
  intros Ha Hb Hc. destruct (byte_parts a Ha) as (Ha1 & _ & _ & _). destruct (byte_parts c Hc) as (_ & _ & _ & Hc1).
  destruct (byte_pair a b Ha Hb) as [(Hm & Hma & Hmb) _]. destruct (byte_pair b c Hb Hc) as [_ (Hn & Hnb & Hnc)].
  destruct (byte_join b Hb) as (Hbj & _). destruct (byte_join c Hc) as (_ & Hcj & _).
  rewrite !a2b_char by done. cbn [Z.eqb Pos.eqb].
  rewrite Hmb, Hma, Hnb, Hbj, Hnc, Hcj. by destruct (a2b strict s 0 0 0 false).
Qed.

(** Induction over groups of three. *)
Lemma group_ind (P : list Z -> Prop) :
  P [] -> (forall a, P [a]) -> (forall a b, P [a; b]) -> (forall a b c bs, P bs -> P (a :: b :: c :: bs)) ->
  forall bs, P bs.
Proof.
  intros H0 H1 H2 H3. fix IH 1. intros [|a [|b [|c bs]]]; [exact H0|apply H1|apply H2|apply H3, IH].
Qed.

Lemma a2b_one_pad strict left : a2b strict [61] 3 0 left false = Some [].
Proof. by destruct strict. Qed.

Lemma a2b_two_pads strict left : a2b strict [61; 61] 2 0 left false = Some [].
Proof. by destruct strict. Qed.

Lemma a2b_encode strict bs :
  bytes_ok bs -> a2b strict (b64_translate <$> urlsafe_b64encode bs) 0 0 0 false = Some bs.
Proof.
  induction bs as [|a|a b|a b c bs IH] using group_ind; intros Hb.
  - done.
  - apply list.Forall_cons in Hb as [Ha _]. destruct (byte_parts a Ha) as (H1 & H2 & _).
    cbn [urlsafe_b64encode fmap list_fmap]. rewrite !a2b_char by done. cbn [Z.eqb Pos.eqb].
    change (b64_translate 61) with 61. rewrite a2b_two_pads.
    destruct (byte_join a Ha) as (_ & _ & Hj & _). cbn [mbind option_bind]. by rewrite Hj.
  - apply list.Forall_cons in Hb as [Ha Hb]. apply list.Forall_cons in Hb as [Hb _].
    destruct (byte_parts a Ha) as (H1 & _). destruct (byte_parts b Hb) as (_ & _ & H3 & _).
    destruct (byte_pair a b Ha Hb) as [(Hm & Hma & Hmb) _].
    cbn [urlsafe_b64encode fmap list_fmap]. rewrite !a2b_char by done. cbn [Z.eqb Pos.eqb].
    change (b64_translate 61) with 61. destruct (byte_join b Hb) as (_ & _ & _ & Hj).
    rewrite a2b_one_pad. cbn [mbind option_bind]. by rewrite Hma, Hmb, Hj.
  - apply list.Forall_cons in Hb as [Ha Hb]. apply list.Forall_cons in Hb as [Hb Hbs].
    apply list.Forall_cons in Hbs as [Hc Hbs].
    cbn [urlsafe_b64encode]. rewrite !fmap_cons, a2b_group by done. by rewrite IH.
Qed.

(** Whole groups are decoded independently of what follows. *)
Lemma a2b_encode_app strict bs s :
  bytes_ok bs -> (length bs mod 3 = 0)%nat ->
  a2b strict ((b64_translate <$> urlsafe_b64encode bs) ++ s) 0 0 0 false
  = r ← a2b strict s 0 0 0 false; Some (bs ++ r).
Proof.
  induction bs as [|a|a b|a b c bs IH] using group_ind; intros Hb Hl; try done.
  - cbn. by destruct (a2b strict s 0 0 0 false).
  - apply list.Forall_cons in Hb as [Ha Hb]. apply list.Forall_cons in Hb as [Hb Hbs].
    apply list.Forall_cons in Hbs as [Hc Hbs].
    cbn [urlsafe_b64encode]. rewrite !fmap_cons. cbn [app]. rewrite a2b_group by done.
    assert (Hl' : (length bs mod 3 = 0)%nat).
    { cbn [length] in Hl. replace (S (S (S (length bs)))) with (length bs + 1 * 3)%nat in Hl by lia.
      by rewrite Nat.Div0.mod_add in Hl. }
    rewrite (IH Hbs Hl').
    by destruct (a2b strict s 0 0 0 false).
Qed.

Lemma encode_nonpad bs : match b64_translate <$> urlsafe_b64encode bs with 61 :: _ => False | _ => True end
  \/ ~ bytes_ok bs.
Proof.
  destruct bs as [|a [|b [|c bs]]]; [by left|..];
    (destruct (decide (0 <= a < 256)) as [Ha|Ha];
      [left|right; intros H; apply list.Forall_cons in H as [H _]; by apply Ha]);
    destruct (byte_parts a Ha) as (H1 & _); destruct (b64_char_value _ H1) as (_ & _ & Hn & _);
    cbn; set (x := b64_translate _) in *; clearbody x; destruct x as [|p|]; try done;
    do 6 (destruct p as [p|p|]; try done).
Qed.

Lemma b64decode_encode_app strict bs s r :
  bytes_ok bs -> bs <> [] -> a2b strict (b64_translate <$> (urlsafe_b64encode bs ++ s)) 0 0 0 false = r ->
  b64decode strict (urlsafe_b64encode bs ++ s) = r.
Proof.
  intros Hb Hne Hr. destruct (encode_nonpad bs) as [Hp|Hp]; [|by destruct Hp].
  unfold b64decode. rewrite fmap_app in *.
  destruct (b64_translate <$> urlsafe_b64encode bs) as [|x l] eqn:He.
  - destruct bs as [|a [|b [|c bs]]]; done.
  - cbn [app] in *. destruct x as [|p|]; try done. do 6 (destruct p as [p|p|]; try done).
Qed.

Lemma b64decode_encode strict bs : bytes_ok bs -> b64decode strict (urlsafe_b64encode bs) = Some bs.
Proof.
  intros Hb. destruct bs as [|a bs]; [by destruct strict|].
  rewrite <- (app_nil_r (urlsafe_b64encode (a :: bs))). apply b64decode_encode_app; [done|done|].
  rewrite app_nil_r. by apply a2b_encode.
Qed.

Lemma encode_alphabet bs : bytes_ok bs -> Forall (fun c => mem c URLSAFE_B64_ALPHABET = true) (urlsafe_b64encode bs).
Proof.
  assert (Hp : mem 61 URLSAFE_B64_ALPHABET = true) by reflexivity.
  assert (Hc : forall v, 0 <= v < 64 -> mem (b64_char v) URLSAFE_B64_ALPHABET = true).
  { intros v Hv. by destruct (b64_char_value v Hv) as (_ & _ & _ & ?). }
  induction bs as [|a|a b|a b c bs IH] using group_ind; intros Hb; [constructor|..];
    repeat (apply list.Forall_cons in Hb as [? Hb]); cbn [urlsafe_b64encode].
  - destruct (byte_parts a) as (? & ? & _); [done|]. repeat (constructor; auto).
  - destruct (byte_parts a) as (? & ? & _); [done|]. destruct (byte_parts b) as (_ & _ & ? & _); [done|].
    destruct (byte_pair a b) as [(? & _) _]; [done..|]. repeat (constructor; auto).
  - destruct (byte_parts a) as (? & _); [done|]. destruct (byte_parts c) as (_ & _ & _ & ?); [done|].
    destruct (byte_pair a b) as [(? & _) _]; [done..|]. destruct (byte_pair b c) as [_ (? & _)]; [done..|].
    repeat (apply list.Forall_cons; split); auto.
Qed.

Lemma strict_decode_app bs s :
  bytes_ok bs -> forallb (fun c => mem c URLSAFE_B64_ALPHABET) s = true ->
  strict_urlsafe_b64decode (urlsafe_b64encode bs ++ s) = b64decode true (urlsafe_b64encode bs ++ s).
Proof.
  intros Hb Hs. unfold strict_urlsafe_b64decode. rewrite forallb_app, Hs.
  assert (He : forallb (fun c => mem c URLSAFE_B64_ALPHABET) (urlsafe_b64encode bs) = true); [|by rewrite He].
  apply List.forallb_forall. intros c Hc. apply list_elem_of_In in Hc.
  pose proof (encode_alphabet bs Hb) as HF. rewrite list.Forall_forall in HF. by apply HF.
Qed.

Lemma strict_decode_encode bs : bytes_ok bs -> strict_urlsafe_b64decode (urlsafe_b64encode bs) = Some bs.
Proof.
  intros Hb. rewrite <- (app_nil_r (urlsafe_b64encode bs)), strict_decode_app by done.
  rewrite app_nil_r. by apply b64decode_encode.
Qed.

(** The decoder ignores a padding character after a complete group. *)
Lemma strict_decode_extra_padding bs :
  bytes_ok bs -> bs <> [] -> (length bs mod 3 = 0)%nat ->
  strict_urlsafe_b64decode (urlsafe_b64encode bs ++ [61]) = Some bs.
Proof.
  intros Hb Hne Hl. rewrite strict_decode_app by done. apply b64decode_encode_app; [done|done|].
  rewrite fmap_app, a2b_encode_app by done. cbn. by rewrite app_nil_r.
Qed.
