(* ===== verification/AeadProps.v ===== *)
(** * Properties of the AEAD container

    Proved against an interface for AES-GCM: deterministic encryption with a
    16-byte tag, and decryption that succeeds exactly on its outputs. *)

From stdpp Require Import list.
From S2P Require Export Aead.

(** What the container relies on of [AESGCM]. *)
Class AesGcm (enc : list Z -> list Z -> list Z -> list Z -> list Z)
    (dec : list Z -> list Z -> list Z -> list Z -> option (list Z)) : Prop := {
  aes_decrypt_encrypt : forall k n p a, dec k n (enc k n p a) a = Some p;
  aes_authentic : forall k n c a p, dec k n c a = Some p -> c = enc k n p a;
  aes_length : forall k n p a, len (enc k n p a) = len p + GCM_TAG_SIZE;
  aes_bytes : forall k n p a, bytes_ok p -> bytes_ok (enc k n p a)
}.

Section Container.
Context (enc : list Z -> list Z -> list Z -> list Z -> list Z)
        (dec : list Z -> list Z -> list Z -> list Z -> option (list Z)) `{!AesGcm enc dec}
        (fernet : list Z -> list Z -> option (list Z)).

(** What the base64 of a token carries. *)
Definition frame (k nonce p : list Z) (aad : option (list Z)) : list Z :=
  ALG_AES_256_GCM :: nonce ++ enc k nonce p (compose_aad ALG_AES_256_GCM aad).

Lemma frame_bytes k nonce p aad : bytes_ok nonce -> bytes_ok p -> bytes_ok (frame k nonce p aad).
Proof.
  intros Hn Hp. constructor; [by unfold is_byte, ALG_AES_256_GCM|]. apply Forall_app. split; [done|].
  by apply aes_bytes.
Qed.

Lemma frame_len k nonce p aad : len nonce = NONCE_SIZE -> len (frame k nonce p aad) = 29 + len p.
Proof.
  intros Hn. unfold frame. rewrite len_cons, len_app, Hn, aes_length. unfold NONCE_SIZE, GCM_TAG_SIZE. lia.
Qed.

Lemma encrypt_Ok c nonce pt aad tok :
  encrypt enc c nonce pt aad = Ok tok <->
  exists p, encode_utf8 pt = Ok p /\ tok = KSA_V2_PREFIX ++ urlsafe_b64encode (frame (ac_key c) nonce p aad).
Proof.
  unfold encrypt. rewrite bind_Ok. split.
  - intros (p & Hp & [= <-]). by exists p.
  - intros (p & Hp & ->). by exists p.
Qed.

Lemma has_prefix_app s : has_prefix (KSA_V2_PREFIX ++ s) = true.
Proof. unfold has_prefix. by rewrite take_app_length, bool_decide_eq_true_2. Qed.

(** The check of one decoded frame. *)
Lemma decrypt_framed c t framed aad p :
  has_prefix t = true -> strict_urlsafe_b64decode (drop (length KSA_V2_PREFIX) t) = Some framed ->
  decrypt dec fernet c (Bytes t) aad = Ok p <->
  exists nonce, len nonce = NONCE_SIZE /\ framed = frame (ac_key c) nonce p aad.
Proof.
  intros Hp Hd. unfold decrypt. cbn [encode_ascii mbind result_bind]. rewrite Hp, Hd.
  change (Z.to_nat NONCE_SIZE) with 12%nat. change (Z.to_nat ALG_ID_SIZE) with 1%nat.
  change (Z.to_nat (ALG_ID_SIZE + NONCE_SIZE)) with 13%nat. split.
  - intros H. inv_ok. bool_hyps. unfold ALG_ID_SIZE, NONCE_SIZE, GCM_TAG_SIZE in Hm.
    destruct (dec _ _ _ _) as [p'|] eqn:Hdec; [|done]. injection H as ->.
    destruct framed as [|b framed]; [rewrite len_nil in Hm; lia|]. cbn [nth drop] in *. rewrite drop_0 in Hdec.
    exists (take 12 framed). rewrite len_cons in Hm. split.
    + unfold len in *. rewrite length_take. unfold NONCE_SIZE. lia.
    + unfold frame. subst b. rewrite <- (aes_authentic _ _ _ _ _ Hdec). by rewrite take_drop.
  - intros (nonce & Hn & ->).
    assert (Hl : length nonce = 12%nat) by (unfold len, NONCE_SIZE in Hn; lia).
    ok_guard ltac:(rewrite frame_len by done; pose proof (len_nonneg p);
      unfold ALG_ID_SIZE, NONCE_SIZE, GCM_TAG_SIZE; apply Z.ltb_ge; lia).
    cbv zeta. unfold frame. cbn [nth drop]. rewrite drop_0. ok_guard ltac:(reflexivity).
    rewrite <- Hl, take_app_length, drop_app_length. by rewrite aes_decrypt_encrypt.
Qed.

Lemma decrypt_ascii c t aad : is_ascii t = true -> decrypt dec fernet c (Str t) aad = decrypt dec fernet c (Bytes t) aad.
Proof. intros Ht. unfold decrypt. cbn [encode_ascii]. by rewrite Ht. Qed.

Lemma drop_prefix s : drop (length KSA_V2_PREFIX) (KSA_V2_PREFIX ++ s) = s.
Proof. apply drop_app_length. Qed.

Lemma decrypt_encrypted c nonce pt p aad tok :
  len nonce = NONCE_SIZE -> bytes_ok nonce -> encode_utf8 pt = Ok p -> bytes_ok p ->
  encrypt enc c nonce pt aad = Ok tok -> decrypt dec fernet c (Bytes tok) aad = Ok p.
Proof.
  intros Hn Hnb Hp Hpb (p' & Hp' & ->)%encrypt_Ok. rewrite Hp in Hp'. injection Hp' as <-.
  pose proof (frame_bytes (ac_key c) nonce p aad Hnb Hpb) as Hb.
  apply (decrypt_framed c _ (frame (ac_key c) nonce p aad)).
  - apply has_prefix_app.
  - rewrite drop_prefix. by apply strict_decode_encode.
  - by exists nonce.
Qed.
End Container.

Lemma alphabet_ascii c : mem c URLSAFE_B64_ALPHABET = true -> in_range 0 127 c = true.
Proof.
  assert (Hall : forallb (in_range 0 127) URLSAFE_B64_ALPHABET = true) by (vm_compute; reflexivity).
  rewrite List.forallb_forall in Hall. intros Hc%mem_true. by apply Hall, list_elem_of_In.
Qed.

Lemma token_ascii_text bs : bytes_ok bs -> is_ascii (KSA_V2_PREFIX ++ urlsafe_b64encode bs) = true.
Proof.
  intros Hb. unfold is_ascii. rewrite forallb_app. apply andb_true_iff. split; [done|].
  apply List.forallb_forall. intros c Hc. apply list_elem_of_In in Hc. apply alphabet_ascii.
  pose proof (encode_alphabet bs Hb) as HF. rewrite list.Forall_forall in HF. by apply HF.
Qed.

(** ** The development's main properties *)

(** What is encrypted is decrypted: for any key, 12-byte nonce, byte
    plaintext and associated data, the token is recognised as version 2 and
    decrypts under the same associated data to the plaintext, given as bytes
    or as text. *)
Theorem aead_roundtrip enc dec `{!AesGcm enc dec} fernet c nonce pt p aad tok
    (Hn : len nonce = NONCE_SIZE) (Hnb : bytes_ok nonce) (Hp : encode_utf8 pt = Ok p) (Hpb : bytes_ok p)
    (He : encrypt enc c nonce pt aad = Ok tok) :
  is_v2 (Bytes tok) = true /\ decrypt dec fernet c (Bytes tok) aad = Ok p
  /\ decrypt dec fernet c (Str tok) aad = Ok p.
Proof.
  pose proof (decrypt_encrypted enc dec fernet c nonce pt p aad tok Hn Hnb Hp Hpb He) as Hd.
  apply encrypt_Ok in He as (p' & Hp' & ->). rewrite Hp in Hp'. injection Hp' as <-.
  split; [apply has_prefix_app|]. split; [done|]. rewrite decrypt_ascii; [done|].
  by apply token_ascii_text, (frame_bytes enc dec).
Qed.

(** Decryption of a version 2 token accepts exactly the frames encryption
    produces: it returns [p] when the strict base64 body is algorithm 1, a
    12-byte nonce and the AES-256-GCM encryption of [p] under that nonce, the
    cipher's key and the algorithm byte followed by the associated data;
    anything else is refused. *)
Theorem aead_decrypt_v2_exact enc dec `{!AesGcm enc dec} fernet c t aad p
    (Hp : has_prefix t = true) :
  decrypt dec fernet c (Bytes t) aad = Ok p <->
  exists nonce, len nonce = NONCE_SIZE
    /\ strict_urlsafe_b64decode (drop (length KSA_V2_PREFIX) t)
       = Some (1 :: nonce ++ enc (ac_key c) nonce p (1 :: default [] aad)).
Proof.
  destruct (strict_urlsafe_b64decode (drop (length KSA_V2_PREFIX) t)) as [framed|] eqn:Hd.
  - rewrite (decrypt_framed enc dec fernet c t framed aad p Hp Hd). split.
    + intros (nonce & Hn & ->). by exists nonce.
    + intros (nonce & Hn & [= ->]). by exists nonce.
  - split; [|by intros (? & _ & ?)]. unfold decrypt. cbn [encode_ascii mbind result_bind].
    by rewrite Hp, Hd.
Qed.

(** Decryption fails closed: on bytes or ASCII text every failure is a
    [DecryptionError], whatever AES-GCM, Fernet and the token; and a token
    without the version 2 prefix never succeeds with associated data. *)
Theorem aead_decrypt_errors dec fernet c token aad :
  (forall e, decrypt dec fernet c token aad = Raise e ->
     (exists m, e = DecryptionError m) \/ exists s, token = Str s /\ is_ascii s = false)
  /\ (forall t p a, encode_ascii token = Ok t -> has_prefix t = false -> aad = Some a ->
        decrypt dec fernet c token aad <> Ok p).
Proof.
  split.
  - intros e H. unfold decrypt in H. apply bind_Raise in H as [H|(t & Ht & H)].
    { destruct token as [b|s]; [done|]. right. exists s. cbn in H. by destruct (is_ascii s). }
    left. destruct (has_prefix t).
    + destruct (strict_urlsafe_b64decode _) as [framed|]; [|injection H as <-; by eexists].
      apply bind_Raise in H as [H|([] & _ & H)]; [apply raise_if_Raise in H as [_ <-]; by eexists|].
      apply bind_Raise in H as [H|([] & _ & H)]; [apply raise_if_Raise in H as [_ <-]; by eexists|].
      destruct (dec _ _ _ _); [done|injection H as <-; by eexists].
    + destruct aad; [injection H as <-; by eexists|].
      destruct (fernet _ _); [done|injection H as <-; by eexists].
  - intros t p a Ht Hp -> H. unfold decrypt in H. rewrite Ht in H. cbn in H. by rewrite Hp in H.
Qed.

(** Keys: a 32-byte key is used as it is, a generated key is read back to
    its 32 random bytes, and every accepted key is 32 bytes long. *)
Theorem aead_key_exact :
  (forall k, len k = KEY_SIZE -> coerce_to_raw_key (Bytes k) = Ok k)
  /\ (forall k, len k = KEY_SIZE -> bytes_ok k -> coerce_to_raw_key (Bytes (generate_key k)) = Ok k)
  /\ (forall key raw, coerce_to_raw_key key = Ok raw -> len raw = KEY_SIZE).
Proof.
  assert (Hlen : forall bs, len (urlsafe_b64encode bs) = 4 * ((len bs + 2) / 3)).
  { intros bs. induction bs as [|a|a b|a b c bs IH] using group_ind; try done.
    cbn [urlsafe_b64encode]. rewrite !len_cons, IH.
    replace (1 + (1 + (1 + len bs)) + 2) with (len bs + 2 + 1 * 3) by lia. rewrite Z.div_add by done. lia. }
  split_and!.
  - intros k Hk. unfold coerce_to_raw_key. cbn. by rewrite Hk.
  - intros k Hk Hb. unfold coerce_to_raw_key, generate_key. cbn [encode_ascii mbind result_bind].
    assert (Hne : (len (urlsafe_b64encode k) =? KEY_SIZE) = false).
    { by rewrite Hlen, Hk. }
    rewrite Hne, b64decode_encode by done. rewrite Hk. done.
  - intros key raw H. unfold coerce_to_raw_key in H. apply bind_Ok in H as (k & _ & H).
    destruct (Z.eqb_spec (len k) KEY_SIZE); [by injection H as <-|].
    destruct (b64decode false k) as [d|]; [|done]. inv_ok. by bool_hyps.
Qed.

(** A token is not the only textual form of its ciphertext: when the frame
    fills whole base64 groups, the token with a padding character appended is
    a different token that decrypts to the same plaintext. *)
Theorem aead_token_second_form enc dec `{!AesGcm enc dec} fernet c nonce pt p aad tok
    (Hn : len nonce = NONCE_SIZE) (Hnb : bytes_ok nonce) (Hp : encode_utf8 pt = Ok p) (Hpb : bytes_ok p)
    (Hl : (29 + len p) mod 3 = 0) (He : encrypt enc c nonce pt aad = Ok tok) :
  tok <> tok ++ [61] /\ decrypt dec fernet c (Bytes (tok ++ [61])) aad = Ok p.
Proof.
  apply encrypt_Ok in He as (p' & Hp' & ->). rewrite Hp in Hp'. injection Hp' as <-.
  pose proof (frame_bytes enc dec (ac_key c) nonce p aad Hnb Hpb) as Hb. split.
  - intros H. apply (f_equal length) in H. rewrite (length_app _ [61]) in H. change (length [61]) with 1%nat in H. lia.
  - rewrite <- app_assoc.
    apply (decrypt_framed enc dec fernet c _ (frame enc (ac_key c) nonce p aad)).
    + apply has_prefix_app.
    + rewrite drop_prefix. apply strict_decode_extra_padding; [done|done|].
      pose proof (frame_len enc dec (ac_key c) nonce p aad Hn) as Hfl. unfold len in Hfl, Hl.
      apply Nat2Z.inj. rewrite Nat2Z.inj_mod, Hfl. exact Hl.
    + by exists nonce.
Qed.

(** ** A concrete cipher: the tag is the key's first byte, sixteen times. *)

Definition toy_tag (k n p a : list Z) : list Z := replicate 16 (Z.land (foldr Z.add 0 (k ++ n ++ p ++ a)) 255).
Definition toy_encrypt (k n p a : list Z) : list Z := p ++ toy_tag k n p a.
Definition toy_decrypt (k n c a : list Z) : option (list Z) :=
  let p := take (length c - 16) c in
  if decide (c = toy_encrypt k n p a) then Some p else None.

#[export] Instance toy_aes : AesGcm toy_encrypt toy_decrypt.
Proof.
  split.
  - intros k n p a. unfold toy_decrypt. 
    assert (Ht : take (length (toy_encrypt k n p a) - 16) (toy_encrypt k n p a) = p).
    { unfold toy_encrypt, toy_tag. rewrite length_app, length_replicate, Nat.add_sub. apply take_app_length. }
    by rewrite Ht, decide_True.
  - intros k n c a p. unfold toy_decrypt. case_decide as H; [|done]. intros [= <-]. done.
  - intros. unfold toy_encrypt, toy_tag, len, GCM_TAG_SIZE. rewrite length_app, length_replicate. lia.
  - intros k n p a Hp. unfold toy_encrypt, toy_tag. apply Forall_app. split; [done|].
    apply Forall_replicate. unfold is_byte. change 255 with (Z.ones 8). rewrite Z.land_ones by lia.
    apply Z.mod_pos_bound. lia.
Qed.

Definition toy_cipher : AEADCipher := MkCipher (replicate 32 7) [].
Definition toy_fernet (k t : list Z) : option (list Z) := None.
Definition toy_nonce : list Z := replicate 12 9.
Definition toy_token : list Z :=
  match encrypt toy_encrypt toy_cipher toy_nonce (Str (u "x")) (Some [5]) with Ok t => t | Raise _ => [] end.

Lemma aead_roundtrip_witness :
  decrypt toy_decrypt toy_fernet toy_cipher (Str toy_token) (Some [5]) = Ok (u "x").
Proof.
  destruct (aead_roundtrip toy_encrypt toy_decrypt toy_fernet toy_cipher toy_nonce (Str (u "x")) (u "x")
    (Some [5]) toy_token) as (_ & _ & H).
  - reflexivity.
  - apply (bool_decide_unpack (Forall is_byte toy_nonce)). vm_compute. exact I.
  - reflexivity.
  - apply (bool_decide_unpack (Forall is_byte (u "x"))). vm_compute. exact I.
  - vm_compute. reflexivity.
  - exact H.
Defined.

Lemma aead_token_second_form_witness :
  toy_token <> toy_token ++ [61]
  /\ decrypt toy_decrypt toy_fernet toy_cipher (Bytes (toy_token ++ [61])) (Some [5]) = Ok (u "x").
Proof.
  apply (aead_token_second_form toy_encrypt toy_decrypt toy_fernet toy_cipher toy_nonce (Str (u "x")) (u "x")
    (Some [5]) toy_token).
  - reflexivity.
  - apply (bool_decide_unpack (Forall is_byte toy_nonce)). vm_compute. exact I.
  - reflexivity.
  - apply (bool_decide_unpack (Forall is_byte (u "x"))). vm_compute. exact I.
  - vm_compute. reflexivity.
  - vm_compute. reflexivity.
Defined.

Lemma aead_decrypt_v2_exact_witness :
  exists nonce, len nonce = NONCE_SIZE
    /\ strict_urlsafe_b64decode (drop (length KSA_V2_PREFIX) toy_token)
       = Some (frame toy_encrypt (ac_key toy_cipher) nonce (u "x") (Some [5])).
Proof.
  apply (aead_decrypt_v2_exact toy_encrypt toy_decrypt toy_fernet toy_cipher toy_token (Some [5]) (u "x"));
    vm_compute; reflexivity.
Defined.
