(* ===== verification/Signals.v ===== *)
(** * Signal records ([kestrel_sdk/signals/models.py])

    Modes, trust, urgency, throttling and attention policies, the source
    registration and the signal envelope.  The dataclasses check nothing;
    callables, payloads and results are opaque, a [time] or [timedelta] is
    its count of microseconds. *)

From stdpp Require Import gmap.
From S2P Require Export PyData.

(** A value used as a set member: text, a hashable object (one number per
    class of equal objects), an unhashable one. *)
Inductive dynkey : Type :=
| KeyText (s : pystr)
| KeyObject (id : positive)
| KeyUnhashable.

#[global] Instance dynkey_eq_dec : EqDecision dynkey.
Proof. solve_decision. Defined.

Inductive SignalMode : Type := ACTION_MODE | ARTIFACT_MODE | COGNITION_MODE.
Inductive Trust : Type := TRUSTED | UNTRUSTED.
Inductive Urgency : Type := URGENCY_LOW | URGENCY_NORMAL | URGENCY_HIGH.
Inductive Visibility : Type := INTERNAL | USER_VISIBLE | ADMIN_VISIBLE.
Inductive SignalStatus : Type :=
| STATUS_OK | COALESCED | DROPPED_RATE_LIMIT | DROPPED_QUIET_HOURS | DROPPED_CYCLE
| DROPPED_VALIDATION | STATUS_FAILED.
Inductive ResourceLock : Type :=
| LOCK_CONVERSATION | LOCK_MEMORY | LOCK_WALLET | LOCK_SCHEDULER | LOCK_A2A | LOCK_SIGNAL_LOG.

(** [order[self] >= order[other]] *)
Definition urgency_order (x : Urgency) : Z :=
  match x with URGENCY_LOW => 0 | URGENCY_NORMAL => 1 | URGENCY_HIGH => 2 end.

Definition at_or_above (self other : Urgency) : bool := urgency_order other <=? urgency_order self.

Record CausationFrame := MkCausation {
  ca_agent_id : pystr;
  ca_source : pystr;
  ca_signal_id : pystr;
  ca_turn_id : option pystr;
  ca_depth : Z;
  ca_emitted_at : datetime
}.

Record RateLimit := MkRateLimit {
  rl_per_minute : option Z;
  rl_per_hour : option Z;
  rl_burst : option Z
}.

Definition default_rate_limit : RateLimit := MkRateLimit None None None.

Record AttentionPolicy := MkAttention {
  at_quiet_hours : option (Z * Z);
  at_tz : pystr;
  at_modes_governed : list SignalMode;
  at_urgency_override : Urgency
}.

Definition default_attention : AttentionPolicy :=
  MkAttention None (u "UTC") [COGNITION_MODE; ARTIFACT_MODE] URGENCY_HIGH.

Inductive PromptTemplateFormat : Type := CLAUDE_CODE | CODEX | LOCAL_FORMAT | BARE.
Inductive ConstitutionInjection : Type := INJECT_FULL | INJECT_NONE.

Section Records.
Context {callable payload value : Type}.

Record RedactionPolicy := MkRedaction {
  rd_summarize : callable;
  rd_store_raw_trusted : bool;
  rd_redact_caller_identifier : bool
}.

Record SourceRegistration := MkSource {
  src_name : dynkey;
  src_schema : callable;
  src_default_mode : SignalMode;
  src_allowed_modes : list SignalMode;
  src_handler : option callable;
  src_artifact_handler : option callable;
  src_prompt_template : option pystr;
  src_trust : Trust;
  src_sanitizer : option callable;
  src_rate_limit : RateLimit;
  src_coalescing_window : option Z;
  src_attention_policy : AttentionPolicy;
  src_resources : list ResourceLock;
  src_allow_self_loops : bool;
  src_log_redaction : option RedactionPolicy;
  src_retention_days : Z;
  src_result_summary : option callable;
  src_require_constitution_echo : bool;
  src_prompt_template_format : PromptTemplateFormat;
  src_constitution_injection : ConstitutionInjection;
  src_system_prompt_budget_bytes : option Z
}.

(** The constructor call with the four fields that have no default. *)
Definition source_registration (name : dynkey) (schema : callable) (default_mode : SignalMode)
    (allowed_modes : list SignalMode) : SourceRegistration :=
  MkSource name schema default_mode allowed_modes None None None TRUSTED None default_rate_limit None
    default_attention [] false None 30 None false CLAUDE_CODE INJECT_NONE None.

Record Signal := MkSignal {
  sgn_source : pystr;
  sgn_kind : pystr;
  sgn_mode : SignalMode;
  sgn_payload : payload;
  sgn_target_agent : pystr;
  sgn_visibility : Visibility;
  sgn_session_id : option pystr;
  sgn_caller : option pystr;
  sgn_urgency : Urgency;
  sgn_dedupe_key : option pystr;
  sgn_origin_trust : Trust;
  sgn_causation_chain : list CausationFrame;
  sgn_id : pystr;
  sgn_arrived_at : datetime
}.

Record SignalResult := MkSignalResult {
  sgr_signal_id : pystr;
  sgr_status : SignalStatus;
  sgr_mode : SignalMode;
  sgr_duration_ms : Z;
  sgr_turn_id : option pystr;
  sgr_artifact : value;
  sgr_action_result : value;
  sgr_error : option pystr
}.
End Records.
Arguments SourceRegistration : clear implicits.
Arguments RedactionPolicy : clear implicits.

(** [at_or_above] is a total order on the urgencies. *)
Lemma at_or_above_total a b : at_or_above a b = true \/ at_or_above b a = true.
Proof. destruct a, b; auto. Qed.

Lemma at_or_above_trans a b c : at_or_above a b = true -> at_or_above b c = true -> at_or_above a c = true.
Proof. by destruct a, b, c. Qed.

Lemma at_or_above_antisymm a b : at_or_above a b = true -> at_or_above b a = true -> a = b.
Proof. by destruct a, b. Qed.
