(* ===== verification/Features.v ===== *)
(** * Feature contributions ([kestrel_sdk/features/contributions.py])

    The registrations a feature returns to the host: permission defaults,
    wait providers, workflows with their signal sources
    ([kestrel_sdk/signals/models.py]), context clauses and setup steps, and
    the checks the host applies to a complete set of contributions.
    Callables and providers are opaque. *)

From stdpp Require Import gmap.
From S2P Require Export Discovery ValidationProps Signals.

(** ** Arguments as the code's [isinstance] tests see them *)

(** An argument expected to be a member of a string-valued enum. *)
Inductive dynenum (E : Type) : Type :=
| Member (e : E)
| EnumText (s : pystr)
| NotEnum.
Arguments Member {E} e.
Arguments EnumText {E} s.
Arguments NotEnum {E}.

(** An argument expected to be a tuple. *)
Inductive dyntuple (A : Type) : Type :=
| Tuple (l : list A)
| NotTuple.
Arguments Tuple {A} l.
Arguments NotTuple {A}.

Definition key_text (k : dynkey) : dyn pystr :=
  match k with KeyText s => Inst s | _ => Foreign end.

(** [m[k]] *)
Definition getitem {V} (m : gmap pystr V) (k : pystr) : res V :=
  match m !! k with Some v => Ok v | None => Raise (KeyError "missing key") end.

(** ** Permission defaults *)

Inductive PermissionLevel : Type := ALLOW | AUTO | DENY | ALWAYS_ASK | ASK | SESSION.

#[global] Instance PermissionLevel_eq_dec : EqDecision PermissionLevel.
Proof. solve_decision. Defined.

Definition permission_levels : list PermissionLevel := [ALLOW; AUTO; DENY; ALWAYS_ASK; ASK; SESSION].

Definition permission_value (l : PermissionLevel) : pystr :=
  match l with
  | ALLOW => u "allow" | AUTO => u "auto" | DENY => u "deny"
  | ALWAYS_ASK => u "always_ask" | ASK => u "ask" | SESSION => u "session"
  end.

(** [Enum(value)]: the first member with the value. *)
Definition by_value {E} (members : list E) (value : E -> pystr) (s : pystr) : option E :=
  List.find (fun e => bool_decide (value e = s)) members.

Definition _permission_level (value : dynenum PermissionLevel) (field_name : string)
    : res PermissionLevel :=
  let err := ValueError (field_name +:+ " must be one of: allow, auto, deny, always_ask, ask, session") in
  match value with
  | Member l => Ok l
  | EnumText s =>
      match by_value permission_levels permission_value s with
      | Some l => Ok l
      | None => Raise err
      end
  | NotEnum => Raise err
  end.

Record FeaturePermissionDefaults := MkPermissionDefaults {
  fp_feature_default : PermissionLevel;
  fp_tool_overrides : gmap pystr PermissionLevel
}.

(** [tool_overrides] is the list of items of the mapping, [None] for an
    argument that is not a [Mapping]. *)
Definition permission_defaults_post_init (feature_default : dynenum PermissionLevel)
    (tool_overrides : option (list (dyn pystr * dynenum PermissionLevel)))
    : res FeaturePermissionDefaults :=
  default ← _permission_level feature_default "feature_default";
  match tool_overrides with
  | None => Raise (TypeError "tool_overrides must be a mapping")
  | Some items =>
      overrides ← foldM (fun overrides '(tool_name, level) =>
        name ← stable_token tool_name "tool name";
        l ← _permission_level level "tool_overrides[name]";
        Ok (<[name := l]> overrides)) ∅ items;
      Ok (MkPermissionDefaults default overrides)
  end.

(** ** Owned registrations *)

Definition _owned_identity (owner name : dyn pystr) : res (pystr * pystr) :=
  o ← stable_token owner "owner";
  n ← stable_token name "name";
  Ok (o, n).

(** [set(values)] of possibly unhashable elements. *)
Definition hash_all (l : list dynkey) : res unit :=
  raise_if (mem KeyUnhashable l) (TypeError "unhashable type").

Section Registrations.
(** Callables, and objects that satisfy the [Waitable] protocol with the
    value of their [kind] attribute. *)
Context {callable provider service : Type} (kind : provider -> dyn pystr).

Record WaitProviderRegistration := MkWaitProvider {
  wp_owner : pystr;
  wp_name : pystr;
  wp_provider : provider
}.

Definition wait_provider_post_init (owner name : dyn pystr) (p : dyn provider)
    : res WaitProviderRegistration :=
  '(o, n) ← _owned_identity owner name;
  pr ← require_instance p (TypeError "provider must implement kestrel_sdk.tools.Waitable");
  _ ← raise_if (mem 58 n) (ValueError "wait provider name must not contain ':'");
  _ ← raise_if (match kind pr with Inst k => negb (bool_decide (k = n)) | Foreign => true end)
        (ValueError "wait provider name must match provider.kind");
  Ok (MkWaitProvider o n pr).

Definition wait_provider_identity (self : WaitProviderRegistration) : pystr * pystr :=
  (wp_owner self, wp_name self).

Record WorkflowRegistration := MkWorkflow {
  wf_owner : pystr;
  wf_name : pystr;
  wf_actor : callable;
  wf_sources : list (SourceRegistration callable)
}.

Definition workflow_post_init (owner name : dyn pystr) (actor : dyn callable)
    (sources : dyniter (dyn (SourceRegistration callable))) : res WorkflowRegistration :=
  '(o, n) ← _owned_identity owner name;
  a ← require_instance actor (TypeError "actor must be callable");
  vs ← match sources with
       | Iter l => Ok l
       | _ => Raise (TypeError "sources must be an iterable of SourceRegistration values")
       end;
  srcs ← traverse (fun s => require_instance s
            (TypeError "sources must contain kestrel_sdk.signals.SourceRegistration values")) vs;
  let source_names := src_name <$> srcs in
  _ ← hash_all source_names;
  _ ← raise_if (negb (no_dup source_names)) (ValueError "workflow source names must be unique");
  Ok (MkWorkflow o n a srcs).

Definition workflow_identity (self : WorkflowRegistration) : pystr * pystr :=
  (wf_owner self, wf_name self).

Record ContextClauseRegistration := MkContextClause {
  cc_owner : pystr;
  cc_name : pystr;
  cc_priority : Z;
  cc_renderer : callable
}.

Definition context_clause_post_init (owner name : dyn pystr) (priority : dynint) (renderer : dyn callable)
    : res ContextClauseRegistration :=
  '(o, n) ← _owned_identity owner name;
  p ← require_int priority (TypeError "priority must be an int");
  r ← require_instance renderer (TypeError "renderer must be callable");
  Ok (MkContextClause o n p r).

Definition context_clause_identity (self : ContextClauseRegistration) : pystr * pystr :=
  (cc_owner self, cc_name self).

(** ** Setup steps *)

Inductive SetupFlow : Type := SETUP | CHECK.

Definition setup_flow_value (f : SetupFlow) : pystr :=
  match f with SETUP => u "setup" | CHECK => u "check" end.

(** [OtherEnum v] is a member of another enum whose value is [v]. *)
Inductive flow_arg : Type :=
| IsFlow (f : SetupFlow)
| OtherEnum (value : dyn pystr)
| FlowText (s : pystr)
| NotFlow.

Definition normalize_setup_flow (value : flow_arg) : res SetupFlow :=
  match value with
  | IsFlow f => Ok f
  | _ =>
      let candidate := match value with
                       | OtherEnum v => v
                       | FlowText s => Inst s
                       | _ => Foreign
                       end in
      s ← require_instance candidate (TypeError "setup flow must be a SetupFlow or string-valued Enum");
      match by_value [SETUP; CHECK] setup_flow_value s with
      | Some f => Ok f
      | None => Raise (ValueError "setup flow must be one of: setup, check")
      end
  end.

Inductive SetupStepClassification : Type := DEFAULT | OPTIONAL.

Definition classification_value (c : SetupStepClassification) : pystr :=
  match c with DEFAULT => u "default" | OPTIONAL => u "optional" end.

Definition classify (value : dynenum SetupStepClassification) : res SetupStepClassification :=
  match value with
  | Member c => Ok c
  | EnumText s =>
      match by_value [DEFAULT; OPTIONAL] classification_value s with
      | Some c => Ok c
      | None => Raise (ValueError "classification must be 'default' or 'optional'")
      end
  | NotEnum => Raise (TypeError "classification must be a SetupStepClassification")
  end.

Record SetupStepRegistration := MkSetupStep {
  st_owner : pystr;
  st_name : pystr;
  st_step : callable;
  st_classification : SetupStepClassification;
  st_order : Z;
  st_before : list pystr;
  st_after : list pystr
}.

(** [unique_tuple] of possibly unhashable elements. *)
Definition unique_keys (values : dyniter dynkey) (field_name : string) : res (list dynkey) :=
  _ ← match values with Iter l => hash_all l | _ => Ok tt end;
  unique_tuple values field_name.

Definition relative_name (self_name : pystr) (k : dynkey) : res pystr :=
  n ← stable_token (key_text k) "ordering name";
  _ ← raise_if (bool_decide (n = self_name)) (ValueError "a setup step cannot order itself");
  Ok n.

Definition setup_step_post_init (owner name : dyn pystr) (step : dyn callable)
    (classification : dynenum SetupStepClassification) (order : dynint) (before after : dyniter dynkey)
    : res SetupStepRegistration :=
  '(o, n) ← _owned_identity owner name;
  s ← require_instance step (TypeError "step must be callable");
  c ← classify classification;
  z ← require_int order (TypeError "order must be an int");
  bs ← unique_keys before "before";
  xs ← unique_keys after "after";
  ns ← traverse (relative_name n) (bs ++ xs);
  let b := take (length bs) ns in
  let a := drop (length bs) ns in
  _ ← raise_if (existsb (fun x => mem x a) b)
        (ValueError "the same setup step cannot appear in before and after");
  Ok (MkSetupStep o n s c z b a).

Definition setup_step_identity (self : SetupStepRegistration) : pystr * pystr :=
  (st_owner self, st_name self).

(** ** The complete set *)

Definition _typed_tuple {A} (value : dyntuple (dyn A)) (field_name : string) : res (list A) :=
  match value with
  | NotTuple => Raise (ContributionContractError (field_name +:+ " must be returned as a tuple"))
  | Tuple l =>
      traverse (fun item => require_instance item
        (ContributionContractError (field_name +:+ " must contain only values of its type"))) l
  end.

(** [except (TypeError, ValueError) as exc: raise ContributionContractError(str(exc))] *)
Definition contract {A} (m : res A) : res A :=
  match m with
  | Raise (TypeError t) | Raise (ValueError t) => Raise (ContributionContractError t)
  | _ => m
  end.

Record FeatureContributionSet := MkContributions {
  fc_services : list (ServiceRegistration service);
  fc_wait_providers : list WaitProviderRegistration;
  fc_workflows : list WorkflowRegistration;
  fc_permission_defaults : option FeaturePermissionDefaults;
  fc_setup_steps : list SetupStepRegistration;
  fc_context_clauses : list ContextClauseRegistration
}.

(** The loop over one method's registrations. *)
Definition check_family {R I} `{EqDecision I} (owner : R -> pystr) (identity : R -> I)
    (contribution_owner : pystr) (method_name : string) (registrations : list R) : res (list I) :=
  foldM (fun identities r =>
    _ ← raise_if (negb (bool_decide (owner r = contribution_owner)))
          (ContributionContractError (method_name +:+ " declared owner"));
    _ ← raise_if (mem (identity r) identities)
          (ContributionContractError (method_name +:+ " returned duplicate identity"));
    Ok (identity r :: identities)) [] registrations.

Definition check_sources (workflows : list WorkflowRegistration) : res (list dynkey) :=
  foldM (fun source_names source =>
    _ ← raise_if (mem (src_name source) source_names)
          (ContributionContractError "duplicate workflow source name");
    Ok (src_name source :: source_names)) [] (workflows ≫= wf_sources).

Definition check_overrides (permission_defaults : option (dyn FeaturePermissionDefaults))
    (actual_tool_names : gset pystr) : res (option FeaturePermissionDefaults) :=
  match permission_defaults with
  | None => Ok None
  | Some d =>
      p ← require_instance d
            (ContributionContractError "permission defaults must be FeaturePermissionDefaults or None");
      let unknown_overrides := dom (fp_tool_overrides p) ∖ actual_tool_names in
      _ ← raise_if (negb (bool_decide (unknown_overrides = ∅)))
            (ContributionContractError "permission overrides reference unknown feature tools");
      Ok (Some p)
  end.

Definition validate_feature_contributions (contribution_owner : dyn pystr)
    (tool_names : dyniter (dyn pystr))
    (services : dyntuple (dyn (ServiceRegistration service)))
    (wait_providers : dyntuple (dyn WaitProviderRegistration))
    (workflows : dyntuple (dyn WorkflowRegistration))
    (permission_defaults : option (dyn FeaturePermissionDefaults))
    (setup_steps : dyntuple (dyn SetupStepRegistration))
    (context_clauses : dyntuple (dyn ContextClauseRegistration)) : res FeatureContributionSet :=
  owner ← contract (stable_token contribution_owner "feature contribution_owner");
  actual_tool_names ← contract (frozen_tokens tool_names "feature tool names");
  service_values ← _typed_tuple services "services";
  wait_values ← _typed_tuple wait_providers "wait providers";
  workflow_values ← _typed_tuple workflows "workflow registrations";
  setup_values ← _typed_tuple setup_steps "setup step registrations";
  context_clause_values ← _typed_tuple context_clauses "context clause registrations";
  defaults ← check_overrides permission_defaults actual_tool_names;
  _ ← check_family sg_owner registration_identity owner "get_service_registrations" service_values;
  _ ← check_family wp_owner wait_provider_identity owner "get_wait_provider_registrations" wait_values;
  _ ← check_family wf_owner workflow_identity owner "get_workflow_registrations" workflow_values;
  _ ← check_family st_owner setup_step_identity owner "get_setup_step_registrations" setup_values;
  _ ← check_family cc_owner context_clause_identity owner "get_context_clause_registrations"
        context_clause_values;
  _ ← check_sources workflow_values;
  Ok (MkContributions service_values wait_values workflow_values defaults setup_values
        context_clause_values).

Definition validate_contribution_owner_uniqueness (contribution_owners : dyniter (dyn pystr))
    : res (list pystr) :=
  match contribution_owners with
  | Iter owners =>
      foldM (fun seen owner =>
        o ← contract (stable_token owner "feature contribution_owner");
        _ ← raise_if (mem o seen) (ContributionContractError "duplicate active feature contribution_owner");
        Ok (seen ++ [o])) [] owners
  | _ => Raise (ContributionContractError "contribution owners must be an iterable of stable tokens")
  end.
End Registrations.
Arguments WaitProviderRegistration : clear implicits.
Arguments WorkflowRegistration : clear implicits.
Arguments ContextClauseRegistration : clear implicits.
Arguments SetupStepRegistration : clear implicits.
Arguments FeatureContributionSet : clear implicits.

Lemma getitem_Ok {V} (m : gmap pystr V) k v : getitem m k = Ok v <-> m !! k = Some v.
Proof. unfold getitem. destruct (m !! k); naive_solver. Qed.
