(* ===== verification/SetupOrder.v ===== *)
(** * Setup step ordering ([kestrel_sdk/features/contributions.py])

    [order_setup_step_registrations]: Kahn's algorithm over the [before] and
    [after] names of the active steps, with a heap of [(order, name)] keys.
    The heap of [heapq] is kept as its sorted list; the order in which a
    Python set is iterated is a parameter. *)

From stdpp Require Import gmap sorting.
From S2P Require Export Features.

(** ** Heap keys: tuples compared lexicographically *)

Abbreviation key := (Z * pystr)%type.

Definition key_leb (a b : key) : bool :=
  (a.1 <? b.1) || ((a.1 =? b.1) && str_leb a.2 b.2).

Definition key_le (a b : key) : Prop := key_leb a b = true.

#[global] Instance key_le_dec : RelDecision key_le.
Proof. intros a b. unfold key_le. apply _. Defined.

Definition heapify (l : list key) : list key := merge_sort key_le l.

Fixpoint heappush (x : key) (h : list key) : list key :=
  match h with
  | [] => [x]
  | y :: h' => if decide (key_le x y) then x :: h else y :: heappush x h'
  end.

Section Order.
Context {callable : Type}.
Abbreviation reg := (SetupStepRegistration callable).
(** The order in which a set of names is iterated. *)
Variable set_iter : gset pystr -> list pystr.

Definition _require_setup_reference (reference : pystr) (registrations : gmap pystr reg) : res unit :=
  raise_if (negb (bool_decide (reference ∈ dom registrations)))
    (ContributionContractError "setup step references unknown step").

(** [by_name] *)
Definition index_steps (steps : list reg) : res (gmap pystr reg) :=
  foldM (fun by_name r =>
    _ ← raise_if (bool_decide (st_name r ∈ dom by_name))
          (ContributionContractError "duplicate setup step name");
    Ok (<[st_name r := r]> by_name)) ∅ steps.

Record graph := MkGraph { outgoing : gmap pystr (gset pystr); indegree : gmap pystr Z }.

Definition empty_graph (by_name : gmap pystr reg) : graph :=
  MkGraph ((fun _ => ∅) <$> by_name) ((fun _ => 0) <$> by_name).

(** [if b not in outgoing[a]: outgoing[a].add(b); indegree[b] += 1] *)
Definition add_edge (g : graph) (a b : pystr) : res graph :=
  out ← getitem (outgoing g) a;
  if bool_decide (b ∈ out) then Ok g
  else
    d ← getitem (indegree g) b;
    Ok (MkGraph (<[a := out ∪ {[b]}]> (outgoing g)) (<[b := d + 1]> (indegree g))).

Definition add_step_edges (by_name : gmap pystr reg) (g : graph) (r : reg) : res graph :=
  g ← foldM (fun g target =>
        _ ← _require_setup_reference target by_name; add_edge g (st_name r) target) g (st_before r);
  foldM (fun g dependency =>
    _ ← _require_setup_reference dependency by_name; add_edge g dependency (st_name r)) g (st_after r).

(** One successor of the popped name: the counts and the heap. *)
Definition release (by_name : gmap pystr reg) (s : gmap pystr Z * list key) (successor : pystr)
    : res (gmap pystr Z * list key) :=
  let '(indegree, ready) := s in
  d ← getitem indegree successor;
  let indegree := <[successor := d - 1]> indegree in
  if d - 1 =? 0 then
    r ← getitem by_name successor;
    Ok (indegree, heappush (st_order r, st_name r) ready)
  else Ok (indegree, ready).

(** [while ready: ...]; [fuel] bounds the number of pops. *)
Fixpoint drain_ready (fuel : nat) (by_name : gmap pystr reg) (outgoing : gmap pystr (gset pystr))
    (indegree : gmap pystr Z) (ready : list key) (ordered : list reg) : res (list reg) :=
  match ready with
  | [] => Ok ordered
  | (_, name) :: ready =>
      match fuel with
      | O => Raise FuelExhausted
      | S fuel =>
          r ← getitem by_name name;
          out ← getitem outgoing name;
          '(indegree, ready) ← foldM (release by_name) (indegree, ready) (set_iter out);
          drain_ready fuel by_name outgoing indegree ready (ordered ++ [r])
      end
  end.

Definition initial_ready (indegree : gmap pystr Z) (steps : list reg) : res (list key) :=
  keys ← traverse (fun r => d ← getitem indegree (st_name r); Ok (d, (st_order r, st_name r))) steps;
  Ok (heapify (snd <$> base.filter (fun '(d, _) => d = 0) keys)).

(** The body after [_typed_tuple]. *)
Definition order_steps (steps : list reg) : res (list reg) :=
  by_name ← index_steps steps;
  g ← foldM (add_step_edges by_name) (empty_graph by_name) steps;
  ready ← initial_ready (indegree g) steps;
  ordered ← drain_ready (length steps) by_name (outgoing g) (indegree g) ready [];
  _ ← raise_if (negb (len ordered =? len steps))
        (ContributionContractError "setup step ordering contains a cycle");
  Ok ordered.

Definition order_setup_step_registrations (registrations : dyntuple (dyn reg)) : res (list reg) :=
  steps ← _typed_tuple registrations "setup step registrations";
  order_steps steps.
End Order.

(** ** The heap *)

#[global] Instance key_le_total : Total key_le.
Proof.
  intros [z s] [z' s']. unfold key_le, key_leb; cbn.
  destruct (Z.ltb_spec z z'), (Z.eqb_spec z z'), (Z.ltb_spec z' z), (Z.eqb_spec z' z); cbn; try lia; auto.
  apply (total str_le).
Qed.

#[global] Instance key_le_trans : Transitive key_le.
Proof.
  intros [z s] [z' s'] [z'' s'']. unfold key_le, key_leb; cbn.
  rewrite !orb_true_iff, !andb_true_iff, !Z.ltb_lt, !Z.eqb_eq.
  intros [?|[-> ?]] [?|[-> ?]]; [left; lia..|]. right. split; [done|]. by eapply str_le_trans.
Qed.

#[global] Instance key_le_antisymm : AntiSymm (=) key_le.
Proof.
  intros [z s] [z' s']. unfold key_le, key_leb; cbn.
  rewrite !orb_true_iff, !andb_true_iff, !Z.ltb_lt, !Z.eqb_eq.
  intros [?|[-> ?]] [?|[Heq ?]]; try lia. f_equal. by apply (anti_symm str_le).
Qed.

Lemma heappush_perm x h : heappush x h ≡ₚ x :: h.
Proof.
  induction h as [|y h IH]; cbn; [done|]. case_decide; [done|].
  rewrite IH. apply Permutation_swap.
Qed.

Lemma heappush_sorted x h : StronglySorted key_le h -> StronglySorted key_le (heappush x h).
Proof.
  induction 1 as [|y h Hs IH Hy]; cbn; [repeat constructor|].
  case_decide as Hxy.
  - constructor; [by constructor|]. constructor; [done|].
    eapply list.Forall_impl; [exact Hy|]. intros z Hz. by etransitivity.
  - constructor; [done|]. apply list.Forall_forall. intros z Hz.
    rewrite heappush_perm in Hz. apply list.elem_of_cons in Hz as [->|Hz].
    + by destruct (total key_le x y).
    + rewrite list.Forall_forall in Hy. auto.
Qed.

Lemma heapify_perm l : heapify l ≡ₚ l.
Proof. apply merge_sort_Permutation. Qed.

Lemma heapify_sorted l : StronglySorted key_le (heapify l).
Proof. apply (StronglySorted_merge_sort _). Qed.

(** The head of a heap is below all of it. *)
Lemma heap_min x h y : StronglySorted key_le (x :: h) -> y ∈ x :: h -> key_le x y.
Proof.
  intros Hs Hy. apply list.elem_of_cons in Hy as [->|Hy].
  - by destruct (total key_le x x).
  - inversion Hs as [|? ? _ HF]; subst. rewrite list.Forall_forall in HF. auto.
Qed.
