(* ===== verification/SetupOrderProps.v ===== *)
(** * Setup step ordering: theorems

    The order is the unique listing of the steps that respects every
    [before] and [after] edge and, at each position, takes the least
    [(order, name)] among the steps whose predecessors are already placed;
    a failure is exactly a duplicate name, an unknown reference or a cycle. *)

From stdpp Require Import gmap sorting relations.
From S2P Require Export SetupOrder.

(** A finite set in which every element has a predecessor has a cycle. *)
Lemma no_source_chain {A} `{EqDecision A} (R : relation A) (l : list A) :
  (forall x, x ∈ l -> exists y, y ∈ l /\ R y x) ->
  forall n x c, (length l <= n + length (x :: c))%nat -> NoDup (x :: c) -> x :: c ⊆ l ->
  (forall z, z ∈ c -> tc R x z) -> exists z, tc R z z.
Proof.
  intros Hpred n. induction n as [|n IH]; intros x c Hlen Hnd Hsub Hch;
    (destruct (Hpred x (Hsub x ltac:(by left))) as (y & Hy & Hyx);
     destruct (decide (y ∈ x :: c)) as [Hin|Hin];
     [ apply list.elem_of_cons in Hin as [->|Hin];
       [exists x; by constructor|exists y; eapply tc_l; [done|by apply Hch]] | ]).
  - assert (Hc : y :: x :: c ⊆+ l).
    { apply NoDup_submseteq; [by apply list.NoDup_cons|]. intros z Hz.
      apply list.elem_of_cons in Hz as [->|Hz]; [done|by apply Hsub]. }
    apply submseteq_length in Hc. cbn [length] in *. lia.
  - apply (IH y (x :: c)); [cbn [length] in *; lia|by apply list.NoDup_cons| |].
    + intros z Hz. apply list.elem_of_cons in Hz as [->|Hz]; [done|by apply Hsub].
    + intros z Hz. apply list.elem_of_cons in Hz as [->|Hz]; [by constructor|].
      eapply tc_l; [done|by apply Hch].
Qed.

Lemma no_source_cycle {A} `{EqDecision A} (R : relation A) (l : list A) :
  l <> [] -> (forall x, x ∈ l -> exists y, y ∈ l /\ R y x) -> exists z, tc R z z.
Proof.
  intros Hne Hpred. destruct l as [|x l]; [done|].
  apply (no_source_chain R (x :: l) Hpred (length l) x []); [cbn; lia| | |].
  - repeat constructor. by intros H%not_elem_of_nil.
  - intros z Hz. apply list.elem_of_cons in Hz as [->|Hz]; [by left|by apply not_elem_of_nil in Hz].
  - by intros z H%not_elem_of_nil.
Qed.

(** ** Specification *)

Section Spec.
Context {callable : Type}.
Abbreviation reg := (SetupStepRegistration callable).
Implicit Types steps out p q : list reg.

Definition names (l : list reg) : list pystr := st_name <$> l.
Definition step_key (r : reg) : key := (st_order r, st_name r).

Definition step_edges (r : reg) : list (pystr * pystr) :=
  ((fun b => (st_name r, b)) <$> st_before r) ++ ((fun a => (a, st_name r)) <$> st_after r).
Definition all_edges (steps : list reg) : list (pystr * pystr) := steps ≫= step_edges.

(** Step [a] has to come before step [b]. *)
Definition edge (steps : list reg) (a b : pystr) : Prop := (a, b) ∈ all_edges steps.

Definition refs_known (steps : list reg) : Prop :=
  forall r n, r ∈ steps -> n ∈ st_before r ++ st_after r -> n ∈ names steps.

(** Everything that precedes [r] is in [p]. *)
Definition released (steps p : list reg) (r : reg) : Prop :=
  forall a, edge steps a (st_name r) -> a ∈ names p.

Definition greedy (steps out : list reg) : Prop :=
  forall p r q, out = p ++ r :: q -> released steps p r /\
    forall r', r' ∈ steps -> st_name r' ∉ names p -> released steps p r' ->
      key_le (step_key r) (step_key r').

Definition setup_ordered (steps out : list reg) : Prop := out ≡ₚ steps /\ greedy steps out.

Lemma elem_of_names n (l : list reg) : n ∈ names l <-> exists r, r ∈ l /\ st_name r = n.
Proof. unfold names. rewrite list_elem_of_fmap. naive_solver. Qed.

Lemma names_inj (l : list reg) r r' :
  NoDup (names l) -> r ∈ l -> r' ∈ l -> st_name r = st_name r' -> r = r'.
Proof.
  intros Hnd Hr Hr' Heq. apply list_elem_of_lookup_1 in Hr as [i Hi], Hr' as [j Hj].
  assert (i = j) as ->; [|congruence].
  eapply NoDup_lookup; [exact Hnd|unfold names; rewrite list_lookup_fmap, Hi; done|].
  unfold names. rewrite list_lookup_fmap, Hj. cbn. by rewrite Heq.
Qed.

Lemma elem_of_step_edges r a b :
  (a, b) ∈ step_edges r <->
  (a = st_name r /\ b ∈ st_before r) \/ (b = st_name r /\ a ∈ st_after r).
Proof.
  unfold step_edges. rewrite elem_of_app, !list_elem_of_fmap. split.
  - intros [(x & [= -> ->] & H)|(x & [= -> ->] & H)]; auto.
  - intros [[-> H]|[-> H]]; [left|right]; eauto.
Qed.

Lemma edge_spec steps a b :
  edge steps a b <-> exists r, r ∈ steps /\ (a, b) ∈ step_edges r.
Proof. unfold edge, all_edges. rewrite list_elem_of_bind. naive_solver. Qed.

Lemma edge_known steps a b :
  refs_known steps -> edge steps a b -> a ∈ names steps /\ b ∈ names steps.
Proof.
  intros Hk (r & Hr & Hab)%edge_spec. apply elem_of_step_edges in Hab as [[-> H]|[-> H]];
    (split; [|]); try (apply elem_of_names; by exists r);
    (eapply Hk; [done|]; apply elem_of_app; auto).
Qed.

Lemma names_perm (l l' : list reg) : l ≡ₚ l' -> names l ≡ₚ names l'.
Proof. apply fmap_Permutation. Qed.

Lemma placed steps out p r q :
  NoDup (names steps) -> out ≡ₚ steps -> out = p ++ r :: q -> r ∈ steps /\ st_name r ∉ names p.
Proof.
  intros Hnd Hp ->. split; [rewrite <- Hp; apply elem_of_app; right; by left|].
  rewrite <- (names_perm _ _ Hp) in Hnd. unfold names in Hnd. rewrite fmap_app in Hnd.
  apply list.NoDup_app in Hnd as (_ & Hd & _). intros Hn. apply (Hd _ Hn). by left.
Qed.

(** The specification determines the order. *)
Lemma setup_ordered_unique steps out out' :
  NoDup (names steps) -> setup_ordered steps out -> setup_ordered steps out' -> out = out'.
Proof.
  intros Hnd [Hp Hg] [Hp' Hg'].
  assert (Hgen : forall q q' p, out = p ++ q -> out' = p ++ q' -> q = q').
  { induction q as [|r q IH]; intros q' p Ho Ho'.
    - assert (H : p ++ [] ≡ₚ p ++ q') by (rewrite <- Ho, <- Ho', Hp; done).
      apply Permutation_app_inv_l in H. by apply Permutation_nil_l in H.
    - assert (H : p ++ r :: q ≡ₚ p ++ q') by (rewrite <- Ho, <- Ho', Hp; done).
      apply Permutation_app_inv_l in H. destruct q' as [|r' q'].
      { by apply Permutation_nil_r in H. }
      destruct (Hg p r q Ho) as [Hr Hmin]. destruct (Hg' p r' q' Ho') as [Hr' Hmin'].
      destruct (placed _ _ _ _ _ Hnd Hp Ho) as [Hi1 Hi2], (placed _ _ _ _ _ Hnd Hp' Ho') as [Hi1' Hi2'].
      assert (Heq : step_key r = step_key r').
      { apply (anti_symm key_le); auto. }
      assert (r = r') as ->.
      { eapply names_inj; [done..|]. unfold step_key in Heq. congruence. }
      f_equal. apply (IH q' (p ++ [r'])); by rewrite <- app_assoc. }
  by apply (Hgen out out' []).
Qed.

(** No listing that respects the edges exists when they form a cycle. *)
Lemma greedy_acyclic steps out x :
  NoDup (names steps) -> refs_known steps -> setup_ordered steps out ->
  ~ tc (edge steps) x x.
Proof.
  intros Hnd Hk [Hp Hg] Hc.
  assert (Hpre : forall a b, tc (edge steps) a b -> forall p r q, out = p ++ r :: q -> st_name r = b ->
                   a ∈ names p).
  { induction 1 as [a b Hab|a b c Hab Hbc IH]; intros p r q Ho Hr.
    - destruct (Hg p r q Ho) as [Hrel _]. apply Hrel. by rewrite Hr.
    - specialize (IH p r q Ho Hr). apply elem_of_names in IH as (rb & Hrb & Hb).
      apply list_elem_of_split in Hrb as (p1 & p2 & ->).
      destruct (Hg p1 rb (p2 ++ r :: q)) as [Hrel _]; [by rewrite Ho, <- app_assoc|].
      unfold names. rewrite fmap_app. apply elem_of_app. left. apply Hrel. by rewrite Hb. }
  assert (Hx : x ∈ names out).
  { assert (Hx : exists y, edge steps x y) by (inversion Hc; eauto).
    destruct Hx as [y Hxy]. apply (edge_known _ _ _ Hk) in Hxy as [Hx _].
    by rewrite (names_perm _ _ Hp). }
  apply elem_of_names in Hx as (r & Hr & <-). apply list_elem_of_split in Hr as (p & q & ->).
  specialize (Hpre _ _ Hc p r q eq_refl eq_refl).
  by destruct (placed _ _ _ _ _ Hnd Hp eq_refl).
Qed.
End Spec.

(** ** The graph *)

Section Graph.
Context {callable : Type}.
Abbreviation reg := (SetupStepRegistration callable).
Implicit Types steps : list reg.

(** [by_name] holds exactly the steps. *)
Definition indexes (by_name : gmap pystr reg) (steps : list reg) : Prop :=
  forall n r, by_name !! n = Some r <-> r ∈ steps /\ st_name r = n.

Lemma indexes_dom by_name steps n : indexes by_name steps -> n ∈ dom by_name <-> n ∈ names steps.
Proof.
  intros Hi. rewrite elem_of_dom, elem_of_names. split.
  - intros [r Hr]. exists r. by apply Hi.
  - intros (r & Hr). exists r. by apply Hi.
Qed.

Lemma index_steps_spec steps :
  match index_steps steps with
  | Ok by_name => NoDup (names steps) /\ indexes by_name steps
  | Raise e => e = ContributionContractError "duplicate setup step name" /\ ~ NoDup (names steps)
  end.
Proof.
  apply (foldM_cases _ (fun p m => NoDup (names p) /\ indexes m p)
    (fun e => e = ContributionContractError "duplicate setup step name" /\ ~ NoDup (names steps)) steps []).
  - split; [constructor|]. intros n r. rewrite lookup_empty. split; [done|by intros [H%not_elem_of_nil _]].
  - intros p r q m Hs [Hnd Hi]. cbn in Hs. pose proof (indexes_dom _ _ (st_name r) Hi) as Hd.
    case_bool_decide as Hin; cbn.
    + split; [done|]. rewrite Hs. unfold names. rewrite fmap_app. intros Hn.
      apply list.NoDup_app in Hn as (_ & Hn & _). apply (Hn (st_name r)); [by apply Hd|by left].
    + split.
      * unfold names. rewrite fmap_app. apply list.NoDup_app. split; [done|]. split.
        -- intros x Hx Hx'. apply list_elem_of_singleton in Hx' as ->. by apply Hin, Hd.
        -- repeat constructor. by intros H%not_elem_of_nil.
      * intros n r'. rewrite elem_of_app, list_elem_of_singleton, lookup_insert_Some, (Hi n r').
        split; [naive_solver|]. intros [[Hr'| ->] <-]; [right|by left]. split; [|done].
        intros Heq. apply Hin, Hd, elem_of_names. by exists r'.
Qed.

(** The graph over the nodes [N] holds the edges [E]. *)
Definition preds (N : gset pystr) (E : list (pystr * pystr)) (b : pystr) : gset pystr :=
  base.filter (fun a => (a, b) ∈ E) N.

Record represents (N : gset pystr) (E : list (pystr * pystr)) (g : graph) : Prop := {
  rep_out_dom : dom (outgoing g) = N;
  rep_in_dom : dom (indegree g) = N;
  rep_out : forall a out, outgoing g !! a = Some out -> forall b, b ∈ out <-> (a, b) ∈ E;
  rep_in : forall b d, indegree g !! b = Some d -> d = Z.of_nat (base.size (preds N E b));
  rep_known : forall a b, (a, b) ∈ E -> a ∈ N /\ b ∈ N
}.

Lemma empty_graph_represents (by_name : gmap pystr reg) :
  represents (dom by_name) [] (empty_graph by_name).
Proof.
  unfold empty_graph. split; cbn.
  - by rewrite dom_fmap_L.
  - by rewrite dom_fmap_L.
  - intros a out. rewrite lookup_fmap_Some. intros (r & <- & _) b. split; [by intros H%not_elem_of_empty|
      by intros H%not_elem_of_nil].
  - intros b d. rewrite lookup_fmap_Some. intros (r & <- & _).
    replace (preds (dom by_name) [] b) with (∅ : gset pystr); [by rewrite size_empty|].
    apply set_eq. intros x. unfold preds. rewrite elem_of_filter, elem_of_empty.
    split; [done|by intros [H%not_elem_of_nil _]].
  - by intros a b H%not_elem_of_nil.
Qed.

Lemma preds_app_same N E a b x :
  preds N (E ++ [(a, b)]) x = if decide (x = b) then preds N E x ∪ ({[a]} ∩ N) else preds N E x.
Proof.
  apply set_eq. intros y. unfold preds. case_decide as Hx;
    rewrite ?elem_of_union, ?elem_of_intersection, ?elem_of_singleton, !elem_of_filter, elem_of_app,
      list_elem_of_singleton; [subst; naive_solver|].
  split; [intros [[?|?] ?]; [done|congruence]|naive_solver].
Qed.

Lemma add_edge_represents N E g a b :
  represents N E g -> a ∈ N -> b ∈ N ->
  exists g', add_edge g a b = Ok g' /\ represents N (E ++ [(a, b)]) g'.
Proof.
  intros [Ho Hi Hout Hin Hk] Ha Hb. unfold add_edge, getitem.
  assert (exists out, outgoing g !! a = Some out) as [out Hga] by (apply elem_of_dom; by rewrite Ho).
  assert (exists d, indegree g !! b = Some d) as [d Hgb] by (apply elem_of_dom; by rewrite Hi).
  rewrite Hga. cbn. case_bool_decide as Hbo.
  - (* already present *)
    exists g. split; [done|]. apply (Hout _ _ Hga) in Hbo.
    assert (HE : forall x y, (x, y) ∈ E ++ [(a, b)] <-> (x, y) ∈ E).
    { intros x y. rewrite elem_of_app, list_elem_of_singleton. split; [|by left].
      intros [?|[= -> ->]]; done. }
    split; [done|done| | |].
    + intros x o Hx y. by rewrite HE, (Hout _ _ Hx).
    + intros x dx Hx. rewrite (Hin _ _ Hx). f_equal. f_equal. apply set_eq. intros y. unfold preds.
      by rewrite !elem_of_filter, HE.
    + intros x y. rewrite HE. apply Hk.
  - rewrite Hgb. cbn. eexists. split; [done|]. rewrite (Hout _ _ Hga) in Hbo. split; cbn.
    + rewrite dom_insert_L. set_solver.
    + rewrite dom_insert_L. set_solver.
    + intros x o Hx y. rewrite elem_of_app, list_elem_of_singleton.
      apply lookup_insert_Some in Hx as [[<- <-]|[Hne Hx]].
      * rewrite elem_of_union, elem_of_singleton, (Hout _ _ Hga). naive_solver.
      * rewrite (Hout _ _ Hx). naive_solver.
    + intros x dx Hx. rewrite preds_app_same. apply lookup_insert_Some in Hx as [[<- <-]|[Hne Hx]].
      * rewrite decide_True by done. rewrite (Hin _ _ Hgb).
        replace ({[a]} ∩ N) with ({[a]} : gset pystr) by set_solver.
        rewrite size_union, size_singleton; [lia|].
        intros y Hy ->%elem_of_singleton. unfold preds in Hy. by apply elem_of_filter in Hy as [? _].
      * rewrite decide_False by congruence. auto.
    + intros x y. rewrite elem_of_app, list_elem_of_singleton. intros [?|[= -> ->]]; auto.
Qed.

Definition unknown_reference : exn := ContributionContractError "setup step references unknown step".

Lemma require_reference_spec (by_name : gmap pystr reg) n :
  _require_setup_reference n by_name
  = if bool_decide (n ∈ dom by_name) then Ok tt else Raise unknown_reference.
Proof. unfold _require_setup_reference. by case_bool_decide. Qed.

(** The two loops over one step's references. *)
Lemma add_references_spec (by_name : gmap pystr reg) (dir : pystr -> pystr * pystr) E g l :
  represents (dom by_name) E g ->
  (forall n, n ∈ dom by_name -> (dir n).1 ∈ dom by_name /\ (dir n).2 ∈ dom by_name) ->
  match foldM (fun g n => _ ← _require_setup_reference n by_name; add_edge g (dir n).1 (dir n).2) g l with
  | Ok g' => represents (dom by_name) (E ++ (dir <$> l)) g' /\ forall n, n ∈ l -> n ∈ dom by_name
  | Raise e => e = unknown_reference /\ exists n, n ∈ l /\ n ∉ dom by_name
  end.
Proof.
  intros Hg Hdir.
  apply (foldM_cases _ (fun p g => represents (dom by_name) (E ++ (dir <$> p)) g
           /\ forall n, n ∈ p -> n ∈ dom by_name)
    (fun e => e = unknown_reference /\ exists n, n ∈ l /\ n ∉ dom by_name) l []).
  - rewrite app_nil_r. split; [done|]. by intros n H%not_elem_of_nil.
  - intros p n q g1 Hs [Hg1 Hp]. cbn in Hs. rewrite require_reference_spec. case_bool_decide as Hn; cbn.
    + destruct (Hdir n Hn) as [H1 H2].
      destruct (add_edge_represents _ _ _ _ _ Hg1 H1 H2) as (g2 & -> & Hg2). split.
      * rewrite fmap_app, app_assoc. cbn. by destruct (dir n).
      * intros m [Hm|Hm%list_elem_of_singleton]%elem_of_app; [auto|by subst].
    + split; [done|]. exists n. split; [rewrite Hs; apply elem_of_app; right; by left|done].
Qed.

Lemma add_step_edges_spec (by_name : gmap pystr reg) E g r :
  represents (dom by_name) E g -> st_name r ∈ dom by_name ->
  match add_step_edges by_name g r with
  | Ok g' => represents (dom by_name) (E ++ step_edges r) g'
             /\ forall n, n ∈ st_before r ++ st_after r -> n ∈ dom by_name
  | Raise e => e = unknown_reference /\ exists n, n ∈ st_before r ++ st_after r /\ n ∉ dom by_name
  end.
Proof.
  intros Hg Hr. unfold add_step_edges.
  pose proof (add_references_spec by_name (fun b => (st_name r, b)) E g (st_before r) Hg ltac:(done)) as H1.
  cbn [fst snd] in H1. destruct (foldM _ g (st_before r)) as [g1|e]; cbn.
  - destruct H1 as [Hg1 Hb].
    pose proof (add_references_spec by_name (fun a => (a, st_name r)) _ g1 (st_after r) Hg1 ltac:(done)) as H2.
    cbn [fst snd] in H2. destruct (foldM _ g1 (st_after r)) as [g2|e].
    + destruct H2 as [Hg2 Ha]. unfold step_edges. rewrite app_assoc. split; [done|].
      intros n [?|?]%elem_of_app; auto.
    + destruct H2 as (-> & n & Hn & Hn'). split; [done|]. exists n. rewrite elem_of_app. auto.
  - destruct H1 as (-> & n & Hn & Hn'). split; [done|]. exists n. rewrite elem_of_app. auto.
Qed.

Lemma build_graph_spec (by_name : gmap pystr reg) steps :
  indexes by_name steps ->
  match foldM (add_step_edges by_name) (empty_graph by_name) steps with
  | Ok g => represents (dom by_name) (all_edges steps) g /\ refs_known steps
  | Raise e => e = unknown_reference /\ ~ refs_known steps
  end.
Proof.
  intros Hi.
  apply (foldM_cases _ (fun p g => represents (dom by_name) (all_edges p) g
      /\ forall r n, r ∈ p -> n ∈ st_before r ++ st_after r -> n ∈ names steps)
    (fun e => e = unknown_reference /\ ~ refs_known steps) steps []).
  - split; [apply empty_graph_represents|]. by intros r n H%not_elem_of_nil.
  - intros p r q g Hs [Hg Hp]. cbn in Hs.
    assert (Hr : r ∈ steps) by (rewrite Hs; apply elem_of_app; right; by left).
    pose proof (add_step_edges_spec by_name _ g r Hg) as H.
    destruct (add_step_edges by_name g r) as [g'|e].
    + destruct H as [Hg' Hk]; [apply (indexes_dom _ _ _ Hi), elem_of_names; by exists r|]. split.
      * unfold all_edges. by rewrite bind_app, bind_singleton.
      * intros r' n [Hr'|Hr'%list_elem_of_singleton]%elem_of_app Hn; [by eapply Hp|subst r'].
        by apply (indexes_dom _ _ _ Hi), Hk.
    + destruct H as (-> & n & Hn & Hn'); [apply (indexes_dom _ _ _ Hi), elem_of_names; by exists r|].
      split; [done|]. intros Hk. apply Hn', (indexes_dom _ _ _ Hi). by eapply Hk.
Qed.
End Graph.

(** ** The loop *)

Section Kahn.
Context {callable : Type}.
Abbreviation reg := (SetupStepRegistration callable).
Variable set_iter : gset pystr -> list pystr.
Hypothesis set_iter_perm : forall S, set_iter S ≡ₚ elements S.
Context (steps : list reg) (by_name : gmap pystr reg) (g : graph).
Hypothesis Hnd : NoDup (names steps).
Hypothesis Hidx : indexes by_name steps.
Hypothesis Hg : represents (dom by_name) (all_edges steps) g.

#[local] Abbreviation before_of b := (preds (dom by_name) (all_edges steps) b).

Lemma elem_of_before a b : a ∈ before_of b <-> edge steps a b.
Proof.
  unfold preds, edge. rewrite elem_of_filter. split; [by intros [? _]|]. intros H. split; [done|].
  by apply (rep_known _ _ _ Hg) in H as [? _].
Qed.

Definition done_names (ordered : list reg) : gset pystr := list_to_set (names ordered).

Lemma released_before ordered r :
  released steps ordered r <-> before_of (st_name r) ⊆ done_names ordered.
Proof.
  unfold released, done_names. split.
  - intros H a Ha%elem_of_before. apply elem_of_list_to_set. auto.
  - intros H a Ha%elem_of_before. by apply (elem_of_list_to_set (C:=gset pystr)), H.
Qed.

(** The keys on the heap while the successors [q] of a popped name have been
    handled: [D] is done before it, [D'] with it. *)
Record counts (D D' : gset pystr) (q : list pystr) (s : gmap pystr Z * list key) (rest : list key) : Prop := {
  ct_dom : dom s.1 = dom by_name;
  ct_ind : forall b d, b ∉ D -> s.1 !! b = Some d ->
    d = Z.of_nat (base.size (before_of b ∖ (if decide (b ∈ q) then D' else D)));
  ct_sorted : StronglySorted key_le s.2;
  ct_nodup : NoDup s.2;
  ct_ready : forall k, k ∈ s.2 <-> k ∈ rest \/
    exists r, r ∈ steps /\ k = step_key r /\ st_name r ∈ q /\ (before_of (st_name r) ⊆ D')
}.

Lemma step_key_inj r r' : r ∈ steps -> r' ∈ steps -> step_key r = step_key r' -> r = r'.
Proof. intros Hr Hr' H. eapply names_inj; [done..|]. unfold step_key in H. congruence. Qed.

Lemma release_counts D name q b s rest :
  name ∉ D -> b ∉ q -> b ∉ D -> edge steps name b ->
  (forall r, r ∈ steps -> step_key r ∈ rest -> before_of (st_name r) ⊆ D) ->
  counts D (D ∪ {[name]}) q s rest ->
  exists s', release by_name s b = Ok s' /\ counts D (D ∪ {[name]}) (q ++ [b]) s' rest.
Proof.
  intros Hname Hbq HbD He Hrest [Hdom Hind Hsort Hn Hready]. destruct s as [ind ready]; cbn [fst snd] in *.
  assert (Hb : b ∈ dom by_name) by (by apply (rep_known _ _ _ Hg) in He as [_ ?]).
  assert (exists d, ind !! b = Some d) as [d Hd] by (apply elem_of_dom; by rewrite Hdom).
  assert (exists rb, by_name !! b = Some rb) as [rb Hrb] by (by apply elem_of_dom).
  pose proof (proj1 (Hidx _ _) Hrb) as [Hrs Hrn].
  assert (Hsz : d - 1 = Z.of_nat (base.size (before_of b ∖ (D ∪ {[name]})))).
  { rewrite (Hind _ _ HbD Hd), decide_False by done.
    assert (Hs : before_of b ∖ D = (before_of b ∖ (D ∪ {[name]})) ∪ {[name]}).
    { apply set_eq. intros x. rewrite elem_of_union, !elem_of_difference, elem_of_union, elem_of_singleton.
      destruct (decide (x = name)) as [->|]; [|tauto]. rewrite elem_of_before. tauto. }
    rewrite Hs, size_union, size_singleton; [lia|set_solver]. }
  assert (Hind' : forall b' d', b' ∉ D -> <[b:=d - 1]> ind !! b' = Some d' ->
    d' = Z.of_nat (base.size (before_of b' ∖ (if decide (b' ∈ q ++ [b]) then D ∪ {[name]} else D)))).
  { intros b' d' Hb' Hl. apply lookup_insert_Some in Hl as [[<- <-]|[Hne Hl]].
    - rewrite decide_True; [done|]. apply elem_of_app. right. by left.
    - rewrite (Hind _ _ Hb' Hl), (decide_ext (b' ∈ q ++ [b]) (b' ∈ q)); [done|].
      rewrite elem_of_app, list_elem_of_singleton. split; [intros [?| ->]; [done|congruence]|by left]. }
  assert (Hdom' : dom (<[b:=d - 1]> ind) = dom by_name) by (rewrite dom_insert_L; set_solver).
  unfold release, getitem. rewrite Hd. cbn. destruct (Z.eqb_spec (d - 1) 0) as [H0|H0].
  - rewrite Hrb. cbn. eexists. split; [done|]. change (st_order rb, st_name rb) with (step_key rb).
    assert (Hsub : before_of b ⊆ D ∪ {[name]}).
    { rewrite H0 in Hsz. assert (Hz : base.size (before_of b ∖ (D ∪ {[name]})) = 0%nat) by lia.
      by apply size_empty_inv, empty_difference_subseteq in Hz. }
    split; cbn [fst snd]; [done|done|by apply heappush_sorted| |].
    + rewrite heappush_perm. apply list.NoDup_cons. split; [|done].
      intros [Hk|(r & Hr & Hk & Hq & _)]%Hready.
      * apply (Hrest rb Hrs) in Hk. apply Hname. apply Hk. apply elem_of_before. by rewrite Hrn.
      * apply step_key_inj in Hk; [subst r|done|done]. by rewrite Hrn in Hq.
    + intros k. rewrite heappush_perm, list.elem_of_cons, Hready. split.
      * intros [->|[?|(r & ? & ? & ? & ?)]]; [right|by left|right].
        -- exists rb. rewrite elem_of_app, list_elem_of_singleton, Hrn. auto.
        -- exists r. rewrite elem_of_app. auto.
      * intros [?|(r & Hr & -> & Hq & Hsub')]; [auto|].
        apply elem_of_app in Hq as [Hq|Hq%list_elem_of_singleton]; [right; right; eauto|].
        left. f_equal. eapply names_inj; [exact Hnd|done..|]. by rewrite Hq.
  - eexists. split; [done|]. split; cbn [fst snd]; [done..|].
    intros k. rewrite Hready. split; (intros [?|(r & Hr & -> & Hq & Hsub)]; [by left|right; exists r]).
    + rewrite elem_of_app. auto.
    + apply elem_of_app in Hq as [Hq|Hq%list_elem_of_singleton]; [done|]. exfalso. apply H0.
      rewrite Hsz. rewrite Hq in Hsub.
      by rewrite (subseteq_empty_difference_L _ _ Hsub), size_empty.
Qed.

(** The state of the outer loop. *)
Record kahn (ordered : list reg) (ind : gmap pystr Z) (ready : list key) : Prop := {
  kn_steps : forall r, r ∈ ordered -> r ∈ steps;
  kn_nodup : NoDup ordered;
  kn_dom : dom ind = dom by_name;
  kn_ind : forall b d, b ∉ done_names ordered -> ind !! b = Some d ->
    d = Z.of_nat (base.size (before_of b ∖ done_names ordered));
  kn_sorted : StronglySorted key_le ready;
  kn_ready_nodup : NoDup ready;
  kn_ready : forall k, k ∈ ready <-> exists r, r ∈ steps /\ k = step_key r /\
    (st_name r ∉ done_names ordered) /\ (before_of (st_name r) ⊆ done_names ordered);
  kn_greedy : greedy steps ordered
}.

Lemma done_names_app ordered r : done_names (ordered ++ [r]) = done_names ordered ∪ {[st_name r]}.
Proof. unfold done_names, names. rewrite fmap_app, list_to_set_app_L. cbn. by rewrite union_empty_r_L. Qed.

Lemma elem_of_done n ordered : n ∈ done_names ordered <-> n ∈ names ordered.
Proof. apply elem_of_list_to_set. Qed.

(** Releasing every successor of the popped step. *)
Lemma release_all ordered ind ready r s out :
  kahn ordered ind (step_key r :: ready) -> r ∈ steps -> st_name r ∉ done_names ordered ->
  s = (ind, ready) -> (forall b, b ∈ out <-> edge steps (st_name r) b) ->
  exists s', foldM (release by_name) s (set_iter out) = Ok s'
    /\ counts (done_names ordered) (done_names ordered ∪ {[st_name r]}) (set_iter out) s' ready.
Proof.
  intros HK Hr Hname -> Hout. set (D := done_names ordered) in *.
  assert (Hel : forall b, b ∈ set_iter out <-> edge steps (st_name r) b).
  { intros b. by rewrite set_iter_perm, elem_of_elements. }
  assert (Hndo : NoDup (set_iter out)) by (rewrite set_iter_perm; apply NoDup_elements).
  assert (Hsub : forall r', r' ∈ steps -> step_key r' ∈ ready -> before_of (st_name r') ⊆ D).
  { intros r' Hr' Hk. assert (Hk' : step_key r' ∈ step_key r :: ready) by (by right).
    apply (kn_ready _ _ _ HK) in Hk' as (r2 & Hr2 & Heq & _ & H). by rewrite (step_key_inj _ _ Hr' Hr2 Heq). }
  assert (H : match foldM (release by_name) (ind, ready) (set_iter out) with
              | Ok s' => counts D (D ∪ {[st_name r]}) (set_iter out) s' ready | Raise _ => False end);
    [|destruct (foldM _ _ _) as [s'|e]; [by exists s'|done]].
  apply (foldM_cases (release by_name) (fun q s => counts D (D ∪ {[st_name r]}) q s ready)
    (fun _ => False) (set_iter out) [] (ind, ready)).
  - split; cbn [fst snd].
    + by apply (kn_dom _ _ _ HK).
    + intros b d Hb Hl. rewrite decide_False by (by intros H%not_elem_of_nil). by eapply (kn_ind _ _ _ HK).
    + pose proof (kn_sorted _ _ _ HK) as Hs. by inversion Hs.
    + pose proof (kn_ready_nodup _ _ _ HK) as Hs. by apply list.NoDup_cons in Hs as [_ Hs].
    + intros k. split; [by left|]. intros [?|(x & _ & _ & Hx & _)]; [done|by apply not_elem_of_nil in Hx].
  - intros q b suf s1 Hs Hc. cbn [app] in Hs.
    assert (He : edge steps (st_name r) b) by (apply Hel; rewrite Hs; apply elem_of_app; right; by left).
    destruct (release_counts D (st_name r) q b s1 ready) as (s2 & -> & Hc2); try done.
    + rewrite Hs in Hndo. apply list.NoDup_app in Hndo as (_ & Hd & _). intros Hq. apply (Hd _ Hq). by left.
    + intros HbD. apply Hname. apply elem_of_done, elem_of_names in HbD as (rb & Hrb & <-).
      apply list_elem_of_split in Hrb as (p1 & p2 & Hp). apply elem_of_done. rewrite Hp.
      unfold names. rewrite fmap_app. apply elem_of_app. left.
      by apply (proj1 (kn_greedy _ _ _ HK _ _ _ Hp)).
Qed.

(** One pop keeps the invariant. *)
Lemma kahn_pop ordered ind ready r s' :
  kahn ordered ind (step_key r :: ready) -> r ∈ steps -> st_name r ∉ done_names ordered ->
  before_of (st_name r) ⊆ done_names ordered ->
  forall q, (forall b, b ∈ q <-> edge steps (st_name r) b) ->
  counts (done_names ordered) (done_names ordered ∪ {[st_name r]}) q s' ready ->
  kahn (ordered ++ [r]) s'.1 s'.2.
Proof.
  intros HK Hr Hname Hsub q Hq [Hdom Hind Hsort Hn Hready]. split; try done.
  - intros r' [?|?%list_elem_of_singleton]%elem_of_app; [by apply (kn_steps _ _ _ HK)|by subst].
  - apply list.NoDup_app. split; [apply (kn_nodup _ _ _ HK)|]. split; [|apply NoDup_singleton].
    intros x Hx Hx'%list_elem_of_singleton. subst x. apply Hname, elem_of_done, elem_of_names. by exists r.
  - intros b d Hb Hl. rewrite done_names_app in *. rewrite (Hind b d) by (done || set_solver).
    case_decide as Hbq; [done|]. do 2 f_equal. apply set_eq. intros x.
    rewrite !elem_of_difference, elem_of_union, elem_of_singleton, elem_of_before.
    split; [|tauto]. intros [He Hx]. split; [done|]. intros [?| ->]; [done|]. by apply Hbq, Hq.
  - intros k. rewrite Hready, done_names_app. split.
    + intros [Hk|(r' & Hr' & -> & Hin & Hs')].
      * assert (Hk' : k ∈ step_key r :: ready) by (by right).
        apply (kn_ready _ _ _ HK) in Hk' as (r' & Hr' & -> & Hd & Hs'). exists r'. split_and!; [done..| |set_solver].
        rewrite elem_of_union, elem_of_singleton. intros [?|Heq]; [done|].
        apply (names_inj _ _ _ Hnd Hr' Hr) in Heq as ->.
        pose proof (kn_ready_nodup _ _ _ HK) as Hs. by apply list.NoDup_cons in Hs as [? _].
      * exists r'. split_and!; [done..| |done]. apply Hq in Hin.
        rewrite elem_of_union, elem_of_singleton. intros [Hd|Heq].
        -- apply elem_of_done, elem_of_names in Hd as (rb & Hrb & Hb).
           apply list_elem_of_split in Hrb as (p1 & p2 & Hp). apply Hname, elem_of_done. rewrite Hp.
           unfold names. rewrite fmap_app. apply elem_of_app. left.
           apply (proj1 (kn_greedy _ _ _ HK _ _ _ Hp)). by rewrite Hb.
        -- rewrite Heq in Hin. apply Hname, Hsub. by apply elem_of_before.
    + intros (r' & Hr' & -> & Hd & Hs'). destruct (decide (st_name r' ∈ q)) as [Hin|Hin]; [right; eauto|].
      left. assert (Hk : step_key r' ∈ step_key r :: ready).
      { apply (kn_ready _ _ _ HK). exists r'. split_and!; [done..|set_solver|].
        intros x Hx. specialize (Hs' x Hx). apply elem_of_union in Hs' as [?|Hxr%elem_of_singleton]; [done|].
        subst x. exfalso. by apply Hin, Hq, elem_of_before. }
      apply list.elem_of_cons in Hk as [Hk|?]; [|done].
      apply (step_key_inj _ _ Hr' Hr) in Hk. subst r'. set_solver.
  - intros p x y Heq. destruct y as [|z y _] using rev_ind.
    + apply app_inj_tail in Heq as [<- <-]. split; [by apply released_before|].
      intros r' Hr' Hn' Hrel. apply (heap_min _ ready); [apply (kn_sorted _ _ _ HK)|].
      apply (kn_ready _ _ _ HK). exists r'. split_and!; [done..|by rewrite elem_of_done|by apply released_before].
    + rewrite app_comm_cons, app_assoc in Heq. apply app_inj_tail in Heq as [-> _].
      by apply (kn_greedy _ _ _ HK p x y).
Qed.

Lemma drain_ready_ok fuel : forall ordered ind ready,
  kahn ordered ind ready -> (length steps <= fuel + length ordered)%nat ->
  exists out, drain_ready set_iter fuel by_name (outgoing g) ind ready ordered = Ok out
    /\ exists ind', kahn out ind' [].
Proof.
  induction fuel as [|fuel IH]; intros ordered ind ready HK Hf; (destruct ready as [|k ready]; [cbn; eauto|]).
  all: assert (Hk : k ∈ k :: ready) by (by left).
  all: apply (kn_ready _ _ _ HK) in Hk as (r & Hr & -> & Hname & Hsub).
  all: assert (Hnd' : NoDup (r :: ordered))
    by (apply list.NoDup_cons; split; [|apply (kn_nodup _ _ _ HK)]; intros Hin; apply Hname, elem_of_done,
        elem_of_names; by exists r).
  all: assert (Hlen : (length (r :: ordered) <= length steps)%nat)
    by (apply submseteq_length, NoDup_submseteq; [done|];
        intros x [->|Hx]%list.elem_of_cons; [done|by apply (kn_steps _ _ _ HK)]).
  { cbn [length] in Hlen. lia. }
  cbn [length] in Hlen.
  cbn [drain_ready step_key].
  rewrite (proj2 (getitem_Ok by_name _ r)) by (by apply Hidx). cbn [mbind result_bind].
  assert (exists o, outgoing g !! st_name r = Some o) as [o Ho].
  { apply elem_of_dom. rewrite (rep_out_dom _ _ _ Hg). by apply (indexes_dom _ _ _ Hidx), elem_of_names; exists r. }
  rewrite (proj2 (getitem_Ok (outgoing g) _ o)) by done. cbn [mbind result_bind].
  pose proof (rep_out _ _ _ Hg _ _ Ho) as Hout.
  destruct (release_all ordered ind ready r _ o HK Hr Hname eq_refl Hout) as (s' & -> & Hc).
  destruct s' as [ind' ready']. cbn [mbind result_bind].
  apply IH; [|rewrite length_app; cbn; lia].
  apply (kahn_pop _ _ _ _ _ HK Hr Hname Hsub (set_iter o)) in Hc; [done|].
  intros b. by rewrite set_iter_perm, elem_of_elements.
Qed.

Lemma kahn_initial ready :
  initial_ready (indegree g) steps = Ok ready -> kahn [] (indegree g) ready.
Proof.
  unfold initial_ready. intros H. apply bind_Ok in H as (keys & Hk & [= <-]). apply traverse_Ok in Hk.
  assert (Hkeys : forall l keys,
     Forall2 (fun (r : reg) y => (d ← getitem (indegree g) (st_name r); Ok (d, (st_order r, st_name r))) = Ok y) l keys ->
     snd <$> base.filter (fun '(d, _) => d = 0) keys
     = step_key <$> base.filter (fun r => before_of (st_name r) = ∅) l).
  { clear -Hg. induction 1 as [|r [d k] l keys Hr _ IH]; [done|].
    apply bind_Ok in Hr as (d' & Hd & [= -> <-]). apply getitem_Ok in Hd.
    pose proof (rep_in _ _ _ Hg _ _ Hd) as Hsz. rewrite !filter_cons. destruct (decide (d = 0)) as [H0|H0].
    - rewrite decide_True; [by rewrite !fmap_cons, IH|]. apply leibniz_equiv, size_empty_inv. lia.
    - rewrite decide_False; [done|]. intros He. apply H0. by rewrite Hsz, He, size_empty. }
  rewrite (Hkeys _ _ Hk).
  assert (Hempty : forall r, released steps [] r <-> before_of (st_name r) = ∅).
  { intros r. rewrite released_before. unfold done_names; cbn. set_solver. }
  split.
  - by intros r H%not_elem_of_nil.
  - constructor.
  - apply (rep_in_dom _ _ _ Hg).
  - intros b d _ Hl. rewrite (rep_in _ _ _ Hg _ _ Hl). unfold done_names; cbn. by rewrite difference_empty_L.
  - apply heapify_sorted.
  - rewrite heapify_perm. apply NoDup_fmap_2_strong; [|by apply list.NoDup_filter; eapply NoDup_fmap_1].
    intros r r' [_ Hr]%list_elem_of_filter [_ Hr']%list_elem_of_filter. by apply step_key_inj.
  - intros k. rewrite heapify_perm, list_elem_of_fmap. split.
    + intros (r & -> & [Hr Hin]%list_elem_of_filter). exists r. rewrite Hr. split_and!; [done..| |set_solver].
      unfold done_names; cbn. apply not_elem_of_empty.
    + intros (r & Hr & -> & _ & Hs). exists r. split; [done|]. apply list_elem_of_filter. split; [|done].
      unfold done_names in Hs; cbn in Hs. set_solver.
  - intros p r q Hp. by apply (f_equal length) in Hp; rewrite length_app in Hp; cbn in Hp; lia.
Qed.

Lemma initial_ready_total : exists ready, initial_ready (indegree g) steps = Ok ready.
Proof.
  assert (H : exists keys, traverse (fun r : reg => d ← getitem (indegree g) (st_name r);
                Ok (d, (st_order r, st_name r))) steps = Ok keys);
    [|destruct H as [keys Hk]; unfold initial_ready; rewrite Hk; by eexists].
  assert (Hin : forall r, r ∈ steps -> st_name r ∈ dom (indegree g)).
  { intros r Hr. rewrite (rep_in_dom _ _ _ Hg). by apply (indexes_dom _ _ _ Hidx), elem_of_names; exists r. }
  clear Hnd Hidx Hg. induction steps as [|r l IH]; [by eexists|].
  destruct IH as [keys Hk]; [intros r' Hr'; apply Hin; by right|].
  assert (exists d, indegree g !! st_name r = Some d) as [d Hd] by (apply elem_of_dom, Hin; by left).
  cbn [traverse]. rewrite (proj2 (getitem_Ok _ _ _) Hd). cbn [mbind result_bind]. rewrite Hk. by eexists.
Qed.

(** When the heap is empty the list is complete, or the rest has a cycle. *)
Lemma kahn_complete out ind :
  refs_known steps -> kahn out ind [] ->
  if len out =? len steps then setup_ordered steps out else exists x, tc (edge steps) x x.
Proof.
  intros Hk HK. destruct (Z.eqb_spec (len out) (len steps)) as [Hl|Hl].
  - split; [|apply (kn_greedy _ _ _ HK)]. apply submseteq_length_Permutation; [|unfold len in Hl; lia].
    apply NoDup_submseteq; [apply (kn_nodup _ _ _ HK)|apply (kn_steps _ _ _ HK)].
  - apply (no_source_cycle (edge steps) (base.filter (fun n => n ∉ done_names out) (names steps))).
    + intros Hf. apply Hl. assert (Hp : out ≡ₚ steps); [|unfold len; by rewrite Hp].
      apply list.NoDup_Permutation; [apply (kn_nodup _ _ _ HK)|by eapply NoDup_fmap_1|].
      intros r. split; [apply (kn_steps _ _ _ HK)|]. intros Hr.
      destruct (decide (st_name r ∈ done_names out)) as [Hd|Hd].
      * apply elem_of_done, elem_of_names in Hd as (r' & Hr' & Hn).
        by rewrite <- (names_inj _ _ _ Hnd (kn_steps _ _ _ HK _ Hr') Hr Hn).
      * exfalso. eapply not_elem_of_nil. rewrite <- Hf. apply list_elem_of_filter. split; [exact Hd|].
        apply elem_of_names. by exists r.
    + intros b [Hb (r & Hr & <-)%elem_of_names]%list_elem_of_filter.
      destruct (set_choose_or_empty (before_of (st_name r) ∖ done_names out)) as [[a Ha]|Hs].
      * apply elem_of_difference in Ha as [Ha Hn]. apply elem_of_before in Ha. exists a.
        split; [|done]. apply list_elem_of_filter. split; [done|]. by apply (edge_known _ _ _ Hk) in Ha as [? _].
      * exfalso. apply empty_difference_subseteq in Hs. eapply not_elem_of_nil.
        apply (kn_ready _ _ _ HK). by exists r.
Qed.
End Kahn.

Lemma typed_tuple_Ok {A} (v : dyntuple (dyn A)) field l :
  _typed_tuple v field = Ok l <-> v = Tuple (Inst <$> l).
Proof.
  destruct v as [items|]; cbn; [|done]. rewrite traverse_Ok. split.
  - intros H. f_equal. induction H as [|x y items l Hx _ IH]; [done|]. rewrite fmap_cons, <- IH. f_equal.
    destruct x; cbn in Hx; by inv_ok.
  - intros [= ->]. induction l as [|x l IH]; constructor; done.
Qed.

(** The loop of [order_steps]: what it returns on each of its paths. *)
Definition cycle_error : exn := ContributionContractError "setup step ordering contains a cycle".
Definition duplicate_error : exn := ContributionContractError "duplicate setup step name".

Lemma order_steps_cases {callable} set_iter (steps : list (SetupStepRegistration callable)) :
  (forall S, set_iter S ≡ₚ elements S) ->
  match order_steps set_iter steps with
  | Ok out => NoDup (names steps) /\ refs_known steps /\ setup_ordered steps out
  | Raise e =>
      (e = duplicate_error /\ ~ NoDup (names steps))
      \/ (e = unknown_reference /\ NoDup (names steps) /\ ~ refs_known steps)
      \/ (e = cycle_error /\ NoDup (names steps) /\ refs_known steps /\ exists x, tc (edge steps) x x)
  end.
Proof.
  intros Hiter. unfold order_steps. pose proof (index_steps_spec steps) as H1.
  destruct (index_steps steps) as [by_name|e]; cbn [mbind result_bind]; [|left; exact H1].
  destruct H1 as [Hnd Hidx]. pose proof (build_graph_spec by_name steps Hidx) as H2.
  destruct (foldM _ _ _) as [g|e]; cbn [mbind result_bind]; [|right; left; naive_solver].
  destruct H2 as [Hg Hk].
  destruct (initial_ready_total steps by_name g Hidx Hg) as [ready Hr]. rewrite Hr. cbn [mbind result_bind].
  pose proof (kahn_initial set_iter Hiter steps by_name g Hnd Hidx Hg ready Hr) as HK.
  destruct (drain_ready_ok set_iter Hiter steps by_name g Hnd Hidx Hg (length steps) [] _ _ HK) as (out & -> & ind & HK').
  { cbn. lia. }
  cbn [mbind result_bind]. pose proof (kahn_complete steps by_name g Hnd Hg out ind Hk HK') as Hc.
  destruct (len out =? len steps); cbn; [done|]. right; right. done.
Qed.

(** C7. [order_setup_step_registrations] returns a list exactly when the
    step names are distinct and every [before] and [after] names a step, and
    it is then the one permutation of the steps that places each step after
    all its predecessors and, at every position, the step with the least
    [(order, name)] among those whose predecessors are placed: the result
    depends neither on the order of the argument nor on set iteration. *)
Theorem setup_order_exact {callable} set_iter registrations (out : list (SetupStepRegistration callable)) :
  (forall S, set_iter S ≡ₚ elements S) ->
  order_setup_step_registrations set_iter registrations = Ok out <->
  exists steps, registrations = Tuple (Inst <$> steps)
    /\ NoDup (names steps) /\ refs_known steps /\ setup_ordered steps out.
Proof.
  intros Hiter. unfold order_setup_step_registrations. rewrite bind_Ok.
  setoid_rewrite typed_tuple_Ok. apply exist_proper. intros steps. apply and_iff_compat_l.
  pose proof (order_steps_cases set_iter steps Hiter) as H. split.
  - intros Ho. by rewrite Ho in H.
  - intros (Hnd & Hk & Ho). destruct (order_steps set_iter steps) as [out'|e].
    + destruct H as (_ & _ & H). f_equal. by apply (setup_ordered_unique steps).
    + destruct H as [(-> & ?)|[(-> & _ & ?)|(-> & _ & _ & x & Hx)]]; [done..|].
      by destruct (greedy_acyclic steps out x).
Qed.

(** It raises exactly one of its three [ContributionContractError]s: for
    two steps of one name, else for a reference to no active step, else for a
    cycle of [before] and [after] edges; every cycle is found and nothing
    else is reported as one. *)
Theorem setup_order_errors {callable} set_iter (steps : list (SetupStepRegistration callable)) e :
  (forall S, set_iter S ≡ₚ elements S) ->
  order_setup_step_registrations set_iter (Tuple (Inst <$> steps)) = Raise e <->
  (e = duplicate_error /\ ~ NoDup (names steps))
  \/ (e = unknown_reference /\ NoDup (names steps) /\ ~ refs_known steps)
  \/ (e = cycle_error /\ NoDup (names steps) /\ refs_known steps /\ exists x, tc (edge steps) x x).
Proof.
  intros Hiter. unfold order_setup_step_registrations.
  rewrite (proj2 (typed_tuple_Ok _ _ _) eq_refl). cbn [mbind result_bind].
  pose proof (order_steps_cases set_iter steps Hiter) as H. split.
  - intros Ho. by rewrite Ho in H.
  - destruct (order_steps set_iter steps) as [out|e']; [|].
    + destruct H as (Hnd & Hk & Ho). intros [(_ & ?)|[(_ & _ & ?)|(_ & _ & _ & x & Hx)]]; [done..|].
      by destruct (greedy_acyclic steps out x).
    + intros He. f_equal. destruct H as [(-> & H)|[(-> & H & H')|(-> & H & H' & _)]];
        destruct He as [(-> & H2)|[(-> & H2 & H2')|(-> & H2 & H2' & _)]]; done.
Qed.

(** ** Witnesses *)

Definition sample_step (name : string) (order : Z) (before after : list string) : SetupStepRegistration unit :=
  MkSetupStep (u "feature") (u name) tt OPTIONAL order (u <$> before) (u <$> after).

Definition sample_steps : list (SetupStepRegistration unit) :=
  [sample_step "c" 10 [] ["a"%string]; sample_step "b" 20 ["c"%string] [];
   sample_step "a" 1000 [] []; sample_step "d" 10 [] []].

Definition sample_order : list (SetupStepRegistration unit) :=
  match order_steps elements sample_steps with Ok l => l | Raise _ => [] end.

Example sample_order_names : names sample_order = [u "d"; u "b"; u "a"; u "c"].
Proof. vm_compute. reflexivity. Qed.

Lemma setup_order_exact_witness :
  exists steps, Tuple (Inst <$> sample_steps) = Tuple (Inst <$> steps)
    /\ NoDup (names steps) /\ refs_known steps /\ setup_ordered steps sample_order.
Proof.
  apply (setup_order_exact elements); [done|]. vm_compute. reflexivity.
Defined.

Definition sample_cycle : list (SetupStepRegistration unit) :=
  [sample_step "a" 1 ["b"%string] []; sample_step "b" 2 [] []; sample_step "c" 3 ["a"%string] ["b"%string]].

Lemma setup_order_errors_witness : exists x, tc (edge sample_cycle) x x.
Proof.
  destruct (proj1 (setup_order_errors elements sample_cycle cycle_error ltac:(done))
    ltac:(vm_compute; reflexivity)) as [[H _]|[[H _]|(_ & _ & _ & H)]]; [discriminate H..|exact H].
Defined.
