(* ===== verification/FeaturesProps.v ===== *)
(** * Feature contributions: theorems *)

From stdpp Require Import gmap.
From S2P Require Export SetupOrderProps.

(** ** The loops that refuse duplicates *)

(** A loop that guards each element and refuses a repeated identity. *)
Lemma unique_loop_Ok {R I E} `{EqDecision I} (guard : R -> bool) (identity : R -> I) (e1 e2 : E) l : forall seen ids,
  NoDup seen ->
  foldM (fun identities r =>
    _ ← raise_if (guard r) e1; _ ← raise_if (mem (identity r) identities) e2;
    Ok (identity r :: identities)) seen l = Ok ids <->
  Forall (fun r => guard r = false) l /\ NoDup (rev (identity <$> l) ++ seen) /\ ids = rev (identity <$> l) ++ seen.
Proof.
  induction l as [|r l IH]; intros seen ids Hs.
  - cbn. split; [intros [= <-]; auto|]. intros (_ & _ & ->). done.
  - cbn [foldM]. rewrite fmap_cons. cbn [rev]. rewrite <- app_assoc. cbn [app].
    rewrite list.Forall_cons. destruct (guard r); cbn; [naive_solver|].
    destruct (mem (identity r) seen) eqn:Hm; cbn.
    + apply mem_true in Hm. split; [done|]. intros (_ & Hnd & _).
      apply list.NoDup_app in Hnd as (_ & _ & Hnd). by apply list.NoDup_cons in Hnd as [? _].
    + apply mem_false in Hm. rewrite IH by (by apply list.NoDup_cons). naive_solver.
Qed.

Lemma NoDup_rev_nil {A} (l : list A) : NoDup (rev l ++ []) <-> NoDup l.
Proof. rewrite app_nil_r. by rewrite <- (Permutation_rev l). Qed.

Lemma is_Ok_true {E A} (m : result E A) : is_Ok m = true <-> exists a, m = Ok a.
Proof. destruct m; cbn; naive_solver. Qed.

Lemma is_Ok_intro {E A} (m : result E A) a : m = Ok a -> is_Ok m = true.
Proof. by intros ->. Qed.

Section Props.
Context {callable provider service : Type}.
Abbreviation service_reg := (ServiceRegistration service).
Abbreviation wait_reg := (WaitProviderRegistration provider).
Abbreviation workflow_reg := (WorkflowRegistration callable).
Abbreviation step_reg := (SetupStepRegistration callable).
Abbreviation clause_reg := (ContextClauseRegistration callable).

(** Every registration of a method has the feature's owner and an identity
    of its own. *)
Definition owned_by {R I} (owner : R -> pystr) (identity : R -> I) (o : pystr) (l : list R) : Prop :=
  Forall (fun r => owner r = o) l /\ NoDup (identity <$> l).

Lemma check_family_Ok {R I} `{EqDecision I} (owner : R -> pystr) (identity : R -> I) o name l :
  is_Ok (check_family owner identity o name l) = true <-> owned_by owner identity o l.
Proof.
  unfold check_family, owned_by.
  assert (Hg : Forall (fun r => negb (bool_decide (owner r = o)) = false) l <-> Forall (fun r => owner r = o) l).
  { rewrite !list.Forall_forall. setoid_rewrite negb_false_iff. by setoid_rewrite bool_decide_eq_true. }
  rewrite <- Hg. rewrite <- (NoDup_rev_nil (identity <$> l)). split.
  - destruct (foldM _ _ _) as [ids|e] eqn:H; [intros _|done].
    apply unique_loop_Ok in H as (H1 & H2 & _); [done|constructor].
  - intros [H1 H2]. rewrite (proj2 (unique_loop_Ok _ _ _ _ _ [] _ (NoDup_nil_2)) (conj H1 (conj H2 eq_refl))). done.
Qed.

Lemma check_family_total {R I} `{EqDecision I} (owner : R -> pystr) (identity : R -> I) o name l :
  owned_by owner identity o l -> exists ids, check_family owner identity o name l = Ok ids.
Proof. intros H. by apply is_Ok_true, check_family_Ok. Qed.

Lemma check_sources_Ok (l : list workflow_reg) :
  is_Ok (check_sources l) = true <-> NoDup (src_name <$> (l ≫= wf_sources)).
Proof.
  unfold check_sources. set (srcs := l ≫= wf_sources).
  pose proof (unique_loop_Ok (fun _ => false) src_name (KeyError "")
    (ContributionContractError "duplicate workflow source name") srcs []) as H.
  cbn [raise_if mbind result_bind] in H. rewrite <- (NoDup_rev_nil (src_name <$> srcs)). split.
  - destruct (foldM _ _ _) as [ids|e]; [intros _|done].
    by destruct (proj1 (H ids NoDup_nil_2) eq_refl) as (_ & H2 & _).
  - intros Hn. rewrite (proj2 (H (rev (src_name <$> srcs) ++ []) NoDup_nil_2)); [done|]. split; [|by split].
    by apply list.Forall_forall.
Qed.

Lemma check_overrides_Ok d tools p :
  check_overrides d tools = Ok p <-> d = Inst <$> p /\
    forall fp t, p = Some fp -> t ∈ dom (fp_tool_overrides fp) -> t ∈ tools.
Proof.
  unfold check_overrides. destruct d as [[fp|]|]; cbn.
  - split.
    + intros H. inv_ok. bool_hyps. split; [done|]. intros fp' t [= <-] Ht.
      destruct (decide (t ∈ tools)); [done|]. exfalso. apply (not_elem_of_empty (C:=gset pystr) t).
      rewrite <- Hm. by apply elem_of_difference.
    + intros [Hp Hs]. destruct p as [fp'|]; [|done]. injection Hp as <-.
      rewrite bool_decide_eq_true_2; [done|]. apply subseteq_empty_difference_L. intros t Ht. by eapply Hs.
  - split; [done|]. intros [Hp _]. by destruct p.
  - split; [intros [= <-]; naive_solver|]. intros [Hp _]. by destruct p.
Qed.

Lemma contract_Ok {A} (m : res A) a : contract m = Ok a <-> m = Ok a.
Proof. by destruct m as [x|[]]. Qed.

(** C25. [validate_feature_contributions] accepts exactly the contributions
    whose owner and tool names are stable tokens, whose registrations come as
    tuples of the right types all owned by that owner, with distinct
    identities within each method, distinct signal source names over all
    workflows, and permission overrides only for tools the feature has; it
    then returns those registrations unchanged. *)
Theorem contributions_exact owner tools services waits workflows (permissions : option (dyn _)) steps clauses
    (c : FeatureContributionSet callable provider service) :
  validate_feature_contributions owner tools services waits workflows permissions steps clauses = Ok c <->
  exists o names,
    owner = Inst o /\ well_formed_token o /\
    tools = Iter (Inst <$> names) /\ Forall well_formed_token names /\
    services = Tuple (Inst <$> fc_services c) /\ waits = Tuple (Inst <$> fc_wait_providers c) /\
    workflows = Tuple (Inst <$> fc_workflows c) /\ steps = Tuple (Inst <$> fc_setup_steps c) /\
    clauses = Tuple (Inst <$> fc_context_clauses c) /\ permissions = Inst <$> fc_permission_defaults c /\
    (forall p t, fc_permission_defaults c = Some p -> t ∈ dom (fp_tool_overrides p) -> t ∈ names) /\
    owned_by sg_owner registration_identity o (fc_services c) /\
    owned_by wp_owner wait_provider_identity o (fc_wait_providers c) /\
    owned_by wf_owner workflow_identity o (fc_workflows c) /\
    owned_by st_owner setup_step_identity o (fc_setup_steps c) /\
    owned_by cc_owner context_clause_identity o (fc_context_clauses c) /\
    NoDup (src_name <$> (fc_workflows c ≫= wf_sources)).
Proof.
  unfold validate_feature_contributions. split.
  - intros H. inv_ok. cbn [fc_services fc_wait_providers fc_workflows fc_permission_defaults fc_setup_steps
      fc_context_clauses]. repeat match goal with
    | H : contract _ = Ok _ |- _ => apply (proj1 (contract_Ok _ _)) in H
    | H : stable_token _ _ = Ok _ |- _ => apply stable_token_Ok in H as [-> ?]
    | H : frozen_tokens _ _ = Ok _ |- _ => apply frozen_tokens_Ok in H as (names & -> & ? & ->)
    | H : _typed_tuple _ _ = Ok _ |- _ => apply typed_tuple_Ok in H as ->
    | H : check_overrides _ _ = Ok _ |- _ => apply check_overrides_Ok in H as [-> ?]
    | H : check_family _ _ _ _ _ = Ok _ |- _ =>
        apply is_Ok_intro, check_family_Ok in H
    | H : check_sources _ = Ok _ |- _ => apply is_Ok_intro, check_sources_Ok in H
    end.
    eexists _, names. split_and!; try done.
    intros p t Hp Ht. by eapply (elem_of_list_to_set (C:=gset pystr)), H1.
  - intros (o & names & -> & Ho & -> & Hns & -> & -> & -> & -> & -> & -> & Hov & H1 & H2 & H3 & H4 & H5 & H6).
    apply (check_family_total _ _ _ "get_service_registrations") in H1 as [? H1].
    apply (check_family_total _ _ _ "get_wait_provider_registrations") in H2 as [? H2].
    apply (check_family_total _ _ _ "get_workflow_registrations") in H3 as [? H3].
    apply (check_family_total _ _ _ "get_setup_step_registrations") in H4 as [? H4].
    apply (check_family_total _ _ _ "get_context_clause_registrations") in H5 as [? H5].
    apply check_sources_Ok, is_Ok_true in H6 as [? H6].
    ok_step ltac:(by apply contract_Ok, stable_token_Ok).
    ok_step ltac:(by apply contract_Ok, frozen_tokens_Ok; exists names).
    do 5 ok_step ltac:(by apply typed_tuple_Ok).
    ok_step ltac:(apply check_overrides_Ok; split; [done|];
      intros p t Hp Ht; apply elem_of_list_to_set; by eapply Hov).
    ok_step ltac:(exact H1). ok_step ltac:(exact H2). ok_step ltac:(exact H3). ok_step ltac:(exact H4).
    ok_step ltac:(exact H5). ok_step ltac:(exact H6). by destruct c.
Qed.
End Props.

(** ** Errors *)

(** The only exception [m] raises is the contract error. *)
Definition only_contract {A} (m : res A) : Prop :=
  forall e, m = Raise e -> exists t, e = ContributionContractError t.

Lemma only_contract_bind {A B} (m : res A) (f : A -> res B) :
  only_contract m -> (forall a, only_contract (f a)) -> only_contract (m ≫= f).
Proof. intros Hm Hf e [H|(a & _ & H)]%bind_Raise; [by apply Hm|by eapply Hf]. Qed.

Lemma only_contract_guard b t : only_contract (raise_if b (ContributionContractError t)).
Proof. intros e [_ <-]%raise_if_Raise. by eexists. Qed.

Lemma only_contract_Ok {A} (a : A) : only_contract (Ok a).
Proof. by intros e H. Qed.

Lemma only_contract_foldM {S A} (f : S -> A -> res S) s l :
  (forall s x, only_contract (f s x)) -> only_contract (foldM f s l).
Proof.
  intros Hf. revert s. induction l as [|x l IH]; intros s; [apply only_contract_Ok|].
  by apply only_contract_bind.
Qed.

Lemma only_contract_instance {A} (v : dyn A) t : only_contract (require_instance v (ContributionContractError t)).
Proof. intros e. destruct v; [done|]. intros [= <-]. by eexists. Qed.

Lemma only_contract_traverse {A B} (f : A -> res B) l :
  (forall x, only_contract (f x)) -> only_contract (traverse f l).
Proof.
  intros Hf. induction l as [|x l IH]; [apply only_contract_Ok|].
  apply only_contract_bind; [done|]. intros y. apply only_contract_bind; [done|]. intros ys. apply only_contract_Ok.
Qed.

Lemma only_contract_typed {A} (v : dyntuple (dyn A)) field : only_contract (_typed_tuple v field).
Proof.
  destruct v as [l|]; [|by intros e [= <-]; eexists]. apply only_contract_traverse. intros x.
  apply only_contract_instance.
Qed.

Lemma only_contract_token v field : only_contract (contract (stable_token v field)).
Proof.
  intros e. destruct (stable_token v field) as [s|e'] eqn:H; [done|].
  apply stable_token_Raise in H as ->. intros [= <-]. by eexists.
Qed.

Lemma only_contract_tokens vs field : only_contract (contract (frozen_tokens vs field)).
Proof.
  intros e. destruct vs as [l| |]; cbn; [|by intros [= <-]; eexists..].
  assert (H : forall e', traverse (fun v => stable_token v field) l = Raise e' -> exists t, e' = ValueError t).
  { induction l as [|x l IH]; cbn; [done|]. intros e' [H|(a & _ & H)]%bind_Raise.
    - apply stable_token_Raise in H as ->. by eexists.
    - apply bind_Raise in H as [H|(b & _ & H)]; [by apply IH|done]. }
  destruct (traverse _ l) as [ts|e']; cbn; [done|]. destruct (H e' eq_refl) as [t ->]. intros [= <-]. by eexists.
Qed.

#[local] Hint Resolve only_contract_bind only_contract_guard only_contract_Ok only_contract_foldM
  only_contract_instance only_contract_typed only_contract_token only_contract_tokens : kestrel.

(** Every failure of the two validators is a [ContributionContractError],
    whatever was passed in. *)
Theorem contributions_errors {callable provider service} owner tools services waits workflows
    (permissions : option (dyn _)) steps clauses owners e :
  validate_feature_contributions (callable:=callable) (provider:=provider) (service:=service)
    owner tools services waits workflows permissions steps clauses = Raise e
  \/ validate_contribution_owner_uniqueness owners = Raise e ->
  exists t, e = ContributionContractError t.
Proof.
  intros [H|H]; revert e H.
  - apply only_contract_bind; [auto with kestrel|intros o]. apply only_contract_bind; [auto with kestrel|intros ts].
    do 5 (apply only_contract_bind; [auto with kestrel|intros ?]).
    apply only_contract_bind.
    { unfold check_overrides. destruct permissions; auto with kestrel. }
    intros p. unfold check_family, check_sources. repeat (apply only_contract_bind; [|intros ?]); auto 6 with kestrel.
  - unfold validate_contribution_owner_uniqueness. destruct owners; [|by intros e [= <-]; eexists..].
    apply only_contract_foldM. auto 6 with kestrel.
Qed.

(** The owners of one active set are accepted exactly when they are an
    iterable of distinct stable tokens, and returned in their order. *)
Theorem owner_uniqueness_exact owners os :
  validate_contribution_owner_uniqueness owners = Ok os <->
  owners = Iter (Inst <$> os) /\ Forall well_formed_token os /\ NoDup os.
Proof.
  destruct owners as [l| |]; [|by split; [|intros []]..].
  assert (Hgen : forall seen, NoDup seen -> foldM (fun seen owner =>
        o ← contract (stable_token owner "feature contribution_owner");
        _ ← raise_if (mem o seen) (ContributionContractError "duplicate active feature contribution_owner");
        Ok (seen ++ [o])) seen l = Ok os <->
      exists ts, os = seen ++ ts /\ l = Inst <$> ts /\ Forall well_formed_token ts /\ NoDup (seen ++ ts)).
  { induction l as [|x l IH]; intros seen Hs; cbn [foldM].
    - split; [intros [= <-]; exists []; rewrite app_nil_r; auto|].
      intros (ts & -> & Ht & _). destruct ts; [by rewrite app_nil_r|done].
    - split.
      + intros H. apply bind_Ok in H as (s1 & H1 & H). inv_ok. bool_hyps.
        apply (proj1 (contract_Ok _ _)), stable_token_Ok in Hm as [-> Hw].
        apply IH in H as (ts & -> & -> & Ht & Hnd).
        * exists (r :: ts). rewrite <- app_assoc in *. auto.
        * apply list.NoDup_app. split_and!; [done| |apply NoDup_singleton].
          intros y Hy ->%list_elem_of_singleton. done.
      + intros (ts & -> & Hl & Ht & Hnd). destruct ts as [|t ts]; [done|]. injection Hl as -> ->.
        apply list.Forall_cons in Ht as [Hw Ht]. apply bind_Ok. exists (seen ++ [t]). split.
        * ok_step ltac:(by apply contract_Ok, stable_token_Ok). ok_guard ltac:(apply mem_false; intros Hin;
            apply list.NoDup_app in Hnd as (_ & Hd & _); apply (Hd _ Hin); by left). done.
        * replace (t :: ts) with ([t] ++ ts) in * by done. rewrite app_assoc in *. apply IH; [|eauto].
          by apply list.NoDup_app in Hnd as (? & _ & _). }
  cbn [validate_contribution_owner_uniqueness]. rewrite (Hgen [] NoDup_nil_2). cbn. naive_solver.
Qed.

(** ** Setup step records *)

Lemma relative_name_Ok self k n :
  relative_name self k = Ok n <-> k = KeyText n /\ well_formed_token n /\ n <> self.
Proof.
  unfold relative_name. split.
  - intros H. inv_ok. bool_hyps. apply stable_token_Ok in Hm as [Hk Hw]. by destruct k; inversion Hk; subst.
  - intros (-> & Hw & Hne). ok_step ltac:(by apply stable_token_Ok).
    by ok_guard ltac:(by apply bool_decide_eq_false).
Qed.

Lemma relative_names_Ok self ks ns :
  traverse (relative_name self) ks = Ok ns <->
  ks = KeyText <$> ns /\ Forall well_formed_token ns /\ self ∉ ns.
Proof.
  rewrite traverse_Ok. split.
  - induction 1 as [|k n ks ns H _ (-> & Hw & Hs)]; [by split_and!; [|constructor|apply not_elem_of_nil]|].
    apply relative_name_Ok in H as (-> & Hn & Hne). split_and!; [done|by constructor|].
    apply not_elem_of_cons. split; congruence.
  - intros (-> & Hw & Hs). induction ns as [|n ns IH]; [constructor|].
    apply list.Forall_cons in Hw as [Hn Hw]. apply not_elem_of_cons in Hs as [Hne Hs].
    constructor; [|by apply IH]. apply relative_name_Ok. split_and!; congruence.
Qed.

Lemma unique_keys_Ok vs field l : unique_keys vs field = Ok l <-> vs = Iter l /\ NoDup l /\ KeyUnhashable ∉ l.
Proof.
  unfold unique_keys, hash_all. destruct vs as [ks| |]; [|by split; [|intros []]..]. split.
  - intros H. inv_ok. bool_hyps. apply unique_tuple_Ok in H as [[= ->] Hn]. auto.
  - intros ([= ->] & Hn & Hu). ok_guard ltac:(by apply mem_false). by apply unique_tuple_Ok.
Qed.

#[global] Instance KeyText_inj : Inj (=) (=) KeyText.
Proof. by intros x y [= ->]. Qed.

Lemma unhashable_names (ns : list pystr) : KeyUnhashable ∉ KeyText <$> ns.
Proof. by intros (n & Hn & _)%list_elem_of_fmap. Qed.

(** A setup step is built exactly from two stable tokens, a callable, a
    known classification, an [int] order and two duplicate-free iterables of
    stable tokens, disjoint and without the step's own name. *)
Theorem setup_step_exact {callable} owner name step classification order before after
    (s : SetupStepRegistration callable) :
  setup_step_post_init owner name step classification order before after = Ok s <->
  (owner = Inst (st_owner s) /\ well_formed_token (st_owner s)) /\
  (name = Inst (st_name s) /\ well_formed_token (st_name s)) /\
  step = Inst (st_step s) /\ classify classification = Ok (st_classification s) /\
  order = DInt (st_order s) /\
  before = Iter (KeyText <$> st_before s) /\ after = Iter (KeyText <$> st_after s) /\
  NoDup (st_before s) /\ NoDup (st_after s) /\ st_before s ## st_after s /\
  Forall well_formed_token (st_before s ++ st_after s) /\ st_name s ∉ st_before s ++ st_after s.
Proof.
  assert (Hdis : forall b a : list pystr, existsb (fun x => mem x a) b = false <-> b ## a).
  { intros b a. rewrite <- not_true_iff_false, List.existsb_exists. split.
    - intros H x Hb Ha. apply H. exists x. split; [by apply list_elem_of_In|by apply mem_true].
    - intros H (x & Hb & Ha). apply list_elem_of_In in Hb. apply mem_true in Ha. by eapply H. }
  unfold setup_step_post_init, _owned_identity. split.
  - intros H. inv_ok. repeat match goal with
    | H : stable_token _ _ = Ok _ |- _ => apply stable_token_Ok in H as [-> ?]
    | H : require_instance _ _ = Ok _ |- _ => apply require_instance_Ok in H as ->
    | H : unique_keys _ _ = Ok _ |- _ => apply unique_keys_Ok in H as (-> & ? & _)
    | H : require_int ?v _ = Ok _ |- _ => destruct v; try discriminate H; cbn in H; injection H as ->
    | H : existsb _ _ = false |- _ => apply Hdis in H
    | H : traverse (relative_name _) _ = Ok _ |- _ => apply relative_names_Ok in H as (Hk & Hw & Hs)
    end.
    cbn [st_owner st_name st_step st_classification st_order st_before st_after].
    assert (Ht : r4 = KeyText <$> take (length r4) r6) by (by rewrite fmap_take, <- Hk, take_app_length).
    assert (Hd : r5 = KeyText <$> drop (length r4) r6) by (by rewrite fmap_drop, <- Hk, drop_app_length).
    rewrite take_drop, <- Ht, <- Hd. split_and!; try done.
    + apply (NoDup_fmap_1 KeyText). by rewrite <- Ht.
    + apply (NoDup_fmap_1 KeyText). by rewrite <- Hd.
  - intros ((-> & Ho) & (-> & Hn) & -> & Hc & -> & -> & -> & Hb & Ha & Hd & Hw & Hs).
    ok_step ltac:(ok_step ltac:(by apply stable_token_Ok); ok_step ltac:(by apply stable_token_Ok); done). cbv beta iota.
    ok_step ltac:(done). ok_step ltac:(exact Hc). ok_step ltac:(done).
    ok_step ltac:(apply unique_keys_Ok; split_and!; [done|by apply (NoDup_fmap_2 KeyText)|apply unhashable_names]).
    ok_step ltac:(apply unique_keys_Ok; split_and!; [done|by apply (NoDup_fmap_2 KeyText)|apply unhashable_names]).
    ok_step ltac:(apply relative_names_Ok; split_and!; [symmetry; apply fmap_app|done|done]).
    rewrite length_fmap, take_app_length, drop_app_length.
    ok_guard ltac:(by apply Hdis). by destruct s.
Qed.
