(* ===== verification/ToolResults.v ===== *)
(** * Tool results ([kestrel_sdk/tools/result.py], [kestrel_sdk/tools/waitable.py])

    The honesty envelope of a tool call and the status a wait provider
    reports.  Dict values are JSON-like trees ([fjson]). *)

From S2P Require Export Features RpcProtocol.

(** ** Dicts *)

Definition num_of (t : fjson) : option pynum :=
  match t with
  | FBool b => Some (NInt (if b then 1 else 0))
  | FInt z => Some (NInt z)
  | FFloat f => Some (NFloat f)
  | _ => None
  end.

(** [==] on numbers: [True == 1 == 1.0].  An integer and a float compare by
    the float's shortest decimal, which is its value up to [2^53]; a [nan]
    equals itself, as the same object in two containers does. *)
Definition float_scaled (f : pyfloat) : option (Z * Z) :=
  match f with FFin neg c e => Some ((if neg then - c else c) * 10 ^ Z.max 0 e, 10 ^ Z.max 0 (- e)) | _ => None end.

Definition num_eqb (a b : pynum) : bool :=
  match a, b with
  | NInt x, NInt y => x =? y
  | NFloat f, NInt z | NInt z, NFloat f =>
      match float_scaled f with Some (n, d) => n =? z * d | None => false end
  | NFloat f, NFloat h =>
      bool_decide (f = h)
      || match float_scaled f, float_scaled h with
         | Some (n, d), Some (m, e) => n * e =? m * d
         | _, _ => false
         end
  end.

(** [a == b]; dicts compare as maps. *)
Fixpoint py_eqb (a b : fjson) {struct a} : bool :=
  match a, b with
  | FNull, FNull => true
  | FStr s, FStr s' => bool_decide (s = s')
  | FTuple l, FTuple k =>
      (fix go (l k : list fjson) {struct l} : bool :=
         match l, k with
         | [], [] => true
         | x :: l', y :: k' => py_eqb x y && go l' k'
         | _, _ => false
         end) l k
  | FMap m, FMap n =>
      (len m =? len n)
      && (fix go (m : pydict) {struct m} : bool :=
            match m with
            | [] => true
            | (k, x) :: m' =>
                match dict_lookup k n with Some y => py_eqb x y | None => false end && go m'
            end) m
  | _, _ =>
      match num_of a, num_of b with
      | Some x, Some y => num_eqb x y
      | _, _ => false
      end
  end.

Definition dict_eqb (a b : pydict) : bool := py_eqb (FMap a) (FMap b).

(** [if value:] *)
Definition truthy (t : fjson) : bool :=
  match t with
  | FNull | FBool false => false
  | FInt z => negb (z =? 0)
  | FFloat (FFin _ c _) => negb (c =? 0)
  | FStr s => negb (bool_decide (s = []))
  | FTuple l => negb (bool_decide (length l = 0%nat))
  | FMap l => negb (bool_decide (length l = 0%nat))
  | _ => true
  end.

(** ** The envelope *)

Inductive ToolResultStatus : Type := OK_STATUS | ERROR_STATUS | PARTIAL_STATUS.

#[global] Instance ToolResultStatus_eq_dec : EqDecision ToolResultStatus.
Proof. solve_decision. Defined.

Definition tool_statuses : list ToolResultStatus := [OK_STATUS; ERROR_STATUS; PARTIAL_STATUS].

Definition tool_status_value (s : ToolResultStatus) : pystr :=
  match s with OK_STATUS => u "ok" | ERROR_STATUS => u "error" | PARTIAL_STATUS => u "partial" end.

Record ToolResult := MkToolResult {
  tr_status : ToolResultStatus;
  tr_confirmation : option pystr;
  tr_error : option pystr;
  tr_data : option pydict;
  tr_parts : option (list pydict)
}.

(** [status] as a member of the enum (a [str] too) or its text. *)
Definition coerce_status (value : fjson) : res ToolResultStatus :=
  match value with
  | FStr s =>
      match by_value tool_statuses tool_status_value s with
      | Some st => Ok st
      | None => Raise (ValueError "ToolResult.status must be a ToolResultStatus or one of its values")
      end
  | _ => Raise (TypeError "ToolResult.status must be a ToolResultStatus")
  end.

(** [value is not None and not isinstance(value, str)] *)
Definition opt_text (value : fjson) (field : string) : res (option pystr) :=
  match value with
  | FNull => Ok None
  | FStr s => Ok (Some s)
  | _ => Raise (TypeError ("ToolResult." +:+ field +:+ " must be a str or None"))
  end.

Definition check_part (entry : fjson) : res pydict :=
  match entry with
  | FMap d =>
      match dict_get (u "type") d with
      | FStr (_ :: _) => Ok d
      | _ => Raise (ValueError "ToolResult.parts entries require a non-empty string 'type'")
      end
  | _ => Raise (TypeError "ToolResult.parts entries must be dicts")
  end.

Definition check_parts (value : fjson) : res (option (list pydict)) :=
  match value with
  | FNull => Ok None
  | FTuple l => ps ← traverse check_part l; Ok (Some ps)
  | _ => Raise (TypeError "ToolResult.parts must be a list of dicts or None")
  end.

Definition empty_text (t : option pystr) : bool :=
  match t with Some (_ :: _) => false | _ => true end.

(** The status-specific invariants. *)
Definition check_status (status : ToolResultStatus) (confirmation error : option pystr) : res unit :=
  match status with
  | OK_STATUS =>
      _ ← raise_if (empty_text confirmation)
            (ValueError "ToolResult(status=OK) requires a non-empty confirmation");
      raise_if (bool_decide (is_Some error))
        (ValueError "ToolResult(status=OK) cannot carry an error; use status=ERROR or status=PARTIAL")
  | ERROR_STATUS =>
      _ ← raise_if (empty_text error) (ValueError "ToolResult(status=ERROR) requires a non-empty error");
      raise_if (bool_decide (is_Some confirmation))
        (ValueError "ToolResult(status=ERROR) cannot carry a confirmation; use status=OK or status=PARTIAL")
  | PARTIAL_STATUS =>
      _ ← raise_if (empty_text confirmation)
            (ValueError "ToolResult(status=PARTIAL) requires a non-empty confirmation");
      raise_if (empty_text error) (ValueError "ToolResult(status=PARTIAL) requires a non-empty error")
  end.

Definition tool_result_post_init (status confirmation error data parts : fjson) : res ToolResult :=
  st ← coerce_status status;
  c ← opt_text confirmation "confirmation";
  e ← opt_text error "error";
  d ← match data with
      | FNull => Ok None
      | FMap d => Ok (Some d)
      | _ => Raise (TypeError "ToolResult.data must be a dict or None")
      end;
  p ← check_parts parts;
  _ ← check_status st c e;
  Ok (MkToolResult st c e d p).

Definition tool_ok (confirmation data parts : fjson) : res ToolResult :=
  tool_result_post_init (FStr (tool_status_value OK_STATUS)) confirmation FNull data parts.

Definition tool_failed (error data parts : fjson) : res ToolResult :=
  tool_result_post_init (FStr (tool_status_value ERROR_STATUS)) FNull error data parts.

Definition tool_partial (confirmation error data parts : fjson) : res ToolResult :=
  tool_result_post_init (FStr (tool_status_value PARTIAL_STATUS)) confirmation error data parts.

(** [to_dict]: absent fields and an empty list of parts are omitted. *)
Definition tool_to_dict (self : ToolResult) : pydict :=
  [(u "status", FStr (tool_status_value (tr_status self)))]
  ++ opt_field "confirmation" FStr (tr_confirmation self)
  ++ opt_field "error" FStr (tr_error self)
  ++ opt_field "data" FMap (tr_data self)
  ++ match tr_parts self with
     | None | Some [] => []
     | Some ps => [(u "parts", FTuple (FMap <$> ps))]
     end.

(** ** Wait providers *)

Module Waitable.
Inductive Outcome : Type := PENDING | DONE | FAILED | PARTIAL.

Definition outcomes : list Outcome := [PENDING; DONE; FAILED; PARTIAL].

Definition outcome_value (o : Outcome) : pystr :=
  match o with
  | PENDING => u "pending" | DONE => u "done" | FAILED => u "failed" | PARTIAL => u "partial"
  end.

Definition is_terminal (o : Outcome) : bool := match o with PENDING => false | _ => true end.

Record WaitStatus := MkWaitStatus {
  ws_outcome : Outcome;
  ws_summary : pystr;
  ws_data : option pydict
}.

Definition wait_status_post_init (outcome : dynenum Outcome) (summary data : fjson) : res WaitStatus :=
  o ← match outcome with
      | Member o => Ok o
      | EnumText s =>
          match by_value outcomes outcome_value s with
          | Some o => Ok o
          | None => Raise (ValueError "WaitStatus.outcome must be an Outcome or one of its values")
          end
      | NotEnum => Raise (TypeError "WaitStatus.outcome must be an Outcome")
      end;
  s ← match summary with
      | FStr (c :: s) => Ok (c :: s)
      | _ => Raise (ValueError "WaitStatus.summary must be a non-empty str")
      end;
  d ← match data with
      | FNull => Ok None
      | FMap d => Ok (Some d)
      | _ => Raise (TypeError "WaitStatus.data must be a dict or None")
      end;
  Ok (MkWaitStatus o s d).
End Waitable.
