(* ===== verification/ToolResultsProps.v ===== *)
(** * Tool results: theorems *)

From S2P Require Export ToolResults.

Definition nonempty (t : option pystr) : Prop := exists c s, t = Some (c :: s).

(** What the three states promise. *)
Definition honest (r : ToolResult) : Prop :=
  match tr_status r with
  | OK_STATUS => nonempty (tr_confirmation r) /\ tr_error r = None
  | ERROR_STATUS => nonempty (tr_error r) /\ tr_confirmation r = None
  | PARTIAL_STATUS => nonempty (tr_confirmation r) /\ nonempty (tr_error r)
  end.

Definition typed_part (p : pydict) : Prop := exists c s, dict_get (u "type") p = FStr (c :: s).

Definition opt_json {A} (f : A -> fjson) (o : option A) : fjson :=
  match o with Some a => f a | None => FNull end.

Lemma empty_text_false t : empty_text t = false <-> nonempty t.
Proof. unfold nonempty. destruct t as [[|c s]|]; cbn; split; try done; naive_solver. Qed.

Lemma check_status_Ok st c e :
  check_status st c e = Ok tt <-> honest (MkToolResult st c e None None).
Proof.
  unfold honest, nonempty; cbn. destruct st, c as [[|]|], e as [[|]|]; cbn; naive_solver.
Qed.

Lemma check_part_Ok t d : check_part t = Ok d <-> t = FMap d /\ typed_part d.
Proof.
  unfold check_part, typed_part. split.
  - destruct t as [| | | | |l|d']; try done. destruct (dict_get _ d') as [| | | |[|c s]| |] eqn:H; try done.
    intros [= ->]. eauto.
  - intros (-> & c & s & ->). done.
Qed.

Lemma check_parts_Ok v p :
  check_parts v = Ok p <-> v = opt_json (fun ps => FTuple (FMap <$> ps)) p
    /\ forall ps, p = Some ps -> Forall typed_part ps.
Proof.
  assert (Htr : forall l ps, traverse check_part l = Ok ps <-> l = FMap <$> ps /\ Forall typed_part ps).
  { intros l ps. rewrite traverse_Ok. split.
    - induction 1 as [|x y l ps Hx _ [-> IH]]; [by split|]. apply check_part_Ok in Hx as [-> Hy].
      split; [done|by constructor].
    - intros [-> H]. induction H; constructor; [by apply check_part_Ok|done]. }
  unfold check_parts. destruct v as [| | | | |l|d].
  6: { rewrite bind_Ok. split.
       - intros (ps & Hl & [= <-]). apply Htr in Hl as [-> Hp]. split; [done|]. by intros ps' [= <-].
       - intros [Hl Hp]. destruct p as [ps|]; [|done]. injection Hl as ->. exists ps.
         split; [apply Htr; auto|done]. }
  1: split; [intros [= <-]; done|intros [Hl Hp]; by destruct p].
  all: split; [done|intros [Hl Hp]; by destruct p].
Qed.

Lemma opt_text_Ok v f t : opt_text v f = Ok t <-> v = opt_json FStr t.
Proof. destruct v, t; cbn; split; try done; intros [= ->]; done. Qed.

Lemma coerce_status_Ok v st : coerce_status v = Ok st <-> v = FStr (tool_status_value st).
Proof.
  unfold coerce_status. split.
  - destruct v as [| | | |s| |]; try done. destruct (by_value _ _ s) as [st'|] eqn:H; [|done]. intros [= ->].
    unfold by_value in H. apply List.find_some in H as [_ H]. apply bool_decide_eq_true in H. by subst s.
  - intros ->. by destruct st.
Qed.

(** The envelope is honest: [ToolResult] accepts a status, texts, data and
    parts exactly when they have their types and the status keeps its
    promise: OK carries a non-empty confirmation and no error, ERROR the
    reverse, PARTIAL both, and each part names a type. *)
Theorem tool_result_exact status confirmation error data parts r :
  tool_result_post_init status confirmation error data parts = Ok r <->
  status = FStr (tool_status_value (tr_status r)) /\ confirmation = opt_json FStr (tr_confirmation r)
  /\ error = opt_json FStr (tr_error r) /\ data = opt_json FMap (tr_data r)
  /\ parts = opt_json (fun ps => FTuple (FMap <$> ps)) (tr_parts r)
  /\ honest r /\ forall ps, tr_parts r = Some ps -> Forall typed_part ps.
Proof.
  unfold tool_result_post_init. split.
  - intros H. inv_ok. apply coerce_status_Ok in Hm as ->. apply opt_text_Ok in Hm0 as ->, Hm1 as ->.
    apply check_parts_Ok in Hm3 as [-> Hp]. apply check_status_Ok in Hm4. cbn. split_and!; try done.
    destruct data; inv_ok; done.
  - intros (-> & -> & -> & -> & -> & Hh & Hp).
    ok_step ltac:(by apply coerce_status_Ok). ok_step ltac:(by apply opt_text_Ok).
    ok_step ltac:(by apply opt_text_Ok). apply bind_Ok. exists (tr_data r). split; [by destruct (tr_data r)|].
    ok_step ltac:(by apply check_parts_Ok). apply bind_Ok. exists tt. split; [|by destruct r].
    apply check_status_Ok. exact Hh.
Qed.

(** The envelope as the framework stores it. *)
Definition read_envelope (d : pydict) : res ToolResult :=
  tool_result_post_init (dict_get (u "status") d) (dict_get (u "confirmation") d) (dict_get (u "error") d)
    (dict_get (u "data") d) (dict_get (u "parts") d).

(** Serialising a valid result and reading it back gives the result,
    except that an empty list of parts comes back as no parts. *)
Theorem tool_result_roundtrip r :
  honest r -> (forall ps, tr_parts r = Some ps -> Forall typed_part ps) ->
  read_envelope (tool_to_dict r) = Ok (MkToolResult (tr_status r) (tr_confirmation r) (tr_error r) (tr_data r)
    (match tr_parts r with Some [] => None | p => p end)).
Proof.
  intros Hh Hp. unfold read_envelope. apply tool_result_exact. cbn [tr_status tr_confirmation tr_error tr_data tr_parts].
  destruct r as [st c e d p]; cbn [tr_status tr_confirmation tr_error tr_data tr_parts] in *.
  split_and!; try (destruct c, e, d, p as [[|]|]; reflexivity); [exact Hh|].
  intros ps Heq. apply Hp. destruct p as [[|]|]; congruence.
Qed.

Definition sample_result : ToolResult :=
  MkToolResult PARTIAL_STATUS (Some (u "sent")) (Some (u "no receipt")) None (Some [[(u "type", FStr (u "card"))]]).

Lemma tool_result_roundtrip_witness : read_envelope (tool_to_dict sample_result) = Ok sample_result.
Proof.
  apply (tool_result_roundtrip sample_result).
  - split; eexists _, _; reflexivity.
  - intros ps [= <-]. repeat constructor. eexists _, _. reflexivity.
Defined.
