(* ===== verification/DeferredTools.v ===== *)
(** * Deferred tool results ([kestrel_sdk/tools/deferred.py])

    A tool envelope that carries one private factory of render parts, which
    the host runs after its post-tool policy.  Objects are mutable and
    shared, and the operations of several threads interleave: a step is a
    lock-protected access, a check of an envelope, or the start or end of a
    factory call.  The factory is environment code: a step says what it
    returned. *)

From stdpp Require Import gmap.
From S2P Require Export ToolResults.

(** ** Records *)

Record ToolPublicationContext := MkContext { pc_agent_id : pystr; pc_session_id : pystr }.

#[global] Instance ToolPublicationContext_eq_dec : EqDecision ToolPublicationContext.
Proof. solve_decision. Defined.

Definition context_text (value : dyn pystr) (name : string) : res pystr :=
  let err := ValueError ("Tool publication " +:+ name +:+ " must be a non-empty string") in
  match value with
  | Inst s => _ ← raise_if (bool_decide (strip s = [])) err; Ok s
  | Foreign => Raise err
  end.

Definition publication_context_post_init (agent_id session_id : dyn pystr) : res ToolPublicationContext :=
  a ← context_text agent_id "agent_id";
  s ← context_text session_id "session_id";
  Ok (MkContext a s).

Record FinalizedToolResult := MkFinalized { fr_result : pydict; fr_parts : list pydict; fr_withheld : bool }.

(** ** Envelopes *)

(** [ToolResult( **{name: value for name in its fields})]; a missing [status]
    is a missing argument. *)
Definition _validate_envelope (result : pydict) : res ToolResult :=
  match dict_lookup (u "status") result with
  | None => Raise (TypeError "missing argument status")
  | Some status =>
      tool_result_post_init status (dict_get (u "confirmation") result) (dict_get (u "error") result)
        (dict_get (u "data") result) (dict_get (u "parts") result)
  end.

(** The constructor's argument [publish]: not callable, a coroutine
    function, or a synchronous callable. *)
Inductive publisher : Type := NotCallable | Coroutine | Synchronous.

(** The checks of [__init__]; the result is the payload. *)
Definition deferred_init (result : dyn pydict) (publish : publisher) : res pydict :=
  payload ← require_instance result (TypeError "Deferred tool result must be a dictionary");
  _ ← raise_if (match publish with Synchronous => false | _ => true end)
        (TypeError "Deferred render delivery requires a synchronous callable");
  _ ← _validate_envelope payload;
  Ok payload.

(** [payload.get("parts") or []] of a valid envelope. *)
Definition existing_parts (d : pydict) : list fjson :=
  match dict_get (u "parts") d with FTuple l => l | _ => [] end.

(** A value of type [bool], or one of another type. *)
Abbreviation dynbool := (dyn bool).

Record for_tool_args := MkForTool { ft_name : dyn pystr; ft_pending_parts : fjson; ft_include_success : dynbool }.

(** [for_tool] after the factory is taken; [items] is what the object holds. *)
Definition for_tool_payload (items baseline : pydict) (a : for_tool_args) : res pydict :=
  _ ← raise_if (negb (dict_eqb items baseline))
        (ValueError "Deferred tool result changed before wrapper metadata was added");
  name ← (match ft_name a with
          | Inst (c :: s) => Ok (c :: s)
          | _ => Raise (ValueError "Deferred tool wrapper requires a non-empty tool name")
          end : res pystr);
  include_success ← (require_instance (ft_include_success a)
    (TypeError "Deferred tool wrapper success projection must be a boolean") : res bool);
  pending ← (match ft_pending_parts a with
             | FTuple l => Ok l
             | _ => Raise (TypeError "Deferred tool wrapper requires a list of buffered parts")
             end : res (list fjson));
  _ ← tool_ok (FStr (u "Buffered render parts")) FNull (FTuple pending);
  let payload := dict_set (u "tool") (FStr name) items in
  payload ← (if (include_success : bool) then
               match dict_lookup (u "status") payload with
               | None => Raise (KeyError "status")
               | Some st => Ok (dict_set (u "success") (FBool (negb (py_eqb st (FStr (u "error"))))) payload)
               end
             else Ok payload : res pydict);
  let payload := if truthy (FTuple pending)
                 then dict_set (u "parts") (FTuple (pending ++ existing_parts payload)) payload
                 else payload in
  deferred_init (Inst payload) Synchronous.

(** The value handed to [finalize]: an object, a plain dict, anything else. *)
Inductive hook_result : Type :=
| HookObject (id : positive)
| HookDict (d : pydict)
| HookOther.

Record finalize_args := MkFinalize {
  fa_post_hook_result : hook_result;
  fa_allowed : dynbool;
  fa_context : option (dyn ToolPublicationContext)
}.

(** The checks of [finalize] after the factory is taken: the copied envelope,
    and whether the factory may run.  [hook] is what [post_hook_result]
    holds. *)
Definition finalize_check (is_self : bool) (hook : dyn pydict) (baseline : pydict) (a : finalize_args)
    : res (pydict * bool * option ToolPublicationContext) :=
  allowed ← require_instance (fa_allowed a)
              (TypeError "Deferred render delivery requires an explicit boolean policy decision");
  context ← match fa_context a with
            | None => Ok None
            | Some c => c ← require_instance c
                          (TypeError "Deferred render delivery requires a host ToolPublicationContext");
                        Ok (Some c)
            end;
  result ← require_instance hook (TypeError "Post-tool policy must return a dictionary envelope");
  Ok (result, allowed && is_self && dict_eqb result baseline, context).

(** [finalize] after the factory returned [produced]. *)
Definition finalize_finish (result : pydict) (produced : fjson) : res FinalizedToolResult :=
  _ ← raise_if (match produced with FNull => true | _ => false end)
        (TypeError "Deferred render delivery must return a list of parts");
  ok ← tool_ok (FStr (u "Deferred render delivery")) FNull produced;
  let parts := default [] (tr_parts ok) in
  if bool_decide (length parts = 0%nat) then Ok (MkFinalized result [] false)
  else
    let result := dict_set (u "parts") (FTuple (existing_parts result ++ (FMap <$> parts))) result in
    _ ← _validate_envelope result;
    Ok (MkFinalized result parts false).

(** ** The running program *)

(** A [DeferredToolResult]: its items, [_baseline], [_publish] and
    [_delivery_state].  A factory is named by the delivery state its first
    holder was built with. *)
Record deferred := MkDeferred {
  df_items : pydict;
  df_baseline : pydict;
  df_publish : option positive;
  df_state : positive
}.

(** Where a call of [for_tool] or [finalize] stands. *)
Inductive stage : Type :=
| ForTool (obj factory : positive) (a : for_tool_args)            (* factory taken *)
| Finalizing (obj factory : positive) (a : finalize_args)         (* factory taken *)
| Approved (obj factory : positive) (result : pydict) (context : option ToolPublicationContext)
| Publishing (obj factory : positive) (result : pydict) (context : option ToolPublicationContext)
| Returned (factory : positive) (result : pydict) (produced : res fjson)   (* context cleared *)
| Transferred (obj : positive)
| Finished (r : res FinalizedToolResult).

(** A factory call as the outside sees it, with the envelope it was
    approved for. *)
Record publication := MkPublication {
  pb_factory : positive;
  pb_thread : positive;
  pb_object : positive;
  pb_result : pydict;
  pb_context : option ToolPublicationContext
}.

Record world := MkWorld {
  objects : gmap positive deferred;
  states : gmap positive (option ToolPublicationContext);
  threads : gmap positive stage;
  published : list publication;
  next : positive
}.

Definition init_world : world := MkWorld ∅ ∅ ∅ [] 1%positive.

Inductive event : Type :=
| Construct (result : dyn pydict) (publish : publisher)
| Mutate (obj : positive) (items : pydict)
| CallForTool (thread obj : positive) (a : for_tool_args)
| CallFinalize (thread obj : positive) (a : finalize_args)
| Continue (thread : positive)
| FactoryReturns (thread : positive) (produced : res fjson).

Definition set_thread (t : positive) (s : stage) (w : world) : world :=
  MkWorld (objects w) (states w) (<[t := s]> (threads w)) (published w) (next w).
Definition set_object (o : positive) (d : deferred) (w : world) : world :=
  MkWorld (<[o := d]> (objects w)) (states w) (threads w) (published w) (next w).
Definition set_context (s : positive) (c : option ToolPublicationContext) (w : world) : world :=
  MkWorld (objects w) (<[s := c]> (states w)) (threads w) (published w) (next w).

(** [DeferredToolResult(payload, publish=publish)] with a delivery state: a
    fresh one from the constructor, the holder's after [for_tool]. *)
Definition allocate (payload : pydict) (factory state : positive) (w : world) : world :=
  MkWorld (<[next w := MkDeferred payload payload (Some factory) state]> (objects w)) (states w)
    (threads w) (published w) (Pos.succ (next w)).

Definition construct (result : dyn pydict) (publish : publisher) (w : world) : world :=
  match deferred_init result publish with
  | Ok payload =>
      let w1 := allocate payload (next w) (next w) w in
      set_context (next w) None w1
  | Raise _ => w
  end.

(** [publication_context] *)
Definition publication_context (o : positive) (w : world) : option ToolPublicationContext :=
  match objects w !! o with Some d => default None (states w !! df_state d) | None => None end.

(** [_take_factory]: under the lock, the factory leaves the object. *)
Definition _take_factory (o : positive) (d : deferred) (w : world) : res (positive * world) :=
  match df_publish d with
  | None => Raise (RuntimeError "Deferred tool result was already finalized or transferred")
  | Some f => Ok (f, set_object o (MkDeferred (df_items d) (df_baseline d) None (df_state d)) w)
  end.

Definition hook_value (r : hook_result) (w : world) : dyn pydict :=
  match r with
  | HookObject o => match objects w !! o with Some d => Inst (df_items d) | None => Foreign end
  | HookDict d => Inst d
  | HookOther => Foreign
  end.

Definition is_self (o : positive) (r : hook_result) : bool :=
  match r with HookObject o' => bool_decide (o' = o) | _ => false end.

(** What a thread does next on its own. *)
Definition continue_stage (t : positive) (s : stage) (w : world) : option world :=
  match s with
  | ForTool o f a =>
      d ← objects w !! o;
      match for_tool_payload (df_items d) (df_baseline d) a with
      | Ok payload =>
          let w1 := allocate payload f (df_state d) w in
          Some (set_thread t (Transferred (next w)) w1)
      | Raise e => Some (set_thread t (Finished (Raise e)) w)
      end
  | Finalizing o f a =>
      d ← objects w !! o;
      match finalize_check (is_self o (fa_post_hook_result a)) (hook_value (fa_post_hook_result a) w)
              (df_baseline d) a with
      | Ok (result, true, context) =>
          Some (set_thread t (Approved o f result context) (set_context (df_state d) context w))
      | Ok (result, false, _) => Some (set_thread t (Finished (Ok (MkFinalized result [] true))) w)
      | Raise e => Some (set_thread t (Finished (Raise e)) w)
      end
  | Approved o f result context =>
      (* [publish()] starts *)
      Some (MkWorld (objects w) (states w) (<[t := Publishing o f result context]> (threads w))
              (published w ++ [MkPublication f t o result context]) (next w))
  | Returned _ result produced =>
      Some (set_thread t (Finished (p ← produced; finalize_finish result p)) w)
  | _ => None
  end.

Definition begin_call (t o : positive) (s : positive -> stage) (w : world) : option world :=
  match threads w !! t with
  | Some _ => None
  | None =>
      d ← objects w !! o;
      match _take_factory o d w with
      | Ok (f, w1) => Some (set_thread t (s f) w1)
      | Raise e => Some (set_thread t (Finished (Raise e)) w)
      end
  end.

(** [None]: the event cannot happen now. *)
Definition step (w : world) (e : event) : option world :=
  match e with
  | Construct result publish => Some (construct result publish w)
  | Mutate o items =>
      d ← objects w !! o;
      Some (set_object o (MkDeferred items (df_baseline d) (df_publish d) (df_state d)) w)
  | CallForTool t o a => begin_call t o (fun f => ForTool o f a) w
  | CallFinalize t o a => begin_call t o (fun f => Finalizing o f a) w
  | Continue t => s ← threads w !! t; continue_stage t s w
  | FactoryReturns t produced =>
      match threads w !! t with
      | Some (Publishing o f result context) =>
          d ← objects w !! o;
          Some (set_thread t (Returned f result produced) (set_context (df_state d) None w))
      | _ => None
      end
  end.

Fixpoint run (w : world) (es : list event) : option world :=
  match es with
  | [] => Some w
  | e :: es' => w1 ← step w e; run w1 es'
  end.
