(* ===== verification/DeferredToolsProps.v ===== *)
(** * Deferred tool results: theorems

    A factory is run at most once, only by a [finalize] the host allowed on
    the unchanged object itself, and its destination is visible only while
    it is about to run or runs. *)

From stdpp Require Import gmap.
From S2P Require Export DeferredTools.

(** ** Values kept in a store *)

(** What the entries of a store hold, in some order. *)
Definition slots {A} (f : A -> list positive) (m : gmap positive A) : list positive :=
  map_to_list m ≫= (fun ia => f ia.2).

Section Slots.
Context {A : Type} (f : A -> list positive).
Implicit Types m : gmap positive A.

Lemma slots_insert_new m i x : m !! i = None -> slots f (<[i:=x]> m) ≡ₚ f x ++ slots f m.
Proof. intros Hi. unfold slots. by rewrite map_to_list_insert by done. Qed.

Lemma slots_delete m i x : m !! i = Some x -> slots f m ≡ₚ f x ++ slots f (delete i m).
Proof. intros Hi. unfold slots. by rewrite <- (map_to_list_delete m i x Hi). Qed.

Lemma slots_insert m i x : slots f (<[i:=x]> m) ≡ₚ f x ++ slots f (delete i m).
Proof. rewrite <- insert_delete_eq. apply slots_insert_new, lookup_delete_eq. Qed.

Lemma elem_of_slots m x : x ∈ slots f m <-> exists i a, m !! i = Some a /\ x ∈ f a.
Proof.
  unfold slots. rewrite list_elem_of_bind. split.
  - intros ([i a] & Hx & Hi). apply elem_of_map_to_list in Hi. eauto.
  - intros (i & a & Hi & Hx). exists (i, a). split; [done|]. by apply elem_of_map_to_list.
Qed.
End Slots.

Lemma NoDup_submseteq_l {A} (l k : list A) : l ⊆+ k -> NoDup k -> NoDup l.
Proof.
  intros [k' Hk]%submseteq_Permutation Hn. rewrite Hk in Hn. by apply list.NoDup_app in Hn as [? _].
Qed.

(** ** Where a factory is *)

Definition object_factory (d : deferred) : list positive := option_list (df_publish d).

(** A thread that has taken a factory and not run it. *)
Definition stage_factory (s : stage) : list positive :=
  match s with ForTool _ f _ | Finalizing _ f _ | Approved _ f _ _ => [f] | _ => [] end.

Definition held (w : world) : list positive :=
  slots object_factory (objects w) ++ slots stage_factory (threads w) ++ (pb_factory <$> published w).

Definition fresh_world (w : world) : Prop :=
  (forall o d, objects w !! o = Some d -> (o < next w)%positive) /\ (forall f, f ∈ held w -> (f < next w)%positive).

(** ** The transitions

    [step] as rules, one per kind of change. *)

Definition taken (d : deferred) : deferred := MkDeferred (df_items d) (df_baseline d) None (df_state d).

(** The factory, envelope and destination of a delivery under way. *)
Definition delivering (s : stage) : option (positive * positive * pydict * option ToolPublicationContext) :=
  match s with Approved o f r c | Publishing o f r c => Some (o, f, r, c) | _ => None end.

Inductive trans (w : world) : event -> world -> Prop :=
| t_new d p payload : deferred_init d p = Ok payload ->
    trans w (Construct d p) (set_context (next w) None (allocate payload (next w) (next w) w))
| t_refused d p : trans w (Construct d p) w
| t_mutate o d items : objects w !! o = Some d ->
    trans w (Mutate o items) (set_object o (MkDeferred items (df_baseline d) (df_publish d) (df_state d)) w)
| t_take_for_tool t o a d f : threads w !! t = None -> objects w !! o = Some d -> df_publish d = Some f ->
    trans w (CallForTool t o a) (set_thread t (ForTool o f a) (set_object o (taken d) w))
| t_take_finalize t o a d f : threads w !! t = None -> objects w !! o = Some d -> df_publish d = Some f ->
    trans w (CallFinalize t o a) (set_thread t (Finalizing o f a) (set_object o (taken d) w))
| t_gone t o e d x : threads w !! t = None -> objects w !! o = Some d -> df_publish d = None ->
    (exists a, e = CallForTool t o a) \/ (exists a, e = CallFinalize t o a) ->
    trans w e (set_thread t (Finished (Raise x)) w)
| t_transfer t o f a d payload : threads w !! t = Some (ForTool o f a) -> objects w !! o = Some d ->
    for_tool_payload (df_items d) (df_baseline d) a = Ok payload ->
    trans w (Continue t) (set_thread t (Transferred (next w)) (allocate payload f (df_state d) w))
| t_finish t s r : threads w !! t = Some s -> delivering s = None ->
    trans w (Continue t) (set_thread t (Finished r) w)
| t_approve t o f a d r c : threads w !! t = Some (Finalizing o f a) -> objects w !! o = Some d ->
    finalize_check (is_self o (fa_post_hook_result a)) (hook_value (fa_post_hook_result a) w)
      (df_baseline d) a = Ok (r, true, c) ->
    trans w (Continue t) (set_thread t (Approved o f r c) (set_context (df_state d) c w))
| t_publish t o f r c : threads w !! t = Some (Approved o f r c) ->
    trans w (Continue t) (MkWorld (objects w) (states w) (<[t := Publishing o f r c]> (threads w))
      (published w ++ [MkPublication f t o r c]) (next w))
| t_return t o f r c d p : threads w !! t = Some (Publishing o f r c) -> objects w !! o = Some d ->
    trans w (FactoryReturns t p) (set_thread t (Returned f r p) (set_context (df_state d) None w)).

Lemma step_trans w e w' : step w e = Some w' -> trans w e w'.
Proof.
  intros H. destruct e as [d p|o items|t o a|t o a|t|t p]; cbn [step] in H.
  - injection H as <-. unfold construct. destruct (deferred_init d p) eqn:Hd; [by apply t_new|apply t_refused].
  - destruct (objects w !! o) as [d|] eqn:Ho; cbn in H; [|done]. injection H as <-. by apply t_mutate.
  - unfold begin_call, _take_factory in H. destruct (threads w !! t) eqn:Ht; [done|].
    destruct (objects w !! o) as [d|] eqn:Ho; [|done]. cbn [mbind option_bind] in H.
    destruct (df_publish d) as [f|] eqn:Hf; injection H as <-; [by apply t_take_for_tool|eapply t_gone; eauto].
  - unfold begin_call, _take_factory in H. destruct (threads w !! t) eqn:Ht; [done|].
    destruct (objects w !! o) as [d|] eqn:Ho; [|done]. cbn [mbind option_bind] in H.
    destruct (df_publish d) as [f|] eqn:Hf; injection H as <-; [by apply t_take_finalize|eapply t_gone; eauto].
  - destruct (threads w !! t) as [s|] eqn:Ht; cbn in H; [|done].
    destruct s as [o f a|o f a|o f r c|o f r c|f r p|o|r]; cbn [continue_stage] in H; try discriminate H.
    1, 2: destruct (objects w !! o) as [d|] eqn:Ho; cbn [mbind option_bind] in H; [|discriminate H].
    + destruct (for_tool_payload _ _ _) eqn:Hp; injection H as <-; [by eapply t_transfer|by eapply t_finish].
    + destruct (finalize_check _ _ _ _) as [[[r [|]] c]|e] eqn:Hc; injection H as <-;
        [by eapply t_approve|by eapply t_finish..].
    + injection H as <-. by apply t_publish.
    + injection H as <-. by eapply t_finish.
  - destruct (threads w !! t) as [s|] eqn:Ht; [|done]. destruct s as [| | |o f r c| | |]; try done.
    destruct (objects w !! o) as [d|] eqn:Ho; cbn in H; [|done]. injection H as <-. by eapply t_return.
Qed.

(** ** A factory is in one place *)

Lemma fresh_object w : fresh_world w -> objects w !! next w = None.
Proof. intros [H _]. destruct (objects w !! next w) as [x|] eqn:Hd; [|done]. apply H in Hd. lia. Qed.

#[local] Ltac world_fields :=
  cbn [objects states threads published next set_thread set_object set_context allocate] in *.

(** Factories only move from an object to a thread to the log. *)
Lemma trans_held w e w' :
  fresh_world w -> trans w e w' -> held w' ⊆+ held w \/ (held w' ⊆+ next w :: held w /\ next w' = Pos.succ (next w)).
Proof.
  intros Hfr%fresh_object H. unfold held. destruct H as
    [d p payload Hd|d p|o d items Ho|t o a d f Ht Ho Hf|t o a d f Ht Ho Hf|t o e d x Ht Ho Hf He|t o f a d payload Ht Ho Hp
    |t s r Ht Hs|t o f a d r c Ht Ho Hc|t o f r c Ht|t o f r c d p Ht Ho]; world_fields; try (left; done).
  - right. split; [|done]. by rewrite slots_insert_new.
  - left. by rewrite slots_insert, (slots_delete _ (objects w) _ _ Ho).
  - left. rewrite (slots_insert_new _ _ t) by done. rewrite slots_insert, (slots_delete _ (objects w) _ _ Ho).
    unfold object_factory; cbn. rewrite Hf. cbn. solve_submseteq.
  - left. rewrite (slots_insert_new _ _ t) by done. rewrite slots_insert, (slots_delete _ (objects w) _ _ Ho).
    unfold object_factory; cbn. rewrite Hf. cbn. solve_submseteq.
  - left. by rewrite slots_insert_new.
  - left. rewrite (slots_insert_new _ _ (next w)) by done. rewrite slots_insert, (slots_delete _ (threads w) _ _ Ht).
    unfold object_factory; cbn. solve_submseteq.
  - left. rewrite slots_insert, (slots_delete _ (threads w) _ _ Ht). cbn. solve_submseteq.
  - left. rewrite slots_insert, (slots_delete _ (threads w) _ _ Ht). cbn. solve_submseteq.
  - left. rewrite slots_insert, (slots_delete _ (threads w) _ _ Ht), fmap_app. cbn. solve_submseteq.
  - left. by rewrite slots_insert, (slots_delete _ (threads w) _ _ Ht).
Qed.

Lemma trans_next w e w' : trans w e w' -> (next w <= next w')%positive.
Proof. destruct 1; world_fields; lia. Qed.

Lemma trans_objects w e w' o d' :
  trans w e w' -> objects w' !! o = Some d' -> (o < next w')%positive \/ is_Some (objects w !! o).
Proof.
  destruct 1; world_fields; intros Hd; rewrite ?lookup_insert_Some in Hd; destruct_or?; destruct_and?; subst;
    eauto; left; lia.
Qed.

Lemma trans_keeps w e w' o d :
  fresh_world w -> trans w e w' -> objects w !! o = Some d ->
  exists d', objects w' !! o = Some d' /\ df_baseline d' = df_baseline d /\ df_state d' = df_state d.
Proof.
  intros Hfr%fresh_object H Ho.
  assert (Hup : forall k d1 d2, objects w !! k = Some d1 -> df_baseline d2 = df_baseline d1 ->
    df_state d2 = df_state d1 -> exists d', <[k := d2]> (objects w) !! o = Some d'
      /\ df_baseline d' = df_baseline d /\ df_state d' = df_state d).
  { intros k d1 d2 Hk Hb Hs. destruct (decide (k = o)) as [->|Hne].
    - rewrite lookup_insert_eq. exists d2. assert (d1 = d) as -> by congruence. auto.
    - rewrite lookup_insert_ne by done. eauto. }
  assert (Hnew : forall d2, <[next w := d2]> (objects w) !! o = Some d).
  { intros d2. rewrite lookup_insert_ne; [done|]. congruence. }
  destruct H; world_fields; eauto; by eapply Hup.
Qed.

(** ** The invariant *)

(** The factory a thread has taken: it still holds it or runs it. *)
Definition active (s : stage) : option positive :=
  match s with ForTool _ f _ | Finalizing _ f _ | Approved _ f _ _ | Publishing _ f _ _ => Some f | _ => None end.

Definition stage_object (s : stage) : option positive :=
  match s with ForTool o _ _ | Finalizing o _ _ | Approved o _ _ _ | Publishing o _ _ _ => Some o | _ => None end.

(** The call that led to a factory call: allowed, on the object itself, with
    this destination, its envelope equal to the baseline. *)
Definition approved (es : list event) (w : world) (p : publication) : Prop :=
  exists a d, CallFinalize (pb_thread p) (pb_object p) a ∈ es /\ fa_allowed a = Inst true
    /\ fa_post_hook_result a = HookObject (pb_object p) /\ fa_context a = Inst <$> pb_context p
    /\ objects w !! pb_object p = Some d /\ dict_eqb (pb_result p) (df_baseline d) = true.

(** [for_tool] or [finalize] was called on [o] by [t]. *)
Definition calls (es : list event) (t o : positive) : Prop :=
  (exists a, CallForTool t o a ∈ es) \/ (exists a, CallFinalize t o a ∈ es).

Record inv (es : list event) (w : world) : Prop := {
  iv_fresh : fresh_world w;
  iv_nodup : NoDup (held w);
  iv_state : forall o d f, objects w !! o = Some d -> df_publish d = Some f -> df_state d = f;
  iv_thread : forall t s o f, threads w !! t = Some s -> active s = Some f -> stage_object s = Some o ->
    exists d, objects w !! o = Some d /\ df_state d = f;
  iv_called : forall t o f a, threads w !! t = Some (Finalizing o f a) -> CallFinalize t o a ∈ es;
  iv_taken : forall t o, calls es t o -> exists d, objects w !! o = Some d /\ df_publish d = None;
  iv_delivering : forall t s o f r c, threads w !! t = Some s -> delivering s = Some (o, f, r, c) ->
    approved es w (MkPublication f t o r c) /\ states w !! f = Some c;
  iv_publishing : forall t o f r c, threads w !! t = Some (Publishing o f r c) ->
    MkPublication f t o r c ∈ published w;
  iv_published : forall p, p ∈ published w -> approved es w p;
  iv_context : forall f c, states w !! f = Some (Some c) ->
    exists t s o r, threads w !! t = Some s /\ delivering s = Some (o, f, r, Some c)
}.

Lemma slots_unique {A} (f : A -> list positive) (m : gmap positive A) i j a b x :
  NoDup (slots f m) -> m !! i = Some a -> m !! j = Some b -> x ∈ f a -> x ∈ f b -> i = j.
Proof.
  intros Hn Hi Hj Ha Hb. destruct (decide (i = j)) as [|Hne]; [done|]. exfalso.
  rewrite (slots_delete f m i a Hi) in Hn. apply list.NoDup_app in Hn as (_ & Hn & _).
  apply (Hn x Ha), elem_of_slots. exists j, b. by rewrite lookup_delete_ne.
Qed.

(** Two threads never have the same factory. *)
Lemma active_unique es w t1 t2 s1 s2 f :
  inv es w -> threads w !! t1 = Some s1 -> threads w !! t2 = Some s2 ->
  active s1 = Some f -> active s2 = Some f -> t1 = t2.
Proof.
  intros I H1 H2 A1 A2. pose proof (iv_nodup _ _ I) as Hn. unfold held in Hn.
  apply list.NoDup_app in Hn as (_ & _ & Hn). apply list.NoDup_app in Hn as (Hs & Hd & Hl).
  assert (Hcase : forall t s, threads w !! t = Some s -> active s = Some f ->
    f ∈ stage_factory s \/ exists p, p ∈ published w /\ pb_factory p = f /\ pb_thread p = t).
  { intros t s Ht Ha. destruct s; try discriminate Ha; injection Ha as ->;
      [left; by left|left; by left|left; by left|right].
    eexists. split; [by eapply (iv_publishing _ _ I)|done]. }
  assert (Hex : forall t s p, threads w !! t = Some s -> f ∈ stage_factory s -> p ∈ published w ->
                  pb_factory p = f -> False).
  { intros t s p Ht Hf Hp <-. apply (Hd (pb_factory p)); [apply elem_of_slots; eauto|].
    apply list_elem_of_fmap. eauto. }
  destruct (Hcase _ _ H1 A1) as [F1|(p1 & P1 & E1 & <-)], (Hcase _ _ H2 A2) as [F2|(p2 & P2 & E2 & <-)].
  - by eapply slots_unique.
  - exfalso. by eapply (Hex t1).
  - exfalso. by eapply (Hex t2).
  - f_equal. apply list_elem_of_lookup_1 in P1 as [i Hi], P2 as [j Hj].
    assert (i = j) as ->; [|congruence].
    apply (NoDup_lookup _ i j f Hl); rewrite list_lookup_fmap; [rewrite Hi|rewrite Hj]; cbn; congruence.
Qed.

(** A thread's factory is in no object and was not run by another. *)
Lemma active_elsewhere es w t s f o d :
  inv es w -> threads w !! t = Some s -> active s = Some f -> objects w !! o = Some d -> df_publish d <> Some f.
Proof.
  intros I Ht Ha Ho Hp. pose proof (iv_nodup _ _ I) as Hn. unfold held in Hn.
  apply list.NoDup_app in Hn as (_ & Hd & _). apply (Hd f).
  - apply elem_of_slots. exists o, d. split; [done|]. unfold object_factory. rewrite Hp. by left.
  - apply elem_of_app. destruct s as [o' f' a|o' f' a|o' f' r c|o' f' r c|f' r p|o'|r]; try discriminate Ha;
      injection Ha as ->.
    1-3: left; apply elem_of_slots; eexists _, _; split; [done|by left].
    right. apply list_elem_of_fmap. eexists. split; [|by eapply (iv_publishing _ _ I)]. done.
Qed.

(** ** Every transition keeps the invariant *)

Lemma approved_keeps es w e w' p :
  fresh_world w -> trans w e w' -> approved es w p -> approved (es ++ [e]) w' p.
Proof.
  intros Hf H (a & d & Hin & Ha & Hh & Hc & Ho & Hb).
  destruct (trans_keeps _ _ _ _ _ Hf H Ho) as (d' & Ho' & Hb' & _).
  exists a, d'. rewrite Hb'. split_and!; try done. apply elem_of_app. by left.
Qed.

(** What a thread does next: nothing, or one of the rules moved it. *)
Lemma trans_thread w e w' t s' :
  trans w e w' -> threads w' !! t = Some s' ->
  threads w !! t = Some s' \/
  (active s' = None /\ delivering s' = None) \/
  (exists o d f, objects w !! o = Some d /\ df_publish d = Some f /\
     ((exists a, s' = ForTool o f a /\ e = CallForTool t o a) \/ (exists a, s' = Finalizing o f a /\ e = CallFinalize t o a))) \/
  (exists o f a d r c, threads w !! t = Some (Finalizing o f a) /\ objects w !! o = Some d /\
     finalize_check (is_self o (fa_post_hook_result a)) (hook_value (fa_post_hook_result a) w)
       (df_baseline d) a = Ok (r, true, c) /\ s' = Approved o f r c /\ states w' !! df_state d = Some c) \/
  (exists o f r c, threads w !! t = Some (Approved o f r c) /\ s' = Publishing o f r c /\
     published w' = published w ++ [MkPublication f t o r c] /\ states w' = states w).
Proof.
  intros H Hs. destruct H; world_fields; eauto.
  all: try (apply lookup_insert_Some in Hs as [[<- <-]|[Hne Hs]]; [|by eauto]); eauto.
  - right. right. left. exists o, d, f. eauto 6.
  - right. right. left. exists o, d, f. eauto 6.
  - right. right. right. left. exists o, f, a, d, r, c. rewrite lookup_insert_eq. auto.
  - right. right. right. right. exists o, f, r, c. auto.
Qed.

Lemma trans_fresh w e w' : fresh_world w -> trans w e w' -> fresh_world w'.
Proof.
  intros Hf H. pose proof (trans_next _ _ _ H) as Hn. pose proof Hf as [Ho Hh]. split.
  - intros o d' Hd. destruct (trans_objects _ _ _ _ _ H Hd) as [?|[d Hd']]; [done|]. apply Ho in Hd'. lia.
  - intros f Hfin. destruct (trans_held _ _ _ Hf H) as [Hs|[Hs Hnx]];
      apply (elem_of_submseteq _ _ _ Hfin) in Hs.
    + apply Hh in Hs. lia.
    + apply list.elem_of_cons in Hs as [->|Hs]; [lia|]. apply Hh in Hs. lia.
Qed.

Lemma trans_nodup w e w' : fresh_world w -> trans w e w' -> NoDup (held w) -> NoDup (held w').
Proof.
  intros Hf H Hn. destruct (trans_held _ _ _ Hf H) as [Hs|[Hs _]]; (eapply NoDup_submseteq_l; [exact Hs|]); [done|].
  apply list.NoDup_cons. split; [|done]. intros Hin. apply Hf in Hin. lia.
Qed.

Lemma finalize_check_approved o hook baseline a r c :
  finalize_check (is_self o (fa_post_hook_result a)) hook baseline a = Ok (r, true, c) ->
  fa_allowed a = Inst true /\ fa_post_hook_result a = HookObject o /\ fa_context a = Inst <$> c
  /\ hook = Inst r /\ dict_eqb r baseline = true.
Proof.
  unfold finalize_check. intros H. inv_ok. bool_hyps.
  apply require_instance_Ok in Hm as ->, Hm1 as ->. split_and!; try done.
  - congruence.
  - destruct (fa_post_hook_result a); try discriminate. unfold is_self in H1. bool_hyps. congruence.
  - destruct (fa_context a) as [x|]; inv_ok; [|done].
    match goal with H : require_instance _ _ = _ |- _ => by apply require_instance_Ok in H as -> end.
Qed.

Lemma active_lt es w t s f : inv es w -> threads w !! t = Some s -> active s = Some f -> (f < next w)%positive.
Proof.
  intros I Ht Ha. apply (iv_fresh _ _ I). unfold held. rewrite !elem_of_app. right.
  destruct s as [o f' a|o f' a|o f' r c|o f' r c|f' r p|o|r]; try discriminate Ha; injection Ha as ->.
  1-3: left; apply elem_of_slots; eexists _, _; split; [done|by left].
  right. apply list_elem_of_fmap. eexists. split; [|by eapply (iv_publishing _ _ I)]. done.
Qed.

Lemma delivering_active s o f r c : delivering s = Some (o, f, r, c) -> active s = Some f /\ stage_object s = Some o.
Proof. destruct s; try done; by intros [= -> -> -> ->]. Qed.

(** A delivery under way keeps its destination. *)
Lemma trans_states es w e w' t s o f r c :
  inv es w -> trans w e w' -> threads w !! t = Some s -> threads w' !! t = Some s ->
  delivering s = Some (o, f, r, c) -> states w' !! f = states w !! f.
Proof.
  intros I H Ht Ht' Hd. destruct (delivering_active _ _ _ _ _ Hd) as [Ha _].
  assert (Hne : forall t2 s2 o2 f2 d2, threads w !! t2 = Some s2 -> threads w' !! t2 <> Some s2 ->
    active s2 = Some f2 -> stage_object s2 = Some o2 -> objects w !! o2 = Some d2 -> df_state d2 <> f).
  { intros t2 s2 o2 f2 d2 H2 H2' Ha2 Ho2 Hd2 Heq.
    destruct (iv_thread _ _ I _ _ _ _ H2 Ha2 Ho2) as (d' & Hd' & Hf2).
    assert (t2 = t) as -> by (eapply (active_unique _ _ _ _ _ _ f I H2 Ht); congruence). congruence. }
  destruct H; world_fields; try done.
  - apply lookup_insert_ne. pose proof (active_lt _ _ _ _ _ I Ht Ha). lia.
  - apply lookup_insert_ne. eapply Hne; [exact H|rewrite lookup_insert_eq; congruence|done..].
  - apply lookup_insert_ne. eapply Hne; [exact H|rewrite lookup_insert_eq; congruence|done..].
Qed.

Lemma trans_published w e w' p :
  trans w e w' -> p ∈ published w' -> p ∈ published w \/
  exists t o f r c, threads w !! t = Some (Approved o f r c) /\ p = MkPublication f t o r c.
Proof.
  destruct 1; world_fields; intros Hp; eauto. apply elem_of_app in Hp as [Hp|Hp%list_elem_of_singleton]; eauto.
  right. eexists _, _, _, _, _. eauto.
Qed.

Lemma trans_logged w e w' p : trans w e w' -> p ∈ published w -> p ∈ published w'.
Proof. destruct 1; world_fields; intros Hp; try done. apply elem_of_app. by left. Qed.

(** A destination that is set belongs to a delivery under way. *)
Lemma trans_context es w e w' f c :
  inv es w -> trans w e w' -> states w' !! f = Some (Some c) ->
  exists t s o r, threads w' !! t = Some s /\ delivering s = Some (o, f, r, Some c).
Proof.
  intros I H Hs.
  assert (Hold : forall t2 s2 s2', threads w !! t2 = s2 -> (forall s, s2 = Some s -> delivering s = None) ->
     states w !! f = Some (Some c) ->
     exists t s o r, <[t2 := s2']> (threads w) !! t = Some s /\ delivering s = Some (o, f, r, Some c)).
  { intros t2 s2 s2' H2 Hn Hf. destruct (iv_context _ _ I _ _ Hf) as (t & s & o & r & Ht & Hd).
    exists t, s, o, r. rewrite lookup_insert_ne; [done|]. intros ->. subst s2. specialize (Hn _ Ht). congruence. }
  destruct H; world_fields; try (by apply (iv_context _ _ I)).
  - apply lookup_insert_Some in Hs as [[_ Hs]|[_ Hs]]; [done|]. by apply (iv_context _ _ I).
  - eapply Hold; [done| |done]. congruence.
  - eapply Hold; [done| |done]. congruence.
  - eapply Hold; [done| |done]. congruence.
  - eapply Hold; [done| |done]. intros s [= <-]. done.
  - eapply Hold; [done| |done]. intros s' [= <-]. done.
  - apply lookup_insert_Some in Hs as [[<- ->]|[_ Hs]].
    + destruct (iv_thread _ _ I _ _ o f0 H eq_refl eq_refl) as (d' & Hd' & Hf).
      exists t, (Approved o f0 r (Some c)), o, r. rewrite lookup_insert_eq. split; [done|]. cbn. congruence.
    + eapply Hold; [done| |done]. intros s [= <-]. done.
  - destruct (iv_context _ _ I _ _ Hs) as (t2 & s & o2 & r2 & Ht & Hd). destruct (decide (t = t2)) as [<-|Hne].
    + exists t, (Publishing o f0 r c0), o2, r2. rewrite lookup_insert_eq. split; [done|].
      rewrite H in Ht. injection Ht as <-. done.
    + exists t2, s, o2, r2. by rewrite lookup_insert_ne.
  - apply lookup_insert_Some in Hs as [[_ Hs]|[Hne Hs]]; [done|].
    destruct (iv_context _ _ I _ _ Hs) as (t2 & s & o2 & r2 & Ht & Hd). exists t2, s, o2, r2.
    rewrite lookup_insert_ne; [done|]. intros <-. rewrite H in Ht. injection Ht as <-. injection Hd as -> -> -> ->.
    destruct (iv_thread _ _ I _ _ o2 f H eq_refl eq_refl) as (d' & Hd' & Hf). congruence.
Qed.

(** A factory that left an object does not come back. *)
Lemma trans_gone w e w' o d :
  fresh_world w -> trans w e w' -> objects w !! o = Some d -> df_publish d = None ->
  exists d', objects w' !! o = Some d' /\ df_publish d' = None.
Proof.
  intros Hfr%fresh_object H Ho Hp.
  assert (Hup : forall k d1 d2, objects w !! k = Some d1 -> (df_publish d1 = None -> df_publish d2 = None) ->
    exists d', <[k := d2]> (objects w) !! o = Some d' /\ df_publish d' = None).
  { intros k d1 d2 Hk Hs. destruct (decide (k = o)) as [->|Hne].
    - rewrite lookup_insert_eq. exists d2. split; [done|]. apply Hs. congruence.
    - rewrite lookup_insert_ne by done. eauto. }
  assert (Hnew : forall d2, <[next w := d2]> (objects w) !! o = Some d).
  { intros d2. rewrite lookup_insert_ne; [done|]. congruence. }
  destruct H; world_fields; eauto.
Qed.

Lemma trans_taken es w e w' t o :
  inv es w -> trans w e w' -> calls (es ++ [e]) t o -> exists d, objects w' !! o = Some d /\ df_publish d = None.
Proof.
  intros I H Hc.
  assert (Hcase : calls es t o \/ (exists a, e = CallForTool t o a) \/ (exists a, e = CallFinalize t o a)).
  { unfold calls in *. setoid_rewrite elem_of_app in Hc. setoid_rewrite list_elem_of_singleton in Hc. naive_solver. }
  destruct Hcase as [Hold|Hnew].
  - destruct (iv_taken _ _ I _ _ Hold) as (d & Hd & Hp). by eapply trans_gone; [apply (iv_fresh _ _ I)|..].
  - destruct H; world_fields; try (by destruct Hnew as [[a' He]|[a' He]]).
    + assert (o0 = o) as -> by (by destruct Hnew as [[a' He]|[a' He]]; inversion He).
      rewrite lookup_insert_eq. by eexists.
    + assert (o0 = o) as -> by (by destruct Hnew as [[a' He]|[a' He]]; inversion He).
      rewrite lookup_insert_eq. by eexists.
    + assert (o0 = o) as -> by (destruct Hnew as [[? ->]|[? ->]], H2 as [[? He]|[? He]]; by inversion He).
      eauto.
Qed.

Lemma trans_inv es w e w' : inv es w -> trans w e w' -> inv (es ++ [e]) w'.
Proof.
  intros I H. pose proof (iv_fresh _ _ I) as Hf. split.
  - by eapply trans_fresh.
  - eapply trans_nodup; [done..|]. apply (iv_nodup _ _ I).
  - intros o d f Ho Hp. destruct H; world_fields; try (by eapply (iv_state _ _ I o));
      apply lookup_insert_Some in Ho as [[<- <-]|[_ Ho]]; try (by eapply (iv_state _ _ I o));
      cbn [taken df_publish df_state] in *; try congruence.
    + by eapply (iv_state _ _ I o0).
    + injection Hp as <-. destruct (iv_thread _ _ I _ _ o0 f0 H eq_refl eq_refl) as (d' & Hd' & Hf'). congruence.
  - intros t s o f Ht Ha Ho. assert (Hold : exists d, objects w !! o = Some d /\ df_state d = f).
    { destruct (trans_thread _ _ _ _ _ H Ht) as [Ht0|[[Hn _]|[(o' & d & f' & Hd & Hp & Hs)|
        [(o' & f' & a & d & r & c & Ht0 & Hd & _ & -> & _)|(o' & f' & r & c & Ht0 & -> & _)]]]].
      - by eapply (iv_thread _ _ I).
      - congruence.
      - assert (o' = o /\ f' = f) as [-> ->] by (destruct Hs as [(a & -> & _)|(a & -> & _)]; by injection Ha; injection Ho).
        exists d. split; [done|]. by apply (iv_state _ _ I _ _ _ Hd).
      - by eapply (iv_thread _ _ I).
      - by eapply (iv_thread _ _ I). }
    destruct Hold as (d & Hd & <-). destruct (trans_keeps _ _ _ _ _ Hf H Hd) as (d' & ? & _ & ?). eauto.
  - intros t o f a Ht. apply elem_of_app.
    destruct (trans_thread _ _ _ _ _ H Ht) as [Ht0|[[Hn _]|[(o' & d & f' & Hd & Hp & Hs)|
        [(o' & f' & a' & d & r & c & Ht0 & Hd & _ & Hs & _)|(o' & f' & r & c & Ht0 & Hs & _)]]]]; try done.
    + left. by eapply (iv_called _ _ I).
    + right. destruct Hs as [(a' & Hs & He)|(a' & Hs & He)]; [done|]. injection Hs as -> -> ->. subst e. by left.
  - intros t o Hc. by eapply trans_taken.
  - intros t s o f r c Ht Hd.
    destruct (trans_thread _ _ _ _ _ H Ht) as [Ht0|[[_ Hn]|[(o' & d & f' & _ & _ & Hs)|
        [(o' & f' & a' & d & r' & c' & Ht0 & Ho & Hc & -> & Hst)|(o' & f' & r' & c' & Ht0 & -> & _ & Hst')]]]].
    + destruct (iv_delivering _ _ I _ _ _ _ _ _ Ht0 Hd) as [Hap Hst]. split; [by eapply approved_keeps|].
      by rewrite (trans_states _ _ _ _ _ _ _ _ _ _ I H Ht0 Ht Hd).
    + congruence.
    + destruct Hs as [(a & -> & _)|(a & -> & _)]; done.
    + injection Hd as -> -> -> ->. destruct (iv_thread _ _ I _ _ o f Ht0 eq_refl eq_refl) as (d' & Hd' & Hf').
      assert (d' = d) as -> by congruence. subst f. split; [|done].
      apply finalize_check_approved in Hc as (H1 & H2 & H3 & _ & H4). eapply approved_keeps; [done..|].
      exists a', d. cbn. split_and!; try done. by eapply (iv_called _ _ I).
    + injection Hd as -> -> -> ->.
      destruct (iv_delivering _ _ I _ _ o f r c Ht0 eq_refl) as [Hap Hst]. split; [by eapply approved_keeps|].
      by rewrite Hst'.
  - intros t o f r c Ht.
    destruct (trans_thread _ _ _ _ _ H Ht) as [Ht0|[[Hn _]|[(o' & d & f' & _ & _ & Hs)|
        [(o' & f' & a' & d & r' & c' & _ & _ & _ & Hs & _)|(o' & f' & r' & c' & Ht0 & Hs & Hp & _)]]]]; try done.
    + eapply trans_logged; [done|]. by eapply (iv_publishing _ _ I).
    + destruct Hs as [(a & Hs & _)|(a & Hs & _)]; done.
    + injection Hs as -> -> -> ->. rewrite Hp. apply elem_of_app. right. by left.
  - intros p Hp. destruct (trans_published _ _ _ _ H Hp) as [Hp'|(t & o & f & r & c & Ht & ->)];
      eapply approved_keeps; try done.
    + by apply (iv_published _ _ I).
    + by apply (iv_delivering _ _ I _ _ _ _ _ _ Ht eq_refl).
  - intros f c Hs. by eapply trans_context.
Qed.

Lemma init_inv : inv [] init_world.
Proof.
  split; cbn.
  - split; cbn; [done|]. intros f H. by apply not_elem_of_nil in H.
  - constructor.
  - done.
  - done.
  - done.
  - intros t o [[a H]|[a H]]; by apply not_elem_of_nil in H.
  - done.
  - done.
  - intros p H. by apply not_elem_of_nil in H.
  - done.
Qed.

Lemma run_inv es w es' w' : inv es w -> run w es' = Some w' -> inv (es ++ es') w'.
Proof.
  revert es w. induction es' as [|e es' IH]; intros es w I H; cbn in H.
  - injection H as <-. by rewrite app_nil_r.
  - destruct (step w e) as [w1|] eqn:Hs; cbn in H; [|done].
    replace (es ++ e :: es') with ((es ++ [e]) ++ es') by by rewrite <- app_assoc.
    eapply IH; [|exact H]. eapply trans_inv; [exact I|by apply step_trans].
Qed.

(** ** Theorems *)

(** C23. Over every interleaving of constructions, wrapper transfers,
    finalizations and changes of the envelopes, a factory is run at most
    once, and each run belongs to a [finalize] call that was allowed with the
    boolean [True], was given the deferred object itself, and found its
    envelope equal to the baseline of its construction; the destination is the
    one of that call. *)
Theorem publish_at_most_once es w :
  run init_world es = Some w ->
  NoDup (pb_factory <$> published w) /\ (forall p, p ∈ published w -> approved es w p).
Proof.
  intros H. pose proof (run_inv [] _ _ _ init_inv H) as I. split; [|apply (iv_published _ _ I)].
  pose proof (iv_nodup _ _ I) as Hn. unfold held in Hn.
  apply list.NoDup_app in Hn as (_ & _ & Hn). by apply list.NoDup_app in Hn as (_ & _ & Hn).
Qed.

(** An object's [publication_context] shows a destination exactly while
    a [finalize] call delivers the factory of that object (or of a wrapper it
    was transferred to) to that destination: none is visible before, after,
    or through another result. *)
Theorem context_confined es w o d c :
  run init_world es = Some w -> objects w !! o = Some d ->
  publication_context o w = Some c <->
  exists t s o' r, threads w !! t = Some s /\ delivering s = Some (o', df_state d, r, Some c).
Proof.
  intros H Ho. pose proof (run_inv [] _ _ _ init_inv H) as I. unfold publication_context. rewrite Ho. split.
  - intros Hc. apply (iv_context _ _ I). destruct (states w !! df_state d) as [x|]; cbn in Hc; congruence.
  - intros (t & s & o' & r & Ht & Hd). by rewrite (proj2 (iv_delivering _ _ I _ _ _ _ _ _ Ht Hd)).
Qed.

(** Taking the factory is final: after any [for_tool] or [finalize] call
    on an object, whatever became of that call, every later call on the object
    raises [RuntimeError] and changes nothing else. *)
Theorem factory_taken_once es w t o t' s :
  run init_world es = Some w -> calls es t o -> threads w !! t' = None ->
  begin_call t' o s w = Some (set_thread t' (Finished (Raise
    (RuntimeError "Deferred tool result was already finalized or transferred"))) w).
Proof.
  intros H Hc Ht. pose proof (run_inv [] _ _ _ init_inv H) as I.
  destruct (iv_taken _ _ I _ _ Hc) as (d & Hd & Hp). unfold begin_call, _take_factory.
  rewrite Ht, Hd. cbn [mbind option_bind]. by rewrite Hp.
Qed.

(** ** Witnesses: one result, wrapped for a tool, delivered to a chat *)

Definition sample_envelope : pydict :=
  [(u "status", FStr (u "ok")); (u "confirmation", FStr (u "done"))].
Definition sample_part : fjson := FMap [(u "type", FStr (u "card"))].
Definition sample_context : ToolPublicationContext := MkContext (u "agent") (u "chat").

Definition sample_wrap : for_tool_args := MkForTool (Inst (u "search")) (FTuple [sample_part]) (Inst true).
Definition sample_finalize : finalize_args := MkFinalize (HookObject 2) (Inst true) (Some (Inst sample_context)).

Definition sample_start : list event :=
  [Construct (Inst sample_envelope) Synchronous; CallForTool 7 1 sample_wrap; Continue 7;
   CallFinalize 8 2 sample_finalize; Continue 8; Continue 8].

Definition sample_events : list event :=
  sample_start ++ [FactoryReturns 8 (Ok (FTuple [sample_part])); Continue 8].

Definition sample_world (es : list event) : world :=
  match run init_world es with Some w => w | None => init_world end.

(** The wrapper's parts keep the host's order: buffered, then delivered. *)
Example sample_delivery :
  threads (sample_world sample_events) !! 8%positive
  = Some (Finished (Ok (MkFinalized
      [(u "status", FStr (u "ok")); (u "confirmation", FStr (u "done")); (u "tool", FStr (u "search"));
       (u "success", FBool true); (u "parts", FTuple [sample_part; sample_part])]
      [[(u "type", FStr (u "card"))]] false))).
Proof. vm_compute. reflexivity. Qed.

Lemma publish_at_most_once_witness :
  length (published (sample_world sample_events)) = 1%nat
  /\ NoDup (pb_factory <$> published (sample_world sample_events)).
Proof.
  split; [vm_compute; reflexivity|].
  apply (publish_at_most_once sample_events). vm_compute. reflexivity.
Defined.

(** While the factory runs, the object it was first given to shows the
    wrapper's destination. *)
Lemma context_confined_witness :
  publication_context 1 (sample_world sample_start) = Some sample_context
  /\ exists t s o' r, threads (sample_world sample_start) !! t = Some s
      /\ delivering s = Some (o', 1%positive, r, Some sample_context).
Proof.
  split; [vm_compute; reflexivity|].
  apply (context_confined sample_start (sample_world sample_start) 1
           (MkDeferred sample_envelope sample_envelope None 1) sample_context);
    vm_compute; reflexivity.
Defined.

Lemma factory_taken_once_witness :
  exists w', begin_call 9 1 (fun f => ForTool 1 f sample_wrap) (sample_world sample_start) = Some w'
    /\ threads w' !! 9%positive = Some (Finished (Raise
      (RuntimeError "Deferred tool result was already finalized or transferred"))).
Proof.
  eexists. split.
  - apply (factory_taken_once sample_start _ 7 1); [vm_compute; reflexivity| |vm_compute; reflexivity].
    left. exists sample_wrap. right. left.
  - vm_compute. reflexivity.
Defined.
