(* ===== verification/IpAddress.v ===== *)
(** * IP addresses

    What the outbound policy uses of [ipaddress]: parsing, printing and the
    address categories with the special-purpose tables of CPython 3.11, the
    oldest supported version. *)

From S2P Require Export UrlSplit.

(** ** Values *)

Inductive ipaddr : Type :=
| V4 (n : Z)
| V6 (n : Z) (scope_id : option pystr).

#[global] Instance ipaddr_eq_dec : EqDecision ipaddr.
Proof. solve_decision. Defined.

Definition ip_wf (a : ipaddr) : Prop :=
  match a with V4 n => 0 <= n < 2 ^ 32 | V6 n _ => 0 <= n < 2 ^ 128 end.

Definition ipv4_value (s : pystr) : Z :=
  foldl (fun acc o => acc * 256 + parse_int o) 0 (split_char 46 s).

Definition parse_ipv4 (s : pystr) : option Z := if IPv4Address s then Some (ipv4_value s) else None.

Definition hextet_value (s : pystr) : Z := foldl (fun acc c => acc * 16 + hex_value c) 0 s.

(** The hextets of an address text; a dotted tail stands for two of them. *)
Definition hextets_of (s : pystr) : list (option Z) :=
  let parts := split_char 58 s in
  let value p := if bool_decide (p = []) then None else Some (hextet_value p) in
  match list.last parts with
  | Some l =>
      if mem 46 l
      then (value <$> removelast parts) ++ [Some (ipv4_value l / 65536); Some (ipv4_value l mod 65536)]
      else value <$> parts
  | None => []
  end.

(** The texts before and after the inner [::]. *)
Fixpoint before_gap (l : list (option Z)) : list Z :=
  match l with Some v :: l' => v :: before_gap l' | _ => [] end.

(** The integer of a text that [IPv6_from_string] accepts. *)
Definition ipv6_value (s : pystr) : Z :=
  let hs := hextets_of s in
  let hi := before_gap hs in
  let hextets :=
    if (length hi =? length hs)%nat then hi
    else let lo := rev (before_gap (rev hs)) in
         hi ++ replicate (8 - length hi - length lo) 0 ++ lo in
  foldl (fun acc h => acc * 65536 + h) 0 hextets.

Definition parse_ipv6 (s : pystr) : option ipaddr :=
  if IPv6Address s then
    let '(a, scope) := cut 37 s in Some (V6 (ipv6_value a) scope)
  else None.

(** [ipaddress.ip_address(s)]; [None] for the [ValueError]. *)
Definition ip_address (s : pystr) : option ipaddr :=
  match parse_ipv4 s with
  | Some n => Some (V4 n)
  | None => parse_ipv6 s
  end.

(** ** Text *)

Definition octet (n : Z) (i : Z) : Z := (n / 256 ^ i) mod 256.

Definition ipv4_text (n : Z) : pystr :=
  digits (octet n 3) ++ u "." ++ digits (octet n 2) ++ u "." ++ digits (octet n 1) ++ u "." ++ digits (octet n 0).

Definition hex_digit (n : Z) : Z := if n <? 10 then 48 + n else 87 + n.

(** ['%x' % n] of a 16-bit number. *)
Definition hextet_text (n : Z) : pystr :=
  if n <? 16 then [hex_digit n]
  else if n <? 256 then [hex_digit (n / 16); hex_digit (n mod 16)]
  else if n <? 4096 then [hex_digit (n / 256); hex_digit (n / 16 mod 16); hex_digit (n mod 16)]
  else [hex_digit (n / 4096); hex_digit (n / 256 mod 16); hex_digit (n / 16 mod 16); hex_digit (n mod 16)].

Definition hextets (n : Z) : list Z := (fun i => (n / 65536 ^ i) mod 65536) <$> [7; 6; 5; 4; 3; 2; 1; 0].

(** The scan of [_compress_hextets]: the current run and the best one. *)
Record zero_run := MkRun { cur_start : option nat; cur_len : nat; best_start : nat; best_len : nat }.

Definition scan_run (r : zero_run) (ih : nat * Z) : zero_run :=
  let '(i, h) := ih in
  if h =? 0 then
    let start := default i (cur_start r) in
    let n := S (cur_len r) in
    if (best_len r <? n)%nat then MkRun (Some start) n start n
    else MkRun (Some start) n (best_start r) (best_len r)
  else MkRun None 0 (best_start r) (best_len r).

Definition longest_zero_run (l : list Z) : zero_run := foldl scan_run (MkRun None 0 0 0) (zip (seq 0 (length l)) l).

Fixpoint join_with (sep : pystr) (l : list pystr) : pystr :=
  match l with
  | [] => []
  | [x] => x
  | x :: l' => x ++ sep ++ join_with sep l'
  end.

Definition compress_hextets (l : list Z) : list pystr :=
  let r := longest_zero_run l in
  let texts := hextet_text <$> l in
  if (1 <? best_len r)%nat then
    let e := (best_start r + best_len r)%nat in
    (if (best_start r =? 0)%nat then [[]] else []) ++ take (best_start r) texts ++ [[]] ++ drop e texts
    ++ (if (e =? length l)%nat then [[]] else [])
  else texts.

(** [str(address)] *)
Definition ip_text (a : ipaddr) : pystr :=
  match a with
  | V4 n => ipv4_text n
  | V6 n scope =>
      join_with (u ":") (compress_hextets (hextets n))
      ++ match scope with Some (c :: z) => u "%" ++ c :: z | _ => [] end
  end.

(** ** Categories *)

(** A network: its first address and its prefix length. *)
Definition in_network (bits : Z) (n : Z) (net : Z * Z) : bool :=
  Z.shiftr n (bits - net.2) =? Z.shiftr net.1 (bits - net.2).

Definition v4 (a b c d : Z) : Z := ((a * 256 + b) * 256 + c) * 256 + d.

(** The address whose first four hextets are given. *)
Definition v6 (a b c d : Z) : Z := (((a * 65536 + b) * 65536 + c) * 65536 + d) * 2 ^ 64.

Definition v4_private_networks : list (Z * Z) :=
  [(v4 0 0 0 0, 8); (v4 10 0 0 0, 8); (v4 127 0 0 0, 8); (v4 169 254 0 0, 16); (v4 172 16 0 0, 12);
   (v4 192 0 0 0, 24); (v4 192 0 0 170, 31); (v4 192 0 2 0, 24); (v4 192 168 0 0, 16); (v4 198 18 0 0, 15);
   (v4 198 51 100 0, 24); (v4 203 0 113 0, 24); (v4 240 0 0 0, 4); (v4 255 255 255 255, 32)].

Definition v4_private_exceptions : list (Z * Z) := [(v4 192 0 0 9, 32); (v4 192 0 0 10, 32)].

Definition v6_private_networks : list (Z * Z) :=
  [(1, 128); (0, 128); (v4 255 255 0 0 * 65536, 96); (v6 0x64 0xff9b 1 0, 48); (v6 0x100 0 0 0, 64);
   (v6 0x2001 0 0 0, 23); (v6 0x2001 0xdb8 0 0, 32); (v6 0x2002 0 0 0, 16); (v6 0xfc00 0 0 0, 7);
   (v6 0xfe80 0 0 0, 10)].

Definition v6_private_exceptions : list (Z * Z) :=
  [(v6 0x2001 1 0 0 + 1, 128); (v6 0x2001 1 0 0 + 2, 128); (v6 0x2001 3 0 0, 32); (v6 0x2001 4 0x112 0, 48);
   (v6 0x2001 0x20 0 0, 28); (v6 0x2001 0x30 0 0, 28)].

Definition v6_reserved_networks : list (Z * Z) :=
  [(v6 0 0 0 0, 8); (v6 0x100 0 0 0, 8); (v6 0x200 0 0 0, 7); (v6 0x400 0 0 0, 6); (v6 0x800 0 0 0, 5);
   (v6 0x1000 0 0 0, 4); (v6 0x4000 0 0 0, 3); (v6 0x6000 0 0 0, 3); (v6 0x8000 0 0 0, 3); (v6 0xa000 0 0 0, 3);
   (v6 0xc000 0 0 0, 3); (v6 0xe000 0 0 0, 4); (v6 0xf000 0 0 0, 5); (v6 0xf800 0 0 0, 6); (v6 0xfe00 0 0 0, 9)].

Definition in_some (bits : Z) (n : Z) (nets : list (Z * Z)) : bool := existsb (in_network bits n) nets.

(** [ipv4_mapped] *)
Definition ipv4_mapped (n : Z) : option Z :=
  if Z.shiftr n 32 =? 0xffff then Some (Z.land n 0xffffffff) else None.

Definition v4_is_private (n : Z) : bool :=
  in_some 32 n v4_private_networks && negb (in_some 32 n v4_private_exceptions).

Definition is_private (a : ipaddr) : bool :=
  match a with
  | V4 n => v4_is_private n
  | V6 n _ =>
      match ipv4_mapped n with
      | Some m => v4_is_private m
      | None => in_some 128 n v6_private_networks && negb (in_some 128 n v6_private_exceptions)
      end
  end.

Definition is_global (a : ipaddr) : bool :=
  match a with
  | V4 n => negb (in_network 32 n (v4 100 64 0 0, 10)) && negb (is_private a)
  | V6 _ _ => negb (is_private a)
  end.

Definition is_loopback (a : ipaddr) : bool :=
  match a with V4 n => in_network 32 n (v4 127 0 0 0, 8) | V6 n _ => n =? 1 end.

Definition is_link_local (a : ipaddr) : bool :=
  match a with
  | V4 n => in_network 32 n (v4 169 254 0 0, 16)
  | V6 n _ => in_network 128 n (v6 0xfe80 0 0 0, 10)
  end.

Definition is_multicast (a : ipaddr) : bool :=
  match a with
  | V4 n => in_network 32 n (v4 224 0 0 0, 4)
  | V6 n _ => in_network 128 n (v6 0xff00 0 0 0, 8)
  end.

Definition is_reserved (a : ipaddr) : bool :=
  match a with
  | V4 n => in_network 32 n (v4 240 0 0 0, 4)
  | V6 n _ => in_some 128 n v6_reserved_networks
  end.

Definition is_unspecified (a : ipaddr) : bool := match a with V4 n | V6 n _ => n =? 0 end.

Definition is_site_local (a : ipaddr) : bool :=
  match a with V4 _ => false | V6 n _ => in_network 128 n (v6 0xfec0 0 0 0, 10) end.

(** ** Membership as intervals *)

Lemma in_network_iff bits n base len :
  0 <= len <= bits -> base mod 2 ^ (bits - len) = 0 ->
  in_network bits n (base, len) = true <-> base <= n < base + 2 ^ (bits - len).
Proof.
  intros Hl Hb. unfold in_network; cbn [fst snd]. rewrite Z.eqb_eq, !Z.shiftr_div_pow2 by lia.
  assert (Hp : 0 < 2 ^ (bits - len)) by (apply Z.pow_pos_nonneg; lia).
  set (p := 2 ^ (bits - len)) in *. clearbody p. split; intros H.
  - Z.to_euclidean_division_equations. nia.
  - Z.to_euclidean_division_equations. nia.
Qed.

(** ** Parsed addresses are in range *)

Lemma foldl_digits_bound B (l : list Z) acc k :
  0 < B -> 0 <= k -> Forall (fun h => 0 <= h < B) l -> 0 <= acc < B ^ k ->
  0 <= foldl (fun acc h => acc * B + h) acc l < B ^ (k + Z.of_nat (length l)).
Proof.
  intros HB. revert acc k. induction l as [|h l IH]; intros acc k Hk Hl Hacc; cbn [foldl length].
  - by rewrite Z.add_0_r.
  - apply list.Forall_cons in Hl as [Hh Hl].
    replace (k + Z.of_nat (S (length l))) with ((k + 1) + Z.of_nat (length l)) by lia.
    apply IH; [lia|done|]. rewrite Z.pow_add_r, Z.pow_1_r by lia. nia.
Qed.

Lemma ipv4_octet_bound o : ipv4_octet o = true -> 0 <= parse_int o < 256.
Proof.
  unfold ipv4_octet. intros H. bool_hyps. split; [|lia]. unfold parse_int.
  assert (Hg : forall l acc, 0 <= acc -> forallb is_digit l = true -> 0 <= foldl (fun a c => a * 10 + (c - 48)) acc l).
  { induction l as [|c l IH]; intros acc Ha Hl; cbn [foldl]; [done|]. cbn [forallb] in Hl. bool_hyps.
    apply IH; [|done]. unfold is_digit, in_range in *. bool_hyps. lia. }
  by apply Hg.
Qed.

Lemma ipv4_value_bound s : IPv4Address s = true -> 0 <= ipv4_value s < 2 ^ 32.
Proof.
  unfold IPv4Address, ipv4_value. intros H. bool_hyps.
  assert (Hf : forall l acc, foldl (fun a o => a * 256 + parse_int o) acc l = foldl (fun a h => a * 256 + h) acc (parse_int <$> l)).
  { induction l as [|o l IH]; intros acc; [done|]. apply IH. }
  rewrite Hf. pose proof (foldl_digits_bound 256 (parse_int <$> split_char 46 s) 0 0) as Hb.
  rewrite length_fmap in Hb. unfold len in H. rewrite H in Hb. apply Hb; try lia.
  apply list.Forall_forall. intros x (o & -> & Ho)%list_elem_of_fmap. apply ipv4_octet_bound.
  rewrite List.forallb_forall in H0. by apply H0, list_elem_of_In.
Qed.

Lemma hextet_bound p : ipv6_hextet p = true -> 0 <= hextet_value p < 65536.
Proof.
  unfold ipv6_hextet, hextet_value. intros H. bool_hyps.
  assert (Hf : forall l acc, foldl (fun a c => a * 16 + hex_value c) acc l = foldl (fun a h => a * 16 + h) acc (hex_value <$> l)).
  { induction l as [|o l IH]; intros acc; [done|]. apply IH. }
  rewrite Hf. pose proof (foldl_digits_bound 16 (hex_value <$> p) 0 0) as Hb. rewrite length_fmap in Hb.
  assert (Hp : 16 ^ (0 + Z.of_nat (length p)) <= 16 ^ 4).
  { apply Z.pow_le_mono_r; [lia|]. unfold len in *. unfold pystr in *. lia. }
  change (16 ^ 4) with 65536 in Hp. enough (0 <= foldl (fun a h => a * 16 + h) 0 (hex_value <$> p) < 16 ^ (0 + Z.of_nat (length p))) by lia.
  apply Hb; try lia. apply list.Forall_forall. intros x (c & -> & Hc)%list_elem_of_fmap.
  rewrite List.forallb_forall in H. specialize (H c ltac:(by apply list_elem_of_In)).
  unfold is_hex, hex_value, is_digit, in_range in *.
  destruct ((48 <=? c) && (c <=? 57)) eqn:E1; [bool_hyps; lia|].
  destruct ((65 <=? c) && (c <=? 70)) eqn:E2; [bool_hyps; lia|]. cbn in H. bool_hyps. lia.
Qed.

(** A part and the hextet read from it. *)
Definition read_as (p : pystr) (h : option Z) : Prop :=
  (p = [] <-> h = None) /\ (ipv6_hextet p = true -> forall v, h = Some v -> 0 <= v < 65536).

Lemma hextets_of_parts s parts :
  ipv6_parts s = Some parts -> Forall2 read_as parts (hextets_of s).
Proof.
  set (value := fun p : pystr => if bool_decide (p = []) then None else Some (hextet_value p)).
  assert (Hv : forall l, Forall2 read_as l (value <$> l)).
  { intros l. induction l as [|p l IH]; constructor; [|done]. unfold read_as, value. case_bool_decide; split; try done.
    intros Hp v [= <-]. by apply hextet_bound. }
  unfold ipv6_parts, hextets_of. fold value. destruct (len (split_char 58 s) <? 3); [done|].
  destruct (list.last (split_char 58 s)) as [l|]; [|done]. destruct (mem 46 l).
  - destruct (IPv4Address l) eqn:H4; [|done]. intros [= <-]. apply Forall2_app; [apply Hv|].
    apply ipv4_value_bound in H4.
    assert (Hz : forall x, 0 <= x < 65536 -> read_as (u "0") (Some x)).
    { intros x Hx. split; [by split; intros H; vm_compute in H|]. by intros _ y [= <-]. }
    constructor; [|constructor; [|constructor]]; apply Hz.
    + Z.to_euclidean_division_equations. lia.
    + apply Z.mod_pos_bound. lia.
  - intros [= <-]. apply Hv.
Qed.

(** What precedes an empty part. *)
Lemma before_gap_bound k : forall parts hs,
  Forall2 read_as parts hs -> parts !! k = Some [] -> forallb ipv6_hextet (take k parts) = true ->
  (length (before_gap hs) <= k)%nat /\ Forall (fun v => 0 <= v < 65536) (before_gap hs).
Proof.
  induction k as [|k IH]; intros parts hs HF Hk Ht; destruct HF as [|p h parts hs [Hn Hb] HF]; try done.
  - injection Hk as ->. rewrite (proj1 Hn eq_refl). cbn. split; [lia|constructor].
  - cbn [take forallb] in Ht. bool_hyps. destruct h as [v|]; cbn; [|split; [lia|constructor]].
    destruct (IH _ _ HF Hk) as [H1 H2]; [done|]. split; [lia|]. constructor; [by apply Hb|done].
Qed.

(** What follows an empty part, read from the end. *)
Lemma before_gap_rev k parts hs :
  Forall2 read_as parts hs -> parts !! k = Some [] -> forallb ipv6_hextet (drop (S k) parts) = true ->
  (length (before_gap (rev hs)) <= length parts - 1 - k)%nat
  /\ Forall (fun v => 0 <= v < 65536) (before_gap (rev hs)).
Proof.
  intros HF Hk Ht.
  assert (Hrev : Forall2 read_as (rev parts) (rev hs)).
  { clear Hk Ht. induction HF; cbn; [constructor|]. apply Forall2_app; [done|]. constructor; [done|constructor]. }
  pose proof (take_drop_middle _ _ _ Hk) as Hsplit. apply lookup_lt_Some in Hk as Hlt.
  assert (Hlen : length (rev (drop (S k) parts)) = (length parts - 1 - k)%nat) by (rewrite length_rev, length_drop; lia).
  assert (Hr : rev parts = rev (drop (S k) parts) ++ [] :: rev (take k parts)).
  { rewrite <- Hsplit at 1. rewrite rev_app_distr. cbn [rev]. by rewrite <- app_assoc. }
  apply (before_gap_bound (length parts - 1 - k) (rev parts)); [done| |].
  - rewrite Hr, <- Hlen. by rewrite list_lookup_middle.
  - rewrite Hr, <- Hlen, take_app_length. apply List.forallb_forall. intros x Hx. apply in_rev in Hx.
    rewrite List.forallb_forall in Ht. auto.
Qed.

Lemma before_gap_all parts hs :
  Forall2 read_as parts hs -> forallb ipv6_hextet parts = true ->
  length (before_gap hs) = length hs /\ Forall (fun v => 0 <= v < 65536) (before_gap hs).
Proof.
  induction 1 as [|p h parts hs [Hn Hb] HF IH]; [by repeat constructor|]. intros Ht. cbn [forallb] in Ht. bool_hyps.
  destruct h as [v|].
  - destruct IH as [H1 H2]; [done|]. cbn. split; [lia|]. constructor; [by apply Hb|done].
  - rewrite (proj2 Hn eq_refl) in H. done.
Qed.

Lemma before_gap_short hs k : hs !! k = Some None -> (length (before_gap hs) <> length hs)%nat.
Proof.
  revert k. induction hs as [|[v|] hs IH]; intros k Hk; cbn; [done| |lia].
  destruct k as [|k]; [done|]. specialize (IH k Hk). lia.
Qed.

Lemma skip_empty parts i : ipv6_skip parts = Some (Some i) -> parts !! i = Some [] /\ (1 <= i <= length parts - 2)%nat.
Proof.
  unfold ipv6_skip. destruct (base.filter _ _) as [|j [|]] eqn:Hf; try done. intros [= ->].
  assert (Hi : i ∈ base.filter (fun i => parts !! i = Some []) (seq 1 (length parts - 2))) by (rewrite Hf; by left).
  apply list_elem_of_filter in Hi as [Hi Hs]. split; [done|]. apply elem_of_seq in Hs. lia.
Qed.

(** Boolean facts on list positions, as propositions. *)
Ltac nat_hyps :=
  repeat match goal with
  | H : negb ?b = false |- _ => apply negb_false_iff in H
  | H : negb ?b = true |- _ => apply negb_true_iff in H
  | H : (_ =? _)%nat = true |- _ => apply Nat.eqb_eq in H
  | H : (_ =? _)%nat = false |- _ => apply Nat.eqb_neq in H
  | H : (_ <=? _)%nat = true |- _ => apply Nat.leb_le in H
  | H : (_ <=? _)%nat = false |- _ => apply Nat.leb_gt in H
  end.

Lemma ipv6_value_bound s : IPv6_from_string s = true -> 0 <= ipv6_value s < 2 ^ 128.
Proof.
  unfold IPv6_from_string. destruct (ipv6_parts s) as [parts|] eqn:Hp; [|done].
  pose proof (hextets_of_parts s parts Hp) as HF. pose proof (Forall2_length HF) as Hlen.
  destruct (9 <? len parts) eqn:H9; [done|].
  assert (Hgoal : forall l, length l = 8%nat -> Forall (fun h => 0 <= h < 65536) l ->
    0 <= foldl (fun acc h => acc * 65536 + h) 0 l < 2 ^ 128).
  { intros l Hl Hf. pose proof (foldl_digits_bound 65536 l 0 0) as Hb. rewrite Hl in Hb. apply Hb; lia || done. }
  unfold ipv6_value. destruct (ipv6_skip parts) as [[i|]|] eqn:Hs; [| |done].
  - destruct (skip_empty _ _ Hs) as [Hi Hrange]. set (n := length parts) in *.
    set (hi := if empty_at 0 parts then (i - 1)%nat else i).
    set (lo := if empty_at (n - 1) parts then (n - i - 2)%nat else (n - i - 1)%nat).
    intros H. bool_hyps. nat_hyps.
    assert (Hhi : parts !! hi = Some []).
    { unfold hi in *. destruct (empty_at 0 parts) eqn:E0; [|done]. cbn [andb] in *.
      unfold empty_at in E0. bool_hyps. nat_hyps. by replace (i - 1)%nat with 0%nat by lia. }
    assert (Hlo : parts !! (n - 1 - lo)%nat = Some []).
    { unfold lo in *. destruct (empty_at (n - 1) parts) eqn:E0.
      - cbn [andb] in *. unfold empty_at in E0. bool_hyps. nat_hyps. by replace (n - 1 - (n - i - 2))%nat with (n - 1)%nat by lia.
      - by replace (n - 1 - (n - i - 1))%nat with i by lia. }
    destruct (before_gap_bound hi parts _ HF Hhi) as [L1 B1]; [done|].
    destruct (before_gap_rev (n - 1 - lo) parts _ HF Hlo) as [L2 B2].
    { by replace (S (n - 1 - lo))%nat with (n - lo)%nat by (unfold lo in *; destruct (empty_at (n - 1) parts); lia). }
    assert (Hne : (length (before_gap (hextets_of s)) =? length (hextets_of s))%nat = false).
    { apply Nat.eqb_neq. apply Forall2_lookup_l with (1 := HF) in Hi as (h & Hh & [Hn _]).
      rewrite (proj1 Hn eq_refl) in Hh. by eapply before_gap_short. }
    rewrite Hne. fold n in L2. apply Hgoal.
    + rewrite !length_app, length_replicate, length_rev. unfold lo in *. destruct (empty_at (n - 1) parts); lia.
    + apply Forall_app. split; [done|]. apply Forall_app. split; [apply Forall_replicate; lia|by apply List.Forall_rev].
  - intros H. bool_hyps. destruct (before_gap_all _ _ HF) as [H1 H2]; [done|].
    rewrite H1, Nat.eqb_refl. apply Hgoal; [|done]. unfold len in H. lia.
Qed.

Lemma ip_address_wf s a : ip_address s = Some a -> ip_wf a.
Proof.
  unfold ip_address, parse_ipv4, parse_ipv6. destruct (IPv4Address s) eqn:H4.
  - intros [= <-]. by apply ipv4_value_bound.
  - unfold IPv6Address. destruct (mem 47 s); [done|]. destruct (cut 37 s) as [t [z|]] eqn:Hc; cbn [fst snd].
    + destruct (negb (bool_decide (z = [])) && negb (mem 37 z) && IPv6_from_string t) eqn:H6; [|done].
      intros [= <-]. bool_hyps. by apply ipv6_value_bound.
    + destruct (IPv6_from_string t) eqn:H6; [|done]. intros [= <-]. by apply ipv6_value_bound.
Qed.
