(* ===== verification/Outbound.v ===== *)
(** * Outbound requests ([kestrel_sdk/security/outbound.py])

    Canonicalisation of an outbound URL's origin, the address policy, the
    validated URL record, and the pinned transport that dials only approved
    addresses.  DNS, IDNA ([idna]), NFKC, Unicode case folding and
    the network backend are parameters or environment input. *)

From S2P Require Export IpAddress.

Definition SSRF (m : string) : exn := SSRFError m.

Definition _DEFAULT_PORTS : list (pystr * Z) :=
  [(u "http", 80); (u "https", 443); (u "ws", 80); (u "wss", 443)].

(** [outbound_policy.toml] *)
Definition _NON_GLOBAL_NETWORKS : list (Z * Z) := [(v4 192 88 99 2, 32)].

Definition _origin_port (scheme : pystr) (port : option Z) : res Z :=
  match port with
  | Some p => Ok p
  | None =>
      match List.find (fun sp => bool_decide (sp.1 = scheme)) _DEFAULT_PORTS with
      | Some (_, p) => Ok p
      | None => Raise (SSRF "URL scheme requires an explicit port")
      end
  end.

(** The disjunction after the scope and mapping tests. *)
Definition category_blocked (ip : ipaddr) : bool :=
  is_private ip || is_loopback ip || is_link_local ip || is_multicast ip || is_reserved ip
  || is_unspecified ip || is_site_local ip || negb (is_global ip)
  || match ip with V4 n => in_some 32 n _NON_GLOBAL_NETWORKS | V6 _ _ => false end.

Definition _address_is_blocked (ip : ipaddr) : bool :=
  match ip with
  | V6 _ (Some _) => true
  | V6 n None =>
      match ipv4_mapped n with Some m => category_blocked (V4 m) | None => category_blocked ip end
  | V4 _ => category_blocked ip
  end.

(** [list(dict.fromkeys(l))] *)
Definition fromkeys (l : list ipaddr) : list ipaddr :=
  foldl (fun seen a => if mem a seen then seen else seen ++ [a]) [] l.

(** An element of [ip_addresses]: an address, text, or an integer or packed
    bytes with what [ip_address] makes of it ([None]: it raises). *)
Inductive address_arg : Type :=
| AddrObject (a : ipaddr)
| AddrText (s : pystr)
| AddrPacked (a : option ipaddr).

Definition address_of (x : address_arg) : option ipaddr :=
  match x with AddrObject a => Some a | AddrText s => ip_address s | AddrPacked a => a end.

Definition ends_with (s p : pystr) : bool := bool_decide (drop (length s - length p) s = p).

(** [url.partition("//")]: what precedes, and what follows if it is there. *)
Fixpoint partition_slashes (s : pystr) : pystr * option pystr :=
  match s with
  | [] => ([], None)
  | c :: s' =>
      if starts_with (u "//") s then ([], Some (drop 2 s))
      else let '(a, b) := partition_slashes s' in (c :: a, b)
  end.

Record ValidatedOutboundURL := MkValidated {
  vo_url : pystr;
  vo_scheme : pystr;
  vo_host : pystr;
  vo_port : Z;
  vo_ip_addresses : list ipaddr
}.

Section Outbound.
(** [unicodedata.normalize("NFKC", s)]; [idna.encode(s.lower())], [None] for
    its [UnicodeError]; the case folding of one code point; the texts of [socket.getaddrinfo]'s
    addresses, [None] for [gaierror] or [UnicodeError]. *)
Variable nfkc : pystr -> pystr.
Variable idna_encode : pystr -> option pystr.
Variable fold_char : Z -> list Z.
Variable getaddrinfo : pystr -> Z -> option (list pystr).

(** [str.casefold] *)
Definition casefold (s : pystr) : pystr := s ≫= fold_char.

Definition _canonical_origin_host (host : pystr) : res pystr :=
  let bracketed := starts_with (u "[") host && ends_with host (u "]") in
  let host := if bracketed then take (length host - 2) (drop 1 host) else host in
  let address := ip_address host in
  _ ← raise_if (bracketed && match address with Some (V6 _ _) => false | _ => true end)
        (SSRF "outbound bracketed origin is not a supported IPv6 literal");
  match address with
  | Some a => Ok (casefold (ip_text a))
  | None =>
      match idna_encode host with
      | None => Raise (SSRF "outbound origin host is not a valid IDNA name")
      | Some name =>
          let canonical := casefold name in
          let labels := split_char 46 canonical in
          if (len labels =? 4)
             && forallb (fun l => negb (bool_decide (l = [])) && forallb is_digit l) labels
          then match parse_ipv4 canonical with
               | Some n => Ok (ipv4_text n)
               | None => Raise (SSRF "outbound origin host is not a valid IP literal")
               end
          else Ok canonical
      end
  end.

Definition _origin_hosts_match (candidate validated : pystr) : res bool :=
  a ← _canonical_origin_host candidate;
  b ← _canonical_origin_host validated;
  Ok (bool_decide (a = b)).

(** The bracket rules for the authority. *)
Definition brackets_ok (netloc : pystr) : res unit :=
  if starts_with (u "[") netloc then
    match cut 93 netloc with
    | (_, None) => Raise (SSRF "outbound URL authority has a malformed IP-literal bracket")
    | (_, Some after) =>
        raise_if (negb (bool_decide (after = [])) && negb (starts_with (u ":") after))
          (SSRF "outbound URL authority has a malformed IP-literal bracket")
    end
  else raise_if (mem 91 netloc || mem 93 netloc)
         (SSRF "outbound URL authority has a misplaced IP-literal bracket").

(** [urlparse(url)] with its [hostname] and [port]; [urlparse] only moves
    path parameters, which the code does not read. *)
Definition parse_authority (url : pystr) : res (SplitResult * option pystr * option Z) :=
  let err := SSRF "malformed outbound URL authority" in
  match urlsplit nfkc url with
  | None => Raise err
  | Some parsed =>
      match port parsed with
      | None => Raise err
      | Some p => Ok (parsed, hostname parsed, p)
      end
  end.

Definition authority_text (host : pystr) (p : option Z) : pystr :=
  (if mem 58 host then u "[" ++ host ++ u "]" else host)
  ++ match p with Some p => u ":" ++ digits p | None => [] end.

Definition _canonical_url_origin (url : dyn pystr) (allowed_schemes : list pystr)
    : res (pystr * pystr * pystr * Z) :=
  url ← match url with Inst s => Ok s | Foreign => Raise (SSRF "outbound URL must be a string") end;
  _ ← raise_if (negb (bool_decide (url = strip url)) || existsb (fun c => (c <? 32) || (c =? 127)) url)
        (SSRF "outbound URL contains control characters or surrounding whitespace");
  _ ← raise_if (match utf8 url with None => true | Some _ => false end)
        (SSRF "outbound URL must be encodable as UTF-8");
  '(parsed, host, p) ← parse_authority url;
  let sch := lower (scheme parsed) in
  _ ← raise_if (negb (mem sch allowed_schemes)) (SSRF "outbound URL scheme is not allowed");
  host ← match host with
         | None => Raise (SSRF "outbound URL has no host")
         | Some h => Ok h
         end;
  _ ← raise_if (bool_decide (is_Some (username parsed)) || bool_decide (is_Some (password parsed)))
        (SSRF "outbound URL must not contain user information");
  _ ← brackets_ok (netloc parsed);
  host ← _canonical_origin_host
           (if starts_with (u "[") (netloc parsed) then u "[" ++ host ++ u "]" else host);
  let authority := authority_text host p in
  origin_port ← _origin_port sch p;
  let '(prefix, after) := partition_slashes url in
  let remainder := default [] after in
  let canonical_url :=
    prefix ++ (match after with Some _ => u "//" | None => [] end) ++ authority
    ++ drop (length (netloc parsed)) remainder in
  Ok (canonical_url, sch, host, origin_port).

(** [ValidatedOutboundURL(...)]; [None] for addresses that are no iterable. *)
Definition validated_post_init (url : dyn pystr) (scheme host : pystr) (port : Z)
    (ip_addresses : option (list address_arg)) : res ValidatedOutboundURL :=
  let err := SSRF "validated outbound URL contains an invalid address" in
  args ← match ip_addresses with Some l => Ok l | None => Raise err end;
  addresses ← traverse (fun x => match address_of x with Some a => Ok a | None => Raise err end) args;
  _ ← raise_if (bool_decide (length addresses = 0%nat)) (SSRF "validated outbound URL has no addresses");
  _ ← raise_if (existsb _address_is_blocked addresses) (SSRF "URL resolves to a non-public address");
  '(url, _, host', port') ← _canonical_url_origin url [scheme];
  same ← _origin_hosts_match host host';
  _ ← raise_if (negb same || negb (port =? port'))
        (SSRF "validated outbound URL origin does not match its metadata");
  _ ← raise_if (match ip_address host' with
                | Some literal => existsb (fun a => negb (bool_decide (a = literal))) addresses
                | None => false
                end)
        (SSRF "validated IP-literal URL must approve only its own address");
  Ok (MkValidated url scheme host' port addresses).

Definition assert_origin (self : ValidatedOutboundURL) (host : pystr) (port : Z) : res unit :=
  same ← _origin_hosts_match host (vo_host self);
  raise_if (negb same || negb (port =? vo_port self)) (SSRF "pinned transport refused unexpected origin").

Definition _resolve_addresses (host : pystr) (port : Z) : res (list ipaddr) :=
  match getaddrinfo host port with
  | None => Raise (SSRF "cannot resolve host")
  | Some infos =>
      l ← traverse (fun t => match ip_address t with
                             | Some a => Ok a
                             | None => Raise (ValueError "does not appear to be an IPv4 or IPv6 address")
                             end) infos;
      Ok (fromkeys l)
  end.

Definition validate_outbound_url (url : dyn pystr) (allowed_schemes : list pystr) : res ValidatedOutboundURL :=
  '(url, scheme, host, port) ← _canonical_url_origin url allowed_schemes;
  match ip_address host with
  | Some ip => validated_post_init (Inst url) scheme host port (Some [AddrObject ip])
  | None =>
      resolved ← _resolve_addresses host port;
      _ ← raise_if (bool_decide (length resolved = 0%nat)) (SSRF "cannot resolve host: no addresses returned");
      validated_post_init (Inst url) scheme host port (Some (AddrObject <$> resolved))
  end.

(** ** The pinned backend *)

(** How one dial of the wrapped backend ends: with a stream, with one of the
    connect errors (a built-in [TimeoutError] among them or not), with
    another exception, or cancelled because [asyncio.timeout] expired. *)
Inductive dial_end : Type :=
| Connected (stream : positive)
| ConnectError (builtin_timeout : bool) (e : exn)
| OtherError (e : exn)
| Expired.

(** A dial as the environment answers it: the clock when it starts. *)
Record dial := MkDial { dl_now : Z; dl_end : dial_end }.

(** What the wrapped backend is asked for. *)
Record dial_request := MkRequest { dr_host : pystr; dr_port : Z; dr_timeout : option Z }.

Inductive connect_end : Type :=
| Stream (stream : positive)
| Failed (e : exn)
| ConnectTimeout
| NoStream.

(** The loop over the approved addresses under [asyncio.timeout(timeout)];
    [None] while the environment has not answered. *)
Fixpoint dial_loop (addresses : list ipaddr) (port : Z) (deadline : option Z) (env : list dial)
    : option (list dial_request * connect_end) :=
  match addresses with
  | [] => Some ([], NoStream)
  | address :: rest =>
      match env with
      | [] => None
      | d :: env' =>
          let request := MkRequest (ip_text address) port ((fun t => Z.max 0 (t - dl_now d)) <$> deadline) in
          match dl_end d with
          | Connected s => Some ([request], Stream s)
          | Expired => match deadline with
                       | Some _ => Some ([request], ConnectTimeout)
                       | None => None
                       end
          | OtherError e => Some ([request], Failed e)
          | ConnectError builtin_timeout e =>
              match rest with
              | [] => Some ([request], if builtin_timeout then ConnectTimeout else Failed e)
              | _ => r ← dial_loop rest port deadline env'; Some (request :: r.1, r.2)
              end
          end
      end
  end.

(** [connect_tcp]; [now] is the clock after the origin check. *)
Definition connect_tcp (self : ValidatedOutboundURL) (host : pystr) (port : Z) (timeout : option Z) (now : Z)
    (env : list dial) : option (list dial_request * connect_end) :=
  match assert_origin self host port with
  | Raise e => Some ([], Failed e)
  | Ok _ => dial_loop (vo_ip_addresses self) port ((fun t => now + t) <$> timeout) env
  end.

Definition connect_unix_socket (path : pystr) : res positive :=
  Raise (SSRF "pinned transport does not allow Unix-socket connections").

(** [handle_async_request] before the client's own transport sends it. *)
Definition handle_async_request (validated : ValidatedOutboundURL) (scheme host : pystr) (port : option Z)
    : res unit :=
  _ ← raise_if (negb (bool_decide (scheme = vo_scheme validated)))
        (SSRF "pinned transport refused a changed URL scheme");
  p ← _origin_port scheme port;
  assert_origin validated host p.
End Outbound.
