(* ===== verification/OutboundProps.v ===== *)
(** * Outbound requests: theorems *)

From stdpp Require Import list.
From S2P Require Export JsonText Outbound.

(** ** The address policy as intervals *)

(** Ranges that are not public, in order. *)
Definition special_v4 : list (Z * Z) :=
  [(v4 0 0 0 0, v4 0 255 255 255); (v4 10 0 0 0, v4 10 255 255 255); (v4 100 64 0 0, v4 100 127 255 255);
   (v4 127 0 0 0, v4 127 255 255 255); (v4 169 254 0 0, v4 169 254 255 255); (v4 172 16 0 0, v4 172 31 255 255);
   (v4 192 0 0 0, v4 192 0 0 8); (v4 192 0 0 11, v4 192 0 0 255); (v4 192 0 2 0, v4 192 0 2 255);
   (v4 192 88 99 2, v4 192 88 99 2); (v4 192 168 0 0, v4 192 168 255 255); (v4 198 18 0 0, v4 198 19 255 255);
   (v4 198 51 100 0, v4 198 51 100 255); (v4 203 0 113 0, v4 203 0 113 255); (v4 224 0 0 0, v4 255 255 255 255)].

(** Outside [2000::/3] nothing is public; inside, these are not. *)
Definition special_v6 : list (Z * Z) :=
  [(v6 0x2001 0 0 0, v6 0x2001 1 0 0); (v6 0x2001 1 0 0 + 3, v6 0x2001 3 0 0 - 1);
   (v6 0x2001 4 0 0, v6 0x2001 4 0x112 0 - 1); (v6 0x2001 4 0x113 0, v6 0x2001 0x20 0 0 - 1);
   (v6 0x2001 0x40 0 0, v6 0x2001 0x200 0 0 - 1); (v6 0x2001 0xdb8 0 0, v6 0x2001 0xdb9 0 0 - 1);
   (v6 0x2002 0 0 0, v6 0x2003 0 0 0 - 1)].

Definition outside (l : list (Z * Z)) (n : Z) : Prop := Forall (fun '(lo, hi) => ~ (lo <= n <= hi)) l.

(** Predicates that only compare with the numbers of [T] agree everywhere if
    they agree on [T]. *)
Section Breakpoints.
Variable T : list Z.

Definition same_side (n m : Z) : Prop := forall t, t ∈ T -> (t <=? n) = (t <=? m).
Definition stepwise (f : Z -> bool) : Prop := forall n m, same_side n m -> f n = f m.

Lemma same_side_le n m : same_side n m -> forall t, t ∈ T -> t <= n <-> t <= m.
Proof. intros H t Ht. rewrite <- !Z.leb_le. by rewrite (H t Ht). Qed.

(** The greatest number of [T] below [n]. *)
Definition floor_of (n : Z) : Z := foldr Z.max 0 (base.filter (fun t => t <= n) T).

Lemma floor_of_spec n :
  0 <= n -> 0 ∈ T -> floor_of n ∈ T /\ floor_of n <= n /\ forall t, t ∈ T -> t <= n -> t <= floor_of n.
Proof.
  intros Hn H0. unfold floor_of. assert (Hg : forall l, (forall t, t ∈ l -> t ∈ T /\ t <= n) ->
    foldr Z.max 0 l ∈ T /\ foldr Z.max 0 l <= n /\ forall t, t ∈ l -> t <= foldr Z.max 0 l).
  { induction l as [|x l IH]; intros Hl; cbn [foldr].
    - split_and!; [done..|]. by intros t Ht%not_elem_of_nil.
    - destruct IH as (H1 & H2 & H3); [intros t Ht; apply Hl; by right|].
      destruct (Hl x ltac:(by left)) as [Hx Hxn]. split_and!; [|lia|].
      + destruct (Z.max_spec x (foldr Z.max 0 l)) as [[_ ->]|[_ ->]]; done.
      + intros t [->|Ht]%list.elem_of_cons; [lia|]. specialize (H3 t Ht). lia. }
  destruct (Hg (base.filter (fun t => t <= n) T)) as (H1 & H2 & H3).
  { intros t [Ht Hin]%list_elem_of_filter. done. }
  split_and!; [done..|]. intros t Ht Hle. apply H3. by apply list_elem_of_filter.
Qed.

Lemma by_breakpoints N f g :
  mem 0 T = true -> stepwise f -> stepwise g -> forallb (fun t => (N <=? t) || eqb (f t) (g t)) T = true ->
  forall n, 0 <= n < N -> f n = g n.
Proof.
  intros H0%mem_true Hf Hg Hall n [Hn HN]. destruct (floor_of_spec n Hn H0) as (Hin & Hle & Hmax).
  assert (Hs : same_side n (floor_of n)).
  { intros t Ht. apply eq_true_iff_eq. rewrite !Z.leb_le. split; [by apply Hmax|lia]. }
  rewrite (Hf _ _ Hs), (Hg _ _ Hs). rewrite List.forallb_forall in Hall.
  specialize (Hall (floor_of n) ltac:(by apply list_elem_of_In)). apply orb_true_iff in Hall as [Hall|Hall].
  - apply Z.leb_le in Hall. lia.
  - by apply eqb_prop.
Qed.

Definition network_on (bits : Z) (net : Z * Z) : bool :=
  (0 <=? net.2) && (net.2 <=? bits) && (net.1 mod 2 ^ (bits - net.2) =? 0)
  && mem net.1 T && mem (net.1 + 2 ^ (bits - net.2)) T.

Lemma in_network_stepwise bits net : network_on bits net = true -> stepwise (fun n => in_network bits n net).
Proof.
  destruct net as [base l]. unfold network_on; cbn [fst snd]. intros H n m Hs. bool_hyps.
  apply eq_true_iff_eq. rewrite !in_network_iff by lia.
  pose proof (same_side_le _ _ Hs _ H1). pose proof (same_side_le _ _ Hs _ H0). lia.
Qed.

Lemma in_some_stepwise bits nets :
  forallb (network_on bits) nets = true -> stepwise (fun n => in_some bits n nets).
Proof.
  intros H n m Hs. unfold in_some. induction nets as [|net nets IH]; [done|]. cbn in *. bool_hyps.
  f_equal; [by apply in_network_stepwise|by apply IH].
Qed.

Lemma eqb_stepwise n m : same_side n m -> forall k, mem k T = true -> mem (k + 1) T = true -> (n =? k) = (m =? k).
Proof.
  intros Hs k H1%mem_true H2%mem_true. apply eq_true_iff_eq. rewrite !Z.eqb_eq.
  pose proof (same_side_le _ _ Hs _ H1). pose proof (same_side_le _ _ Hs _ H2). lia.
Qed.

Definition in_interval (n : Z) (iv : Z * Z) : bool := (iv.1 <=? n) && (n <=? iv.2).

Lemma intervals_stepwise ivs :
  forallb (fun iv => mem iv.1 T && mem (iv.2 + 1) T) ivs = true ->
  stepwise (fun n => existsb (in_interval n) ivs).
Proof.
  intros H n m Hs. induction ivs as [|[lo hi] ivs IH]; [done|]. cbn [forallb existsb fst snd] in *. bool_hyps.
  f_equal; [|by apply IH]. unfold in_interval; cbn [fst snd].
  pose proof (same_side_le _ _ Hs _ H). pose proof (same_side_le _ _ Hs _ H1).
  apply eq_true_iff_eq. rewrite !andb_true_iff, !Z.leb_le. lia.
Qed.
End Breakpoints.

Lemma outside_spec l n : existsb (in_interval n) l = false <-> outside l n.
Proof.
  unfold outside. rewrite <- not_true_iff_false, List.existsb_exists, list.Forall_forall. split.
  - intros H [lo hi] Hin Hn. apply H. exists (lo, hi). split; [by apply list_elem_of_In|].
    unfold in_interval; cbn. apply andb_true_iff. rewrite !Z.leb_le. lia.
  - intros H ([lo hi] & Hin & Hn). apply list_elem_of_In in Hin. apply (H _ Hin).
    unfold in_interval in Hn; cbn in Hn. apply andb_true_iff in Hn. rewrite !Z.leb_le in Hn. lia.
Qed.

Definition net_ends (bits : Z) (nets : list (Z * Z)) : list Z :=
  nets ≫= (fun net => [net.1; net.1 + 2 ^ (bits - net.2)]).
Definition iv_ends (ivs : list (Z * Z)) : list Z := ivs ≫= (fun iv => [iv.1; iv.2 + 1]).

Definition v4_breakpoints : list Z :=
  [0; 1] ++ net_ends 32 (v4_private_networks ++ v4_private_exceptions ++ _NON_GLOBAL_NETWORKS
    ++ [(v4 100 64 0 0, 10); (v4 127 0 0 0, 8); (v4 169 254 0 0, 16); (v4 224 0 0 0, 4); (v4 240 0 0 0, 4)])
  ++ iv_ends special_v4.

(** Replace the argument of each membership test by another on the same side
    of every breakpoint. *)
Ltac step_rw T Hs :=
  repeat match goal with
  | |- context [in_some ?b ?x ?nets] =>
      match type of Hs with same_side _ x ?y =>
        rewrite (in_some_stepwise T b nets ltac:(vm_compute; reflexivity) x y Hs) end
  | |- context [in_network ?b ?x ?net] =>
      match type of Hs with same_side _ x ?y =>
        rewrite (in_network_stepwise T b net ltac:(vm_compute; reflexivity) x y Hs) end
  end.

(** What the disjunction says of an IPv4 address. *)
Lemma category_v4 n :
  0 <= n < 2 ^ 32 -> category_blocked (V4 n) = false <-> outside special_v4 n.
Proof.
  intros Hn. rewrite <- outside_spec. enough (H : category_blocked (V4 n) = existsb (in_interval n) special_v4);
    [by rewrite H|].
  apply (by_breakpoints v4_breakpoints (2 ^ 32) (fun n => category_blocked (V4 n)) (fun n => existsb (in_interval n) special_v4));
    [vm_compute; reflexivity| | |vm_compute; reflexivity|lia].
  - intros a b Hs. unfold category_blocked, is_global, is_private, v4_is_private, is_loopback, is_link_local,
      is_multicast, is_reserved, is_unspecified, is_site_local.
    step_rw v4_breakpoints Hs. by rewrite (eqb_stepwise v4_breakpoints a b Hs 0).
  - apply intervals_stepwise. vm_compute. reflexivity.
Qed.

Definition v6_breakpoints : list Z :=
  [0; 1; 2; 2 ^ 125; 2 ^ 126] ++ net_ends 128 (v6_private_networks ++ v6_private_exceptions ++ v6_reserved_networks
    ++ [(v6 0xfe80 0 0 0, 10); (v6 0xff00 0 0 0, 8); (v6 0xfec0 0 0 0, 10)])
  ++ iv_ends special_v6.

(** [2000::/3], the range of global unicast addresses. *)
Definition global_unicast : list (Z * Z) := [(2 ^ 125, 2 ^ 126 - 1)].

Lemma category_v6 n s :
  0 <= n < 2 ^ 128 -> ipv4_mapped n = None ->
  category_blocked (V6 n s) = false <-> 2 ^ 125 <= n < 2 ^ 126 /\ outside special_v6 n.
Proof.
  intros Hn Hm.
  set (f := fun n => (in_some 128 n v6_private_networks && negb (in_some 128 n v6_private_exceptions))
    || (n =? 1) || in_network 128 n (v6 0xfe80 0 0 0, 10) || in_network 128 n (v6 0xff00 0 0 0, 8)
    || in_some 128 n v6_reserved_networks || (n =? 0) || in_network 128 n (v6 0xfec0 0 0 0, 10)
    || negb (negb (in_some 128 n v6_private_networks && negb (in_some 128 n v6_private_exceptions))) || false).
  assert (Hf : category_blocked (V6 n s) = f n).
  { unfold category_blocked, is_global, is_private. by rewrite Hm. }
  assert (Heq : f n = negb (existsb (in_interval n) global_unicast) || existsb (in_interval n) special_v6).
  { apply (by_breakpoints v6_breakpoints (2 ^ 128) f
      (fun n => negb (existsb (in_interval n) global_unicast) || existsb (in_interval n) special_v6));
      [vm_compute; reflexivity| | |vm_compute; reflexivity|lia].
    - intros a b Hs. unfold f. step_rw v6_breakpoints Hs.
      by rewrite (eqb_stepwise v6_breakpoints a b Hs 0), (eqb_stepwise v6_breakpoints a b Hs 1).
    - intros a b Hs. f_equal; [f_equal|]; apply (intervals_stepwise v6_breakpoints); try done; vm_compute; reflexivity. }
  rewrite Hf, Heq, orb_false_iff, outside_spec, negb_false_iff. cbn [existsb global_unicast].
  rewrite orb_false_r. unfold in_interval; cbn [fst snd]. rewrite andb_true_iff, !Z.leb_le.
  apply and_iff_compat_r. lia.
Qed.

(** An address a server-side fetch may reach. *)
Definition public (a : ipaddr) : Prop :=
  match a with
  | V4 n => outside special_v4 n
  | V6 _ (Some _) => False
  | V6 n None =>
      match ipv4_mapped n with
      | Some m => outside special_v4 m
      | None => 2 ^ 125 <= n < 2 ^ 126 /\ outside special_v6 n
      end
  end.

Lemma address_policy a : ip_wf a -> _address_is_blocked a = false <-> public a.
Proof.
  destruct a as [n|n [z|]]; unfold _address_is_blocked, public, ip_wf; intros Hn.
  - by apply category_v4.
  - by split.
  - destruct (ipv4_mapped n) as [m|] eqn:Hm; [|apply category_v6; [lia|done]].
    apply category_v4. unfold ipv4_mapped in Hm. destruct (Z.shiftr n 32 =? 65535); [|done].
    injection Hm as <-. rewrite (Z.land_ones _ 32) by lia. apply Z.mod_pos_bound. lia.
Qed.

(** C24. [_address_is_blocked] lets through exactly the public addresses: IPv4
    (and IPv4-mapped) addresses outside the listed ranges, among them
    loopback, private, link-local with the metadata service, carrier NAT,
    documentation, multicast and reserved space, and IPv6 addresses without a
    zone in [2000::/3] outside its special blocks. *)
Theorem address_policy_exact a : ip_wf a -> _address_is_blocked a = false <-> public a.
Proof. apply address_policy. Qed.

Lemma address_policy_exact_witness :
  ip_wf (V4 (v4 93 184 216 34)) /\ public (V4 (v4 93 184 216 34)) /\ ~ public (V4 (v4 169 254 169 254)).
Proof.
  split_and!.
  - vm_compute. intuition congruence.
  - apply (address_policy_exact (V4 (v4 93 184 216 34))); [vm_compute; intuition congruence|]. vm_compute. reflexivity.
  - intros H. apply (address_policy_exact (V4 (v4 169 254 169 254))) in H; [vm_compute in H; discriminate H|].
    vm_compute. intuition congruence.
Defined.

(** ** What a validated URL approves *)

Section Fetch.
Variable nfkc : pystr -> pystr.
Variable idna_encode : pystr -> option pystr.
Variable fold_char : Z -> list Z.
Variable getaddrinfo : pystr -> Z -> option (list pystr).

Abbreviation post_init := (validated_post_init nfkc idna_encode fold_char).
Abbreviation validate := (validate_outbound_url nfkc idna_encode fold_char getaddrinfo).
Abbreviation connect := (connect_tcp idna_encode fold_char).

Definition approved (v : ValidatedOutboundURL) : Prop :=
  vo_ip_addresses v <> []
  /\ Forall (fun a => _address_is_blocked a = false) (vo_ip_addresses v)
  /\ forall a, ip_address (vo_host v) = Some a -> Forall (eq a) (vo_ip_addresses v).

Lemma post_init_approved url scheme host port args v :
  post_init url scheme host port args = Ok v ->
  approved v /\ vo_scheme v = scheme
  /\ (exists sch, _canonical_url_origin nfkc idna_encode fold_char url [scheme]
                  = Ok (vo_url v, sch, vo_host v, vo_port v))
  /\ (forall l, args = Some l -> Forall2 (fun x a => address_of x = Some a) l (vo_ip_addresses v)).
Proof.
  unfold validated_post_init. intros H. inv_ok. destruct args as [l|]; inv_ok.
  destruct r1 as [[[url' sch] host'] port']. inv_ok. cbn. apply orb_false_iff in Hm4 as [_ Hp].
  apply negb_false_iff, Z.eqb_eq in Hp as ->. apply bool_decide_eq_false in Hm1.
  apply existsb_false in Hm2. repeat split.
  - cbn. intros ->. done.
  - done.
  - intros a Ha. cbn in Ha. rewrite Ha in Hm5. apply existsb_false in Hm5.
    eapply list.Forall_impl; [exact Hm5|]. cbn. intros x Hx. apply negb_false_iff, bool_decide_eq_true in Hx. by symmetry.
  - eauto.
  - intros l' [= <-]. apply traverse_Ok in Hm0. eapply list.Forall2_impl; [exact Hm0|]. cbn. intros x a Hx.
    destruct (address_of x); by inv_ok.
Qed.

Lemma fromkeys_Forall (P : ipaddr -> Prop) l : Forall P l -> Forall P (fromkeys l).
Proof.
  unfold fromkeys. intros Hl. assert (Hg : forall seen, Forall P seen ->
    Forall P (foldl (fun seen a => if mem a seen then seen else seen ++ [a]) seen l)); [|by apply Hg].
  induction Hl as [|a l Ha Hl IH]; intros seen Hs; [done|]. cbn. apply IH.
  case_match; [done|]. apply Forall_app. auto.
Qed.

(** The addresses of a validated URL are approved, well formed and those its
    host stands for. *)
Lemma validate_approved url schemes v :
  validate url schemes = Ok v -> approved v /\ Forall ip_wf (vo_ip_addresses v).
Proof.
  unfold validate_outbound_url. intros H. inv_ok. destruct r as [[[url' sch] host] p].
  destruct (ip_address host) as [ip|] eqn:Hip.
  - destruct (post_init_approved _ _ _ _ _ _ H) as (Ha & _ & _ & Hl). split; [done|].
    specialize (Hl _ eq_refl). inversion Hl as [|x a l1 l2 Hx Hnil]; subst. inversion Hnil; subst.
    injection Hx as ->. constructor; [by eapply ip_address_wf|constructor].
  - inv_ok. destruct (post_init_approved _ _ _ _ _ _ H) as (Ha & _ & _ & Hl). split; [done|].
    specialize (Hl _ eq_refl). unfold _resolve_addresses in Hm0. destruct (getaddrinfo host p) as [infos|]; [|done].
    inv_ok. assert (Hw : Forall ip_wf (fromkeys r0)).
    { apply fromkeys_Forall.
      match goal with H : traverse _ _ = Ok _ |- _ => apply traverse_Ok in H; rename H into Ht0 end. apply list.Forall_forall. intros a Ha'.
      apply list_elem_of_lookup in Ha' as [i Hi]. eapply Forall2_lookup_r in Ht0 as (t & _ & Ht); [|exact Hi].
      cbn in Ht. destruct (ip_address t) eqn:Ht'; inv_ok. by eapply ip_address_wf. }
    revert Hw. generalize dependent (fromkeys r0). intros l _ _ Hl Hw.
    apply list.Forall_forall. intros a Hin. apply list_elem_of_lookup in Hin as [i Hi].
    eapply Forall2_lookup_r in Hl as (x & Hx & Hax); [|exact Hi].
    rewrite list_lookup_fmap in Hx. destruct (l !! i) as [b|] eqn:Hb; [|done]. injection Hx as <-.
    injection Hax as ->. by eapply (proj1 (Forall_lookup _ _) Hw).
Qed.

(** ** Dialling *)

(** The requests go to a prefix of the addresses, in order and on one port;
    every dial but the last ended with a connect error, and the last decides
    the end. *)
Inductive dialled (port : Z) : list ipaddr -> list dial -> list dial_request -> connect_end -> Prop :=
| dialled_none env : dialled port [] env [] NoStream
| dialled_last a l d env t e :
    (match dl_end d with
     | Connected s => e = Stream s
     | Expired => e = ConnectTimeout
     | OtherError x => e = Failed x
     | ConnectError bt x => l = [] /\ e = if bt then ConnectTimeout else Failed x
     end) ->
    dialled port (a :: l) (d :: env) [MkRequest (ip_text a) port t] e
| dialled_next a b l d env t reqs e bt x :
    dl_end d = ConnectError bt x ->
    dialled port (b :: l) env reqs e ->
    dialled port (a :: b :: l) (d :: env) (MkRequest (ip_text a) port t :: reqs) e.

Lemma dial_loop_dialled l port deadline env reqs e :
  dial_loop l port deadline env = Some (reqs, e) -> dialled port l env reqs e.
Proof.
  revert env reqs e. induction l as [|a l IH]; intros env reqs e; [intros [= <- <-]; constructor|].
  destruct env as [|d env]; [done|]. cbn [dial_loop]. destruct (dl_end d) as [s|bt x|x|] eqn:Hd.
  - intros [= <- <-]. constructor. by rewrite Hd.
  - destruct l as [|b l].
    + intros [= <- <-]. constructor. by rewrite Hd.
    + intros H. apply bind_Some in H as ([reqs' e'] & Hl & [= <- <-]). eapply dialled_next; [exact Hd|]. by apply IH.
  - intros [= <- <-]. constructor. by rewrite Hd.
  - destruct deadline; [|done]. intros [= <- <-]. constructor. by rewrite Hd.
Qed.

Lemma dialled_targets port l env reqs e :
  dialled port l env reqs e ->
  exists n, (fun r => (dr_host r, dr_port r)) <$> reqs = (fun a => (ip_text a, port)) <$> take n l.
Proof.
  induction 1 as [| |a b l d env t reqs e bt x Hd H [n IH]].
  - by exists 0%nat.
  - by exists 1%nat.
  - exists (S n). cbn [take fmap list_fmap]. by f_equal.
Qed.

(** A stream comes from the first dial that did not fail to connect. *)
Lemma dialled_stream port l env reqs s :
  dialled port l env reqs (Stream s) ->
  exists i d, length reqs = S i /\ env !! i = Some d /\ dl_end d = Connected s
    /\ Forall (fun d => exists bt x, dl_end d = ConnectError bt x) (take i env).
Proof.
  intros H. remember (Stream s) as e eqn:He. induction H as [| a l d env t e Hd|a b l d env t reqs e bt x Hd H IH]; [done| |].
  - subst e. exists 0%nat, d. split_and!; [done|done| |constructor].
    destruct (dl_end d) as [s'|bt x|x|]; [by injection Hd as ->|destruct Hd as [_ Hd]; destruct bt; done|done..].
  - destruct (IH He) as (i & d' & H1 & H2 & H3 & H4). exists (S i), d'.
    split_and!; [cbn; congruence|done|done|]. constructor; [by exists bt, x|done].
Qed.

(** The dials within a deadline. *)
Lemma dial_loop_answers l port deadline env :
  (length l <= length env)%nat ->
  (deadline = None -> Forall (fun d => dl_end d <> Expired) env) ->
  is_Some (dial_loop l port deadline env).
Proof.
  revert env. induction l as [|a l IH]; intros [|d env] Hlen Hex; cbn in Hlen; try (cbn; by eexists); [lia|].
  cbn [dial_loop]. destruct (dl_end d) as [s|bt x|x|] eqn:Hd; try (by eexists).
  - destruct l as [|b l]; [by eexists|].
    destruct (IH env) as [r Hr]; [lia| |].
    { intros Hn. specialize (Hex Hn). by inversion Hex. }
    cbn [length] in *. rewrite Hr. by eexists.
  - destruct deadline; [by eexists|]. specialize (Hex eq_refl). inversion Hex. done.
Qed.

Lemma approved_public v :
  approved v -> Forall ip_wf (vo_ip_addresses v) -> Forall public (vo_ip_addresses v).
Proof.
  intros (_ & Hb & _) Hw. apply list.Forall_forall. intros a Ha.
  apply address_policy; [by eapply list.Forall_forall in Hw|by eapply list.Forall_forall in Hb].
Qed.

Lemma assert_origin_Ok v host port :
  assert_origin idna_encode fold_char v host port = Ok tt <->
  port = vo_port v
  /\ exists c, _canonical_origin_host idna_encode fold_char host = Ok c
               /\ _canonical_origin_host idna_encode fold_char (vo_host v) = Ok c.
Proof.
  unfold assert_origin, _origin_hosts_match. split.
  - intros H. inv_ok. apply orb_false_iff in H as [H1 H2]. apply negb_false_iff, bool_decide_eq_true in H1 as ->.
    apply negb_false_iff, Z.eqb_eq in H2. eauto.
  - intros (-> & c & Hc1 & Hc2). rewrite Hc1, Hc2. cbn. by rewrite bool_decide_eq_true_2, Z.eqb_refl.
Qed.

(** C6. DNS is not trusted twice.  A URL that [validate_outbound_url] accepts
    approves at least one address, all of them public, and for a literal host
    that literal alone.  The pinned backend dials nothing unless the requested
    host and port are the validated origin; then each request goes to the text
    of an approved address, in order, on the validated port, and only a connect
    error moves on to the next; the outcome is that of the last dial, never a
    silent absence of a stream. *)
Theorem pinned_fetch url schemes v host port timeout now env reqs e :
  validate url schemes = Ok v ->
  connect v host port timeout now env = Some (reqs, e) ->
  (vo_ip_addresses v <> [] /\ Forall public (vo_ip_addresses v)
   /\ forall a, ip_address (vo_host v) = Some a -> Forall (eq a) (vo_ip_addresses v))
  /\ ((reqs = [] /\ exists x, assert_origin idna_encode fold_char v host port = Raise x /\ e = Failed x)
      \/ (port = vo_port v
          /\ (exists c, _canonical_origin_host idna_encode fold_char host = Ok c
                        /\ _canonical_origin_host idna_encode fold_char (vo_host v) = Ok c)
          /\ dialled port (vo_ip_addresses v) env reqs e
          /\ (exists n, (fun r => (dr_host r, dr_port r)) <$> reqs
                        = (fun a => (ip_text a, vo_port v)) <$> take n (vo_ip_addresses v))
          /\ e <> NoStream)).
Proof.
  intros Hv Hc. destruct (validate_approved _ _ _ Hv) as [Ha Hw].
  split; [destruct Ha as (H1 & H2 & H3); split_and!; [done|by apply approved_public|done]|].
  unfold connect_tcp in Hc. destruct (assert_origin _ _ v host port) as [[]|x] eqn:Ho.
  - right. apply assert_origin_Ok in Ho as [-> Ho]. apply dial_loop_dialled in Hc.
    split_and!; [done|done|done|by apply (dialled_targets _ _ env reqs e)|].
    destruct Ha as [Hne _]. clear -Hc Hne. intros ->. remember NoStream as e eqn:He.
    induction Hc as [|a l d env t e Hd|a b l d env t reqs e bt x Hd H IH]; [done| |by apply IH].
    subst e. destruct (dl_end d) as [|bt x| |]; [done| |done..]. destruct Hd as [_ Hd]. by destruct bt.
  - left. injection Hc as <- <-. eauto.
Qed.
End Fetch.

(** A name with two addresses, reached at the second. *)
Lemma pinned_fetch_witness :
  exists v reqs,
    validate_outbound_url (fun s => s) (fun h => Some h) (fun c => [lower_ascii_char c])
      (fun _ _ => Some [u "93.184.216.34"; u "2606:4700::1111"]) (Inst (u "https://Example.com/x")) [u "https"] = Ok v
    /\ connect_tcp (fun h => Some h) (fun c => [lower_ascii_char c]) v (u "example.com") 443 (Some 5) 10
         [MkDial 10 (ConnectError false (OSError "refused")); MkDial 12 (Connected 7)] = Some (reqs, Stream 7)
    /\ (dr_host <$> reqs) = [u "93.184.216.34"; u "2606:4700::1111"]
    /\ Forall public (vo_ip_addresses v).
Proof.
  set (v := MkValidated (u "https://example.com/x") (u "https") (u "example.com") 443
              [V4 (v4 93 184 216 34); V6 (v6 0x2606 0x4700 0 0 + 0x1111) None]).
  assert (Hv : validate_outbound_url (fun s => s) (fun h => Some h) (fun c => [lower_ascii_char c])
      (fun _ _ => Some [u "93.184.216.34"; u "2606:4700::1111"]) (Inst (u "https://Example.com/x")) [u "https"] = Ok v)
    by (vm_compute; reflexivity).
  set (reqs := [MkRequest (u "93.184.216.34") 443 (Some 5); MkRequest (u "2606:4700::1111") 443 (Some 3)]).
  assert (Hc : connect_tcp (fun h => Some h) (fun c => [lower_ascii_char c]) v (u "example.com") 443 (Some 5) 10
         [MkDial 10 (ConnectError false (OSError "refused")); MkDial 12 (Connected 7)] = Some (reqs, Stream 7))
    by (vm_compute; reflexivity).
  exists v, reqs. destruct (pinned_fetch _ _ _ _ _ _ _ _ _ _ _ _ _ _ Hv Hc) as [(_ & Hp & _) _].
  split; [exact Hv|]. split; [exact Hc|]. split; [reflexivity|exact Hp].
Defined.
