(* ===== verification/OutboundUrl.v ===== *)
(** * Outbound requests: the canonical URL

    What a second parser reads from the URL [_canonical_url_origin] returns. *)

From stdpp Require Import list.
From S2P Require Export ValidationProps JsonText Outbound.

(** ** Splitting *)

Definition delimiter (c : Z) : bool := mem c (u "/?#").

Lemma span_netloc_spec s a b :
  span_netloc s = (a, b) <->
  s = a ++ b /\ Forall (fun c => delimiter c = false) a /\ match b with [] => True | c :: _ => delimiter c = true end.
Proof.
  revert a b; induction s as [|c s IH]; intros a b; cbn [span_netloc].
  - split; [by intros [= <- <-]|]. intros (H & _ & _). by destruct a, b.
  - fold (delimiter c). destruct (delimiter c) eqn:Hc.
    + split; [by intros [= <- <-]|]. intros (H & Ha & _). destruct a as [|x a]; [by rewrite H|].
      injection H as <- H. inversion Ha; congruence.
    + destruct (span_netloc s) as [a' b'] eqn:Hs. destruct (proj1 (IH a' b') eq_refl) as (-> & Ha & Hb). split.
      * intros [= <- <-]. split_and!; [done|by constructor|done].
      * intros (H & Ha' & Hb'). destruct a as [|x a]; [cbn in H; subst b; congruence|].
        injection H as <- H. inversion Ha'; subst.
        assert ((a', b') = (a, b)) as [= -> ->]; [|done].
        apply IH. by split_and!.
Qed.

Lemma starts_with_app p s : starts_with p s = true <-> s = p ++ drop (length p) s.
Proof.
  unfold starts_with. rewrite bool_decide_eq_true. split.
  - intros H. pose proof (take_drop (length p) s) as Ht. by rewrite H in Ht.
  - intros H. rewrite H. by rewrite take_app_length.
Qed.

Lemma partition_slashes_spec a t :
  Forall (fun c => c <> 47) a -> partition_slashes (a ++ u "//" ++ t) = (a, Some t).
Proof.
  induction 1 as [|c a Hc Ha IH]; [done|]. cbn [app partition_slashes].
  destruct (starts_with _ _) eqn:Hs.
  - unfold starts_with in Hs. apply bool_decide_eq_true in Hs. change (u "//") with [47; 47] in Hs. cbn in Hs. congruence.
  - by rewrite IH.
Qed.

(** A URL without control characters whose first character is no space is not
    cleaned. *)
Definition printable_url (s : pystr) : Prop :=
  Forall (fun c => 32 <= c) s /\ match s with [] => True | c :: _ => 32 < c end.

Lemma clean_url_id s : printable_url s -> clean_url s = s.
Proof.
  intros [Hall Hhead]. unfold clean_url.
  assert (drop_while (fun c => in_range 0 32 c) s = s) as ->.
  { destruct s as [|c s]; [done|]. apply drop_while_head. unfold in_range. apply andb_false_iff. right. apply Z.leb_gt. lia. }
  apply filter_id. intros c Hc. apply (proj1 (list.Forall_forall _ _) Hall) in Hc.
  apply Is_true_true, negb_true_iff, mem_false. intros Hin.
  repeat (apply list.elem_of_cons in Hin as [->|Hin]; [lia|]). by apply not_elem_of_nil in Hin.
Qed.

(** The prefix before the authority: nothing, or a scheme and its colon. *)
Definition scheme_prefix (sch prefix : pystr) : Prop :=
  (sch = [] /\ prefix = [])
  \/ exists c a, prefix = (c :: a) ++ [58] /\ sch = lower (c :: a)
       /\ is_upper c || is_lower c = true /\ Forall (fun c => scheme_char c = true) (c :: a).

Lemma scheme_char_facts c : scheme_char c = true -> c <> 58 /\ c <> 47 /\ 32 < c.
Proof.
  unfold scheme_char, is_alnum, is_digit, is_upper, is_lower, in_range. intros H.
  assert (Hm : mem c (u "+-.") = true -> c = 43 \/ c = 45 \/ c = 46).
  { intros Hm%mem_true. repeat (apply list.elem_of_cons in Hm as [->|Hm]; [auto|]). by apply not_elem_of_nil in Hm. }
  destruct (mem c (u "+-.")); [specialize (Hm eq_refl); lia|].
  rewrite !orb_true_iff, !andb_true_iff, !Z.leb_le in H. intuition (lia || done).
Qed.

Lemma prefix_facts sch prefix : scheme_prefix sch prefix -> Forall (fun c => c <> 47 /\ 32 < c) prefix.
Proof.
  intros [[_ ->]|(c & a & -> & _ & _ & Ha)]; [constructor|]. apply Forall_app. split; [|by repeat constructor].
  apply (list.Forall_impl _ _ _ Ha). intros x Hx. by destruct (scheme_char_facts x Hx) as (_ & ? & ?).
Qed.

Lemma split_scheme_prefix sch prefix t :
  scheme_prefix sch prefix -> split_scheme (prefix ++ u "//" ++ t) = (sch, u "//" ++ t).
Proof.
  unfold split_scheme. intros [[-> ->]|(c & a & -> & -> & Hc & Ha)].
  - cbn [app]. destruct (cut 58 _) as [[|c a] [b|]] eqn:Hcut; try done.
    apply cut_Some in Hcut as [Heq _]. injection Heq as <- _. done.
  - assert (Hcut : cut 58 (((c :: a) ++ [58]) ++ u "//" ++ t) = (c :: a, Some (u "//" ++ t))).
    { apply cut_Some. split; [by rewrite <- app_assoc|]. apply (list.Forall_impl _ _ _ Ha).
      intros x Hx. by apply scheme_char_facts. }
    rewrite Hcut, Hc. cbn [andb]. rewrite (proj2 (List.forallb_forall scheme_char (c :: a))); [done|].
    intros x Hx. by apply (proj1 (list.Forall_forall _ _) Ha), list_elem_of_In.
Qed.

(** Every split of a URL with an authority. *)
Lemma split_scheme_inv s sch rest :
  split_scheme s = (sch, rest) -> exists prefix, scheme_prefix sch prefix /\ s = prefix ++ rest.
Proof.
  unfold split_scheme. destruct (cut 58 s) as [[|c a] [b|]] eqn:Hcut;
    try (intros [= <- <-]; exists []; split; [by left|done]).
  destruct (_ && _) eqn:Hc; intros [= <- <-]; [|exists []; split; [by left|done]].
  apply andb_true_iff in Hc as [Hc Ha]. apply cut_Some in Hcut as [-> _].
  exists ((c :: a) ++ [58]). split; [|by rewrite <- app_assoc]. right. exists c, a. split_and!; [done..|].
  apply list.Forall_forall. intros x Hx. rewrite List.forallb_forall in Ha. apply Ha. by apply list_elem_of_In.
Qed.

(** ** Canonical hosts *)

(** The characters of a canonical DNS name or IPv4 literal. *)
Definition host_char (c : Z) : bool := is_digit c || is_lower c || (c =? 45) || (c =? 46).

Definition plain_host (h : pystr) : Prop := h <> [] /\ Forall (fun c => host_char c = true) h.

Lemma host_char_facts c :
  host_char c = true ->
  0 <= c <= 127 /\ delimiter c = false /\ is_upper c = false
  /\ c <> 37 /\ c <> 58 /\ c <> 64 /\ c <> 91 /\ c <> 93.
Proof.
  unfold host_char, is_digit, is_lower, is_upper, in_range. intros H.
  assert (Hd : delimiter c = true -> c = 47 \/ c = 63 \/ c = 35).
  { intros Hm%mem_true. repeat (apply list.elem_of_cons in Hm as [->|Hm]; [auto|]). by apply not_elem_of_nil in Hm. }
  rewrite !orb_true_iff, !andb_true_iff, !Z.leb_le, !Z.eqb_eq in H.
  assert (Hn : delimiter c = false) by (destruct (delimiter c); [specialize (Hd eq_refl); lia|done]).
  assert (Hu : (65 <=? c) && (c <=? 90) = false).
  { apply andb_false_iff. rewrite !Z.leb_gt. lia. }
  split_and!; [lia..|done|done|lia|lia|lia|lia|lia].
Qed.

Lemma digit_host c : is_digit c = true -> host_char c = true.
Proof. unfold host_char. by intros ->. Qed.

Lemma plain_host_app h h' : plain_host h -> Forall (fun c => host_char c = true) h' -> plain_host (h ++ h').
Proof. intros [Hne Hh] Hh'. split; [by destruct h|]. by apply Forall_app. Qed.

Lemma ipv4_text_plain n : plain_host (ipv4_text n).
Proof.
  assert (Hd : forall i, Forall (fun c => host_char c = true) (digits (octet n i))).
  { intros i. apply (list.Forall_impl _ _ _ (digits_all _ (proj1 (Z.mod_pos_bound (n / 256 ^ i) 256 ltac:(lia))))). apply digit_host. }
  apply plain_host_app; [split; [apply digits_nonempty|apply Hd]|].
  repeat first [apply Forall_app; split; [first [apply Hd|by repeat constructor]|]|apply Hd].
Qed.

(** The text of an IPv6 address has a colon. *)
Lemma join_colon l : (2 <= length l)%nat -> 58 ∈ join_with (u ":") l.
Proof.
  destruct l as [|x [|y l]]; cbn [length]; [lia|lia|]. intros _. cbn [join_with].
  apply elem_of_app. right. apply elem_of_app. left. apply list.elem_of_cons. by left.
Qed.

Lemma compress_length l : (2 <= length l)%nat -> (2 <= length (compress_hextets l))%nat.
Proof.
  intros Hl. unfold compress_hextets. destruct (1 <? _)%nat; [|by rewrite length_fmap].
  rewrite !length_app, length_take, length_fmap. cbn [length].
  destruct (best_start _ =? 0)%nat eqn:Hs; cbn [length]; [lia|]. apply Nat.eqb_neq in Hs. lia.
Qed.

Lemma ipv6_text_colon n s : 58 ∈ ip_text (V6 n s).
Proof.
  unfold ip_text. apply elem_of_app. left. apply join_colon, compress_length. unfold hextets. rewrite length_fmap. cbn; lia.
Qed.

Section Canonical.
Variable nfkc : pystr -> pystr.
Variable idna_encode : pystr -> option pystr.
Variable fold_char : Z -> list Z.

(** Case folding on ASCII, and the alphabet of encoded names. *)
Hypothesis fold_ascii : forall c, 0 <= c <= 127 -> fold_char c = [lower_ascii_char c].
Hypothesis idna_names : forall h n, idna_encode h = Some n ->
  n <> [] /\ Forall (fun c => is_alnum c = true \/ c = 45 \/ c = 46) n.

Lemma casefold_ascii s : Forall (fun c => 0 <= c <= 127) s -> casefold fold_char s = lower s.
Proof.
  unfold casefold. induction 1 as [|c s Hc Hs IH]; [done|]. cbn [mbind list_bind]. rewrite fold_ascii, IH by done. done.
Qed.

Lemma lower_plain h : plain_host h -> lower h = h.
Proof.
  intros [_ Hh]. induction Hh as [|c h Hc Hh IH]; [done|]. cbn.
  destruct (host_char_facts c Hc) as (_ & _ & -> & _). f_equal. exact IH.
Qed.

Lemma plain_ascii h : plain_host h -> Forall (fun c => 0 <= c <= 127) h.
Proof. intros [_ Hh]. apply (list.Forall_impl _ _ _ Hh). intros c Hc. by apply host_char_facts. Qed.

Lemma casefold_plain h : plain_host h -> casefold fold_char h = h.
Proof. intros Hh. rewrite casefold_ascii by (by apply plain_ascii). by apply lower_plain. Qed.

Lemma alnum_host c : is_alnum c = true \/ c = 45 \/ c = 46 ->
  0 <= c <= 127 /\ host_char (lower_ascii_char c) = true.
Proof.
  unfold host_char, lower_ascii_char, is_alnum, is_digit, is_lower, is_upper, in_range. intros H.
  rewrite !orb_true_iff, !andb_true_iff, !Z.leb_le in H.
  destruct ((65 <=? c) && (c <=? 90)) eqn:Hc; rewrite !orb_true_iff, !andb_true_iff, !Z.leb_le, !Z.eqb_eq;
    [apply andb_true_iff in Hc; rewrite !Z.leb_le in Hc; lia|].
  apply andb_false_iff in Hc. rewrite !Z.leb_gt in Hc. lia.
Qed.

Lemma casefold_idna h n : idna_encode h = Some n -> plain_host (casefold fold_char n).
Proof.
  intros Hn. destruct (idna_names _ _ Hn) as [Hne Hall]. rewrite casefold_ascii.
  - split; [by destruct n|]. unfold lower. apply Forall_fmap. apply (list.Forall_impl _ _ _ Hall).
    intros c Hc. by apply alnum_host.
  - apply (list.Forall_impl _ _ _ Hall). intros c Hc. by apply alnum_host.
Qed.

Lemma canonical_host_plain h c :
  _canonical_origin_host idna_encode fold_char h = Ok c -> plain_host c \/ 58 ∈ c.
Proof.
  unfold _canonical_origin_host. intros H. inv_ok. revert H.
  match goal with |- context [ip_address ?x] => set (host := x) end. destruct (ip_address host) as [[n|n s]|].
  - intros [= <-]. left. cbn [ip_text]. rewrite casefold_plain by apply ipv4_text_plain. apply ipv4_text_plain.
  - intros [= <-]. right. pose proof (ipv6_text_colon n s) as Hc. unfold casefold.
    apply list_elem_of_bind. exists 58. split; [|done]. rewrite fold_ascii by lia. by left.
  - destruct (idna_encode host) as [n|] eqn:Hn; [|done]. pose proof (casefold_idna _ _ Hn) as Hp.
    match goal with |- (if ?b then _ else _) = _ -> _ => destruct b end; [|intros [= <-]; by left].
    destruct (parse_ipv4 _); [|done]. intros [= <-]. left. apply ipv4_text_plain.
Qed.

(** ** Reading the canonical URL back *)

(** The authority of a canonical URL, as the parser's [netloc]. *)
Section Authority.
Variables (h : pystr) (p : option Z).
Hypothesis Hh : plain_host h.
Hypothesis Hp : match p with Some n => 0 <= n <= 65535 | None => True end.

Lemma plain_no_colon : mem 58 h = false.
Proof.
  apply mem_false. intros Hin. destruct Hh as [_ Hc]. apply (proj1 (list.Forall_forall _ _) Hc) in Hin.
  by apply host_char_facts in Hin as (_ & _ & _ & _ & ? & _).
Qed.

Let tail_text : pystr := match p with Some n => u ":" ++ digits n | None => [] end.

Lemma authority_eq : authority_text h p = h ++ tail_text.
Proof. unfold authority_text. by rewrite plain_no_colon. Qed.

(** No character of the authority delimits anything but the port. *)
Lemma authority_chars :
  Forall (fun c => 0 <= c <= 127 /\ delimiter c = false /\ c <> 64 /\ c <> 91 /\ c <> 93 /\ 32 < c) (authority_text h p).
Proof.
  assert (Hhost : forall c, host_char c = true ->
    0 <= c <= 127 /\ delimiter c = false /\ c <> 64 /\ c <> 91 /\ c <> 93 /\ 32 < c).
  { intros c Hc. destruct (host_char_facts c Hc) as (? & ? & _ & _ & _ & ? & ? & ?). split_and!; try lia; [done|].
    unfold host_char, is_digit, is_lower, in_range in Hc.
    rewrite !orb_true_iff, !andb_true_iff, !Z.leb_le, !Z.eqb_eq in Hc. lia. }
  rewrite authority_eq. apply Forall_app. split; [exact (list.Forall_impl _ _ _ (proj2 Hh) Hhost)|].
  unfold tail_text. destruct p as [n|]; [|constructor]. constructor; [vm_compute; intuition congruence|].
  apply (list.Forall_impl _ _ _ (digits_all n (proj1 Hp))). intros c Hc. by apply Hhost, digit_host.
Qed.

Lemma not_in_authority c : c = 64 \/ c = 91 \/ c = 93 -> mem c (authority_text h p) = false.
Proof.
  intros Hc. apply mem_false. intros Hin. apply (proj1 (list.Forall_forall _ _) authority_chars) in Hin. lia.
Qed.

Lemma cut_not_in c s : mem c s = false -> cut c s = (s, None).
Proof.
  intros H%mem_false. apply cut_None. split; [done|]. apply list.Forall_forall. intros x Hx ->. done.
Qed.

Lemma authority_rcut : rcut 64 (authority_text h p) = (None, authority_text h p).
Proof.
  unfold rcut. rewrite cut_not_in; [done|]. apply mem_false. intros Hin%list_elem_of_In%in_rev%list_elem_of_In.
  pose proof (not_in_authority 64 ltac:(lia)) as H%mem_false. done.
Qed.

Lemma authority_hostinfo sch pth q f :
  hostinfo (MkSplit sch (authority_text h p) pth q f) = (h, match p with Some n => Some (digits n) | None => None end).
Proof.
  unfold hostinfo. cbn [netloc]. rewrite authority_rcut. cbn [snd]. rewrite (cut_not_in 91) by (apply not_in_authority; lia).
  rewrite authority_eq. unfold tail_text. destruct p as [n|].
  - assert (Hc : cut 58 (h ++ u ":" ++ digits n) = (h, Some (digits n))).
    { apply cut_Some. split; [done|]. apply (list.Forall_impl _ _ _ (proj2 Hh)).
      intros c Hc. by apply host_char_facts in Hc as (_ & _ & _ & _ & ? & _). }
    rewrite Hc. pose proof (digits_nonempty n). by destruct (digits n).
  - rewrite app_nil_r. by rewrite (cut_not_in 58) by apply plain_no_colon.
Qed.

Lemma authority_hostname sch pth q f : hostname (MkSplit sch (authority_text h p) pth q f) = Some h.
Proof.
  unfold hostname. rewrite authority_hostinfo. cbn [fst]. destruct Hh as [Hne Hc]. destruct h as [|x h'] eqn:Heq; [done|].
  rewrite (cut_not_in 37); [by rewrite app_nil_r, lower_plain by (by split)|].
  apply mem_false. intros Hin. apply (proj1 (list.Forall_forall _ _) Hc) in Hin.
  by apply host_char_facts in Hin as (_ & _ & _ & ? & _).
Qed.

Lemma authority_port sch pth q f : port (MkSplit sch (authority_text h p) pth q f) = Some p.
Proof.
  unfold port. rewrite authority_hostinfo. cbn [snd]. destruct p as [n|]; [|done].
  rewrite (proj2 (List.forallb_forall is_digit (digits n))).
  - rewrite digits_parse by lia. rewrite (proj2 (Z.leb_le n 65535)) by lia. done.
  - intros x Hx. apply list_elem_of_In in Hx. by apply (proj1 (list.Forall_forall _ _) (digits_all n (proj1 Hp))).
Qed.
End Authority.

(** The request target after the authority. *)
Definition target (tail : pystr) : pystr * pystr * pystr :=
  let '(rest, frag) := cut 35 tail in
  let '(p, q) := cut 63 rest in (p, default [] q, default [] frag).

Definition target_of (r : SplitResult) : pystr * pystr * pystr := (path r, query r, fragment r).

Lemma urlsplit_inv url r :
  clean_url url = url -> urlsplit nfkc url = Some r -> netloc r <> [] ->
  exists prefix tail, scheme_prefix (scheme r) prefix /\ url = prefix ++ u "//" ++ netloc r ++ tail
    /\ span_netloc (netloc r ++ tail) = (netloc r, tail) /\ target_of r = target tail.
Proof.
  unfold urlsplit. intros ->. destruct (split_scheme url) as [sch rest] eqn:Hs.
  destruct (split_scheme_inv _ _ _ Hs) as (prefix & Hpre & ->).
  destruct (starts_with (u "//") rest) eqn:Hw.
  - destruct (span_netloc (drop 2 rest)) as [nl tail] eqn:Hsp.
    destruct (negb _); [done|]. destruct (_ && _); [done|].
    destruct (cut 35 tail) as [rest' frag] eqn:Hf. destruct (cut 63 rest') as [p q] eqn:Hq.
    destruct (netloc_ok nfkc nl); [|done]. intros [= <-] _. cbn [scheme netloc]. exists prefix, tail.
    pose proof (proj1 (span_netloc_spec _ _ _) Hsp) as (Hd & _ & _).
    apply starts_with_app in Hw. change (length (u "//")) with 2%nat in Hw. rewrite Hd in Hw, Hsp.
    split_and!; [done|by rewrite Hw|done|]. unfold target_of, target. rewrite Hf, Hq. done.
  - destruct (negb _); [done|]. destruct (_ && _); [done|]. destruct (cut 35 rest) as [rest' frag].
    destruct (cut 63 rest') as [p q]. destruct (netloc_ok nfkc []); [|done]. by intros [= <-].
Qed.

Lemma urlsplit_intro sch prefix nl tail :
  scheme_prefix sch prefix -> span_netloc (nl ++ tail) = (nl, tail) ->
  clean_url (prefix ++ u "//" ++ nl ++ tail) = prefix ++ u "//" ++ nl ++ tail ->
  mem 91 nl = false -> mem 93 nl = false -> is_ascii nl = true ->
  urlsplit nfkc (prefix ++ u "//" ++ nl ++ tail)
  = let '(p, q, f) := target tail in Some (MkSplit sch nl p q f).
Proof.
  intros Hpre Hsp Hcl H91 H93 Ha. unfold urlsplit. rewrite Hcl, (split_scheme_prefix _ _ _ Hpre).
  rewrite (proj2 (starts_with_app (u "//") (u "//" ++ nl ++ tail))) by done.
  change (drop 2 (u "//" ++ nl ++ tail)) with (nl ++ tail). rewrite Hsp, H91, H93. unfold target.
  destruct (cut 35 tail) as [rest frag]. destruct (cut 63 rest) as [p q]. unfold netloc_ok. by rewrite Ha.
Qed.

Lemma length_drop_while {A} (f : A -> bool) l : (length (drop_while f l) <= length l)%nat.
Proof. induction l as [|x l IH]; cbn; [done|]. destruct (f x); cbn; lia. Qed.

Lemma strip_head c s : c :: s = strip (c :: s) -> is_space c = false.
Proof.
  intros H. destruct (is_space c) eqn:Hc; [|done]. apply (f_equal length) in H. unfold strip in H.
  rewrite length_rev in H. cbn [drop_while] in H. rewrite Hc in H.
  pose proof (length_drop_while is_space (rev (drop_while is_space s))) as H1. rewrite length_rev in H1.
  pose proof (length_drop_while is_space s) as H2. cbn [length] in H. unfold pystr in *. lia.
Qed.

Lemma trimmed_printable s :
  s = strip s -> existsb (fun c => (c <? 32) || (c =? 127)) s = false -> printable_url s.
Proof.
  intros Hs Hc. assert (Hall : Forall (fun c => 32 <= c) s).
  { apply list.Forall_forall. intros c Hin. apply Z.nlt_ge. intros Hlt.
    apply not_true_iff_false in Hc. apply Hc, List.existsb_exists. exists c. split; [by apply list_elem_of_In|].
    apply orb_true_iff. left. by apply Z.ltb_lt. }
  split; [done|]. destruct s as [|c s]; [done|]. pose proof (strip_head c s Hs) as Hsp.
  inversion Hall as [|? ? Hge _]; subst. enough (c <> 32) by lia. intros ->. done.
Qed.

Lemma parse_int_nonneg s : forallb is_digit s = true -> 0 <= parse_int s.
Proof.
  induction s as [|c s IH] using rev_ind; [done|]. rewrite forallb_app, parse_int_snoc. intros H. bool_hyps.
  cbn [forallb] in *. bool_hyps. unfold is_digit, in_range in *. bool_hyps. specialize (IH ltac:(done)). lia.
Qed.

Lemma port_range r n : port r = Some (Some n) -> 0 <= n <= 65535.
Proof.
  unfold port. destruct (hostinfo r).2 as [p|]; [|done]. destruct (_ && _) eqn:H; [|done]. intros [= <-].
  bool_hyps. split; [by apply parse_int_nonneg|done].
Qed.

Lemma hostname_netloc r h : hostname r = Some h -> netloc r <> [].
Proof. unfold hostname, hostinfo. intros H Hn. by rewrite Hn in H. Qed.

(** What the function establishes when it returns. *)
Lemma canonical_origin_Ok url schemes curl sch host p :
  _canonical_url_origin nfkc idna_encode fold_char (Inst url) schemes = Ok (curl, sch, host, p) ->
  printable_url url /\
  exists r ohost op prefix tail,
    urlsplit nfkc url = Some r /\ port r = Some op
    /\ sch = lower (scheme r) /\ sch ∈ schemes /\ _origin_port sch op = Ok p
    /\ _canonical_origin_host idna_encode fold_char ohost = Ok host
    /\ scheme_prefix (scheme r) prefix
    /\ url = prefix ++ u "//" ++ netloc r ++ tail
    /\ span_netloc (netloc r ++ tail) = (netloc r, tail) /\ target_of r = target tail
    /\ curl = prefix ++ u "//" ++ authority_text host op ++ tail.
Proof.
  unfold _canonical_url_origin. intros H. inv_ok. bool_hyps.
  match goal with Hs : ?x = strip ?x, Hc : existsb _ ?x = false |- _ =>
    pose proof (trimmed_printable _ Hs Hc) as Hprint; rename x into s0 end.
  split; [done|]. destruct r0 as [[r oh] op]. inv_ok.
  unfold parse_authority in Hm1. destruct (urlsplit nfkc s0) as [r'|] eqn:Hsplit; [|done].
  destruct (port r') as [op'|] eqn:Hport; [|done]. injection Hm1 as -> <- ->.
  destruct (hostname r) as [h0|] eqn:Hhn; inv_ok.
  destruct (urlsplit_inv _ _ (clean_url_id _ Hprint) Hsplit (hostname_netloc _ _ Hhn)) as (prefix & tail & Hpre & Hurl & Hsp & Ht).
  rewrite Hurl, partition_slashes_spec in H.
  - injection H as <- <- <- <-. eexists r, _, op, prefix, tail. split_and!; [done|done|done| |eassumption|eassumption|done|done|done|done|].
    + by apply mem_true, negb_false_iff.
    + cbn [default]. by rewrite drop_app_length.
  - apply (list.Forall_impl _ _ _ (prefix_facts _ _ Hpre)). by intros c [? _].
Qed.

Lemma printable_replace sch prefix nl nl' tail :
  scheme_prefix sch prefix -> printable_url (prefix ++ u "//" ++ nl ++ tail) -> Forall (fun c => 32 < c) nl' ->
  printable_url (prefix ++ u "//" ++ nl' ++ tail).
Proof.
  intros Hpre [Hall _] Hnl. pose proof (prefix_facts _ _ Hpre) as Hp.
  apply Forall_app in Hall as [_ Hall]. apply Forall_app in Hall as [_ Hall]. apply Forall_app in Hall as [_ Htl].
  assert (Hge : forall l, Forall (fun c => 32 < c) l -> Forall (fun c => 32 <= c) l).
  { intros l Hl. apply (list.Forall_impl _ _ _ Hl). lia. }
  assert (Hp' : Forall (fun c => 32 < c) prefix) by (apply (list.Forall_impl _ _ _ Hp); by intros c [_ ?]).
  split.
  - apply Forall_app. split; [by apply Hge|]. apply Forall_app. split; [by repeat constructor|].
    apply Forall_app. split; [by apply Hge|done].
  - destruct prefix as [|c prefix]; [done|]. by inversion Hp'.
Qed.

Lemma origin_port_cases sch op p :
  _origin_port sch op = Ok p -> op = Some p \/ op = None /\ (sch, p) ∈ _DEFAULT_PORTS.
Proof.
  unfold _origin_port. destruct op as [n|]; [intros [= ->]; by left|]. intros H. right. split; [done|].
  destruct (List.find _ _) as [[s n]|] eqn:Hf; [|done]. injection H as ->.
  apply List.find_some in Hf as [Hin Hs]. cbn in Hs. apply bool_decide_eq_true in Hs as ->. by apply list_elem_of_In.
Qed.

(** C21. Parsers agree on a canonical URL.  If [_canonical_url_origin] accepts a
    URL whose host is no IPv6 literal, then the URL it returns splits, and a
    second parser reads from it exactly the returned scheme, host and port and
    no user information, whatever case, Unicode host or zero-padded port the
    input had; the path, query and fragment are those of the input. *)
Theorem canonical_url_reparses url schemes curl sch host p :
  _canonical_url_origin nfkc idna_encode fold_char (Inst url) schemes = Ok (curl, sch, host, p) ->
  58 ∉ host ->
  exists r r', urlsplit nfkc url = Some r /\ urlsplit nfkc curl = Some r'
    /\ scheme r' = scheme r /\ sch = lower (scheme r') /\ sch ∈ schemes
    /\ hostname r' = Some host
    /\ (port r' = Some (Some p) \/ port r' = Some None /\ (sch, p) ∈ _DEFAULT_PORTS)
    /\ username r' = None /\ password r' = None
    /\ target_of r' = target_of r.
Proof.
  intros H Hhost. destruct (canonical_origin_Ok _ _ _ _ _ _ H) as
    (Hprint & r & oh & op & prefix & tail & Hsplit & Hport & -> & Hsch & Hop & Hc & Hpre & -> & Hsp & Ht & ->).
  destruct (canonical_host_plain _ _ Hc) as [Hplain|?]; [|done].
  assert (Hr : match op with Some n => 0 <= n <= 65535 | None => True end).
  { destruct op as [n|]; [|done]. by apply (port_range r). }
  pose proof (authority_chars host op Hplain Hr) as Hch.
  assert (Hsp' : span_netloc (authority_text host op ++ tail) = (authority_text host op, tail)).
  { apply span_netloc_spec in Hsp as (_ & _ & Htl). apply span_netloc_spec. split_and!; [done| |done].
    apply (list.Forall_impl _ _ _ Hch). intros c Hx. by destruct Hx as (_ & ? & _). }
  destruct (target tail) as [[pa q] f] eqn:Htail.
  exists r, (MkSplit (scheme r) (authority_text host op) pa q f). split; [done|]. split.
  - erewrite urlsplit_intro; [by rewrite Htail|done|done| | | |].
    + apply clean_url_id. apply (printable_replace _ _ _ _ _ Hpre Hprint).
      apply (list.Forall_impl _ _ _ Hch). intros c Hx. by destruct Hx as (_ & _ & _ & _ & _ & ?).
    + apply not_in_authority; [done|done|lia].
    + apply not_in_authority; [done|done|lia].
    + unfold is_ascii. apply List.forallb_forall. intros c Hin. apply list_elem_of_In in Hin.
      apply (proj1 (list.Forall_forall _ _) Hch) in Hin as ([? ?] & _).
      unfold in_range. by rewrite (proj2 (Z.leb_le 0 c)), (proj2 (Z.leb_le c 127)).
  - cbn [scheme]. unfold username, password. cbn [netloc]. rewrite authority_rcut by done. cbn [fst].
    rewrite authority_hostname, authority_port by done. split_and!; try done.
    destruct (origin_port_cases _ _ _ Hop) as [->|[-> Hd]]; [by left|by right].
Qed.
End Canonical.

(** An encoder for ASCII names, and ASCII case folding. *)
Definition ascii_idna (h : pystr) : option pystr :=
  if negb (bool_decide (h = [])) && forallb (fun c => is_alnum c || (c =? 45) || (c =? 46)) h then Some h else None.

Lemma ascii_idna_names h n :
  ascii_idna h = Some n -> n <> [] /\ Forall (fun c => is_alnum c = true \/ c = 45 \/ c = 46) n.
Proof.
  unfold ascii_idna. destruct (_ && _) eqn:H; [|done]. intros [= <-]. bool_hyps. split; [done|].
  apply list.Forall_forall. intros c Hc%list_elem_of_In. rewrite List.forallb_forall in H0.
  specialize (H0 c Hc). rewrite !orb_true_iff, !Z.eqb_eq in H0. tauto.
Qed.

Lemma canonical_url_reparses_witness :
  exists r', urlsplit (fun s => s) (u "https://example.com:443/a//b?c#d") = Some r'
    /\ hostname r' = Some (u "example.com") /\ username r' = None.
Proof.
  destruct (canonical_url_reparses (fun s => s) ascii_idna (fun c => [lower_ascii_char c])
    (fun c _ => eq_refl) ascii_idna_names (u "https://Example.COM:0443/a//b?c#d") [u "http"; u "https"]
    (u "https://example.com:443/a//b?c#d") (u "https") (u "example.com") 443)
    as (r & r' & _ & H1 & _ & _ & _ & H2 & _ & H3 & _).
  - vm_compute. reflexivity.
  - vm_compute. intros H. repeat (apply list.elem_of_cons in H as [H|H]; [discriminate H|]). by apply not_elem_of_nil in H.
  - exists r'. split; [exact H1|]. split; [exact H2|exact H3].
Defined.
