(* ===== verification/KeySalt.v ===== *)
(** * Passphrase salt files ([kestrel_sdk/security/encryption.py])

    The salt of a key-file passphrase lives in one file next to the key file.
    Several processes, each with several threads, may start at once and any
    system call may fail; a process may die, and the host may crash and lose
    what was not synced.  A step is one system call; the environment says how
    it ends. *)

From stdpp Require Import gmap.
From S2P Require Export Aead.

Definition PASSPHRASE_SALT_SIZE : Z := 32.

(** ** Salt texts *)

Definition _decode_passphrase_salt (encoded : pystr) : res (list Z) :=
  let err := ValueError "must contain a base64-encoded 32-byte salt" in
  if is_ascii encoded then
    match b64decode false encoded with
    | Some salt => _ ← raise_if (negb (len salt =? PASSPHRASE_SALT_SIZE)) err; Ok salt
    | None => Raise err
    end
  else Raise err.

(** [read_text(encoding="utf-8").strip()], decoded: bytes that are no UTF-8 or
    no ASCII text end in a [ValueError] either way. *)
Definition decode_salt_file (data : list Z) : res (list Z) :=
  if is_ascii data then _decode_passphrase_salt (strip data)
  else Raise (ValueError "must contain a base64-encoded 32-byte salt").

(** [key_file.with_name(key_file.name + ".salt")] *)
Definition _key_file_salt_path (key_file : pystr) : pystr := key_file ++ u ".salt".

(** ** The directory of the key file *)

Inductive fname : Type := SaltFile | TempFile (token : pystr).

#[global] Instance fname_eq_dec : EqDecision fname.
Proof. solve_decision. Defined.

#[global] Instance fname_countable : Countable fname.
Proof.
  apply (inj_countable' (fun n => match n with SaltFile => None | TempFile t => Some t end)
           (fun o => match o with None => SaltFile | Some t => TempFile t end)). by intros [].
Defined.

Record inode := MkInode { i_data : list Z; i_synced : bool }.

(** Names and inodes as processes see them, and the names on stable storage. *)
Record fs := MkFs {
  fs_inodes : gmap positive inode;
  fs_dir : gmap fname positive;
  fs_durable : gmap fname positive;
  fs_next : positive
}.

Definition salt_file (d : fs) : option inode := i ← fs_dir d !! SaltFile; fs_inodes d !! i.

Definition set_inode (d : fs) (i : positive) (n : inode) : fs :=
  MkFs (<[i := n]> (fs_inodes d)) (fs_dir d) (fs_durable d) (fs_next d).
Definition set_dir (d : fs) (dir : gmap fname positive) : fs := MkFs (fs_inodes d) dir (fs_durable d) (fs_next d).

(** [os.open(tmp_path, O_CREAT | O_EXCL | O_WRONLY)] *)
Definition create (d : fs) (tmp : fname) : fs * positive :=
  (MkFs (<[fs_next d := MkInode [] false]> (fs_inodes d)) (<[tmp := fs_next d]> (fs_dir d)) (fs_durable d)
     (Pos.succ (fs_next d)), fs_next d).

Definition fsync_file (d : fs) (i : positive) : fs :=
  match fs_inodes d !! i with Some n => set_inode d i (MkInode (i_data n) true) | None => d end.

Definition sync_directory (d : fs) : fs := MkFs (fs_inodes d) (fs_dir d) (fs_dir d) (fs_next d).

(** The disk after a host crash: each name is as processes saw it if [keep]
    says so, as it was last synced otherwise, and data never synced may be
    anything. *)
Definition crash (d : fs) (keep : fname -> bool) (garbage : positive -> list Z) : fs :=
  let dir := map_imap (fun n i => if keep n then Some i else None) (fs_dir d)
             ∪ map_imap (fun n i => if keep n then None else Some i) (fs_durable d) in
  MkFs (map_imap (fun i n => Some (if i_synced n then n else MkInode (garbage i) true)) (fs_inodes d))
    dir dir (fs_next d).

(** ** One call of [_load_or_create_key_file_salt] *)

(** Where a call is: before the temporary file is opened, written, synced,
    linked or removed; before the salt file is read; before the directory is
    synced. *)
Inductive pc : Type :=
| Creating (salt : list Z)
| Writing (tmp : pystr) (i : positive) (salt : list Z)
| Fsyncing (tmp : pystr) (i : positive)
| Linking (tmp : pystr) (i : positive)
| Removing (tmp : pystr) (raised : option exn)
| Loading
| Observed (salt : list Z)
| Returned (r : res (list Z)).

Definition refuse (e : exn) (m : string) : exn := if is_OSError e then KeyFileSaltUnavailableError m else e.

(** The handlers around [_publish_salt_file]. *)
Definition publish_failed (e : exn) : pc :=
  match e with
  | FileExistsError _ => Loading
  | _ => Returned (Raise (refuse e "salt file does not exist and could not be created"))
  end.

Definition _load_passphrase_salt_file (d : fs) (fault : option exn) : res (list Z) :=
  match salt_file d with
  | None => Raise (MasterKeyNotConfiguredError "salt file does not exist")
  | Some n => match fault with Some e => Raise e | None => decode_salt_file (i_data n) end
  end.

Definition _load_existing_key_file_salt (d : fs) (fault : option exn) : res (option (list Z)) :=
  match salt_file d with
  | None => Ok None
  | Some _ => s ← _load_passphrase_salt_file d fault; Ok (Some s)
  end.

Section Platform.
(** [os.name == "nt"] *)
Variable windows : bool.

Definition _fsync_directory (d : fs) (fault : option exn) : res fs :=
  if windows then Ok d
  else match fault with Some e => Raise e | None => Ok (sync_directory d) end.

(** [_make_key_file_salt_durable] with [_DURABLE_KEY_FILE_SALTS]. *)
Definition _make_key_file_salt_durable (d : fs) (cache : gset (list Z)) (salt : list Z) (fault : option exn)
    : fs * gset (list Z) * pc :=
  if decide (salt ∈ cache) then (d, cache, Returned (Ok salt))
  else match _fsync_directory d fault with
       | Ok d' => (d', {[salt]} ∪ cache, Returned (Ok salt))
       | Raise e => (d, cache, Returned (Raise (refuse e "Could not sync directory")))
       end.

(** [_remove_temp_salt_file], and what leaves the [finally]. *)
Definition _remove_temp_salt_file (d : fs) (tmp : pystr) (raised fault : option exn) : fs * pc :=
  let after := match raised with Some e => publish_failed e | None => Loading end in
  match fault with
  | Some e => if is_OSError e then (d, after) else (d, publish_failed e)
  | None => (set_dir d (delete (TempFile tmp) (fs_dir d)), after)
  end.

(** The next system call of a call at [c]: [token] names its temporary file,
    [partial] is what a failed write left.  [None] for an answer the file
    system cannot give. *)
Definition advance (d : fs) (cache : gset (list Z)) (c : pc) (token : pystr) (fault : option exn)
    (partial : list Z) : option (fs * gset (list Z) * pc) :=
  match c with
  | Creating salt =>
      match fault with
      | Some e => Some (d, cache, publish_failed e)
      | None =>
          match fs_dir d !! TempFile token with
          | Some _ => None
          | None => let '(d', i) := create d (TempFile token) in Some (d', cache, Writing token i salt)
          end
      end
  | Writing tmp i salt =>
      match fault with
      | Some e => Some (set_inode d i (MkInode partial false), cache, Removing tmp (Some e))
      | None => Some (set_inode d i (MkInode (urlsafe_b64encode salt) false), cache, Fsyncing tmp i)
      end
  | Fsyncing tmp i =>
      match fault with
      | Some e => Some (d, cache, Removing tmp (Some e))
      | None => Some (fsync_file d i, cache, Linking tmp i)
      end
  | Linking tmp i =>
      match fault with
      | Some e => Some (d, cache, Removing tmp (Some e))
      | None =>
          match fs_dir d !! SaltFile with
          | Some _ => None
          | None => Some (set_dir d (<[SaltFile := i]> (fs_dir d)), cache, Removing tmp None)
          end
      end
  | Removing tmp raised =>
      let '(d', c') := _remove_temp_salt_file d tmp raised fault in Some (d', cache, c')
  | Loading =>
      match _load_passphrase_salt_file d fault with
      | Ok s => Some (d, cache, Observed s)
      | Raise e => Some (d, cache, Returned (Raise e))
      end
  | Observed salt => Some (_make_key_file_salt_durable d cache salt fault)
  | Returned _ => None
  end.

(** The first test of [_load_or_create_key_file_salt]; [random] is [os.urandom(32)]. *)
Definition begin_load (d : fs) (random : list Z) (fault : option exn) : pc :=
  match fault with
  | Some e => Returned (Raise e)
  | None => match fs_dir d !! SaltFile with Some _ => Loading | None => Creating random end
  end.

(** ** The host *)

(** The disk, the calls with the process each runs in, and each process's
    [_DURABLE_KEY_FILE_SALTS]. *)
Record host := MkHost {
  h_fs : fs;
  h_calls : gmap positive (positive * pc);
  h_caches : gmap positive (gset (list Z))
}.

Inductive event : Type :=
| Call (t p : positive) (random : list Z) (fault : option exn)
| Act (t : positive) (token : pystr) (fault : option exn) (partial : list Z)
| Die (p : positive)
| Crash (keep : fname -> bool) (garbage : positive -> list Z).

Definition cache_of (h : host) (p : positive) : gset (list Z) := default ∅ (h_caches h !! p).

Definition step (h : host) (e : event) : option host :=
  match e with
  | Call t p random fault =>
      match h_calls h !! t with
      | Some _ => None
      | None => Some (MkHost (h_fs h) (<[t := (p, begin_load (h_fs h) random fault)]> (h_calls h)) (h_caches h))
      end
  | Act t token fault partial =>
      match h_calls h !! t with
      | None => None
      | Some (p, c) =>
          '(d, cache, c') ← advance (h_fs h) (cache_of h p) c token fault partial;
          Some (MkHost d (<[t := (p, c')]> (h_calls h)) (<[p := cache]> (h_caches h)))
      end
  | Die p =>
      Some (MkHost (h_fs h) (base.filter (fun c : positive * (positive * pc) => c.2.1 <> p) (h_calls h))
              (delete p (h_caches h)))
  | Crash keep garbage => Some (MkHost (crash (h_fs h) keep garbage) ∅ ∅)
  end.

Fixpoint run (h : host) (es : list event) : option host :=
  match es with
  | [] => Some h
  | e :: es' => h' ← step h e; run h' es'
  end.
End Platform.

(** A salt from [os.urandom]. *)
Definition salt_ok (s : list Z) : Prop := bytes_ok s /\ len s = PASSPHRASE_SALT_SIZE.

Definition event_ok (e : event) : Prop := match e with Call _ _ random _ => salt_ok random | _ => True end.

(** A host that starts with a disk whose salt file, if any, is durable. *)
Definition booted (d : fs) : host := MkHost d ∅ ∅.

Definition clean_disk (d : fs) : Prop :=
  (forall n i, fs_dir d !! n = Some i -> (i < fs_next d)%positive)
  /\ fs_durable d = fs_dir d
  /\ (forall i, fs_dir d !! SaltFile = Some i -> exists n, fs_inodes d !! i = Some n /\ i_synced n = true).
