(* ===== verification/KeySaltProps.v ===== *)
(** * Passphrase salt files: theorems

    The invariant of a host whose processes race to publish a salt, and what
    it gives: a salt once returned for writing is on stable storage for good. *)

From stdpp Require Import gmap.
From S2P Require Export ValidationProps AeadProps KeySalt.

(** ** What a call may rely on *)

(** The salt file holds [s]. *)
Definition holds_salt (d : fs) (s : list Z) : Prop := exists n, salt_file d = Some n /\ decode_salt_file (i_data n) = Ok s.

(** And neither a crash nor a reboot loses it. *)
Definition settled (d : fs) (s : list Z) : Prop :=
  exists i n, fs_dir d !! SaltFile = Some i /\ fs_durable d !! SaltFile = Some i
    /\ fs_inodes d !! i = Some n /\ i_synced n = true /\ decode_salt_file (i_data n) = Ok s.

Lemma settled_holds d s : settled d s -> holds_salt d s.
Proof. intros (i & n & H1 & _ & H3 & _ & H5). exists n. unfold salt_file. by rewrite H1. Qed.

Lemma holds_agree d s s' : holds_salt d s -> holds_salt d s' -> s = s'.
Proof. intros (n & H1 & H2) (n' & H1' & H2'). rewrite H1 in H1'. injection H1' as <-. congruence. Qed.

(** The inode a call is still writing. *)
Definition own (c : pc) : option positive :=
  match c with Writing _ i _ | Fsyncing _ i | Linking _ i => Some i | _ => None end.

Definition private (d : fs) (i : positive) : Prop :=
  is_Some (fs_inodes d !! i) /\ (i < fs_next d)%positive /\ fs_dir d !! SaltFile <> Some i.

Definition call_ok (d : fs) (c : pc) : Prop :=
  match c with
  | Writing _ i _ | Fsyncing _ i => private d i
  | Linking _ i => private d i /\ exists n, fs_inodes d !! i = Some n /\ i_synced n = true
  | Observed s => holds_salt d s
  | Returned (Ok s) => settled d s
  | _ => True
  end.

Definition disk_ok (d : fs) : Prop :=
  (forall n i, fs_dir d !! n = Some i \/ fs_durable d !! n = Some i -> (i < fs_next d)%positive)
  /\ (forall i, fs_durable d !! SaltFile = Some i -> fs_dir d !! SaltFile = Some i)
  /\ (forall i, fs_dir d !! SaltFile = Some i -> exists n, fs_inodes d !! i = Some n /\ i_synced n = true).

(** Between crashes the salt file only appears, and keeps its contents. *)
Definition extends (d d' : fs) : Prop :=
  (fs_next d <= fs_next d')%positive
  /\ (forall i, fs_dir d !! SaltFile = Some i -> fs_dir d' !! SaltFile = Some i /\ fs_inodes d' !! i = fs_inodes d !! i)
  /\ (forall i, fs_durable d !! SaltFile = Some i -> fs_dir d !! SaltFile = Some i -> fs_durable d' !! SaltFile = Some i).

(** Nothing happens to an inode that another call still writes. *)
Definition leaves_alone (d d' : fs) (j : positive) : Prop :=
  fs_inodes d' !! j = fs_inodes d !! j /\ fs_dir d' !! SaltFile <> Some j.

Lemma extends_refl d : extends d d.
Proof. split; [lia|]. by split. Qed.

Lemma holds_extends d d' s : extends d d' -> holds_salt d s -> holds_salt d' s.
Proof.
  intros (_ & He & _) (n & Hn & Hs). exists n. split; [|done]. unfold salt_file in *.
  destruct (fs_dir d !! SaltFile) as [i|] eqn:Hi; [|done]. cbn in Hn. destruct (He i eq_refl) as [-> H2].
  cbn. by rewrite H2.
Qed.

Lemma settled_extends d d' s : extends d d' -> settled d s -> settled d' s.
Proof.
  intros (_ & He & Hd) (i & n & H1 & H2 & H3 & H4). destruct (He i H1) as [H1' H3'].
  exists i, n. split; [done|]. split; [by apply Hd|]. by rewrite H3'.
Qed.

Lemma call_ok_extends d d' c :
  extends d d' -> (forall j, own c = Some j -> private d j -> leaves_alone d d' j) -> call_ok d c -> call_ok d' c.
Proof.
  intros He Hl. pose proof He as (Hn & _ & _).
  assert (Hp : forall j, own c = Some j -> private d j -> private d' j).
  { intros j Hj Hp. destruct (Hl j Hj Hp) as [H1 H2]. destruct Hp as (H3 & H4 & H5).
    split; [by rewrite H1|]. split; [lia|done]. }
  destruct c as [s|t i s|t i|t i|t r| |s|[s|e]]; cbn in *; try done.
  - intros. by apply Hp.
  - intros. by apply Hp.
  - intros [H1 (n & H2 & H3)]. split; [by apply Hp|]. exists n. destruct (Hl i eq_refl H1) as [-> _]. done.
  - by apply holds_extends.
  - by apply settled_extends.
Qed.

(** ** One system call *)

Lemma publish_failed_ok d e : call_ok d (publish_failed e).
Proof. by destruct e. Qed.

Lemma publish_failed_own e : own (publish_failed e) = None.
Proof. by destruct e. Qed.

#[local] Hint Resolve extends_refl publish_failed_ok : core.

(** What [advance] guarantees to its own call and to the others. *)
Definition good_step (d : fs) (cache : gset (list Z)) (c : pc) (r : fs * gset (list Z) * pc) : Prop :=
  let '(d', cache', c') := r in
  disk_ok d' /\ extends d d' /\ call_ok d' c' /\ (forall s, s ∈ cache' -> settled d' s)
  /\ (forall j, own c <> Some j -> private d j -> leaves_alone d d' j)
  /\ (forall j, own c' = Some j -> own c = Some j \/ (fs_next d <= j)%positive).

(** A step that does not touch the disk. *)
Lemma good_step_pure d cache c c' :
  disk_ok d -> (forall s, s ∈ cache -> settled d s) -> call_ok d c' -> own c' = None -> good_step d cache c (d, cache, c').
Proof.
  intros Hd Hc Hok Ho. split_and!; [done|done|done|done| |by rewrite Ho].
  by intros j _ (_ & _ & Hp).
Qed.

Lemma good_create d cache salt token :
  disk_ok d -> (forall s, s ∈ cache -> settled d s) ->
  good_step d cache (Creating salt)
    (let '(d', i) := create d (TempFile token) in (d', cache, Writing token i salt)).
Proof.
  intros (Hn & Hdur & Hsalt) Hc. set (d' := (create d (TempFile token)).1).
  change (good_step d cache (Creating salt) (d', cache, Writing token (fs_next d) salt)).
  assert (Hdir : fs_dir d' !! SaltFile = fs_dir d !! SaltFile) by (cbn; by rewrite lookup_insert_ne).
  assert (Hino : forall j, (j < fs_next d)%positive -> fs_inodes d' !! j = fs_inodes d !! j).
  { intros j Hj. cbn. rewrite lookup_insert_ne; [done|lia]. }
  assert (He : extends d d').
  { split; [cbn; lia|]. split; [|done]. intros i Hi. rewrite Hdir. split; [done|]. apply Hino, (Hn SaltFile). by left. }
  split; [split; [|split]|split; [done|split; [split|split; [|split]]]].
  - intros n i. cbn. intros [H|H]; [|assert (i < fs_next d)%positive by eauto; lia].
    apply lookup_insert_Some in H as [[_ <-]|[_ H]]; [lia|]. assert (i < fs_next d)%positive by eauto. lia.
  - intros i Hi. rewrite Hdir. by apply Hdur.
  - intros i. rewrite Hdir. intros Hi. rewrite Hino by eauto. by apply Hsalt.
  - cbn. rewrite lookup_insert_eq. by eexists.
  - split; [cbn; lia|]. rewrite Hdir. intros Hi. assert (fs_next d < fs_next d)%positive by (apply (Hn SaltFile); by left). lia.
  - intros s Hs. by eapply settled_extends; [|apply Hc].
  - intros j _ (_ & H1 & H2). split; [by apply Hino|by rewrite Hdir].
  - intros j [= <-]. right. lia.
Qed.

(** Writing to, or syncing, the call's own inode. *)
Lemma good_set_inode d cache c c' i n :
  disk_ok d -> (forall s, s ∈ cache -> settled d s) -> own c = Some i -> private d i ->
  (forall j, own c' = Some j -> i = j) -> call_ok (set_inode d i n) c' ->
  good_step d cache c (set_inode d i n, cache, c').
Proof.
  intros (Hn & Hdur & Hsalt) Hc Ho (_ & Hi & Hs) Ho' Hok.
  assert (Hino : forall j, fs_dir d !! SaltFile = Some j -> fs_inodes (set_inode d i n) !! j = fs_inodes d !! j).
  { intros j Hj. cbn. apply lookup_insert_ne. congruence. }
  assert (He : extends d (set_inode d i n)) by (split; [cbn; lia|]; split; [|done]; intros j Hj; split; [done|by apply Hino]).
  split; [split; [done|split; [done|]]|split; [done|split; [done|split; [|split]]]].
  - intros j Hj. cbn in Hj. rewrite Hino by done. by apply Hsalt.
  - intros s Hin. by eapply settled_extends; [|apply Hc].
  - intros j Hj (_ & _ & Hp). split; [cbn; apply lookup_insert_ne; congruence|done].
  - intros j Hj. left. by rewrite Ho, (Ho' j Hj).
Qed.

(** Changing the directory: linking the salt, removing a temporary file. *)
Lemma good_set_dir d cache c c' dir :
  disk_ok d -> (forall s, s ∈ cache -> settled d s) -> own c' = None -> call_ok (set_dir d dir) c' ->
  (forall i, fs_dir d !! SaltFile = Some i -> dir !! SaltFile = Some i) ->
  (forall n i, dir !! n = Some i -> fs_dir d !! n = Some i \/ own c = Some i /\ (i < fs_next d)%positive) ->
  (forall i, dir !! SaltFile = Some i -> exists n, fs_inodes d !! i = Some n /\ i_synced n = true) ->
  good_step d cache c (set_dir d dir, cache, c').
Proof.
  intros (Hn & Hdur & Hsalt) Hc Ho Hok Hkeep Hnew Hsync.
  assert (He : extends d (set_dir d dir)) by (split; [cbn; lia|]; split; [|done]; intros j Hj; split; [by apply Hkeep|done]).
  split; [split; [|split]|split; [done|split; [done|split; [|split]]]].
  - intros n i [H|H]; [|by apply (Hn n); right]. cbn in H. destruct (Hnew n i H) as [H'|[_ H']]; [by apply (Hn n); left|done].
  - intros i Hi. by apply Hkeep, Hdur.
  - apply Hsync.
  - intros s Hs. by eapply settled_extends; [|apply Hc].
  - intros j Hj (_ & _ & Hp). split; [done|]. cbn. intros H. by destruct (Hnew _ _ H) as [H'|[H' _]].
  - by rewrite Ho.
Qed.

Lemma good_sync d cache c s :
  disk_ok d -> (forall s, s ∈ cache -> settled d s) -> holds_salt d s ->
  good_step d cache c (sync_directory d, {[s]} ∪ cache, Returned (Ok s)).
Proof.
  intros (Hn & Hdur & Hsalt) Hc (n & Hf & Hs).
  assert (He : extends d (sync_directory d)) by (split; [cbn; lia|]; by split).
  assert (Hset : settled (sync_directory d) s).
  { unfold salt_file in Hf. destruct (fs_dir d !! SaltFile) as [i|] eqn:Hi; [|done]. cbn in Hf.
    destruct (Hsalt i eq_refl) as (n' & Hn' & Hsy). rewrite Hf in Hn'. injection Hn' as <-. by exists i, n. }
  split; [split; [|split]|split; [done|split; [done|split; [|split]]]].
  - intros m i [H|H]; apply (Hn m); by left.
  - done.
  - apply Hsalt.
  - intros s' [->%elem_of_singleton|Hin]%elem_of_union; [done|]. by eapply settled_extends; [|apply Hc].
  - by intros j _ (_ & _ & Hp).
  - done.
Qed.

Lemma advance_good d cache c token fault partial r :
  disk_ok d -> call_ok d c -> (forall s, s ∈ cache -> settled d s) ->
  advance false d cache c token fault partial = Some r -> good_step d cache c r.
Proof.
  intros Hd Hok Hc. pose proof Hd as (Hn & _ & Hsalt).
  destruct c as [salt|tmp i salt|tmp i|tmp i|tmp raised| |salt|o]; cbn [advance].
  - destruct fault as [e|]; [intros [= <-]; apply good_step_pure; auto; apply publish_failed_own|].
    destruct (fs_dir d !! TempFile token); [done|]. intros [= <-]. by apply good_create.
  - assert (Hp : forall n, private (set_inode d i n) i).
    { intros n. destruct Hok as (_ & H1 & H2). split; [cbn; rewrite lookup_insert_eq; by eexists|by split]. }
    destruct fault as [e|]; intros [= <-]; apply (good_set_inode _ _ _ _ i); try done; [|apply Hp].
    by intros j [= <-].
  - destruct fault as [e|]; intros [= <-]; [by apply good_step_pure|].
    destruct Hok as ([n Hi] & H1 & H2). unfold fsync_file. rewrite Hi.
    apply (good_set_inode _ _ _ _ i); [done|done|done| | |].
    { split; [by exists n|done]. }
    { intros j Hj. by injection Hj. }
    split; [split; [cbn; rewrite lookup_insert_eq; by eexists|by split]|].
    eexists. cbn. by rewrite lookup_insert_eq.
  - destruct fault as [e|]; [intros [= <-]; by apply good_step_pure|].
    destruct (fs_dir d !! SaltFile) eqn:Hs; [done|]. intros [= <-]. destruct Hok as [(_ & Hi & _) Hsy].
    apply good_set_dir; try done.
    + intros j. by rewrite Hs.
    + intros m j [[<- <-]|[_ ?]]%lookup_insert_Some; [by right|by left].
    + intros j. rewrite lookup_insert_eq. by intros [= <-].
  - unfold _remove_temp_salt_file.
    set (after := match raised with Some e => publish_failed e | None => Loading end).
    assert (Ha : own after = None) by (unfold after; destruct raised; [apply publish_failed_own|done]).
    assert (Hak : forall d, call_ok d after) by (intros; unfold after; destruct raised; [apply publish_failed_ok|done]).
    destruct fault as [e|];
      [destruct (is_OSError e); intros [= <-]; apply good_step_pure; auto; apply publish_failed_own|].
    intros [= <-]. apply good_set_dir; try done.
    + intros j Hj. by rewrite lookup_delete_ne.
    + intros m j [_ ?]%lookup_delete_Some. by left.
    + intros j. rewrite lookup_delete_ne by done. apply Hsalt.
  - unfold _load_passphrase_salt_file. destruct (salt_file d) as [n|] eqn:Hf; [|intros [= <-]; by apply good_step_pure].
    destruct fault as [e|]; [intros [= <-]; by apply good_step_pure|].
    destruct (decode_salt_file (i_data n)) as [s|e] eqn:He; intros [= <-]; apply good_step_pure; try done. by exists n.
  - intros [= <-]. unfold _make_key_file_salt_durable. destruct (decide (salt ∈ cache)) as [Hin|Hin].
    + apply good_step_pure; try done. by apply Hc.
    + destruct fault as [e|]; cbn [_fsync_directory]; [by apply good_step_pure|by apply good_sync].
  - done.
Qed.

(** ** The host *)

Definition inv (h : host) : Prop :=
  disk_ok (h_fs h)
  /\ (forall t p c, h_calls h !! t = Some (p, c) -> call_ok (h_fs h) c)
  /\ (forall t t' p p' c c' i, h_calls h !! t = Some (p, c) -> h_calls h !! t' = Some (p', c') ->
        own c = Some i -> own c' = Some i -> t = t')
  /\ (forall p s, s ∈ cache_of h p -> settled (h_fs h) s).

Lemma inv_booted d : clean_disk d -> inv (booted d).
Proof.
  intros (H1 & H2 & H3). split; [|split; [|split]].
  - split; [|split; [|done]]; cbn.
    + intros n i. rewrite H2. intros [H|H]; eauto.
    + intros i. by rewrite H2.
  - by intros t p c.
  - by intros t t' p p' c c' i.
  - by intros p s.
Qed.

Lemma begin_load_ok d random fault : own (begin_load d random fault) = None /\ call_ok d (begin_load d random fault).
Proof. unfold begin_load. destruct fault; [done|]. by destruct (fs_dir d !! SaltFile). Qed.

Lemma own_bound h t p c i : inv h -> h_calls h !! t = Some (p, c) -> own c = Some i -> private (h_fs h) i.
Proof.
  intros (_ & Hc & _) Ht Ho. specialize (Hc t p c Ht). destruct c; try done; injection Ho as <-; try done. by destruct Hc.
Qed.

Lemma inv_call h t p random fault h' :
  inv h -> step false h (Call t p random fault) = Some h' -> inv h'.
Proof.
  intros (H1 & H2 & H3 & H4). cbn [step]. destruct (h_calls h !! t) eqn:Ht; [done|]. intros [= <-].
  destruct (begin_load_ok (h_fs h) random fault) as [Ho Hk]. split; [done|]. split; [|split; [|done]]; cbn.
  - intros t' p' c' [[<- [= <- <-]]|[_ H]]%lookup_insert_Some; [done|by eapply H2].
  - intros u u' q q' c c' i [[<- [= <- <-]]|[_ H]]%lookup_insert_Some; [by rewrite Ho|].
    intros [[<- [= <- <-]]|[_ H']]%lookup_insert_Some; [by rewrite Ho|by eapply H3].
Qed.

Lemma inv_act h t token fault partial h' :
  inv h -> step false h (Act t token fault partial) = Some h' -> inv h'.
Proof.
  intros Hinv. pose proof Hinv as (H1 & H2 & H3 & H4). cbn [step].
  destruct (h_calls h !! t) as [[p c]|] eqn:Ht; [|done].
  destruct (advance _ _ _ c token fault partial) as [[[d cache] c']|] eqn:Ha; [|done]. cbn. intros [= <-].
  apply advance_good in Ha; [|done|by eapply H2|by apply H4]. destruct Ha as (G1 & G2 & G3 & G4 & G5 & G6).
  assert (Hother : forall u q c0 j, h_calls h !! u = Some (q, c0) -> u <> t -> own c0 = Some j -> own c <> Some j).
  { intros u q c0 j Hu Hne Hj Hc. apply Hne. by eapply H3. }
  split; [done|]. split; [|split]; cbn.
  - intros u q c0 [[<- [= <- <-]]|[Hne Hu]]%lookup_insert_Some; [done|].
    apply (call_ok_extends (h_fs h)); [done| |by eapply H2].
    intros j Hj Hp. apply G5; [by eapply Hother|done].
  - assert (Hnew : forall u q c0 j, h_calls h !! u = Some (q, c0) -> u <> t -> own c0 = Some j -> own c' <> Some j).
    { intros u q c0 j Hu Hne Hj Hc. destruct (G6 j Hc) as [Hc'|Hc']; [by eapply Hother|].
      destruct (own_bound h u q c0 j Hinv Hu Hj) as (_ & Hlt & _). lia. }
    intros u u' q q' c0 c0' j [[<- [= <- <-]]|[Hne Hu]]%lookup_insert_Some
      [[<- [= <- <-]]|[Hne' Hu']]%lookup_insert_Some Hj Hj'; [done| | |by eapply H3].
    + exfalso. by eapply Hnew.
    + exfalso. by eapply Hnew.
  - intros q s. unfold cache_of. cbn. destruct (decide (p = q)) as [->|Hne].
    + rewrite lookup_insert_eq. apply G4.
    + rewrite lookup_insert_ne by done. intros Hs. by eapply settled_extends; [|eapply (H4 q)].
Qed.

(** What a crash leaves at the name of the salt file. *)
Lemma crash_salt d keep garbage :
  disk_ok d ->
  fs_dir (crash d keep garbage) !! SaltFile
  = if keep SaltFile then fs_dir d !! SaltFile else fs_durable d !! SaltFile.
Proof.
  intros (_ & Hdur & _). unfold crash; cbn [fs_dir]. rewrite lookup_union, !map_lookup_imap.
  destruct (fs_dir d !! SaltFile) as [i|] eqn:Hd, (fs_durable d !! SaltFile) as [j|] eqn:Hj, (keep SaltFile); try done;
    cbn; by specialize (Hdur j eq_refl).
Qed.

Lemma crash_inode d keep garbage i n :
  fs_inodes d !! i = Some n -> i_synced n = true -> fs_inodes (crash d keep garbage) !! i = Some n.
Proof. intros Hi Hs. cbn. rewrite map_lookup_imap, Hi. cbn. by rewrite Hs. Qed.

Lemma crash_settled d keep garbage s : disk_ok d -> settled d s -> settled (crash d keep garbage) s.
Proof.
  intros Hd (i & n & H1 & H2 & H3 & H4 & H5). exists i, n.
  assert (Hs : fs_dir (crash d keep garbage) !! SaltFile = Some i).
  { rewrite crash_salt by done. by destruct (keep SaltFile). }
  split_and!; [done|exact Hs|by apply crash_inode|done|done].
Qed.

Lemma inv_crash h keep garbage : inv h -> inv (MkHost (crash (h_fs h) keep garbage) ∅ ∅).
Proof.
  intros (H1 & _). split; [|split; [|split]]; cbn; try done.
  pose proof H1 as (Hn & Hdur & Hsalt). split; [|split].
  - intros n i Hi. assert (Hi' : fs_dir (crash (h_fs h) keep garbage) !! n = Some i) by (destruct Hi; done).
    cbn in Hi'. apply lookup_union_Some_raw in Hi' as [Hi'|[_ Hi']]; rewrite map_lookup_imap in Hi'; cbn.
    + destruct (fs_dir (h_fs h) !! n) as [j|] eqn:Hj; [|done]. cbn in Hi'. destruct (keep n); [|done].
      injection Hi' as <-. apply (Hn n). by left.
    + destruct (fs_durable (h_fs h) !! n) as [j|] eqn:Hj; [|done]. cbn in Hi'. destruct (keep n); [done|].
      injection Hi' as <-. apply (Hn n). by right.
  - done.
  - intros i. rewrite crash_salt by done. intros Hi.
    assert (Hi' : fs_dir (h_fs h) !! SaltFile = Some i) by (destruct (keep SaltFile); [done|by apply Hdur]).
    destruct (Hsalt i Hi') as (n & Hin & Hs). exists n. split; [by apply crash_inode|done].
Qed.

Lemma inv_step h e h' : inv h -> step false h e = Some h' -> inv h'.
Proof.
  intros Hinv. destruct e as [t p random fault|t token fault partial|p|keep garbage].
  - by apply inv_call.
  - by apply inv_act.
  - destruct Hinv as (H1 & H2 & H3 & H4). intros [= <-]. split; [done|]. split; [|split]; cbn.
    + intros t q c [H _]%map_lookup_filter_Some. by eapply H2.
    + intros t t' q q' c c' i [H _]%map_lookup_filter_Some [H' _]%map_lookup_filter_Some. by eapply H3.
    + intros q s. unfold cache_of; cbn. destruct (decide (p = q)) as [->|Hne].
      * rewrite lookup_delete_eq. done.
      * rewrite lookup_delete_ne by done. apply H4.
  - intros [= <-]. by apply inv_crash.
Qed.

Lemma inv_run h es h' : inv h -> run false h es = Some h' -> inv h'.
Proof.
  revert h; induction es as [|e es IH]; intros h Hinv; cbn; [by intros [= <-]|].
  destruct (step false h e) as [h1|] eqn:He; [|done]. cbn. apply IH. by eapply inv_step.
Qed.

(** A settled salt survives every step, a crash included. *)
Lemma settled_run h es h' s : inv h -> run false h es = Some h' -> settled (h_fs h) s -> settled (h_fs h') s.
Proof.
  revert h; induction es as [|e es IH]; intros h Hinv; cbn; [by intros [= <-]|].
  destruct (step false h e) as [h1|] eqn:He; [|done]. cbn. intros Hr Hs.
  apply (IH h1); [by eapply inv_step|done|]. revert He.
  destruct e as [t p random fault|t token fault partial|p|keep garbage]; cbn [step].
  - destruct (h_calls h !! t); [done|]. by intros [= <-].
  - pose proof Hinv as (H1 & H2 & H3 & H4). destruct (h_calls h !! t) as [[p c]|] eqn:Ht; [|done].
    destruct (advance _ _ _ c token fault partial) as [[[d cache] c']|] eqn:Ha; [|done]. cbn. intros [= <-].
    apply advance_good in Ha; [|done|by eapply H2|by apply H4]. destruct Ha as (_ & G2 & _). by eapply settled_extends.
  - by intros [= <-].
  - intros [= <-]. apply crash_settled; [apply Hinv|done].
Qed.

Lemma settled_load d s : settled d s -> _load_existing_key_file_salt d None = Ok (Some s).
Proof.
  intros (n & Hn & Hs)%settled_holds. unfold _load_existing_key_file_salt, _load_passphrase_salt_file.
  rewrite Hn. cbn [mbind result_bind]. by rewrite Hs.
Qed.

(** C2. No ciphertext is stranded, on a host other than Windows - where
    [_fsync_directory] does sync the directory - whose disk starts with no salt
    file or with one that is on stable storage.  Once
    [_load_or_create_key_file_salt] has returned a salt to any thread, the salt
    file holds exactly that salt for ever after, on stable storage: whatever
    other processes do, whichever system calls fail, whenever processes die or
    the host crashes and reboots, every later read finds it and no call ever
    returns another one. *)
Theorem granted_salt_is_forever d es h t p s es' h' :
  clean_disk d -> run false (booted d) es = Some h -> h_calls h !! t = Some (p, Returned (Ok s)) ->
  run false h es' = Some h' ->
  settled (h_fs h') s
  /\ _load_existing_key_file_salt (h_fs h') None = Ok (Some s)
  /\ (forall t' p' s', h_calls h' !! t' = Some (p', Returned (Ok s')) -> s' = s).
Proof.
  intros Hd Hr Ht Hr'. pose proof (inv_run _ _ _ (inv_booted d Hd) Hr) as Hinv.
  assert (Hs : settled (h_fs h') s).
  { eapply settled_run; [exact Hinv|exact Hr'|]. destruct Hinv as (_ & Hc & _). by apply (Hc t p (Returned (Ok s))). }
  split; [done|]. split; [by apply settled_load|]. intros t' p' s' Ht'.
  destruct (inv_run _ _ _ Hinv Hr') as (_ & Hc & _). specialize (Hc _ _ _ Ht'). cbn in Hc.
  eapply holds_agree; by apply settled_holds.
Qed.

(** ** Complete salts *)

Lemma b64_not_space c : mem c URLSAFE_B64_ALPHABET = true -> is_space c = false.
Proof.
  assert (Hall : forallb (fun c => negb (is_space c)) URLSAFE_B64_ALPHABET = true) by (vm_compute; reflexivity).
  rewrite List.forallb_forall in Hall. intros Hc%mem_true%list_elem_of_In. by apply negb_true_iff, Hall.
Qed.

Lemma decode_encoded_salt s : salt_ok s -> decode_salt_file (urlsafe_b64encode s) = Ok s.
Proof.
  intros [Hb Hl]. pose proof (encode_alphabet s Hb) as HF. rewrite list.Forall_forall in HF.
  assert (Ha : is_ascii (urlsafe_b64encode s) = true).
  { apply List.forallb_forall. intros c Hc%list_elem_of_In. by apply alphabet_ascii, HF. }
  assert (Hs : strip (urlsafe_b64encode s) = urlsafe_b64encode s).
  { apply strip_trimmed.
    - destruct (urlsafe_b64encode s) as [|c l]; [done|]. apply b64_not_space, HF. by left.
    - destruct (rev (urlsafe_b64encode s)) as [|c l] eqn:Hr; [done|]. apply b64_not_space, HF.
      apply list_elem_of_In, in_rev. rewrite Hr. by left. }
  unfold decode_salt_file, _decode_passphrase_salt. rewrite Ha, Hs, Ha, b64decode_encode by done.
  by rewrite Hl.
Qed.

Section Complete.
Variable P : list Z -> Prop.

Definition full (d : fs) (i : positive) : Prop := exists s n, P s /\ fs_inodes d !! i = Some n /\ i_data n = urlsafe_b64encode s.

(** What a call has written so far. *)
Definition call_full (d : fs) (c : pc) : Prop :=
  match c with
  | Creating s | Writing _ _ s => P s
  | Fsyncing _ i | Linking _ i => full d i
  | _ => True
  end.

Definition salt_full (d : fs) : Prop := forall i, fs_dir d !! SaltFile = Some i -> full d i.

Lemma full_same d d' i : fs_inodes d' !! i = fs_inodes d !! i -> full d i -> full d' i.
Proof. intros Hi (s & n & H1 & H2 & H3). exists s, n. by rewrite Hi. Qed.

Lemma publish_failed_full d e : call_full d (publish_failed e).
Proof. by destruct e. Qed.

Lemma salt_full_other d i n : salt_full d -> private d i -> salt_full (set_inode d i n).
Proof.
  intros Hs (_ & _ & Hp) j Hj. eapply full_same; [|by apply Hs]. cbn in *. apply lookup_insert_ne. congruence.
Qed.

Lemma advance_full d cache c token fault partial d' cache' c' :
  disk_ok d -> call_ok d c -> call_full d c -> salt_full d ->
  advance false d cache c token fault partial = Some (d', cache', c') ->
  call_full d' c' /\ salt_full d'.
Proof.
  intros Hd Hok Hf Hs. destruct c as [salt|tmp i salt|tmp i|tmp i|tmp raised| |salt|o]; cbn [advance].
  - destruct fault as [e|]; [intros [= <- _ <-]; split; [apply publish_failed_full|done]|].
    destruct (fs_dir d !! TempFile token); [done|]. intros [= <- _ <-]. split; [done|].
    intros j Hj. cbn in Hj. rewrite lookup_insert_ne in Hj by done. eapply full_same; [|by apply Hs].
    cbn. apply lookup_insert_ne. destruct Hd as (Hn & _). assert (j < fs_next d)%positive by (apply (Hn SaltFile); by left). lia.
  - destruct fault as [e|]; intros [= <- _ <-]; split; try (by apply salt_full_other); [done|].
    exists salt, (MkInode (urlsafe_b64encode salt) false). split_and!; [done| |done]. cbn. by rewrite lookup_insert_eq.
  - destruct fault as [e|]; intros [= <- _ <-]; [done|]. destruct Hf as (s & n & H1 & H2 & H3).
    unfold fsync_file. rewrite H2. split; [|by apply salt_full_other].
    exists s, (MkInode (i_data n) true). split_and!; [done| |done]. cbn. by rewrite lookup_insert_eq.
  - destruct fault as [e|]; [by intros [= <- _ <-]|]. destruct (fs_dir d !! SaltFile); [done|]. intros [= <- _ <-].
    split; [done|]. intros j. cbn. rewrite lookup_insert_eq. by intros [= <-].
  - unfold _remove_temp_salt_file.
    assert (Ha : forall d, call_full d (match raised with Some e => publish_failed e | None => Loading end))
      by (intros; destruct raised; [apply publish_failed_full|done]).
    destruct fault as [e|]; [destruct (is_OSError e); intros [= <- _ <-]; split; auto; apply publish_failed_full|].
    intros [= <- _ <-]. split; [apply Ha|]. intros j. cbn. rewrite lookup_delete_ne by done. apply Hs.
  - unfold _load_passphrase_salt_file. destruct (salt_file d); [|by intros [= <- _ <-]].
    destruct fault; [by intros [= <- _ <-]|]. by destruct (decode_salt_file _); intros [= <- _ <-].
  - unfold _make_key_file_salt_durable. destruct (decide _); [by intros [= <- _ <-]|].
    destruct fault; cbn [_fsync_directory]; by intros [= <- _ <-].
  - done.
Qed.

Definition complete (h : host) : Prop :=
  salt_full (h_fs h) /\ forall t p c, h_calls h !! t = Some (p, c) -> call_full (h_fs h) c.

Lemma complete_step h e h' :
  inv h -> complete h -> match e with Call _ _ r _ => P r | _ => True end ->
  step false h e = Some h' -> complete h'.
Proof.
  intros Hinv [Hs Hc] He. destruct e as [t p random fault|t token fault partial|p|keep garbage]; cbn [step].
  - destruct (h_calls h !! t); [done|]. intros [= <-]. split; [done|]. cbn.
    intros u q c [[<- [= <- <-]]|[_ H]]%lookup_insert_Some; [|by eapply Hc].
    unfold begin_load. destruct fault; [done|]. by destruct (fs_dir (h_fs h) !! SaltFile).
  - pose proof Hinv as (H1 & H2 & H3 & H4). destruct (h_calls h !! t) as [[p c]|] eqn:Ht; [|done].
    destruct (advance _ _ _ c token fault partial) as [[[d cache] c']|] eqn:Ha; [|done]. cbn. intros [= <-].
    destruct (advance_full _ _ _ _ _ _ _ _ _ H1 (H2 _ _ _ Ht) (Hc _ _ _ Ht) Hs Ha) as [F1 F2].
    apply advance_good in Ha; [|done|by eapply H2|by apply H4]. destruct Ha as (_ & _ & _ & _ & G5 & _).
    split; [done|]. cbn. intros u q c0 [[<- [= <- <-]]|[Hne Hu]]%lookup_insert_Some; [done|].
    specialize (Hc _ _ _ Hu). pose proof (own_bound h u q c0) as Hb.
    assert (Hl : forall j, own c0 = Some j -> fs_inodes d !! j = fs_inodes (h_fs h) !! j).
    { intros j Hj. apply G5; [|by apply Hb]. intros Hj'. apply Hne. by eapply H3. }
    destruct c0; try done; (eapply full_same; [by apply Hl|done]).
  - intros [= <-]. split; [done|]. cbn. intros u q c [H _]%map_lookup_filter_Some. by eapply Hc.
  - intros [= <-]. destruct Hinv as (H1 & _). split; [|done]. cbn [h_fs]. intros i Hi.
    rewrite crash_salt in Hi by done. pose proof H1 as (_ & Hdur & Hsy).
    assert (Hi' : fs_dir (h_fs h) !! SaltFile = Some i) by (destruct (keep SaltFile); [done|by apply Hdur]).
    destruct (Hs i Hi') as (s & n & F1 & F2 & F3). destruct (Hsy i Hi') as (n' & Hn' & Hsn).
    exists s, n. split_and!; [done| |done]. apply crash_inode; [done|]. congruence.
Qed.
End Complete.

Definition randoms (es : list event) : list (list Z) :=
  es ≫= (fun e => match e with Call _ _ r _ => [r] | _ => [] end).

(** Readers never see a partial salt.  On a host whose disk has no salt
    file, at every moment of every run, crashes included, the salt file is
    absent or decodes to one of the random salts some call drew. *)
Theorem salt_file_complete d es h :
  clean_disk d -> fs_dir d !! SaltFile = None -> Forall event_ok es ->
  run false (booted d) es = Some h ->
  _load_existing_key_file_salt (h_fs h) None = Ok None
  \/ exists s, s ∈ randoms es /\ _load_existing_key_file_salt (h_fs h) None = Ok (Some s).
Proof.
  intros Hd Hn Hes Hr. set (P := fun s => s ∈ randoms es /\ salt_ok s).
  assert (Hall : Forall (fun e => match e with Call _ _ r _ => P r | _ => True end) es).
  { apply list.Forall_forall. intros e Hin. destruct e as [t p r f| | |]; try done. split.
    - apply list_elem_of_bind. exists (Call t p r f). split; [by left|done].
    - by apply (proj1 (list.Forall_forall _ _) Hes) in Hin. }
  assert (Hc0 : complete P (booted d)) by (split; [intros i Hi; cbn in Hi; congruence|done]).
  assert (Hg : forall es0 h0, inv h0 -> complete P h0 ->
    Forall (fun e => match e with Call _ _ r _ => P r | _ => True end) es0 -> run false h0 es0 = Some h -> complete P h).
  { clearbody P. clear. induction es0 as [|e es0 IH]; intros h0 Hi Hc Hall; cbn; [by intros [= <-]|].
    inversion Hall; subst. destruct (step false h0 e) as [h1|] eqn:He; [|done]. cbn.
    apply IH; [by eapply inv_step|by eapply complete_step|done]. }
  destruct (Hg es _ (inv_booted d Hd) Hc0 Hall Hr) as [Hs _].
  unfold _load_existing_key_file_salt, _load_passphrase_salt_file, salt_file.
  destruct (fs_dir (h_fs h) !! SaltFile) as [i|] eqn:Hi; [|by left]. right.
  destruct (Hs i Hi) as (s & n & [Hs1 Hs2] & H2 & H3). exists s. split; [done|]. cbn. rewrite H2. cbn.
  by rewrite H3, decode_encoded_salt.
Qed.

(** ** Two first starts, and a crash *)

Definition empty_disk : fs := MkFs ∅ ∅ ∅ 1.

Lemma empty_disk_clean : clean_disk empty_disk.
Proof. split; [intros n i H; done|]. split; [done|]. intros i H. done. Qed.

Definition act (t : positive) : event := Act t [Zpos t] None [].

(** Both draw a salt; the first one links its file. *)
Definition race : list event :=
  [Call 1 1 (replicate 32 7) None; Call 2 2 (replicate 32 9) None; act 1; act 1; act 1; act 2; act 2; act 2; act 1;
   Act 2 [] (Some (FileExistsError "link")) []; act 1; act 1; act 1].

(** The second one finds it; the host loses whatever was not synced. *)
Definition aftermath : list event :=
  [act 2; act 2; act 2; Crash (fun _ => false) (fun _ => []); Call 3 3 (replicate 32 5) None; act 3; act 3].

Lemma granted_salt_is_forever_witness :
  exists h h', run false (booted empty_disk) race = Some h /\ run false h aftermath = Some h'
    /\ h_calls h !! 1%positive = Some (1%positive, Returned (Ok (replicate 32 7)))
    /\ h_calls h' !! 3%positive = Some (3%positive, Returned (Ok (replicate 32 7)))
    /\ settled (h_fs h') (replicate 32 7).
Proof.
  destruct (run false (booted empty_disk) race) as [h|] eqn:Hr; [|vm_compute in Hr; discriminate Hr].
  assert (Ht : h_calls h !! 1%positive = Some (1%positive, Returned (Ok (replicate 32 7)))).
  { assert (Hv : (r ← run false (booted empty_disk) race; h_calls r !! 1%positive) = Some (1%positive, Returned (Ok (replicate 32 7))))
      by (vm_compute; reflexivity). rewrite Hr in Hv. exact Hv. }
  assert (Hv : exists h', run false h aftermath = Some h' /\ h_calls h' !! 3%positive = Some (3%positive, Returned (Ok (replicate 32 7)))).
  { vm_compute in Hr. injection Hr as <-. eexists. split; vm_compute; reflexivity. }
  destruct Hv as (h' & Hr' & H3). exists h, h'.
  destruct (granted_salt_is_forever empty_disk race h 1 1 (replicate 32 7) aftermath h' empty_disk_clean Hr Ht Hr') as [Hs _].
  split; [reflexivity|]. split; [exact Hr'|]. split; [exact Ht|]. split; [exact H3|exact Hs].
Defined.

Lemma salt_file_complete_witness :
  exists h s, run false (booted empty_disk) race = Some h /\ s ∈ randoms race
    /\ _load_existing_key_file_salt (h_fs h) None = Ok (Some s).
Proof.
  destruct (run false (booted empty_disk) race) as [h|] eqn:Hr; [|vm_compute in Hr; discriminate Hr].
  assert (Hok : Forall event_ok race).
  { assert (Hb : forall x, 0 <= x < 256 -> salt_ok (replicate 32 x)).
    { intros x Hx. split; [apply Forall_replicate; exact Hx|reflexivity]. }
    unfold race. repeat (apply list.Forall_cons; split);
      first [exact I|apply Hb; lia|apply list.Forall_nil; exact I|constructor]. }
  destruct (salt_file_complete empty_disk race h empty_disk_clean eq_refl Hok Hr) as [Hn|(s & Hs & Hl)].
  - exfalso. vm_compute in Hr. injection Hr as <-. vm_compute in Hn. discriminate Hn.
  - exists h, s. split; [reflexivity|]. split; [exact Hs|exact Hl].
Defined.
