(* ===== verification/Encryption.v ===== *)
(** * Keys and encryption ([kestrel_sdk/security/encryption.py])

    Where the data key comes from, the master keys of a passphrase, the
    ciphers that write with the current key and read with older ones, and the
    per-agent, per-purpose interface.  The key derivation functions and the
    ciphers are parameters.  What one operation sees of its environment is a
    record: the code reads each source at most once. *)

From stdpp Require Import gmap.
From S2P Require Export JsonLoads ToolResults KeySalt.

Definition PASSPHRASE_KDF_ITERATIONS : Z := 600000.

Definition VALID_PURPOSES : list pystr := [u "conversations"; u "service-keys"; u "wallet"; u "backup"].

(** ** What an operation observes *)

(** [os.environ] *)
Record environ := MkEnviron {
  KESTREL_DATA_KEY : option pystr;
  KESTREL_DATA_KEY_FILE : option pystr;
  KESTREL_DATA_KEY_SALT : option pystr;
  KESTREL_DATA_KEY_SALT_FILE : option pystr
}.

(** The end of reading a file as UTF-8 text. *)
Inductive file_read : Type := FileText (s : pystr) | FileOSError | FileNotUtf8.

(** The environment, the key file by path, the default Docker secret ([None]
    if no path exists, [Some None] if it is no file), and for the salt files
    by path the outcomes of [_load_passphrase_salt_file],
    [_load_or_create_key_file_salt] and [_load_existing_key_file_salt]. *)
Record observed := MkObserved {
  o_env : environ;
  o_key_file : pystr -> file_read;
  o_docker : option (option file_read);
  o_salt_file : pystr -> res (list Z);
  o_write_salt : pystr -> res (list Z);
  o_read_salt : pystr -> res (option (list Z))
}.

(** [os.environ.get(name)] where an empty value counts as absent. *)
Definition env_set (v : option pystr) : option pystr :=
  match v with Some (_ :: _) => v | _ => None end.

(** ** The data key *)

Definition _strip_quotes (value : pystr) : pystr :=
  match value with
  | q :: (_ :: _) as rest =>
      if bool_decide (list.last rest = Some q) && mem q [34; 39]
      then take (length value - 2) (drop 1 value) else value
  | _ => value
  end.

Definition _read_key_from_file (f : option file_read) : option pystr :=
  match f with Some (FileText s) => Some (strip s) | _ => None end.

Definition _read_required_key_file (f : file_read) : res pystr :=
  match f with
  | FileOSError => Raise (MasterKeyNotConfiguredError "could not be read")
  | FileNotUtf8 => Raise (MasterKeyNotConfiguredError "is not UTF-8 text")
  | FileText s =>
      let key := _strip_quotes (strip s) in
      _ ← raise_if (bool_decide (key = [])) (MasterKeyNotConfiguredError "that file is empty");
      Ok key
  end.

Section Keys.
(** [Path(p).expanduser()] as text. *)
Variable expanduser : pystr -> pystr.

Definition _get_configured_key_file (env : environ) : option pystr :=
  expanduser <$> env_set (KESTREL_DATA_KEY_FILE env).

Definition _get_data_key (o : observed) : res (option pystr) :=
  match _get_configured_key_file (o_env o) with
  | Some key_file => key ← _read_required_key_file (o_key_file o key_file); Ok (Some key)
  | None =>
      let docker := match o_docker o with Some f => _read_key_from_file f | None => None end in
      match env_set docker with
      | Some key => Ok (Some (_strip_quotes key))
      | None => Ok (_strip_quotes <$> env_set (KESTREL_DATA_KEY (o_env o)))
      end
  end.

(** [if not key]: a data key of two quotes is empty. *)
Definition usable_key (k : option pystr) : option pystr := env_set k.

Definition _require_data_key (o : observed) : res pystr :=
  k ← _get_data_key o;
  match usable_key k with
  | Some key => Ok key
  | None => Raise (MasterKeyNotConfiguredError "KESTREL_DATA_KEY environment variable is not set")
  end.

(** ** Salts *)

Definition _load_passphrase_salt (o : observed) (for_write : bool) : res (option (list Z)) :=
  match env_set (KESTREL_DATA_KEY_SALT (o_env o)) with
  | Some explicit => s ← _decode_passphrase_salt (strip (_strip_quotes explicit)); Ok (Some s)
  | None =>
      match env_set (KESTREL_DATA_KEY_SALT_FILE (o_env o)) with
      | Some explicit_file => s ← o_salt_file o (expanduser explicit_file); Ok (Some s)
      | None =>
          match _get_configured_key_file (o_env o) with
          | Some key_file =>
              let salt_path := _key_file_salt_path key_file in
              if for_write then s ← o_write_salt o salt_path; Ok (Some s)
              else o_read_salt o salt_path
          | None => Ok None
          end
      end
  end.

(** ** Master keys *)

(** [Fernet(key.encode("ascii"))] does not raise. *)
Definition _is_fernet_key (key : pystr) : bool :=
  is_ascii key && match b64decode false key with Some d => len d =? 32 | None => false end.

Definition _decode_fernet_master_key (key : pystr) : res (list Z) :=
  if is_ascii key then
    match b64decode false key with Some d => Ok d | None => Raise (ValueError "binascii.Error") end
  else Raise (ValueError "UnicodeEncodeError").

(** [hashlib.sha256(b).digest()]; PBKDF2 and HKDF over SHA-256: iterations,
    salt and password; salt, info and key material. *)
Variable sha256 : list Z -> list Z.
Variable pbkdf2 : Z -> list Z -> list Z -> list Z.
Variable hkdf : option (list Z) -> list Z -> list Z -> list Z.

(** [_PASSPHRASE_MASTER_KEY_CACHE], and operations that use it. *)
Definition kdf_cache : Type := gmap (list Z * list Z) (list Z).
Definition KM (A : Type) : Type := kdf_cache -> res A * kdf_cache.

#[global] Instance km_ret : MRet KM := fun A a c => (Ok a, c).
#[global] Instance km_bind : MBind KM := fun A B f m c =>
  match m c with (Ok a, c') => f a c' | (Raise e, c') => (Raise e, c') end.

Definition lift {A} (r : res A) : KM A := fun c => (r, c).

Definition _derive_salted_passphrase_master_key (key : pystr) (salt : list Z) : KM (list Z) := fun c =>
  match utf8 key with
  | None => (Raise (ValueError "UnicodeEncodeError"), c)
  | Some k =>
      match c !! (sha256 k, salt) with
      | Some cached => (Ok cached, c)
      | None =>
          let derived := pbkdf2 PASSPHRASE_KDF_ITERATIONS salt k in
          (Ok derived, <[(sha256 k, salt) := derived]> c)
      end
  end.

Definition _derive_legacy_passphrase_master_key (key : pystr) : res (list Z) :=
  k ← encode_utf8 (Str key); Ok (sha256 k).

Definition _derive_passphrase_master_key (o : observed) (key : pystr) : KM (list Z) :=
  salt ← lift (_load_passphrase_salt o true);
  match salt with
  | None => lift (_derive_legacy_passphrase_master_key key)
  | Some s => _derive_salted_passphrase_master_key key s
  end.

Definition _passphrase_read_master_keys (o : observed) (key : pystr) : KM (list (list Z)) :=
  legacy ← lift (_derive_legacy_passphrase_master_key key);
  salt ← lift (_load_passphrase_salt o false);
  match salt with
  | None => mret [legacy]
  | Some s => m ← _derive_salted_passphrase_master_key key s; mret [m; legacy]
  end.

(** [_MasterKeys] *)
Record MasterKeys := MkMasterKeys {
  mk_write : option (list Z); mk_write_refusal : option string; mk_read : list (list Z) }.

Definition map_keys (self : MasterKeys) (derive : list Z -> list Z) : MasterKeys :=
  MkMasterKeys (derive <$> mk_write self) (mk_write_refusal self) (derive <$> mk_read self).

Definition _resolve_passphrase_master_keys (o : observed) (key : pystr) : KM MasterKeys := fun c =>
  match _derive_passphrase_master_key o key c with
  | (Ok write, c1) => (read ← _passphrase_read_master_keys o key; mret (MkMasterKeys (Some write) None read)) c1
  | (Raise (KeyFileSaltUnavailableError m), c1) =>
      (read ← _passphrase_read_master_keys o key; mret (MkMasterKeys None (Some m) read)) c1
  | (Raise e, c1) => (Raise e, c1)
  end.

Definition _master_key_from (o : observed) (key : pystr) : KM (list Z) :=
  if _is_fernet_key key then lift (_decode_fernet_master_key key) else _derive_passphrase_master_key o key.

Definition _get_master_key (o : observed) : KM (list Z) :=
  key ← lift (_require_data_key o); _master_key_from o key.

(** ** Ciphers *)

Variable aes_encrypt : list Z -> list Z -> list Z -> list Z -> list Z.
Variable aes_decrypt : list Z -> list Z -> list Z -> list Z -> option (list Z).
Variable fernet_decrypt : list Z -> list Z -> option (list Z).

(** [_ReadFallbackCipher] beside the plain cipher. *)
Inductive cipher : Type :=
| Plain (c : AEADCipher)
| ReadFallback (writer : option AEADCipher) (write_refusal : option string) (readers : list AEADCipher).

(** [except DecryptionError: continue], then [raise]. *)
Fixpoint try_older (older : list AEADCipher) (token : text_or_bytes) (aad : option (list Z)) (failure : exn)
    : res (list Z) :=
  match older with
  | [] => Raise failure
  | c :: older' =>
      match Aead.decrypt aes_decrypt fernet_decrypt c token aad with
      | Raise (DecryptionError _) => try_older older' token aad failure
      | r => r
      end
  end.

Definition _decrypt_with_any (ciphers : list AEADCipher) (token : text_or_bytes) (aad : option (list Z))
    : res (list Z) :=
  match ciphers with
  | [] => Raise (ValueError "not enough values to unpack")
  | newest :: older =>
      match Aead.decrypt aes_decrypt fernet_decrypt newest token aad with
      | Raise (DecryptionError m) => try_older older token aad (DecryptionError m)
      | r => r
      end
  end.

Definition read_fallback_init (keys : MasterKeys) : res cipher :=
  writer ← match mk_write keys with
           | None => Ok None
           | Some k => c ← cipher_init (Bytes k); Ok (Some c)
           end;
  readers ← traverse (fun k => cipher_init (Bytes k)) (mk_read keys);
  Ok (ReadFallback writer (mk_write_refusal keys) readers).

(** The [encrypt] and [decrypt] methods of either class. *)
Definition cipher_encrypt (self : cipher) (nonce : list Z) (plaintext : text_or_bytes) (aad : option (list Z))
    : res (list Z) :=
  match self with
  | Plain c => Aead.encrypt aes_encrypt c nonce plaintext aad
  | ReadFallback (Some w) _ _ => Aead.encrypt aes_encrypt w nonce plaintext aad
  | ReadFallback None refusal _ => Raise (KeyFileSaltUnavailableError (default "None"%string refusal))
  end.

Definition cipher_decrypt (self : cipher) (token : text_or_bytes) (aad : option (list Z)) : res (list Z) :=
  match self with
  | Plain c => Aead.decrypt aes_decrypt fernet_decrypt c token aad
  | ReadFallback _ _ readers => _decrypt_with_any readers token aad
  end.

Definition _cipher_for (keys : MasterKeys) : res cipher :=
  match mk_write keys with
  | Some w =>
      if bool_decide (mk_read keys = [w]) then c ← cipher_init (Bytes w); Ok (Plain c)
      else read_fallback_init keys
  | None => read_fallback_init keys
  end.

Definition _global_cipher_from (o : observed) (key : pystr) : KM cipher :=
  if _is_fernet_key key then lift (c ← cipher_init (Str key); Ok (Plain c))
  else keys ← _resolve_passphrase_master_keys o key; lift (_cipher_for keys).

Definition get_fernet (o : observed) : KM (option cipher) :=
  key ← lift (_get_data_key o);
  match usable_key key with
  | None => mret None
  | Some key => c ← _global_cipher_from o key; mret (Some c)
  end.

Definition _master_key_bytes_from (o : observed) (key : pystr) : KM (list Z) :=
  if _is_fernet_key key then lift (encode_utf8 (Str key))
  else m ← _derive_passphrase_master_key o key; mret (urlsafe_b64encode m).

Definition get_master_key_bytes (o : observed) : KM (option (list Z)) :=
  key ← lift (_get_data_key o);
  match usable_key key with
  | None => mret None
  | Some key => m ← _master_key_bytes_from o key; mret (Some m)
  end.

Definition _derive_agent_cipher_key (master agent_id : list Z) : list Z :=
  hkdf (Some agent_id) (u "kestrel-agent-v1") master.

(** [None] from the last handler when the agent id is no UTF-8 text or a
    cipher cannot be built. *)
Definition get_agent_fernet (o : observed) (agent_id : pystr) : KM (option cipher) :=
  key ← lift (_get_data_key o);
  match usable_key key with
  | None => mret None
  | Some key =>
      if bool_decide (agent_id = []) then c ← _global_cipher_from o key; mret (Some c)
      else
        keys ← (if _is_fernet_key key then
                  k ← lift (encode_utf8 (Str key)); mret (MkMasterKeys (Some k) None [k])
                else
                  keys ← _resolve_passphrase_master_keys o key; mret (map_keys keys urlsafe_b64encode));
        match utf8 agent_id with
        | None => mret None
        | Some salt =>
            match _cipher_for (map_keys keys (fun master => _derive_agent_cipher_key master salt)) with
            | Ok c => mret (Some c)
            | Raise _ => mret None
            end
        end
  end.

(** ** Purposes *)

Definition _require_agent_purpose (agent_did purpose : pystr) : res unit :=
  _ ← raise_if (bool_decide (agent_did = [])) (ValueError "agent_did is required for encryption");
  raise_if (negb (mem purpose VALID_PURPOSES)) (InvalidPurposeError "Invalid purpose").

Definition _derive_purpose_key (master_key : list Z) (agent_did purpose : pystr) : res (list Z) :=
  did ← encode_utf8 (Str agent_did);
  let agent_master_key := hkdf (Some did) (u "kestrel-agent-master-v1") master_key in
  info ← encode_utf8 (Str (u "kestrel-" ++ purpose ++ u "-v1"));
  Ok (hkdf None info agent_master_key).

Definition get_agent_key (o : observed) (agent_did purpose : pystr) : KM (list Z) :=
  _ ← lift (_require_agent_purpose agent_did purpose);
  master ← _get_master_key o;
  lift (_derive_purpose_key master agent_did purpose).

Definition encrypt (o : observed) (nonce : list Z) (agent_did purpose : pystr) (plaintext : text_or_bytes)
    : KM (list Z) :=
  key ← get_agent_key o agent_did purpose;
  lift (c ← cipher_init (Bytes key); Aead.encrypt aes_encrypt c nonce plaintext None).

(** [except Exception as e: raise DecryptionError(...)] *)
Definition as_decryption_error {A} (r : res A) : res A :=
  match r with
  | Ok a => Ok a
  | Raise (DecryptionError m) => Raise (DecryptionError m)
  | Raise _ => Raise (DecryptionError "Decryption failed")
  end.

Definition decrypt (o : observed) (agent_did purpose : pystr) (ciphertext : text_or_bytes) : KM (list Z) :=
  _ ← lift (_require_agent_purpose agent_did purpose);
  data_key ← lift (_require_data_key o);
  masters ← (if _is_fernet_key data_key then
               lift (m ← _decode_fernet_master_key data_key;
                     l ← _derive_legacy_passphrase_master_key data_key; Ok [m; l])
             else _passphrase_read_master_keys o data_key);
  lift (readers ← traverse (fun m => k ← _derive_purpose_key m agent_did purpose; cipher_init (Bytes k)) masters;
        as_decryption_error (_decrypt_with_any readers ciphertext None)).

Definition encrypt_string (o : observed) (nonce : list Z) (agent_did purpose plaintext : pystr) : KM (list Z) :=
  p ← lift (encode_utf8 (Str plaintext));
  encrypt o nonce agent_did purpose (Bytes p).

(** [b.decode("utf-8")] *)
Definition decode_text (b : list Z) : res pystr :=
  match utf8_decode b with Some s => Ok s | None => Raise (ValueError "UnicodeDecodeError") end.

Definition decrypt_string (o : observed) (agent_did purpose : pystr) (ciphertext : text_or_bytes) : KM pystr :=
  p ← decrypt o agent_did purpose ciphertext; lift (decode_text p).

(** ** Stored content *)

Definition encrypt_bytes (content : list Z) (c : option cipher) (nonce : list Z) : res (list Z * bool) :=
  match c with
  | None => Ok (content, false)
  | Some c => t ← cipher_encrypt c nonce (Bytes content) None; Ok (t, true)
  end.

(** [metadata and metadata.get("enc")] *)
Definition marked_encrypted (metadata : option pydict) : bool :=
  match metadata with Some d => ToolResults.truthy (dict_get (u "enc") d) | None => false end.

Definition no_key {A} : res A :=
  Raise (DecryptionError "No decryption key available but content is marked as encrypted").

Definition decrypt_bytes (content : list Z) (c : option cipher) (metadata : option pydict) : res (list Z) :=
  match c with
  | None => if marked_encrypted metadata then no_key else Ok content
  | Some c =>
      if marked_encrypted metadata then as_decryption_error (cipher_decrypt c (Bytes content) None)
      else Ok content
  end.

Definition encrypt_string_fernet (content : pystr) (c : option cipher) (nonce : list Z) : res (pystr * bool) :=
  match c with
  | None => Ok (content, false)
  | Some c =>
      p ← encode_utf8 (Str content);
      t ← cipher_encrypt c nonce (Bytes p) None;
      s ← decode_text t;
      Ok (s, true)
  end.

Definition decrypt_string_fernet (content : pystr) (metadata : option pydict) (c : option cipher) : res pystr :=
  match c with
  | None => if marked_encrypted metadata then no_key else Ok content
  | Some c =>
      if marked_encrypted metadata then
        as_decryption_error (t ← encode_utf8 (Str content); p ← cipher_decrypt c (Bytes t) None; decode_text p)
      else Ok content
  end.

Definition remove_enc_flag (metadata : option pydict) : option pydict :=
  match metadata with
  | None | Some [] => None
  | Some d =>
      match base.filter (fun kv : pystr * fjson => kv.1 <> u "enc") d with
      | [] => None
      | cleaned => Some cleaned
      end
  end.
End Keys.
