(* ===== verification/EncryptionProps.v ===== *)
(** * Keys and encryption: theorems *)

From stdpp Require Import gmap.
From S2P Require Export AeadProps KeySaltProps Encryption.

(** What the code relies on of HKDF asked for [KEY_SIZE] bytes. *)
Class Hkdf (hkdf : option (list Z) -> list Z -> list Z -> list Z) : Prop := {
  hkdf_length : forall salt info ikm, len (hkdf salt info ikm) = KEY_SIZE
}.

(** And of the digests behind the master keys. *)
Class Digests (sha256 : list Z -> list Z) (pbkdf2 : Z -> list Z -> list Z -> list Z) : Prop := {
  sha256_length : forall b, len (sha256 b) = KEY_SIZE;
  pbkdf2_length : forall n salt b, len (pbkdf2 n salt b) = KEY_SIZE
}.

Section Props.
Context (expanduser : pystr -> pystr) (sha256 : list Z -> list Z) (pbkdf2 : Z -> list Z -> list Z -> list Z)
        `{!Digests sha256 pbkdf2} (hkdf : option (list Z) -> list Z -> list Z -> list Z) `{!Hkdf hkdf}
        (enc : list Z -> list Z -> list Z -> list Z -> list Z)
        (dec : list Z -> list Z -> list Z -> list Z -> option (list Z)) `{!AesGcm enc dec}
        (fernet : list Z -> list Z -> option (list Z)).

Abbreviation load_salt := (_load_passphrase_salt expanduser).
Abbreviation data_key := (_require_data_key expanduser).

(** ** The cache of derived keys *)

(** Entries under the digest of [key] are its derived keys. *)
Definition cache_ok (key : pystr) (c : kdf_cache) : Prop :=
  forall k s v, utf8 key = Some k -> c !! (sha256 k, s) = Some v -> v = pbkdf2 PASSPHRASE_KDF_ITERATIONS s k.

(** The master keys of a data key, without the cache. *)
Definition salted_master (key : pystr) (salt : list Z) : res (list Z) :=
  k ← encode_utf8 (Str key); Ok (pbkdf2 PASSPHRASE_KDF_ITERATIONS salt k).

Definition legacy_master (key : pystr) : res (list Z) := _derive_legacy_passphrase_master_key sha256 key.

Definition passphrase_master (key : pystr) (salt : option (list Z)) : res (list Z) :=
  match salt with None => legacy_master key | Some s => salted_master key s end.

Definition write_master (o : observed) (key : pystr) : res (list Z) :=
  if _is_fernet_key key then _decode_fernet_master_key key
  else salt ← load_salt o true; passphrase_master key salt.

Definition read_masters (o : observed) (key : pystr) : res (list (list Z)) :=
  if _is_fernet_key key then
    m ← _decode_fernet_master_key key; l ← legacy_master key; Ok [m; l]
  else
    l ← legacy_master key; salt ← load_salt o false;
    match salt with None => Ok [l] | Some s => m ← salted_master key s; Ok [m; l] end.

(** [m] computes [r] and keeps the cache right. *)
Definition computes {A} (key : pystr) (m : KM A) (r : res A) : Prop :=
  forall c, cache_ok key c -> exists c', m c = (r, c') /\ cache_ok key c'.

Lemma computes_lift {A} key (r : res A) : computes key (lift r) r.
Proof. intros c Hc. by exists c. Qed.

Lemma computes_ret {A} key (a : A) : computes key (mret a) (Ok a).
Proof. intros c Hc. by exists c. Qed.

Lemma computes_bind {A B} key (m : KM A) r (f : A -> KM B) g :
  computes key m r -> (forall a, r = Ok a -> computes key (f a) (g a)) ->
  computes key (m ≫= f) (r ≫= g).
Proof.
  intros Hm Hf c Hc. destruct (Hm c Hc) as (c1 & H1 & Hc1). unfold mbind, km_bind. rewrite H1.
  destruct r as [a|e]; [by apply Hf|]. by exists c1.
Qed.

Lemma computes_salted key s : computes key (_derive_salted_passphrase_master_key sha256 pbkdf2 key s) (salted_master key s).
Proof.
  intros c Hc. unfold _derive_salted_passphrase_master_key, salted_master, encode_utf8.
  destruct (utf8 key) as [k|] eqn:Hk; [|by exists c]. cbn [mbind result_bind].
  destruct (c !! (sha256 k, s)) as [v|] eqn:Hv.
  - exists c. by rewrite (Hc k s v Hk Hv).
  - eexists. split; [done|]. intros k' s' v' Hk' Hv'. rewrite Hk in Hk'. injection Hk' as <-.
    apply lookup_insert_Some in Hv' as [[[= <-] <-]|[_ Hv']]; [done|by apply (Hc k)].
Qed.

#[local] Hint Resolve computes_lift computes_ret computes_salted : core.

Lemma computes_write_passphrase o key :
  computes key (_derive_passphrase_master_key expanduser sha256 pbkdf2 o key)
    (salt ← load_salt o true; passphrase_master key salt).
Proof. apply computes_bind; [auto|]. intros [s|] _; auto. Qed.

Lemma computes_master o key : computes key (_master_key_from expanduser sha256 pbkdf2 o key) (write_master o key).
Proof.
  unfold _master_key_from, write_master. destruct (_is_fernet_key key); [auto|]. apply computes_write_passphrase.
Qed.

Lemma computes_read_passphrase o key :
  computes key (_passphrase_read_master_keys expanduser sha256 pbkdf2 o key)
    (l ← legacy_master key; salt ← load_salt o false;
     match salt with None => Ok [l] | Some s => m ← salted_master key s; Ok [m; l] end).
Proof.
  apply computes_bind; [auto|]. intros l _. apply computes_bind; [auto|]. intros [s|] _; [|auto].
  apply computes_bind; auto.
Qed.

(** ** The keys of a purpose *)

Definition agent_key (o : observed) (key did purpose : pystr) : res (list Z) :=
  m ← write_master o key; _derive_purpose_key hkdf m did purpose.

Lemma computes_agent_key o key did purpose :
  data_key o = Ok key -> _require_agent_purpose did purpose = Ok tt ->
  computes key (get_agent_key expanduser sha256 pbkdf2 hkdf o did purpose) (agent_key o key did purpose).
Proof.
  intros Hk Hp c Hc. unfold get_agent_key. rewrite Hp. unfold _get_master_key. rewrite Hk. revert c Hc.
  apply (computes_bind key (_master_key_from expanduser sha256 pbkdf2 o key) (write_master o key));
    [apply computes_master|auto].
Qed.

Lemma purpose_key_length m did purpose k : _derive_purpose_key hkdf m did purpose = Ok k -> len k = KEY_SIZE.
Proof. unfold _derive_purpose_key. intros H. inv_ok. apply hkdf_length. Qed.

Lemma cipher_init_raw k : len k = KEY_SIZE -> cipher_init (Bytes k) = Ok (MkCipher k (urlsafe_b64encode k)).
Proof. intros Hk. unfold cipher_init, coerce_to_raw_key. cbn [encode_ascii mbind result_bind]. by rewrite Hk. Qed.

(** A purpose key depends on a master key only for its bytes. *)
Definition purpose_key (m did info : list Z) : list Z :=
  hkdf None info (hkdf (Some did) (u "kestrel-agent-master-v1") m).

Lemma purpose_key_Ok m did purpose k :
  _derive_purpose_key hkdf m did purpose = Ok k <->
  exists d i, utf8 did = Some d /\ utf8 (u "kestrel-" ++ purpose ++ u "-v1") = Some i /\ k = purpose_key m d i.
Proof.
  unfold _derive_purpose_key, encode_utf8. destruct (utf8 did) as [d|]; [|split; [done|by intros (? & ? & ? & _)]].
  cbn [mbind result_bind]. destruct (utf8 (_ ++ _)) as [i|]; [|split; [done|by intros (? & ? & _ & ? & _)]].
  cbn [mbind result_bind]. split; [intros [= <-]; eauto|]. by intros (d' & i' & [= <-] & [= <-] & ->).
Qed.

Abbreviation encrypt_as := (encrypt expanduser sha256 pbkdf2 hkdf enc).
Abbreviation decrypt_as := (decrypt expanduser sha256 pbkdf2 hkdf dec fernet).

Definition raw_cipher (k : list Z) : AEADCipher := MkCipher k (urlsafe_b64encode k).

(** A purpose token is a token of the key derived from the master key for
    new data. *)
Lemma purpose_token o nonce did purpose pt c tok c1 :
  encrypt_as o nonce did purpose pt c = (Ok tok, c1) ->
  exists key, data_key o = Ok key /\ _require_agent_purpose did purpose = Ok tt
    /\ (cache_ok key c ->
        exists m k, write_master o key = Ok m /\ _derive_purpose_key hkdf m did purpose = Ok k
          /\ Aead.encrypt enc (raw_cipher k) nonce pt None = Ok tok).
Proof.
  intros H. destruct (_require_agent_purpose did purpose) as [[]|e] eqn:Hp.
  2:{ unfold encrypt, get_agent_key, mbind, km_bind, lift in H. by rewrite Hp in H. }
  destruct (data_key o) as [key|e] eqn:Hk.
  2:{ unfold encrypt, get_agent_key, _get_master_key, mbind, km_bind, lift in H. by rewrite Hp, Hk in H. }
  exists key. split; [done|]. split; [done|]. intros Hc. unfold encrypt in H. unfold mbind, km_bind in H.
  destruct (computes_agent_key o key did purpose Hk Hp c Hc) as (c' & Hg & _). rewrite Hg in H.
  destruct (agent_key o key did purpose) as [k|e] eqn:Ha; [|done]. unfold agent_key in Ha. inv_ok.
  exists r, k. split; [done|]. split; [done|]. unfold lift in H.
  rewrite cipher_init_raw in H by (by eapply purpose_key_length). cbn [mbind result_bind] in H. by injection H.
Qed.

Lemma utf8_ascii s : is_ascii s = true -> utf8 s = Some s.
Proof.
  unfold is_ascii. induction s as [|c s IH]; [done|]. cbn [forallb]. intros H. bool_hyps. cbn [utf8].
  rewrite IH by done. unfold utf8_char. unfold in_range in H. bool_hyps.
  rewrite (proj2 (Z.ltb_lt c 0x80)) by lia. done.
Qed.

(** The newest read key is the key that wrote. *)
Lemma newest_read_master o o' key m :
  write_master o key = Ok m ->
  (_is_fernet_key key = false -> forall s, load_salt o true = Ok s -> load_salt o' false = Ok s) ->
  exists older, read_masters o' key = Ok (m :: older).
Proof.
  unfold write_master, read_masters. intros H Hs. destruct (_is_fernet_key key) eqn:Hf.
  - rewrite H. cbn [mbind result_bind]. unfold legacy_master, _derive_legacy_passphrase_master_key, encode_utf8.
    apply andb_true_iff in Hf as [Ha _]. rewrite (utf8_ascii _ Ha). cbn. eauto.
  - inv_ok. specialize (Hs eq_refl _ Hm). destruct r as [s|]; cbn [passphrase_master] in H.
    + assert (Hl : exists l, legacy_master key = Ok l).
      { unfold salted_master in H. unfold legacy_master, _derive_legacy_passphrase_master_key. inv_ok.
        rewrite Hm0. cbn. eauto. }
      destruct Hl as [l ->]. cbn [mbind result_bind]. rewrite Hs. cbn [mbind result_bind]. rewrite H. cbn. eauto.
    + rewrite H. cbn [mbind result_bind]. rewrite Hs. cbn. eauto.
Qed.

Lemma traverse_readers ms did purpose d i :
  utf8 did = Some d -> utf8 (u "kestrel-" ++ purpose ++ u "-v1") = Some i ->
  traverse (fun m => k ← _derive_purpose_key hkdf m did purpose; cipher_init (Bytes k)) ms
  = Ok ((fun m => raw_cipher (purpose_key m d i)) <$> ms).
Proof.
  intros Hd Hi. apply traverse_Ok. apply Forall2_fmap_r. apply Forall_Forall2_diag. apply Forall_true. intros m.
  rewrite (proj2 (purpose_key_Ok m did purpose _)) by (by exists d, i). cbn [mbind result_bind].
  apply cipher_init_raw. unfold purpose_key. apply hkdf_length.
Qed.

(** What [decrypt] does once the keys are known. *)
Lemma computes_decrypt o key did purpose d i t :
  data_key o = Ok key -> _require_agent_purpose did purpose = Ok tt ->
  utf8 did = Some d -> utf8 (u "kestrel-" ++ purpose ++ u "-v1") = Some i ->
  computes key (decrypt_as o did purpose t)
    (ms ← read_masters o key;
     as_decryption_error (_decrypt_with_any dec fernet ((fun m => raw_cipher (purpose_key m d i)) <$> ms) t None)).
Proof.
  intros Hk Hp Hd Hi c Hc. unfold decrypt. rewrite Hp, Hk. revert c Hc.
  apply (computes_bind key
    (if _is_fernet_key key then
       lift (m ← _decode_fernet_master_key key; l ← _derive_legacy_passphrase_master_key sha256 key; Ok [m; l])
     else _passphrase_read_master_keys expanduser sha256 pbkdf2 o key) (read_masters o key)).
  - unfold read_masters. destruct (_is_fernet_key key); [auto|]. apply computes_read_passphrase.
  - intros ms _. rewrite (traverse_readers ms did purpose d i Hd Hi). cbn [mbind result_bind]. auto.
Qed.

(** ** Round trip *)

Lemma purpose_roundtrip o o' c c0 nonce did purpose pt p tok c1 key :
  data_key o = Ok key -> data_key o' = Ok key ->
  cache_ok key c -> cache_ok key c0 ->
  (_is_fernet_key key = false -> forall s, load_salt o true = Ok s -> load_salt o' false = Ok s) ->
  len nonce = NONCE_SIZE -> bytes_ok nonce -> encode_utf8 pt = Ok p -> bytes_ok p ->
  encrypt_as o nonce did purpose pt c = (Ok tok, c1) ->
  exists c2, decrypt_as o' did purpose (Bytes tok) c0 = (Ok p, c2).
Proof.
  intros Hk Hk' Hc Hc0 Hs Hn Hnb Hp Hpb He. destruct (purpose_token _ _ _ _ _ _ _ _ He) as (key' & Hk2 & Hpur & Hw).
  rewrite Hk in Hk2. injection Hk2 as <-. destruct (Hw Hc) as (m & k & Hm & Hd & Ht).
  apply purpose_key_Ok in Hd as (d & i & Hd & Hi & ->).
  destruct (newest_read_master o o' key m Hm Hs) as [older Hr].
  destruct (computes_decrypt o' key did purpose d i (Bytes tok) Hk' Hpur Hd Hi c0 Hc0) as (c2 & H2 & _).
  exists c2. rewrite H2, Hr. cbn [mbind result_bind fmap list_fmap _decrypt_with_any].
  rewrite (decrypt_encrypted enc dec fernet _ nonce pt p None tok Hn Hnb Hp Hpb Ht). done.
Qed.

(** A data key from a configured key file, and no explicit salt. *)
Definition key_file_env (o : observed) (path : pystr) : Prop :=
  _get_configured_key_file expanduser (o_env o) = Some path
  /\ env_set (KESTREL_DATA_KEY_SALT (o_env o)) = None /\ env_set (KESTREL_DATA_KEY_SALT_FILE (o_env o)) = None.

Lemma key_file_load o path for_write :
  key_file_env o path ->
  load_salt o for_write
  = if for_write then s ← o_write_salt o (_key_file_salt_path path); Ok (Some s)
    else o_read_salt o (_key_file_salt_path path).
Proof. intros (H1 & H2 & H3). unfold _load_passphrase_salt. by rewrite H2, H3, H1. Qed.

Lemma key_file_data_key o o' path :
  key_file_env o path -> key_file_env o' path -> o_key_file o' path = o_key_file o path ->
  data_key o' = data_key o.
Proof.
  intros (H1 & _) (H1' & _) Hf. unfold _require_data_key, _get_data_key. by rewrite H1, H1', Hf.
Qed.

(** C5. Ciphertext outlives its writer, on a host other than Windows (where
    the directory of the salt file is not synced) whose disk starts clean.
    Whatever [encrypt] wrote under a key-file passphrase with the salt a call
    returned, a later [decrypt] that sees the same key file and the salt file
    then on disk reads back, although in between other processes raced for the
    salt, system calls failed, processes died and the host crashed and
    rebooted, and although new writes may be refused by then. *)
Theorem key_file_ciphertext_survives d es h t q s es' h' o o' path c c0 nonce did purpose pt p tok c1 :
  clean_disk d -> run false (booted d) es = Some h -> h_calls h !! t = Some (q, Returned (Ok s)) ->
  run false h es' = Some h' ->
  key_file_env o path -> key_file_env o' path -> o_key_file o' path = o_key_file o path ->
  o_write_salt o (_key_file_salt_path path) = Ok s ->
  o_read_salt o' (_key_file_salt_path path) = _load_existing_key_file_salt (h_fs h') None ->
  (forall key, data_key o = Ok key -> cache_ok key c /\ cache_ok key c0) ->
  len nonce = NONCE_SIZE -> bytes_ok nonce -> encode_utf8 pt = Ok p -> bytes_ok p ->
  encrypt_as o nonce did purpose pt c = (Ok tok, c1) ->
  exists c2, decrypt_as o' did purpose (Bytes tok) c0 = (Ok p, c2).
Proof.
  intros Hd Hr Ht Hr' He He' Hf Hw Hrd Hc Hn Hnb Hp Hpb Henc.
  destruct (purpose_token _ _ _ _ _ _ _ _ Henc) as (key & Hk & _). destruct (Hc key Hk) as [Hc1 Hc2].
  apply (purpose_roundtrip o o' c c0 nonce did purpose pt p tok c1 key); try done.
  - by rewrite (key_file_data_key o o' path).
  - intros _ s'. rewrite (key_file_load o path), (key_file_load o' path), Hw, Hrd by done. intros [= <-].
    apply settled_load. pose proof (inv_run _ _ _ (inv_booted d Hd) Hr) as Hinv.
    eapply settled_run; [exact Hinv|exact Hr'|]. destruct Hinv as (_ & Hcalls & _). by apply (Hcalls t q (Returned (Ok s))).
Qed.

(** ** Refused writes *)

(** Only a [DecryptionError] moves on, and bytes raise nothing else. *)
Lemma decrypt_bytes_error c t aad e :
  Aead.decrypt dec fernet c (Bytes t) aad = Raise e -> exists m, e = DecryptionError m.
Proof.
  unfold Aead.decrypt. cbn [encode_ascii mbind result_bind]. destruct (has_prefix t).
  - destruct (strict_urlsafe_b64decode _) as [framed|]; [|intros [= <-]; eauto].
    destruct (len framed <? _); [intros [= <-]; eauto|]. cbn [raise_if mbind result_bind].
    destruct (negb _); [intros [= <-]; eauto|]. cbn [raise_if mbind result_bind].
    destruct (dec _ _ _ _); [done|intros [= <-]; eauto].
  - destruct aad; [intros [= <-]; eauto|]. destruct (fernet _ _); [done|intros [= <-]; eauto].
Qed.

Lemma try_older_bytes older t aad m r :
  try_older dec fernet older (Bytes t) aad (DecryptionError m) = r ->
  (exists i c p, older !! i = Some c /\ r = Ok p /\ Aead.decrypt dec fernet c (Bytes t) aad = Ok p
     /\ forall j c', older !! j = Some c' -> (j < i)%nat -> exists e, Aead.decrypt dec fernet c' (Bytes t) aad = Raise e)
  \/ (r = Raise (DecryptionError m)
      /\ Forall (fun c => exists e, Aead.decrypt dec fernet c (Bytes t) aad = Raise e) older).
Proof.
  revert r. induction older as [|c older IH]; intros r; cbn [try_older]; [intros <-; by right|].
  destruct (Aead.decrypt dec fernet c (Bytes t) aad) as [p|e] eqn:Hd.
  - intros <-. left. exists 0%nat, c, p. split_and!; [done..|]. intros j c' _ Hj. lia.
  - destruct (decrypt_bytes_error _ _ _ _ Hd) as [m' ->]. intros H. destruct (IH r H) as [(i & c' & p & H1 & H2 & H3 & H4)|[H1 H2]].
    + left. exists (S i), c', p. split_and!; [done..|]. intros [|j] c2 Hj Hlt; [injection Hj as <-; eauto|].
      apply (H4 j); [done|lia].
    + right. split; [done|]. constructor; eauto.
Qed.

(** Reading with several keys is exact: for a token of bytes,
    [_decrypt_with_any] returns the plaintext of the first cipher, newest
    first, that authenticates it, and fails only when every cipher rejects
    it, with the failure of the newest. *)
Theorem decrypt_with_any_exact newest older t aad :
  let ciphers := newest :: older in
  (forall p, _decrypt_with_any dec fernet ciphers (Bytes t) aad = Ok p <->
     exists i c, ciphers !! i = Some c /\ Aead.decrypt dec fernet c (Bytes t) aad = Ok p
       /\ forall j c', ciphers !! j = Some c' -> (j < i)%nat ->
            exists e, Aead.decrypt dec fernet c' (Bytes t) aad = Raise e)
  /\ (forall e, _decrypt_with_any dec fernet ciphers (Bytes t) aad = Raise e ->
        Aead.decrypt dec fernet newest (Bytes t) aad = Raise e
        /\ Forall (fun c => exists e', Aead.decrypt dec fernet c (Bytes t) aad = Raise e') ciphers).
Proof.
  intros ciphers. assert (Hex : forall r, _decrypt_with_any dec fernet ciphers (Bytes t) aad = r ->
    (exists i c p, ciphers !! i = Some c /\ r = Ok p /\ Aead.decrypt dec fernet c (Bytes t) aad = Ok p
       /\ forall j c', ciphers !! j = Some c' -> (j < i)%nat -> exists e, Aead.decrypt dec fernet c' (Bytes t) aad = Raise e)
    \/ exists e, r = Raise e /\ Aead.decrypt dec fernet newest (Bytes t) aad = Raise e
         /\ Forall (fun c => exists e', Aead.decrypt dec fernet c (Bytes t) aad = Raise e') ciphers).
  { intros r. cbn [_decrypt_with_any ciphers]. unfold ciphers. cbn [_decrypt_with_any].
    destruct (Aead.decrypt dec fernet newest (Bytes t) aad) as [p|e] eqn:Hd.
    - intros <-. left. exists 0%nat, newest, p. split_and!; [done..|]. intros j c' _ Hj. lia.
    - destruct (decrypt_bytes_error _ _ _ _ Hd) as [m ->]. intros H.
      destruct (try_older_bytes _ _ _ _ _ H) as [(i & c & p & H1 & H2 & H3 & H4)|[H1 H2]].
      + left. exists (S i), c, p. split_and!; [done..|]. intros [|j] c' Hj Hlt; [injection Hj as <-; eauto|].
        apply (H4 j); [done|lia].
      + right. exists (DecryptionError m). split_and!; [done..|]. constructor; eauto. }
  split.
  - intros p. split.
    + intros H. destruct (Hex _ H) as [(i & c & p' & H1 & [= ->] & H3 & H4)|(e & ? & _)]; [eauto|done].
    + intros (i & c & H1 & H2 & H3). destruct (Hex _ eq_refl) as [(i' & c' & p' & H1' & -> & H3' & H4')|(e & _ & _ & HF)].
      * destruct (Nat.lt_trichotomy i i') as [Hlt|[->|Hlt]].
        -- destruct (H4' i c H1 Hlt) as [e He]. congruence.
        -- congruence.
        -- destruct (H3 i' c' H1' Hlt) as [e He]. congruence.
      * apply (proj1 (Forall_lookup _ _) HF) in H1 as [e' He]. congruence.
  - intros e H. destruct (Hex _ H) as [(i & c & p & _ & ? & _)|(e' & [= <-] & H2 & H3)]; [done|]. by split.
Qed.





Lemma traverse_raw ms :
  Forall (fun m => len m = KEY_SIZE) ms -> traverse (fun k => cipher_init (Bytes k)) ms = Ok (raw_cipher <$> ms).
Proof.
  intros Hl. apply traverse_Ok, Forall2_fmap_r, Forall_Forall2_diag. apply (list.Forall_impl _ _ _ Hl).
  intros m Hm. by apply cipher_init_raw.
Qed.


Lemma data_key_get o key : data_key o = Ok key <-> exists k, _get_data_key expanduser o = Ok k /\ usable_key k = Some key.
Proof.
  unfold _require_data_key. split.
  - intros H. inv_ok. exists r. split; [done|]. by destruct (usable_key r); inv_ok.
  - intros (k & -> & Hk). cbn [mbind result_bind]. by rewrite Hk.
Qed.

Abbreviation fernet_of := (get_fernet expanduser sha256 pbkdf2).


(** ** Agent ciphers *)

Lemma cipher_for_total keys :
  Forall (fun k => len k = KEY_SIZE) (mk_read keys) -> (forall w, mk_write keys = Some w -> len w = KEY_SIZE) ->
  exists ci, _cipher_for keys = Ok ci.
Proof.
  intros Hr Hw. unfold _cipher_for, read_fallback_init. destruct (mk_write keys) as [w|].
  - rewrite cipher_init_raw by auto. cbn [mbind result_bind]. rewrite traverse_raw by done.
    destruct (bool_decide _); cbn; eauto.
  - cbn [mbind result_bind]. rewrite traverse_raw by done. cbn. eauto.
Qed.

Lemma derived_total keys salt :
  exists ci, _cipher_for (map_keys keys (fun m => _derive_agent_cipher_key hkdf m salt)) = Ok ci.
Proof.
  apply cipher_for_total; cbn.
  - apply Forall_fmap, Forall_true. intros m. unfold compose, _derive_agent_cipher_key. apply hkdf_length.
  - intros w Hw. destruct (mk_write keys); [|done]. injection Hw as <-. unfold _derive_agent_cipher_key. apply hkdf_length.
Qed.

Abbreviation agent_of := (get_agent_fernet expanduser sha256 pbkdf2 hkdf).
Abbreviation resolve_keys := (_resolve_passphrase_master_keys expanduser sha256 pbkdf2).

(** C31. When an agent has no cipher, and its callers keep plaintext: exactly
    when no data key is configured, or when a data key is configured, its
    master keys resolve, and the agent id cannot be encoded as UTF-8. *)
Theorem agent_cipher_absent o agent_id c :
  (exists c', agent_of o agent_id c = (Ok None, c')) <->
  (exists k, _get_data_key expanduser o = Ok k /\ usable_key k = None)
  \/ (exists key, data_key o = Ok key /\ utf8 agent_id = None
        /\ (_is_fernet_key key = true \/ exists keys c', resolve_keys o key c = (Ok keys, c'))).
Proof.
  unfold get_agent_fernet, mbind, km_bind, lift.
  destruct (_get_data_key expanduser o) as [k|e] eqn:Hg.
  2:{ split; [by intros [? ?]|]. intros [(k & ? & _)|(key & (k & ? & _)%data_key_get & _)]; congruence. }
  destruct (usable_key k) as [key|] eqn:Hu.
  2:{ split; [left; eauto|]. intros _. by eexists. }
  assert (Hk : data_key o = Ok key) by (apply data_key_get; eauto).
  transitivity (utf8 agent_id = None /\ (_is_fernet_key key = true \/ exists keys c', resolve_keys o key c = (Ok keys, c'))).
  2:{ split; [intros [H1 H2]; right; eauto|]. intros [(k' & [= <-] & Hu')|(key' & Hk' & H)]; [congruence|].
      rewrite Hk in Hk'. by injection Hk' as <-. }
  destruct (bool_decide (agent_id = [])) eqn:Ha.
  - apply bool_decide_eq_true in Ha as ->. split; [|by intros [? _]]. intros [c' H].
    destruct (_global_cipher_from _ _ _ o key c) as [[ci|e] c1]; done.
  - destruct (_is_fernet_key key) eqn:Hf.
    + pose proof Hf as Hf'. apply andb_true_iff in Hf' as [Hasc _].
      unfold encode_utf8. rewrite (utf8_ascii _ Hasc). unfold mret, km_ret. cbv beta iota.
      destruct (utf8 agent_id) as [salt|]; [|split; [by split; [|left]|by eexists]].
      match goal with |- context [_cipher_for ?ks] =>
        destruct (derived_total (MkMasterKeys (Some key) None [key]) salt : exists ci, _cipher_for ks = Ok ci) as [ci ->] end.
      split; [by intros [? ?]|by intros [? _]].
    + destruct (resolve_keys o key c) as [[keys|e] c1] eqn:Hr.
      * unfold mret, km_ret. destruct (utf8 agent_id) as [salt|].
        -- destruct (derived_total (map_keys keys urlsafe_b64encode) salt) as [ci ->].
           split; [by intros [? ?]|by intros [? _]].
        -- split; [|by eexists]. intros _. split; [done|]. right. eauto.
      * split; [by intros [? ?]|]. intros [_ [?|(? & ? & ?)]]; done.
Qed.
End Props.

(** ** Concrete derivations *)

Definition pad (b : list Z) : list Z := take 32 (b ++ replicate 32 0).
Definition toy_sha (b : list Z) : list Z := pad b.
Definition toy_pbkdf2 (n : Z) (salt b : list Z) : list Z := pad (salt ++ b).
Definition toy_hkdf (salt : option (list Z)) (info ikm : list Z) : list Z := pad (ikm ++ info ++ default [] salt).

Lemma pad_length b : len (pad b) = KEY_SIZE.
Proof. unfold pad, len. rewrite length_take, length_app, length_replicate. unfold KEY_SIZE. lia. Qed.

#[export] Instance toy_digests : Digests toy_sha toy_pbkdf2.
Proof. split; intros; apply pad_length. Qed.

#[export] Instance toy_hkdf_ok : Hkdf toy_hkdf.
Proof. split; intros; apply pad_length. Qed.

Definition file_env (name : string) : environ := MkEnviron None (Some (u name)) None None.

(** The host of the race, before and after the crash. *)
Definition race_host : host := default (booted empty_disk) (run false (booted empty_disk) race).
Definition rebooted_host : host := default race_host (run false race_host aftermath).

(** The writer, and a reader whose own writes are refused. *)
Definition writer_sees : observed :=
  MkObserved (file_env "/keys/k") (fun _ => FileText (u " open sesame ")) None (fun _ => Raise (OSError "none"))
    (fun _ => Ok (replicate 32 7)) (fun _ => Ok None).
Definition reader_sees : observed :=
  MkObserved (file_env "/keys/k") (fun _ => FileText (u " open sesame ")) None (fun _ => Raise (OSError "none"))
    (fun _ => Raise (KeyFileSaltUnavailableError "read-only")) (fun _ => _load_existing_key_file_salt (h_fs rebooted_host) None).

Definition written : list Z :=
  match encrypt (fun p => p) toy_sha toy_pbkdf2 toy_hkdf toy_encrypt writer_sees toy_nonce (u "did:x") (u "wallet") (Bytes [1; 2]) ∅ with
  | (Ok t, _) => t | (Raise _, _) => [] end.

Definition is_Ok {A} (r : res A) : bool := match r with Ok _ => true | Raise _ => false end.

Lemma empty_cache_ok sha pb key : cache_ok sha pb key ∅.
Proof. intros k s v _ H. discriminate H. Qed.

Lemma key_file_ciphertext_survives_witness :
  exists c2, decrypt (fun p => p) toy_sha toy_pbkdf2 toy_hkdf toy_decrypt toy_fernet reader_sees (u "did:x") (u "wallet")
    (Bytes written) ∅ = (Ok [1; 2], c2).
Proof.
  assert (Hb : is_Ok (encrypt (fun p => p) toy_sha toy_pbkdf2 toy_hkdf toy_encrypt writer_sees toy_nonce (u "did:x")
    (u "wallet") (Bytes [1; 2]) ∅).1 = true) by (vm_compute; reflexivity).
  destruct (encrypt (fun p => p) toy_sha toy_pbkdf2 toy_hkdf toy_encrypt writer_sees toy_nonce (u "did:x") (u "wallet")
    (Bytes [1; 2]) ∅) as [[tok|e] c1] eqn:He; [|discriminate Hb].
  assert (Hw : written = tok) by (unfold written; rewrite He; reflexivity). rewrite Hw.
  apply (key_file_ciphertext_survives (fun p => p) toy_sha toy_pbkdf2 toy_hkdf toy_encrypt toy_decrypt toy_fernet
    empty_disk race race_host 1 1 (replicate 32 7) aftermath rebooted_host writer_sees reader_sees (u "/keys/k") ∅ ∅
    toy_nonce (u "did:x") (u "wallet") (Bytes [1; 2]) [1; 2] tok c1 empty_disk_clean).
  - vm_compute. reflexivity.
  - vm_compute. reflexivity.
  - vm_compute. reflexivity.
  - split; [|split]; reflexivity.
  - split; [|split]; reflexivity.
  - reflexivity.
  - reflexivity.
  - reflexivity.
  - intros key _. split; apply empty_cache_ok.
  - reflexivity.
  - apply (bool_decide_unpack (Forall is_byte toy_nonce)). vm_compute. exact I.
  - reflexivity.
  - apply (bool_decide_unpack (Forall is_byte [1; 2])). vm_compute. exact I.
  - exact He.
Defined.


(** An agent id with a lone surrogate. *)
Lemma agent_cipher_absent_witness :
  exists c', get_agent_fernet (fun p => p) toy_sha toy_pbkdf2 toy_hkdf writer_sees [100; 0xD800] ∅ = (Ok None, c').
Proof.
  apply (agent_cipher_absent (fun p => p) toy_sha toy_pbkdf2 toy_hkdf writer_sees [100; 0xD800] ∅).
  right. exists (u "open sesame"). split; [reflexivity|]. split; [reflexivity|]. right.
  assert (Hb : is_Ok (_resolve_passphrase_master_keys (fun p => p) toy_sha toy_pbkdf2 writer_sees (u "open sesame") ∅).1 = true)
    by (vm_compute; reflexivity).
  destruct (_resolve_passphrase_master_keys (fun p => p) toy_sha toy_pbkdf2 writer_sees (u "open sesame") ∅) as [[keys|e] c'];
    [|discriminate Hb].
  exists keys, c'. reflexivity.
Defined.
