(* ===== verification/Supervisor.v ===== *)
(** * The child supervisor ([SubprocessIsolatedFeatureClient] of [kestrel_sdk/isolated_feature/client.py])

    The wrapper that starts, replaces and stops one feature child.  Its tasks
    run on one event loop: a step is what a task does between two points where
    it may be suspended.  A section under [_state_lock] never awaits, so it is
    one step.  A task awaited through [_await_owned_task] is part of the task
    that awaits it: a cancellation that arrives meanwhile is recorded.  The done
    callbacks of spawn tasks, startup phases and operations are tasks; those
    that only reduce a shutdown or close task to its outcome run at once.

    The environment says when subprocess creation ends, when processes exit,
    when requests and phases settle, and when callers are cancelled; a bounded
    wait may resume at any time and looks at what it waited for.  A process, its
    client and the task that created it share one name; the requests to the
    child are those of [RpcClient].  This file is the state and the sections
    under the lock. *)

From stdpp Require Import gmap.
From S2P Require Export PyData.

(** ** Records *)

(** A task that a retirement starts at most once: [_attempted], [_settled] and
    [_succeeded]. *)
Inductive phase : Type := NotStarted | InFlight | Settled (succeeded : bool).

(** [_ChildRetirement] *)
Record retirement := MkRetirement {
  rt_client : option positive;
  rt_process : option positive;
  rt_task : positive;
  rt_wait : phase;
  rt_shutdown : phase;
  rt_close : phase;
  rt_terminate_requested : bool;
  rt_kill_requested : bool;
  rt_spawn_task : option positive;
  rt_spawn_cancel_requested : bool;
  rt_startup_tasks : gset positive;
  rt_startup_cancel_requested : gset positive
}.

(** [process], [client], [_generation], and the event handlers: the wrapper's
    and those of each client. *)
Record published := MkPublished {
  p_process : option positive;
  p_client : option positive;
  p_generation : Z;
  p_handlers : list positive;
  p_attached : gmap positive (list positive)
}.

Record slot := MkSlot {
  sl_starting : bool;
  sl_starting_generation : option Z;
  sl_start_uncertain_generation : option Z;
  sl_start_settled : bool;
  sl_startup_tasks : gset positive;
  sl_startup_cancel_requested : gset positive;
  sl_spawn_task : option positive;
  sl_spawn_cancel_requested : bool
}.

Record operations := MkOperations {
  op_active : gset positive;
  op_retiring : gset positive;
  op_cancel_requested : gset positive;
  op_lifecycle : option positive;
  op_stopping : bool;
  op_stop_task : option positive
}.

(** [_retirements], and every record it has held. *)
Record retired := MkRetired { re_list : list positive; re_records : gmap positive retirement }.

(** [_PendingConfigTransition], named by its operation.  A config is kept by
    reference. *)
Record pending_transition := MkPending { pt_op : positive; pt_previous : option positive; pt_next : positive }.

Inductive spawn_state : Type := Spawning | Spawned | SpawnFailed.

(** What the environment has done: spawn tasks; processes that exited, and
    whose [returncode] is set; clients whose stream is closed ([_closed_exc])
    or that require replacement; settled startup phases, with their success and
    whether a health reply was ready; operations whose asyncio task is done;
    tasks with a cancellation to deliver. *)
Record environment := MkEnvironment {
  e_spawns : gmap positive spawn_state;
  e_exited : gset positive;
  e_returncodes : gset positive;
  e_closed : gset positive;
  e_fenced : gset positive;
  e_phases : gmap positive (bool * bool);
  e_done : gset positive;
  e_cancels : gset positive
}.

(** ** Tasks *)

(** The locals of [_start]; [lo_failed] is a failure or a recorded
    cancellation. *)
Record start_locals := MkLocals {
  lo_generation : option Z;
  lo_process : option positive;
  lo_client : option positive;
  lo_spawn : option positive;
  lo_claimed : bool;
  lo_failed : bool
}.

Inductive startup_phase : Type := Initialize | Health | Sleep | ListTools.

(** Where [start] is: [SClaim] to [SCleaned] are [_retire_startup_child],
    [first] when it runs before the finalizer. *)
Inductive start_pc : Type :=
| SRegister
| SLifecycle
| STerminal
| STerminalJoin (r task : positive)
| STerminalRelease (r : positive)
| SAdmit
| SSpawnWait (s : positive)
| SPhaseWait (k : startup_phase) (task : positive)
| SClaim (first : bool)
| SJoin (first : bool) (r task : positive)
| SRelease (first : bool) (r : positive)
| SCleaned (first : bool)
| SFinalize
| SSettled
| SUnregister.

(** The locals of [_retire_child]. *)
Record retire_locals := MkRetireLocals {
  rl_spawn_retired : bool;
  rl_startup_retired : bool;
  rl_client : option positive;
  rl_shutdown_settled : bool;
  rl_process : option positive;
  rl_process_retired : bool;
  rl_close_started : bool;
  rl_client_retired : bool
}.

Inductive retire_pc : Type :=
| RBegin
| RSpawnWait (s : positive)
| RSpawnAdopt (s : positive) (succeeded : bool)
| RStartupWait (spawn_retired : bool)
| RShutdownWait (l : retire_locals)
| RProcessWait (l : retire_locals)
| RTerminateWait (l : retire_locals)
| RKillWait (l : retire_locals)
| RCloseWait (l : retire_locals)
| RClientRelease (l : retire_locals)
| RFinalWait (l : retire_locals).

(** Where a stop attempt is; [again] is the second settlement wait. *)
Inductive stop_pc : Type :=
| ABegin (caller : option positive)
| AStartWait (again : bool) (g : Z)
| AStartCheck (again : bool) (g : Z)
| AMark (g : Z)
| AClear
| AReap
| AJoin (complete : list positive)
| AJoinWait (r task : positive) (todo complete : list positive)
| ANone
| AOperations (children : bool)
| AOperationsWait (children : bool)
| AFinish (result : bool).

(** Where a health check or a config transition is. *)
Inductive op_pc : Type :=
| ORegister
| OLifecycle
| OCurrent
| OPending (client : positive) (g : Z)
| ORequest (client : positive) (g : Z) (was_required : bool)
| OCheck (client : positive) (g : Z)
| OFinish (retain_next ok : bool)
| OFinished (ok : bool)
| OUnregister (ok : bool)
| OReturn (ok : bool).

(** [Operation (Some c)] is [prepare_config_transition(c)]. *)
Inductive task : Type :=
| Start (pc : start_pc) (l : start_locals)
| Operation (next : option positive) (pc : op_pc)
| Stop (pc : stop_pc)
| Retire (r : positive) (pc : retire_pc)
| RetireDone (r : positive) (complete : bool)
| SpawnCallback (s : positive)
| StartupCallback (f : positive)
| LateSpawn (r s : positive)
| LateSpawnJoin (r task : positive)
| LateSpawnRelease (r : positive)
| ReleaseOperation (op : positive)
| Finished (ok : bool).

Record world := MkWorld {
  w_pub : published;
  w_slot : slot;
  w_ops : operations;
  w_ret : retired;
  w_config : option positive;
  w_pending : option pending_transition;
  w_env : environment;
  w_tasks : gmap positive task;
  w_next : positive
}.

(** [SubprocessIsolatedFeatureClient(...)] *)
Definition init (config : option positive) : world :=
  MkWorld (MkPublished None None 0 [] ∅) (MkSlot false None None true ∅ ∅ None false)
    (MkOperations ∅ ∅ ∅ None false None) (MkRetired [] ∅) config None
    (MkEnvironment ∅ ∅ ∅ ∅ ∅ ∅ ∅ ∅) ∅ 1%positive.

(** ** Updates *)

Definition set_pub (x : published) (w : world) : world :=
  MkWorld x (w_slot w) (w_ops w) (w_ret w) (w_config w) (w_pending w) (w_env w) (w_tasks w) (w_next w).
Definition set_slot (x : slot) (w : world) : world :=
  MkWorld (w_pub w) x (w_ops w) (w_ret w) (w_config w) (w_pending w) (w_env w) (w_tasks w) (w_next w).
Definition set_ops (x : operations) (w : world) : world :=
  MkWorld (w_pub w) (w_slot w) x (w_ret w) (w_config w) (w_pending w) (w_env w) (w_tasks w) (w_next w).
Definition set_ret (x : retired) (w : world) : world :=
  MkWorld (w_pub w) (w_slot w) (w_ops w) x (w_config w) (w_pending w) (w_env w) (w_tasks w) (w_next w).
Definition set_config (c : option positive) (p : option pending_transition) (w : world) : world :=
  MkWorld (w_pub w) (w_slot w) (w_ops w) (w_ret w) c p (w_env w) (w_tasks w) (w_next w).
Definition set_env (x : environment) (w : world) : world :=
  MkWorld (w_pub w) (w_slot w) (w_ops w) (w_ret w) (w_config w) (w_pending w) x (w_tasks w) (w_next w).
Definition set_task (t : positive) (x : task) (w : world) : world :=
  MkWorld (w_pub w) (w_slot w) (w_ops w) (w_ret w) (w_config w) (w_pending w) (w_env w) (<[t := x]> (w_tasks w))
    (w_next w).

(** [asyncio.create_task]: the task runs at a later turn of the loop. *)
Definition create_task (x : task) (w : world) : world :=
  MkWorld (w_pub w) (w_slot w) (w_ops w) (w_ret w) (w_config w) (w_pending w) (w_env w)
    (<[w_next w := x]> (w_tasks w)) (Pos.succ (w_next w)).

(** A new name. *)
Definition take_name (w : world) : world :=
  MkWorld (w_pub w) (w_slot w) (w_ops w) (w_ret w) (w_config w) (w_pending w) (w_env w) (w_tasks w)
    (Pos.succ (w_next w)).

(** [task.cancel()] *)
Definition cancel (t : positive) (w : world) : world :=
  let e := w_env w in
  set_env (MkEnvironment (e_spawns e) (e_exited e) (e_returncodes e) (e_closed e) (e_fenced e) (e_phases e) (e_done e)
             ({[t]} ∪ e_cancels e)) w.

Definition set_cancels (x : gset positive) (w : world) : world :=
  let e := w_env w in
  set_env (MkEnvironment (e_spawns e) (e_exited e) (e_returncodes e) (e_closed e) (e_fenced e) (e_phases e) (e_done e)
             x) w.

Definition record (r : positive) (w : world) : option retirement := re_records (w_ret w) !! r.
Definition set_record (r : positive) (x : retirement) (w : world) : world :=
  set_ret (MkRetired (re_list (w_ret w)) (<[r := x]> (re_records (w_ret w)))) w.

Definition rt_set_task (t : positive) (x : retirement) : retirement :=
  MkRetirement (rt_client x) (rt_process x) t (rt_wait x) (rt_shutdown x) (rt_close x) (rt_terminate_requested x)
    (rt_kill_requested x) (rt_spawn_task x) (rt_spawn_cancel_requested x) (rt_startup_tasks x)
    (rt_startup_cancel_requested x).
Definition rt_set_client (c : option positive) (x : retirement) : retirement :=
  MkRetirement c (rt_process x) (rt_task x) (rt_wait x) (rt_shutdown x) (rt_close x) (rt_terminate_requested x)
    (rt_kill_requested x) (rt_spawn_task x) (rt_spawn_cancel_requested x) (rt_startup_tasks x)
    (rt_startup_cancel_requested x).
Definition rt_set_process (p : option positive) (x : retirement) : retirement :=
  MkRetirement (rt_client x) p (rt_task x) (rt_wait x) (rt_shutdown x) (rt_close x) (rt_terminate_requested x)
    (rt_kill_requested x) (rt_spawn_task x) (rt_spawn_cancel_requested x) (rt_startup_tasks x)
    (rt_startup_cancel_requested x).
Definition rt_set_phases (wait shutdown close : phase) (x : retirement) : retirement :=
  MkRetirement (rt_client x) (rt_process x) (rt_task x) wait shutdown close (rt_terminate_requested x)
    (rt_kill_requested x) (rt_spawn_task x) (rt_spawn_cancel_requested x) (rt_startup_tasks x)
    (rt_startup_cancel_requested x).
Definition rt_set_signals (terminate kill : bool) (x : retirement) : retirement :=
  MkRetirement (rt_client x) (rt_process x) (rt_task x) (rt_wait x) (rt_shutdown x) (rt_close x) terminate kill
    (rt_spawn_task x) (rt_spawn_cancel_requested x) (rt_startup_tasks x) (rt_startup_cancel_requested x).
Definition rt_set_spawn (s : option positive) (requested : bool) (x : retirement) : retirement :=
  MkRetirement (rt_client x) (rt_process x) (rt_task x) (rt_wait x) (rt_shutdown x) (rt_close x)
    (rt_terminate_requested x) (rt_kill_requested x) s requested (rt_startup_tasks x) (rt_startup_cancel_requested x).
Definition rt_set_startup (tasks requested : gset positive) (x : retirement) : retirement :=
  MkRetirement (rt_client x) (rt_process x) (rt_task x) (rt_wait x) (rt_shutdown x) (rt_close x)
    (rt_terminate_requested x) (rt_kill_requested x) (rt_spawn_task x) (rt_spawn_cancel_requested x) tasks requested.

Definition rt_start_wait (x : retirement) : retirement :=
  match rt_wait x with NotStarted => rt_set_phases InFlight (rt_shutdown x) (rt_close x) x | _ => x end.
Definition rt_start_shutdown (x : retirement) : retirement :=
  match rt_shutdown x with NotStarted => rt_set_phases (rt_wait x) InFlight (rt_close x) x | _ => x end.
Definition rt_start_close (x : retirement) : retirement :=
  match rt_close x with NotStarted => rt_set_phases (rt_wait x) (rt_shutdown x) InFlight x | _ => x end.

Definition settled (p : phase) : bool := match p with Settled _ => true | _ => false end.
Definition succeeded (p : phase) : bool := match p with Settled b => b | _ => false end.

(** ** The start slot *)

Definition sl_set_uncertain (g : option Z) (sl : slot) : slot :=
  MkSlot (sl_starting sl) (sl_starting_generation sl) g (sl_start_settled sl) (sl_startup_tasks sl)
    (sl_startup_cancel_requested sl) (sl_spawn_task sl) (sl_spawn_cancel_requested sl).
Definition sl_set_startup (tasks requested : gset positive) (sl : slot) : slot :=
  MkSlot (sl_starting sl) (sl_starting_generation sl) (sl_start_uncertain_generation sl) (sl_start_settled sl)
    tasks requested (sl_spawn_task sl) (sl_spawn_cancel_requested sl).
Definition sl_set_spawn (s : option positive) (requested : bool) (sl : slot) : slot :=
  MkSlot (sl_starting sl) (sl_starting_generation sl) (sl_start_uncertain_generation sl) (sl_start_settled sl)
    (sl_startup_tasks sl) (sl_startup_cancel_requested sl) s requested.

Definition _start_is_settled_locked (sl : slot) (g : Z) : bool :=
  bool_decide (sl_starting_generation sl <> Some g) && sl_start_settled sl.

Definition _clear_settled_start_uncertainty_locked (sl : slot) : slot :=
  match sl_start_uncertain_generation sl with
  | Some g => if _start_is_settled_locked sl g then sl_set_uncertain None sl else sl
  | None => sl
  end.

(** The admission of generation [g]. *)
Definition admit_start (g : Z) (sl : slot) : slot :=
  MkSlot true (Some g) (sl_start_uncertain_generation sl) false (sl_startup_tasks sl)
    (sl_startup_cancel_requested sl) (sl_spawn_task sl) (sl_spawn_cancel_requested sl).

Definition _finalize_start (g : Z) (sl : slot) : slot :=
  if bool_decide (sl_starting_generation sl = Some g) then
    MkSlot false None
      (if bool_decide (sl_start_uncertain_generation sl = Some g) then None else sl_start_uncertain_generation sl)
      true (sl_startup_tasks sl) (sl_startup_cancel_requested sl) (sl_spawn_task sl) (sl_spawn_cancel_requested sl)
  else sl.

(** ** Operations *)

Definition op_set_lifecycle (t : option positive) (o : operations) : operations :=
  MkOperations (op_active o) (op_retiring o) (op_cancel_requested o) t (op_stopping o) (op_stop_task o).
Definition op_set_sets (active retiring requested : gset positive) (o : operations) : operations :=
  MkOperations active retiring requested (op_lifecycle o) (op_stopping o) (op_stop_task o).
Definition op_set_stop (stopping : bool) (t : option positive) (o : operations) : operations :=
  MkOperations (op_active o) (op_retiring o) (op_cancel_requested o) (op_lifecycle o) stopping t.

Definition _prune_completed_operations_locked (done : gset positive) (o : operations) : operations :=
  op_set_sets (op_active o ∖ done) (op_retiring o ∖ done) (op_cancel_requested o ∖ done) o.

(** [_register_operation]: the world, and whether the operation is admitted. *)
Definition _register_operation (t : positive) (w : world) : world * bool :=
  let o := _prune_completed_operations_locked (e_done (w_env w)) (w_ops w) in
  if op_stopping o || bool_decide (op_retiring o <> ∅) || bool_decide (re_list (w_ret w) <> [])
     || bool_decide (sl_start_uncertain_generation (w_slot w) <> None)
  then (set_ops o w, false)
  else (set_ops (op_set_sets ({[t]} ∪ op_active o) (op_retiring o) (op_cancel_requested o) o) w, true).

Definition _unregister_operation (t : positive) (o : operations) : operations :=
  op_set_sets (op_active o ∖ {[t]}) (op_retiring o)
    (if bool_decide (t ∈ op_retiring o) then op_cancel_requested o else op_cancel_requested o ∖ {[t]}) o.

Definition _unregister_successful_start_at_return (t : positive) (o : operations) : operations :=
  op_set_sets (op_active o ∖ {[t]}) (op_retiring o) (op_cancel_requested o ∖ {[t]}) o.

Definition _release_retired_operation_owned (t : positive) (done : gset positive) (o : operations) : operations :=
  if bool_decide (t ∈ done) then op_set_sets (op_active o) (op_retiring o ∖ {[t]}) (op_cancel_requested o ∖ {[t]}) o
  else o.

(** ** The published child *)

Definition p_set_child (process client : option positive) (g : Z) (p : published) : published :=
  MkPublished process client g (p_handlers p) (p_attached p).

(** [self.process = process; self.client = client], after the wrapper's
    handlers were attached to the new client. *)
Definition publish (s : positive) (p : published) : published :=
  MkPublished (Some s) (Some s) (p_generation p) (p_handlers p) (<[s := p_handlers p]> (p_attached p)).

Definition on_event (h : positive) (p : published) : published :=
  MkPublished (p_process p) (p_client p) (p_generation p) (p_handlers p ++ [h])
    (match p_client p with
     | Some c => <[c := (p_attached p !!! c) ++ [h]]> (p_attached p)
     | None => p_attached p
     end).

Definition _published_child_is_terminal_locked (w : world) : bool :=
  match p_process (w_pub w) with Some p => bool_decide (p ∈ e_returncodes (w_env w)) | None => false end
  || match p_client (w_pub w) with Some c => bool_decide (c ∈ e_closed (w_env w)) | None => false end.

(** ** Retirements *)

(** [x is not None and x is y] *)
Definition same (x y : option positive) : bool := bool_decide (x <> None /\ x = y).

(** [_adopt_retired_startup_tasks_locked] with the move of the cancellation
    marks. *)
Definition adopt_startup (sl : slot) (x : retirement) : retirement :=
  rt_set_startup (rt_startup_tasks x ∪ sl_startup_tasks sl)
    (rt_startup_cancel_requested x ∪ sl_startup_cancel_requested sl) x.

Definition attach_spawn (spawn : option positive) (requested : bool) (x : retirement) : retirement :=
  match spawn with
  | None => x
  | Some _ => match rt_spawn_task x with
              | None => rt_set_spawn spawn requested x
              | s => rt_set_spawn s (rt_spawn_cancel_requested x || requested) x
              end
  end.

Definition owns (client process spawn : option positive) (w : world) (r : positive) : bool :=
  match record r w with
  | Some x => same client (rt_client x) || same process (rt_process x) || same spawn (rt_spawn_task x)
  | None => false
  end.

(** A new task that runs [_retire_child]. *)
Definition retry_retirement (r : positive) (x : retirement) (w : world) : world :=
  set_record r (rt_set_task (w_next w) x) (create_task (Retire r RBegin) w).

(** [take] when [self._startup_tasks] is passed; the returned name is the
    record. *)
Definition _claim_retirement_locked (client process : option positive) (take : bool) (spawn : option positive)
    (requested : bool) (w : world) : world * option positive :=
  let startup := take && bool_decide (sl_startup_tasks (w_slot w) <> ∅) in
  let adopt x := if startup then adopt_startup (w_slot w) x else x in
  let w1 := if startup then set_slot (sl_set_startup ∅ ∅ (w_slot w)) w else w in
  if bool_decide (client = None) && bool_decide (process = None) && negb startup && bool_decide (spawn = None)
  then (w, None)
  else match List.find (owns client process spawn w) (re_list (w_ret w)) with
       | Some r =>
           (match record r w with
            | Some x => set_record r (attach_spawn spawn requested (adopt x)) w1
            | None => w1
            end, Some r)
       | None =>
           let r := w_next w in
           let x := adopt (MkRetirement client process r NotStarted NotStarted NotStarted false false spawn requested
                             ∅ ∅) in
           let w2 := retry_retirement r x (take_name w1) in
           (set_ret (MkRetired (re_list (w_ret w2) ++ [r]) (re_records (w_ret w2))) w2, Some r)
       end.

(** [list.remove] *)
Fixpoint remove_first (r : positive) (l : list positive) : list positive :=
  match l with [] => [] | x :: l => if bool_decide (x = r) then l else x :: remove_first r l end.

Definition _remove_retirement_if_complete_locked (r : positive) (w : world) : world * bool :=
  match record r w with
  | Some x =>
      if bool_decide (rt_startup_tasks x <> ∅) || bool_decide (rt_spawn_task x <> None) then (w, false)
      else if bool_decide (r ∈ re_list (w_ret w))
           then (set_ret (MkRetired (remove_first r (re_list (w_ret w))) (re_records (w_ret w))) w, true)
           else (w, false)
  | None => (w, false)
  end.

(** ** Cancellation, requested once *)

Definition spawn_done (s : positive) (w : world) : bool :=
  match e_spawns (w_env w) !! s with Some Spawned | Some SpawnFailed => true | _ => false end.
Definition startup_done (f : positive) (w : world) : bool := bool_decide (is_Some (e_phases (w_env w) !! f)).

Definition _cancel_retired_spawn_once (r s : positive) (w : world) : world :=
  match record r w with
  | Some x => if spawn_done s w || rt_spawn_cancel_requested x then w
              else cancel s (set_record r (rt_set_spawn (rt_spawn_task x) true x) w)
  | None => w
  end.

Definition _cancel_spawn_once (s : positive) (w : world) : world :=
  if spawn_done s w then w
  else if bool_decide (sl_spawn_task (w_slot w) = Some s)
       then if sl_spawn_cancel_requested (w_slot w) then w
            else cancel s (set_slot (sl_set_spawn (Some s) true (w_slot w)) w)
       else match List.find (owns None None (Some s) w) (re_list (w_ret w)) with
            | Some r => _cancel_retired_spawn_once r s w
            | None => w
            end.

Definition _cancel_retired_startup_task_once (r f : positive) (w : world) : world :=
  match record r w with
  | Some x => if startup_done f w || bool_decide (f ∈ rt_startup_cancel_requested x) then w
              else cancel f (set_record r (rt_set_startup (rt_startup_tasks x)
                                             ({[f]} ∪ rt_startup_cancel_requested x) x) w)
  | None => w
  end.

Definition holds_startup (f : positive) (w : world) (r : positive) : bool :=
  match record r w with Some x => bool_decide (f ∈ rt_startup_tasks x) | None => false end.

Definition _cancel_startup_task_once (f : positive) (w : world) : world :=
  let sl := w_slot w in
  if startup_done f w then w
  else if bool_decide (f ∈ sl_startup_tasks sl)
       then if bool_decide (f ∈ sl_startup_cancel_requested sl) then w
            else cancel f (set_slot (sl_set_startup (sl_startup_tasks sl)
                                       ({[f]} ∪ sl_startup_cancel_requested sl) sl) w)
       else match List.find (holds_startup f w) (re_list (w_ret w)) with
            | Some r => _cancel_retired_startup_task_once r f w
            | None => w
            end.

(** ** Done callbacks *)

(** [_finish_startup_task] and [_finish_retired_startup_task] *)
Definition _finish_startup_task (f : positive) (w : world) : world :=
  let sl := w_slot w in
  set_slot (sl_set_startup (sl_startup_tasks sl ∖ {[f]}) (sl_startup_cancel_requested sl ∖ {[f]}) sl) w.

Definition _finish_retired_startup_task (fs : gset positive) (x : retirement) : retirement :=
  rt_set_startup (rt_startup_tasks x ∖ fs) (rt_startup_cancel_requested x ∖ (fs ∩ rt_startup_tasks x)) x.

Definition _on_spawn_task_done (s : positive) (w : world) : world :=
  if bool_decide (sl_spawn_task (w_slot w) = Some s) then w
  else match List.find (owns None None (Some s) w) (re_list (w_ret w)) with
       | Some r => create_task (LateSpawn r s) w
       | None => w
       end.
