(* ===== verification/SupervisorSteps.v ===== *)
(** * The child supervisor: tasks

    What each task of [SubprocessIsolatedFeatureClient] does between two
    suspension points, the environment's events, and the worlds they reach. *)

From stdpp Require Import gmap.
From S2P Require Export Supervisor.

Definition cancelled (t : positive) (w : world) : bool := bool_decide (t ∈ e_cancels (w_env w)).

Definition release_lifecycle (w : world) : world := set_ops (op_set_lifecycle None (w_ops w)) w.

(** ** [start] *)

Definition fail (l : start_locals) : start_locals :=
  MkLocals (lo_generation l) (lo_process l) (lo_client l) (lo_spawn l) (lo_claimed l) true.
Definition claimed (l : start_locals) : start_locals :=
  MkLocals (lo_generation l) (lo_process l) (lo_client l) (lo_spawn l) true (lo_failed l).
Definition no_locals : start_locals := MkLocals None None None None false false.

(** [_start] is left: the lifecycle lock is released, and a successful
    [start] returns in the same step. *)
Definition start_leave (t : positive) (l : start_locals) (w : world) : world :=
  let w1 := release_lifecycle w in
  if lo_failed l then set_task t (Start SUnregister l) w1
  else set_task t (Finished true) (set_ops (_unregister_successful_start_at_return t (w_ops w1)) w1).

(** The [except] clause of [_start]. *)
Definition start_fail (t : positive) (l : start_locals) (w : world) : world :=
  if bool_decide (lo_process l <> None) || bool_decide (lo_spawn l <> None)
  then set_task t (Start (SClaim true) (claimed (fail l))) w
  else match lo_generation l with
       | Some _ => set_task t (Start SFinalize (fail l)) w
       | None => start_leave t (fail l) w
       end.

(** [_await_startup_phase] up to its wait. *)
Definition begin_phase (k : startup_phase) (t : positive) (l : start_locals) (w : world) : world :=
  let f := w_next w in
  let sl := w_slot w in
  let w1 := set_slot (sl_set_startup ({[f]} ∪ sl_startup_tasks sl) (sl_startup_cancel_requested sl) sl) (take_name w) in
  set_task t (Start (SPhaseWait k f) l) w1.

(** The phase after [k], [_wait_until_ready] included. *)
Definition next_phase (k : startup_phase) (ready : bool) : option startup_phase :=
  match k with
  | Initialize => Some Health
  | Health => Some (if ready then ListTools else Sleep)
  | Sleep => Some Health
  | ListTools => None
  end.

(** One turn of [_retire_terminal_published_child]. *)
Definition retire_terminal (t : positive) (l : start_locals) (w : world) : option world :=
  if _published_child_is_terminal_locked w then
    let p := w_pub w in
    let w1 := set_pub (p_set_child None None (p_generation p + 1) p) w in
    match _claim_retirement_locked (p_client p) (p_process p) false None false w1 with
    | (w2, Some r) => x ← record r w2; Some (set_task t (Start (STerminalJoin r (rt_task x)) l) w2)
    | (w2, None) => Some (set_task t (Start SAdmit l) w2)
    end
  else Some (set_task t (Start SAdmit l) w).

(** The admission section of [_start], with the creation of the spawn task. *)
Definition start_admit (t : positive) (l : start_locals) (w : world) : world :=
  let w1 := set_slot (_clear_settled_start_uncertainty_locked (w_slot w)) w in
  let o := w_ops w in
  if bool_decide (p_process (w_pub w) <> None) || bool_decide (p_client (w_pub w) <> None) then
    if _published_child_is_terminal_locked w then set_task t (Start STerminal l) w1 else start_leave t l w1
  else if op_stopping o || sl_starting (w_slot w1)
          || bool_decide (sl_start_uncertain_generation (w_slot w1) <> None)
          || bool_decide (re_list (w_ret w) <> []) || bool_decide (op_retiring o <> ∅)
          || match op_stop_task o with
             | Some a => match w_tasks w !! a with Some (Finished _) => false | _ => true end
             | None => false
             end
  then start_fail t l w1
  else
    let g := p_generation (w_pub w) in
    let s := w_next w in
    let e := w_env w in
    let w2 := set_ops (op_set_stop (op_stopping o) None o) (take_name w1) in
    let w3 := set_slot (sl_set_spawn (Some s) false (admit_start g (w_slot w1))) w2 in
    let w4 := set_env (MkEnvironment (<[s := Spawning]> (e_spawns e)) (e_exited e) (e_returncodes e) (e_closed e)
                         (e_fenced e) (e_phases e) (e_done e) (e_cancels e)) w3 in
    set_task t (Start (SSpawnWait s) (MkLocals (Some g) None None (Some s) (lo_claimed l) (lo_failed l))) w4.

(** [_start] after [_await_spawn_phase]; [pipes] when the process has both
    stdio pipes. *)
Definition start_publish (t s : positive) (l : start_locals) (pipes : bool) (w : world) : world :=
  let sl := w_slot w in
  let w1 := if bool_decide (sl_spawn_task sl = Some s) then set_slot (sl_set_spawn None false sl) w else w in
  let l1 := MkLocals (lo_generation l) (Some s) None None (lo_claimed l) (lo_failed l) in
  if pipes then
    begin_phase Initialize t (MkLocals (lo_generation l) (Some s) (Some s) None (lo_claimed l) (lo_failed l))
      (set_pub (publish s (w_pub w1)) w1)
  else start_fail t l1 w1.

(** The section of [_retire_startup_child]. *)
Definition start_claim (first : bool) (t : positive) (l : start_locals) (w : world) : option world :=
  let p := w_pub w in
  let sl := w_slot w in
  let w1 := if (bool_decide (lo_client l <> None) || bool_decide (lo_process l <> None))
               && bool_decide (p_client p = lo_client l) && bool_decide (p_process p = lo_process l)
            then set_pub (p_set_child None None (p_generation p + 1) p) w else w in
  let own := bool_decide (sl_spawn_task sl = lo_spawn l) in
  let w2 := if own then set_slot (sl_set_spawn None false sl) w1 else w1 in
  match _claim_retirement_locked (lo_client l) (lo_process l) true (lo_spawn l)
          (own && sl_spawn_cancel_requested sl) w2 with
  | (w3, Some r) => x ← record r w3; Some (set_task t (Start (SJoin first r (rt_task x)) l) w3)
  | (w3, None) => Some (set_task t (Start (SCleaned first) l) w3)
  end.

Definition start_settled (t : positive) (l : start_locals) (w : world) : world :=
  if negb (lo_claimed l) && lo_failed l
     && (bool_decide (lo_client l <> None) || bool_decide (lo_process l <> None))
  then set_task t (Start (SClaim false) (claimed l)) w
  else start_leave t l w.

Definition retirement_result (task : positive) (w : world) : option bool :=
  match w_tasks w !! task with Some (RetireDone _ complete) => Some complete | _ => None end.

Definition uncancelled (t : positive) (w : world) : option unit := if cancelled t w then None else Some tt.

Definition run_start (t : positive) (pc : start_pc) (l : start_locals) (answer : bool) (w : world) : option world :=
  match pc with
  | SRegister =>
      let '(w1, ok) := _register_operation t w in
      Some (set_task t (if ok then Start SLifecycle l else Finished false) w1)
  | SLifecycle =>
      match op_lifecycle (w_ops w) with
      | None => Some (set_task t (Start STerminal l) (set_ops (op_set_lifecycle (Some t) (w_ops w)) w))
      | Some _ => None
      end
  | STerminal => retire_terminal t l w
  | STerminalJoin r task =>
      _ ← uncancelled t w;
      complete ← retirement_result task w;
      Some (if complete : bool then set_task t (Start (STerminalRelease r) l) w else start_fail t l w)
  | STerminalRelease r =>
      let '(w1, complete) := _remove_retirement_if_complete_locked r w in
      Some (if negb complete || lo_failed l then start_fail t l w1 else set_task t (Start SAdmit l) w1)
  | SAdmit => Some (start_admit t l w)
  | SSpawnWait s =>
      _ ← uncancelled t w;
      state ← e_spawns (w_env w) !! s;
      Some (match state with
            | Spawning => start_fail t l (_cancel_spawn_once s w)
            | SpawnFailed => start_fail t l w
            | Spawned => start_publish t s l answer w
            end)
  | SPhaseWait k f =>
      _ ← uncancelled t w;
      Some (match e_phases (w_env w) !! f with
            | None => start_fail t l (_cancel_startup_task_once f w)
            | Some (false, _) => start_fail t l w
            | Some (true, ready) =>
                match next_phase k ready with
                | Some k' => begin_phase k' t l w
                | None => set_task t (Start SFinalize l) w
                end
            end)
  | SClaim first => start_claim first t l w
  | SJoin first r task =>
      complete ← retirement_result task w;
      Some (set_task t (Start (if complete : bool then SRelease first r else SCleaned first) l) w)
  | SRelease first r =>
      Some (set_task t (Start (SCleaned first) l) (_remove_retirement_if_complete_locked r w).1)
  | SCleaned first =>
      _ ← uncancelled t w;
      Some (if first then set_task t (Start SFinalize l) w else start_leave t l w)
  | SFinalize =>
      g ← lo_generation l;
      Some (set_task t (Start SSettled l) (set_slot (_finalize_start g (w_slot w)) w))
  | SSettled => _ ← uncancelled t w; Some (start_settled t l w)
  | SUnregister => Some (set_task t (Finished false) (set_ops (_unregister_operation t (w_ops w)) w))
  end.

(** A [CancelledError] raised where the task is suspended. *)
Definition interrupt_start (t : positive) (pc : start_pc) (l : start_locals) (w : world) : world :=
  match pc with
  | SRegister => set_task t (Finished false) w
  | SLifecycle => set_task t (Start SUnregister (fail l)) w
  | STerminal | STerminalRelease _ | SAdmit => start_fail t l w
  | SSpawnWait s => start_fail t l (_cancel_spawn_once s w)
  | SPhaseWait _ f => start_fail t l (_cancel_startup_task_once f w)
  | _ => set_task t (Start pc (fail l)) w
  end.

(** ** [health] and [prepare_config_transition] *)

Definition op_leave (t : positive) (next : option positive) (ok : bool) (w : world) : world :=
  set_task t (Operation next (OUnregister ok)) (release_lifecycle w).

Definition is_current (client : positive) (g : Z) (w : world) : bool :=
  bool_decide (p_generation (w_pub w) = g) && bool_decide (p_client (w_pub w) = Some client).

(** [_finish_transition] of the operation [t]. *)
Definition _finish_transition (t : positive) (retain_next : bool) (w : world) : world :=
  match w_pending w with
  | Some p => if bool_decide (pt_op p = t)
              then set_config (if retain_next then Some (pt_next p) else pt_previous p) None w else w
  | None => w
  end.

(** The request ended; [ok] when it returned a result (a fenced client rejects a
    transition). *)
Definition request_ended (t client : positive) (g : Z) (next : option positive) (was_required ok : bool)
    (w : world) : world :=
  match next with
  | None => if ok then set_task t (Operation next (OCheck client g)) w else op_leave t next false w
  | Some _ =>
      let retain_next := ok || (negb was_required && bool_decide (client ∈ e_fenced (w_env w))) in
      if was_required then op_leave t next ok w
      else set_task t (Operation next (OFinish retain_next ok)) w
  end.

Definition run_operation (t : positive) (next : option positive) (pc : op_pc) (answer : bool) (w : world)
    : option world :=
  match pc with
  | ORegister =>
      let '(w1, ok) := _register_operation t w in
      Some (set_task t (if ok then Operation next OLifecycle else Finished false) w1)
  | OLifecycle =>
      match op_lifecycle (w_ops w) with
      | None => Some (set_task t (Operation next OCurrent) (set_ops (op_set_lifecycle (Some t) (w_ops w)) w))
      | Some _ => None
      end
  | OCurrent =>
      Some (match p_client (w_pub w) with
            | Some c =>
                if op_stopping (w_ops w) then op_leave t next false w
                else
                  let g := p_generation (w_pub w) in
                  let required := bool_decide (c ∈ e_fenced (w_env w)) in
                  match next with
                  | Some _ => set_task t (Operation next (if required then ORequest c g true else OPending c g)) w
                  | None => set_task t (Operation next (ORequest c g false)) w
                  end
            | None => op_leave t next false w
            end)
  | OPending c g =>
      next' ← next;
      Some (if is_current c g w
            then set_task t (Operation next (ORequest c g false))
                   (set_config (w_config w) (Some (MkPending t (w_config w) next')) w)
            else op_leave t next false w)
  | ORequest c g was_required =>
      _ ← uncancelled t w;
      Some (request_ended t c g next was_required (answer && negb was_required) w)
  | OCheck c g => Some (op_leave t next (is_current c g w) w)
  | OFinish retain_next ok => Some (set_task t (Operation next (OFinished ok)) (_finish_transition t retain_next w))
  | OFinished ok => _ ← uncancelled t w; Some (op_leave t next ok w)
  | OUnregister ok => Some (set_task t (Operation next (OReturn ok)) (set_ops (_unregister_operation t (w_ops w)) w))
  | OReturn ok => _ ← uncancelled t w; Some (set_task t (Finished ok) w)
  end.

Definition interrupt_operation (t : positive) (next : option positive) (pc : op_pc) (w : world) : world :=
  match pc with
  | ORegister => set_task t (Finished false) w
  | OLifecycle => set_task t (Operation next (OUnregister false)) w
  | OCurrent | OPending _ _ | OCheck _ _ => op_leave t next false w
  | ORequest c g was_required => request_ended t c g next was_required false w
  | OFinish retain_next _ => set_task t (Operation next (OFinish retain_next false)) w
  | OFinished _ => set_task t (Operation next (OFinished false)) w
  | OUnregister _ => set_task t (Operation next (OUnregister false)) w
  | OReturn _ => set_task t (Operation next (OReturn false)) w
  end.

(** ** [_retire_child] *)

Definition rl_set_process (retired : bool) (l : retire_locals) : retire_locals :=
  MkRetireLocals (rl_spawn_retired l) (rl_startup_retired l) (rl_client l) (rl_shutdown_settled l) (rl_process l)
    retired (rl_close_started l) (rl_client_retired l).
Definition rl_set_shutdown (b : bool) (l : retire_locals) : retire_locals :=
  MkRetireLocals (rl_spawn_retired l) (rl_startup_retired l) (rl_client l) b (rl_process l)
    (rl_process_retired l) (rl_close_started l) (rl_client_retired l).
Definition rl_set_close (started : bool) (l : retire_locals) : retire_locals :=
  MkRetireLocals (rl_spawn_retired l) (rl_startup_retired l) (rl_client l) (rl_shutdown_settled l) (rl_process l)
    (rl_process_retired l) started (rl_client_retired l).
Definition rl_set_client_retired (b : bool) (l : retire_locals) : retire_locals :=
  MkRetireLocals (rl_spawn_retired l) (rl_startup_retired l) (rl_client l) (rl_shutdown_settled l) (rl_process l)
    (rl_process_retired l) (rl_close_started l) b.

Definition has_returncode (p : option positive) (w : world) : bool :=
  match p with Some p => bool_decide (p ∈ e_returncodes (w_env w)) | None => false end.

(** [_wait_for_process] once its wait task was observed: [wait()] returns an
    exit status. *)
Definition process_waited (x : retirement) (w : world) : bool :=
  match rt_process x with
  | None => true
  | Some _ => match rt_wait x with
              | Settled true => true
              | Settled false => has_returncode (rt_process x) w
              | _ => false
              end
  end.

Definition retire_end (t r : positive) (x : retirement) (l : retire_locals) (w : world) : world :=
  if bool_decide (rl_process l = None) || rl_process_retired l
  then set_task t (RetireDone r (rl_client_retired l)) w
  else if rl_close_started l && rl_client_retired l
       then set_task t (Retire r (RFinalWait l)) (set_record r (rt_start_wait x) w)
       else set_task t (RetireDone r false) w.

(** [client_retired] after [close()] was observed. *)
Definition retire_closed (t r : positive) (x : retirement) (l : retire_locals) (w : world) : world :=
  let l1 := rl_set_shutdown (rl_shutdown_settled l || settled (rt_shutdown x)) l in
  let ok := rl_spawn_retired l && rl_startup_retired l && rl_shutdown_settled l1 && settled (rt_close x)
            && succeeded (rt_close x) in
  if ok then set_task t (Retire r (RClientRelease (rl_set_client_retired true l1))) w
  else retire_end t r x (rl_set_client_retired false l1) w.

Definition retire_close (t r : positive) (x : retirement) (l : retire_locals) (w : world) : world :=
  match rl_client l, rt_close x with
  | None, _ => retire_end t r x l w
  | Some _, Settled _ => retire_closed t r x l w
  | Some _, NotStarted => set_task t (Retire r (RCloseWait (rl_set_close true l))) (set_record r (rt_start_close x) w)
  | Some _, InFlight => set_task t (Retire r (RCloseWait l)) w
  end.

Definition retire_kill (t r : positive) (x : retirement) (l : retire_locals) (w : world) : world :=
  if rl_process_retired l || has_returncode (rl_process l) w || rt_kill_requested x then retire_close t r x l w
  else set_task t (Retire r (RKillWait l))
         (set_record r (rt_start_wait (rt_set_signals (rt_terminate_requested x) true x)) w).

Definition retire_terminate (t r : positive) (x : retirement) (l : retire_locals) (w : world) : world :=
  if rl_process_retired l then retire_close t r x l w
  else if has_returncode (rl_process l) w || rt_terminate_requested x then retire_kill t r x l w
  else set_task t (Retire r (RTerminateWait l))
         (set_record r (rt_start_wait (rt_set_signals true (rt_kill_requested x) x)) w).

Definition retire_process (t r : positive) (x : retirement) (l : retire_locals) (w : world) : world :=
  let l1 := MkRetireLocals (rl_spawn_retired l) (rl_startup_retired l) (rl_client l) (rl_shutdown_settled l)
              (rt_process x) (bool_decide (rt_process x = None)) false (rl_client_retired l) in
  match rt_process x with
  | None => retire_close t r x l1 w
  | Some _ => set_task t (Retire r (RProcessWait l1)) (set_record r (rt_start_wait x) w)
  end.

Definition retire_shutdown (t r : positive) (x : retirement) (spawn_retired startup_retired : bool) (w : world)
    : world :=
  let l := MkRetireLocals spawn_retired startup_retired (rt_client x) true None false false
             (spawn_retired && startup_retired) in
  match rt_client x, rt_shutdown x with
  | None, _ | Some _, Settled _ => retire_process t r x l w
  | Some _, _ => set_task t (Retire r (RShutdownWait l)) (set_record r (rt_start_shutdown x) w)
  end.

(** [_retire_startup_tasks] up to its wait. *)
Definition retire_startup (t r : positive) (spawn_retired : bool) (w : world) : option world :=
  x ← record r w;
  if bool_decide (rt_startup_tasks x = ∅) then Some (retire_shutdown t r x spawn_retired true w)
  else Some (set_task t (Retire r (RStartupWait spawn_retired))
               (foldr (_cancel_retired_startup_task_once r) w (elements (rt_startup_tasks x)))).

(** The section of [_retire_spawn_task]; [pipes] when a process it adopts has
    both stdio pipes. *)
Definition adopt_spawn (s : positive) (spawned pipes : bool) (x : retirement) : retirement * bool :=
  if bool_decide (rt_spawn_task x = Some s) then
    let x1 := rt_set_spawn None (rt_spawn_cancel_requested x) x in
    if spawned && bool_decide (rt_process x = None) then
      (if pipes then rt_set_client (Some s) (rt_set_process (Some s) x1) else rt_set_process (Some s) x1, true)
    else (x1, true)
  else (x, bool_decide (rt_process x <> None) || negb spawned).

Definition run_retire (t r : positive) (pc : retire_pc) (answer : bool) (w : world) : option world :=
  x ← record r w;
  match pc with
  | RBegin =>
      match rt_spawn_task x with
      | None => retire_startup t r true w
      | Some s => Some (set_task t (Retire r (RSpawnWait s)) (_cancel_retired_spawn_once r s w))
      end
  | RSpawnWait s =>
      match e_spawns (w_env w) !! s with
      | Some Spawned => Some (set_task t (Retire r (RSpawnAdopt s true)) w)
      | Some SpawnFailed => Some (set_task t (Retire r (RSpawnAdopt s false)) w)
      | _ => retire_startup t r false w
      end
  | RSpawnAdopt s spawned =>
      let '(x1, retired) := adopt_spawn s spawned answer x in
      retire_startup t r retired (set_record r x1 w)
  | RStartupWait spawn_retired =>
      let x1 := _finish_retired_startup_task (dom (e_phases (w_env w))) x in
      Some (retire_shutdown t r x1 spawn_retired (bool_decide (rt_startup_tasks x1 = ∅)) (set_record r x1 w))
  | RShutdownWait l => Some (retire_process t r x (rl_set_shutdown (settled (rt_shutdown x)) l) w)
  | RProcessWait l => Some (retire_terminate t r x (rl_set_process (process_waited x w) l) w)
  | RTerminateWait l => Some (retire_kill t r x (rl_set_process (process_waited x w) l) w)
  | RKillWait l => Some (retire_close t r x (rl_set_process (process_waited x w) l) w)
  | RCloseWait l => Some (retire_closed t r x l w)
  | RClientRelease l =>
      Some (if bool_decide (rt_startup_tasks x <> ∅) then retire_end t r x (rl_set_client_retired false l) w
            else let x1 := rt_set_client None x in retire_end t r x1 l (set_record r x1 w))
  | RFinalWait l => Some (set_task t (RetireDone r (process_waited x w)) w)
  end.

(** ** Late spawns *)

(** [task is None or task.done()] for a record's task. *)
Definition retirement_done (x : retirement) (w : world) : bool :=
  bool_decide (is_Some (retirement_result (rt_task x) w)).

(** [_complete_late_spawn_retirement] up to its join. *)
Definition late_spawn (t r s : positive) (w : world) : world :=
  match record r w with
  | Some x =>
      if bool_decide (r ∈ re_list (w_ret w)) && bool_decide (rt_spawn_task x = Some s) then
        if retirement_done x w
        then set_task t (LateSpawnJoin r (w_next w)) (retry_retirement r x w)
        else set_task t (LateSpawnJoin r (rt_task x)) w
      else set_task t (Finished true) w
  | None => set_task t (Finished true) w
  end.

(** ** [stop] *)

(** The section of [stop]: the attempt it joins is [op_stop_task]. *)
Definition stop (caller : option positive) (w : world) : world :=
  let o := w_ops w in
  let again := match op_stop_task o with
               | None => true
               | Some a => match w_tasks w !! a with Some (Finished b) => negb b | _ => false end
               end in
  if again then set_ops (op_set_stop (op_stopping o) (Some (w_next w)) o) (create_task (Stop (ABegin caller)) w)
  else w.

(** The operations a stop transfers. *)
Definition transferred (t : positive) (caller : option positive) (w : world) : gset positive :=
  op_active (w_ops w) ∖ ({[t]} ∪ match caller with Some c => {[c]} | None => ∅ end ∪ e_done (w_env w)).

(** The first section of [_run_stop_attempt], with the cancellations it then
    requests. *)
Definition stop_begin (t : positive) (caller : option positive) (w : world) : world :=
  let o := w_ops w in
  let p := w_pub w in
  let moved := transferred t caller w in
  let w1 := set_ops (op_set_stop true (op_stop_task o)
                       (op_set_sets (op_active o ∖ moved) (op_retiring o ∪ moved) (op_cancel_requested o ∪ moved) o)) w in
  let w2 := match w_pending w with Some q => set_config (Some (pt_next q)) None w1 | None => w1 end in
  let w3 := set_pub (p_set_child None None (p_generation p + 1) p) w2 in
  let sl := _clear_settled_start_uncertainty_locked (w_slot w) in
  let g := sl_starting_generation sl in
  let spawn := match g with Some _ => sl_spawn_task sl | None => None end in
  let w4 := set_slot (match spawn with Some _ => sl_set_spawn None false sl | None => sl end) w3 in
  let w5 := (_claim_retirement_locked (p_client p) (p_process p) (bool_decide (g <> None)) spawn
               (sl_spawn_cancel_requested sl) w4).1 in
  set_task t (Stop match g with Some g => AStartWait false g | None => AReap end)
    (set_cancels (e_cancels (w_env w5) ∪ moved) w5).

(** [_reap_owned_children]: a retirement whose attempt is over gets another
    one unless it is complete. *)
Definition reap_retry (r : positive) (w : world) : world :=
  match record r w with
  | Some x =>
      match retirement_result (rt_task x) w with
      | Some complete =>
          if negb complete || bool_decide (rt_startup_tasks x <> ∅) || bool_decide (rt_spawn_task x <> None)
          then retry_retirement r x w else w
      | None => w
      end
  | None => w
  end.

(** The join of the next retirement. *)
Definition join_next (t : positive) (todo complete : list positive) (w : world) : option world :=
  match todo with
  | [] => Some (set_task t (Stop (AJoin complete)) w)
  | r :: todo => x ← record r w; Some (set_task t (Stop (AJoinWait r (rt_task x) todo complete)) w)
  end.

Definition set_uncertainty (w : world) : world := set_slot (_clear_settled_start_uncertainty_locked (w_slot w)) w.

(** [_wait_for_start_settlement] up to its section; [answer] when the event came
    within the bound. *)
Definition _wait_for_start_settlement (answer : bool) (w : world) : bool := sl_start_settled (w_slot w) && answer.

Definition prune (w : world) : world := set_ops (_prune_completed_operations_locked (e_done (w_env w)) (w_ops w)) w.

Definition run_stop (t : positive) (pc : stop_pc) (answer : bool) (w : world) : option world :=
  match pc with
  | ABegin caller => Some (stop_begin t caller w)
  | AStartWait again g =>
      Some (if _wait_for_start_settlement answer w then set_task t (Stop (AStartCheck again g)) w
            else set_task t (Stop (if again then AFinish false else AMark g)) w)
  | AStartCheck again g =>
      Some (if _start_is_settled_locked (w_slot w) g then set_task t (Stop (if again then AClear else AReap)) w
            else set_task t (Stop (if again then AFinish false else AMark g)) w)
  | AMark g =>
      Some (set_task t (Stop (AStartWait true g))
              (if _start_is_settled_locked (w_slot w) g then set_uncertainty w
               else set_slot (sl_set_uncertain (Some g) (w_slot w)) w))
  | AClear => Some (set_task t (Stop AReap) (set_uncertainty w))
  | AReap =>
      let w1 := foldl (fun w r => reap_retry r w) (set_uncertainty w) (re_list (w_ret w)) in
      match re_list (w_ret w) with
      | [] => Some (set_task t (Stop ANone) w1)
      | todo => join_next t todo [] w1
      end
  | AJoinWait r task todo complete =>
      b ← retirement_result task w;
      join_next t todo (if b : bool then complete ++ [r] else complete) w
  | AJoin complete =>
      let w1 := set_uncertainty (foldl (fun w r => (_remove_retirement_if_complete_locked r w).1) w complete) in
      let children := bool_decide (re_list (w_ret w1) = [])
                      && bool_decide (sl_start_uncertain_generation (w_slot w1) = None) in
      Some (set_task t (Stop (AOperations children)) w1)
  | ANone =>
      Some (set_task t (Stop (AOperations (bool_decide (sl_start_uncertain_generation (w_slot w) = None)))) w)
  | AOperations children =>
      let w1 := prune w in
      Some (set_task t (Stop (if bool_decide (op_retiring (w_ops w1) = ∅) then AFinish children
                              else AOperationsWait children)) w1)
  | AOperationsWait children =>
      let w1 := prune w in
      Some (set_task t (Stop (AFinish (children && bool_decide (op_retiring (w_ops w1) = ∅)))) w1)
  | AFinish result =>
      Some (set_task t (Finished result) (set_ops (op_set_stop false (op_stop_task (w_ops w)) (w_ops w)) w))
  end.

(** ** Events *)

Inductive event : Type :=
| CallStart
| CallOperation (next : option positive)
| CallStop (caller : option positive)
| CallOnEvent (h : positive)
| Run (t : positive) (answer : bool)
| Interrupt (t : positive)
| CancelCaller (t : positive)
| TaskEnds (t : positive)
| SpawnEnds (s : positive) (ok : bool)
| Exits (p : positive)
| PublishReturncode (p : positive)
| StreamCloses (c : positive)
| ClientFenced (c : positive)
| StartupEnds (f : positive) (ok ready : bool)
| WaitEnds (r : positive) (ok : bool)
| ShutdownEnds (r : positive) (ok : bool)
| CloseEnds (r : positive) (ok : bool).

Definition run_task (t : positive) (x : task) (answer : bool) (w : world) : option world :=
  match x with
  | Start pc l => run_start t pc l answer w
  | Operation next pc => run_operation t next pc answer w
  | Stop pc => run_stop t pc answer w
  | Retire r pc => run_retire t r pc answer w
  | RetireDone _ _ => None
  | SpawnCallback s => Some (set_task t (Finished true) (_on_spawn_task_done s w))
  | StartupCallback f =>
      let w1 := _finish_startup_task f w in
      Some (set_task t (Finished true)
              (set_ret (MkRetired (re_list (w_ret w1)) (_finish_retired_startup_task {[f]} <$> re_records (w_ret w1))) w1))
  | LateSpawn r s => Some (late_spawn t r s w)
  | LateSpawnJoin r task =>
      complete ← retirement_result task w;
      Some (set_task t (if complete : bool then LateSpawnRelease r else Finished true) w)
  | LateSpawnRelease r => Some (set_task t (Finished true) (_remove_retirement_if_complete_locked r w).1)
  | ReleaseOperation op =>
      Some (set_task t (Finished true) (set_ops (_release_retired_operation_owned op (e_done (w_env w)) (w_ops w)) w))
  | Finished _ => None
  end.

(** A caller's task is finished or suspended in [start], [health] or
    [prepare_config_transition]. *)
Definition is_caller (x : task) : bool := match x with Start _ _ | Operation _ _ => true | _ => false end.

Definition settle (p : phase) (ok : bool) : option phase := match p with InFlight => Some (Settled ok) | _ => None end.

Definition environment_event (ev : event) (w : world) : option environment :=
  let e := w_env w in
  match ev with
  | TaskEnds t =>
      match w_tasks w !! t with
      | Some (Finished _) => Some (MkEnvironment (e_spawns e) (e_exited e) (e_returncodes e) (e_closed e) (e_fenced e)
                                     (e_phases e) ({[t]} ∪ e_done e) (e_cancels e))
      | _ => None
      end
  | SpawnEnds s ok =>
      match e_spawns e !! s with
      | Some Spawning => Some (MkEnvironment (<[s := if ok then Spawned else SpawnFailed]> (e_spawns e)) (e_exited e)
                                 (e_returncodes e) (e_closed e) (e_fenced e) (e_phases e) (e_done e) (e_cancels e))
      | _ => None
      end
  | Exits p =>
      match e_spawns e !! p with
      | Some Spawned => Some (MkEnvironment (e_spawns e) ({[p]} ∪ e_exited e) (e_returncodes e) (e_closed e)
                                (e_fenced e) (e_phases e) (e_done e) (e_cancels e))
      | _ => None
      end
  | PublishReturncode p =>
      if bool_decide (p ∈ e_exited e)
      then Some (MkEnvironment (e_spawns e) (e_exited e) ({[p]} ∪ e_returncodes e) (e_closed e) (e_fenced e)
                   (e_phases e) (e_done e) (e_cancels e))
      else None
  | StreamCloses c => Some (MkEnvironment (e_spawns e) (e_exited e) (e_returncodes e) ({[c]} ∪ e_closed e) (e_fenced e)
                              (e_phases e) (e_done e) (e_cancels e))
  | ClientFenced c => Some (MkEnvironment (e_spawns e) (e_exited e) (e_returncodes e) (e_closed e) ({[c]} ∪ e_fenced e)
                              (e_phases e) (e_done e) (e_cancels e))
  | StartupEnds f ok ready =>
      match e_phases e !! f with
      | None => Some (MkEnvironment (e_spawns e) (e_exited e) (e_returncodes e) (e_closed e) (e_fenced e)
                        (<[f := (ok, ready)]> (e_phases e)) (e_done e) (e_cancels e))
      | Some _ => None
      end
  | _ => None
  end.

Definition step (ev : event) (w : world) : option world :=
  match ev with
  | CallStart => Some (create_task (Start SRegister no_locals) w)
  | CallOperation next => Some (create_task (Operation next ORegister) w)
  | CallStop caller =>
      match caller with
      | None => Some (stop None w)
      | Some c => match w_tasks w !! c with Some (Finished _) => Some (stop caller w) | _ => None end
      end
  | CallOnEvent h => Some (set_pub (on_event h (w_pub w)) w)
  | Run t answer => x ← w_tasks w !! t; run_task t x answer w
  | Interrupt t =>
      if cancelled t w then
        let w1 := set_cancels (e_cancels (w_env w) ∖ {[t]}) w in
        match w_tasks w !! t with
        | Some (Start pc l) => Some (interrupt_start t pc l w1)
        | Some (Operation next pc) => Some (interrupt_operation t next pc w1)
        | _ => None
        end
      else None
  | CancelCaller t => x ← w_tasks w !! t; if is_caller x then Some (cancel t w) else None
  | WaitEnds r ok =>
      x ← record r w;
      p ← rt_process x;
      q ← settle (rt_wait x) ok;
      if negb ok || bool_decide (p ∈ e_exited (w_env w))
      then Some (set_record r (rt_set_phases q (rt_shutdown x) (rt_close x) x) w) else None
  | ShutdownEnds r ok =>
      x ← record r w; q ← settle (rt_shutdown x) ok;
      Some (set_record r (rt_set_phases (rt_wait x) q (rt_close x) x) w)
  | CloseEnds r ok =>
      x ← record r w; q ← settle (rt_close x) ok;
      Some (set_record r (rt_set_phases (rt_wait x) (rt_shutdown x) q x) w)
  | TaskEnds t =>
      e ← environment_event ev w;
      let w1 := set_env e w in
      Some (if bool_decide (t ∈ op_retiring (w_ops w)) then create_task (ReleaseOperation t) w1 else w1)
  | SpawnEnds s _ => e ← environment_event ev w; Some (create_task (SpawnCallback s) (set_env e w))
  | StartupEnds f _ _ => e ← environment_event ev w; Some (create_task (StartupCallback f) (set_env e w))
  | _ => e ← environment_event ev w; Some (set_env e w)
  end.

(** The worlds of a wrapper, from its construction. *)
Inductive reachable (config : option positive) : world -> Prop :=
| reach_init : reachable config (init config)
| reach_step ev w w' : reachable config w -> step ev w = Some w' -> reachable config w'.

Fixpoint run_events (evs : list event) (w : world) : option world :=
  match evs with
  | [] => Some w
  | ev :: evs => w' ← step ev w; run_events evs w'
  end.

Lemma reach_events config evs w w' : reachable config w -> run_events evs w = Some w' -> reachable config w'.
Proof.
  revert w. induction evs as [|ev evs IH]; cbn; intros w Hr H; [by injection H as <-|].
  apply bind_Some in H as (w1 & Hs & H). eapply IH; [by eapply reach_step|done].
Qed.

(** A start that succeeds: the spawn, then initialize, health and the list of
    tools. *)
Definition boot : list event :=
  [CallStart; Run 1 true; Run 1 true; Run 1 true; Run 1 true; SpawnEnds 2 true; Run 3 true; Run 1 true;
   StartupEnds 4 true true; Run 5 true; Run 1 true; StartupEnds 6 true true; Run 7 true; Run 1 true;
   StartupEnds 8 true true; Run 9 true; Run 1 true; Run 1 true; Run 1 true].

(** A stop whose child shuts down, exits and is closed. *)
Definition halt : list event :=
  [CallStop (Some 1%positive); Run 10 true; Run 10 true; Run 12 true; ShutdownEnds 11 true; Run 12 true; Exits 2;
   WaitEnds 11 true; Run 12 true; CloseEnds 11 true; Run 12 true; Run 12 true; Run 10 true; Run 10 true; Run 10 true;
   Run 10 true].

Definition after (evs : list event) : world := default (init None) (run_events evs (init None)).
