(* ===== verification/SupervisorInv.v ===== *)
(** * The child supervisor: its invariant

    Who owns a child that exists or may come to exist: the start slot, the
    published pair, a retirement record, or a failed start that is about to
    claim it.  The invariant reads a world through its [view], which leaves out
    what ownership does not depend on. *)

From stdpp Require Import gmap.
From S2P Require Export SupervisorSteps.

(** ** Views *)

Record core := MkCore {
  c_client : option positive;
  c_process : option positive;
  c_spawn : option positive;
  c_task : positive;
  c_waited : bool
}.

Definition core_of (x : retirement) : core :=
  MkCore (rt_client x) (rt_process x) (rt_spawn_task x) (rt_task x) (settled (rt_wait x) && succeeded (rt_wait x)).

Record view := MkView {
  v_process : option positive;
  v_client : option positive;
  v_generation : option Z;
  v_spawn : option positive;
  v_active : gset positive;
  v_lifecycle : option positive;
  v_stopping : bool;
  v_stop : option positive;
  v_list : list positive;
  v_records : gmap positive core;
  v_spawns : gmap positive spawn_state;
  v_exited : gset positive;
  v_returncodes : gset positive;
  v_done : gset positive
}.

Definition view_of (w : world) : view :=
  MkView (p_process (w_pub w)) (p_client (w_pub w)) (sl_starting_generation (w_slot w)) (sl_spawn_task (w_slot w))
    (op_active (w_ops w)) (op_lifecycle (w_ops w)) (op_stopping (w_ops w)) (op_stop_task (w_ops w))
    (re_list (w_ret w)) (core_of <$> re_records (w_ret w)) (e_spawns (w_env w)) (e_exited (w_env w))
    (e_returncodes (w_env w)) (e_done (w_env w)).

(** ** Ownership *)

(** A child that is running or being created. *)
Definition live (v : view) (s : positive) : Prop :=
  v_spawns v !! s = Some Spawning \/ (v_spawns v !! s = Some Spawned /\ s ∉ v_exited v).

Definition reaped (v : view) (x : core) : Prop :=
  c_spawn x = None /\ forall p, c_process x = Some p -> p ∈ v_exited v.

Definition settled_record (v : view) (r : positive) : Prop := exists x, v_records v !! r = Some x /\ reaped v x.

(** The task [k] runs or ran [_retire_child] on [r]. *)
Definition runs (T : gmap positive task) (r k : positive) : Prop :=
  (exists pc, T !! k = Some (Retire r pc)) \/ (exists b, T !! k = Some (RetireDone r b)).

(** The start in the lifecycle section holds the spawn task [s]. *)
Definition spawning (v : view) (T : gmap positive task) (s : positive) : Prop :=
  exists t l, v_lifecycle v = Some t /\ lo_spawn l = Some s
    /\ (T !! t = Some (Start (SSpawnWait s) l) \/ T !! t = Some (Start (SClaim true) l)).

(** The start in the lifecycle section is about to claim the process [s]. *)
Definition handing (v : view) (T : gmap positive task) (s : positive) : Prop :=
  exists t l, v_lifecycle v = Some t /\ T !! t = Some (Start (SClaim true) l) /\ lo_process l = Some s.

Definition retiring (v : view) (s : positive) : Prop :=
  exists r x, r ∈ v_list v /\ v_records v !! r = Some x /\ (c_process x = Some s \/ c_spawn x = Some s).

Definition owned (X : positive -> Prop) (v : view) (T : gmap positive task) (s : positive) : Prop :=
  X s \/ v_spawn v = Some s \/ v_process v = Some s \/ retiring v s \/ handing v T s.

(** ** What each task knows *)

Definition in_section (pc : start_pc) : bool :=
  match pc with SRegister | SLifecycle | SUnregister => false | _ => true end.

Definition op_in_section (pc : op_pc) : bool :=
  match pc with ORegister | OLifecycle | OUnregister _ | OReturn _ => false | _ => true end.

(** Between admission and the finalizer. *)
Definition admitted (pc : start_pc) : bool :=
  match pc with
  | SSpawnWait _ | SPhaseWait _ _ | SClaim true | SJoin true _ _ | SRelease true _ | SCleaned true | SFinalize => true
  | _ => false
  end.

Definition locals_ok (l : start_locals) : Prop :=
  (forall c, lo_client l = Some c -> lo_process l = Some c)
  /\ (forall s, lo_spawn l = Some s -> lo_process l = None /\ lo_client l = None).

(** The operation [t] is registered, or told to stop. *)
Definition registered (v : view) (C : gset positive) (t : positive) : Prop := t ∈ C \/ t ∈ v_active v.

Definition start_known (v : view) (T : gmap positive task) (C : gset positive) (t : positive) (pc : start_pc)
    (l : start_locals) : Prop :=
  match pc with
  | SRegister => l = no_locals
  | SLifecycle | STerminal | SAdmit => l = no_locals /\ registered v C t
  | STerminalJoin r k =>
      (l = no_locals /\ registered v C t \/ l = fail no_locals) /\ runs T r k
  | STerminalRelease r =>
      (l = no_locals /\ registered v C t \/ l = fail no_locals) /\ settled_record v r
  | SSpawnWait s => lo_spawn l = Some s /\ (t ∈ C \/ (t ∈ v_active v /\ v_spawn v = Some s))
  | SPhaseWait _ _ => lo_process l <> None /\ lo_spawn l = None
  | SJoin _ r k => runs T r k
  | SRelease _ r => settled_record v r
  | _ => True
  end.

Definition exited_process (v : view) (x : core) : Prop := forall p, c_process x = Some p -> p ∈ v_exited v.

Definition retire_known (v : view) (x : core) (pc : retire_pc) : Prop :=
  match pc with
  | RBegin => True
  | RSpawnWait s => c_spawn x = Some s
  | RSpawnAdopt s b => c_spawn x = Some s /\ v_spawns v !! s = Some (if b then Spawned else SpawnFailed)
  | RStartupWait b => b = true -> c_spawn x = None
  | RShutdownWait l =>
      (rl_spawn_retired l = true -> c_spawn x = None) /\ (rl_client_retired l = true -> c_spawn x = None)
  | RProcessWait l | RTerminateWait l | RKillWait l | RCloseWait l | RClientRelease l | RFinalWait l =>
      (rl_spawn_retired l = true -> c_spawn x = None) /\ (rl_client_retired l = true -> c_spawn x = None)
      /\ rl_process l = c_process x /\ (rl_process_retired l = true -> exited_process v x)
      /\ (match pc with RFinalWait _ => rl_client_retired l = true | _ => True end)
  end.

Definition task_inv (v : view) (T : gmap positive task) (C : gset positive) (t : positive) (x : task) : Prop :=
  match x with
  | Start pc l =>
      (in_section pc = true -> v_lifecycle v = Some t) /\ locals_ok l
      /\ (admitted pc = true -> exists g, lo_generation l = Some g /\ v_generation v = Some g)
      /\ start_known v T C t pc l
  | Operation _ pc => op_in_section pc = true -> v_lifecycle v = Some t
  | Stop _ => v_stop v = Some t
  | Retire r pc => exists x, v_records v !! r = Some x /\ c_task x = t /\ retire_known v x pc
  | RetireDone r b => b = true -> settled_record v r
  | LateSpawnJoin r k => runs T r k
  | LateSpawnRelease r => settled_record v r
  | _ => True
  end.

(** ** Stop attempts *)

Definition no_live (v : view) : Prop := forall s, ~ live v s.

Definition stop_known (v : view) (T : gmap positive task) (pc : stop_pc) : Prop :=
  match pc with
  | ABegin _ | AFinish false => True
  | AStartWait _ g | AStartCheck _ g | AMark g => v_generation v = None \/ v_generation v = Some g
  | AJoin complete => v_generation v = None /\ Forall (settled_record v) complete
  | AJoinWait r k todo complete => v_generation v = None /\ runs T r k /\ Forall (settled_record v) complete
  | ANone | AOperations true | AOperationsWait true | AFinish true => v_generation v = None /\ no_live v
  | _ => v_generation v = None
  end.

Definition stop_inv (v : view) (T : gmap positive task) (C : gset positive) (pc : stop_pc) : Prop :=
  match pc with
  | ABegin (Some c) => exists b, T !! c = Some (Finished b)
  | ABegin None => True
  | _ => v_stopping v = true /\ v_process v = None /\ v_client v = None
         /\ (forall t l s, T !! t = Some (Start (SSpawnWait s) l) -> t ∈ C) /\ stop_known v T pc
  end.

(** The attempt that [stop] joins, or the last one since a start was admitted. *)
Definition attempt_inv (v : view) (T : gmap positive task) (C : gset positive) (a : positive) : Prop :=
  match T !! a with
  | Some (Stop pc) => stop_inv v T C pc
  | Some (Finished true) => no_live v
  | Some (Finished false) => True
  | _ => False
  end.

Definition record_ok (v : view) (x : core) : Prop :=
  (forall c, c_client x = Some c -> c_process x = Some c) /\ (forall s, c_spawn x = Some s -> c_process x = None)
  /\ (c_waited x = true -> exists p, c_process x = Some p /\ p ∈ v_exited v).

Record inv (X : positive -> Prop) (v : view) (T : gmap positive task) (C : gset positive) (n : positive) : Prop := MkInv {
  i_fresh : forall k, (n <= k)%positive -> T !! k = None /\ v_records v !! k = None /\ v_spawns v !! k = None;
  i_list : forall r, r ∈ v_list v -> is_Some (v_records v !! r);
  i_records : forall r x, v_records v !! r = Some x ->
    runs T r (c_task x) /\ record_ok v x;
  i_tasks : forall t x, T !! t = Some x -> task_inv v T C t x;
  i_pub : forall c, v_client v = Some c -> v_process v = Some c;
  i_slot : forall s, v_spawn v = Some s -> v_process v = None /\ v_client v = None /\ spawning v T s;
  i_live : forall s, live v s -> owned X v T s;
  i_one : forall s s', live v s -> live v s' -> s = s';
  i_stop : forall a, v_stop v = Some a -> attempt_inv v T C a;
  i_codes : v_returncodes v ⊆ v_exited v;
  i_exited : forall p, p ∈ v_exited v -> v_spawns v !! p = Some Spawned;
  i_done : forall t, t ∈ v_done v -> exists b, T !! t = Some (Finished b)
}.

Definition Inv (w : world) : Prop := inv (fun _ => False) (view_of w) (w_tasks w) (e_cancels (w_env w)) (w_next w).

(** ** Stability *)

(** What a step of another task leaves [t] to rely on. *)
Record stable (t : positive) (v v' : view) (T T' : gmap positive task) (C C' : gset positive) : Prop := MkStable {
  s_lifecycle : v_lifecycle v = Some t -> v_lifecycle v' = Some t;
  s_generation : v_lifecycle v = Some t -> v_generation v' = v_generation v;
  s_spawn : forall s l, T !! t = Some (Start (SSpawnWait s) l) -> t ∈ C \/ (t ∈ v_active v /\ v_spawn v = Some s) ->
    t ∈ C' \/ (t ∈ v_active v' /\ v_spawn v' = Some s);
  s_active : forall pc l, T !! t = Some (Start pc l) -> registered v C t -> registered v' C' t;
  s_settled : forall r, settled_record v r -> settled_record v' r;
  s_runs : forall r k, runs T r k -> runs T' r k;
  s_record : forall r pc x, T !! t = Some (Retire r pc) -> v_records v !! r = Some x -> c_task x = t ->
    exists y, v_records v' !! r = Some y /\ c_task y = t /\ c_spawn y = c_spawn x /\ c_process y = c_process x;
  s_spawned : forall s b, v_spawns v !! s = Some (if b : bool then Spawned else SpawnFailed) ->
    v_spawns v' !! s = Some (if b then Spawned else SpawnFailed);
  s_exited : v_exited v ⊆ v_exited v';
  s_stop : forall pc, T !! t = Some (Stop pc) -> v_stop v = Some t -> v_stop v' = Some t
}.

Lemma retire_known_stable v v' x y pc :
  c_spawn y = c_spawn x -> c_process y = c_process x ->
  (forall s b, v_spawns v !! s = Some (if b : bool then Spawned else SpawnFailed) ->
    v_spawns v' !! s = Some (if b then Spawned else SpawnFailed)) ->
  v_exited v ⊆ v_exited v' -> retire_known v x pc -> retire_known v' y pc.
Proof.
  intros Hsp Hp Hs He. unfold retire_known, exited_process. rewrite Hsp, Hp.
  destruct pc; naive_solver.
Qed.

Ltac stable := constructor; cbn; try done; eauto 6.

Lemma task_stable t x v v' T T' C C' :
  stable t v v' T T' C C' -> T !! t = Some x -> task_inv v T C t x -> task_inv v' T' C' t x.
Proof.
  intros [] Ht H. destruct x; cbn in *; try tauto; try (by eauto).
  - destruct H as (Hl & Hok & Hg & Hk). split; [by auto|]. split; [done|]. split.
    { intros Ha. assert (in_section pc = true) as Hi by (destruct pc as [| | | | | | | |[]|[]|[]|[]| | |]; done).
      rewrite s_generation0 by auto. auto. }
    destruct pc; cbn in *; naive_solver.
  - destruct H as (y & Hy & Hk1 & Hk). destruct (s_record0 r pc y Ht Hy Hk1) as (z & Hz & H1 & H2 & H3).
    exists z. split; [done|]. split; [done|]. by eapply retire_known_stable.
Qed.

Lemma runs_insert T r k t x :
  runs T r k -> (forall r pc, T !! t = Some (Retire r pc) -> (exists pc', x = Retire r pc') \/ exists b, x = RetireDone r b) ->
  (forall r b, T !! t = Some (RetireDone r b) -> x = RetireDone r b) -> runs (<[t := x]> T) r k.
Proof.
  intros [(pc & Hk)|(b & Hk)] H1 H2; unfold runs; destruct (decide (t = k)) as [->|Hn].
  - rewrite lookup_insert_eq. destruct (H1 r pc Hk) as [[pc' ->]|[b ->]]; eauto.
  - rewrite lookup_insert_ne by done. eauto.
  - rewrite lookup_insert_eq, (H2 r b Hk). eauto.
  - rewrite lookup_insert_ne by done. eauto.
Qed.

Lemma task_inv_runs v T T' C t x :
  (forall r k, runs T r k -> runs T' r k) -> task_inv v T C t x -> task_inv v T' C t x.
Proof.
  intros Hr H. destruct x; cbn in *; try done; [|by apply Hr].
  destruct H as (H1 & H2 & H3 & H). split; [done|]. split; [done|]. split; [done|].
  destruct pc; cbn in *; try done; [destruct H as [H ?]; split; [done|] |]; by apply Hr.
Qed.

(** ** Moves: one task goes on, the view stays *)

Definition holds_spawn (x : task) : bool :=
  match x with Start (SSpawnWait _) _ | Start (SClaim true) _ => true | _ => false end.
Definition waits_spawn (x : task) : bool := match x with Start (SSpawnWait _) _ => true | _ => false end.
Definition terminal (x : task) : bool := match x with Finished _ | RetireDone _ _ => true | _ => false end.

(** What [x] must become. *)
Definition continues (x x' : task) : Prop :=
  match x with
  | Retire r _ => (exists pc, x' = Retire r pc) \/ exists b, x' = RetireDone r b
  | Finished _ | RetireDone _ _ => False
  | _ => True
  end.

Lemma runs_move T r k t x x' :
  T !! t = Some x -> continues x x' -> runs T r k -> runs (<[t := x']> T) r k.
Proof.
  intros Ht Hc Hr. apply runs_insert; [done| |]; rewrite Ht; intros r' ? [= ->]; cbn in Hc; [|done].
  destruct Hc as [[pc' ->]|[b ->]]; eauto.
Qed.

Lemma stop_known_stable v v' T T' pc :
  (v_generation v' = v_generation v \/ v_generation v' = None) ->
  (forall r k, runs T r k -> runs T' r k) -> (forall r, settled_record v r -> settled_record v' r) ->
  (forall s, live v' s -> live v s) -> stop_known v T pc -> stop_known v' T' pc.
Proof.
  intros Hg Hr Hs Hl H.
  assert (forall l, Forall (settled_record v) l -> Forall (settled_record v') l) as Hf.
  { intros l Hf. eapply list.Forall_impl; [exact Hf | done]. }
  assert (no_live v -> no_live v') as Hn by (intros Hn s Hs'; by apply (Hn s), Hl).
  assert (forall g, v_generation v = None \/ v_generation v = Some g -> v_generation v' = None \/ v_generation v' = Some g)
    as Hg2 by (intros g; destruct Hg as [-> | ->]; auto).
  assert (v_generation v = None -> v_generation v' = None) as Hg3 by (destruct Hg as [-> | ->]; auto).
  destruct pc as [| | | | | | | | |[]|[]|[]]; cbn in *; naive_solver.
Qed.

(** The general rule for a task that goes on. *)
Lemma move_inv X v T C C' n n' t x x' :
  inv X v T C n -> T !! t = Some x -> continues x x' -> waits_spawn x' = false ->
  C ∖ {[t]} ⊆ C' -> (n <= n')%positive ->
  task_inv v T C' t x' ->
  (forall s, v_spawn v = Some s -> spawning v T s -> spawning v (<[t := x']> T) s) ->
  (forall s, live v s -> handing v T s -> owned X v (<[t := x']> T) s) ->
  (v_stop v = Some t -> attempt_inv v (<[t := x']> T) C' t) ->
  inv X v (<[t := x']> T) C' n'.
Proof.
  intros [] Ht Hc Hw HC Hn Hk Hsl Hli Hst.
  assert (forall r k, runs T r k -> runs (<[t := x']> T) r k) as Hruns by (intros; by eapply runs_move).
  constructor; try done.
  - intros k Hk'. destruct (i_fresh0 k) as (H1 & H2 & H3); [lia|].
    rewrite lookup_insert_ne; [done | congruence].
  - intros r y Hy. destruct (i_records0 r y Hy) as (H1 & H2). split; [by apply Hruns | done].
  - intros k y. rewrite lookup_insert_Some. intros [[<- <-]|[Hne Hy]].
    + by eapply task_inv_runs.
    + eapply (task_stable k y v v T); [|done|by apply i_tasks0]. stable.
      * intros s l Hs [HC'|?]; [left; set_solver | by right].
      * intros pc l Hs [HC'|?]; [left; set_solver | by right].
  - intros s Hs. destruct (i_slot0 s Hs) as (? & ? & ?). split_and!; try done. by apply Hsl.
  - intros s Hs. destruct (i_live0 s Hs) as [?|[?|[?|[?|?]]]]; [by left|by right;left|by right;right;left| |].
    + by right; right; right; left.
    + by apply Hli.
  - intros a Ha. destruct (decide (a = t)) as [->|Hne]; [by apply Hst|].
    specialize (i_stop0 a Ha). unfold attempt_inv in *. rewrite lookup_insert_ne by done.
    destruct (T !! a) as [[]|] eqn:Ea; try done. unfold stop_inv in *.
    assert (forall k l s, <[t := x']> T !! k = Some (Start (SSpawnWait s) l) -> T !! k = Some (Start (SSpawnWait s) l) /\ k <> t)
      as Hw2.
    { intros k l s. rewrite lookup_insert_Some. intros [[<- ->]|[? ?]]; [done|]. split; [done|congruence]. }
    destruct pc as [[c|]| | | | | | | | | | |]; try done;
      try (destruct i_stop0 as (H1 & H2 & H3 & H4 & H5); split; [done|]; split; [done|]; split; [done|];
           split; [intros k l s Hs; destruct (Hw2 k l s Hs) as [Hs' Hkt]; specialize (H4 k l s Hs'); set_solver
           | eapply stop_known_stable; [by left | done | done | done | exact H5]]).
    destruct i_stop0 as (b & Hb). exists b. rewrite lookup_insert_ne; [done|]. intros ->.
    rewrite Ht in Hb. by injection Hb as ->.
  - intros k Hk'. destruct (i_done0 k Hk') as (b & Hb). exists b. rewrite lookup_insert_ne; [done|].
    intros ->. rewrite Ht in Hb. by injection Hb as ->.
Qed.

(** ** Changes of the view *)

Definition v_set_child (p c : option positive) (v : view) : view :=
  MkView p c (v_generation v) (v_spawn v) (v_active v) (v_lifecycle v) (v_stopping v) (v_stop v) (v_list v)
    (v_records v) (v_spawns v) (v_exited v) (v_returncodes v) (v_done v).
Definition v_set_slot (g : option Z) (s : option positive) (v : view) : view :=
  MkView (v_process v) (v_client v) g s (v_active v) (v_lifecycle v) (v_stopping v) (v_stop v) (v_list v)
    (v_records v) (v_spawns v) (v_exited v) (v_returncodes v) (v_done v).
Definition v_set_ops (active : gset positive) (lifecycle : option positive) (stopping : bool) (stop : option positive)
    (v : view) : view :=
  MkView (v_process v) (v_client v) (v_generation v) (v_spawn v) active lifecycle stopping stop (v_list v)
    (v_records v) (v_spawns v) (v_exited v) (v_returncodes v) (v_done v).
Definition v_set_ret (l : list positive) (records : gmap positive core) (v : view) : view :=
  MkView (v_process v) (v_client v) (v_generation v) (v_spawn v) (v_active v) (v_lifecycle v) (v_stopping v)
    (v_stop v) l records (v_spawns v) (v_exited v) (v_returncodes v) (v_done v).
Definition v_set_env (spawns : gmap positive spawn_state) (exited codes done : gset positive) (v : view) : view :=
  MkView (v_process v) (v_client v) (v_generation v) (v_spawn v) (v_active v) (v_lifecycle v) (v_stopping v)
    (v_stop v) (v_list v) (v_records v) spawns exited codes done.

(** A change of the view that tasks and ownership survive. *)
Lemma reframe X X' v v' T C n :
  inv X v T C n ->
  (forall t x, T !! t = Some x -> stable t v v' T T C C) ->
  v_list v' = v_list v -> v_records v' = v_records v ->
  v_spawns v' = v_spawns v -> v_exited v' = v_exited v ->
  (forall c, v_client v' = Some c -> v_process v' = Some c) ->
  (forall s, v_spawn v' = Some s -> v_process v' = None /\ v_client v' = None /\ spawning v' T s) ->
  (forall s, live v' s -> owned X v T s -> owned X' v' T s) ->
  (forall a, v_stop v' = Some a -> attempt_inv v' T C a) ->
  v_returncodes v' = v_returncodes v -> v_done v' = v_done v ->
  inv X' v' T C n.
Proof.
  intros [] Hst Hl Hr Hsp He Hp Hs Hli Hstop Hc Hd.
  assert (forall s, live v' s -> live v s) as Hlive by (intros s; unfold live; by rewrite Hsp, He).
  constructor; rewrite ?Hl, ?Hr, ?Hsp, ?He, ?Hc, ?Hd; try done.
  - intros r x Hx. destruct (i_records0 r x Hx) as (H1 & H2). split; [done|]. unfold record_ok. by rewrite He.
  - intros t x Ht. eapply task_stable; [by eapply Hst | done | by apply i_tasks0].
  - intros s H. apply Hli; [done|]. by apply i_live0, Hlive.
  - intros s s' H H'. apply i_one0; by apply Hlive.
Qed.

Lemma owned_mono X X' v v' T T' s :
  (forall s, X s -> X' s) -> (v_spawn v = Some s -> v_spawn v' = Some s) -> (v_process v = Some s -> v_process v' = Some s) ->
  v_list v' = v_list v -> v_records v' = v_records v -> (handing v T s -> handing v' T' s) ->
  owned X v T s -> owned X' v' T' s.
Proof.
  intros HX Hs Hp Hl Hr Hh [H|[H|[H|[H|H]]]]; unfold owned, retiring in *; rewrite ?Hl, ?Hr; auto 6.
Qed.

Lemma attempt_stable v v' T C a :
  (v_generation v' = v_generation v \/ v_generation v' = None) ->
  (v_stopping v = true -> v_stopping v' = true) ->
  (v_process v = None -> v_client v = None -> v_process v' = None /\ v_client v' = None) ->
  (forall r, settled_record v r -> settled_record v' r) -> (forall s, live v' s -> live v s) ->
  attempt_inv v T C a -> attempt_inv v' T C a.
Proof.
  intros Hg Hst Hp Hset Hl. unfold attempt_inv. destruct (T !! a) as [[| |pc| | | | | | | | |[]]|]; try done.
  - unfold stop_inv. destruct pc as [[c|]| | | | | | | | | | |]; try done;
      intros (H1 & H2 & H3 & H4 & H5); destruct (Hp H2 H3); (split; [by apply Hst|]); (split; [done|]);
      (split; [done|]); (split; [done|]); eapply stop_known_stable; eauto.
  - intros Hn s Hs. by apply (Hn s), Hl.
Qed.

(** A task in the lifecycle section. *)
Definition holds_lifecycle (x : task) : bool :=
  match x with Start pc _ => in_section pc | Operation _ pc => op_in_section pc | _ => false end.

Lemma holder X v T C n t x :
  inv X v T C n -> T !! t = Some x -> holds_lifecycle x = true -> v_lifecycle v = Some t.
Proof.
  intros Hi Ht Hx. pose proof (i_tasks _ _ _ _ _ Hi t x Ht) as H. destruct x; try done; cbn in *; [by apply H | by auto].
Qed.

Lemma spawning_holder v T s : spawning v T s ->
  exists t x, v_lifecycle v = Some t /\ T !! t = Some x /\ holds_spawn x = true.
Proof. intros (t & l & H1 & _ & [H|H]); eauto. Qed.

Lemma handing_holder v T s : handing v T s ->
  exists t x, v_lifecycle v = Some t /\ T !! t = Some x /\ holds_spawn x = true.
Proof. intros (t & l & H1 & H & _); eauto. Qed.

Lemma holds_spawn_lifecycle x : holds_spawn x = true -> holds_lifecycle x = true.
Proof. by destruct x as [[]| | | | | | | | | | |]. Qed.

(** Another task of the section, or none, rules out a pending hand-over. *)
Lemma no_hand_over X v T C n t x :
  inv X v T C n -> T !! t = Some x -> v_lifecycle v = Some t -> holds_spawn x = false ->
  (forall s, ~ spawning v T s) /\ (forall s, ~ handing v T s).
Proof.
  intros Hi Ht Hl Hx. split; intros s H;
    [apply spawning_holder in H as (t' & y & H1 & H2 & H3) | apply handing_holder in H as (t' & y & H1 & H2 & H3)];
    congruence.
Qed.

Lemma no_hand_over_free v T : v_lifecycle v = None -> (forall s, ~ spawning v T s) /\ (forall s, ~ handing v T s).
Proof.
  intros Hl. split; intros s H;
    [apply spawning_holder in H as (t' & y & H1 & _) | apply handing_holder in H as (t' & y & H1 & _)]; congruence.
Qed.

Lemma acquire_inv X v T C n t :
  inv X v T C n -> v_lifecycle v = None ->
  inv X (v_set_ops (v_active v) (Some t) (v_stopping v) (v_stop v) v) T C n.
Proof.
  intros Hi Hl. destruct (no_hand_over_free v T Hl) as [Hs Hh]. eapply reframe; [exact Hi|..]; cbn; try done.
  - intros k x _. stable; congruence.
  - apply Hi.
  - intros s Hs'. destruct (i_slot _ _ _ _ _ Hi s Hs') as (_ & _ & H). by destruct (Hs s).
  - intros s _. apply owned_mono; cbn; auto. intros H. by destruct (Hh s).
  - intros a Ha. eapply attempt_stable; [..|by apply (i_stop _ _ _ _ _ Hi)]; cbn; auto.
Qed.

Lemma release_inv X v T C n t x A :
  inv X v T C n -> v_lifecycle v = Some t -> T !! t = Some x -> holds_lifecycle x = false ->
  (forall pc l, x = Start pc l -> pc = SUnregister) -> v_active v ∖ {[t]} ⊆ A ->
  inv X (v_set_ops A None (v_stopping v) (v_stop v) v) T C n.
Proof.
  intros Hi Hl Ht Hx Hu HA.
  assert (holds_spawn x = false) as Hx'.
  { destruct (holds_spawn x) eqn:E; [|done]. apply holds_spawn_lifecycle in E. congruence. }
  destruct (no_hand_over X v T C n t x Hi Ht Hl Hx') as [Hs Hh].
  assert (forall k y, T !! k = Some y -> holds_lifecycle y = false) as Hnone.
  { intros k y Hk. destruct (holds_lifecycle y) eqn:E; [|done]. pose proof (holder _ _ _ _ _ _ _ Hi Hk E). congruence. }
  destruct Hi as []. constructor; cbn; try done.
  - intros k y Hk. pose proof (i_tasks0 k y Hk) as H. specialize (Hnone k y Hk). destruct y; cbn in *; try done.
    + destruct H as (H1 & H2 & H3 & H4). split; [by rewrite Hnone|]. split; [done|]. split; [done|].
      destruct pc; cbn in *; try done. destruct H4 as [? H4]. split; [done|].
      assert (k <> t) as Hne. { intros ->. assert (x = Start SLifecycle l) as -> by congruence. by specialize (Hu _ _ eq_refl). }
      destruct H4 as [H4|H4]; [by left | right; cbn; set_solver].
    + by rewrite Hnone.
  - intros s Hs'. destruct (i_slot0 s Hs') as (_ & _ & H). by destruct (Hs s).
  - intros s Hs'. apply i_live0 in Hs'. eapply owned_mono; [..|exact Hs']; cbn; auto. intros H. by destruct (Hh s).
Qed.

(** The active set: a task that waits for its spawn stays in it. *)
Lemma active_inv X v T C n A :
  inv X v T C n ->
  (forall t pc l, T !! t = Some (Start pc l) -> t ∈ v_active v -> t ∈ C \/ t ∈ A) ->
  inv X (v_set_ops A (v_lifecycle v) (v_stopping v) (v_stop v) v) T C n.
Proof.
  intros Hi HA. eapply reframe; [exact Hi|..]; cbn; try done; try by apply Hi.
  - intros k x Hk. stable.
    + intros s l Hs [?|[? ?]]; [by left|].
      destruct (HA k _ l Hs) as [?|?]; [done|by left|by right].
    + intros pc l Hs [?|?]; [by left|]. by eapply HA.
Qed.

(** [stop] marks itself, or ends. *)
Lemma stopping_inv X v T C n b :
  inv X v T C n -> (v_stopping v = true -> b = true) ->
  inv X (v_set_ops (v_active v) (v_lifecycle v) b (v_stop v) v) T C n.
Proof.
  intros Hi Hb. eapply reframe; [exact Hi|..]; cbn; try done; try by apply Hi.
  - intros k x Hk. stable.
  - intros a Ha. eapply attempt_stable; [..|by apply (i_stop _ _ _ _ _ Hi)]; cbn; auto.
Qed.

(** The published pair is detached, to be claimed in the same section. *)
Lemma detach_inv X v T C n :
  inv X v T C n -> inv (fun s => X s \/ v_process v = Some s) (v_set_child None None v) T C n.
Proof.
  intros Hi. eapply reframe; [exact Hi|..]; cbn; try done; try by apply Hi.
  - intros k x Hk. stable.
  - intros s Hs. destruct (i_slot _ _ _ _ _ Hi s Hs) as (_ & _ & H). split; [done|]. split; [done|exact H].
  - intros s _ [H|[H|[H|[H|H]]]]; unfold owned; cbn; [tauto|tauto|tauto| |].
    + right; right; right; left. exact H.
    + right; right; right; right. exact H.
  - intros a Ha. eapply attempt_stable; [..|by apply (i_stop _ _ _ _ _ Hi)]; cbn; auto.
Qed.

(** The spawn task leaves the slot. *)
Lemma take_spawn_inv X v T C n :
  inv X v T C n -> (forall t l s, T !! t = Some (Start (SSpawnWait s) l) -> t ∈ C) ->
  inv (fun s => X s \/ v_spawn v = Some s) (v_set_slot (v_generation v) None v) T C n.
Proof.
  intros Hi Hw. eapply reframe; [exact Hi|..]; cbn; try done; try by apply Hi.
  - intros k x Hk. stable.
  - intros s _ [H|[H|[H|[H|H]]]]; unfold owned; cbn; [tauto|tauto|tauto| |].
    + right; right; right; left. exact H.
    + right; right; right; right. exact H.
Qed.

(** [_finalize_start] *)
Lemma finalize_inv X v T C n t x :
  inv X v T C n -> v_lifecycle v = Some t -> T !! t = Some x ->
  (forall pc l, x = Start pc l -> admitted pc = false) ->
  inv X (v_set_slot None (v_spawn v) v) T C n.
Proof.
  intros Hi Hl Ht Hx.
  assert (forall k pc l, T !! k = Some (Start pc l) -> admitted pc = false) as Hadm.
  { intros k pc l Hk. destruct (admitted pc) eqn:Ha; [|done].
    assert (in_section pc = true) as Hin by (destruct pc as [| | | | | | | |[]|[]|[]|[]| | |]; done).
    pose proof (holder _ _ _ _ _ _ _ Hi Hk Hin) as Hl'. assert (k = t) as -> by congruence.
    rewrite Hk in Ht. injection Ht as <-. rewrite (Hx pc l) in Ha; done. }
  destruct Hi as []. constructor; cbn; try done.
  - intros k y Hk. pose proof (i_tasks0 k y Hk) as H. destruct y; cbn in *; try done.
    destruct H as (H1 & H2 & H3 & H4). split; [done|]. split; [done|]. split; [by rewrite (Hadm _ _ _ Hk)|].
    destruct pc; cbn in *; done.
  - intros a Ha. eapply attempt_stable; [..|by apply i_stop0]; cbn; auto.
Qed.

(** ** New tasks and records *)

Lemma fresh_insert_runs T k x r j : T !! k = None -> runs T r j -> runs (<[k := x]> T) r j.
Proof. intros Hk Hr. apply runs_insert; [done| |]; rewrite Hk; congruence. Qed.

(** A new name holds a new task. *)
Lemma attempt_create v T C k x a :
  T !! k = None -> waits_spawn x = false -> attempt_inv v T C a -> attempt_inv v (<[k := x]> T) C a.
Proof.
  intros Hk Hw H. unfold attempt_inv in *. destruct (decide (a = k)) as [->|Hne].
  { rewrite Hk in H. done. }
  rewrite lookup_insert_ne by done. destruct (T !! a) as [[]|] eqn:Ea; try done. unfold stop_inv in *.
  destruct pc as [[c|]| | | | | | | | | | |]; try done;
    try (destruct H as (H1 & H2 & H3 & H4 & H5); (split; [done|]); (split; [done|]); (split; [done|]); split;
         [intros t l s; rewrite lookup_insert_Some; intros [[<- ->]|[? ?]]; [done|by eapply H4]
         | eapply stop_known_stable; [by left | intros; by apply fresh_insert_runs | done | done | exact H5]]).
  destruct H as (b & H). exists b. rewrite lookup_insert_ne; [done|congruence].
Qed.

Lemma hand_over_create v T k x s :
  T !! k = None -> (spawning v T s -> spawning v (<[k := x]> T) s) /\ (handing v T s -> handing v (<[k := x]> T) s).
Proof.
  intros Hk. split.
  - intros (t & l & H1 & H2 & H3). exists t, l. rewrite lookup_insert_ne; [done|]. intros ->.
    destruct H3; congruence.
  - intros (t & l & H1 & H2 & H3). exists t, l. rewrite lookup_insert_ne; [done|]. intros ->. congruence.
Qed.

Lemma create_inv X v T C n k x :
  inv X v T C n -> (n <= k)%positive -> waits_spawn x = false -> task_inv v (<[k := x]> T) C k x ->
  inv X v (<[k := x]> T) C (Pos.succ k).
Proof.
  intros [] Hk Hw Hx. destruct (i_fresh0 k Hk) as (Hf & _).
  constructor; try done.
  - intros j Hj. rewrite lookup_insert_ne by lia. apply i_fresh0. lia.
  - intros r y Hy. destruct (i_records0 r y Hy) as (H & ?). split; [by apply fresh_insert_runs | done].
  - intros t y. rewrite lookup_insert_Some. intros [[<- <-]|[Hne Hy]]; [done|].
    eapply (task_stable t y v v T); [stable; intros; by apply fresh_insert_runs | done | by apply i_tasks0].
  - intros s Hs. destruct (i_slot0 s Hs) as (? & ? & ?). split; [done|]. split; [done|]. by apply hand_over_create.
  - intros s Hs. eapply owned_mono; [..|by apply i_live0]; try done. by apply hand_over_create.
  - intros a Ha. by apply attempt_create, i_stop0.
  - intros t Ht. destruct (i_done0 t Ht) as (b & Hb). exists b. rewrite lookup_insert_ne; [done|congruence].
Qed.

(** A record, new or retried, with a new task that runs [_retire_child]. *)
Lemma launch_inv X X' v T C n k r y l :
  inv X v T C n -> (n <= k)%positive -> c_task y = k ->
  match v_records v !! r with
  | Some x => (exists b, T !! c_task x = Some (RetireDone r b)) /\ c_client y = c_client x /\ c_process y = c_process x
              /\ c_spawn y = c_spawn x /\ c_waited y = c_waited x
  | None => (r <= k)%positive /\ record_ok v y
  end ->
  (forall r', r' ∈ v_list v -> r' ∈ l) -> (forall r', r' ∈ l -> r' = r \/ r' ∈ v_list v) ->
  (forall s, live v s -> X s -> X' s \/ (r ∈ l /\ (c_process y = Some s \/ c_spawn y = Some s))) ->
  inv X' (v_set_ret l (<[r := y]> (v_records v)) v) (<[k := Retire r RBegin]> T) C (Pos.succ k).
Proof.
  intros Hi Hk Hy Hr Hl Hl' HX.
  destruct Hi as []. destruct (i_fresh0 k Hk) as (Hf & _).
  assert (forall r' x, v_records v !! r' = Some x -> r' = r -> c_process y = c_process x /\ c_spawn y = c_spawn x
            /\ c_client y = c_client x /\ c_waited y = c_waited x) as Hsame.
  { intros r' x Hx ->. rewrite Hx in Hr. by destruct Hr as (_ & ? & ? & ? & ?). }
  assert (forall r', settled_record v r' -> settled_record (v_set_ret l (<[r := y]> (v_records v)) v) r') as Hset.
  { intros r' (x & Hx & H1 & H2). destruct (decide (r' = r)) as [->|Hne].
    - exists y. cbn. rewrite lookup_insert_eq. split; [done|]. destruct (Hsame r x Hx) as (E1 & E2 & _); [done|].
      split; cbn; rewrite ?E1, ?E2; done.
    - exists x. cbn. rewrite lookup_insert_ne by done. done. }
  constructor; cbn; try done.
  - intros j Hj. rewrite lookup_insert_ne by lia. destruct (i_fresh0 j) as (H1 & H2 & H3); [lia|].
    split; [done|]. split; [|done]. rewrite lookup_insert_ne; [done|]. intros ->. rewrite H2 in Hr. lia.
  - intros r' Hr'. destruct (decide (r' = r)) as [->|Hne]; [rewrite lookup_insert_eq; done|].
    rewrite lookup_insert_ne by done. apply i_list0. destruct (Hl' r' Hr'); done.
  - intros r' x. rewrite lookup_insert_Some. intros [[<- <-]|[Hne Hx]].
    + rewrite Hy. split; [left; exists RBegin; apply lookup_insert_eq|].
      destruct (v_records v !! r) as [x|] eqn:Ex; [|apply Hr].
      destruct Hr as (_ & E1 & E2 & E3 & E4). unfold record_ok. rewrite E1, E2, E3, E4. by apply (i_records0 r x Ex).
    + destruct (i_records0 r' x Hx) as (H & ?). split; [by apply fresh_insert_runs | done].
  - intros t x. rewrite lookup_insert_Some. intros [[<- <-]|[Hne Hx]].
    { exists y. cbn. rewrite lookup_insert_eq. done. }
    eapply (task_stable t x v); [|done|by apply i_tasks0]. stable.
    + intros r' j. by apply fresh_insert_runs.
    + intros r' pc z Ht Hz Hc. destruct (decide (r' = r)) as [->|Hne'].
      * exfalso. rewrite Hz in Hr. destruct Hr as ((b & Hb) & _). congruence.
      * exists z. rewrite lookup_insert_ne by done. done.
  - intros s Hs. destruct (i_slot0 s Hs) as (? & ? & ?). split; [done|]. split; [done|]. by apply hand_over_create.
  - intros s Hs. destruct (i_live0 s Hs) as [H|[H|[H|[H|H]]]].
    + destruct (HX s Hs H) as [?|[? ?]]; [by left|]. right; right; right; left. exists r, y. cbn.
      rewrite lookup_insert_eq. done.
    + by right; left.
    + by right; right; left.
    + right; right; right; left. destruct H as (r' & x & H1 & H2 & H3). destruct (decide (r' = r)) as [->|Hne].
      * exists r, y. cbn. rewrite lookup_insert_eq. destruct (Hsame r x H2) as (E1 & E2 & _); [done|].
        rewrite E1, E2. split; [by apply Hl | done].
      * exists r', x. cbn. rewrite lookup_insert_ne by done. split; [by apply Hl | done].
    + right; right; right; right. by apply hand_over_create.
  - intros a Ha. apply (attempt_stable v); try done; [by left|]. by apply attempt_create, i_stop0.
  - intros t Ht. destruct (i_done0 t Ht) as (b & Hb). exists b. rewrite lookup_insert_ne; [done|congruence].
Qed.

(** ** Records *)

Lemma reaped_not_live X v T C n x s :
  inv X v T C n -> reaped v x -> c_process x = Some s \/ c_spawn x = Some s -> ~ live v s.
Proof.
  intros Hi [H1 H2] [H|H]; [|congruence]. specialize (H2 s H).
  pose proof (i_exited _ _ _ _ _ Hi s H2). intros [?|[? ?]]; congruence.
Qed.

(** A complete retirement leaves the list. *)
Lemma remove_inv X v T C n r l :
  inv X v T C n -> settled_record v r -> (forall r', r' ∈ v_list v -> r' = r \/ r' ∈ l) ->
  (forall r', r' ∈ l -> r' ∈ v_list v) -> inv X (v_set_ret l (v_records v) v) T C n.
Proof.
  intros Hi (x & Hx & Hr) Hl Hl'. pose proof (reaped_not_live X v T C n x) as Hnl.
  pose proof Hi as []. constructor; cbn; try done.
  - intros r' H. by apply i_list0, Hl'.
  - intros s Hs. destruct (i_live0 s Hs) as [H|[H|[H|[H|H]]]]; [by left|by right;left|by right;right;left| |].
    + destruct H as (r' & y & H1 & H2 & H3). right; right; right; left. destruct (Hl r' H1) as [->|H4].
      * assert (y = x) as -> by congruence. by destruct (Hnl s Hi Hr H3).
      * exists r', y. done.
    + right; right; right; right. exact H.
Qed.

(** A record is updated by its own task or keeps what its task knows. *)
Lemma update_inv X v T C n r x y :
  inv X v T C n -> v_records v !! r = Some x -> c_task y = c_task x -> record_ok v y ->
  (c_spawn y = c_spawn x /\ c_process y = c_process x \/ T !! c_task x = Some (Retire r RBegin)) ->
  (reaped v x -> reaped v y) ->
  (forall s, live v s -> c_process x = Some s \/ c_spawn x = Some s -> c_process y = Some s \/ c_spawn y = Some s) ->
  inv X (v_set_ret (v_list v) (<[r := y]> (v_records v)) v) T C n.
Proof.
  intros Hi Hx Ht Hok Hk Hr Hl. pose proof Hi as [].
  assert (forall r', settled_record v r' -> settled_record (v_set_ret (v_list v) (<[r := y]> (v_records v)) v) r') as Hset.
  { intros r' (z & Hz & H). destruct (decide (r' = r)) as [->|Hne].
    - exists y. cbn. rewrite lookup_insert_eq. split; [done|]. apply Hr. by assert (z = x) as -> by congruence.
    - exists z. cbn. by rewrite lookup_insert_ne. }
  constructor; cbn; try done.
  - intros k H. destruct (i_fresh0 k H) as (H1 & H2 & H3). split; [done|]. split; [|done].
    rewrite lookup_insert_ne; [done|congruence].
  - intros r' H. destruct (decide (r' = r)) as [->|Hne]; [by rewrite lookup_insert_eq|].
    rewrite lookup_insert_ne by done. by apply i_list0.
  - intros r' z. rewrite lookup_insert_Some. intros [[<- <-]|[Hne Hz]].
    + rewrite Ht. split; [by apply (i_records0 r x)|done].
    + by apply (i_records0 r' z).
  - intros t z Hz.
    assert (c_spawn y = c_spawn x /\ c_process y = c_process x \/ t <> c_task x \/ z = Retire r RBegin) as [Hs|[Hs|Hs]].
    { destruct Hk as [Hk|Hk]; [by left|]. destruct (decide (t = c_task x)) as [->|]; [right; right; congruence | auto]. }
    3: { subst z. pose proof (i_tasks0 t _ Hz) as (w & Hw & Hc & _). exists y. cbn. rewrite lookup_insert_eq.
         assert (w = x) as -> by congruence. split; [done|]. split; [congruence|done]. }
    all: eapply (task_stable t z v); [|done|by apply i_tasks0]; stable;
      intros r' pc w Ht' Hw Hc; (destruct (decide (r' = r)) as [->|Hne]; [|exists w; by rewrite lookup_insert_ne]);
      assert (w = x) as -> by congruence.
    + exists y. rewrite lookup_insert_eq. split; [done|]. split; [congruence|done].
    + congruence.
  - intros s Hs. destruct (i_live0 s Hs) as [H|[H|[H|[H|H]]]]; [by left|by right;left|by right;right;left| |].
    + destruct H as (r' & z & H1 & H2 & H3). right; right; right; left. destruct (decide (r' = r)) as [->|Hne].
      * exists r, y. cbn. rewrite lookup_insert_eq. assert (z = x) as -> by congruence. split; [done|].
        split; [done|]. by apply Hl.
      * exists r', z. cbn. by rewrite lookup_insert_ne.
    + right; right; right; right. exact H.
  - intros a Ha. apply (attempt_stable v); try done; [by left|]. by apply i_stop0.
Qed.

(** ** The environment *)

Lemma grow_inv X v T C C' n n' : inv X v T C n -> C ⊆ C' -> (n <= n')%positive -> inv X v T C' n'.
Proof.
  intros [] HC Hn. constructor; try done.
  - intros k Hk. apply i_fresh0. lia.
  - intros t x Ht. eapply (task_stable t x v v T T C C'); [|done|by apply i_tasks0]. stable.
    + intros s l _ [?|?]; [left; set_solver|by right].
    + intros pc l _ [?|?]; [left; set_solver|by right].
  - intros a Ha. specialize (i_stop0 a Ha). unfold attempt_inv in *. destruct (T !! a) as [[]|]; try done.
    unfold stop_inv in *. destruct pc as [[c|]| | | | | | | | | | |]; try done;
      destruct i_stop0 as (H1 & H2 & H3 & H4 & H5); (split; [done|]); (split; [done|]); (split; [done|]);
      (split; [|done]); intros t l s Ht; apply HC; by eapply H4.
Qed.

(** The environment only settles what it was asked for. *)
Lemma env_inv X v T C n spawns exited codes done :
  inv X v T C n ->
  (forall s x, v_spawns v !! s = Some x -> x <> Spawning -> spawns !! s = Some x) ->
  (forall s, is_Some (spawns !! s) -> is_Some (v_spawns v !! s)) ->
  v_exited v ⊆ exited -> codes ⊆ exited -> (forall p, p ∈ exited -> spawns !! p = Some Spawned) ->
  (forall s, live (v_set_env spawns exited codes done v) s -> live v s) ->
  (forall t, t ∈ done -> exists b, T !! t = Some (Finished b)) ->
  inv X (v_set_env spawns exited codes done v) T C n.
Proof.
  intros [] Hsp Hdom He Hc Hex Hl Hd.
  assert (forall r, settled_record v r -> settled_record (v_set_env spawns exited codes done v) r) as Hset.
  { intros r (x & Hx & H1 & H2). exists x. split; [done|]. split; [done|]. intros p Hp. cbn. set_solver. }
  constructor; cbn; try done.
  - intros k Hk. destruct (i_fresh0 k Hk) as (H1 & H2 & H3). split; [done|]. split; [done|].
    apply eq_None_not_Some. intros H. apply Hdom in H as [x H]. congruence.
  - intros r x Hx. destruct (i_records0 r x Hx) as (H1 & H2 & H3 & H4). split; [done|]. split; [done|].
    split; [done|]. intros Hw. destruct (H4 Hw) as (p & ? & ?). exists p. split; [done|]. cbn. set_solver.
  - intros t x Ht. eapply (task_stable t x v); [|done|by apply i_tasks0]. stable.
    intros s b Hs. apply Hsp; [done|by destruct b].
  - intros s Hs. eapply owned_mono; [..|by apply i_live0, Hl]; auto.
  - intros s s' H H'. by apply i_one0; apply Hl.
  - intros a Ha. apply (attempt_stable v); try done; [by left|]. by apply i_stop0.
Qed.

Lemma stop_inv_new X v T C n caller :
  inv X v T C n ->
  match v_stop v with Some a => T !! a = Some (Finished false) | None => True end ->
  match caller with Some c => exists b, T !! c = Some (Finished b) | None => True end ->
  inv X (v_set_ops (v_active v) (v_lifecycle v) (v_stopping v) (Some n) v) (<[n := Stop (ABegin caller)]> T) C (Pos.succ n).
Proof.
  intros Hi Hst Hc. pose proof Hi as []. destruct (i_fresh0 n) as (Hf & _); [done|].
  constructor; cbn; try done.
  - intros j Hj. rewrite lookup_insert_ne by lia. apply i_fresh0. lia.
  - intros r y Hy. destruct (i_records0 r y Hy) as (H & ?). split; [by apply fresh_insert_runs | done].
  - intros t y. rewrite lookup_insert_Some. intros [[<- <-]|[Hne Hy]]; [done|].
    eapply (task_stable t y v _ T); [stable | done | by apply i_tasks0].
    + intros; by apply fresh_insert_runs.
    + intros pc Ht Hv. rewrite Hv in Hst. congruence.
  - intros s Hs. destruct (i_slot0 s Hs) as (? & ? & ?). split; [done|]. split; [done|]. by apply hand_over_create.
  - intros s Hs. eapply owned_mono; [..|by apply i_live0]; auto. intros H. by eapply hand_over_create in H.
  - intros a [= <-]. unfold attempt_inv. rewrite lookup_insert_eq. cbn. destruct caller as [c|]; [|done].
    destruct Hc as [b Hb]. exists b. rewrite lookup_insert_ne; [done|congruence].
  - intros t Ht. destruct (i_done0 t Ht) as (b & Hb). exists b. rewrite lookup_insert_ne; [done|congruence].
Qed.

(** ** Admission and publication *)

Lemma reown_inv X X' v T C n :
  inv X v T C n -> (forall s, live v s -> X s -> owned X' v T s) -> inv X' v T C n.
Proof.
  intros [] HX. constructor; try done. intros s Hs.
  destruct (i_live0 s Hs) as [H|H]; [by apply HX | by right].
Qed.

Lemma weaken_inv X X' v T C n : inv X v T C n -> (forall s, live v s -> X s -> X' s) -> inv X' v T C n.
Proof. intros Hi HX. eapply reown_inv; [exact Hi|]. intros s Hs H. left. by apply HX. Qed.

Abbreviation none := (fun _ : positive => False).

(** Nothing owns a child: none is live. *)
Lemma nothing_live v T C n :
  inv none v T C n -> v_spawn v = None -> v_process v = None -> v_list v = [] -> (forall s, ~ handing v T s) -> no_live v.
Proof.
  intros Hi H1 H2 H3 H4 s Hs. destruct (i_live _ _ _ _ _ Hi s Hs) as [H|[H|[H|[H|H]]]]; try congruence.
  - destruct H as (r & x & H & _). rewrite H3 in H. by apply elem_of_nil in H.
  - by apply (H4 s).
Qed.

Lemma live_insert v s k g A :
  v_spawns v !! k = None ->
  live (v_set_env (<[k := Spawning]> (v_spawns v)) (v_exited v) g A v) s <-> s = k \/ live v s.
Proof.
  intros Hk. unfold live. cbn. destruct (decide (s = k)) as [->|Hne].
  - rewrite lookup_insert_eq, Hk. naive_solver.
  - rewrite lookup_insert_ne by done. naive_solver.
Qed.

Definition admit_view (g : Z) (k : positive) (v : view) : view :=
  MkView (v_process v) (v_client v) (Some g) (Some k) (v_active v) (v_lifecycle v) (v_stopping v) None (v_list v)
    (v_records v) (<[k := Spawning]> (v_spawns v)) (v_exited v) (v_returncodes v) (v_done v).

Lemma admit_inv v T C n t g c f :
  inv none v T C n -> T !! t = Some (Start SAdmit no_locals) -> v_process v = None -> v_client v = None -> v_list v = [] ->
  match v_stop v with Some a => exists b, T !! a = Some (Finished b) | None => True end ->
  inv none (admit_view g n v)
    (<[t := Start (SSpawnWait n) (MkLocals (Some g) None None (Some n) c f)]> T) C (Pos.succ n).
Proof.
  intros Hi Ht Hp Hc Hl Hst. set (l := MkLocals _ _ _ _ _ _).
  pose proof (holder _ _ _ _ _ _ _ Hi Ht eq_refl) as Hlife.
  destruct (no_hand_over _ _ _ _ _ _ _ Hi Ht Hlife eq_refl) as [Hns Hnh].
  assert (v_spawn v = None) as Hsp.
  { destruct (v_spawn v) as [s|] eqn:E; [|done]. destruct (i_slot _ _ _ _ _ Hi s E) as (_ & _ & H). by destruct (Hns s). }
  pose proof (nothing_live _ _ _ _ Hi Hsp Hp Hl Hnh) as Hnl.
  pose proof (i_tasks _ _ _ _ _ Hi t _ Ht) as (_ & _ & _ & _ & Hreg).
  pose proof Hi as []. destruct (i_fresh0 n) as (Hf1 & Hf2 & Hf3); [done|].
  assert (forall s, live (admit_view g n v) s <-> s = n \/ live v s) as Hlive.
  { intros s. by apply (live_insert v s n (v_returncodes v) (v_done v)). }
  assert (forall r j, runs T r j -> runs (<[t := Start (SSpawnWait n) l]> T) r j) as Hruns.
  { intros r j H. by eapply runs_move. }
  constructor; cbn; try done.
  - intros k Hk. destruct (i_fresh0 k) as (H1 & H2 & H3); [lia|]. split; [|split]; [|done|].
    + rewrite lookup_insert_ne; [done|congruence].
    + rewrite lookup_insert_ne; [done|lia].
  - intros r x Hx. destruct (i_records0 r x Hx) as (H1 & ?). split; [by apply Hruns|done].
  - intros k x. rewrite lookup_insert_Some. intros [[<- <-]|[Hne Hx]].
    { cbn. split; [done|]. split; [by split|]. split; [by exists g|]. split; [done|].
      destruct Hreg as [?|?]; [by left|by right]. }
    eapply (task_stable k x v); [|done|by apply i_tasks0]. stable.
    + congruence.
    + intros s l' Hs. pose proof (holder _ _ _ _ _ _ _ Hi Hs eq_refl). congruence.
    + intros s b Hs. rewrite lookup_insert_ne; [done|]. intros ->. rewrite Hf3 in Hs. done.
    + intros pc Hk Hv. rewrite Hv in Hst. destruct Hst as [b Hb]. congruence.
  - intros s [= <-]. split; [done|]. split; [done|]. exists t, l. cbn. rewrite lookup_insert_eq. auto.
  - intros s [->|H]%Hlive; [by right; left | by destruct (Hnl s)].
  - intros s s' [->|H]%Hlive [->|H']%Hlive; [done|by destruct (Hnl s')|by destruct (Hnl s)..].
  - intros p Hp'. rewrite lookup_insert_ne; [by apply i_exited0|]. intros ->. apply i_exited0 in Hp'. congruence.
  - intros k Hk. destruct (i_done0 k Hk) as (b & Hb). exists b. rewrite lookup_insert_ne; [done|congruence].
Qed.

(** The spawn task of [t] ended: its process is published, or [t] fails and
    will claim it. *)
Lemma settle_spawn_inv v T C n t s l x' p c :
  inv none v T C n -> T !! t = Some (Start (SSpawnWait s) l) -> t ∉ C ->
  (p = Some s /\ c = Some s /\ holds_spawn x' = false
   \/ p = None /\ c = None /\ exists l', x' = Start (SClaim true) l' /\ lo_process l' = Some s) ->
  (forall r b, x' <> RetireDone r b) -> (forall b, x' <> Finished b) -> (forall pc, x' <> Stop pc) ->
  task_inv (v_set_child p c (v_set_slot (v_generation v) None v)) T C t x' ->
  inv none (v_set_child p c (v_set_slot (v_generation v) None v)) (<[t := x']> T) C n.
Proof.
  intros Hi Ht HC Hx Hx1 Hx2 Hx3 Hk.
  pose proof (holder _ _ _ _ _ _ _ Hi Ht eq_refl) as Hlife.
  pose proof (i_tasks _ _ _ _ _ Hi t _ Ht) as (_ & _ & _ & _ & [?|[Hact Hsp]]); [done|].
  destruct (i_slot _ _ _ _ _ Hi s Hsp) as (Hp & Hc & _).
  pose proof Hi as [].
  assert (forall r j, runs T r j -> runs (<[t := x']> T) r j) as Hruns by (intros; by eapply runs_move).
  assert (forall k j m, k <> t -> T !! k = Some (Start (SSpawnWait j) m) -> False) as Hw.
  { intros k j m Hne Hs. pose proof (holder _ _ _ _ _ _ _ Hi Hs eq_refl). congruence. }
  constructor; cbn; try done.
  - intros k Hk'. destruct (i_fresh0 k Hk') as (H1 & H2 & H3). rewrite lookup_insert_ne; [done|congruence].
  - intros r x Hx'. destruct (i_records0 r x Hx') as (H1 & ?). split; [by apply Hruns|done].
  - intros k x. rewrite lookup_insert_Some. intros [[<- <-]|[Hne Hy]]; [by eapply task_inv_runs|].
    eapply (task_stable k x v); [|done|by apply i_tasks0]. stable. intros j m Hs. by destruct (Hw k j m).
  - intros d ->. naive_solver.
  - intros j Hj. destruct (i_live0 j Hj) as [H|[H|[H|[H|H]]]]; [done| |congruence|by right; right; right; left|].
    + assert (j = s) as -> by congruence. destruct Hx as [(-> & _)|(_ & _ & l' & -> & Hl')]; [by right; right; left|].
      right; right; right; right. exists t, l'. cbn. by rewrite lookup_insert_eq.
    + destruct H as (t' & l' & H1 & H2 & _). congruence.
  - intros a Ha. specialize (i_stop0 a Ha). unfold attempt_inv in *.
    assert (a <> t) as Hne. { intros ->. by rewrite Ht in i_stop0. }
    rewrite lookup_insert_ne by done. destruct (T !! a) as [[| |pc| | | | | | | | |]|] eqn:Ea; try done.
    unfold stop_inv in *. destruct pc as [[d|]| | | | | | | | | | |]; try done;
      try (destruct i_stop0 as (_ & _ & _ & H & _); by destruct HC; eapply H).
    destruct i_stop0 as (b & Hb). exists b. rewrite lookup_insert_ne; [done|congruence].
  - intros k Hk'. destruct (i_done0 k Hk') as (b & Hb). exists b. rewrite lookup_insert_ne; [done|congruence].
Qed.
