(* ===== verification/SupervisorProps.v ===== *)
(** * The child supervisor: theorems

    Every step preserves the invariant of [SupervisorInv]: at most one child is
    live, and a stop that succeeds leaves none. *)

From stdpp Require Import gmap.
From S2P Require Import SupervisorInv.

(** ** Steps that ownership does not see *)

(** [w] is [w0] but for what the view leaves out, new names, the task [t] and
    its cancellation. *)
Record near (t : positive) (w0 w : world) : Prop := MkNear {
  n_view : view_of w = view_of w0;
  n_tasks : forall x, <[t := x]> (w_tasks w) = <[t := x]> (w_tasks w0);
  n_next : (w_next w0 <= w_next w)%positive;
  n_cancels : e_cancels (w_env w0) ∖ {[t]} ⊆ e_cancels (w_env w)
}.

Lemma near_refl t w : near t w w.
Proof. split; [done|done|lia|set_solver]. Qed.

Lemma near_trans t w0 w1 w2 : near t w0 w1 -> near t w1 w2 -> near t w0 w2.
Proof.
  intros [V0 T0 N0 C0] [V1 T1 N1 C1]. split; [congruence| |lia|set_solver]. intros x. by rewrite T1, T0.
Qed.

Lemma near_set_task t x w : near t (set_task t x w) w.
Proof. split; [done| |cbn; lia|cbn; set_solver]. intros y. cbn. by rewrite insert_insert_eq. Qed.

Lemma near_interrupt t w : near t w (set_cancels (e_cancels (w_env w) ∖ {[t]}) w).
Proof. split; [done|done|cbn; lia|done]. Qed.

Lemma near_cancel t k w : near t w (cancel k w).
Proof. split; [done|done|cbn; lia|cbn; set_solver]. Qed.

Lemma view_set_record r x y w :
  record r w = Some x -> core_of y = core_of x -> view_of (set_record r y w) = view_of w.
Proof.
  intros Hx Hy. unfold view_of, set_record; cbn. f_equal. rewrite fmap_insert, Hy. apply insert_id.
  rewrite lookup_fmap. unfold record in Hx. by rewrite Hx.
Qed.

Lemma near_record t r x y w : record r w = Some x -> core_of y = core_of x -> near t w (set_record r y w).
Proof. intros Hx Hy. split; [by eapply view_set_record|done|cbn; lia|cbn; set_solver]. Qed.

Lemma view_clear w : view_of (set_uncertainty w) = view_of w.
Proof.
  unfold set_uncertainty, _clear_settled_start_uncertainty_locked, view_of; cbn.
  by repeat case_match.
Qed.

Lemma near_clear t w : near t w (set_uncertainty w).
Proof. split; [by apply view_clear|done|cbn; lia|cbn; set_solver]. Qed.

Lemma near_slot t sl w :
  sl_starting_generation sl = sl_starting_generation (w_slot w) -> sl_spawn_task sl = sl_spawn_task (w_slot w) ->
  near t w (set_slot sl w).
Proof. intros H1 H2. split; [|done|cbn; lia|cbn; set_solver]. unfold view_of; cbn. by rewrite H1, H2. Qed.

Lemma near_cancel_retired_spawn t r s w : near t w (_cancel_retired_spawn_once r s w).
Proof.
  unfold _cancel_retired_spawn_once. destruct (record r w) as [x|] eqn:Hx; [|apply near_refl].
  destruct (_ || _); [apply near_refl|]. eapply near_trans; [|apply near_cancel]. by eapply near_record.
Qed.

Lemma near_cancel_spawn t s w : near t w (_cancel_spawn_once s w).
Proof.
  unfold _cancel_spawn_once. destruct (spawn_done s w); [apply near_refl|]. case_bool_decide as Hs.
  - destruct (sl_spawn_cancel_requested _); [apply near_refl|]. eapply near_trans; [|apply near_cancel].
    by apply near_slot.
  - destruct (List.find _ _); [apply near_cancel_retired_spawn | apply near_refl].
Qed.

Lemma near_cancel_retired_startup t r f w : near t w (_cancel_retired_startup_task_once r f w).
Proof.
  unfold _cancel_retired_startup_task_once. destruct (record r w) as [x|] eqn:Hx; [|apply near_refl].
  destruct (_ || _); [apply near_refl|]. eapply near_trans; [|apply near_cancel]. by eapply near_record.
Qed.

Lemma near_cancel_startup t f w : near t w (_cancel_startup_task_once f w).
Proof.
  unfold _cancel_startup_task_once. destruct (startup_done f w); [apply near_refl|]. case_bool_decide.
  - case_bool_decide; [apply near_refl|]. eapply near_trans; [|apply near_cancel]. by apply near_slot.
  - destruct (List.find _ _); [apply near_cancel_retired_startup | apply near_refl].
Qed.

(** ** Moves *)

Lemma near_move w0 w t x x' :
  Inv w0 -> near t w0 w -> w_tasks w0 !! t = Some x -> continues x x' -> waits_spawn x' = false ->
  holds_spawn x = false -> task_inv (view_of w0) (w_tasks w0) (e_cancels (w_env w)) t x' ->
  (w_tasks w0 !! t = Some x -> op_stop_task (w_ops w0) = Some t ->
   attempt_inv (view_of w0) (<[t := x']> (w_tasks w0)) (e_cancels (w_env w)) t) ->
  Inv (set_task t x' w).
Proof.
  intros Hi [Hv Ht Hn Hc] Hx Hco Hw Hh Hk Hst. unfold Inv.
  change (view_of (set_task t x' w)) with (view_of w). cbn. rewrite Hv, Ht.
  assert (forall s, ~ spawning (view_of w0) (w_tasks w0) s /\ ~ handing (view_of w0) (w_tasks w0) s \/
            v_lifecycle (view_of w0) <> Some t) as Hno.
  { intros s. destruct (decide (v_lifecycle (view_of w0) = Some t)) as [Hl|]; [left|by right].
    destruct (no_hand_over _ _ _ _ _ _ _ Hi Hx Hl Hh). split; auto. }
  eapply move_inv; try done; [..|by auto].
  - intros s _ H. destruct (Hno s) as [[Hs _]|Hl]; [done|]. destruct H as (k & l & H1 & H2 & H3).
    exists k, l. rewrite lookup_insert_ne by congruence. done.
  - intros s _ H. destruct (Hno s) as [[_ Hs]|Hl]; [done|]. destruct H as (k & l & H1 & H2 & H3).
    right; right; right; right. exists k, l. rewrite lookup_insert_ne by congruence. done.
Qed.

(** A task that is no stop attempt. *)
Lemma simple_move w0 w t x x' :
  Inv w0 -> near t w0 w -> w_tasks w0 !! t = Some x -> continues x x' -> waits_spawn x' = false ->
  holds_spawn x = false -> (forall pc, x <> Stop pc) ->
  task_inv (view_of w0) (w_tasks w0) (e_cancels (w_env w)) t x' -> Inv (set_task t x' w).
Proof.
  intros Hi Hn Hx Hc Hw Hh Hs Hk. eapply near_move; try done. intros _ Ha.
  pose proof (i_stop _ _ _ _ _ Hi t Ha) as H. unfold attempt_inv in H. rewrite Hx in H.
  destruct x; try done. by destruct (Hs pc).
Qed.

(** ** The lifecycle section *)

Lemma release_step w t x A :
  Inv w -> op_lifecycle (w_ops w) = Some t -> w_tasks w !! t = Some x -> holds_lifecycle x = false ->
  (forall pc l, x = Start pc l -> pc = SUnregister) -> op_active (w_ops w) ∖ {[t]} ⊆ A ->
  forall o, op_active o = A -> op_lifecycle o = None -> op_stopping o = op_stopping (w_ops w) ->
  op_stop_task o = op_stop_task (w_ops w) -> Inv (set_ops o w).
Proof.
  intros Hi Hl Hx Hh Hu HA o Ho1 Ho2 Ho3 Ho4.
  pose proof (release_inv _ _ _ _ _ t x A Hi Hl Hx Hh Hu HA) as H.
  unfold Inv, view_of in *; cbn in *. by rewrite Ho1, Ho2, Ho3, Ho4.
Qed.

(** The task leaves the section as [x'], with the operations [o]. *)
Lemma leave_inv w0 w t x x' o :
  Inv w0 -> near t w0 w -> w_tasks w0 !! t = Some x -> holds_lifecycle x = true -> holds_spawn x = false ->
  continues x x' -> holds_lifecycle x' = false -> (forall pc l, x' = Start pc l -> pc = SUnregister) ->
  task_inv (view_of w0) (w_tasks w0) (e_cancels (w_env w)) t x' ->
  op_active (w_ops w) ∖ {[t]} ⊆ op_active o -> op_lifecycle o = None -> op_stopping o = op_stopping (w_ops w) ->
  op_stop_task o = op_stop_task (w_ops w) -> Inv (set_task t x' (set_ops o w)).
Proof.
  intros Hi Hn Hx Hl Hs Hc Hl' Hu Hk Ho1 Ho2 Ho3 Ho4.
  pose proof (holder _ _ _ _ _ _ _ Hi Hx Hl) as Hlife.
  assert (Inv (set_task t x' w)) as Hi1.
  { eapply simple_move; try done; [by destruct x' as [[]| | | | | | | | | | |]|by destruct x]. }
  change (Inv (set_ops o (set_task t x' w))).
  apply (release_step (set_task t x' w) t x' (op_active o) Hi1); try done.
  - change (v_lifecycle (view_of w) = Some t). by rewrite (n_view _ _ _ Hn).
  - cbn. apply lookup_insert_eq.
Qed.

Lemma start_leave_inv w0 w t pc l0 l :
  Inv w0 -> near t w0 w -> w_tasks w0 !! t = Some (Start pc l0) -> in_section pc = true ->
  holds_spawn (Start pc l0) = false -> locals_ok l -> Inv (start_leave t l w).
Proof.
  intros Hi Hn Hx Hin Hh Hl. unfold start_leave, release_lifecycle. destruct (lo_failed l).
  - eapply leave_inv; try done; cbn; [by intros ?? [= <-]|set_solver].
  - refine (leave_inv w0 w t _ (Finished true)
      (_unregister_successful_start_at_return t (op_set_lifecycle None (w_ops w))) Hi Hn Hx Hin Hh _ _ _ _ _ _ _ _); done.
Qed.

Lemma op_leave_inv w0 w t next pc ok :
  Inv w0 -> near t w0 w -> w_tasks w0 !! t = Some (Operation next pc) -> op_in_section pc = true ->
  Inv (op_leave t next ok w).
Proof. intros Hi Hn Hx Hin. unfold op_leave, release_lifecycle. eapply leave_inv; try done. cbn. set_solver. Qed.

Lemma acquire_step w t :
  Inv w -> op_lifecycle (w_ops w) = None -> Inv (set_ops (op_set_lifecycle (Some t) (w_ops w)) w).
Proof. intros Hi Hl. exact (acquire_inv _ _ _ _ _ t Hi Hl). Qed.

Lemma active_step w o :
  Inv w -> (forall t pc l, w_tasks w !! t = Some (Start pc l) -> t ∈ op_active (w_ops w) ->
    t ∈ e_cancels (w_env w) \/ t ∈ op_active o) ->
  op_lifecycle o = op_lifecycle (w_ops w) -> op_stopping o = op_stopping (w_ops w) ->
  op_stop_task o = op_stop_task (w_ops w) -> Inv (set_ops o w).
Proof.
  intros Hi HA H1 H2 H3. pose proof (active_inv _ _ _ _ _ (op_active o) Hi HA) as H.
  unfold Inv, view_of in *; cbn in *. by rewrite H1, H2, H3.
Qed.

Lemma not_done w t x : Inv w -> w_tasks w !! t = Some x -> terminal x = false -> t ∉ e_done (w_env w).
Proof. intros Hi Hx Hf Hd. destruct (i_done _ _ _ _ _ Hi t Hd) as [b Hb]. rewrite Hx in Hb. by injection Hb as ->. Qed.

Lemma prune_inv w : Inv w -> Inv (prune w).
Proof.
  intros Hi. apply active_step; try done. intros t pc l Ht Ha. right. cbn.
  pose proof (not_done _ _ _ Hi Ht eq_refl). set_solver.
Qed.

Lemma register_inv w t : Inv w -> Inv (_register_operation t w).1.
Proof.
  intros Hi. unfold _register_operation. destruct (_ || _); [by apply prune_inv|].
  apply active_step; try done. intros k pc l Hk Ha. right. cbn.
  pose proof (not_done _ _ _ Hi Hk eq_refl). set_solver.
Qed.

Lemma register_facts w t w1 ok :
  _register_operation t w = (w1, ok) ->
  w_tasks w1 = w_tasks w /\ (ok = true -> t ∈ op_active (w_ops w1)).
Proof. unfold _register_operation. destruct (_ || _); intros [= <- <-]; split; try done. cbn. set_solver. Qed.

(** ** Claims *)

Lemma core_adopt (b : bool) sl x : core_of (if b then adopt_startup sl x else x) = core_of x.
Proof. by destruct b. Qed.

Lemma view_startup (b : bool) w :
  view_of (if b then set_slot (sl_set_startup ∅ ∅ (w_slot w)) w else w) = view_of w.
Proof. by destruct b. Qed.

(** An existing record that the claim finds keeps its core. *)
Lemma core_attach client process spawn requested x :
  (forall s, spawn = Some s -> process = None /\ client = None) ->
  same client (rt_client x) || same process (rt_process x) || same spawn (rt_spawn_task x) = true ->
  core_of (attach_spawn spawn requested x) = core_of x.
Proof.
  intros Hs H. unfold attach_spawn. destruct spawn as [s|]; [|done]. destruct (Hs s eq_refl) as [-> ->].
  unfold same in H. rewrite !orb_true_iff, !bool_decide_eq_true in H.
  destruct H as [[[H _]|[H _]]|[_ H]]; [by destruct H..|]. unfold core_of. rewrite <- H. cbn. by rewrite H.
Qed.

Record claim_frame (w w' : world) : Prop := MkClaimFrame {
  cf_pub : w_pub w' = w_pub w;
  cf_ops : w_ops w' = w_ops w;
  cf_env : w_env w' = w_env w;
  cf_generation : sl_starting_generation (w_slot w') = sl_starting_generation (w_slot w);
  cf_spawn : sl_spawn_task (w_slot w') = sl_spawn_task (w_slot w);
  cf_next : (w_next w <= w_next w')%positive;
  cf_tasks : forall t x, w_tasks w !! t = Some x -> w_tasks w' !! t = Some x
}.

Definition Inv_but (X : positive -> Prop) (w : world) : Prop :=
  inv X (view_of w) (w_tasks w) (e_cancels (w_env w)) (w_next w).

Lemma owned_by_claim X w r client process spawn s :
  Inv_but X w -> (forall c, client = Some c -> process = Some c) -> r ∈ re_list (w_ret w) ->
  owns client process spawn w r = true -> (forall j, spawn = Some j -> process = None) ->
  process = Some s \/ spawn = Some s -> retiring (view_of w) s.
Proof.
  intros Hi Hc Hr Ho Hsp Hs. unfold owns in Ho. destruct (record r w) as [x|] eqn:Hx; [|done].
  exists r, (core_of x). split; [done|]. unfold record in Hx. cbn. rewrite lookup_fmap, Hx. split; [done|].
  assert (record_ok (view_of w) (core_of x)) as (Hok & _).
  { apply (i_records _ _ _ _ _ Hi r). cbn. by rewrite lookup_fmap, Hx. }
  unfold same in Ho. rewrite !orb_true_iff, !bool_decide_eq_true in Ho. cbn in *.
  destruct Ho as [[[H1 H2]|[H1 H2]]|[H1 H2]].
  - destruct client as [c|]; [|done]. pose proof (Hc c eq_refl) as Hp. destruct Hs as [Hs|Hs]; [|by rewrite (Hsp s Hs) in Hp].
    left. rewrite Hs in Hp. injection Hp as ->. by apply Hok.
  - left. destruct Hs as [Hs|Hs]; [congruence|]. by rewrite (Hsp s Hs) in H1.
  - right. destruct Hs as [Hs|Hs]; [|congruence]. destruct spawn as [j|]; [|done]. rewrite (Hsp j) in Hs; done.
Qed.

(** A record starts a new task. *)
Lemma launch_step X X' w r x l :
  Inv_but X w ->
  match record r w with
  | Some y => (exists b, w_tasks w !! rt_task y = Some (RetireDone r b)) /\ x = y
  | None => (r <= w_next w)%positive /\ record_ok (view_of w) (core_of (rt_set_task (w_next w) x))
  end ->
  (forall r', r' ∈ re_list (w_ret w) -> r' ∈ l) -> (forall r', r' ∈ l -> r' = r \/ r' ∈ re_list (w_ret w)) ->
  (forall s, live (view_of w) s -> X s -> X' s \/ (r ∈ l /\ (rt_process x = Some s \/ rt_spawn_task x = Some s))) ->
  Inv_but X' (set_ret (MkRetired l (<[r := rt_set_task (w_next w) x]> (re_records (w_ret w))))
                (create_task (Retire r RBegin) w)).
Proof.
  intros Hi Hr Hl Hl' HX.
  assert (inv X' (v_set_ret l (<[r := core_of (rt_set_task (w_next w) x)]> (v_records (view_of w))) (view_of w))
            (<[w_next w := Retire r RBegin]> (w_tasks w)) (e_cancels (w_env w)) (Pos.succ (w_next w))) as H.
  { eapply launch_inv; try done. cbn. rewrite lookup_fmap. unfold record in Hr.
    destruct (re_records (w_ret w) !! r) as [y|]; cbn; [|done]. destruct Hr as [Hr ->]. done. }
  unfold Inv_but, view_of in *. cbn in *. by rewrite fmap_insert.
Qed.

(** A section that claims what [X] holds. *)
Lemma claim_inv X X' w client process take spawn requested w' o :
  Inv_but X w -> (forall c, client = Some c -> process = Some c) ->
  (forall s, spawn = Some s -> process = None /\ client = None) ->
  (forall s, live (view_of w) s -> X s -> X' s \/ process = Some s \/ spawn = Some s) ->
  _claim_retirement_locked client process take spawn requested w = (w', o) ->
  Inv_but X' w' /\ claim_frame w w'
  /\ (forall r, o = Some r -> exists x, record r w' = Some x /\ runs (w_tasks w') r (rt_task x)).
Proof.
  intros Hi Hc Hs HX. unfold _claim_retirement_locked.
  set (startup := take && _). clearbody startup.
  set (adopt := fun x : retirement => if startup then adopt_startup (w_slot w) x else x).
  set (w1 := if startup then set_slot (sl_set_startup ∅ ∅ (w_slot w)) w else w).
  assert (view_of w1 = view_of w) as Hv1 by apply view_startup.
  assert (w_tasks w1 = w_tasks w /\ w_next w1 = w_next w /\ w_env w1 = w_env w /\ record_ok (view_of w) (MkCore client process spawn 1 false))
    as (Ht1 & Hn1 & He1 & Hok).
  { unfold w1. split; [by destruct startup|]. split; [by destruct startup|]. split; [by destruct startup|].
    split; [done|]. split; [|done]. intros s Hs'. by destruct (Hs s Hs'). }
  assert (claim_frame w w1) as Hf1.
  { unfold w1. destruct startup; split; try done; cbn; lia. }
  destruct (_ && _) eqn:Hnone.
  { rewrite !andb_true_iff, !bool_decide_eq_true in Hnone. destruct Hnone as [[[-> ->] _] ->].
    intros [= <- <-]. split; [|split; [split; try done; lia|done]]. eapply weaken_inv; [exact Hi|]. naive_solver. }
  destruct (List.find _ _) as [r|] eqn:Hfind.
  - apply List.find_some in Hfind as [Hin Ho]. apply list_elem_of_In in Hin.
    pose proof Ho as Ho'. unfold owns in Ho'. destruct (record r w) as [x|] eqn:Hx; [|done].
    assert (near 1%positive w1 (set_record r (attach_spawn spawn requested (adopt x)) w1)) as Hnear.
    { eapply (near_record _ _ x); [by unfold w1; destruct startup|]. rewrite (core_attach client process); [apply core_adopt|done|].
      unfold adopt. by destruct startup. }
    intros H. assert (w' = set_record r (attach_spawn spawn requested (adopt x)) w1 /\ o = Some r) as [-> ->]
      by (by injection H). clear H. split; [|split].
    + unfold Inv_but. rewrite (n_view _ _ _ Hnear), Hv1. cbn. rewrite Ht1, Hn1, He1.
      pose proof (fun s => owned_by_claim X w r client process spawn s Hi Hc Hin Ho (fun j Hj => proj1 (Hs j Hj))) as Hown.
      eapply reown_inv; [exact Hi|]. intros s Hs' H.
      destruct (HX s Hs' H) as [?|?]; [by left|]. right; right; right; left. auto.
    + destruct Hf1. split; cbn; auto.
    + intros r' [= <-]. eexists. split; [unfold record, set_record; cbn; apply lookup_insert_eq|].
      cbn. rewrite Ht1. replace (rt_task _) with (rt_task x).
      * apply (i_records _ _ _ _ _ Hi r (core_of x)). cbn. unfold record in Hx. by rewrite lookup_fmap, Hx.
      * unfold attach_spawn, adopt. destruct spawn, startup; cbn; try done; by destruct (rt_spawn_task x).
  - intros H. set (n := w_next w).
    set (x := adopt (MkRetirement client process n NotStarted NotStarted NotStarted false false spawn requested ∅ ∅)).
    set (w2 := retry_retirement n x (take_name w1)).
    assert (w' = set_ret (MkRetired (re_list (w_ret w2) ++ [n]) (re_records (w_ret w2))) w2 /\ o = Some n)
      as [-> ->] by (by injection H). clear H.
    pose proof (i_fresh _ _ _ _ _ Hi) as Hfr.
    assert (core_of (rt_set_task (Pos.succ n) x) = MkCore client process spawn (Pos.succ n) false) as Hcore.
    { unfold x, adopt. by destruct startup. }
    split; [|split].
    + change (Inv_but X' (set_ret (MkRetired (re_list (w_ret w1) ++ [n])
                (<[n := rt_set_task (w_next (take_name w1)) x]> (re_records (w_ret (take_name w1)))))
                (create_task (Retire n RBegin) (take_name w1)))).
      assert (re_list (w_ret w1) = re_list (w_ret w)) as Hl1 by (unfold w1; by destruct startup).
      eapply (launch_step X).
      * unfold Inv_but. change (view_of (take_name w1)) with (view_of w1). rewrite Hv1. cbn. rewrite Ht1, He1, Hn1.
        eapply grow_inv; [exact Hi|done|lia].
      * assert (record n (take_name w1) = None) as ->.
        { destruct (Hfr n) as (_ & H & _); [done|]. cbn in H. rewrite lookup_fmap in H. apply fmap_None in H.
          unfold record, w1. by destruct startup. }
        split; [cbn; rewrite Hn1; unfold n; lia|]. cbn [w_next take_name]. rewrite Hn1. fold n. rewrite Hcore.
        change (record_ok (view_of w1) (MkCore client process spawn (Pos.succ n) false)). by rewrite Hv1.
      * intros r' Hr'. cbn in *. set_solver.
      * intros r' Hr'. cbn in *. set_solver.
      * intros s Hs' H. change (view_of (take_name w1)) with (view_of w1) in Hs'. rewrite Hv1 in Hs'.
        destruct (HX s Hs' H) as [?|?]; [by left|]. right. split; [set_solver|]. unfold x, adopt. by destruct startup.
    + destruct Hf1 as [? ? ? ? ? Hn Hts]. split; cbn; try done; [fold n; rewrite Hn1; unfold n; lia|].
      intros t y Hy. rewrite Ht1, Hn1. fold n. rewrite lookup_insert_ne; [done|]. intros <-.
      destruct (Hfr (Pos.succ n)) as [H _]; [fold n; lia|]. congruence.
    + intros r' [= <-]. eexists. split; [unfold record; cbn; apply lookup_insert_eq|]. cbn. left. exists RBegin.
      apply lookup_insert_eq.
Qed.

(** ** Removals *)

Lemma elem_remove_first r r' l : r' ∈ remove_first r l -> r' ∈ l.
Proof. induction l as [|y l IH]; cbn; [done|]. case_bool_decide; set_solver. Qed.

Lemma elem_remove_first_other r r' l : r' ∈ l -> r' = r \/ r' ∈ remove_first r l.
Proof.
  induction l as [|y l IH]; cbn; [by intros ?%elem_of_nil|].
  intros [->|H]%list.elem_of_cons; case_bool_decide; set_solver.
Qed.

Lemma remove_view r w : exists l, view_of (_remove_retirement_if_complete_locked r w).1 = v_set_ret l (v_records (view_of w)) (view_of w)
  /\ (forall r', r' ∈ re_list (w_ret w) -> r' = r \/ r' ∈ l) /\ (forall r', r' ∈ l -> r' ∈ re_list (w_ret w))
  /\ w_tasks (_remove_retirement_if_complete_locked r w).1 = w_tasks w
  /\ w_env (_remove_retirement_if_complete_locked r w).1 = w_env w
  /\ w_next (_remove_retirement_if_complete_locked r w).1 = w_next w.
Proof.
  unfold _remove_retirement_if_complete_locked.
  assert (view_of w = v_set_ret (re_list (w_ret w)) (v_records (view_of w)) (view_of w)) as Hid by done.
  destruct (record r w) as [x|]; [|exists (re_list (w_ret w)); naive_solver].
  destruct (_ || _); [exists (re_list (w_ret w)); naive_solver|].
  case_bool_decide; [|exists (re_list (w_ret w)); naive_solver].
  exists (remove_first r (re_list (w_ret w))). split; [done|].
  split; [intros r'; apply elem_remove_first_other|]. split; [intros r'; apply elem_remove_first|done].
Qed.

Lemma remove_step w r : Inv w -> settled_record (view_of w) r -> Inv (_remove_retirement_if_complete_locked r w).1.
Proof.
  intros Hi Hr. destruct (remove_view r w) as (l & Hv & H1 & H2 & Ht & He & Hn). unfold Inv. rewrite Hv, Ht, He, Hn.
  by apply remove_inv with (r := r).
Qed.

Lemma remove_keeps w r r' : settled_record (view_of w) r' ->
  settled_record (view_of (_remove_retirement_if_complete_locked r w).1) r'.
Proof. destruct (remove_view r w) as (l & -> & _). done. Qed.

(** ** [start] *)

Lemma fail_ok l : locals_ok l -> locals_ok (fail l).
Proof. done. Qed.

(** A failure outside the spawn wait. *)
Lemma start_fail_inv w0 w t pc l :
  Inv w0 -> near t w0 w -> w_tasks w0 !! t = Some (Start pc l) -> in_section pc = true ->
  holds_spawn (Start pc l) = false -> locals_ok l ->
  (admitted pc = true \/ l = no_locals \/ l = fail no_locals) ->
  Inv (start_fail t l w).
Proof.
  intros Hi Hn Hx Hin Hh Hl Hpc. pose proof (holder _ _ _ _ _ _ _ Hi Hx Hin) as Hlife.
  pose proof (i_tasks _ _ _ _ _ Hi t _ Hx) as (_ & _ & Hg & _).
  destruct Hpc as [Ha|[->| ->]]; [|exact (start_leave_inv w0 w t pc _ (fail no_locals) Hi Hn Hx Hin Hh Hl)
    |exact (start_leave_inv w0 w t pc _ (fail no_locals) Hi Hn Hx Hin Hh Hl)].
  destruct (Hg Ha) as (g & Hg1 & Hg2). unfold start_fail.
  case_bool_decide as Hp; [|case_bool_decide as Hs]; cbn; [..|rewrite Hg1];
    (eapply simple_move; try done; cbn; split; [done|]; split; [done|]; split; [by exists g|done]).
Qed.

(** The spawn wait fails: the start keeps the spawn task until it claims it. *)
Lemma spawn_fail_inv w0 w t s l :
  Inv w0 -> near t w0 w -> w_tasks w0 !! t = Some (Start (SSpawnWait s) l) -> Inv (start_fail t l w).
Proof.
  intros Hi Hn Hx. pose proof (holder _ _ _ _ _ _ _ Hi Hx eq_refl) as Hlife.
  pose proof (i_tasks _ _ _ _ _ Hi t _ Hx) as (_ & Hok & Hg & Hs & _).
  pose proof Hn as [Hv Ht Hnx Hc]. unfold start_fail. rewrite Hs.
  rewrite (bool_decide_eq_true_2 (Some s <> None)) by done.
  replace (if bool_decide (lo_process l <> None) then true else true) with true by (by case_bool_decide).
  rewrite orb_true_r. unfold Inv.
  change (view_of (set_task t ?x w)) with (view_of w). cbn. rewrite Hv, Ht.
  eapply (move_inv _ _ _ _ _ _ _ _ _ _ Hi Hx); try done.
  - intros j _ (k & m & H1 & H2 & H3). assert (k = t) as -> by congruence. exists t, (claimed (fail l)).
    rewrite lookup_insert_eq. split; [done|]. split; [|by right]. destruct H3 as [H3|H3]; rewrite Hx in H3; [|done].
    by injection H3 as <- <-.
  - intros j _ (k & m & H1 & H2 & _). assert (k = t) as -> by congruence. congruence.
  - intros Ha. pose proof (i_stop _ _ _ _ _ Hi t Ha) as H. unfold attempt_inv in H. by rewrite Hx in H.
Qed.

Lemma begin_phase_near t k l w : near t w (set_slot (sl_set_startup ({[w_next w]} ∪ sl_startup_tasks (w_slot w))
    (sl_startup_cancel_requested (w_slot w)) (w_slot w)) (take_name w)) /\
  begin_phase k t l w = set_task t (Start (SPhaseWait k (w_next w)) l)
    (set_slot (sl_set_startup ({[w_next w]} ∪ sl_startup_tasks (w_slot w))
    (sl_startup_cancel_requested (w_slot w)) (w_slot w)) (take_name w)).
Proof. split; [|done]. split; [done|done|cbn; lia|cbn; set_solver]. Qed.

Lemma next_phase_inv w t k f l k' :
  Inv w -> w_tasks w !! t = Some (Start (SPhaseWait k f) l) -> Inv (begin_phase k' t l w).
Proof.
  intros Hi Hx. destruct (begin_phase_near t k' l w) as [Hn ->].
  pose proof (i_tasks _ _ _ _ _ Hi t _ Hx) as H. by eapply simple_move.
Qed.

Lemma detach_step X w g : Inv_but X w ->
  Inv_but (fun s => X s \/ p_process (w_pub w) = Some s) (set_pub (p_set_child None None g (w_pub w)) w).
Proof. intros Hi. exact (detach_inv _ _ _ _ _ Hi). Qed.

Lemma claim_view w w' : claim_frame w w' ->
  v_lifecycle (view_of w') = v_lifecycle (view_of w) /\ v_generation (view_of w') = v_generation (view_of w)
  /\ v_active (view_of w') = v_active (view_of w) /\ v_stop (view_of w') = v_stop (view_of w)
  /\ v_stopping (view_of w') = v_stopping (view_of w) /\ e_cancels (w_env w') = e_cancels (w_env w).
Proof. intros [H1 H2 H3 H4 H5 _ _]. unfold view_of; cbn. by rewrite H2, H3, H4. Qed.

Lemma retire_terminal_inv w t w' :
  Inv w -> w_tasks w !! t = Some (Start STerminal no_locals) -> retire_terminal t no_locals w = Some w' -> Inv w'.
Proof.
  intros Hi Hx. pose proof (i_tasks _ _ _ _ _ Hi t _ Hx) as (_ & _ & _ & _ & Hreg).
  pose proof (holder _ _ _ _ _ _ _ Hi Hx eq_refl) as Hlife.
  unfold retire_terminal. destruct (_published_child_is_terminal_locked w).
  2: { intros [= <-]. by eapply (simple_move w w); try apply near_refl. }
  set (w1 := set_pub _ w). assert (Inv_but _ w1) as Hi1 by (by apply detach_step).
  destruct (_claim_retirement_locked _ _ _ _ _ _) as [w2 o] eqn:Hcl.
  eapply (claim_inv _ none) in Hcl as (Hi2 & Hf & Ho); [|exact Hi1|exact (i_pub _ _ _ _ _ Hi)|done|intros s _ [[]|H]; right; left; exact H].
  pose proof (cf_tasks _ _ Hf t _ Hx) as Hx2. destruct (claim_view _ _ Hf) as (E1 & E2 & E3 & E4 & E5 & E6).
  assert (registered (view_of w2) (e_cancels (w_env w2)) t) as Hreg2 by (unfold registered; by rewrite E3, E6).
  destruct o as [r|].
  - destruct (Ho r eq_refl) as (x & -> & Hr). cbn. intros [= <-].
    eapply (simple_move w2 w2); try done; try apply near_refl.
    split; [by rewrite E1|]. split; [done|]. split; [done|]. split; [by left|done].
  - intros [= <-]. eapply (simple_move w2 w2); try done; try apply near_refl.
    split; [by rewrite E1|done].
Qed.

Lemma start_admit_inv w t :
  Inv w -> w_tasks w !! t = Some (Start SAdmit no_locals) -> Inv (start_admit t no_locals w).
Proof.
  intros Hi Hx. pose proof (i_tasks _ _ _ _ _ Hi t _ Hx) as H. unfold start_admit.
  pose proof (near_clear t w) as Hn. unfold set_uncertainty in Hn. set (w1 := set_slot _ w) in *.
  destruct (_ || _) eqn:Hpub.
  { destruct (_published_child_is_terminal_locked w); [by eapply simple_move | by eapply start_leave_inv]. }
  rewrite orb_false_iff, !bool_decide_eq_false in Hpub. destruct Hpub as [Hp Hc].
  destruct (_ || _) eqn:Hr; [by eapply start_fail_inv; eauto|].
  rewrite !orb_false_iff, !bool_decide_eq_false in Hr. destruct Hr as [[[[[H1 H2] H3] H4] H5] H6].
  assert (Inv w1) as Hi1.
  { unfold Inv. rewrite (n_view _ _ _ Hn). exact Hi. }
  apply dec_stable in Hp, Hc, H4.
  assert (match op_stop_task (w_ops w) with Some a => exists b, w_tasks w !! a = Some (Finished b) | None => True end) as Hst.
  { destruct (op_stop_task (w_ops w)) as [a|]; [|done]. destruct (w_tasks w !! a) as [[]|]; try done. by eexists. }
  exact (admit_inv (view_of w1) (w_tasks w1) _ _ t (p_generation (w_pub w)) false false Hi1 Hx Hp Hc H4 Hst).
Qed.

Lemma start_publish_inv w t s l pipes :
  Inv w -> w_tasks w !! t = Some (Start (SSpawnWait s) l) -> t ∉ e_cancels (w_env w) -> Inv (start_publish t s l pipes w).
Proof.
  intros Hi Hx HC. pose proof (i_tasks _ _ _ _ _ Hi t _ Hx) as (Hl & _ & Hg & _ & [?|[_ Hs]]); [done|].
  destruct (Hg eq_refl) as (g & Hg1 & Hg2). cbn in Hs.
  destruct (i_slot _ _ _ _ _ Hi s Hs) as (Hp & Hc & _). cbn in Hp, Hc.
  unfold start_publish. rewrite bool_decide_eq_true_2 by done. destruct pipes.
  - set (l1 := MkLocals _ _ _ _ _ _).
    apply (grow_inv _ _ _ (e_cancels (w_env w)) _ (w_next w)); [|done|cbn; lia].
    eapply (settle_spawn_inv _ _ _ _ t s l (Start (SPhaseWait Initialize (w_next w)) l1) (Some s) (Some s) Hi Hx HC);
      try done; try by left.
  - set (l1 := MkLocals _ _ _ _ _ _). set (w1 := set_slot _ w).
    assert (view_of w1 = v_set_child None None (v_set_slot (v_generation (view_of w)) None (view_of w))) as Hv.
    { unfold view_of, w1; cbn. by rewrite Hp, Hc. }
    unfold Inv. change (view_of (start_fail t l1 w1)) with (view_of w1). rewrite Hv.
    change (w_tasks (start_fail t l1 w1)) with (<[t := Start (SClaim true) (claimed (fail l1))]> (w_tasks w)).
    eapply (settle_spawn_inv _ _ _ _ t s l _ None None Hi Hx HC); try done.
    right. split; [done|]. split; [done|]. by eexists.
Qed.

(** The claim of a failed start, its task moved first. *)
Lemma claim_set_task client process take spawn requested t x w :
  (t < w_next w)%positive ->
  _claim_retirement_locked client process take spawn requested (set_task t x w)
  = (set_task t x (_claim_retirement_locked client process take spawn requested w).1,
     (_claim_retirement_locked client process take spawn requested w).2).
Proof.
  intros Ht. unfold _claim_retirement_locked.
  change (w_slot (set_task t x w)) with (w_slot w). set (startup := take && _). clearbody startup.
  change (w_ret (set_task t x w)) with (w_ret w). change (owns client process spawn (set_task t x w)) with (owns client process spawn w).
  destruct (_ && _); [done|]. destruct (List.find _ _) as [r|].
  - change (record r (set_task t x w)) with (record r w). by destruct (record r w), startup.
  - destruct startup; cbn; unfold set_ret, set_task, create_task; cbn; f_equal; f_equal;
      rewrite insert_insert_ne; done || lia.
Qed.

Lemma set_task_twice t x y w : set_task t x (set_task t y w) = set_task t x w.
Proof. unfold set_task; cbn. by rewrite insert_insert_eq. Qed.

(** What a failed start holds. *)
Definition held (l : start_locals) (s : positive) : Prop := lo_process l = Some s \/ lo_spawn l = Some s.

(** The part of [_retire_startup_child] before its claim. *)
Lemma release_child_inv w t first l :
  Inv w -> w_tasks w !! t = Some (Start (SClaim first) l) ->
  let p := w_pub w in let sl := w_slot w in
  let w1 := if (bool_decide (lo_client l <> None) || bool_decide (lo_process l <> None))
               && bool_decide (p_client p = lo_client l) && bool_decide (p_process p = lo_process l)
            then set_pub (p_set_child None None (p_generation p + 1) p) w else w in
  let w2 := if bool_decide (sl_spawn_task sl = lo_spawn l) then set_slot (sl_set_spawn None false sl) w1 else w1 in
  Inv_but (held l) w2 /\ sl_spawn_task (w_slot w2) = None /\ w_tasks w2 = w_tasks w /\ w_ops w2 = w_ops w
  /\ sl_starting_generation (w_slot w2) = sl_starting_generation (w_slot w).
Proof.
  intros Hi Hx p sl w1 w2. pose proof (holder _ _ _ _ _ _ _ Hi Hx eq_refl) as Hlife.
  assert (Inv_but (held l) w1) as Hi1.
  { unfold w1. destruct (_ && _) eqn:Hd.
    - rewrite !andb_true_iff, !bool_decide_eq_true in Hd. destruct Hd as [[_ _] Hd].
      eapply weaken_inv; [by apply (detach_step none)|]. intros s _ [[]|H]. left. rewrite <- Hd. exact H.
    - eapply weaken_inv; [exact Hi|done]. }
  assert (w_tasks w1 = w_tasks w /\ w_slot w1 = sl /\ w_ops w1 = w_ops w /\ w_env w1 = w_env w) as (Ht1 & Hs1 & Ho1 & He1).
  { unfold w1. by destruct (_ && _). }
  assert (forall k m s, w_tasks w !! k = Some (Start (SSpawnWait s) m) -> False) as Hw.
  { intros k m s Hk. pose proof (holder _ _ _ _ _ _ _ Hi Hk eq_refl). congruence. }
  unfold w2. case_bool_decide as Hown.
  - split; [|done]. rewrite <- Hs1. eapply weaken_inv.
    + apply (take_spawn_inv _ _ _ _ _ Hi1). intros k m s Hk. rewrite Ht1 in Hk. by destruct (Hw k m s).
    + intros s _ [H|H]; [done|]. right. unfold view_of in H; cbn in H. rewrite Hs1 in H. congruence.
  - split; [done|]. rewrite Hs1. split; [|done]. destruct (sl_spawn_task sl) as [s|] eqn:Es; [|done].
    destruct (i_slot _ _ _ _ _ Hi s Es) as (_ & _ & k & m & H1 & H2 & [H3|H3]); [by destruct (Hw k m s)|].
    assert (k = t) as -> by congruence. rewrite Hx in H3. injection H3 as -> ->. congruence.
Qed.

Lemma task_fresh X w t x : Inv_but X w -> w_tasks w !! t = Some x -> (t < w_next w)%positive.
Proof.
  intros Hi Hx. destruct (decide (t < w_next w)%positive) as [|Hn]; [done|].
  destruct (i_fresh _ _ _ _ _ Hi t) as [H _]; [lia|congruence].
Qed.

Lemma start_claim_inv w t first l w' :
  Inv w -> w_tasks w !! t = Some (Start (SClaim first) l) -> start_claim first t l w = Some w' -> Inv w'.
Proof.
  intros Hi Hx. pose proof (i_tasks _ _ _ _ _ Hi t _ Hx) as (Hl & Hok & Hg & _).
  pose proof (release_child_inv w t first l Hi Hx) as Hrel. cbv zeta in Hrel. unfold start_claim.
  set (w1 := if _ && _ then _ else w) in *. set (w2 := if bool_decide _ then _ else w1) in *.
  destruct Hrel as (Hi2 & Hs2 & Ht2 & Ho2 & Hg2).
  assert (w_tasks w2 !! t = Some (Start (SClaim first) l)) as Hx2 by (by rewrite Ht2).
  pose proof (holder _ _ _ _ _ _ _ Hi2 Hx2 eq_refl) as Hlife.
  assert (Inv_but (held l) (set_task t (Start (SCleaned first) l) w2)) as Hi3.
  { eapply (move_inv _ _ _ _ _ _ _ _ _ _ Hi2 Hx2); try done; [set_solver|..].
    - split; [done|]. split; [done|]. split; [|done]. intros Ha. cbn. rewrite Hg2. by apply Hg; destruct first.
    - intros s Hs. unfold view_of in Hs; cbn in Hs. congruence.
    - intros s _ (k & m & H1 & H2 & H3). assert (k = t) as -> by congruence.
      rewrite Hx2 in H2. injection H2 as -> <-. by left; left.
    - intros Ha. pose proof (i_stop _ _ _ _ _ Hi2 t Ha) as H. unfold attempt_inv in H. by rewrite Hx2 in H. }
  destruct (_claim_retirement_locked _ _ _ _ _ w2) as [w4 o] eqn:Hcl.
  pose proof (claim_set_task (lo_client l) (lo_process l) true (lo_spawn l)
    (bool_decide (sl_spawn_task (w_slot w) = lo_spawn l) && sl_spawn_cancel_requested (w_slot w)) t
    (Start (SCleaned first) l) w2 (task_fresh _ _ _ _ Hi2 Hx2)) as Hcl3.
  rewrite Hcl in Hcl3. cbn [fst snd] in Hcl3.
  eapply (claim_inv _ none) in Hcl3 as (Hi4 & Hf & Ho); [|exact Hi3|apply Hok|apply Hok|].
  2: { intros s _ [H|H]; auto. }
  assert (w_tasks (set_task t (Start (SCleaned first) l) w4) !! t = Some (Start (SCleaned first) l)) as Hx4
    by apply lookup_insert_eq.
  destruct o as [r|].
  - destruct (Ho r eq_refl) as (x & Hr & Hruns). change (record r w4 = Some x) in Hr. rewrite Hr. cbn. intros [= <-].
    rewrite <- (set_task_twice _ _ (Start (SCleaned first) l)).
    pose proof (i_tasks _ _ _ _ _ Hi4 t _ Hx4) as (K1 & K2 & K3 & _).
    eapply (simple_move _ _ _ _ _ Hi4); try done; apply near_refl.
  - intros [= <-]. exact Hi4.
Qed.

Lemma retirement_result_runs T v C n X k r b w :
  inv X v T C n -> w_tasks w = T -> runs T r k -> retirement_result k w = Some b -> b = true -> settled_record v r.
Proof.
  intros Hi <- Hr. unfold retirement_result. destruct Hr as [(pc & ->)|(b' & Hk)]; [done|]. rewrite Hk.
  intros [= ->] ->. pose proof (i_tasks _ _ _ _ _ Hi k _ Hk) as H. by apply H.
Qed.

Lemma uncancelled_Some t w u : uncancelled t w = Some u -> t ∉ e_cancels (w_env w).
Proof. unfold uncancelled, cancelled. by case_bool_decide. Qed.

Ltac some_bind H :=
  let H1 := fresh "Hb" in
  apply bind_Some in H as (? & H1 & H); try apply uncancelled_Some in H1.

(** A task that moves in the world as it is. *)
Ltac move_tac := eapply simple_move; try done; try apply near_refl; try (cbn; done).

Lemma finalize_step w t l g :
  Inv w -> w_tasks w !! t = Some (Start SFinalize l) -> lo_generation l = Some g ->
  Inv (set_task t (Start SSettled l) (set_slot (_finalize_start g (w_slot w)) w)).
Proof.
  intros Hi Hx Hg. pose proof (i_tasks _ _ _ _ _ Hi t _ Hx) as (Hl & Hok & Hg2 & _).
  destruct (Hg2 eq_refl) as (g' & Hg' & Hgen). rewrite Hg in Hg'. injection Hg' as <-. cbn in Hgen.
  assert (Inv (set_task t (Start SSettled l) w)) as Hi1 by move_tac.
  unfold _finalize_start. rewrite bool_decide_eq_true_2 by done.
  exact (finalize_inv _ _ _ _ _ t (Start SSettled l) Hi1 (Hl eq_refl) (lookup_insert_eq _ _ _)
           (fun pc m H => ltac:(by injection H as <- <-))).
Qed.

(** An operation leaves the registration it no longer needs. *)
Lemma unregister_step w t x x' o :
  Inv w -> w_tasks w !! t = Some x -> continues x x' -> holds_spawn x = false -> (forall pc, x <> Stop pc) ->
  (forall pc l, x' <> Start pc l) -> task_inv (view_of w) (w_tasks w) (e_cancels (w_env w)) t x' ->
  op_active (w_ops w) ∖ {[t]} ⊆ op_active o -> op_lifecycle o = op_lifecycle (w_ops w) ->
  op_stopping o = op_stopping (w_ops w) -> op_stop_task o = op_stop_task (w_ops w) -> Inv (set_task t x' (set_ops o w)).
Proof.
  intros Hi Hx Hc Hs Hx1 Hx' Hk Ho1 Ho2 Ho3 Ho4.
  assert (Inv (set_task t x' w)) as Hi1.
  { eapply (simple_move w w); try done; try apply near_refl. by destruct x'; try done; destruct (Hx' pc l). }
  apply (active_step (set_task t x' w) o Hi1); try done.
  intros k pc l Hk' Ha. right. cbn in Hk', Ha. assert (k <> t); [|set_solver].
  intros ->. rewrite lookup_insert_eq in Hk'. injection Hk' as ->. by apply (Hx' pc l).
Qed.

Lemma run_start_inv w t pc l answer w' :
  Inv w -> w_tasks w !! t = Some (Start pc l) -> run_start t pc l answer w = Some w' -> Inv w'.
Proof.
  intros Hi Hx. pose proof (i_tasks _ _ _ _ _ Hi t _ Hx) as Hk. pose proof Hk as (Hl & Hok & Hg & Hkn).
  destruct pc; cbn in Hkn |- *; intros H.
  - destruct (_register_operation t w) as [w1 ok] eqn:Hr. injection H as <-.
    pose proof (register_inv w t Hi) as Hi1. rewrite Hr in Hi1.
    destruct (register_facts _ _ _ _ Hr) as [Ht Hok1]. assert (w_tasks w1 !! t = Some (Start SRegister l)) as Hx1 by congruence.
    destruct ok; move_tac. split; [done|]. split; [done|]. split; [done|]. split; [done|]. right. by apply Hok1.
  - destruct (op_lifecycle (w_ops w)) eqn:Hlife; [done|]. injection H as <-.
    pose proof (acquire_step _ t Hi Hlife) as Hi1. move_tac.
  - destruct Hkn as [-> _]. by eapply retire_terminal_inv.
  - some_bind H. some_bind H. injection H as <-. destruct Hkn as [Hkn Hr]. destruct x0.
    + move_tac. split; [done|]. split; [done|]. split; [done|]. split; [done|].
      by eapply retirement_result_runs.
    + eapply start_fail_inv; eauto using near_refl. right. naive_solver.
  - destruct Hkn as [Hkn Hr]. pose proof (remove_step w r Hi Hr) as Hi1. destruct (remove_view r w) as (_ & _ & _ & _ & Ht & _).
    destruct (_remove_retirement_if_complete_locked r w) as [w1 ok]. injection H as <-. cbn in *.
    assert (w_tasks w1 !! t = Some (Start (STerminalRelease r) l)) as Hx1 by congruence.
    pose proof (i_tasks _ _ _ _ _ Hi1 t _ Hx1) as (Hl1 & _ & _ & Hkn1 & _).
    destruct (negb ok || lo_failed l) eqn:Hf.
    + eapply start_fail_inv; eauto using near_refl. right. naive_solver.
    + move_tac. split; [done|]. split; [done|]. split; [done|].
      destruct Hkn1 as [?| ->]; [done|]. by rewrite orb_true_r in Hf.
  - destruct Hkn as [-> _]. injection H as <-. by apply start_admit_inv.
  - some_bind H. some_bind H. injection H as <-. destruct x0.
    + eapply spawn_fail_inv; eauto. apply near_cancel_spawn.
    + by apply start_publish_inv.
    + eapply spawn_fail_inv; eauto. apply near_refl.
  - some_bind H. injection H as <-. destruct (e_phases (w_env w) !! task) as [[[] ready]|].
    + destruct (next_phase k ready); [by eapply next_phase_inv|]. move_tac.
    + eapply start_fail_inv; eauto using near_refl.
    + eapply start_fail_inv; eauto. apply near_cancel_startup.
  - by eapply start_claim_inv.
  - some_bind H. injection H as <-. assert (x = true -> settled_record (view_of w) r) as Hs.
    { intros ->. by eapply retirement_result_runs. }
    destruct x; move_tac; cbn; destruct first; naive_solver.
  - injection H as <-. pose proof (remove_step w r Hi Hkn) as Hi1. destruct (remove_view r w) as (_ & _ & _ & _ & Ht & _).
    set (w1 := _.1) in *. assert (w_tasks w1 !! t = Some (Start (SRelease first r) l)) as Hx1 by congruence.
    pose proof (i_tasks _ _ _ _ _ Hi1 t _ Hx1) as (Hl1 & _ & Hg1 & _). move_tac.
  - some_bind H. injection H as <-. destruct first; [move_tac|]. eapply start_leave_inv; eauto using near_refl.
  - some_bind H. injection H as <-. by eapply finalize_step.
  - some_bind H. injection H as <-. unfold start_settled. destruct (_ && _); [move_tac|].
    eapply start_leave_inv; eauto using near_refl.
  - injection H as <-. by eapply unregister_step.
Qed.

Lemma interrupt_claim_inv w0 w t first l :
  Inv w0 -> near t w0 w -> w_tasks w0 !! t = Some (Start (SClaim first) l) ->
  Inv (set_task t (Start (SClaim first) (fail l)) w).
Proof.
  intros Hi [Hv Ht Hnx Hc] Hx. pose proof (i_tasks _ _ _ _ _ Hi t _ Hx) as (Hl & Hok & Hg & _).
  pose proof (Hl eq_refl) as Hlife. unfold Inv.
  change (view_of (set_task t ?x w)) with (view_of w). cbn. rewrite Hv, Ht.
  eapply (move_inv _ _ _ _ _ _ _ _ _ _ Hi Hx); try done.
  - intros j _ (k & m & H1 & H2 & H3). assert (k = t) as -> by congruence. exists t, (fail l).
    rewrite lookup_insert_eq. split; [done|]. destruct H3 as [H3|H3]; rewrite Hx in H3; [done|].
    injection H3 as -> <-. split; [done|by right].
  - intros j _ (k & m & H1 & H2 & H3). assert (k = t) as -> by congruence. right; right; right; right.
    exists t, (fail l). rewrite lookup_insert_eq. rewrite Hx in H2. injection H2 as -> <-. done.
  - intros Ha. pose proof (i_stop _ _ _ _ _ Hi t Ha) as H. unfold attempt_inv in H. by rewrite Hx in H.
Qed.

Lemma interrupt_start_inv w t pc l :
  Inv w -> w_tasks w !! t = Some (Start pc l) ->
  Inv (interrupt_start t pc l (set_cancels (e_cancels (w_env w) ∖ {[t]}) w)).
Proof.
  intros Hi Hx. pose proof (near_interrupt t w) as Hn. set (w1 := set_cancels _ w) in *.
  pose proof (i_tasks _ _ _ _ _ Hi t _ Hx) as (Hl & Hok & Hg & Hkn).
  destruct pc; cbn in Hkn |- *; try (by move_tac).
  - eapply start_fail_inv; eauto. right. naive_solver.
  - move_tac. destruct Hkn as [Hkn Hr]. split; [done|]. split; [by destruct Hkn as [[-> _]| ->]|]. split; [done|].
    split; [|done]. right. by destruct Hkn as [[-> _]| ->].
  - eapply start_fail_inv; eauto. right. naive_solver.
  - eapply start_fail_inv; eauto. right. naive_solver.
  - eapply spawn_fail_inv; eauto. eapply near_trans; [exact Hn|apply near_cancel_spawn].
  - eapply start_fail_inv; eauto. eapply near_trans; [exact Hn|apply near_cancel_startup].
  - by eapply interrupt_claim_inv.
Qed.

(** ** [health] and [prepare_config_transition] *)

Lemma near_config t c p w : near t w (set_config c p w).
Proof. split; [done|done|cbn; lia|cbn; set_solver]. Qed.

Lemma near_finish_transition t b w : near t w (_finish_transition t b w).
Proof.
  unfold _finish_transition. destruct (w_pending w); [|apply near_refl].
  case_bool_decide; [apply near_config | apply near_refl].
Qed.

Lemma request_ended_inv w0 w t c g next r pc ok :
  Inv w0 -> near t w0 w -> w_tasks w0 !! t = Some (Operation next pc) -> op_in_section pc = true ->
  Inv (request_ended t c g next r ok w).
Proof.
  intros Hi Hn Hx Hin. pose proof (i_tasks _ _ _ _ _ Hi t _ Hx Hin) as Hl. unfold request_ended.
  destruct next as [n|]; [destruct r|destruct ok]; first [by eapply op_leave_inv|by move_tac].
Qed.

Lemma run_operation_inv w t next pc answer w' :
  Inv w -> w_tasks w !! t = Some (Operation next pc) -> run_operation t next pc answer w = Some w' -> Inv w'.
Proof.
  intros Hi Hx. pose proof (i_tasks _ _ _ _ _ Hi t _ Hx) as Hk. cbn in Hk.
  destruct pc; cbn; intros H.
  - destruct (_register_operation t w) as [w1 ok] eqn:Hr. injection H as <-.
    pose proof (register_inv w t Hi) as Hi1. rewrite Hr in Hi1. destruct (register_facts _ _ _ _ Hr) as [Ht _].
    assert (w_tasks w1 !! t = Some (Operation next ORegister)) as Hx1 by congruence. destruct ok; move_tac.
  - destruct (op_lifecycle (w_ops w)) eqn:Hlife; [done|]. injection H as <-.
    pose proof (acquire_step _ t Hi Hlife) as Hi1. move_tac.
  - injection H as <-. destruct (p_client (w_pub w)); [|eapply op_leave_inv; eauto using near_refl].
    destruct (op_stopping (w_ops w)); [eapply op_leave_inv; eauto using near_refl|].
    destruct next; [case_bool_decide|]; by move_tac.
  - some_bind H. injection H as <-. destruct (is_current client g w); [|eapply op_leave_inv; eauto using near_refl].
    eapply simple_move; try done. apply near_config.
  - some_bind H. injection H as <-. eapply request_ended_inv; eauto using near_refl.
  - injection H as <-. eapply op_leave_inv; eauto using near_refl.
  - injection H as <-. eapply simple_move; try done. apply near_finish_transition.
  - some_bind H. injection H as <-. eapply op_leave_inv; eauto using near_refl.
  - injection H as <-. by eapply unregister_step.
  - some_bind H. injection H as <-. by move_tac.
Qed.

Lemma interrupt_operation_inv w t next pc :
  Inv w -> w_tasks w !! t = Some (Operation next pc) ->
  Inv (interrupt_operation t next pc (set_cancels (e_cancels (w_env w) ∖ {[t]}) w)).
Proof.
  intros Hi Hx. pose proof (near_interrupt t w) as Hn. set (w1 := set_cancels _ w) in *.
  pose proof (i_tasks _ _ _ _ _ Hi t _ Hx) as Hk. cbn in Hk.
  destruct pc; cbn; solve [by move_tac | by eapply op_leave_inv | by eapply request_ended_inv].
Qed.

(** ** [_retire_child] *)

Lemma core_start_wait x : core_of (rt_start_wait x) = core_of x.
Proof. unfold rt_start_wait, core_of. by destruct (rt_wait x) eqn:E; cbn; rewrite ?E. Qed.

Lemma core_start_shutdown x : core_of (rt_start_shutdown x) = core_of x.
Proof. unfold rt_start_shutdown, core_of. by destruct (rt_shutdown x). Qed.

Lemma core_start_close x : core_of (rt_start_close x) = core_of x.
Proof. unfold rt_start_close, core_of. by destruct (rt_close x). Qed.

Lemma record_set r x w : record r (set_record r x w) = Some x.
Proof. apply lookup_insert_eq. Qed.

Lemma record_core r w x : record r w = Some x -> v_records (view_of w) !! r = Some (core_of x).
Proof. unfold record; cbn. intros H. by rewrite lookup_fmap, H. Qed.

(** One run of [_retire_child], by the task [t] on the record [r]. *)
Section Retirement.
Context (w0 : world) (t r : positive) (pc : retire_pc).
Context (Hi : Inv w0) (Hx : w_tasks w0 !! t = Some (Retire r pc)).

(** What the locals say of the record. *)
Definition knows (x : retirement) (l : retire_locals) : Prop :=
  (rl_spawn_retired l = true -> rt_spawn_task x = None) /\ (rl_client_retired l = true -> rt_spawn_task x = None)
  /\ rl_process l = rt_process x /\ (rl_process_retired l = true -> exited_process (view_of w0) (core_of x)).

Lemma retire_task w x : near t w0 w -> record r w = Some x ->
  v_records (view_of w0) !! r = Some (core_of x) /\ rt_task x = t.
Proof.
  intros Hn Hr. apply record_core in Hr. rewrite (n_view _ _ _ Hn) in Hr. split; [done|].
  destruct (i_tasks _ _ _ _ _ Hi t _ Hx) as (y & Hy & Ht & _). assert (y = core_of x) as -> by congruence. done.
Qed.

Lemma retire_at w x pc' : near t w0 w -> record r w = Some x -> retire_known (view_of w0) (core_of x) pc' ->
  Inv (set_task t (Retire r pc') w).
Proof.
  intros Hn Hr Hk. destruct (retire_task w x Hn Hr) as [H1 H2].
  eapply simple_move; try done; [left; by eexists|]. by exists (core_of x).
Qed.

Lemma retire_over w x b : near t w0 w -> record r w = Some x -> (b = true -> reaped (view_of w0) (core_of x)) ->
  Inv (set_task t (RetireDone r b) w).
Proof.
  intros Hn Hr Hk. destruct (retire_task w x Hn Hr) as [H1 H2].
  eapply simple_move; try done; [right; by eexists|]. intros Hb. exists (core_of x). auto.
Qed.

Lemma set_near w x y : near t w0 w -> record r w = Some x -> core_of y = core_of x ->
  near t w0 (set_record r y w) /\ record r (set_record r y w) = Some y.
Proof. intros Hn Hr Hy. split; [|apply record_set]. eapply near_trans; [exact Hn|by eapply near_record]. Qed.

Lemma knows_core x y l : core_of y = core_of x -> knows x l -> knows y l.
Proof.
  unfold knows, exited_process. intros H. change (rt_spawn_task y) with (c_spawn (core_of y)).
  change (rt_process y) with (c_process (core_of y)). by rewrite H.
Qed.

Lemma waited_exited w x : near t w0 w -> record r w = Some x -> process_waited x w = true ->
  exited_process (view_of w0) (core_of x).
Proof.
  intros Hn Hr Hw p Hp. destruct (retire_task w x Hn Hr) as [H1 _]. cbn in Hp.
  destruct (i_records _ _ _ _ _ Hi r _ H1) as (_ & _ & _ & Hc). unfold process_waited in Hw. rewrite Hp in Hw.
  destruct (rt_wait x) as [| |[]] eqn:Ew; try done.
  - destruct Hc as (q & Hq & He); [cbn; by rewrite Ew|]. cbn in Hq. congruence.
  - cbn in Hw. rewrite bool_decide_eq_true in Hw. change (p ∈ v_returncodes (view_of w)) in Hw.
    rewrite (n_view _ _ _ Hn) in Hw. by apply (i_codes _ _ _ _ _ Hi).
Qed.

Lemma retire_end_inv w x l : near t w0 w -> record r w = Some x -> knows x l -> Inv (retire_end t r x l w).
Proof.
  intros Hn Hr (H1 & H2 & H3 & H4). unfold retire_end. destruct (_ || _) eqn:Hend.
  - eapply retire_over; eauto. intros Hb. split; [by apply H2|]. intros p Hp. cbn in Hp.
    rewrite orb_true_iff, bool_decide_eq_true in Hend. destruct Hend as [Hend|Hend]; [congruence|by apply H4].
  - destruct (rl_close_started l && rl_client_retired l) eqn:Hf.
    + rewrite andb_true_iff in Hf. destruct (set_near w x (rt_start_wait x) Hn Hr (core_start_wait x)) as [Hn' Hr'].
      eapply retire_at; eauto. rewrite core_start_wait. cbn. by destruct Hf.
    + by eapply retire_over.
Qed.

Lemma retire_closed_inv w x l : near t w0 w -> record r w = Some x -> knows x l -> Inv (retire_closed t r x l w).
Proof.
  intros Hn Hr (H1 & H2 & H3 & H4). unfold retire_closed. cbv zeta. destruct (_ && _) eqn:Hok.
  - eapply retire_at; eauto. rewrite !andb_true_iff in Hok. destruct Hok as [[[[Hok _] _] _] _]. cbn. auto.
  - apply retire_end_inv; try done.
Qed.

Lemma retire_close_inv w x l : near t w0 w -> record r w = Some x -> knows x l -> Inv (retire_close t r x l w).
Proof.
  intros Hn Hr Hk. pose proof Hk as (H1 & H2 & H3 & H4). unfold retire_close.
  destruct (rl_client l); [|by apply retire_end_inv]. destruct (rt_close x).
  - destruct (set_near w x (rt_start_close x) Hn Hr (core_start_close x)) as [Hn' Hr'].
    eapply retire_at; eauto. by rewrite core_start_close.
  - by eapply retire_at.
  - by apply retire_closed_inv.
Qed.

Lemma retire_kill_inv w x l : near t w0 w -> record r w = Some x -> knows x l -> Inv (retire_kill t r x l w).
Proof.
  intros Hn Hr Hk. unfold retire_kill. destruct (_ || _); [by apply retire_close_inv|].
  set (y := rt_start_wait _). assert (core_of y = core_of x) as Hy by (unfold y; by rewrite core_start_wait).
  destruct (set_near w x y Hn Hr Hy) as [Hn' Hr']. eapply retire_at; eauto. rewrite Hy. by destruct Hk as (? & ? & ? & ?).
Qed.

Lemma retire_terminate_inv w x l : near t w0 w -> record r w = Some x -> knows x l -> Inv (retire_terminate t r x l w).
Proof.
  intros Hn Hr Hk. unfold retire_terminate. destruct (rl_process_retired l); [by apply retire_close_inv|].
  destruct (_ || _); [by apply retire_kill_inv|].
  set (y := rt_start_wait _). assert (core_of y = core_of x) as Hy by (unfold y; by rewrite core_start_wait).
  destruct (set_near w x y Hn Hr Hy) as [Hn' Hr']. eapply retire_at; eauto. rewrite Hy. by destruct Hk as (? & ? & ? & ?).
Qed.

Lemma retire_process_inv w x l : near t w0 w -> record r w = Some x ->
  (rl_spawn_retired l = true -> rt_spawn_task x = None) -> (rl_client_retired l = true -> rt_spawn_task x = None) ->
  Inv (retire_process t r x l w).
Proof.
  intros Hn Hr H1 H2. unfold retire_process. set (l1 := MkRetireLocals _ _ _ _ _ _ _ _).
  assert (knows x l1) as Hk.
  { split; [done|]. split; [done|]. split; [done|]. cbn. rewrite bool_decide_eq_true. intros Hp p Hp'. cbn in Hp'. congruence. }
  destruct (rt_process x); [|by apply retire_close_inv].
  destruct (set_near w x (rt_start_wait x) Hn Hr (core_start_wait x)) as [Hn' Hr'].
  eapply retire_at; eauto. rewrite core_start_wait. by destruct Hk as (? & ? & ? & ?).
Qed.

Lemma retire_shutdown_inv w x a b : near t w0 w -> record r w = Some x ->
  (a = true -> rt_spawn_task x = None) -> Inv (retire_shutdown t r x a b w).
Proof.
  intros Hn Hr Ha. unfold retire_shutdown. set (l := MkRetireLocals _ _ _ _ _ _ _ _).
  assert (rl_client_retired l = true -> rt_spawn_task x = None) as Hb by (cbn; rewrite andb_true_iff; tauto).
  destruct (rt_client x) as [c|]; [|by apply retire_process_inv]. destruct (rt_shutdown x) eqn:Es; [..|by apply retire_process_inv].
  all: destruct (set_near w x (rt_start_shutdown x) Hn Hr (core_start_shutdown x)) as [Hn' Hr'].
  all: eapply retire_at; eauto; rewrite core_start_shutdown; done.
Qed.

Lemma foldr_near w l : near t w0 w -> near t w0 (foldr (_cancel_retired_startup_task_once r) w l).
Proof.
  intros Hn. induction l as [|f l IH]; [done|]. eapply near_trans; [exact IH|apply near_cancel_retired_startup].
Qed.

Lemma foldr_record w l x : record r w = Some x ->
  exists y, record r (foldr (_cancel_retired_startup_task_once r) w l) = Some y /\ core_of y = core_of x.
Proof.
  intros Hr. induction l as [|f l (y & Hy & Hc)]; [by exists x|]. cbn.
  unfold _cancel_retired_startup_task_once at 1. rewrite Hy. destruct (_ || _); [by exists y|].
  eexists. split; [apply record_set|done].
Qed.

Lemma retire_startup_inv w x a w' : near t w0 w -> record r w = Some x -> (a = true -> rt_spawn_task x = None) ->
  retire_startup t r a w = Some w' -> Inv w'.
Proof.
  intros Hn Hr Ha. unfold retire_startup. rewrite Hr. cbn. case_bool_decide.
  - intros [= <-]. by apply retire_shutdown_inv.
  - intros [= <-]. destruct (foldr_record w (elements (rt_startup_tasks x)) x Hr) as (y & Hy & Hc).
    eapply retire_at; [by apply foldr_near|exact Hy|]. rewrite Hc. done.
Qed.
End Retirement.

Lemma cancel_spawn_record r s w x : record r w = Some x ->
  exists y, record r (_cancel_retired_spawn_once r s w) = Some y /\ core_of y = core_of x.
Proof.
  intros Hr. unfold _cancel_retired_spawn_once. rewrite Hr. destruct (_ || _); [by exists x|].
  eexists. split; [apply record_set|done].
Qed.

Lemma update_step w r x y :
  Inv w -> record r w = Some x -> rt_task y = rt_task x -> record_ok (view_of w) (core_of y) ->
  (rt_spawn_task y = rt_spawn_task x /\ rt_process y = rt_process x
   \/ w_tasks w !! rt_task x = Some (Retire r RBegin)) ->
  (reaped (view_of w) (core_of x) -> reaped (view_of w) (core_of y)) ->
  (forall s, live (view_of w) s -> rt_process x = Some s \/ rt_spawn_task x = Some s ->
    rt_process y = Some s \/ rt_spawn_task y = Some s) ->
  Inv (set_record r y w).
Proof.
  intros Hi Hr Ht Hok Hk Hre Hl.
  pose proof (update_inv _ _ _ _ _ r (core_of x) (core_of y) Hi (record_core _ _ _ Hr) Ht Hok Hk Hre Hl) as H.
  unfold Inv, view_of in *; cbn in *. by rewrite fmap_insert.
Qed.

(** The section of [_retire_spawn_task] gives the record the process. *)
Lemma adopt_spawn_inv w r s b pipes x :
  Inv w -> record r w = Some x -> w_tasks w !! rt_task x = Some (Retire r RBegin) -> rt_spawn_task x = Some s ->
  e_spawns (w_env w) !! s = Some (if b : bool then Spawned else SpawnFailed) ->
  Inv (set_record r (adopt_spawn s b pipes x).1 w) /\ rt_spawn_task (adopt_spawn s b pipes x).1 = None
  /\ rt_task (adopt_spawn s b pipes x).1 = rt_task x.
Proof.
  intros Hi Hr Ht Hs Hsp. destruct (i_records _ _ _ _ _ Hi r _ (record_core _ _ _ Hr)) as (_ & H1 & H2 & H3).
  cbn in H1, H2. pose proof (H2 s Hs) as Hp.
  unfold adopt_spawn. rewrite bool_decide_eq_true_2, Hp by done. rewrite (bool_decide_eq_true_2 (None = None)) by done.
  assert (rt_client x = None) as Hc.
  { destruct (rt_client x) as [c|]; [|done]. specialize (H1 c eq_refl). congruence. }
  assert (settled (rt_wait x) && succeeded (rt_wait x) = false) as Hw.
  { apply not_true_is_false. intros Hw. destruct (H3 Hw) as (p & Hq & _). cbn in Hq. congruence. }
  destruct b; [destruct pipes|]; cbn; (split; [|done]); (eapply update_step; [done|done|done|..]); cbn; auto.
  all: try (intros [Hre _]; cbn in Hre; congruence).
  all: try (split; cbn; [congruence|]; split; cbn; [congruence|]; congruence).
  all: intros j Hj [?|?]; [congruence|]; assert (j = s) as -> by congruence; auto.
  destruct Hj as [Hj|[Hj _]]; cbn in Hj; congruence.
Qed.

Lemma run_retire_inv w t r pc answer w' :
  Inv w -> w_tasks w !! t = Some (Retire r pc) -> run_retire t r pc answer w = Some w' -> Inv w'.
Proof.
  intros Hi Hx H. unfold run_retire in H. apply bind_Some in H as (x & Hr & H).
  pose proof (near_refl t w) as Hn. destruct (retire_task w t r pc Hi Hx w x Hn Hr) as [Hv Htask].
  destruct (i_tasks _ _ _ _ _ Hi t _ Hx) as (y & Hy & _ & Hk). assert (y = core_of x) as -> by congruence.
  destruct pc; cbn in Hk.
  - destruct (rt_spawn_task x) as [s|] eqn:Hs; [|by eapply retire_startup_inv].
    injection H as <-. destruct (cancel_spawn_record r s w x Hr) as (y & Hy' & Hc).
    eapply retire_at; [done|done|apply near_cancel_retired_spawn|exact Hy'|]. by rewrite Hc.
  - destruct (e_spawns (w_env w) !! s) as [[]|] eqn:Hs;
      try exact (retire_startup_inv w t r _ Hi Hx w x false w' Hn Hr ltac:(done) H).
    all: injection H as <-; by eapply (retire_at w).
  - destruct (adopt_spawn s succeeded answer x) as [x1 a] eqn:Ha. destruct Hk as [Hk1 Hk2].
    assert (Inv (set_task t (Retire r RBegin) w)) as Hi1 by (by eapply retire_at).
    destruct (adopt_spawn_inv (set_task t (Retire r RBegin) w) r s succeeded answer x Hi1 Hr) as (Hi2 & E1 & E2);
      [rewrite Htask; apply lookup_insert_eq|done|done|]. rewrite Ha in Hi2, E1. cbn [fst] in Hi2, E1.
    eapply (retire_startup_inv (set_record r x1 (set_task t (Retire r RBegin) w)) t r RBegin Hi2 (lookup_insert_eq _ _ _));
      [|apply record_set|done|exact H].
    split; [done| |cbn; lia|cbn; set_solver]. intros z. cbn. by rewrite insert_insert_eq.
  - injection H as <-. destruct (set_near w t r w x (_finish_retired_startup_task (dom (e_phases (w_env w))) x) Hn Hr eq_refl)
      as [Hn' Hr']. by eapply retire_shutdown_inv.
  - injection H as <-. destruct Hk as [H1 H2]. by eapply retire_process_inv.
  - injection H as <-. destruct Hk as (H1 & H2 & H3 & H4 & _). eapply retire_terminate_inv; try done.
    split; [done|]. split; [done|]. split; [done|]. cbn. by eapply waited_exited.
  - injection H as <-. destruct Hk as (H1 & H2 & H3 & H4 & _). eapply retire_kill_inv; try done.
    split; [done|]. split; [done|]. split; [done|]. cbn. by eapply waited_exited.
  - injection H as <-. destruct Hk as (H1 & H2 & H3 & H4 & _). eapply retire_close_inv; try done.
    split; [done|]. split; [done|]. split; [done|]. cbn. by eapply waited_exited.
  - injection H as <-. destruct Hk as (H1 & H2 & H3 & H4 & _). by eapply retire_closed_inv.
  - injection H as <-. destruct Hk as (H1 & H2 & H3 & H4 & _). case_bool_decide.
    + by eapply retire_end_inv.
    + assert (Inv (set_record r (rt_set_client None x) w)) as Hi1.
      { eapply update_step; try done; try by left.
        destruct (i_records _ _ _ _ _ Hi r _ (record_core _ _ _ Hr)) as (_ & _ & ? & ?). done. }
      eapply (retire_end_inv (set_record r (rt_set_client None x) w) t r); [done|done|apply near_refl|apply record_set|done].
  - injection H as <-. destruct Hk as (H1 & H2 & H3 & H4 & H5). eapply retire_over; try done.
    intros Hw. split; [by apply H2|]. by eapply waited_exited.
Qed.

(** ** Late spawns and callbacks *)

Lemma create_step w x :
  Inv w -> waits_spawn x = false -> task_inv (view_of w) (<[w_next w := x]> (w_tasks w)) (e_cancels (w_env w)) (w_next w) x ->
  Inv (create_task x w).
Proof. intros Hi Hw Hx. exact (create_inv _ _ _ _ _ (w_next w) x Hi ltac:(lia) Hw Hx). Qed.

Lemma retry_step w r x :
  Inv w -> record r w = Some x -> (exists b, w_tasks w !! rt_task x = Some (RetireDone r b)) ->
  Inv (retry_retirement r x w).
Proof.
  intros Hi Hr Hd. apply (launch_step none none w r x (re_list (w_ret w)) Hi); try done; [by rewrite Hr|auto].
Qed.

Lemma record_runs w r x : Inv w -> record r w = Some x -> runs (w_tasks w) r (rt_task x).
Proof. intros Hi Hr. by apply (i_records _ _ _ _ _ Hi r _ (record_core _ _ _ Hr)). Qed.

Lemma runs_done w r x : Inv w -> record r w = Some x -> retirement_done x w = true ->
  exists b, w_tasks w !! rt_task x = Some (RetireDone r b).
Proof.
  intros Hi Hr Hd. unfold retirement_done, retirement_result in Hd.
  destruct (record_runs w r x Hi Hr) as [[pc H]|H]; [|done]. rewrite H in Hd. by case_bool_decide as He; [destruct He|].
Qed.

Lemma late_spawn_inv w t r s : Inv w -> w_tasks w !! t = Some (LateSpawn r s) -> Inv (late_spawn t r s w).
Proof.
  intros Hi Hx. unfold late_spawn. destruct (record r w) as [x|] eqn:Hr; [|by move_tac].
  destruct (_ && _); [|by move_tac]. destruct (retirement_done x w) eqn:Hd.
  - pose proof (retry_step w r x Hi Hr (runs_done w r x Hi Hr Hd)) as Hi1.
    assert (w_tasks (retry_retirement r x w) !! t = Some (LateSpawn r s)) as Hx1.
    { cbn. rewrite lookup_insert_ne; [done|]. pose proof (task_fresh _ _ _ _ Hi Hx). lia. }
    move_tac. left. exists RBegin. cbn. apply lookup_insert_eq.
  - move_tac. by apply record_runs.
Qed.

Lemma spawn_callback_inv w t s : Inv w -> w_tasks w !! t = Some (SpawnCallback s) ->
  Inv (set_task t (Finished true) (_on_spawn_task_done s w)).
Proof.
  intros Hi Hx. unfold _on_spawn_task_done. case_bool_decide; [by move_tac|].
  destruct (List.find _ _) as [r|]; [|by move_tac].
  assert (Inv (create_task (LateSpawn r s) w)) as Hi1 by (by apply create_step).
  assert (w_tasks (create_task (LateSpawn r s) w) !! t = Some (SpawnCallback s)) as Hx1.
  { cbn. rewrite lookup_insert_ne; [done|]. pose proof (task_fresh _ _ _ _ Hi Hx). lia. }
  by move_tac.
Qed.

Lemma startup_callback_near t f w :
  near t w (set_ret (MkRetired (re_list (w_ret w)) (_finish_retired_startup_task {[f]} <$> re_records (w_ret w)))
              (_finish_startup_task f w)).
Proof.
  split; [|done|cbn; lia|cbn; set_solver]. unfold view_of; cbn. f_equal.
  rewrite <- map_fmap_compose. by apply map_fmap_ext.
Qed.

(** ** [stop] *)

Lemma clear_same sl : sl_starting_generation (_clear_settled_start_uncertainty_locked sl) = sl_starting_generation sl
  /\ sl_spawn_task (_clear_settled_start_uncertainty_locked sl) = sl_spawn_task sl
  /\ sl_spawn_cancel_requested (_clear_settled_start_uncertainty_locked sl) = sl_spawn_cancel_requested sl.
Proof. unfold _clear_settled_start_uncertainty_locked. by repeat case_match. Qed.

Lemma claim_set_cancels client process take spawn requested C w :
  _claim_retirement_locked client process take spawn requested (set_cancels C w)
  = (set_cancels C (_claim_retirement_locked client process take spawn requested w).1,
     (_claim_retirement_locked client process take spawn requested w).2).
Proof.
  unfold _claim_retirement_locked.
  change (w_slot (set_cancels C w)) with (w_slot w). set (startup := take && _). clearbody startup.
  change (w_ret (set_cancels C w)) with (w_ret w).
  change (owns client process spawn (set_cancels C w)) with (owns client process spawn w).
  destruct (_ && _); [done|]. destruct (List.find _ _) as [r|]; [|by destruct startup].
  change (record r (set_cancels C w)) with (record r w). by destruct (record r w), startup.
Qed.

(** The world of the first section of a stop attempt before its claim. *)
Definition stopped (t : positive) (caller : option positive) (w : world) : world :=
  let o := w_ops w in
  let moved := transferred t caller w in
  let w1 := set_ops (op_set_stop true (op_stop_task o)
                       (op_set_sets (op_active o ∖ moved) (op_retiring o ∪ moved) (op_cancel_requested o ∪ moved) o)) w in
  let w2 := match w_pending w with Some q => set_config (Some (pt_next q)) None w1 | None => w1 end in
  let w3 := set_pub (p_set_child None None (p_generation (w_pub w) + 1) (w_pub w)) w2 in
  let sl := _clear_settled_start_uncertainty_locked (w_slot w) in
  let spawn := match sl_starting_generation sl with Some _ => sl_spawn_task sl | None => None end in
  set_slot (match spawn with Some _ => sl_set_spawn None false sl | None => sl end) w3.

(** What it detaches. *)
Definition detached (w : world) (s : positive) : Prop :=
  p_process (w_pub w) = Some s \/ (sl_starting_generation (w_slot w) <> None /\ sl_spawn_task (w_slot w) = Some s).

Lemma waiting_transferred w t caller k l s :
  Inv w -> w_tasks w !! t = Some (Stop (ABegin caller)) -> w_tasks w !! k = Some (Start (SSpawnWait s) l) ->
  k ∈ e_cancels (w_env w) \/ k ∈ transferred t caller w.
Proof.
  intros Hi Hx Hk. destruct (i_tasks _ _ _ _ _ Hi k _ Hk) as (_ & _ & _ & _ & [H|[H _]]); [by left|right].
  assert (k ∉ e_done (w_env w)) as Hd by (by eapply not_done).
  assert (k <> t) as Hne by congruence.
  assert (match caller with Some c => k <> c | None => True end) as Hc.
  { destruct caller as [c|]; [|done]. pose proof (i_tasks _ _ _ _ _ Hi t _ Hx) as Ht.
    pose proof (i_stop _ _ _ _ _ Hi t Ht) as Ha. unfold attempt_inv in Ha. rewrite Hx in Ha. destruct Ha as [b Hb]. congruence. }
  unfold transferred. destruct caller; set_solver.
Qed.

Lemma stopped_inv w t caller C :
  Inv w -> w_tasks w !! t = Some (Stop (ABegin caller)) -> C = e_cancels (w_env w) ∪ transferred t caller w ->
  Inv_but (detached w) (set_cancels C (stopped t caller w)).
Proof.
  intros Hi Hx HC. set (moved := transferred t caller w) in *. set (o := w_ops w).
  assert (Inv (set_cancels C w)) as Hi0 by (eapply grow_inv; [exact Hi|set_solver|done]).
  set (o1 := op_set_sets (op_active o ∖ moved) (op_retiring o ∪ moved) (op_cancel_requested o ∪ moved) o).
  assert (Inv (set_ops o1 (set_cancels C w))) as Hi1.
  { apply active_step; try done. intros k pc l Hk Ha. change (k ∈ op_active o) in Ha.
    destruct (decide (k ∈ moved)) as [H|H]; [left|right].
    - change (k ∈ C). subst C. by apply elem_of_union_r.
    - change (k ∈ op_active o ∖ moved). by apply elem_of_difference. }
  apply (stopping_inv _ _ _ _ _ true) in Hi1; [|done].
  apply detach_inv in Hi1. cbn in Hi1.
  assert (forall k l s, w_tasks w !! k = Some (Start (SSpawnWait s) l) -> k ∈ C) as Hw.
  { intros k l s Hk. destruct (waiting_transferred w t caller k l s Hi Hx Hk); set_solver. }
  destruct (clear_same (w_slot w)) as (E1 & E2 & _).
  assert (Inv_but (detached w) (set_cancels C (stopped t caller w)) <->
    inv (detached w)
      (v_set_child None None (v_set_ops (op_active o ∖ moved) (op_lifecycle o) true (op_stop_task o)
         (v_set_slot (sl_starting_generation (w_slot w))
            (match sl_starting_generation (w_slot w) with Some _ => None | None => sl_spawn_task (w_slot w) end)
            (view_of w)))) (w_tasks w) C (w_next w)) as ->.
  { unfold Inv_but, stopped, view_of. rewrite E1, E2. destruct (w_pending w), (sl_starting_generation (w_slot w)) eqn:Hg;
      cbn; try destruct (sl_spawn_task (w_slot w)) eqn:Hs; cbn; by rewrite ?E1, ?E2, ?Hg, ?Hs. }
  destruct (sl_starting_generation (w_slot w)) as [g|] eqn:Hg.
  - apply take_spawn_inv in Hi1; [|done]. cbn in Hi1. rewrite Hg in Hi1. eapply weaken_inv; [exact Hi1|].
    intros j _ [[[]|H]|H]; [by left|right]. split; [congruence|exact H].
  - eapply weaken_inv; [rewrite <- Hg; exact Hi1|]. intros j _ [[]|H]. by left.
Qed.

Lemma stopped_spawn w t caller :
  sl_starting_generation (w_slot (stopped t caller w)) = sl_starting_generation (w_slot w)
  /\ (sl_starting_generation (w_slot w) <> None -> sl_spawn_task (w_slot (stopped t caller w)) = None).
Proof.
  unfold stopped. destruct (clear_same (w_slot w)) as (-> & -> & _).
  destruct (w_pending w), (sl_starting_generation (w_slot w)) eqn:Hg; cbn;
    try destruct (sl_spawn_task (w_slot w)) eqn:Hs; cbn;
    destruct (clear_same (w_slot w)) as (E1 & E2 & _); rewrite ?E1, ?E2, ?Hg, ?Hs; done.
Qed.

Lemma stop_begin_eq t caller w :
  let sl := _clear_settled_start_uncertainty_locked (w_slot w) in
  let g := sl_starting_generation sl in
  let w5 := (_claim_retirement_locked (p_client (w_pub w)) (p_process (w_pub w)) (bool_decide (g <> None))
               (match g with Some _ => sl_spawn_task sl | None => None end) (sl_spawn_cancel_requested sl)
               (stopped t caller w)).1 in
  stop_begin t caller w = set_task t (Stop match g with Some g => AStartWait false g | None => AReap end)
                            (set_cancels (e_cancels (w_env w5) ∪ transferred t caller w) w5).
Proof. reflexivity. Qed.

(** Past its first section a stop attempt finds no start that waits for a
    spawn and is not told to stop. *)
Lemma waiting_cancelled w k l s :
  Inv w -> w_tasks w !! k = Some (Start (SSpawnWait s) l) ->
  (sl_starting_generation (w_slot w) <> None -> sl_spawn_task (w_slot w) = None) -> k ∈ e_cancels (w_env w).
Proof.
  intros Hi Hk Hg. destruct (i_tasks _ _ _ _ _ Hi k _ Hk) as (_ & _ & Ha & _ & [H|[_ H]]); [done|].
  destruct (Ha eq_refl) as (g & _ & Hg'). cbn in H, Hg'. rewrite Hg in H; congruence.
Qed.

Lemma claim_env client process take spawn requested w :
  w_env (_claim_retirement_locked client process take spawn requested w).1 = w_env w.
Proof.
  unfold _claim_retirement_locked. set (startup := take && _). clearbody startup.
  destruct (_ && _); [done|]. destruct (List.find _ _) as [r|]; [destruct (record r w)|]; by destruct startup.
Qed.

Lemma stopped_facts w t caller :
  w_tasks (stopped t caller w) = w_tasks w /\ w_env (stopped t caller w) = w_env w
  /\ w_pub (stopped t caller w) = p_set_child None None (p_generation (w_pub w) + 1) (w_pub w)
  /\ op_stopping (w_ops (stopped t caller w)) = true.
Proof. unfold stopped. by destruct (w_pending w). Qed.

(** What a stop attempt knows after its first section. *)
Lemma begun_inv w t c g :
  Inv w -> w_tasks w !! t = Some (Stop c) -> op_stopping (w_ops w) = true -> p_process (w_pub w) = None ->
  p_client (w_pub w) = None -> sl_starting_generation (w_slot w) = g ->
  (sl_starting_generation (w_slot w) <> None -> sl_spawn_task (w_slot w) = None) ->
  let pc := match g with Some g => AStartWait false g | None => AReap end in
  stop_inv (view_of w) (<[t := Stop pc]> (w_tasks w)) (e_cancels (w_env w)) pc.
Proof.
  intros Hi Hx Hs Hp Hc Hg Hsp pc.
  assert (v_stopping (view_of w) = true /\ v_process (view_of w) = None /\ v_client (view_of w) = None
    /\ (forall k l s, <[t := Stop pc]> (w_tasks w) !! k = Some (Start (SSpawnWait s) l) -> k ∈ e_cancels (w_env w))
    /\ stop_known (view_of w) (<[t := Stop pc]> (w_tasks w)) pc) as H; [|by unfold pc in *; destruct g].
  split; [done|]. split; [done|]. split; [done|]. split.
  - intros k l s. rewrite lookup_insert_Some. intros [[_ H]|[_ H]]; [done|]. by eapply waiting_cancelled.
  - unfold pc. destruct g; cbn; [by right|done].
Qed.

Lemma stop_begin_inv w t caller :
  Inv w -> w_tasks w !! t = Some (Stop (ABegin caller)) -> Inv (stop_begin t caller w).
Proof.
  intros Hi Hx. pose proof (stopped_inv w t caller _ Hi Hx eq_refl) as Hi1.
  rewrite stop_begin_eq. cbv zeta. destruct (clear_same (w_slot w)) as (E1 & E2 & E3). rewrite E1, E2, E3.
  destruct (stopped_spawn w t caller) as [G1 G2]. destruct (stopped_facts w t caller) as (Ht4 & Hc4 & Hp4 & Ho4).
  set (w4 := stopped t caller w) in *. clearbody w4. set (moved := transferred t caller w) in *.
  set (g := sl_starting_generation (w_slot w)) in *. set (spawn := match g with Some _ => _ | None => None end).
  set (w5 := (_claim_retirement_locked _ _ _ _ _ w4).1).
  pose proof (claim_set_cancels (p_client (w_pub w)) (p_process (w_pub w)) (bool_decide (g <> None)) spawn
    (sl_spawn_cancel_requested (w_slot w)) (e_cancels (w_env w) ∪ moved) w4) as Hcl. fold w5 in Hcl.
  assert (w_env w5 = w_env w) as -> by (rewrite <- Hc4; apply claim_env).
  eapply (claim_inv _ none) in Hcl as (Hi5 & Hf & _); [|exact Hi1|exact (i_pub _ _ _ _ _ Hi)|..].
  2: { intros s. unfold spawn. destruct g; [|done]. intros Hs. destruct (i_slot _ _ _ _ _ Hi s Hs) as (H1 & H2 & _). by split. }
  2: { intros s _ [H|[H1 H2]]; [by right; left|]. right; right. unfold spawn. fold g in H1.
       destruct g; [exact H2|by destruct H1]. }
  set (w6 := set_cancels _ w5) in *. destruct Hf as [F1 F2 F3 F4 F5 _ F7].
  change (w_pub w6 = w_pub w4) in F1. change (w_ops w6 = w_ops w4) in F2. change (w_slot w6) with (w_slot w5) in *.
  change (sl_starting_generation (w_slot w5) = sl_starting_generation (w_slot w4)) in F4.
  change (sl_spawn_task (w_slot w5) = sl_spawn_task (w_slot w4)) in F5.
  assert (w_tasks w6 !! t = Some (Stop (ABegin caller))) as Hx6.
  { apply (F7 t). change (w_tasks w4 !! t = Some (Stop (ABegin caller))). by rewrite Ht4. }
  change (sl_starting_generation (w_slot w6) = sl_starting_generation (w_slot w4)) in F4.
  change (sl_spawn_task (w_slot w6) = sl_spawn_task (w_slot w4)) in F5. clearbody w6.
  eapply (near_move w6 w6); try done; [apply near_refl|..]; try exact Hi5.
  { by apply (i_tasks _ _ _ _ _ Hi5 t _ Hx6). }
  intros _ _. unfold attempt_inv. rewrite lookup_insert_eq.
  eapply begun_inv; [exact Hi5|exact Hx6|by rewrite F2|by rewrite F1, Hp4|by rewrite F1, Hp4|by rewrite F4, G1|].
  rewrite F4, F5, G1. exact G2.
Qed.

Definition begun (pc : stop_pc) : bool := match pc with ABegin _ => false | _ => true end.

Lemma stop_inv_begun v T C pc : begun pc = true ->
  stop_inv v T C pc <-> (v_stopping v = true /\ v_process v = None /\ v_client v = None
    /\ (forall t l s, T !! t = Some (Start (SSpawnWait s) l) -> t ∈ C) /\ stop_known v T pc).
Proof. by destruct pc. Qed.

Lemma stop_facts w t pc : Inv w -> w_tasks w !! t = Some (Stop pc) -> begun pc = true ->
  v_stop (view_of w) = Some t /\ v_process (view_of w) = None
  /\ stop_known (view_of w) (w_tasks w) pc
  /\ (forall T pc', begun pc' = true -> stop_known (view_of w) T pc' ->
      (forall k l s, T !! k = Some (Start (SSpawnWait s) l) -> w_tasks w !! k = Some (Start (SSpawnWait s) l)) ->
      stop_inv (view_of w) T (e_cancels (w_env w)) pc').
Proof.
  intros Hi Hx Hb. pose proof (i_tasks _ _ _ _ _ Hi t _ Hx) as Hs. pose proof (i_stop _ _ _ _ _ Hi t Hs) as Ha.
  unfold attempt_inv in Ha. rewrite Hx in Ha. apply stop_inv_begun in Ha as (H1 & H2 & H3 & H4 & H5); [|done].
  split; [done|]. split; [done|]. split; [done|]. intros T pc' Hb' Hk HT. apply stop_inv_begun; [done|].
  split; [done|]. split; [done|]. split; [done|]. split; [|done]. intros k l s Hk'. eapply H4. by apply HT.
Qed.

(** A stop attempt goes on. *)
Lemma stop_move w0 w t pc pc' :
  Inv w0 -> near t w0 w -> e_cancels (w_env w0) ⊆ e_cancels (w_env w) -> w_tasks w0 !! t = Some (Stop pc) ->
  begun pc = true -> begun pc' = true ->
  stop_known (view_of w0) (<[t := Stop pc']> (w_tasks w0)) pc' -> Inv (set_task t (Stop pc') w).
Proof.
  intros Hi Hn HC Hx Hb Hb' Hk. destruct (stop_facts w0 t pc Hi Hx Hb) as (Hs & _ & _ & Hinv).
  eapply near_move; try done. intros _ _. unfold attempt_inv. rewrite lookup_insert_eq.
  pose proof (Hinv (<[t := Stop pc']> (w_tasks w0)) pc' Hb' Hk) as H.
  apply stop_inv_begun in H as (H1 & H2 & H3 & H4 & H5); [|done|].
  2: { intros k l s. rewrite lookup_insert_Some. by intros [[_ ?]|[_ ?]]. }
  apply stop_inv_begun; [done|]. split; [done|]. split; [done|]. split; [done|]. split; [|done].
  intros k l s Hk'. apply HC. by eapply H4.
Qed.

Lemma no_start v T C n : inv none v T C n -> v_generation v = None ->
  v_spawn v = None /\ forall s, ~ handing v T s.
Proof.
  intros Hi Hg.
  assert (forall k pc l, T !! k = Some (Start pc l) -> admitted pc = true -> False) as Hadm.
  { intros k pc l Hk Ha. destruct (i_tasks _ _ _ _ _ Hi k _ Hk) as (_ & _ & H & _).
    destruct (H Ha) as (g & _ & Hg'). congruence. }
  split.
  - destruct (v_spawn v) as [s|] eqn:Hs; [|done]. destruct (i_slot _ _ _ _ _ Hi s Hs) as (_ & _ & k & l & _ & _ & [H|H]);
      by destruct (Hadm _ _ _ H).
  - intros s (k & l & _ & H & _). by apply (Hadm _ _ _ H).
Qed.

(** Nothing is retired, published or being started: no child is left. *)
Lemma stop_complete w : Inv w -> v_generation (view_of w) = None -> v_process (view_of w) = None ->
  re_list (w_ret w) = [] -> no_live (view_of w).
Proof.
  intros Hi Hg Hp Hl. destruct (no_start _ _ _ _ Hi Hg) as [Hs Hh]. by eapply nothing_live.
Qed.

Lemma reap_retry_inv w r : Inv w -> Inv (reap_retry r w).
Proof.
  intros Hi. unfold reap_retry. destruct (record r w) as [x|] eqn:Hr; [|done].
  destruct (retirement_result (rt_task x) w) as [b|] eqn:Hd; [|done]. destruct (_ || _); [|done].
  apply retry_step; [done|done|]. apply runs_done; [done|done|]. unfold retirement_done. by rewrite Hd, bool_decide_eq_true_2.
Qed.

Lemma reap_retry_keeps w r t x : Inv w -> w_tasks w !! t = Some x -> w_tasks (reap_retry r w) !! t = Some x.
Proof.
  intros Hi Hx. unfold reap_retry. destruct (record r w) as [y|]; [|done].
  destruct (retirement_result _ _); [|done]. destruct (_ || _); [|done].
  cbn. rewrite lookup_insert_ne; [done|]. pose proof (task_fresh _ _ _ _ Hi Hx). lia.
Qed.

Lemma reap_all l w t x : Inv w -> w_tasks w !! t = Some x ->
  Inv (foldl (fun w r => reap_retry r w) w l) /\ w_tasks (foldl (fun w r => reap_retry r w) w l) !! t = Some x.
Proof.
  revert w. induction l as [|r l IH]; intros w Hi Hx; [done|]. cbn.
  apply IH; [by apply reap_retry_inv | by apply reap_retry_keeps].
Qed.

Lemma remove_all l w t x : Inv w -> w_tasks w !! t = Some x -> Forall (settled_record (view_of w)) l ->
  Inv (foldl (fun w r => (_remove_retirement_if_complete_locked r w).1) w l)
  /\ w_tasks (foldl (fun w r => (_remove_retirement_if_complete_locked r w).1) w l) !! t = Some x.
Proof.
  revert w. induction l as [|r l IH]; intros w Hi Hx Hl; [done|]. cbn. apply list.Forall_cons in Hl as [Hr Hl].
  destruct (remove_view r w) as (_ & _ & _ & _ & Ht & _). apply IH; [by apply remove_step|by rewrite Ht|].
  eapply list.Forall_impl; [exact Hl|]. intros r'. apply remove_keeps.
Qed.

Lemma stop_runs w t pc x r k : w_tasks w !! t = Some (Stop pc) -> runs (w_tasks w) r k -> runs (<[t := x]> (w_tasks w)) r k.
Proof. intros Hx Hr. apply runs_insert; [done| |]; rewrite Hx; congruence. Qed.

Lemma join_next_inv w t pc todo complete w' :
  Inv w -> w_tasks w !! t = Some (Stop pc) -> begun pc = true -> v_generation (view_of w) = None ->
  Forall (settled_record (view_of w)) complete -> join_next t todo complete w = Some w' -> Inv w'.
Proof.
  intros Hi Hx Hb Hg Hc. unfold join_next. destruct todo as [|r todo].
  - intros [= <-]. by eapply stop_move; try apply near_refl.
  - intros H. apply bind_Some in H as (x & Hr & [= <-]). eapply stop_move; try done; [apply near_refl|].
    split; [done|]. split; [|done]. by eapply stop_runs, record_runs.
Qed.

(** The attempt ends, and the wrapper accepts starts again. *)
Lemma stop_ends w t b : Inv w -> w_tasks w !! t = Some (Stop (AFinish b)) ->
  Inv (set_task t (Finished b) (set_ops (op_set_stop false (op_stop_task (w_ops w)) (w_ops w)) w)).
Proof.
  intros Hi Hx. destruct (stop_facts w t _ Hi Hx eq_refl) as (Hs & Hp & Hk & _).
  assert (Inv (set_task t (Finished b) w)) as Hi1.
  { eapply (near_move w w); try done; [apply near_refl|]. intros _ _. unfold attempt_inv. rewrite lookup_insert_eq.
    destruct b; [apply Hk|done]. }
  change (inv none (v_set_ops (v_active (view_of w)) (v_lifecycle (view_of w)) false (v_stop (view_of w)) (view_of w))
            (<[t := Finished b]> (w_tasks w)) (e_cancels (w_env w)) (w_next w)).
  eapply reframe; [exact Hi1|..]; cbn; try done; try apply Hi1.
  - intros k x _. constructor; try done. naive_solver.
  - intros a Ha. assert (a = t) as -> by (cbn in Hs; congruence). unfold attempt_inv. rewrite lookup_insert_eq.
    destruct b; [apply Hk|done].
Qed.

Lemma run_stop_inv w t pc answer w' :
  Inv w -> w_tasks w !! t = Some (Stop pc) -> run_stop t pc answer w = Some w' -> Inv w'.
Proof.
  intros Hi Hx. destruct (begun pc) eqn:Hb.
  2: { destruct pc; try done. cbn. intros [= <-]. by apply stop_begin_inv. }
  destruct (stop_facts w t pc Hi Hx Hb) as (Hs & Hp & Hk & _).
  destruct pc; try done; cbn in Hk |- *; intros H.
  - injection H as <-. destruct (_wait_for_start_settlement _ _); [|destruct again]; by eapply stop_move; try apply near_refl.
  - injection H as <-. unfold _start_is_settled_locked. case_bool_decide as Hg; cbn.
    + assert (sl_starting_generation (w_slot w) = None) by (cbn in Hk; destruct Hk; congruence).
      destruct (sl_start_settled _), again; by eapply stop_move; try apply near_refl.
    + destruct again; by eapply stop_move; try apply near_refl.
  - injection H as <-. destruct (_start_is_settled_locked _ _).
    + eapply (stop_move w); try done; apply near_clear.
    + eapply (stop_move w); try done; by apply near_slot.
  - injection H as <-. eapply (stop_move w); try done; apply near_clear.
  - set (w0 := set_uncertainty w) in *.
    assert (Inv w0) as Hi0 by (unfold Inv, w0; rewrite view_clear; exact Hi).
    destruct (reap_all (re_list (w_ret w)) w0 t _ Hi0 Hx) as [Hi1 Hx1].
    set (w1 := foldl _ w0 _) in *. destruct (stop_facts w1 t _ Hi1 Hx1 eq_refl) as (_ & _ & Hk1 & _).
    destruct (re_list (w_ret w)) as [|r todo] eqn:Hlist.
    + injection H as <-. eapply (stop_move w1); try done; [apply near_refl|]. split; [done|].
      change (no_live (view_of w0)). unfold w0. rewrite view_clear. by apply stop_complete.
    + eapply (join_next_inv w1 t _ (r :: todo) []); try done.
  - destruct Hk as [Hg Hk]. injection H as <-. destruct (remove_all complete w t _ Hi Hx Hk) as [Hi1 Hx1].
    set (w1 := foldl _ w complete) in *. destruct (stop_facts w1 t _ Hi1 Hx1 eq_refl) as (_ & Hp1 & [Hg1 _] & _).
    eapply (stop_move w1); try done; [apply near_clear|]. case_bool_decide as Hl; [|done]. case_bool_decide; [|done].
    split; [done|]. by apply stop_complete.
  - destruct Hk as (Hg & Hr & Hk). apply bind_Some in H as (b & Hres & H). refine (join_next_inv w t _ todo _ w' Hi Hx Hb Hg _ H).
    destruct b; [|done]. apply Forall_app; split; [done|]. constructor; [|constructor]. by eapply retirement_result_runs.
  - injection H as <-. eapply (stop_move w); try done; [apply near_refl|]. case_bool_decide; [exact Hk|apply Hk].
  - injection H as <-. pose proof (prune_inv w Hi) as Hi1.
    destruct (stop_facts (prune w) t _ Hi1 Hx Hb) as (_ & _ & Hk1 & _).
    case_bool_decide; eapply (stop_move (prune w)); try done; try apply near_refl; by destruct children.
  - injection H as <-. pose proof (prune_inv w Hi) as Hi1.
    destruct (stop_facts (prune w) t _ Hi1 Hx Hb) as (_ & _ & Hk1 & _).
    eapply (stop_move (prune w)); try done; try apply near_refl. destruct children; [|done]. by case_bool_decide.
  - injection H as <-. by apply stop_ends.
Qed.

(** ** Every step *)

Lemma same_view w w' : Inv w -> view_of w' = view_of w -> w_tasks w' = w_tasks w ->
  e_cancels (w_env w) ⊆ e_cancels (w_env w') -> (w_next w <= w_next w')%positive -> Inv w'.
Proof. intros Hi Hv Ht Hc Hn. unfold Inv. rewrite Hv, Ht. by eapply grow_inv. Qed.

Lemma run_task_inv w t x answer w' :
  Inv w -> w_tasks w !! t = Some x -> run_task t x answer w = Some w' -> Inv w'.
Proof.
  intros Hi Hx. destruct x; cbn.
  - by apply run_start_inv.
  - by apply run_operation_inv.
  - by apply run_stop_inv.
  - by apply run_retire_inv.
  - done.
  - intros [= <-]. by apply spawn_callback_inv.
  - intros [= <-]. eapply simple_move; try done. exact (startup_callback_near t f w).
  - intros [= <-]. by apply late_spawn_inv.
  - intros H. apply bind_Some in H as (b & Hb & [= <-]). pose proof (i_tasks _ _ _ _ _ Hi t _ Hx) as Hk.
    destruct b; [|by move_tac]. move_tac. by eapply retirement_result_runs.
  - intros [= <-]. pose proof (i_tasks _ _ _ _ _ Hi t _ Hx) as Hk. pose proof (remove_step w r Hi Hk) as Hi1.
    destruct (remove_view r w) as (_ & _ & _ & _ & Ht & _).
    assert (w_tasks (_remove_retirement_if_complete_locked r w).1 !! t = Some (LateSpawnRelease r)) as Hx1 by congruence.
    by move_tac.
  - intros [= <-]. unfold _release_retired_operation_owned. case_bool_decide; eapply unregister_step; try done; cbn; set_solver.
  - done.
Qed.

Lemma stop_call_inv w caller : Inv w ->
  match caller with Some c => exists b, w_tasks w !! c = Some (Finished b) | None => True end -> Inv (stop caller w).
Proof.
  intros Hi Hc. unfold stop. destruct (match op_stop_task _ with Some a => _ | None => true end) eqn:Ha; [|done].
  apply (stop_inv_new _ _ _ _ _ caller Hi); [|done]. cbn. destruct (op_stop_task (w_ops w)) as [a|]; [|done].
  destruct (w_tasks w !! a) as [[| | | | | | | | | | |[]]|]; done.
Qed.

Lemma env_event_inv w ev e : Inv w -> environment_event ev w = Some e -> Inv (set_env e w).
Proof.
  intros Hi. pose proof (i_exited _ _ _ _ _ Hi) as Hex. pose proof (i_codes _ _ _ _ _ Hi) as Hco.
  pose proof (i_done _ _ _ _ _ Hi) as Hdo. cbn in Hex, Hco, Hdo.
  unfold environment_event. destruct ev; try done; intros H.
  - destruct (w_tasks w !! t) as [[]|] eqn:Ht; try done. injection H as <-.
    apply (env_inv _ _ _ _ _ (e_spawns (w_env w)) (e_exited (w_env w)) (e_returncodes (w_env w)) ({[t]} ∪ e_done (w_env w)) Hi);
      try done. intros k Hk. apply elem_of_union in Hk as [->%elem_of_singleton|Hk]; [by eexists|by apply Hdo].
  - destruct (e_spawns (w_env w) !! s) as [[]|] eqn:Hs; try done. injection H as <-.
    apply (env_inv _ _ _ _ _ (<[s := if ok then Spawned else SpawnFailed]> (e_spawns (w_env w))) (e_exited (w_env w))
             (e_returncodes (w_env w)) (e_done (w_env w)) Hi); try done; cbn.
    + intros k x Hk Hne. rewrite lookup_insert_ne; [done|]. intros ->. congruence.
    + intros k. destruct (decide (k = s)) as [->|Hne]; [by rewrite Hs|by rewrite lookup_insert_ne].
    + intros p Hp. rewrite lookup_insert_ne; [by apply Hex|]. intros ->. apply Hex in Hp. congruence.
    + intros k. unfold live; cbn. destruct (decide (k = s)) as [->|Hne]; [by left|by rewrite lookup_insert_ne].
  - destruct (e_spawns (w_env w) !! p) as [[]|] eqn:Hs; try done. injection H as <-.
    apply (env_inv _ _ _ _ _ (e_spawns (w_env w)) ({[p]} ∪ e_exited (w_env w)) (e_returncodes (w_env w)) (e_done (w_env w)) Hi);
      try done; cbn; try set_solver.
    intros k. unfold live; cbn. intros [?|[? ?]]; [by left|right; set_solver].
  - case_bool_decide as Hp; [|done]. injection H as <-.
    apply (env_inv _ _ _ _ _ (e_spawns (w_env w)) (e_exited (w_env w)) ({[p]} ∪ e_returncodes (w_env w)) (e_done (w_env w)) Hi);
      try done; cbn; set_solver.
  - injection H as <-. by eapply same_view.
  - injection H as <-. by eapply same_view.
  - destruct (e_phases (w_env w) !! f); [done|]. injection H as <-. by eapply same_view.
Qed.

Lemma step_inv w ev w' : Inv w -> step ev w = Some w' -> Inv w'.
Proof.
  intros Hi. destruct ev; cbn -[environment_event]; intros H.
  - injection H as <-. by apply create_step.
  - injection H as <-. by apply create_step.
  - destruct caller as [c|]; [|injection H as <-; by apply stop_call_inv].
    destruct (w_tasks w !! c) as [[]|] eqn:Hc; try done. injection H as <-. apply stop_call_inv; [done|by eexists].
  - injection H as <-. by eapply same_view.
  - apply bind_Some in H as (x & Hx & H). by eapply run_task_inv.
  - destruct (cancelled t w); [|done]. destruct (w_tasks w !! t) as [[]|] eqn:Hx; try done; injection H as <-;
      [by apply interrupt_start_inv|by apply interrupt_operation_inv].
  - apply bind_Some in H as (x & Hx & H). destruct (is_caller x); [|done]. injection H as <-.
    eapply same_view; try done. cbn. set_solver.
  - apply bind_Some in H as (e & He & [= <-]). pose proof (env_event_inv w _ e Hi He) as Hi1.
    case_bool_decide; [by apply create_step|done].
  - apply bind_Some in H as (e & He & [= <-]). pose proof (env_event_inv w _ e Hi He) as Hi1. by apply create_step.
  - apply bind_Some in H as (e & He & [= <-]). by eapply env_event_inv.
  - apply bind_Some in H as (e & He & [= <-]). by eapply env_event_inv.
  - apply bind_Some in H as (e & He & [= <-]). by eapply env_event_inv.
  - apply bind_Some in H as (e & He & [= <-]). by eapply env_event_inv.
  - apply bind_Some in H as (e & He & [= <-]). pose proof (env_event_inv w _ e Hi He) as Hi1. by apply create_step.
  - apply bind_Some in H as (x & Hx & H). apply bind_Some in H as (p & Hp & H). apply bind_Some in H as (q & Hq & H).
    destruct (negb ok || _) eqn:Hok; [|done]. injection H as <-.
    eapply update_step; try done; try by left.
    destruct (i_records _ _ _ _ _ Hi r _ (record_core _ _ _ Hx)) as (_ & H1 & H2 & H3).
    split; [done|]. split; [done|]. cbn. intros Hw. exists p. split; [done|].
    unfold settle in Hq. destruct (rt_wait x); try done. injection Hq as <-. cbn in Hw. subst ok. cbn in Hok.
    by apply bool_decide_eq_true in Hok.
  - apply bind_Some in H as (x & Hx & H). apply bind_Some in H as (q & Hq & [= <-]).
    eapply same_view; try done. by eapply view_set_record.
  - apply bind_Some in H as (x & Hx & H). apply bind_Some in H as (q & Hq & [= <-]).
    eapply same_view; try done. by eapply view_set_record.
Qed.

Lemma initial_inv config : Inv (init config).
Proof.
  constructor; cbn; try done.
  - intros r H. by apply elem_of_nil in H.
  - intros s [?|[? _]]; done.
  - intros s s' [?|[? _]]; done.
Qed.

Lemma reachable_inv config w : reachable config w -> Inv w.
Proof. induction 1 as [|ev w w' _ IH Hs]; [apply initial_inv | by eapply step_inv]. Qed.

(** ** The theorems *)

(** The process [s] runs, or is being created. *)
Definition alive (w : world) (s : positive) : Prop :=
  e_spawns (w_env w) !! s = Some Spawning \/ (e_spawns (w_env w) !! s = Some Spawned /\ s ∉ e_exited (w_env w)).

(** C3. However starts, stops, health checks, transitions and cancellations
    interleave, and however processes and requests behave, the wrapper never
    has two children that run or are being created. *)
Theorem at_most_one_child config w s s' : reachable config w -> alive w s -> alive w s' -> s = s'.
Proof. intros Hr. exact (i_one _ _ _ _ _ (reachable_inv _ _ Hr) s s'). Qed.

Lemma booted : reachable None (after boot) /\ alive (after boot) 2.
Proof.
  split; [|right; split; [vm_compute; reflexivity|apply (bool_decide_eq_false _); vm_compute; reflexivity]].
  apply (reach_events None boot (init None)); [constructor|vm_compute; reflexivity].
Qed.

Lemma at_most_one_child_witness : alive (after boot) 2 /\ forall s, alive (after boot) s -> s = 2%positive.
Proof.
  split; [apply booted|]. intros s Hs. apply (at_most_one_child None (after boot)); [apply booted|exact Hs|apply booted].
Defined.

(** C17. A child is never lost: while it runs or is being created, the start slot,
    the published pair or a listed retirement refers to it, or the failed start
    that created it is about to claim it. *)
Theorem every_child_has_an_owner config w s : reachable config w -> alive w s ->
  sl_spawn_task (w_slot w) = Some s \/ p_process (w_pub w) = Some s
  \/ (exists r x, r ∈ re_list (w_ret w) /\ record r w = Some x /\ (rt_process x = Some s \/ rt_spawn_task x = Some s))
  \/ (exists t l, op_lifecycle (w_ops w) = Some t /\ w_tasks w !! t = Some (Start (SClaim true) l) /\ lo_process l = Some s).
Proof.
  intros Hr Hs. destruct (i_live _ _ _ _ _ (reachable_inv _ _ Hr) s Hs) as [[]|[H|[H|[H|H]]]]; [by left|by right; left| |].
  - right; right; left. destruct H as (r & x & Hin & Hx & Hp). cbn in Hx. rewrite lookup_fmap in Hx.
    apply fmap_Some in Hx as (y & Hy & ->). by exists r, y.
  - by right; right; right.
Qed.

Lemma every_child_has_an_owner_witness : p_process (w_pub (after boot)) = Some 2%positive /\
  (sl_spawn_task (w_slot (after boot)) = Some 2%positive \/ p_process (w_pub (after boot)) = Some 2%positive
   \/ (exists r x, r ∈ re_list (w_ret (after boot)) /\ record r (after boot) = Some x
        /\ (rt_process x = Some 2%positive \/ rt_spawn_task x = Some 2%positive))
   \/ (exists t l, op_lifecycle (w_ops (after boot)) = Some t /\ w_tasks (after boot) !! t = Some (Start (SClaim true) l)
        /\ lo_process l = Some 2%positive)).
Proof.
  split; [vm_compute; reflexivity|]. apply (every_child_has_an_owner None (after boot) 2); apply booted.
Defined.

(** C4. While the last stop attempt is one that succeeded - from its success until
    a start is admitted - no child runs or is being created. *)
Theorem stop_leaves_no_child config w a s : reachable config w -> op_stop_task (w_ops w) = Some a ->
  w_tasks w !! a = Some (Finished true) -> ~ alive w s.
Proof.
  intros Hr Ha Hx. pose proof (i_stop _ _ _ _ _ (reachable_inv _ _ Hr) a Ha) as H. unfold attempt_inv in H.
  rewrite Hx in H. exact (H s).
Qed.

Lemma stop_leaves_no_child_witness :
  op_stop_task (w_ops (after (boot ++ halt))) = Some 10%positive /\ ~ alive (after (boot ++ halt)) 2.
Proof.
  split; [vm_compute; reflexivity|].
  apply (stop_leaves_no_child None (after (boot ++ halt)) 10); [|vm_compute; reflexivity|vm_compute; reflexivity].
  apply (reach_events None (boot ++ halt) (init None)); [constructor|vm_compute; reflexivity].
Defined.
