(* ===== verification/SupervisorConfig.v ===== *)
(** * The child supervisor: configs and handlers

    Which config the next child starts with, and which handlers a client has:
    most steps leave both alone. *)

From stdpp Require Import gmap.
From S2P Require Import SupervisorProps SupervisorInv.

(** The published client has the wrapper's handlers, in their order. *)
Definition attached (p : published) : Prop := forall c, p_client p = Some c -> p_attached p !! c = Some (p_handlers p).

(** A step of [t] that is about neither: other operations stay where they are. *)
Record quiet (t : positive) (w w' : world) : Prop := MkQuiet {
  q_config : w_config w' = w_config w;
  q_pending : w_pending w' = w_pending w;
  q_attached : attached (w_pub w) -> attached (w_pub w');
  q_tasks : forall k next pc, k <> t -> w_tasks w' !! k = Some (Operation next pc) -> w_tasks w !! k = Some (Operation next pc)
}.

Lemma quiet_refl t w : quiet t w w.
Proof. done. Qed.

Lemma quiet_trans t w1 w2 w3 : quiet t w1 w2 -> quiet t w2 w3 -> quiet t w1 w3.
Proof. intros [A1 A2 A3 A4] [B1 B2 B3 B4]. split; [congruence|congruence|auto|]. intros k n pc Hk H. eauto. Qed.

Lemma quiet_set_task t x w0 w : quiet t w0 w -> quiet t w0 (set_task t x w).
Proof. intros [A1 A2 A3 A4]. split; try done. intros k n pc Hk. cbn. rewrite lookup_insert_ne by done. by apply A4. Qed.

Lemma quiet_create t x w0 w : (forall next pc, x <> Operation next pc) -> quiet t w0 w -> quiet t w0 (create_task x w).
Proof.
  intros Hx [A1 A2 A3 A4]. split; try done. intros k n pc Hk. cbn. rewrite lookup_insert_Some.
  intros [[_ H]|[_ H]]; [by destruct (Hx n pc)|by apply A4].
Qed.

Lemma quiet_set_plain k t x w0 w :
  (forall next pc, x <> Operation next pc) -> quiet k w0 w -> quiet k w0 (set_task t x w).
Proof.
  intros Hx [A1 A2 A3 A4]. split; try done. intros j n pc Hj. cbn. rewrite lookup_insert_Some.
  intros [[_ H]|[_ H]]; [by destruct (Hx n pc)|by apply A4].
Qed.

Lemma quiet_slot t sl w0 w : quiet t w0 w -> quiet t w0 (set_slot sl w).
Proof. by intros []. Qed.
Lemma quiet_ops t o w0 w : quiet t w0 w -> quiet t w0 (set_ops o w).
Proof. by intros []. Qed.
Lemma quiet_ret t x w0 w : quiet t w0 w -> quiet t w0 (set_ret x w).
Proof. by intros []. Qed.
Lemma quiet_env t e w0 w : quiet t w0 w -> quiet t w0 (set_env e w).
Proof. by intros []. Qed.
Lemma quiet_name t w0 w : quiet t w0 w -> quiet t w0 (take_name w).
Proof. by intros []. Qed.
Lemma quiet_detach t g w0 w : quiet t w0 w -> quiet t w0 (set_pub (p_set_child None None g (w_pub w)) w).
Proof. by intros []. Qed.
Lemma quiet_publish t s w0 w : quiet t w0 w -> quiet t w0 (set_pub (publish s (w_pub w)) w).
Proof.
  intros [A1 A2 A3 A4]. split; try done. intros _ c [= <-]. cbn. apply lookup_insert_eq.
Qed.

Create HintDb quiet.
#[export] Hint Resolve quiet_refl quiet_set_task quiet_slot quiet_ops quiet_ret quiet_env quiet_name quiet_detach
  quiet_publish : quiet.
#[export] Hint Extern 1 (quiet _ _ (create_task _ _)) => (apply quiet_create; [done|]) : quiet.
#[export] Hint Extern 2 (quiet _ _ (set_task _ _ _)) => (apply quiet_set_plain; [by repeat case_match|]) : quiet.
#[export] Hint Extern 1 (quiet _ _ (set_record _ _ _)) => (apply quiet_ret) : quiet.
#[export] Hint Extern 1 (quiet _ _ (cancel _ _)) => (apply quiet_env) : quiet.
#[export] Hint Extern 1 (quiet _ _ (set_cancels _ _)) => (apply quiet_env) : quiet.
#[export] Hint Extern 1 (quiet _ _ (set_uncertainty _)) => (apply quiet_slot) : quiet.
#[export] Hint Extern 1 (quiet _ _ (release_lifecycle _)) => (apply quiet_ops) : quiet.
#[export] Hint Extern 1 (quiet _ _ (prune _)) => (apply quiet_ops) : quiet.
#[export] Hint Extern 1 (quiet _ _ (retry_retirement _ _ _)) => (apply quiet_ret; apply quiet_create; [done|]) : quiet.

(** Case analysis of a definition, then the rules. *)
Ltac quiet_cases := repeat case_match; eauto 12 with quiet.

Lemma quiet_remove t r w0 w : quiet t w0 w -> quiet t w0 (_remove_retirement_if_complete_locked r w).1.
Proof. intros H. unfold _remove_retirement_if_complete_locked. quiet_cases. Qed.

Lemma quiet_cancel_retired_spawn t r s w0 w : quiet t w0 w -> quiet t w0 (_cancel_retired_spawn_once r s w).
Proof. intros H. unfold _cancel_retired_spawn_once. quiet_cases. Qed.
#[export] Hint Resolve quiet_remove quiet_cancel_retired_spawn : quiet.

Lemma quiet_cancel_spawn t s w0 w : quiet t w0 w -> quiet t w0 (_cancel_spawn_once s w).
Proof. intros H. unfold _cancel_spawn_once. quiet_cases. Qed.

Lemma quiet_cancel_retired_startup t r f w0 w : quiet t w0 w -> quiet t w0 (_cancel_retired_startup_task_once r f w).
Proof. intros H. unfold _cancel_retired_startup_task_once. quiet_cases. Qed.
#[export] Hint Resolve quiet_cancel_spawn quiet_cancel_retired_startup : quiet.

Lemma quiet_cancel_startup t f w0 w : quiet t w0 w -> quiet t w0 (_cancel_startup_task_once f w).
Proof. intros H. unfold _cancel_startup_task_once. quiet_cases. Qed.

Lemma quiet_claim t c p take s b w0 w : quiet t w0 w -> quiet t w0 (_claim_retirement_locked c p take s b w).1.
Proof. intros H. unfold _claim_retirement_locked. quiet_cases. Qed.

Lemma quiet_register t k w0 w : quiet t w0 w -> quiet t w0 (_register_operation k w).1.
Proof. intros H. unfold _register_operation. quiet_cases. Qed.
#[export] Hint Resolve quiet_cancel_startup quiet_claim quiet_register : quiet.

Lemma quiet_cancel_all t r l w0 w : quiet t w0 w -> quiet t w0 (foldr (_cancel_retired_startup_task_once r) w l).
Proof. intros H. induction l as [|f l IH]; cbn; auto with quiet. Qed.

Lemma quiet_reap_all t l w0 w : quiet t w0 w -> quiet t w0 (foldl (fun w r => reap_retry r w) w l).
Proof. revert w. induction l as [|r l IH]; cbn; intros w H; [done|]. apply IH. unfold reap_retry. quiet_cases. Qed.

Lemma quiet_remove_all t l w0 w :
  quiet t w0 w -> quiet t w0 (foldl (fun w r => (_remove_retirement_if_complete_locked r w).1) w l).
Proof. revert w. induction l as [|r l IH]; cbn; intros w H; [done|]. apply IH. auto with quiet. Qed.
#[export] Hint Resolve quiet_cancel_all quiet_reap_all quiet_remove_all : quiet.

Lemma quiet_start_leave k t l w0 w : quiet k w0 w -> quiet k w0 (start_leave t l w).
Proof. intros H. unfold start_leave. quiet_cases. Qed.
#[export] Hint Resolve quiet_start_leave : quiet.

Lemma quiet_start_fail k t l w0 w : quiet k w0 w -> quiet k w0 (start_fail t l w).
Proof. intros H. unfold start_fail. quiet_cases. Qed.
#[export] Hint Resolve quiet_start_fail : quiet.

Lemma quiet_begin_phase k t j l w0 w : quiet k w0 w -> quiet k w0 (begin_phase j t l w).
Proof. intros H. unfold begin_phase. quiet_cases. Qed.
#[export] Hint Resolve quiet_begin_phase : quiet.

Lemma quiet_fst {A} k w0 (p : world * A) w x : p = (w, x) -> quiet k w0 p.1 -> quiet k w0 w.
Proof. by intros ->. Qed.

Lemma quiet_run_start k t pc l answer w w' : run_start t pc l answer w = Some w' -> quiet k w w'.
Proof.
  pose proof (quiet_refl k w) as Hr. destruct pc; cbn; intros H.
  - destruct (_register_operation t w) as [w1 ok] eqn:E. injection H as <-.
    assert (quiet k w w1) by (eapply quiet_fst; [exact E|]; auto with quiet). destruct ok; auto with quiet.
  - destruct (op_lifecycle _); [done|]. injection H as <-. auto with quiet.
  - unfold retire_terminal in H. destruct (_published_child_is_terminal_locked w); [|injection H as <-; auto with quiet].
    destruct (_claim_retirement_locked _ _ _ _ _ _) as [w1 o] eqn:E.
    assert (quiet k w w1) by (eapply quiet_fst; [exact E|]; auto with quiet).
    destruct o as [r|]; [apply bind_Some in H as (x & _ & H)|]; injection H as <-; auto with quiet.
  - apply bind_Some in H as (? & _ & H). apply bind_Some in H as (b & _ & [= <-]). destruct b; auto with quiet.
  - destruct (_remove_retirement_if_complete_locked r w) as [w1 ok] eqn:E. injection H as <-.
    assert (quiet k w w1) by (eapply quiet_fst; [exact E|]; auto with quiet). destruct (_ || _); auto with quiet.
  - injection H as <-. unfold start_admit. cbv zeta. quiet_cases.
  - apply bind_Some in H as (? & _ & H). apply bind_Some in H as (b & _ & [= <-]).
    destruct b; [auto with quiet| |auto with quiet]. unfold start_publish. cbv zeta. quiet_cases.
  - apply bind_Some in H as (? & _ & [= <-]). quiet_cases.
  - unfold start_claim in H. set (w1 := if _ && _ then set_pub _ w else w) in H.
    set (w2 := if bool_decide _ then set_slot _ w1 else w1) in H.
    assert (quiet k w w1) by (unfold w1; quiet_cases). assert (quiet k w w2) by (unfold w2; quiet_cases).
    destruct (_claim_retirement_locked _ _ _ _ _ _) as [w3 o] eqn:E.
    assert (quiet k w w3) by (eapply quiet_fst; [exact E|]; auto with quiet).
    destruct o as [r|]; [apply bind_Some in H as (x & _ & H)|]; injection H as <-; auto with quiet.
  - apply bind_Some in H as (b & _ & [= <-]). auto with quiet.
  - injection H as <-. auto with quiet.
  - apply bind_Some in H as (? & _ & [= <-]). quiet_cases.
  - apply bind_Some in H as (g & _ & [= <-]). auto with quiet.
  - apply bind_Some in H as (? & _ & [= <-]). unfold start_settled. quiet_cases.
  - injection H as <-. auto with quiet.
Qed.

Lemma quiet_interrupt_start k t pc l w0 w : quiet k w0 w -> quiet k w0 (interrupt_start t pc l w).
Proof. intros H. destruct pc; cbn; auto with quiet. Qed.

Lemma quiet_retire_end k t r x l w0 w : quiet k w0 w -> quiet k w0 (retire_end t r x l w).
Proof. intros H. unfold retire_end. quiet_cases. Qed.
#[export] Hint Resolve quiet_retire_end : quiet.

Lemma quiet_retire_closed k t r x l w0 w : quiet k w0 w -> quiet k w0 (retire_closed t r x l w).
Proof. intros H. unfold retire_closed. quiet_cases. Qed.
#[export] Hint Resolve quiet_retire_closed : quiet.

Lemma quiet_retire_close k t r x l w0 w : quiet k w0 w -> quiet k w0 (retire_close t r x l w).
Proof. intros H. unfold retire_close. quiet_cases. Qed.
#[export] Hint Resolve quiet_retire_close : quiet.

Lemma quiet_retire_kill k t r x l w0 w : quiet k w0 w -> quiet k w0 (retire_kill t r x l w).
Proof. intros H. unfold retire_kill. quiet_cases. Qed.
#[export] Hint Resolve quiet_retire_kill : quiet.

Lemma quiet_retire_terminate k t r x l w0 w : quiet k w0 w -> quiet k w0 (retire_terminate t r x l w).
Proof. intros H. unfold retire_terminate. quiet_cases. Qed.

Lemma quiet_retire_process k t r x l w0 w : quiet k w0 w -> quiet k w0 (retire_process t r x l w).
Proof. intros H. unfold retire_process. quiet_cases. Qed.
#[export] Hint Resolve quiet_retire_terminate quiet_retire_process : quiet.

Lemma quiet_retire_shutdown k t r x a b w0 w : quiet k w0 w -> quiet k w0 (retire_shutdown t r x a b w).
Proof. intros H. unfold retire_shutdown. quiet_cases. Qed.
#[export] Hint Resolve quiet_retire_shutdown : quiet.

Lemma quiet_retire_startup k t r a w0 w w' : quiet k w0 w -> retire_startup t r a w = Some w' -> quiet k w0 w'.
Proof.
  intros H Hs. unfold retire_startup in Hs. apply bind_Some in Hs as (x & _ & Hs).
  case_bool_decide; injection Hs as <-; auto with quiet.
Qed.

Lemma quiet_run_retire k t r pc answer w w' : run_retire t r pc answer w = Some w' -> quiet k w w'.
Proof.
  pose proof (quiet_refl k w) as Hr. unfold run_retire. intros H. apply bind_Some in H as (x & _ & H).
  destruct pc; cbn in H.
  - destruct (rt_spawn_task x); [injection H as <-; auto with quiet|by eapply quiet_retire_startup].
  - destruct (e_spawns _ !! s) as [[]|]; try (injection H as <-; auto with quiet); by eapply quiet_retire_startup.
  - destruct (adopt_spawn _ _ _ _) as [x1 a]. eapply quiet_retire_startup; [|exact H]. auto with quiet.
  - injection H as <-. auto with quiet.
  - injection H as <-. auto with quiet.
  - injection H as <-. auto with quiet.
  - injection H as <-. auto with quiet.
  - injection H as <-. auto with quiet.
  - injection H as <-. auto with quiet.
  - injection H as <-. quiet_cases.
  - injection H as <-. auto with quiet.
Qed.

Lemma quiet_run_stop k t pc answer w w' :
  begun pc = true -> run_stop t pc answer w = Some w' -> quiet k w w'.
Proof.
  intros Hb. pose proof (quiet_refl k w) as Hr. destruct pc; try done; cbn; intros H; try (injection H as <-; quiet_cases; fail).
  - assert (quiet k w (foldl (fun w r => reap_retry r w) (set_uncertainty w) (re_list (w_ret w)))) by auto with quiet.
    destruct (re_list (w_ret w)) as [|r todo]; [injection H as <-; auto with quiet|].
    cbn in H. apply bind_Some in H as (x & _ & [= <-]). auto with quiet.
  - apply bind_Some in H as (b & _ & H). unfold join_next in H. destruct todo; [injection H as <-; auto with quiet|].
    apply bind_Some in H as (x & _ & [= <-]). auto with quiet.
Qed.

(** ** Transitions *)

(** The operation [t] still decides on [c], or a stop decided for it. *)
Definition undecided (w : world) (t c : positive) : Prop :=
  (exists p, w_pending w = Some p /\ pt_op p = t /\ pt_next p = c) \/ (w_pending w = None /\ w_config w = Some c).

Definition op_known (w : world) (t : positive) (next : option positive) (pc : op_pc) : Prop :=
  match next, pc with
  | Some c, ORequest _ _ false => undecided w t c
  | Some c, OFinish retain_next ok => undecided w t c /\ (ok = true -> retain_next = true)
  | Some c, OFinished true => w_pending w = None /\ w_config w = Some c
  | None, OFinish _ _ => False
  | _, _ => True
  end.

Record settings (w : world) : Prop := MkSettings {
  c_ops : forall t next pc, w_tasks w !! t = Some (Operation next pc) -> op_known w t next pc;
  c_previous : forall p, w_pending w = Some p -> pt_previous p = w_config w;
  c_attached : attached (w_pub w)
}.

Lemma op_known_same w w' t next pc :
  w_config w' = w_config w -> w_pending w' = w_pending w -> op_known w t next pc -> op_known w' t next pc.
Proof. intros E1 E2. unfold op_known, undecided. by rewrite E1, E2. Qed.

(** Steps that are about neither, by a task that is no operation. *)
Lemma quiet_settings t w w' : settings w -> quiet t w w' ->
  (forall next pc, w_tasks w' !! t <> Some (Operation next pc)) -> settings w'.
Proof.
  intros [H1 H2 H3] [Q1 Q2 Q3 Q4] Ht. split; [|by rewrite Q2, Q1|auto].
  intros k next pc Hk. destruct (decide (k = t)) as [->|Hne]; [by destruct (Ht next pc)|].
  eapply op_known_same; eauto.
Qed.

(** The operation in the lifecycle section moves. *)
Lemma op_settings w w' t next pc next' pc' :
  Inv w -> settings w -> w_tasks w !! t = Some (Operation next pc) -> op_in_section pc = true ->
  (forall p, w_pending w' = Some p -> pt_previous p = w_config w') -> w_pub w' = w_pub w ->
  w_tasks w' = <[t := Operation next' pc']> (w_tasks w) -> op_known w' t next' pc' -> settings w'.
Proof.
  intros Hi [H1 H2 H3] Hx Hin Hp Hpub Ht Hk. split; [|done|by rewrite Hpub].
  intros k n q. rewrite Ht, lookup_insert_Some. intros [[<- [= <- <-]]|[Hne Hk']]; [done|].
  destruct (op_in_section q) eqn:Hq; [|by destruct n, q].
  pose proof (holder _ _ _ _ _ _ _ Hi Hk' Hq). pose proof (holder _ _ _ _ _ _ _ Hi Hx Hin). congruence.
Qed.

(** The same outside the section, or with the settings as they were. *)
Lemma op_quiet_settings w w' t next' pc' :
  settings w -> quiet t w w' -> w_tasks w' !! t = Some (Operation next' pc') -> op_known w' t next' pc' -> settings w'.
Proof.
  intros [H1 H2 H3] [Q1 Q2 Q3 Q4] Ht Hk. split; [|by rewrite Q2, Q1|auto].
  intros k n q Hk'. destruct (decide (k = t)) as [->|Hne]; [congruence|]. eapply op_known_same; eauto.
Qed.

Lemma finish_settings w t c retain_next ok :
  Inv w -> settings w -> w_tasks w !! t = Some (Operation (Some c) (OFinish retain_next ok)) ->
  settings (set_task t (Operation (Some c) (OFinished ok)) (_finish_transition t retain_next w)).
Proof.
  intros Hi Hs Hx. pose proof (c_ops _ Hs _ _ _ Hx) as [Hk Hok].
  eapply (op_settings w _ t _ _ _ _ Hi Hs Hx eq_refl).
  - unfold _finish_transition. destruct (w_pending w) eqn:Hp; [case_bool_decide|]; cbn; intros q Hq; try done;
      by apply (c_previous _ Hs).
  - unfold _finish_transition. destruct (w_pending w); [by case_bool_decide|done].
  - unfold _finish_transition. destruct (w_pending w); [by case_bool_decide|done].
  - destruct ok; [|done]. unfold _finish_transition. destruct Hk as [(p & Hp & Hpt & Hpn)|[Hp Hc]]; rewrite Hp.
    + rewrite bool_decide_eq_true_2 by done. cbn. rewrite (Hok eq_refl), Hpn. done.
    + cbn. by rewrite Hp, Hc.
Qed.

Lemma ended_settings w0 w t c g next pc r ok :
  Inv w0 -> settings w0 -> quiet t w0 w -> w_tasks w0 !! t = Some (Operation next (ORequest c g r)) ->
  pc = ORequest c g r -> settings (request_ended t c g next r ok w).
Proof.
  intros Hi Hs Hq Hx ->. pose proof (c_ops _ Hs _ _ _ Hx) as Hk. unfold request_ended, op_leave.
  pose proof Hq as [Q1 Q2 Q3 Q4].
  destruct next as [n|]; [destruct r|destruct ok].
  - eapply op_quiet_settings; [exact Hs|eauto with quiet|apply lookup_insert_eq|done].
  - eapply op_quiet_settings; [exact Hs|eauto with quiet|apply lookup_insert_eq|]. cbn in *. unfold undecided in *.
    cbn. rewrite Q1, Q2. split; [done|]. by intros ->.
  - eapply op_quiet_settings; [exact Hs|eauto with quiet|apply lookup_insert_eq|done].
  - eapply op_quiet_settings; [exact Hs|eauto with quiet|apply lookup_insert_eq|done].
Qed.

Lemma run_operation_settings w t next pc answer w' :
  Inv w -> settings w -> w_tasks w !! t = Some (Operation next pc) -> run_operation t next pc answer w = Some w' ->
  settings w'.
Proof.
  intros Hi Hs Hx. pose proof (quiet_refl t w) as Hr. pose proof (c_ops _ Hs _ _ _ Hx) as Hk.
  destruct pc; cbn; intros H.
  - destruct (_register_operation t w) as [w1 ok] eqn:E. injection H as <-.
    assert (quiet t w w1) as Hq by (eapply quiet_fst; [exact E|]; auto with quiet).
    destruct ok; [eapply op_quiet_settings; [done|auto with quiet|apply lookup_insert_eq|by destruct next]|].
    eapply quiet_settings; [exact Hs|auto with quiet|]. intros n q. cbn. by rewrite lookup_insert_eq.
  - destruct (op_lifecycle _); [done|]. injection H as <-.
    eapply op_quiet_settings; [exact Hs|eauto with quiet|apply lookup_insert_eq|by destruct next].
  - injection H as <-. unfold op_leave.
    destruct (p_client _); [destruct (op_stopping _); [|destruct next; [case_bool_decide|]]|];
      (eapply op_quiet_settings; [exact Hs|eauto with quiet|apply lookup_insert_eq|by destruct next || done]).
  - apply bind_Some in H as (n & -> & [= <-]). destruct (is_current client g w).
    + eapply (op_settings w _ t _ _ _ _ Hi Hs Hx eq_refl); cbn; try done; [by intros p [= <-]|].
      left. by eexists.
    + eapply op_quiet_settings; [exact Hs|unfold op_leave; eauto with quiet|apply lookup_insert_eq|done].
  - apply bind_Some in H as (? & _ & [= <-]). by eapply ended_settings.
  - injection H as <-. eapply op_quiet_settings; [exact Hs|unfold op_leave; eauto with quiet|apply lookup_insert_eq|by destruct next].
  - injection H as <-. destruct next as [c|]; [by apply finish_settings|done].
  - apply bind_Some in H as (? & _ & [= <-]).
    eapply op_quiet_settings; [exact Hs|unfold op_leave; eauto with quiet|apply lookup_insert_eq|by destruct next].
  - injection H as <-. eapply op_quiet_settings; [exact Hs|eauto with quiet|apply lookup_insert_eq|by destruct next].
  - apply bind_Some in H as (? & _ & [= <-]).
    eapply quiet_settings; [exact Hs|auto with quiet|]. intros n q. cbn. by rewrite lookup_insert_eq.
Qed.

Lemma interrupt_operation_settings w0 w t next pc :
  Inv w0 -> settings w0 -> quiet t w0 w -> w_tasks w0 !! t = Some (Operation next pc) ->
  settings (interrupt_operation t next pc w).
Proof.
  intros Hi Hs Hq Hx. pose proof (c_ops _ Hs _ _ _ Hx) as Hk. pose proof Hq as [Q1 Q2 _ _].
  destruct pc; cbn; unfold op_leave.
  - eapply quiet_settings; [exact Hs|auto with quiet|]. intros n q. cbn. by rewrite lookup_insert_eq.
  - eapply op_quiet_settings; [exact Hs|eauto with quiet|apply lookup_insert_eq|by destruct next].
  - eapply op_quiet_settings; [exact Hs|eauto with quiet|apply lookup_insert_eq|by destruct next].
  - eapply op_quiet_settings; [exact Hs|eauto with quiet|apply lookup_insert_eq|by destruct next].
  - by eapply ended_settings.
  - eapply op_quiet_settings; [exact Hs|eauto with quiet|apply lookup_insert_eq|by destruct next].
  - eapply op_quiet_settings; [exact Hs|eauto with quiet|apply lookup_insert_eq|]. destruct next as [c|]; [|done].
    eapply op_known_same; [exact Q1|exact Q2|]. split; [apply Hk|done].
  - eapply op_quiet_settings; [exact Hs|eauto with quiet|apply lookup_insert_eq|by destruct next].
  - eapply op_quiet_settings; [exact Hs|eauto with quiet|apply lookup_insert_eq|by destruct next].
  - eapply op_quiet_settings; [exact Hs|eauto with quiet|apply lookup_insert_eq|by destruct next].
Qed.

(** A stop decides a pending transition. *)
Lemma decide_settings w : settings w ->
  settings (match w_pending w with Some q => set_config (Some (pt_next q)) None w | None => w end).
Proof.
  intros Hs. destruct (w_pending w) as [q|] eqn:Hp; [|exact Hs]. destruct Hs as [H1 H2 H3]. split; [|done|done].
  intros t next pc Ht. specialize (H1 t next pc Ht). cbn. unfold op_known, undecided in *. cbn. rewrite Hp in *.
  destruct next as [c|]; [|done]. destruct pc as [| | | |? ? []| |? ?|[]| |]; try done.
  - destruct H1 as [(p & [= <-] & _ & Hc)|[? _]]; [right; by rewrite Hc|done].
  - destruct H1 as [[(p & [= <-] & _ & Hc)|[? _]] ?]; [|done]. split; [right; by rewrite Hc|done].
  - by destruct H1.
Qed.

Lemma stop_begin_settings w t caller :
  settings w -> w_tasks w !! t = Some (Stop (ABegin caller)) -> settings (stop_begin t caller w).
Proof.
  intros Hs Hx. pose proof (decide_settings w Hs) as Hd.
  set (w0 := match w_pending w with Some q => set_config (Some (pt_next q)) None w | None => w end) in *.
  apply (quiet_settings t w0); [done| |].
  - rewrite stop_begin_eq. cbv zeta. apply quiet_set_task, quiet_env, quiet_claim. unfold stopped.
    apply quiet_slot. assert (quiet t w0 w0) as [Q1 Q2 Q3 Q4] by apply quiet_refl.
    unfold w0 in *. destruct (w_pending w); by split.
  - intros n q. rewrite stop_begin_eq. cbn. by rewrite lookup_insert_eq.
Qed.

(** ** Every step *)

(** What an environment event or a call changes. *)
Lemma other_settings w w' : settings w -> w_config w' = w_config w -> w_pending w' = w_pending w ->
  attached (w_pub w') ->
  (forall t next pc, w_tasks w' !! t = Some (Operation next pc) -> w_tasks w !! t = Some (Operation next pc) \/ pc = ORegister) ->
  settings w'.
Proof.
  intros [H1 H2 H3] E1 E2 Hp Ht. split; [|by rewrite E2, E1|done]. intros t next pc H.
  destruct (Ht t next pc H) as [H'| ->]; [eapply op_known_same; eauto|by destruct next].
Qed.

(** A step that is quiet whatever the index. *)
Lemma silent_settings w w' t x : settings w -> w_tasks w !! t = Some x -> (forall next pc, x <> Operation next pc) ->
  (forall k, quiet k w w') -> settings w'.
Proof.
  intros Hs Hx Hn Hq. eapply (quiet_settings t); [exact Hs|apply Hq|]. intros n pc Hk.
  apply (q_tasks _ _ _ (Hq (Pos.succ t)) t) in Hk; [|lia]. rewrite Hx in Hk. injection Hk as ->. by apply (Hn n pc).
Qed.

Lemma run_task_settings w t x answer w' :
  Inv w -> settings w -> w_tasks w !! t = Some x -> run_task t x answer w = Some w' -> settings w'.
Proof.
  intros Hi Hs Hx H. pose proof (fun k => quiet_refl k w) as Hr.
  destruct x; cbn in H; try exact (run_operation_settings w t next pc answer w' Hi Hs Hx H); try done.
  - apply (silent_settings w _ t _ Hs Hx); [done|]. intros k. exact (quiet_run_start k t pc l answer w w' H).
  - destruct (begun pc) eqn:Hb; [|destruct pc; try done; injection H as <-; by apply stop_begin_settings].
    apply (silent_settings w _ t _ Hs Hx); [done|]. intros k. exact (quiet_run_stop k t pc answer w w' Hb H).
  - apply (silent_settings w _ t _ Hs Hx); [done|]. intros k. exact (quiet_run_retire k t r pc answer w w' H).
  - injection H as <-. apply (silent_settings w _ t _ Hs Hx); [done|]. intros k. unfold _on_spawn_task_done. quiet_cases.
  - injection H as <-. apply (silent_settings w _ t _ Hs Hx); [done|]. intros k. unfold _finish_startup_task. auto with quiet.
  - injection H as <-. apply (silent_settings w _ t _ Hs Hx); [done|]. intros k. unfold late_spawn. quiet_cases.
  - apply bind_Some in H as (b & _ & [= <-]). apply (silent_settings w _ t _ Hs Hx); [done|]. intros k. auto with quiet.
  - injection H as <-. apply (silent_settings w _ t _ Hs Hx); [done|]. intros k. auto with quiet.
  - injection H as <-. apply (silent_settings w _ t _ Hs Hx); [done|]. intros k. auto with quiet.
Qed.

Lemma on_event_attached h p : attached p -> attached (on_event h p).
Proof.
  intros H c. cbn. intros Hc. rewrite Hc, lookup_insert_eq. specialize (H c Hc).
  by rewrite (lookup_total_correct _ _ _ H).
Qed.

Lemma insert_op w k x : (forall next pc, x = Operation next pc -> pc = ORegister) ->
  forall t next pc, <[k := x]> (w_tasks w) !! t = Some (Operation next pc) ->
    w_tasks w !! t = Some (Operation next pc) \/ pc = ORegister.
Proof.
  intros Hx t n pc. rewrite lookup_insert_Some. intros [[_ H]|[_ H]]; [right; by eapply Hx|by left].
Qed.

Lemma environment_settings w ev e : environment_event ev w = Some e -> settings w -> settings (set_env e w).
Proof. intros _ Hs. eapply other_settings; try done; [apply Hs|by left]. Qed.

Lemma step_settings w ev w' : Inv w -> settings w -> step ev w = Some w' -> settings w'.
Proof.
  intros Hi Hs. destruct ev; cbn -[environment_event]; intros H.
  - injection H as <-. eapply other_settings; try done; [apply Hs|by apply insert_op].
  - injection H as <-. eapply other_settings; try done; [apply Hs|apply insert_op; by intros ?? [= <- <-]].
  - assert (settings (stop caller w)) as Hstop.
    { unfold stop. destruct (match op_stop_task _ with Some a => _ | None => true end); [|done].
      eapply other_settings; try done; [apply Hs|by apply insert_op]. }
    destruct caller as [c|]; [|by injection H as <-]. destruct (w_tasks w !! c) as [[]|]; try done. by injection H as <-.
  - injection H as <-. eapply other_settings; try done; [by apply on_event_attached, Hs|by left].
  - apply bind_Some in H as (x & Hx & H). by eapply run_task_settings.
  - destruct (cancelled t w); [|done]. destruct (w_tasks w !! t) as [[]|] eqn:Hx; try done; injection H as <-.
    + apply (silent_settings w _ t _ Hs Hx); [done|]. intros k. apply quiet_interrupt_start. auto with quiet.
    + eapply interrupt_operation_settings; try done.
  - apply bind_Some in H as (x & Hx & H). destruct (is_caller x); [|done]. injection H as <-.
    eapply other_settings; try done; [apply Hs|by left].
  - apply bind_Some in H as (e & He & [= <-]). pose proof (environment_settings w _ e He Hs) as Hs1.
    case_bool_decide; [|done]. eapply other_settings; try done; try apply Hs1. by apply insert_op.
  - apply bind_Some in H as (e & He & [= <-]). pose proof (environment_settings w _ e He Hs) as Hs1.
    eapply other_settings; try done; try apply Hs1. by apply insert_op.
  - apply bind_Some in H as (e & He & [= <-]). by eapply environment_settings.
  - apply bind_Some in H as (e & He & [= <-]). by eapply environment_settings.
  - apply bind_Some in H as (e & He & [= <-]). by eapply environment_settings.
  - apply bind_Some in H as (e & He & [= <-]). by eapply environment_settings.
  - apply bind_Some in H as (e & He & [= <-]). pose proof (environment_settings w _ e He Hs) as Hs1.
    eapply other_settings; try done; try apply Hs1. by apply insert_op.
  - apply bind_Some in H as (x & Hx & H). apply bind_Some in H as (p & Hp & H). apply bind_Some in H as (q & Hq & H).
    destruct (_ || _); [|done]. injection H as <-. eapply other_settings; try done; [apply Hs|by left].
  - apply bind_Some in H as (x & Hx & H). apply bind_Some in H as (q & Hq & [= <-]).
    eapply other_settings; try done; [apply Hs|by left].
  - apply bind_Some in H as (x & Hx & H). apply bind_Some in H as (q & Hq & [= <-]).
    eapply other_settings; try done; [apply Hs|by left].
Qed.

Lemma reachable_settings config w : reachable config w -> settings w.
Proof.
  induction 1 as [|ev w w' Hr IH Hs]; [by split|]. eapply step_settings; [by eapply reachable_inv|done|done].
Qed.

(** ** The theorems *)

(** The transition [t] to [next] finished, and is about to report success. *)
Definition transition_accepted (w : world) (t next : positive) : Prop :=
  w_tasks w !! t = Some (Operation (Some next) (OFinished true)).

(** C19. A transition that is about to report success has left its config as the one
    the next child starts with: it wrote it itself, or the stop that interrupted
    it did. *)
Theorem transition_takes_effect config w t next : reachable config w -> transition_accepted w t next ->
  w_config w = Some next /\ w_pending w = None.
Proof. intros Hr Ht. destruct (c_ops _ (reachable_settings _ _ Hr) _ _ _ Ht). done. Qed.

(** A transition to the config 77 that the child accepts. *)
Definition switch : list event :=
  CallOperation (Some 77%positive) :: repeat (Run 10 true) 6.

Lemma transition_takes_effect_witness : w_config (after boot) = None /\ w_config (after (boot ++ switch)) = Some 77%positive.
Proof.
  split; [vm_compute; reflexivity|].
  apply (transition_takes_effect None (after (boot ++ switch)) 10); [|vm_compute; reflexivity].
  apply (reach_events None (boot ++ switch) (init None)); [constructor|vm_compute; reflexivity].
Defined.

Lemma set_config_same w t : settings w ->
  w_config (_finish_transition t false w) = w_config w.
Proof.
  intros Hs. unfold _finish_transition. destruct (w_pending w) as [p|] eqn:Hp; [|done]. case_bool_decide; [|done].
  by apply (c_previous _ Hs).
Qed.

(** The next step of [t] settles the pending transition [p] in favour of its
    config: [t] is the operation of [p], which ended that way, or a stop
    attempt that begins. *)
Definition settles (w : world) (t : positive) (p : pending_transition) : Prop :=
  (t = pt_op p /\ exists ok, w_tasks w !! t = Some (Operation (Some (pt_next p)) (OFinish true ok)))
  \/ exists caller, w_tasks w !! t = Some (Stop (ABegin caller)).

Definition takes_config (w w' : world) (p : pending_transition) : Prop :=
  w_pending w = Some p /\ w_config w' = Some (pt_next p) /\ w_pending w' = None.

Lemma run_operation_config w t next pc answer w' :
  settings w -> w_tasks w !! t = Some (Operation next pc) -> run_operation t next pc answer w = Some w' ->
  w_config w' = w_config w \/ exists p, takes_config w w' p /\ settles w t p.
Proof.
  intros Hs Hx H. destruct pc; cbn in H.
  - unfold _register_operation in H. left. destruct (_ || _); injection H as <-; done.
  - destruct (op_lifecycle _); [done|]. injection H as <-. by left.
  - injection H as <-. left. by repeat case_match.
  - apply bind_Some in H as (n & -> & [= <-]). left. by repeat case_match.
  - apply bind_Some in H as (? & _ & [= <-]). left. unfold request_ended. by repeat case_match.
  - injection H as <-. by left.
  - injection H as <-. destruct retain_next; [|left; by apply set_config_same]. unfold _finish_transition.
    destruct (w_pending w) as [p|] eqn:Hp; [|by left]. case_bool_decide as Ho; [|by left]. right. exists p.
    split; [by split|]. left. split; [done|]. exists ok. pose proof (c_ops _ Hs _ _ _ Hx) as Hk.
    destruct next as [c|]; [|done]. destruct Hk as [[(p' & Hp' & _ & <-)|[Hn _]] _]; [|congruence].
    rewrite Hp in Hp'. by injection Hp' as ->.
  - apply bind_Some in H as (? & _ & [= <-]). by left.
  - injection H as <-. by left.
  - apply bind_Some in H as (? & _ & [= <-]). by left.
Qed.

Lemma interrupt_operation_config t next pc w : w_config (interrupt_operation t next pc w) = w_config w.
Proof. destruct pc; cbn; try done. unfold request_ended. by repeat case_match. Qed.

Lemma stop_begin_config w t caller :
  w_config (stop_begin t caller w) = w_config w \/ exists p, takes_config w (stop_begin t caller w) p.
Proof.
  unfold takes_config. rewrite stop_begin_eq. cbv zeta. set (w4 := stopped t caller w). set (c := _claim_retirement_locked _ _ _ _ _ w4).
  pose proof (quiet_claim 1 (p_client (w_pub w)) (p_process (w_pub w))
    (bool_decide (sl_starting_generation (_clear_settled_start_uncertainty_locked (w_slot w)) <> None))
    (match sl_starting_generation (_clear_settled_start_uncertainty_locked (w_slot w)) with
     | Some _ => sl_spawn_task (_clear_settled_start_uncertainty_locked (w_slot w)) | None => None end)
    (sl_spawn_cancel_requested (_clear_settled_start_uncertainty_locked (w_slot w))) w4 w4 (quiet_refl _ _)) as [Q1 Q2 _ _].
  fold c in Q1, Q2. change (w_config (set_task ?t ?x (set_cancels ?C ?w))) with (w_config w).
  change (w_pending (set_task ?t ?x (set_cancels ?C ?w))) with (w_pending w). rewrite Q1, Q2.
  unfold w4, stopped. destruct (w_pending w) as [p|] eqn:Hp; [right; by exists p|by left].
Qed.

Lemma run_task_config w t x answer w' :
  settings w -> w_tasks w !! t = Some x -> run_task t x answer w = Some w' ->
  w_config w' = w_config w \/ exists p, takes_config w w' p /\ settles w t p.
Proof.
  intros Hs Hx H. destruct x; cbn in H.
  - left. apply (q_config 1 w w'). by eapply quiet_run_start.
  - destruct (run_operation_config _ _ _ _ _ _ Hs Hx H) as [?|(p & Hp)]; [by left|right; by exists p].
  - destruct (begun pc) eqn:Hb; [left; apply (q_config 1 w w'); by eapply quiet_run_stop|].
    destruct pc as [caller| | | | | | | | | | |]; try done. injection H as <-.
    destruct (stop_begin_config w t caller) as [?|(p & Hp)]; [by left|right]. exists p.
    split; [done|]. right. by exists caller.
  - left. apply (q_config 1 w w'). by eapply quiet_run_retire.
  - done.
  - left. injection H as <-. unfold _on_spawn_task_done. by repeat case_match.
  - left. by injection H as <-.
  - left. injection H as <-. unfold late_spawn. by repeat case_match.
  - apply bind_Some in H as (b & _ & [= <-]). by left.
  - left. injection H as <-. apply (q_config 1 w). auto with quiet.
  - left. injection H as <-. done.
  - done.
Qed.

(** C18. Whatever the wrapper does, its config changes only to the next config of
    the transition that is pending, which is then over: when that transition
    ends so that its config is kept, or when a stop attempt interrupts it. *)
Theorem config_changes_by_transition config w ev w' : reachable config w -> step ev w = Some w' ->
  w_config w' <> w_config w ->
  exists t answer p, ev = Run t answer /\ takes_config w w' p /\ settles w t p.
Proof.
  intros Hr H Hne. pose proof (reachable_settings _ _ Hr) as Hs.
  enough (w_config w' = w_config w \/ exists t answer p, ev = Run t answer /\ takes_config w w' p /\ settles w t p)
    as [?|?]; [done|done|].
  destruct ev; cbn -[environment_event] in H.
  all: try (apply bind_Some in H as (e & _ & [= <-]); left; by repeat case_match).
  - injection H as <-. by left.
  - injection H as <-. by left.
  - left. repeat case_match; simplify_eq; unfold stop; by repeat case_match.
  - injection H as <-. by left.
  - apply bind_Some in H as (x & Hx & H).
    destruct (run_task_config _ _ _ _ _ Hs Hx H) as [?|(p & Hp)]; [by left|right; by exists t, answer, p].
  - left. destruct (cancelled t w); [|done]. destruct (w_tasks w !! t) as [[]|]; try done; injection H as <-.
    + apply (q_config 1 w). apply quiet_interrupt_start. auto with quiet.
    + by rewrite interrupt_operation_config.
  - left. apply bind_Some in H as (x & _ & H). destruct (is_caller x); [|done]. by injection H as <-.
  - left. apply bind_Some in H as (x & Hx & H). apply bind_Some in H as (p & Hp & H). apply bind_Some in H as (q & Hq & H).
    destruct (_ || _); [|done]. by injection H as <-.
  - left. apply bind_Some in H as (x & Hx & H). by apply bind_Some in H as (q & Hq & [= <-]).
  - left. apply bind_Some in H as (x & Hx & H). by apply bind_Some in H as (q & Hq & [= <-]).
Qed.

Lemma config_changes_by_transition_witness :
  exists w w', step (Run 10 true) w = Some w' /\ w_config w' <> w_config w /\
    exists t answer p, Run 10 true = Run t answer /\ takes_config w w' p /\ settles w t p.
Proof.
  exists (after (boot ++ CallOperation (Some 77%positive) :: repeat (Run 10 true) 5)), (after (boot ++ switch)).
  assert (step (Run 10 true) (after (boot ++ CallOperation (Some 77%positive) :: repeat (Run 10 true) 5))
          = Some (after (boot ++ switch))) as Hs by (vm_compute; reflexivity).
  assert (w_config (after (boot ++ switch))
          <> w_config (after (boot ++ CallOperation (Some 77%positive) :: repeat (Run 10 true) 5))) as Hc
    by (vm_compute; discriminate).
  split; [exact Hs|]. split; [exact Hc|]. apply (config_changes_by_transition None _ (Run 10 true)); [|exact Hs|exact Hc].
  apply (reach_events None (boot ++ CallOperation (Some 77%positive) :: repeat (Run 10 true) 5) (init None));
    [constructor|vm_compute; reflexivity].
Defined.

(** A child that replaced another has every handler registered on the wrapper,
    in the order of registration. *)
Theorem client_has_the_handlers config w c : reachable config w -> p_client (w_pub w) = Some c ->
  p_attached (w_pub w) !! c = Some (p_handlers (w_pub w)).
Proof. intros Hr. exact (c_attached _ (reachable_settings _ _ Hr) c). Qed.

Lemma client_has_the_handlers_witness :
  let w := after (CallOnEvent 5 :: boot ++ [CallOnEvent 6]) in
  p_handlers (w_pub w) = [5; 6]%positive /\ p_attached (w_pub w) !! 2%positive = Some (p_handlers (w_pub w)).
Proof.
  intros w. split; [vm_compute; reflexivity|].
  apply (client_has_the_handlers None w); [|vm_compute; reflexivity].
  apply (reach_events None (CallOnEvent 5 :: boot ++ [CallOnEvent 6]) (init None)); [constructor|vm_compute; reflexivity].
Defined.
