(* ===== verification/ToolSchema.v ===== *)
(** * Tool schemas and arguments ([kestrel_sdk/tools/base.py])

    The coercion of argument values to the types a schema declares, the
    schemas themselves and their wire forms.  A Python value is a tree
    ([fjson]); [list] and [dict] are [FTuple] and [FMap]. *)

From S2P Require Export ToolResults JsonLoads.

(** ** [int(text)] and [float(text)] *)

(** [str.isalnum] and the value of a decimal digit, beyond ASCII. *)
Record unicode := MkUnicode { uni_alnum : Z -> bool; uni_decimal : Z -> option Z }.

(** The white space that the number readers skip. *)
Definition ascii_space (c : Z) : bool := in_range 9 13 c || (c =? 32).

Definition take_sign (s : pystr) : bool * pystr :=
  match eat 45 s with
  | Some r => (true, r)
  | None => (false, default s (eat 43 s))
  end.

(** Underscores may separate digits, one at a time; they are dropped. *)
Fixpoint no_underscores (after_digit : bool) (s : pystr) : option pystr :=
  match s with
  | [] => Some []
  | c :: r =>
      if c =? 95 then
        match r with
        | d :: _ => if after_digit && is_digit d then no_underscores false r else None
        | [] => None
        end
      else cons c <$> no_underscores (is_digit c) r
  end.

Definition all_digit (s : pystr) : bool := negb (bool_decide (s = [])) && forallb is_digit s.

(** An unsigned decimal literal, as [strtod] reads it to its end. *)
Definition read_decimal (neg : bool) (s : pystr) : option pyfloat :=
  let '(ip, r1) := span is_digit s in
  let '(fp, r2) := match eat 46 r1 with Some r => span is_digit r | None => ([], r1) end in
  if bool_decide (ip ++ fp = []) then None
  else match r2 with
       | [] => Some (float_of_decimal neg (parse_int (ip ++ fp)) (- len fp))
       | e :: r3 =>
           let '(eneg, ds) := take_sign r3 in
           if ((e =? 101) || (e =? 69)) && all_digit ds
           then Some (float_of_decimal neg (parse_int (ip ++ fp))
                        ((if eneg then - parse_int ds else parse_int ds) - len fp))
           else None
       end.

Definition read_float (neg : bool) (s : pystr) : option pyfloat :=
  let l := lower s in
  if bool_decide (l = u "inf") || bool_decide (l = u "infinity") then Some (FInf neg)
  else if bool_decide (l = u "nan") then Some FNaN
  else read_decimal neg s.

Section Coercion.
Variable un : unicode.
(** [sys.get_int_max_str_digits()] *)
Variable max_str_digits : Z.

(** The ASCII text of a number: other decimal digits and spaces are
    translated, anything else becomes a question mark. *)
Definition ascii_number (c : Z) : Z :=
  if c <? 128 then c
  else if is_space c then 32
  else match uni_decimal un c with Some d => 48 + d | None => 63 end.

Definition strip_number (s : pystr) : pystr :=
  rev (drop_while ascii_space (rev (drop_while ascii_space (ascii_number <$> s)))).

(** [int(text)]; [None] for the [ValueError]. *)
Definition py_int (s : pystr) : option Z :=
  let '(neg, b) := take_sign (strip_number s) in
  ds ← no_underscores false b;
  if all_digit ds && ((max_str_digits =? 0) || (len ds <=? max_str_digits))
  then Some (if neg then - parse_int ds else parse_int ds) else None.

(** [float(text)] *)
Definition py_float (s : pystr) : option pyfloat :=
  t ← no_underscores false (strip_number s);
  let '(neg, b) := take_sign t in read_float neg b.

(** [int(value)] of a float with [value.is_integer()], by its exact value. *)
Definition int_of_float (f : pyfloat) : option Z :=
  match f with
  | FFin neg c x =>
      let '(num, den) := decimal_ratio c x in
      '(m, e) ← round_binary64 num den;
      let sgn := if neg then -1 else 1 in
      if 0 <=? e then Some (sgn * (m * 2 ^ e))
      else if m mod 2 ^ (- e) =? 0 then Some (sgn * (m / 2 ^ (- e))) else None
  | _ => None
  end.

(** [float(value)] of an [int], infinite where it raises [OverflowError]. *)
Definition float_of_int (z : Z) : pyfloat := float_of_decimal (z <? 0) (Z.abs z) 0.

(** ** [coerce_json_value] *)

Definition is_none (v : fjson) : bool := match v with FNull => true | _ => false end.

Definition _TRUE_TOKENS : list pystr := [u "true"; u "1"; u "yes"; u "on"].
Definition _FALSE_TOKENS : list pystr := [u "false"; u "0"; u "no"; u "off"].
Definition _COERCED_TYPES : list pystr := [u "integer"; u "number"; u "boolean"].

Definition finite_number (f : pyfloat) : option fjson := if isfinite f then Some (FFloat f) else None.

(** [None] is [COERCION_FAILED].  [lower] is that of ASCII text: no other code
    point has a letter of the tokens as its lower case. *)
Definition coerce_json_value (value : fjson) (param_type : pystr) (nullable : bool) : option fjson :=
  match value with
  | FNull => if nullable || negb (mem param_type _COERCED_TYPES) then Some FNull else None
  | _ =>
      if bool_decide (param_type = u "integer") then
        match value with
        | FInt z => Some (FInt z)
        | FFloat f => FInt <$> int_of_float f
        | FStr s => FInt <$> py_int s
        | _ => None
        end
      else if bool_decide (param_type = u "number") then
        match value with
        | FInt z => finite_number (float_of_int z)
        | FFloat f => finite_number f
        | FStr s => f ← py_float s; finite_number f
        | _ => None
        end
      else if bool_decide (param_type = u "boolean") then
        match value with
        | FBool b => Some (FBool b)
        | FInt z => if (z =? 0) || (z =? 1) then Some (FBool (z =? 1)) else None
        | FStr s =>
            let token := lower (strip s) in
            if mem token _TRUE_TOKENS then Some (FBool true)
            else if mem token _FALSE_TOKENS then Some (FBool false) else None
        | _ => None
        end
      else Some value
  end.

(** ** Parameters and arguments *)

Record ToolParameter := MkToolParameter {
  tp_name : pystr;
  tp_type : pystr;
  tp_description : pystr;
  tp_required : bool;
  tp_default : fjson;
  tp_enum : option (list pystr);
  tp_items : option pydict;
  tp_nullable : bool
}.

Definition _REJECTED_VALUE_REPR_LIMIT : Z := 120.

(** [type(value).__name__] *)
Definition type_name (v : fjson) : pystr :=
  match v with
  | FNull => u "NoneType" | FBool _ => u "bool" | FInt _ => u "int" | FFloat _ => u "float"
  | FStr _ => u "str" | FTuple _ => u "list" | FMap _ => u "dict"
  end.

(** [repr(value)]: it raises for an integer over the digit limit, and for a
    value that nests too deep. *)
Variable repr : fjson -> res pystr.

Definition clip (limit : Z) (s : pystr) : pystr :=
  if limit <? len s then take (Z.to_nat limit) s ++ u "..." else s.

Definition rejection (tool_name : pystr) (p : ToolParameter) (value : fjson) (rendered : pystr) : pystr :=
  tool_name ++ u ": parameter '" ++ tp_name p ++ u "' expects type '" ++ tp_type p ++ u "', but received "
  ++ clip _REJECTED_VALUE_REPR_LIMIT rendered ++ u " (" ++ type_name value ++ u "), which is not a valid " ++ tp_type p.

Fixpoint coerce_parameters (tool_name : pystr) (parameters : list ToolParameter) (coerced : pydict)
    : res (pydict + pystr) :=
  match parameters with
  | [] => Ok (inl coerced)
  | p :: parameters =>
      match dict_lookup (tp_name p) coerced with
      | None => coerce_parameters tool_name parameters coerced
      | Some value =>
          match coerce_json_value value (tp_type p) (tp_nullable p) with
          | None => rendered ← repr value; Ok (inr (rejection tool_name p value rendered))
          | Some result => coerce_parameters tool_name parameters (dict_set (tp_name p) result coerced)
          end
      end
  end.

Definition coerce_tool_arguments (tool_name : pystr) (parameters : list ToolParameter) (arguments : pydict)
    : res (pydict * option pystr) :=
  outcome ← coerce_parameters tool_name parameters arguments;
  Ok match outcome with
     | inl coerced => (coerced, None)
     | inr error => (arguments, Some error)
     end.

(** [validate_parameters]: [None] when the arguments are valid. *)
Definition is_str (v : fjson) : bool := match v with FStr _ => true | _ => false end.
Definition is_int (v : fjson) : bool := match v with FInt _ | FBool _ => true | _ => false end.
Definition is_bool (v : fjson) : bool := match v with FBool _ => true | _ => false end.

Definition validate_value (p : ToolParameter) (value : fjson) : option pystr :=
  let parameter := u "Parameter '" ++ tp_name p ++ u "'" in
  if bool_decide (tp_type p = u "string") && negb (is_str value) then Some (parameter ++ u " must be a string")
  else if bool_decide (tp_type p = u "integer") && negb (is_int value) then Some (parameter ++ u " must be an integer")
  else if bool_decide (tp_type p = u "boolean") && negb (is_bool value) then Some (parameter ++ u " must be a boolean")
  else match tp_enum p with
       | Some ((_ :: _) as enum) =>
           if existsb (fun e => py_eqb value (FStr e)) enum then None
           else Some (parameter ++ u " must be one of: " ++ join (u ", ") enum)
       | _ => None
       end.

Fixpoint validate_parameters (parameters : list ToolParameter) (kwargs : pydict) : option pystr :=
  match parameters with
  | [] => None
  | p :: parameters =>
      match dict_lookup (tp_name p) kwargs with
      | None => if tp_required p then Some (u "Required parameter '" ++ tp_name p ++ u "' is missing")
                else validate_parameters parameters kwargs
      | Some value =>
          match validate_value p value with
          | Some error => Some error
          | None => validate_parameters parameters kwargs
          end
      end
  end.

(** ** Schemas *)

Inductive ToolCategory : Type :=
| MODEL_MANAGEMENT | FILE_OPERATIONS | WEB_SEARCH | MEMORY | COMMUNICATION | SYSTEM
| DATA_ACCESS | COMPUTE | UTILITY | AGENT_MANAGEMENT.

Definition category_value (c : ToolCategory) : pystr :=
  u match c with
    | MODEL_MANAGEMENT => "model_management" | FILE_OPERATIONS => "file_operations"
    | WEB_SEARCH => "web_search" | MEMORY => "memory" | COMMUNICATION => "communication"
    | SYSTEM => "system" | DATA_ACCESS => "data_access" | COMPUTE => "compute"
    | UTILITY => "utility" | AGENT_MANAGEMENT => "agent_management"
    end.

Record ToolSchema := MkToolSchema {
  ts_name : pystr;
  ts_description : pystr;
  ts_category : ToolCategory;
  ts_parameters : list ToolParameter;
  ts_examples : list pydict;
  ts_command_prefix : option pystr;
  ts_is_concurrency_safe : bool;
  ts_model_visible : bool
}.

Definition schema_post_init (name description : pystr) (category : ToolCategory) (parameters : list ToolParameter)
    (examples : list pydict) (command_prefix : option pystr) (concurrency_safe : bool) (model_visible : dyn bool)
    : res ToolSchema :=
  match model_visible with
  | Inst b => Ok (MkToolSchema name description category parameters examples command_prefix concurrency_safe b)
  | Foreign => Raise (TypeError "model_visible must be a boolean")
  end.

Definition opt_str (o : option pystr) : fjson := match o with Some s => FStr s | None => FNull end.

Definition enum_json (enum : option (list pystr)) : fjson :=
  match enum with Some l => FTuple (FStr <$> l) | None => FNull end.

Definition schema_to_dict (s : ToolSchema) : pydict :=
  [(u "name", FStr (ts_name s)); (u "description", FStr (ts_description s));
   (u "category", FStr (category_value (ts_category s)));
   (u "parameters", FTuple ((fun p => FMap
      [(u "name", FStr (tp_name p)); (u "type", FStr (tp_type p)); (u "description", FStr (tp_description p));
       (u "required", FBool (tp_required p)); (u "default", tp_default p); (u "enum", enum_json (tp_enum p))])
      <$> ts_parameters s));
   (u "examples", FTuple (FMap <$> ts_examples s)); (u "command_prefix", opt_str (ts_command_prefix s));
   (u "model_visible", FBool (ts_model_visible s))].

(** The JSON schema of one parameter. *)
Definition property (p : ToolParameter) : pydict :=
  [(u "type", FStr (tp_type p)); (u "description", FStr (tp_description p))]
  ++ (if bool_decide (tp_type p = u "array") then
        [(u "items", FMap match tp_items p with
                          | Some ((_ :: _) as items) => items
                          | _ => [(u "type", FStr (u "object"))]
                          end)]
      else [])
  ++ match tp_enum p with Some (_ :: _) => [(u "enum", enum_json (tp_enum p))] | _ => [] end
  ++ (if negb (is_none (tp_default p)) && negb (tp_required p) then [(u "default", tp_default p)] else []).

Definition to_openai_format (s : ToolSchema) : pydict :=
  let properties := foldl (fun d p => dict_set (tp_name p) (FMap (property p)) d) [] (ts_parameters s) in
  let required := filter (fun p => tp_required p = true) (ts_parameters s) in
  [(u "type", FStr (u "function"));
   (u "function", FMap
      [(u "name", FStr (ts_name s)); (u "description", FStr (ts_description s));
       (u "parameters", FMap
          [(u "type", FStr (u "object")); (u "properties", FMap properties);
           (u "required", FTuple ((fun p => FStr (tp_name p)) <$> required))])])].
End Coercion.
