(* ===== verification/ToolSchemaProps.v ===== *)
(** * Tool arguments: theorems

    Printed numbers are read back, coerced values have the declared types,
    and the arguments of a call are accepted exactly when each coerces. *)

From stdpp Require Import sets.
From S2P Require Export ToolSchema.
From S2P Require Import FrozenJsonProps JsonLoadsProps RpcProtocolProps FrozenJson.

(** ** Reading numbers *)

(** What a printed number is made of. *)
Definition number_char (c : Z) : bool := is_digit c || mem c (u ".e+-").

Lemma number_char_cases c : number_char c = true ->
  0 <= c < 128 /\ ascii_space c = false /\ c <> 95.
Proof.
  unfold number_char, ascii_space, is_digit, in_range. intros H. apply orb_true_iff in H as [H|H]; [lia|].
  apply mem_true in H. change (u ".e+-") with [46; 101; 43; 45] in H. rewrite !list.elem_of_cons, elem_of_nil in H. lia.
Qed.

Lemma drop_while_padded {A} (p : A -> bool) a t :
  forallb p a = true -> Forall (fun c => p c = false) t -> t <> [] -> forall r, drop_while p (a ++ t ++ r) = t ++ r.
Proof.
  intros Ha Ht Hn r. induction a as [|c a IH]; cbn [forallb app drop_while] in *.
  - destruct Ht as [|c t Hc _]; [done|]. cbn [app drop_while]. by rewrite Hc.
  - apply andb_true_iff in Ha as [-> Ha]. by apply IH.
Qed.

Lemma trim_padded {A} (p : A -> bool) a t b :
  forallb p a = true -> forallb p b = true -> Forall (fun c => p c = false) t -> t <> [] ->
  rev (drop_while p (rev (drop_while p (a ++ t ++ b)))) = t.
Proof.
  intros Ha Hb Ht Hn. rewrite drop_while_padded, rev_app_distr by done.
  rewrite <- (app_nil_r (rev t)), drop_while_padded, app_nil_r; [apply rev_involutive| |by apply Forall_rev|].
  - rewrite forallb_forall in *. intros x Hx. apply Hb. by apply in_rev.
  - intros H. apply (f_equal (@rev A)) in H. rewrite rev_involutive in H. by apply Hn.
Qed.

Lemma span_nil {A} (p : A -> bool) l a : span p l = (a, []) -> l = a /\ Forall (fun x => p x = true) a.
Proof.
  revert a; induction l as [|x l IH]; cbn; intros a; [by intros [= <-]|].
  destruct (p x) eqn:Hx; [|done]. destruct (span p l) as [b r]. intros [= <- ->]. destruct (IH b eq_refl) as [-> Hb].
  by split; [|constructor].
Qed.

Section Numbers.
Context (un : unicode) (msd : Z).

Lemma strip_number_padded a t b :
  forallb ascii_space a = true -> forallb ascii_space b = true -> Forall (fun c => number_char c = true) t -> t <> [] ->
  strip_number un (a ++ t ++ b) = t.
Proof.
  intros Ha Hb Ht Hn. unfold strip_number.
  assert (Hid : ascii_number un <$> (a ++ t ++ b) = a ++ t ++ b).
  { assert (Hs : forall s, forallb ascii_space s = true -> ascii_number un <$> s = s).
    { induction s as [|c s IH]; [done|]. cbn [forallb]. intros H. apply andb_true_iff in H as [H Hs]. rewrite fmap_cons. rewrite IH by done. f_equal. unfold ascii_number.
      unfold ascii_space, in_range in H. by replace (c <? 128) with true by lia. }
    rewrite !fmap_app, (Hs a), (Hs b) by done. do 2 f_equal. clear -Ht. induction Ht as [|c t Hc _ IH]; [done|]. rewrite fmap_cons, IH. f_equal.
    unfold ascii_number. destruct (number_char_cases c Hc) as (? & _). by replace (c <? 128) with true by lia. }
  rewrite Hid. apply trim_padded; [done..| |done]. eapply list.Forall_impl; [exact Ht|].
  intros c Hc. by destruct (number_char_cases c Hc) as (_ & ? & _).
Qed.

Lemma no_underscores_number t b : Forall (fun c => number_char c = true) t -> no_underscores b t = Some t.
Proof.
  intros Ht. revert b. induction Ht as [|c t Hc _ IH]; intros b; [done|]. cbn.
  destruct (number_char_cases c Hc) as (_ & _ & Hu). replace (c =? 95) with false by lia. by rewrite IH.
Qed.

Lemma number_digits ds : all_digits ds -> Forall (fun c => number_char c = true) ds.
Proof. intros H. eapply list.Forall_impl; [exact H|]. intros c Hc. cbn in Hc. unfold number_char. by rewrite Hc. Qed.

Lemma all_digit_true ds : all_digits ds -> ds <> [] -> all_digit ds = true.
Proof.
  intros H Hn. unfold all_digit. rewrite bool_decide_false by done. cbn. apply forallb_forall.
  intros c Hc. unfold all_digits in H; rewrite list.Forall_forall in H. apply H. by apply list_elem_of_In.
Qed.

Lemma take_sign_digit c s : is_digit c = true -> take_sign (c :: s) = (false, c :: s).
Proof.
  intros Hc. unfold is_digit, in_range in Hc. unfold take_sign, eat.
  replace (c =? 45) with false by lia. by replace (c =? 43) with false by lia.
Qed.

(** [int(str(z)) == z], with white space around. *)
Lemma py_int_repr z a b :
  int_printable msd z = true -> forallb ascii_space a = true -> forallb ascii_space b = true ->
  py_int un msd (a ++ int_repr z ++ b) = Some z.
Proof.
  intros Hz Ha Hb. set (ds := digits (Z.abs z)).
  assert (Hd : all_digits ds) by (apply digits_all; lia). assert (Hn : ds <> []) by apply digits_nonempty.
  assert (E : int_repr z = (if z <? 0 then u "-" else []) ++ ds).
  { unfold int_repr, ds. destruct (Z.ltb_spec z 0); cbn [app]; do 2 f_equal; lia. }
  unfold py_int. rewrite strip_number_padded; [|done|done| |].
  - assert (Hs : take_sign (int_repr z) = (z <? 0, ds)).
    { rewrite E. destruct (z <? 0); [done|]. cbn [app]. destruct ds as [|c ds']; [done|].
      apply take_sign_digit. by apply list.Forall_cons in Hd as [? _]. }
    rewrite Hs, no_underscores_number by (by apply number_digits). cbn [mbind option_bind].
    rewrite all_digit_true by done. unfold int_printable in Hz. fold ds in Hz.
    rewrite Hz. cbn [andb]. unfold ds. rewrite digits_parse by lia.
    f_equal. destruct (Z.ltb_spec z 0); lia.
  - rewrite E. apply Forall_app. split; [destruct (z <? 0); by repeat constructor|by apply number_digits].
  - rewrite E. by destruct (z <? 0), ds.
Qed.

(** A JSON number that is a float is read alike by [float]. *)
Lemma read_decimal_scan neg s f :
  scan_unsigned msd neg s = Ok (FFloat f, []) -> read_decimal neg s = Some f.
Proof.
  intros H. unfold scan_unsigned in H. destruct s as [|c s1]; [done|].
  destruct (is_digit c) eqn:Hc; [|done]. cbn [negb] in H.
  set (p := if c =? 48 then _ else _) in H. destruct p as [ds r] eqn:Ep.
  destruct (scan_fraction r) as [frac r1] eqn:Ef, (scan_exponent r1) as [expo r2] eqn:Ee.
  assert (Hne : frac <> None \/ expo <> None).
  { destruct frac; [by left|]. destruct expo; [by right|]. apply bind_Ok in H as (t & Ht & [= -> _]).
    unfold read_int in Ht. by apply bind_Ok in Ht as (? & _ & [=]). }
  assert (Hs : span is_digit (c :: s1) = (ds, r)).
  { subst p. destruct (Z.eqb_spec c 48) as [->|]; [|done]. injection Ep as <- <-.
    cbn. destruct s1 as [|d s1]; [done|]. cbn. destruct (is_digit d) eqn:Hd; [|done]. exfalso.
    assert (Hx : scan_fraction (d :: s1) = (None, d :: s1) /\ scan_exponent (d :: s1) = (None, d :: s1)).
    { unfold is_digit, in_range in Hd. unfold scan_fraction, scan_exponent, eat.
      replace (d =? 46) with false by lia. replace ((d =? 101) || (d =? 69)) with false by lia. done. }
    destruct Hx as [Hx1 Hx2]. rewrite Hx1 in Ef. injection Ef as <- <-. rewrite Hx2 in Ee. injection Ee as <- <-.
    by destruct Hne. }
  assert (Hds : ds <> []).
  { cbn [span] in Hs. rewrite Hc in Hs. destruct (span is_digit s1). by injection Hs as <- _. }
  unfold read_decimal. rewrite Hs. unfold scan_fraction in Ef.
  set (fp := default [] frac).
  assert (Hf : (match eat 46 r with Some r0 => span is_digit r0 | None => ([], r) end) = (fp, r1)
               \/ (frac = None /\ r1 = r /\ exists r0, eat 46 r = Some r0)).
  { destruct (eat 46 r) as [r0|]; [|injection Ef as <- <-; by left].
    destruct (span is_digit r0) as [[|d f'] r'] eqn:Hr0; injection Ef as <- <-; [right; eauto|by left]. }
  destruct Hf as [Hf|(-> & -> & r0 & Hr0)].
  - rewrite Hf, bool_decide_false by (by destruct ds).
    destruct r1 as [|e r3].
    + injection Ee as <- <-. by destruct frac; [injection H as <-|destruct Hne].
    + unfold scan_exponent in Ee. destruct ((e =? 101) || (e =? 69)) eqn:He; [|injection Ee as <- <-; by destruct frac; destruct Hne].
      unfold take_sign. destruct (eat 45 r3) as [r4|].
      all: match type of Ee with context [span is_digit ?x] => destruct (span is_digit x) as [[|d f'] r'] eqn:Hr4 end.
      1,3: injection Ee as <- <-; by destruct frac; destruct Hne.
      all: injection Ee as <- <-.
      all: assert (r' = []) as -> by (by destruct frac; injection H).
      all: destruct (span_nil is_digit _ _ Hr4) as [Ex Ha]; rewrite andb_true_l.
      all: match goal with |- context [all_digit ?y] => replace y with (d :: f') by done end.
      all: rewrite all_digit_true by done.
      all: by destruct frac; injection H as <-.
  - exfalso. destruct r as [|x r]; [done|]. cbn in Hr0. destruct (Z.eqb_spec x 46) as [->|]; [|done].
    cbn in Ee. injection Ee as <- <-. by destruct Hne.
Qed.

Lemma magnitude_chars coef expo : 0 <= coef -> Forall (fun c => number_char c = true) (magnitude coef expo).
Proof.
  intros Hc. assert (Hd : all_digits (digits coef)) by (by apply digits_all).
  assert (He : forall e, all_digits (digits (Z.abs e))) by (intros e; apply digits_all; lia).
  unfold magnitude. repeat case_match; rewrite ?Forall_app; split_and?;
    auto using number_digits, zeros_digits, Forall_take, Forall_drop; try (by repeat constructor).
  all: try (constructor; [reflexivity|]); auto using number_digits, Forall_take, Forall_drop.
  all: try (apply number_digits; first [apply Forall_take | apply Forall_drop | apply zeros_digits]; done).
  all: destruct (_ =? 1); [constructor|constructor; [reflexivity|apply number_digits; by apply Forall_drop]].
Qed.

(** [float(repr(f)) == f], with white space around. *)
Lemma py_float_repr neg coef expo a b :
  float_wf (FFin neg coef expo) -> forallb ascii_space a = true -> forallb ascii_space b = true ->
  py_float un (a ++ float_repr (FFin neg coef expo) ++ b) = Some (FFin neg coef expo).
Proof.
  intros Hf Ha Hb. pose proof (scan_magnitude msd neg coef expo [] Hf I) as Hm. rewrite app_nil_r in Hm.
  destruct (scan_unsigned_head _ _ _ _ Hm) as (c & s & E & Hd). apply read_decimal_scan in Hm.
  assert (Hn : Forall (fun c => number_char c = true) (float_repr (FFin neg coef expo))).
  { rewrite float_repr_magnitude. apply Forall_app. split; [destruct neg; by repeat constructor|].
    apply magnitude_chars, Hf. }
  unfold py_float. rewrite strip_number_padded; [|done..|].
  - rewrite no_underscores_number by done. cbn [mbind option_bind].
    assert (Hs : take_sign (float_repr (FFin neg coef expo)) = (neg, magnitude coef expo)).
    { rewrite float_repr_magnitude. destruct neg; [done|]. cbn [app]. rewrite E. by apply take_sign_digit. }
    rewrite Hs. unfold read_float. rewrite !bool_decide_false; [done|..]; rewrite E; cbn; intros [= Hx _];
      unfold is_digit, is_upper, in_range in *; destruct ((65 <=? c) && (c <=? 90)) eqn:?; lia.
  - rewrite float_repr_magnitude, E. by destruct neg.
Qed.
End Numbers.

(** ** Dicts *)

Lemma dict_lookup_None k (d : pydict) : dict_lookup k d = None <-> k ∉ d.*1.
Proof.
  induction d as [|[j x] d IH]; [by split; [intros _ []%elem_of_nil|]|]. cbn. case_decide; [set_solver|]. rewrite IH. set_solver.
Qed.

Lemma dict_lookup_Some k v (d : pydict) : dict_lookup k d = Some v -> (k, v) ∈ d.
Proof.
  induction d as [|[j x] d IH]; [done|]. cbn. case_decide as E; [intros [= ->]; subst; by left|]. right. by apply IH.
Qed.

Lemma dict_set_keys k r (d : pydict) v : dict_lookup k d = Some v -> (dict_set k r d).*1 = d.*1.
Proof.
  induction d as [|[j x] d IH]; [done|]. cbn. case_decide as E; [by subst|]. intros H. cbn. by rewrite IH.
Qed.

Lemma dict_lookup_set_ne k j r (d : pydict) : j <> k -> dict_lookup j (dict_set k r d) = dict_lookup j d.
Proof.
  intros Hne. induction d as [|[i x] d IH]; cbn; [by rewrite decide_False|]. case_decide as E; cbn.
  - subst i. by rewrite !decide_False.
  - by rewrite IH.
Qed.

(** ** Coerced values *)

(** What a method whose signature declares [ty] may be handed. *)
Definition typed (ty : pystr) (v : fjson) : Prop :=
  (ty = u "integer" -> exists z, v = FInt z)
  /\ (ty = u "number" -> exists f, v = FFloat f /\ isfinite f = true)
  /\ (ty = u "boolean" -> exists b, v = FBool b).

Lemma finite_number_Some f v : finite_number f = Some v -> v = FFloat f /\ isfinite f = true.
Proof. unfold finite_number. destruct (isfinite f); [by intros [= <-]|done]. Qed.

Lemma coerce_typed un msd v ty nullable v' : coerce_json_value un msd v ty nullable = Some v' ->
  (v' = FNull /\ v = FNull /\ (nullable = true \/ ty ∉ _COERCED_TYPES)) \/ (v <> FNull /\ typed ty v').
Proof.
  intros H. destruct v as [|b|z|f|s|l|m].
  { cbn in H. destruct nullable; [injection H as <-; left; auto|]. cbn in H.
    destruct (mem ty _COERCED_TYPES) eqn:Hm; [done|]. injection H as <-. apply mem_false in Hm. left; auto. }
  all: right; split; [done|]; unfold coerce_json_value in H; unfold typed.
  all: case_bool_decide as H1; [subst ty; split; [intros _|by split]|
    case_bool_decide as H2; [subst ty; split; [done|split; [intros _|done]]|
    case_bool_decide as H3; [subst ty; split; [done|split; [done|intros _]]|by split_and!]]].
  all: repeat case_match; simplify_option_eq; eauto using finite_number_Some.
  all: first [exists f; by apply finite_number_Some | by eexists; apply finite_number_Some|idtac].
Qed.

Section Arguments.
Context (un : unicode) (msd : Z) (repr : fjson -> res pystr).

Definition find_parameter (ps : list ToolParameter) (k : pystr) : option ToolParameter :=
  List.find (fun p => bool_decide (tp_name p = k)) ps.

(** What a call makes of one argument. *)
Definition coerced_at (ps : list ToolParameter) (kv : pystr * fjson) : option (pystr * fjson) :=
  match find_parameter ps kv.1 with
  | Some p => pair kv.1 <$> coerce_json_value un msd kv.2 (tp_type p) (tp_nullable p)
  | None => Some kv
  end.

Lemma coerced_at_other p ps kv : kv.1 <> tp_name p -> coerced_at (p :: ps) kv = coerced_at ps kv.
Proof. intros H. unfold coerced_at, find_parameter. cbn. by rewrite bool_decide_false. Qed.

Lemma coerced_at_self p ps v :
  coerced_at (p :: ps) (tp_name p, v) = pair (tp_name p) <$> coerce_json_value un msd v (tp_type p) (tp_nullable p).
Proof. unfold coerced_at, find_parameter. cbn. by rewrite bool_decide_true. Qed.

Lemma coerced_at_none ps k v : k ∉ tp_name <$> ps -> coerced_at ps (k, v) = Some (k, v).
Proof.
  intros H. unfold coerced_at, find_parameter. cbn. destruct (List.find _ ps) as [p|] eqn:E; [|done].
  apply List.find_some in E as [Hp E]. apply bool_decide_eq_true in E as <-. destruct H.
  apply list_elem_of_fmap_2. by apply list_elem_of_In.
Qed.

Lemma mapM_other p ps (c : pydict) : tp_name p ∉ c.*1 -> mapM (coerced_at (p :: ps)) c = mapM (coerced_at ps) c.
Proof.
  intros H. induction c as [|kv c IH]; [done|]. rewrite fmap_cons, list.elem_of_cons in H.
  cbn [mapM]. rewrite coerced_at_other, IH; [done|set_solver..].
Qed.

Lemma mapM_set p ps (c : pydict) v r :
  NoDup c.*1 -> tp_name p ∉ tp_name <$> ps -> dict_lookup (tp_name p) c = Some v ->
  coerce_json_value un msd v (tp_type p) (tp_nullable p) = Some r ->
  mapM (coerced_at (p :: ps)) c = mapM (coerced_at ps) (dict_set (tp_name p) r c).
Proof.
  intros Hnd Hp Hl Hr. induction c as [|[k x] c IH]; [done|]. cbn in Hl |- *. rewrite fmap_cons in Hnd.
  apply list.NoDup_cons in Hnd as [Hk Hnd]. case_decide as E.
  - subst k. injection Hl as ->. cbn [mapM]. rewrite mapM_other by done. rewrite (coerced_at_none ps) by done.
    by rewrite coerced_at_self, Hr.
  - cbn [mapM]. rewrite coerced_at_other by (cbn; congruence). by rewrite IH.
Qed.

(** The value a parameter was given cannot be its type. *)
Definition rejected (ps : list ToolParameter) (c : pydict) (p : ToolParameter) (v : fjson) : Prop :=
  p ∈ ps /\ dict_lookup (tp_name p) c = Some v /\ coerce_json_value un msd v (tp_type p) (tp_nullable p) = None.

Lemma rejected_later p ps c r q v : tp_name p ∉ tp_name <$> ps ->
  rejected ps (dict_set (tp_name p) r c) q v -> rejected (p :: ps) c q v.
Proof.
  intros Hp (Hq & Hx & Hn). split_and!; [by right| |done]. rewrite dict_lookup_set_ne in Hx; [done|].
  intros E. apply Hp. rewrite <- E. by apply list_elem_of_fmap_2.
Qed.

Lemma coerce_parameters_exact tool ps c :
  NoDup (tp_name <$> ps) -> NoDup c.*1 ->
  match coerce_parameters un msd repr tool ps c with
  | Ok (inl c') => mapM (coerced_at ps) c = Some c'
  | Ok (inr e) => mapM (coerced_at ps) c = None
                  /\ exists p v s, rejected ps c p v /\ repr v = Ok s /\ e = rejection tool p v s
  | Raise e => mapM (coerced_at ps) c = None /\ exists p v, rejected ps c p v /\ repr v = Raise e
  end.
Proof.
  revert c. induction ps as [|p ps IH]; intros c Hps Hc; cbn [coerce_parameters].
  { clear. induction c as [|kv c IH]; [done|]. cbn [mapM]. change (coerced_at [] kv) with (Some kv). by rewrite IH. }
  rewrite fmap_cons in Hps. apply list.NoDup_cons in Hps as [Hp Hps].
  destruct (dict_lookup (tp_name p) c) as [v|] eqn:Hl.
  - destruct (coerce_json_value un msd v _ _) as [r|] eqn:Hr.
    + rewrite (mapM_set p ps c v r) by done.
      specialize (IH (dict_set (tp_name p) r c) Hps). rewrite (dict_set_keys _ _ _ _ Hl) in IH. specialize (IH Hc).
      destruct (coerce_parameters _ _ _ _ _ _) as [[c'|e]|e]; [done|..].
      * destruct IH as (Hm & q & x & s & Hq & ?). split; [done|]. exists q, x, s. split; [by eapply rejected_later|done].
      * destruct IH as (Hm & q & x & Hq & ?). split; [done|]. exists q, x. split; [by eapply rejected_later|done].
    + assert (Hm : mapM (coerced_at (p :: ps)) c = None).
      { apply mapM_None, list.Exists_exists. exists (tp_name p, v).
        split; [by apply dict_lookup_Some|]. by rewrite coerced_at_self, Hr. }
      assert (Hj : rejected (p :: ps) c p v) by (split_and!; [by left|done..]).
      destruct (repr v) as [s|e] eqn:He; cbn [mbind result_bind]; (split; [done|]); [by exists p, v, s|by exists p, v].
  - rewrite mapM_other by (by apply dict_lookup_None). specialize (IH c Hps Hc).
    destruct (coerce_parameters _ _ _ _ _ _) as [[c'|e]|e]; [done|..].
    + destruct IH as (Hm & q & x & s & (Hq & Hx) & ?). split; [done|]. exists q, x, s. by split; [split; [right|]|].
    + destruct IH as (Hm & q & x & (Hq & Hx) & ?). split; [done|]. exists q, x. by split; [split; [right|]|].
Qed.

(** The lengths of the literals in the goal. *)
Ltac len_literals :=
  repeat match goal with |- context [len (u ?s)] => let n := eval vm_compute in (len (u s)) in change (len (u s)) with n end.

Lemma clip_length limit s : 0 <= limit -> len (clip limit s) <= limit + 3.
Proof.
  intros Hl. unfold clip. destruct (Z.ltb_spec limit (len s)); [|lia]. rewrite len_app. change (len (u "...")) with 3.
  unfold len. rewrite length_take. lia.
Qed.

(** C28. The arguments of a tool call are accepted exactly when each one that a
    parameter declares coerces to its type, and the method then receives those
    values in place of the originals, under the same names in the same order.
    Otherwise it receives none: the arguments come back unchanged, with a
    message that names a rejected parameter and is bounded whatever the text of
    the value; or, when Python cannot print a rejected value (an integer over
    the digit limit), the exception of its [repr] leaves the function. *)
Theorem tool_arguments_exact tool ps args :
  NoDup (tp_name <$> ps) -> NoDup args.*1 ->
  (forall c, coerce_tool_arguments un msd repr tool ps args = Ok (c, None) <-> mapM (coerced_at ps) args = Some c)
  /\ (forall c e, coerce_tool_arguments un msd repr tool ps args = Ok (c, Some e) -> c = args /\
        exists p v s, rejected ps args p v /\ repr v = Ok s /\ e = rejection tool p v s
          /\ len e <= len tool + len (tp_name p) + 2 * len (tp_type p) + 209)
  /\ (forall e, coerce_tool_arguments un msd repr tool ps args = Raise e ->
        exists p v, rejected ps args p v /\ repr v = Raise e).
Proof.
  intros Hps Ha. unfold coerce_tool_arguments. pose proof (coerce_parameters_exact tool ps args Hps Ha) as H.
  destruct (coerce_parameters _ _ _ _ _ _) as [[c'|e']|e']; cbn [mbind result_bind].
  - split_and!; [|done..]. intros c. rewrite H. split; congruence.
  - destruct H as (Hm & p & v & s & Hr & Hs & He). split_and!; [intros c; rewrite Hm; done| |done].
    intros c e [= <- <-]. split; [done|]. exists p, v, s. split_and!; [done..|]. rewrite He. unfold rejection.
    rewrite !len_app. pose proof (clip_length _REJECTED_VALUE_REPR_LIMIT s ltac:(done)) as Hc.
    assert (Ht : len (type_name v) <= 8) by by destruct v.
    change _REJECTED_VALUE_REPR_LIMIT with 120 in *. len_literals. lia.
  - destruct H as (Hm & p & v & Hr & He). split_and!; [intros c; rewrite Hm; done|done|].
    intros e [= <-]. by exists p, v.
Qed.
End Arguments.

Lemma ascii_space_space s : forallb ascii_space s = true -> forallb is_space s = true.
Proof.
  rewrite !forallb_forall. intros H c Hc. specialize (H c Hc). unfold ascii_space, is_space, in_range in *. lia.
Qed.

(** What the text of a printed number or truth value coerces to, whatever
    white space surrounds it: the value itself.  So a model that sends a
    number as a string, and a user who types it, are both understood. *)
Theorem printed_values_coerce un msd a b nullable :
  forallb ascii_space a = true -> forallb ascii_space b = true ->
  (forall z, int_printable msd z = true ->
     coerce_json_value un msd (FStr (a ++ int_repr z ++ b)) (u "integer") nullable = Some (FInt z))
  /\ (forall neg c e, float_wf (FFin neg c e) ->
     coerce_json_value un msd (FStr (a ++ float_repr (FFin neg c e) ++ b)) (u "number") nullable
       = Some (FFloat (FFin neg c e)))
  /\ (forall x : bool,
     coerce_json_value un msd (FStr (a ++ u (if x then "True" else "False") ++ b)) (u "boolean") nullable
       = Some (FBool x)).
Proof.
  intros Ha Hb. split_and!.
  - intros z Hz. unfold coerce_json_value. rewrite bool_decide_true, py_int_repr by done. done.
  - intros neg c e Hf. unfold coerce_json_value. rewrite bool_decide_false, bool_decide_true by done.
    by rewrite py_float_repr by done.
  - intros x. unfold coerce_json_value. rewrite !bool_decide_false, bool_decide_true by done.
    unfold strip. rewrite trim_padded; [by destruct x|by apply ascii_space_space..|by destruct x; repeat constructor|by destruct x].
Qed.

Definition no_unicode : unicode := MkUnicode (fun _ => false) (fun _ => None).
Definition a_parameter (name type : string) : ToolParameter :=
  MkToolParameter (u name) (u type) [] false FNull None None false.

(** Text of scalars only, and the refusal of a long integer. *)
Definition short_repr (v : fjson) : res pystr :=
  match v with
  | FInt z => if int_printable 4300 z then Ok (int_repr z) else Raise (ValueError "Exceeds the limit for integer string conversion")
  | FStr s => Ok (u "'" ++ s ++ u "'")
  | _ => Ok []
  end.

(** A rejected integer that Python does not print leaves as a [ValueError],
    not as the message for the model. *)
Lemma oversized_value_escapes :
  coerce_tool_arguments no_unicode 4300 short_repr (u "mute") [a_parameter "on" "boolean"] [(u "on", FInt (10 ^ 4300))]
  = Raise (ValueError "Exceeds the limit for integer string conversion").
Proof. vm_compute. reflexivity. Qed.

Lemma tool_arguments_exact_witness :
  coerce_tool_arguments no_unicode 4300 short_repr (u "search") [a_parameter "max_results" "integer"]
    [(u "max_results", FStr (u "30")); (u "query", FStr (u "30"))]
  = Ok ([(u "max_results", FInt 30); (u "query", FStr (u "30"))], None)
  /\ exists e, coerce_tool_arguments no_unicode 4300 short_repr (u "search") [a_parameter "max_results" "integer"]
       [(u "max_results", FStr (u "many"))] = Ok ([(u "max_results", FStr (u "many"))], Some e)
       /\ len e <= 6 + 11 + 2 * 7 + 209.
Proof.
  split.
  2:{ assert (H1 : NoDup (tp_name <$> [a_parameter "max_results" "integer"])) by (apply (bool_decide_unpack _); vm_compute; exact I).
      assert (H2 : NoDup [(u "max_results", FStr (u "many"))].*1) by (apply (bool_decide_unpack _); vm_compute; exact I).
      destruct (coerce_tool_arguments no_unicode 4300 short_repr (u "search") [a_parameter "max_results" "integer"]
        [(u "max_results", FStr (u "many"))]) as [[c [e|]]|e] eqn:E; [|vm_compute in E; discriminate E..].
      destruct (proj1 (proj2 (tool_arguments_exact no_unicode 4300 short_repr (u "search")
        [a_parameter "max_results" "integer"] [(u "max_results", FStr (u "many"))]
        H1 H2)) c e E) as [-> (p & v & s & (Hp & _) & _ & _ & Hl)].
      exists e. split; [done|]. apply list_elem_of_singleton in Hp as ->. exact Hl. }
  refine (proj2 (proj1 (tool_arguments_exact no_unicode 4300 short_repr (u "search")
    [a_parameter "max_results" "integer"] [(u "max_results", FStr (u "30")); (u "query", FStr (u "30"))] _ _) _) _);
    [by apply (bool_decide_unpack _); vm_compute|by apply (bool_decide_unpack _); vm_compute|vm_compute; reflexivity].
Defined.

Lemma printed_values_coerce_witness :
  coerce_json_value no_unicode 4300 (FStr (u " 2.5 ")) (u "number") false = Some (FFloat (FFin false 25 (-1))).
Proof.
  refine (proj1 (proj2 (printed_values_coerce no_unicode 4300 (u " ") (u " ") false _ _)) false 25 (-1) _);
    [reflexivity|reflexivity|split; [lia|vm_compute; reflexivity]].
Defined.
