(* ===== verification/CommandLine.v ===== *)
(** * Command lines ([kestrel_sdk/tools/base.py])

    How a [!command] line becomes the arguments of a tool: the tokenizer, the
    binding of positional and named values, and their conversion. *)

From S2P Require Export ToolSchema.

(** ** Tokens *)

Record token := MkToken { ct_text : pystr; ct_name : option pystr; ct_value : option pystr }.

Definition is_quote (c : Z) : bool := (c =? 34) || (c =? 39).

(** The quoted value whose opening quote was just read, and the rest of the
    line after its closing quote. *)
Fixpoint _read_quoted (quote : Z) (s : pystr) : res (pystr * pystr) :=
  match s with
  | [] => Raise (CommandParseError "unbalanced quote")
  | c :: r =>
      if c =? quote then
        match r with
        | d :: _ => if is_space d then Ok ([], r)
                    else Raise (CommandParseError "unexpected text after the closing quote")
        | [] => Ok ([], [])
        end
      else
        match r with
        | d :: r' => if (quote =? 34) && (c =? 92) && ((d =? 34) || (d =? 92))
                     then put d (_read_quoted quote r') else put c (_read_quoted quote r)
        | [] => put c (_read_quoted quote r)
        end
  end.

Definition not_space (c : Z) : bool := negb (is_space c).

Section Lines.
Variable un : unicode.
(** The interpreter's limits on JSON text. *)
Variable limits : json_limits.

(** [\d] and [\w] *)
Definition digit_char (c : Z) : bool := if c <? 128 then is_digit c else bool_decide (is_Some (uni_decimal un c)).
Definition word_char (c : Z) : bool := if c <? 128 then is_alnum c || (c =? 95) else uni_alnum un c.

(** The name of a [name=] head, and the text after it. *)
Definition _NAMED_TOKEN (s : pystr) : option (pystr * pystr) :=
  match s with
  | c :: _ =>
      if word_char c && negb (digit_char c) then
        let '(name, r) := span word_char s in
        after ← eat 61 r; Some (name, after)
      else None
  | [] => None
  end.

(** The token at the start of a line, and the rest of the line. *)
Definition read_word (s : pystr) : token * pystr :=
  let '(w, rest) := span not_space s in
  (match _NAMED_TOKEN s with
   | Some (name, _) => MkToken w (Some name) (Some (drop (S (length name)) w))
   | None => MkToken w None None
   end, rest).

Definition read_token (s : pystr) : res (token * pystr) :=
  match s with
  | c :: r =>
      if is_quote c then
        '(value, rest) ← _read_quoted c r; Ok (MkToken value None None, rest)
      else
        match _NAMED_TOKEN s with
        | Some (name, q :: r') =>
            if is_quote q then
              '(value, rest) ← _read_quoted q r';
              Ok (MkToken (name ++ u "=" ++ value) (Some name) (Some value), rest)
            else Ok (read_word s)
        | _ => Ok (read_word s)
        end
  | [] => Ok (read_word s)
  end.

(** One unit of fuel per token and one for the end. *)
Fixpoint tokenize (fuel : nat) (line : pystr) : res (list token) :=
  match fuel with
  | O => Raise FuelExhausted
  | S fuel =>
      match drop_while is_space line with
      | [] => Ok []
      | s => '(t, rest) ← read_token s; ts ← tokenize fuel rest; Ok (t :: ts)
      end
  end.

Definition _tokenize_command (line : pystr) : res (list token) := tokenize (S (length line)) line.

(** ** Binding *)

(** [s.split()] and [s.split(maxsplit=n)] *)
Definition py_split (s : pystr) : list pystr := filter (fun w => w <> []) (split_on is_space s).

Definition rstrip (s : pystr) : pystr := rev (drop_while is_space (rev s)).

Fixpoint split_max (n : nat) (s : pystr) : list pystr :=
  match drop_while is_space s with
  | [] => []
  | s' =>
      match n with
      | O => [rstrip s']
      | S n => let '(w, r) := span not_space s' in w :: split_max n r
      end
  end.

(** [{param.name: param for param in schema.parameters}] *)
Fixpoint set_parameter (p : ToolParameter) (l : list (pystr * ToolParameter)) : list (pystr * ToolParameter) :=
  match l with
  | [] => [(tp_name p, p)]
  | (n, q) :: l => if bool_decide (n = tp_name p) then (n, p) :: l else (n, q) :: set_parameter p l
  end.

Definition parameters_by_name (ps : list ToolParameter) : list (pystr * ToolParameter) :=
  foldl (fun l p => set_parameter p l) [] ps.

(** Positional values come first; only a declared name binds. *)
Definition sort_token (names : list pystr) (acc : list pystr * list (pystr * pystr)) (t : token)
    : res (list pystr * list (pystr * pystr)) :=
  let '(positional, named) := acc in
  match ct_name t with
  | Some n =>
      if mem n names then Ok (positional, named ++ [(n, default [] (ct_value t))])
      else if bool_decide (named = []) then Ok (positional ++ [ct_text t], named)
      else Raise (CommandParseError "positional value follows a name=value argument")
  | None =>
      if bool_decide (named = []) then Ok (positional ++ [ct_text t], named)
      else Raise (CommandParseError "positional value follows a name=value argument")
  end.

Definition supply (supplied : list (pystr * pystr)) (nv : pystr * pystr) : res (list (pystr * pystr)) :=
  if mem nv.1 supplied.*1 then Raise (CommandParseError "parameter is given twice") else Ok (supplied ++ [nv]).

Fixpoint lookup_text (k : pystr) (l : list (pystr * pystr)) : option pystr :=
  match l with [] => None | (n, v) :: l => if bool_decide (n = k) then Some v else lookup_text k l end.

Definition _coerce_type (text param_type : pystr) : fjson :=
  default (FStr text) (coerce_json_value un limits (FStr text) param_type false).

Definition has_shape (param_type : pystr) (v : fjson) : bool :=
  match v with
  | FMap _ => bool_decide (param_type = u "object")
  | FTuple _ => negb (bool_decide (param_type = u "object"))
  | _ => false
  end.

Definition _convert_command_value (p : ToolParameter) (text : pystr) : res fjson :=
  if bool_decide (tp_type p = u "object") || bool_decide (tp_type p = u "array") then
    match loads limits text with
    | Ok v =>
        if is_none v && tp_nullable p then Ok FNull
        else if has_shape (tp_type p) v then Ok v
        else Raise (CommandParseError "parameter expects JSON of its type")
    | Raise (JSONDecodeError _) => Raise (CommandParseError "parameter expects JSON of its type")
    | Raise e => Raise e
    end
  else Ok (_coerce_type text (tp_type p)).

Definition bind_parameter (supplied : list (pystr * pystr)) (args : pydict) (np : pystr * ToolParameter) : res pydict :=
  let '(name, p) := np in
  match lookup_text name supplied with
  | Some text => v ← _convert_command_value p text; Ok (args ++ [(name, v)])
  | None => Ok (if is_none (tp_default p) then args else args ++ [(name, tp_default p)])
  end.

Definition can_handle_command (s : ToolSchema) (user_input : pystr) : bool :=
  match ts_command_prefix s with
  | Some ((_ :: _) as prefix) => bool_decide (take (length prefix) (strip user_input) = prefix)
  | _ => false
  end.

(** The text after the words of the prefix. *)
Definition command_arguments (s : ToolSchema) (line : pystr) : pystr :=
  let command := match ts_command_prefix s with
                 | Some ((_ :: _) as prefix) => prefix
                 | _ => default [] (head (py_split line))
                 end in
  let n := length (py_split command) in
  default [] (split_max n line !! n).

Definition bind_tokens (parameters : list (pystr * ToolParameter)) (tokens : list token) : res pydict :=
  '(positional, named) ← foldM (sort_token parameters.*1) ([], []) tokens;
  _ ← raise_if (bool_decide (length parameters < length positional)%nat) (CommandParseError "too many arguments");
  supplied ← foldM supply (zip parameters.*1 positional) named;
  foldM (bind_parameter supplied) [] parameters.

Definition parse_command_args (s : ToolSchema) (user_input : pystr) : res pydict :=
  let line := strip user_input in
  if bool_decide (head line = Some 33) then
    tokens ← _tokenize_command (command_arguments s line);
    bind_tokens (parameters_by_name (ts_parameters s)) tokens
  else Ok [].
End Lines.
