(* ===== verification/CommandLineProps.v ===== *)
(** * Command lines: theorems

    The tokenizer always returns; text without quotes is split like
    [str.split]; and a line written with quotes binds exactly the values that
    were quoted, whatever they are. *)

From stdpp Require Import sets.
From S2P Require Export CommandLine ToolSchemaProps.
From S2P Require Import ValidationProps FrozenJsonProps JsonLoadsProps FrozenJson.

(** ** Spans *)

Lemma span_app {A} (p : A -> bool) l a b : span p l = (a, b) -> l = a ++ b.
Proof.
  revert a; induction l as [|x l IH]; cbn; intros a; [by intros [= <- <-]|].
  destruct (p x); [|by intros [= <- <-]]. destruct (span p l) as [a' b']. intros [= <- <-]. by rewrite (IH a' eq_refl).
Qed.

Lemma span_true {A} (p : A -> bool) l a b : span p l = (a, b) -> forallb p a = true.
Proof.
  revert a; induction l as [|x l IH]; cbn; intros a; [by intros [= <- _]|].
  destruct (p x) eqn:Hx; [|by intros [= <- _]]. destruct (span p l) as [a' b']. intros [= <- <-]. cbn. by rewrite Hx, (IH a' eq_refl).
Qed.

Lemma span_padded {A} (p : A -> bool) a r :
  forallb p a = true -> match r with [] => True | x :: _ => p x = false end -> span p (a ++ r) = (a, r).
Proof.
  intros Ha Hr. induction a as [|x a IH]; cbn [forallb app span] in *.
  - destruct r as [|x r]; [done|]. cbn. by rewrite Hr.
  - apply andb_true_iff in Ha as [-> Ha]. by rewrite IH.
Qed.

(** ** Reading quoted values *)

(** A value between double quotes. *)
Definition escape_quoted (c : Z) : pystr := if (c =? 34) || (c =? 92) then [92; c] else [c].
Definition quoted (v : pystr) : pystr := [34] ++ (v ≫= escape_quoted) ++ [34].

(** What may follow a token. *)
Definition ends_word (r : pystr) : Prop := match r with [] => True | c :: _ => is_space c = true end.

Lemma read_quoted_escape v r : ends_word r -> _read_quoted 34 ((v ≫= escape_quoted) ++ [34] ++ r) = Ok (v, r).
Proof.
  intros Hr. induction v as [|c v IH].
  - cbn. destruct r as [|d r]; [done|]. cbn in Hr. by rewrite Hr.
  - change ((c :: v) ≫= escape_quoted) with (escape_quoted c ++ (v ≫= escape_quoted)). rewrite <- app_assoc.
    unfold escape_quoted at 1. destruct ((c =? 34) || (c =? 92)) eqn:Hc.
    + cbn [app _read_quoted]. change (92 =? 34) with false. change (92 =? 92) with true.
      rewrite Hc. cbn [andb Z.eqb Pos.eqb]. cbn [app] in IH. by rewrite IH.
    + cbn [app] in *. apply orb_false_iff in Hc as [H1 H2]. cbn [_read_quoted]. rewrite H1, H2, andb_false_r. cbn [andb].
      destruct ((v ≫= escape_quoted) ++ 34 :: r) as [|d l] eqn:E; [by destruct (v ≫= escape_quoted)|].
      by rewrite IH.
Qed.

(** ** The tokenizer returns *)

(** [m] leaves less than [n] characters, or refuses the command. *)
Definition consumes {A} (n : nat) (m : res (A * pystr)) : Prop :=
  match m with Ok (_, r) => (length r < n)%nat | Raise e => exists s, e = CommandParseError s end.

Lemma consumes_put {A} n n' (x : A) m : consumes n m -> (n <= n')%nat -> consumes n' (put x m).
Proof. destruct m as [[l r]|e]; cbn; [lia|done]. Qed.

Lemma read_quoted_consumes q s : consumes (length s) (_read_quoted q s).
Proof.
  assert (H : forall n s, (length s <= n)%nat -> consumes (length s) (_read_quoted q s)); [|by apply (H (length s))].
  clear s. induction n as [|n IH]; intros [|c r] Hl; cbn [length] in *; [by eexists|lia|by eexists|].
  cbn [_read_quoted]. destruct (c =? q).
  { destruct r as [|d r']; [cbn; lia|]. destruct (is_space d); [cbn; lia|by eexists]. }
  destruct r as [|d r']; [eapply consumes_put; [apply IH; cbn; lia|cbn; lia]|].
  destruct (_ && _); (eapply consumes_put; [apply IH; cbn in *; lia|cbn; lia]).
Qed.

Section Lines.
Context (un : unicode).

Lemma named_shorter s name r : _NAMED_TOKEN un s = Some (name, r) -> s = name ++ 61 :: r /\ name <> [].
Proof.
  unfold _NAMED_TOKEN. destruct s as [|c s]; [done|]. destruct (_ && _) eqn:Hc; [|done].
  destruct (span (word_char un) (c :: s)) as [n r'] eqn:Es. intros H. apply bind_Some in H as (r0 & He & [= -> ->]).
  apply span_app in Es as Ea. rewrite Ea. unfold eat in He. destruct r' as [|x r']; [done|].
  destruct (Z.eqb_spec x 61) as [->|]; [|done]. injection He as ->. split; [done|].
  cbn in Es. apply andb_true_iff in Hc as [Hc _]. rewrite Hc in Es. destruct (span _ s). by injection Es as <- _.
Qed.

Lemma read_word_shorter c s : is_space c = false -> (length (read_word un (c :: s)).2 < length (c :: s))%nat.
Proof.
  intros Hc. unfold read_word. cbn [span]. unfold not_space at 1. rewrite Hc. cbn [negb].
  destruct (span not_space s) as [w r] eqn:Es. apply span_length in Es. cbn. lia.
Qed.

Lemma read_token_consumes c s : is_space c = false -> consumes (length (c :: s)) (read_token un (c :: s)).
Proof.
  intros Hc. unfold read_token. destruct (is_quote c).
  { pose proof (read_quoted_consumes c s) as H. destruct (_read_quoted c s) as [[v r]|e]; [cbn in *; lia|done]. }
  pose proof (read_word_shorter c s Hc) as Hw. destruct (_NAMED_TOKEN un (c :: s)) as [[n [|q r]]|] eqn:Hn.
  1,3: by destruct (read_word un (c :: s)).
  destruct (is_quote q); [|by destruct (read_word un (c :: s))].
  apply named_shorter in Hn as [Hn _]. rewrite Hn, length_app. cbn [length].
  pose proof (read_quoted_consumes q r) as H. destruct (_read_quoted q r) as [[v r']|e]; [cbn in *; lia|done].
Qed.

Lemma drop_while_first {A} (p : A -> bool) l : 
  match drop_while p l with [] => True | x :: _ => p x = false end /\ (length (drop_while p l) <= length l)%nat.
Proof. induction l as [|x l IH]; cbn; [done|]. destruct (p x) eqn:Hx; [split; [apply IH|lia]|by split]. Qed.

Lemma tokenize_errors fuel line e :
  (length line < fuel)%nat -> tokenize un fuel line = Raise e -> exists s, e = CommandParseError s.
Proof.
  revert line. induction fuel as [|fuel IH]; intros line Hl H; [lia|]. cbn [tokenize] in H.
  destruct (drop_while_first is_space line) as [Hf Hd]. destruct (drop_while is_space line) as [|c s]; [done|].
  pose proof (read_token_consumes c s Hf) as Hc. destruct (read_token un (c :: s)) as [[t r]|e']; [|by injection H as ->].
  cbn in H. destruct (tokenize un fuel r) as [ts|e'] eqn:Et; [done|]. injection H as ->.
  apply (IH r); [cbn in *; lia|done].
Qed.
End Lines.

(** ** Errors *)

(** An exception of [parse_command_args]: the documented one, or that of an
    integer too long or a nesting too deep for the interpreter, inside the JSON
    of a value. *)
Definition command_error (ps : list ToolParameter) (e : exn) : Prop :=
  (exists m, e = CommandParseError m)
  \/ ((e = ValueError "Exceeds the limit for integer string conversion" \/ e = too_deep_to_read)
      /\ exists p, p ∈ ps /\ (tp_type p = u "object" \/ tp_type p = u "array")).

Lemma foldM_Raise {E S A} (f : S -> A -> result E S) s l e :
  foldM f s l = Raise e -> exists s' x, x ∈ l /\ f s' x = Raise e.
Proof.
  revert s; induction l as [|x l IH]; intros s H; [done|]. cbn in H. apply bind_Raise in H as [H|(s' & _ & H)].
  - exists s, x. split; [by left|done].
  - destruct (IH _ H) as (s2 & y & Hy & He). exists s2, y. split; [by right|done].
Qed.

Lemma set_parameter_elem p l q : q ∈ set_parameter p l -> q = (tp_name p, p) \/ q ∈ l.
Proof.
  induction l as [|[n x] l IH]; cbn; [set_solver|]. case_bool_decide as E; [subst n; set_solver|].
  rewrite list.elem_of_cons. intros [->|H]; [set_solver|]. destruct (IH H); set_solver.
Qed.

Lemma parameters_by_name_elem ps n p : (n, p) ∈ parameters_by_name ps -> n = tp_name p /\ p ∈ ps.
Proof.
  unfold parameters_by_name. assert (H : forall l, (n, p) ∈ foldl (fun l p => set_parameter p l) l ps ->
    (n, p) ∈ l \/ (n = tp_name p /\ p ∈ ps)).
  { induction ps as [|q ps IH]; cbn; intros l Hl; [by left|]. apply IH in Hl as [Hl|[-> Hl]]; [|set_solver].
    apply set_parameter_elem in Hl as [[= -> ->]|Hl]; [set_solver|by left]. }
  intros Hp. destruct (H [] Hp) as [Hn|]; [by apply elem_of_nil in Hn|done].
Qed.

Section Errors.
Context (un : unicode) (limits : json_limits).

Lemma convert_error p text e : _convert_command_value un limits p text = Raise e ->
  (exists m, e = CommandParseError m)
  \/ ((e = ValueError "Exceeds the limit for integer string conversion" \/ e = too_deep_to_read)
      /\ (tp_type p = u "object" \/ tp_type p = u "array")).
Proof.
  unfold _convert_command_value. destruct (_ || _) eqn:Ht; [|done].
  assert (Hp : tp_type p = u "object" \/ tp_type p = u "array").
  { apply orb_true_iff in Ht as [H|H]; apply bool_decide_eq_true in H; auto. }

  destruct (loads limits text) as [v|x] eqn:Hl.
  - destruct (_ && _); [done|]. destruct (has_shape _ _); [done|]. intros [= <-]. left. by eexists.
  - destruct (loads_errors _ _ _ Hl) as [[m ->]|[-> | ->]]; intros [= <-]; [left; by eexists|right; auto..].
Qed.

(** C29. [parse_command_args] always returns or raises; its exceptions are
    [CommandParseError], except for two that [json.loads] raises on the value
    of an object or array: the plain [ValueError] of an integer over the digit
    limit, and the [RecursionError] of a value that nests too deep. *)
Theorem command_errors s user_input e :
  parse_command_args un limits s user_input = Raise e -> command_error (ts_parameters s) e.
Proof.
  unfold parse_command_args. case_bool_decide as Hb; [|done]. intros H.
  apply bind_Raise in H as [H|(ts & _ & H)]; [left; eapply tokenize_errors; [|exact H]; lia|].
  unfold bind_tokens in H. apply bind_Raise in H as [H|([pos named] & _ & H)].
  { apply foldM_Raise in H as ([p n] & t & _ & H). unfold sort_token in H. left.
    repeat case_match; simplify_eq; by eexists. }
  apply bind_Raise in H as [H|(_ & _ & H)].
  { apply raise_if_Raise in H as [_ <-]. left. by eexists. }
  apply bind_Raise in H as [H|(supplied & _ & H)].
  { apply foldM_Raise in H as (p & t & _ & H). unfold supply in H. left. case_match; simplify_eq. by eexists. }
  apply foldM_Raise in H as (args & [n p] & Hp & H). apply parameters_by_name_elem in Hp as [-> Hp].
  cbn in H. destruct (lookup_text _ _) as [text|]; [|done]. apply bind_Raise in H as [H|(v & _ & H)]; [|done].
  destruct (convert_error _ _ _ H) as [?|[? ?]]; [by left|right]. split; [done|]. by exists p.
Qed.
End Errors.

(** ** Text without quotes *)

Lemma forallb_not_space w : forallb not_space w = true <-> Forall (fun c => is_space c = false) w.
Proof.
  rewrite forallb_forall, list.Forall_forall. unfold not_space. split; intros H c Hc.
  - apply list_elem_of_In in Hc. specialize (H c Hc). by destruct (is_space c).
  - apply list_elem_of_In in Hc. by rewrite (H c Hc).
Qed.

Lemma split_space c s : is_space c = true -> py_split (c :: s) = py_split s.
Proof. intros Hc. unfold py_split. cbn [split_on]. by rewrite Hc. Qed.

Lemma split_word w r : w <> [] -> forallb not_space w = true -> ends_word r -> py_split (w ++ r) = w :: py_split r.
Proof.
  intros Hn Hw Hr. destruct r as [|c r]; unfold py_split; rewrite split_on_prefix by done; cbn [split_on].
  - by rewrite app_nil_r, filter_cons_True.
  - cbn in Hr. rewrite Hr, app_nil_r, filter_cons_True by done. done.
Qed.

Lemma split_drop s : py_split s = py_split (drop_while is_space s).
Proof.
  induction s as [|c s IH]; [done|]. cbn [drop_while]. destruct (is_space c) eqn:Hc; [by rewrite split_space|done].
Qed.

Lemma span_word s w r : span not_space s = (w, r) -> forallb not_space w = true /\ ends_word r /\ s = w ++ r.
Proof.
  intros H. split_and!; [by apply span_true in H| |by apply span_app in H].
  revert w H; induction s as [|c s IH]; cbn; intros w; [by intros [= _ <-]|]. unfold not_space at 1.
  destruct (is_space c) eqn:Hc; cbn; [by intros [= _ <-]|]. destruct (span not_space s) as [w' r'].
  intros [= _ ->]. by eapply IH.
Qed.

Section Plain.
Context (un : unicode).
(** No white space is alphanumeric. *)
Hypothesis space_not_alnum : forall c, is_space c = true -> uni_alnum un c = false.

(** A word in which no quote opens a value. *)
Definition plain_word (w : pystr) : Prop :=
  match w with c :: _ => is_quote c = false | [] => True end
  /\ forall name q r, _NAMED_TOKEN un w = Some (name, q :: r) -> is_quote q = false.

Lemma word_char_not_space c : word_char un c = true -> not_space c = true.
Proof.
  unfold word_char, not_space. destruct (is_space c) eqn:Hs; [|done]. rewrite (space_not_alnum c Hs).
  unfold is_space, is_alnum, is_digit, is_upper, is_lower, in_range in *. destruct (Z.ltb_spec c 128); lia.
Qed.

Lemma named_token_word w r name q r' : forallb not_space w = true -> ends_word r -> w <> [] ->
  _NAMED_TOKEN un (w ++ r) = Some (name, q :: r') -> is_quote q = true -> exists w', _NAMED_TOKEN un w = Some (name, q :: w').
Proof.
  intros Hw Hr Hn H Hq. unfold _NAMED_TOKEN in *. destruct w as [|c w]; [done|]. cbn [app] in H.
  destruct (_ && _); [|done]. destruct (span (word_char un) (c :: w ++ r)) as [n x] eqn:Es.
  apply bind_Some in H as (after & He & [= -> ->]). unfold eat in He. destruct x as [|e x]; [done|].
  destruct (Z.eqb_spec e 61) as [->|]; [|done]. injection He as ->.
  assert (Hp : (c :: w) ++ r = (name ++ [61; q]) ++ r') by (apply span_app in Es; cbn; rewrite Es; by rewrite <- app_assoc).
  apply span_true in Es as Hname.
  assert (Hns : forallb not_space (name ++ [61; q]) = true).
  { rewrite forallb_app. apply andb_true_iff. split.
    - apply forallb_forall. intros y Hy. apply word_char_not_space. rewrite forallb_forall in Hname. by apply Hname.
    - unfold is_quote in Hq. cbn. unfold not_space, is_space, in_range. lia. }
  apply app_eq_inv in Hp as [(k & E & _)|(k & E & E2)].
  - exists k. rewrite E, <- app_assoc. rewrite span_padded by done. done.
  - destruct k as [|y k]; [exists []; rewrite app_nil_r in E; rewrite <- E, span_padded by done; done|].
    subst r. cbn in Hr. rewrite E, forallb_app in Hns. apply andb_true_iff in Hns as [_ Hns]. cbn in Hns.
    unfold not_space at 1 in Hns. by rewrite Hr in Hns.
Qed.

Lemma read_token_plain w r : w <> [] -> forallb not_space w = true -> ends_word r -> plain_word w ->
  exists t, read_token un (w ++ r) = Ok (t, r) /\ ct_text t = w.
Proof.
  intros Hn Hw Hr [Hq Hnamed].
  assert (Hword : exists t, Ok (read_word un (w ++ r)) = (Ok (t, r) : res (token * pystr)) /\ ct_text t = w).
  { unfold read_word. rewrite span_padded; [|done|destruct r; [done|]; cbn in *; unfold not_space; by rewrite Hr].
    eexists. split; [done|]. by destruct (_NAMED_TOKEN un (w ++ r)) as [[n a]|]. }
  unfold read_token. destruct w as [|c w]; [done|]. cbn [app] in *. rewrite Hq.
  destruct (_NAMED_TOKEN un (c :: w ++ r)) as [[name [|q r']]|] eqn:E; [done| |done].
  destruct (is_quote q) eqn:Hqq; [|done]. apply (named_token_word (c :: w)) in E as [w' E]; [|done..].
  apply Hnamed in E. congruence.
Qed.

(** C35. Text in which no quote opens a value reaches the tool as [str.split] cuts
    it: an apostrophe or JSON inside a word changes nothing. *)
Theorem plain_text_verbatim line : Forall plain_word (py_split line) ->
  exists ts, _tokenize_command un line = Ok ts /\ ct_text <$> ts = py_split line.
Proof.
  unfold _tokenize_command. intros Hp. assert (Hf : (length line < S (length line))%nat) by lia.
  revert Hp Hf. generalize (S (length line)) as fuel. intros fuel. revert line.
  induction fuel as [|fuel IH]; intros line Hp Hf; [lia|]. cbn [tokenize]. rewrite split_drop in Hp |- *.
  destruct (drop_while_first is_space line) as [Hc Hl]. destruct (drop_while is_space line) as [|c s]; [by exists []|].
  destruct (span not_space (c :: s)) as [w r] eqn:Es. apply span_word in Es as Ew. destruct Ew as (Hw & Hr & E).
  assert (Hn : w <> []). { intros ->. cbn in Es. unfold not_space in Es at 1. rewrite Hc in Es. by destruct (span not_space s). }
  rewrite E in *. rewrite split_word in Hp |- * by done. apply list.Forall_cons in Hp as [Hpw Hp].
  destruct (read_token_plain w r Hn Hw Hr Hpw) as (t & -> & Ht). cbn [mbind result_bind].
  destruct (IH r Hp) as (ts & -> & Hts); [rewrite length_app in Hl; destruct w; cbn in *; [done|lia]|].
  exists (t :: ts). cbn. by rewrite Ht, Hts.
Qed.
End Plain.

(** ** Lines written with quotes *)

(** The names Python accepts for a parameter, in ASCII. *)
Definition python_name (n : pystr) : Prop :=
  match n with
  | c :: _ => is_digit c = false
  | [] => False
  end /\ Forall (fun c => 0 <= c < 128 /\ is_alnum c || (c =? 95) = true) n.

Definition named_arg (nv : pystr * pystr) : pystr := nv.1 ++ u "=" ++ quoted nv.2.

Definition named_token (nv : pystr * pystr) : token := MkToken (nv.1 ++ u "=" ++ nv.2) (Some nv.1) (Some nv.2).

Lemma quoted_app v r : quoted v ++ r = 34 :: (v ≫= escape_quoted) ++ [34] ++ r.
Proof. unfold quoted. by rewrite <- !app_assoc. Qed.

Section Quoted.
Context (un : unicode) (limits : json_limits).

(** [text] is read as the token [t]. *)
Definition reads (it : pystr * token) : Prop :=
  (exists c s, it.1 = c :: s /\ is_space c = false) /\ (exists s, it.1 = s ++ [34])
  /\ forall r, ends_word r -> read_token un (it.1 ++ r) = Ok (it.2, r).

Lemma reads_quoted v : reads (quoted v, MkToken v None None).
Proof.
  split_and!; [by eexists _, _|by exists ([34] ++ (v ≫= escape_quoted)); unfold quoted; rewrite <- app_assoc|].
  intros r Hr. cbn [fst snd]. rewrite quoted_app. cbn [read_token]. change (is_quote 34) with true.
  by rewrite read_quoted_escape.
Qed.

Lemma named_token_name n s : python_name n -> _NAMED_TOKEN un (n ++ 61 :: s) = Some (n, s).
Proof.
  intros [Hd Hn]. destruct n as [|c n]; [done|].
  assert (Hw : forallb (word_char un) (c :: n) = true).
  { apply forallb_forall. intros x Hx. rewrite list.Forall_forall in Hn. apply list_elem_of_In, Hn in Hx as [Hx Hx'].
    unfold word_char. by replace (x <? 128) with true by lia. }
  unfold _NAMED_TOKEN. cbn [app]. change (c :: n ++ 61 :: s) with ((c :: n) ++ 61 :: s).
  rewrite span_padded by done. cbn [forallb] in Hw. apply andb_true_iff in Hw as [-> _].
  apply list.Forall_cons in Hn as [[Hc _] _]. unfold digit_char. replace (c <? 128) with true by lia. by rewrite Hd.
Qed.

Lemma reads_named nv : python_name nv.1 -> reads (named_arg nv, named_token nv).
Proof.
  intros Hn. destruct nv as [n v]. unfold named_arg, named_token. cbn [fst snd] in *.
  assert (Hc : exists c s, n = c :: s /\ is_space c = false /\ is_quote c = false).
  { destruct Hn as [Hd Hn]. destruct n as [|c n]; [done|]. exists c, n. split; [done|].
    apply list.Forall_cons in Hn as [[_ Hc] _]. unfold is_alnum, is_digit, is_upper, is_lower, is_space, is_quote, in_range in *.
    split; lia. }
  destruct Hc as (c & s & -> & Hs & Hq). split_and!.
  - by exists c, (s ++ u "=" ++ quoted v).
  - exists ((c :: s) ++ u "=" ++ [34] ++ (v ≫= escape_quoted)). cbn [fst]. unfold quoted. by rewrite <- !app_assoc.
  - intros r Hr. cbn [fst snd]. unfold read_token. rewrite <- !app_assoc. cbn [app]. rewrite Hq.
    change (u "=") with [61]. cbn [app]. rewrite quoted_app.
    change (c :: s ++ 61 :: 34 :: (v ≫= escape_quoted) ++ [34] ++ r) with ((c :: s) ++ 61 :: 34 :: (v ≫= escape_quoted) ++ [34] ++ r).
    rewrite named_token_name by done. change (is_quote 34) with true. by rewrite read_quoted_escape.
Qed.

Lemma join_step sep x l : join sep (x :: l) = x ++ match l with [] => [] | _ => sep ++ join sep l end.
Proof. destruct l; cbn; [by rewrite app_nil_r|done]. Qed.

Lemma tokenize_items its fuel : Forall reads its -> (length its < fuel)%nat ->
  tokenize un fuel (join (u " ") its.*1) = Ok its.*2.
Proof.
  intros H. revert fuel. induction H as [|[s t] its Hr _ IH]; intros fuel Hf; (destruct fuel as [|fuel]; [lia|]); [done|].
  rewrite fmap_cons, join_step. destruct Hr as ((c & s' & E & Hc) & _ & Hr). cbn [fst snd] in *.
  set (rest := match its.*1 with [] => [] | _ => _ end).
  assert (Hd : drop_while is_space (s ++ rest) = s ++ rest) by (rewrite E; by apply drop_while_head).
  cbn [tokenize]. rewrite Hd, E. cbn [app]. change (c :: s' ++ rest) with ((c :: s') ++ rest). rewrite <- E, Hr.
  - cbn [mbind result_bind].
    assert (Ht : tokenize un fuel rest = Ok its.*2); [|by rewrite Ht].
    cbn [length] in Hf. rewrite <- (IH fuel) by lia. unfold rest. destruct its as [|it its]; [done|].
    destruct fuel as [|fuel]; [cbn in Hf; lia|]. rewrite fmap_cons. done.
  - unfold rest. by destruct (its.*1).
Qed.

(** ** The words of the prefix *)

Definition prefix_word (w : pystr) : Prop := w <> [] /\ forallb not_space w = true.

Lemma join_app_words ws l : ws <> [] ->
  join (u " ") (ws ++ l) = join (u " ") ws ++ match l with [] => [] | _ => u " " ++ join (u " ") l end.
Proof.
  intros Hn. induction ws as [|w ws IH]; [done|]. cbn [app]. rewrite !join_step. destruct ws as [|v ws].
  - cbn [app]. by rewrite app_nil_r.
  - cbn [app] in *. rewrite IH by done. by rewrite <- !app_assoc.
Qed.

Lemma split_join ws : Forall prefix_word ws -> py_split (join (u " ") ws) = ws.
Proof.
  induction 1 as [|w ws [Hn Hw] _ IH]; [done|]. rewrite join_step. destruct ws as [|v ws].
  - by rewrite split_word.
  - rewrite split_word by done. change (u " " ++ ?l) with (32 :: l). by rewrite split_space, IH.
Qed.

Lemma split_max_space n s : split_max n (32 :: s) = split_max n s.
Proof. by destruct n. Qed.

Lemma rstrip_quote s : rstrip (s ++ [34]) = s ++ [34].
Proof. unfold rstrip. rewrite rev_app_distr. cbn. by rewrite rev_involutive. Qed.

Lemma join_ends its : Forall reads its -> its <> [] -> exists s, join (u " ") its.*1 = s ++ [34].
Proof.
  induction 1 as [|[s t] its (_ & [s' E] & _) _ IH]; [done|]. intros _. rewrite fmap_cons, join_step. cbn [fst] in *. subst s.
  destruct its as [|it its]; [exists s'; by rewrite app_nil_r|]. destruct IH as [r Hr]; [done|].
  rewrite fmap_cons in *. rewrite Hr. exists ((s' ++ [34]) ++ u " " ++ r). by rewrite <- !app_assoc.
Qed.

Lemma split_max_words ws its : Forall prefix_word ws -> Forall reads its ->
  default [] (split_max (length ws) (join (u " ") (ws ++ its.*1)) !! length ws) = join (u " ") its.*1.
Proof.
  intros Hws Hits. induction Hws as [|w ws [Hn Hw] _ IH].
  - cbn [app length]. destruct its as [|[s t] its]; [done|]. destruct (join_ends _ Hits) as [e He]; [done|].
    apply list.Forall_cons in Hits as [((c & s' & E & Hc) & _) _]. rewrite He. cbn [fst] in E.
    rewrite fmap_cons, join_step, E in He. cbn [app fst] in He. cbn [split_max].
    assert (Hd : drop_while is_space (e ++ [34]) = e ++ [34]).
    { rewrite <- He. cbn [drop_while]. by rewrite Hc. }
    rewrite Hd. destruct (e ++ [34]) as [|x l] eqn:El; [by destruct e|]. cbn -[rstrip]. by rewrite <- El, rstrip_quote.
  - cbn [app length]. rewrite join_step. set (rest := match ws ++ its.*1 with [] => [] | _ => _ end).
    destruct w as [|c w]; [done|]. cbn [split_max].
    assert (Hc : is_space c = false) by (cbn in Hw; apply andb_true_iff in Hw as [Hc _]; by apply negb_true_iff in Hc).
    assert (Hd : drop_while is_space ((c :: w) ++ rest) = (c :: w) ++ rest) by (cbn [app drop_while]; by rewrite Hc).
    rewrite Hd. cbn [app]. change (c :: w ++ rest) with ((c :: w) ++ rest).
    assert (Hr : match rest with [] => True | x :: _ => not_space x = false end) by (unfold rest; by destruct (ws ++ its.*1)).
    rewrite (span_padded not_space (c :: w) rest Hw Hr).
    change ((?x :: ?l) !! S ?n) with (l !! n). rewrite <- IH. do 2 f_equal. unfold rest.
    destruct (ws ++ its.*1) as [|v l] eqn:E; [by destruct ws|]. exact (split_max_space _ _).
Qed.

(** A line whose prefix words are [ws], the first of them starting with [!]. *)
Definition command_words (ws : list pystr) : Prop :=
  Forall prefix_word ws /\ exists w l, ws = (33 :: w) :: l.

Lemma line_arguments s ws its : ts_command_prefix s = Some (join (u " ") ws) -> command_words ws -> Forall reads its ->
  let line := join (u " ") (ws ++ its.*1) in
  strip line = line /\ head line = Some 33 /\ command_arguments s line = join (u " ") its.*1.
Proof.
  intros Hp [Hws (w & l & E)] Hits line.
  assert (Hh : head line = Some 33) by (unfold line; subst ws; cbn [app]; by rewrite join_step).
  split_and!; [|done|].
  - apply strip_trimmed.
    + destruct line as [|c r]; [done|]. by injection Hh as ->.
    + unfold line. destruct its as [|it its].
      * rewrite app_nil_r. clear -Hws E. assert (Hn : ws <> []) by by subst. clear E.
        induction Hws as [|v vs [Hv Hv'] Hvs IH]; [done|]. rewrite join_step, rev_app_distr. destruct vs as [|x vs].
        -- cbn [rev app]. destruct (rev v) as [|c r] eqn:Er; [done|]. apply forallb_not_space in Hv'.
           rewrite list.Forall_forall in Hv'. apply Hv'. apply list_elem_of_In. apply in_rev. rewrite Er. by left.
        -- rewrite rev_app_distr. specialize (IH ltac:(done)).
           destruct (rev (join (u " ") (x :: vs))) as [|c r] eqn:Er; [|done].
           apply (f_equal length) in Er. rewrite length_rev, join_step, length_app in Er. cbn [length] in Er.
           apply list.Forall_cons in Hvs as [[Hx _] _]. destruct x; [done|]. cbn in Er. lia.
      * rewrite join_app_words by by subst. destruct (join_ends _ Hits) as [e He]; [done|].
        rewrite fmap_cons in *. rewrite He, !rev_app_distr. done.
  - unfold command_arguments. rewrite Hp. destruct (join (u " ") ws) as [|c r] eqn:Ej.
    { subst ws. rewrite join_step in Ej. by destruct l. }
    rewrite <- Ej, split_join by done. by apply split_max_words.
Qed.
End Quoted.

(** ** Binding *)

Section Binding.
Context (un : unicode) (limits : json_limits).

(** The argument of a parameter: the value it was given, converted, or its
    default. *)
Definition given (supplied : list (pystr * pystr)) (p : ToolParameter) : res pydict :=
  match lookup_text (tp_name p) supplied with
  | Some text => v ← _convert_command_value un limits p text; Ok [(tp_name p, v)]
  | None => Ok (if is_none (tp_default p) then [] else [(tp_name p, tp_default p)])
  end.

Lemma set_parameter_fresh p l : tp_name p ∉ l.*1 -> set_parameter p l = l ++ [(tp_name p, p)].
Proof.
  induction l as [|[n q] l IH]; [done|]. cbn. intros H. rewrite bool_decide_false by set_solver. rewrite IH by set_solver. done.
Qed.

Lemma parameters_by_name_nodup ps : NoDup (tp_name <$> ps) -> parameters_by_name ps = (fun p => (tp_name p, p)) <$> ps.
Proof.
  unfold parameters_by_name. intros H.
  assert (Hg : forall l, (forall p, p ∈ ps -> tp_name p ∉ l.*1) ->
    foldl (fun l p => set_parameter p l) l ps = l ++ ((fun p => (tp_name p, p)) <$> ps)); [|by rewrite Hg by set_solver].
  induction ps as [|p ps IH]; intros l Hl; cbn; [by rewrite app_nil_r|]. rewrite fmap_cons in H.
  apply list.NoDup_cons in H as [Hp H]. rewrite set_parameter_fresh by (apply Hl; by left). rewrite IH; [by rewrite <- app_assoc|done|].
  intros q Hq. rewrite fmap_app. cbn. rewrite elem_of_app, list_elem_of_singleton. intros [Hx|E].
  - destruct (Hl q); [by right|done].
  - apply Hp. rewrite <- E. by apply list_elem_of_fmap_2.
Qed.

Lemma sort_positional names pos acc :
  foldM (sort_token names) (acc, []) ((fun v => MkToken v None None) <$> pos) = Ok (acc ++ pos, []).
Proof.
  revert acc; induction pos as [|v pos IH]; intros acc; cbn; [by rewrite app_nil_r|]. by rewrite IH, <- app_assoc.
Qed.

Lemma sort_named names pos named acc : Forall (fun nv => nv.1 ∈ names) named ->
  foldM (sort_token names) (pos, acc) (named_token <$> named) = Ok (pos, acc ++ named).
Proof.
  intros H. revert acc; induction H as [|[n v] named Hn _ IH]; intros acc; cbn; [by rewrite app_nil_r|].
  replace (mem n names) with true by (symmetry; by apply mem_true). cbn. by rewrite IH, <- app_assoc.
Qed.

Lemma fst_zip_take {A B} (l : list A) (k : list B) : (zip l k).*1 = take (length k) l.
Proof. revert k; induction l as [|x l IH]; intros [|y k]; [done..|]. cbn. f_equal. apply IH. Qed.

Lemma supply_named named acc : NoDup (acc.*1 ++ named.*1) -> foldM supply acc named = Ok (acc ++ named).
Proof.
  revert acc; induction named as [|[n v] named IH]; intros acc H; cbn; [by rewrite app_nil_r|].
  assert (Hs : supply acc (n, v) = Ok (acc ++ [(n, v)])).
  { unfold supply. cbn [fst]. destruct (mem n _) eqn:Hm; [|done]. exfalso.
    apply mem_true in Hm. apply list.NoDup_app in H as (_ & H & _). destruct (H n Hm). by left. }
  rewrite Hs. cbn [mbind result_bind]. rewrite IH; [by rewrite <- app_assoc|]. rewrite fmap_app. cbn.
  by rewrite <- app_assoc.
Qed.

Lemma bind_given supplied ps acc :
  foldM (bind_parameter un limits supplied) acc ((fun p => (tp_name p, p)) <$> ps)
  = (values ← traverse (given supplied) ps; Ok (acc ++ concat values)).
Proof.
  revert acc; induction ps as [|p ps IH]; intros acc; cbn [fmap list_fmap foldM traverse].
  - cbn. by rewrite app_nil_r.
  - assert (Hb : bind_parameter un limits supplied acc (tp_name p, p)
                 = (x ← given supplied p; Ok (acc ++ x))).
    { unfold bind_parameter, given. destruct (lookup_text _ _) as [t|].
      - by destruct (_convert_command_value _ _ _ _).
      - destruct (is_none _); cbn; [by rewrite app_nil_r|done]. }
    rewrite Hb. destruct (given supplied p) as [x|e]; [|done]. cbn [mbind result_bind]. rewrite IH.
    destruct (traverse _ ps) as [values|e]; [|done]. cbn. by rewrite <- app_assoc.
Qed.

(** C8. A line that gives values between double quotes - the positional ones
    first, then [name=value] - binds exactly those values, whatever they are:
    white space, quotes, backslashes, [name=] and [!] included.  Each reaches
    its parameter with the text that was quoted, converted to the declared
    type - for an object or array the JSON value of that text, and the line is
    refused with the exception of the first value that is not one - and the
    parameters not given take their defaults.  The prefix of the command is
    one or more words, the first of which starts with [!]; parameter names are
    distinct, and those given by name are ASCII identifiers. *)
Theorem quoted_values_bind s ws pos named :
  ts_command_prefix s = Some (join (u " ") ws) -> command_words ws ->
  NoDup (tp_name <$> ts_parameters s) ->
  (length pos <= length (ts_parameters s))%nat ->
  Forall (fun nv => python_name nv.1 /\ nv.1 ∈ tp_name <$> ts_parameters s) named ->
  NoDup (take (length pos) (tp_name <$> ts_parameters s) ++ named.*1) ->
  parse_command_args un limits s (join (u " ") (ws ++ (quoted <$> pos) ++ (named_arg <$> named)))
  = (values ← traverse (given (zip (tp_name <$> ts_parameters s) pos ++ named)) (ts_parameters s); Ok (concat values)).
Proof.
  intros Hp Hws Hnd Hlen Hn Hsup.
  set (its := ((fun v => (quoted v, MkToken v None None)) <$> pos) ++ ((fun nv => (named_arg nv, named_token nv)) <$> named)).
  assert (Hits : Forall (reads un) its).
  { apply Forall_app. split; apply Forall_fmap, list.Forall_forall; intros x Hx; [by apply reads_quoted|].
    rewrite list.Forall_forall in Hn. by apply reads_named, Hn. }
  assert (E1 : (quoted <$> pos) ++ (named_arg <$> named) = its.*1) by (unfold its; by rewrite fmap_app, <- !list_fmap_compose).
  assert (E2 : its.*2 = ((fun v => MkToken v None None) <$> pos) ++ (named_token <$> named))
    by (unfold its; by rewrite fmap_app, <- !list_fmap_compose).
  destruct (line_arguments un s ws its Hp Hws Hits) as (Hs & Hh & Ha).
  unfold parse_command_args. rewrite E1, Hs, bool_decide_true, Ha by done.
  unfold _tokenize_command. rewrite tokenize_items; [|done|].
  - cbn [mbind result_bind]. rewrite E2, parameters_by_name_nodup by done. unfold bind_tokens.
    rewrite <- list_fmap_compose. change (fst ∘ _) with tp_name.
    rewrite foldM_app, sort_positional. cbn [mbind result_bind app].
    rewrite sort_named by (eapply list.Forall_impl; [exact Hn|]; by intros ? []). cbn [mbind result_bind app].
    rewrite length_fmap, bool_decide_false by lia. cbn [raise_if mbind result_bind].
    rewrite supply_named; [cbn [mbind result_bind]; rewrite bind_given; done|].
    by rewrite fst_zip_take.
  - clear -Hits. induction Hits as [|[t k] its ((c & r & E & _) & _) _ IH]; [cbn; lia|].
    rewrite fmap_cons, join_step. cbn [fst] in *. subst t. cbn [length app]. rewrite length_app.
    destruct its as [|it its]; [cbn; lia|]. rewrite fmap_cons in *. rewrite length_app. cbn [length] in *. lia.
Qed.
End Binding.

(** ** Instances *)

Definition search_tool : ToolSchema :=
  MkToolSchema (u "search") [] SYSTEM
    [a_parameter "query" "string"; a_parameter "max_results" "integer"; a_parameter "tags" "array"] []
    (Some (u "!memory search")) false true.

Lemma plain_text_verbatim_witness :
  exists ts, _tokenize_command no_unicode (u " don't {x} a=b ") = Ok ts
    /\ ct_text <$> ts = [u "don't"; u "{x}"; u "a=b"].
Proof.
  apply (plain_text_verbatim no_unicode (fun _ _ => eq_refl) (u " don't {x} a=b ")).
  change (py_split (u " don't {x} a=b ")) with [u "don't"; u "{x}"; u "a=b"].
  repeat constructor; vm_compute; intros name q r H; try discriminate H. by injection H as <- <- <-.
Defined.

Lemma command_errors_witness :
  parse_command_args no_unicode sample_limits search_tool (u "!memory search 'a") = Raise (CommandParseError "unbalanced quote")
  /\ command_error (ts_parameters search_tool) (CommandParseError "unbalanced quote").
Proof.
  assert (H : parse_command_args no_unicode sample_limits search_tool (u "!memory search 'a")
              = Raise (CommandParseError "unbalanced quote")) by (vm_compute; reflexivity).
  split; [exact H|]. exact (command_errors no_unicode sample_limits search_tool _ _ H).
Defined.

(** A value that holds a quote, a backslash and a space. *)
Definition odd_value : pystr := u "a " ++ [34] ++ u "b\ max_results=1".

Lemma quoted_values_bind_witness :
  parse_command_args no_unicode sample_limits search_tool
    (join (u " ") ([u "!memory"; u "search"] ++ (quoted <$> [odd_value])
       ++ (named_arg <$> [(u "tags", u "[1, 2]"); (u "max_results", u "30")])))
  = Ok [(u "query", FStr odd_value); (u "max_results", FInt 30); (u "tags", FTuple [FInt 1; FInt 2])].
Proof.
  refine (eq_trans (quoted_values_bind no_unicode sample_limits search_tool [u "!memory"; u "search"] [odd_value]
    [(u "tags", u "[1, 2]"); (u "max_results", u "30")] _ _ _ _ _ _) _).
  - reflexivity.
  - split; [repeat constructor; done|]. by exists (u "memory"), [u "search"].
  - apply (bool_decide_unpack _). vm_compute. exact I.
  - cbn. lia.
  - repeat apply list.Forall_cons_2; [..|apply list.Forall_nil_2]; (split;
      [split; [reflexivity|repeat constructor; vm_compute; done]|apply (bool_decide_unpack _); vm_compute; exact I]).
  - apply (bool_decide_unpack _). vm_compute. exact I.
  - vm_compute. reflexivity.
Defined.

(** The exceptions of [json.loads] on a long integer and on a deep array are
    no [CommandParseError]; the limits are 3 digits and 2 brackets here. *)
Lemma deep_value_escapes :
  _convert_command_value no_unicode (MkLimits 3 2) (a_parameter "ids" "array") (u "[[[]]]") = Raise too_deep_to_read.
Proof. vm_compute. reflexivity. Qed.

Lemma oversized_integer_escapes :
  _convert_command_value no_unicode (MkLimits 3 900) (a_parameter "ids" "array") (u "[1234]")
  = Raise (ValueError "Exceeds the limit for integer string conversion").
Proof. vm_compute. reflexivity. Qed.
