(* ===== verification/Artifacts.v ===== *)
(** * Artifacts ([kestrel_sdk/artifacts/models.py])

    Bundles of files, their manifests, publication requests and receipts.  A
    validated record is the one the constructor returns; its fields are
    checked in the order of their declaration. *)

From stdpp Require Import sorting.
From S2P Require Export UrlSplit ComputerUse FrozenJson.

(** ** Fields *)

Definition MEDIA_TYPE_RANGE (c : Z) : bool := is_digit c || is_lower c || mem c (u "!#$&^_.+-").

Definition MEDIA_TYPE : re :=
  let first := RChar (fun c => is_digit c || is_lower c) in
  let rest := RStar (RChar MEDIA_TYPE_RANGE) in
  RCat first (RCat rest (RCat (RLit (u "/")) (RCat first rest))).

Definition media_type_field (s : pystr) : res unit :=
  _ ← constraint (len s <=? 255) "string_too_long"; constraint (re_match MEDIA_TYPE s) "string_pattern_mismatch".

Definition title_field (s : pystr) : res pystr := wrap (non_empty_text (Inst s) "title").

Record ArtifactRef := MkRef { ar_artifact_id : pystr; ar_revision_id : pystr }.

Definition validate_ref (r : ArtifactRef) : res ArtifactRef :=
  a ← identifier (ar_artifact_id r); v ← identifier (ar_revision_id r); Ok (MkRef a v).

(** ** Paths *)

Definition starts_slash (s : pystr) : bool := bool_decide (head s = Some 47).

(** The parts of [PurePosixPath(s)] and the text of its parents. *)
Definition path_parts (s : pystr) : list pystr :=
  filter (fun p => p <> [] /\ p <> u ".") (split_char 47 s).

Definition path_text (absolute : bool) (parts : list pystr) : pystr :=
  match parts with
  | [] => if absolute then u "/" else u "."
  | _ => (if absolute then u "/" else []) ++ join (u "/") parts
  end.

Definition parents (s : pystr) : list pystr :=
  let parts := path_parts s in
  (fun n => path_text (starts_slash s) (take n parts)) <$> rev (seq 0 (length parts)).

(** The text before the first dot, without its trailing spaces. *)
Definition stem (part : pystr) : pystr :=
  rev (drop_while (Z.eqb 32) (rev (cut 46 part).1)).

Definition superscript_digits : list Z := [0xB9; 0xB2; 0xB3].

Definition _RESERVED_NAMES : list pystr :=
  [u "con"; u "prn"; u "aux"; u "nul"; u "conin$"; u "conout$"]
  ++ (p ← [u "com"; u "lpt"]; n ← seqZ 49 9 ++ superscript_digits; [p ++ [n]]).

Definition ends_with_dot (s : pystr) : bool := bool_decide (head (rev s) = Some 46).

Record ArtifactFile := MkFile {
  af_path : pystr; af_sha256 : pystr; af_size_bytes : Z; af_media_type : pystr }.

Record ArtifactManifest := MkManifest { am_files : list ArtifactFile; am_entrypoint : pystr }.

Record ArtifactProvenance := MkProvenance {
  pv_session_id : option pystr; pv_run_id : option pystr; pv_tool_name : option pystr }.

Record ArtifactCommit := MkCommit {
  ac_idempotency_key : pystr;
  ac_artifact_id : option pystr;
  ac_expected_revision_id : option pystr;
  ac_title : pystr;
  ac_manifest : ArtifactManifest;
  ac_provenance : ArtifactProvenance
}.

Record ArtifactRevision := MkRevision {
  av_ref : ArtifactRef;
  av_scope : ResourceScope;
  av_parent_revision_id : option pystr;
  av_title : pystr;
  av_manifest : ArtifactManifest;
  av_provenance : ArtifactProvenance;
  av_committed_at : datetime
}.

Inductive RepresentationKind : Type := KPdf | KThumbnail | KText | KPreview | KExport.

Record ArtifactRepresentation := MkRepresentation {
  rp_representation_id : pystr; rp_source : ArtifactRef; rp_kind : RepresentationKind; rp_file : ArtifactFile }.

Record ArtifactPage := MkPage { pg_items : list ArtifactRevision; pg_next_cursor : option pystr }.

Record PublicationReceipt := MkReceipt {
  pr_ref : ArtifactRef;
  pr_scope : ResourceScope;
  pr_idempotency_key : pystr;
  pr_manifest_sha256 : pystr;
  pr_request_sha256 : pystr;
  pr_committed_at : datetime;
  pr_storage_id : pystr
}.

Inductive ContextKind : Type := KConversation | KProject | KTask | KRun.

Record ArtifactLink := MkLink { ln_ref : ArtifactRef; ln_context_kind : ContextKind; ln_context_id : pystr }.

Inductive ExternalCapability : Type := XRead | XEdit | XExport.

Record ExternalArtifactReference := MkExternal {
  xr_provider_id : pystr; xr_connection_id : pystr; xr_object_id : pystr;
  xr_capabilities : list ExternalCapability }.

Definition bounded_text (limit : Z) (s : pystr) : res unit :=
  _ ← constraint (1 <=? len s) "string_too_short"; constraint (len s <=? limit) "string_too_long".

Definition aware (d : datetime) : res datetime :=
  if is_naive d then Raise (ValidationError "timezone_aware") else Ok d.

Section Artifacts.
(** [str.casefold] of a code point, [unicodedata.normalize("NFC", s)] and the
    hexadecimal SHA-256. *)
Variable fold_char : Z -> pystr.
Variable nfc : pystr -> pystr.
Variable sha256 : list Z -> pystr.

Definition casefold (s : pystr) : pystr := s ≫= fold_char.

Definition contained_path (value : pystr) : res pystr :=
  _ ← wrap (browser_safe_string (Inst value) "artifact path" 1024 false);
  let parts := split_char 47 value in
  _ ← raise_if
        (starts_slash value
         || mem 92 value
         || existsb (fun c => mem c value) (u ":*?" ++ [34] ++ u "<>|")
         || existsb (fun part => mem part [[]; u "."; u ".."]) parts
         || existsb (fun part => negb (bool_decide (part = strip part)) || ends_with_dot part) parts
         || existsb (fun part => mem (casefold (stem part)) _RESERVED_NAMES) parts
         || mem 0x200C value || mem 0x200D value
         || negb (bool_decide (nfc value = value)))
        (ValidationError "artifact path must be a contained relative POSIX path");
  Ok value.

Definition validate_file (f : ArtifactFile) : res ArtifactFile :=
  _ ← bounded_text 1024 (af_path f);
  p ← contained_path (af_path f);
  _ ← digest_field (af_sha256 f);
  _ ← non_negative (af_size_bytes f);
  _ ← media_type_field (af_media_type f);
  Ok (MkFile p (af_sha256 f) (af_size_bytes f) (af_media_type f)).

(** ** Manifests *)

Definition unique_complete_paths (m : ArtifactManifest) : res ArtifactManifest :=
  let paths := (fun f => casefold (af_path f)) <$> am_files m in
  _ ← raise_if (negb (no_dup paths)) (ValidationError "artifact manifest contains duplicate paths");
  _ ← raise_if (negb (mem (am_entrypoint m) (af_path <$> am_files m)))
        (ValidationError "artifact entrypoint must identify a manifest file");
  _ ← raise_if (existsb (fun path => existsb (fun parent => mem parent paths) (parents path)) paths)
        (ValidationError "artifact path cannot be both a file and directory");
  Ok m.

Definition validate_manifest (m : ArtifactManifest) : res ArtifactManifest :=
  _ ← constraint (1 <=? len (am_files m)) "too_short";
  _ ← constraint (len (am_files m) <=? 1024) "too_long";
  fs ← traverse validate_file (am_files m);
  unique_complete_paths (MkManifest fs (am_entrypoint m)).

Definition version_field : pystr * fjson := (u "schema_version", FInt 1).

Definition file_json (f : ArtifactFile) : fjson :=
  FMap [version_field; (u "path", FStr (af_path f)); (u "sha256", FStr (af_sha256 f));
        (u "size_bytes", FInt (af_size_bytes f)); (u "media_type", FStr (af_media_type f))].

(** [sorted(files, key=lambda item: item["path"])] *)
Definition path_le (a b : ArtifactFile) : Prop := str_le (af_path a) (af_path b).

#[global] Instance path_le_dec : RelDecision path_le.
Proof. intros a b. unfold path_le. apply _. Defined.

Definition manifest_payload (m : ArtifactManifest) : fjson :=
  FMap [version_field; (u "files", FTuple (file_json <$> merge_sort path_le (am_files m)));
        (u "entrypoint", FStr (am_entrypoint m))].

Definition manifest_digest (m : ArtifactManifest) : pystr := sha256 (sorted_json_bytes (manifest_payload m)).

(** ** Publication *)

Definition validate_provenance (p : ArtifactProvenance) : res ArtifactProvenance :=
  s ← opt_identifier (pv_session_id p);
  r ← opt_identifier (pv_run_id p);
  t ← opt_identifier (pv_tool_name p);
  Ok (MkProvenance s r t).

Definition compare_and_swap (c : ArtifactCommit) : res ArtifactCommit :=
  if xorb (bool_decide (ac_artifact_id c = None)) (bool_decide (ac_expected_revision_id c = None))
  then Raise (ValidationError "artifact updates require an explicit expected revision") else Ok c.

Definition validate_commit (c : ArtifactCommit) : res ArtifactCommit :=
  k ← identifier (ac_idempotency_key c);
  a ← opt_identifier (ac_artifact_id c);
  v ← opt_identifier (ac_expected_revision_id c);
  t ← title_field (ac_title c);
  m ← validate_manifest (ac_manifest c);
  p ← validate_provenance (ac_provenance c);
  compare_and_swap (MkCommit k a v t m p).

Definition opt_text (o : option pystr) : fjson := match o with Some s => FStr s | None => FNull end.

Definition provenance_json (p : ArtifactProvenance) : fjson :=
  FMap [version_field; (u "session_id", opt_text (pv_session_id p)); (u "run_id", opt_text (pv_run_id p));
        (u "tool_name", opt_text (pv_tool_name p))].

Definition commit_payload (c : ArtifactCommit) : fjson :=
  FMap [version_field; (u "idempotency_key", FStr (ac_idempotency_key c));
        (u "artifact_id", opt_text (ac_artifact_id c));
        (u "expected_revision_id", opt_text (ac_expected_revision_id c));
        (u "title", FStr (ac_title c)); (u "manifest", FStr (manifest_digest (ac_manifest c)));
        (u "provenance", provenance_json (ac_provenance c))].

Definition commit_digest (c : ArtifactCommit) : pystr := sha256 (sorted_json_bytes (commit_payload c)).

(** ** Revisions, receipts and references *)

Definition distinct_parent (r : ArtifactRevision) : res ArtifactRevision :=
  if bool_decide (av_parent_revision_id r = Some (ar_revision_id (av_ref r)))
  then Raise (ValidationError "artifact revision cannot be its own parent") else Ok r.

Definition validate_revision (r : ArtifactRevision) : res ArtifactRevision :=
  f ← validate_ref (av_ref r);
  s ← validate_scope (av_scope r);
  p ← opt_identifier (av_parent_revision_id r);
  t ← title_field (av_title r);
  m ← validate_manifest (av_manifest r);
  v ← validate_provenance (av_provenance r);
  d ← aware (av_committed_at r);
  distinct_parent (MkRevision f s p t m v d).

Definition validate_representation (r : ArtifactRepresentation) : res ArtifactRepresentation :=
  i ← identifier (rp_representation_id r);
  s ← validate_ref (rp_source r);
  f ← validate_file (rp_file r);
  Ok (MkRepresentation i s (rp_kind r) f).

Definition validate_page (p : ArtifactPage) : res ArtifactPage :=
  _ ← constraint (len (pg_items p) <=? 100) "too_long";
  items ← traverse validate_revision (pg_items p);
  _ ← match pg_next_cursor p with Some c => bounded_text 2048 c | None => Ok tt end;
  Ok (MkPage items (pg_next_cursor p)).

Definition validate_receipt (r : PublicationReceipt) : res PublicationReceipt :=
  f ← validate_ref (pr_ref r);
  s ← validate_scope (pr_scope r);
  k ← identifier (pr_idempotency_key r);
  _ ← digest_field (pr_manifest_sha256 r);
  _ ← digest_field (pr_request_sha256 r);
  d ← aware (pr_committed_at r);
  i ← identifier (pr_storage_id r);
  Ok (MkReceipt f s k (pr_manifest_sha256 r) (pr_request_sha256 r) d i).

Definition validate_link (l : ArtifactLink) : res ArtifactLink :=
  f ← validate_ref (ln_ref l);
  i ← identifier (ln_context_id l);
  Ok (MkLink f (ln_context_kind l) i).

Definition validate_external (x : ExternalArtifactReference) : res ExternalArtifactReference :=
  p ← identifier (xr_provider_id x);
  c ← identifier (xr_connection_id x);
  _ ← bounded_text 2048 (xr_object_id x);
  Ok (MkExternal p c (xr_object_id x) (xr_capabilities x)).
End Artifacts.
