(* ===== verification/ArtifactsProps.v ===== *)
(** * Artifacts: theorems

    An accepted manifest can be unpacked anywhere without leaving the target
    directory and without two files meeting; and the digest of a publication
    identifies it up to the order of its files. *)

From stdpp Require Import gmap sets sorting.
From S2P Require Export Artifacts ComputerUseProps ValidationProps.
From S2P Require Import FrozenJson.

(** ** Pieces of a text *)

Lemma split_on_app {A} (p : A -> bool) l x k : p x = true -> split_on p (l ++ x :: k) = split_on p l ++ split_on p k.
Proof.
  intros Hx. induction l as [|y l IH]; cbn [app split_on]; [by rewrite Hx|]. destruct (p y); [by rewrite IH|].
  rewrite IH. pose proof (split_on_not_nil p l). by destruct (split_on p l).
Qed.

Lemma join_split_char c s : join [c] (split_char c s) = s.
Proof.
  unfold split_char. induction s as [|x s IH]; [done|]. cbn [split_on].
  pose proof (split_on_not_nil (Z.eqb c) s) as Hn. destruct (Z.eqb_spec c x) as [<-|Hx].
  - destruct (split_on _ s) as [|w ws]; [done|]. cbn [join] in *. by rewrite IH.
  - destruct (split_on _ s) as [|w ws]; [done|]. destruct ws; cbn [join app] in *; by rewrite IH.
Qed.

Lemma split_char_no_slash s : Forall (fun part => part <> []) (split_char 47 s) -> starts_slash s = false.
Proof.
  unfold starts_slash. destruct s as [|c s]; [by intros _|]. unfold split_char. cbn [split_on]. intros H.
  apply bool_decide_eq_false. intros [= ->]. cbn in H. by apply list.Forall_cons in H as [? _].
Qed.

(** ** Contained paths *)

Section Props.
Context (fold_char : Z -> pystr) (nfc : pystr -> pystr).

(** What a file system may do with a part: nothing but name a file. *)
Definition ordinary_part (part : pystr) : Prop :=
  part <> [] /\ part <> u "." /\ part <> u ".." /\ part = strip part /\ ends_with_dot part = false
  /\ (casefold fold_char (stem part) ∉ _RESERVED_NAMES).

Definition contained (p : pystr) : Prop :=
  len p <= 1024 /\ starts_slash p = false /\ Forall ordinary_part (split_char 47 p)
  /\ Forall (fun c => unsafe_browser_codepoint c = false /\ (c ∉ u "\:*?<>|") /\ c <> 34) p /\ nfc p = p.

Lemma contained_path_Ok v v' : contained_path fold_char nfc v = Ok v' -> v' = v /\ contained v.
Proof.
  unfold contained_path. intros H. inv_ok. apply wrap_Ok, browser_safe_string_Ok in Hm as ([= <-] & _ & Hl & Hs).
  rewrite !orb_false_iff in Hm0.
  destruct Hm0 as ((((((((Hslash & Hback) & Hchars) & Hdots) & Hspace) & Hres) & _) & _) & Hnfc).
  apply existsb_false in Hchars, Hdots, Hspace, Hres. apply mem_false in Hback.
  split; [done|]. split_and!; [done|done| | |by apply negb_false_iff, bool_decide_eq_true in Hnfc].
  - rewrite list.Forall_forall in *. intros part Hp.
    specialize (Hdots _ Hp). specialize (Hspace _ Hp). specialize (Hres _ Hp). cbn beta in *.
    apply mem_false in Hdots, Hres. apply orb_false_iff in Hspace as [Hsp Hd].
    apply negb_false_iff, bool_decide_eq_true in Hsp. unfold ordinary_part. set_solver.
  - rewrite list.Forall_forall in *. intros c Hc. split; [by apply Hs|].
    assert (Hx : forall x, x ∈ u ":*?" ++ [34] ++ u "<>|" -> x <> c).
    { intros x Hx ->. specialize (Hchars _ Hx). cbn beta in Hchars. by apply mem_false in Hchars. }
    split; [|intros ->; apply (Hx 34); [rewrite !elem_of_app; right; left; by left|done]].
    intros Hin. change (u "\:*?<>|") with ([92] ++ u ":*?" ++ u "<>|") in Hin.
    rewrite !elem_of_app in Hin. destruct Hin as [Hin|[Hin|Hin]].
    + by apply list_elem_of_singleton in Hin as ->.
    + by eapply Hx; [rewrite !elem_of_app; by left|].
    + by eapply Hx; [rewrite !elem_of_app; right; by right|].
Qed.

(** ** Case folding of paths

    What the tables of [str.casefold] say of the two characters that matter
    in a path. *)
Hypothesis fold_slash : fold_char 47 = [47].
Hypothesis fold_part : forall c, c <> 47 -> fold_char c <> [] /\ (47 ∉ fold_char c).
Hypothesis fold_dot : forall c, c <> 46 -> 46 ∉ fold_char c.

Lemma fold_split s : split_char 47 (casefold fold_char s) = casefold fold_char <$> split_char 47 s.
Proof.
  unfold split_char. induction s as [|c s IH]; [done|].
  change (casefold fold_char (c :: s)) with (fold_char c ++ casefold fold_char s). cbn [split_on].
  pose proof (split_on_not_nil (Z.eqb 47) s) as Hn. destruct (Z.eqb_spec 47 c) as [<-|Hc].
  - rewrite fold_slash. cbn. by rewrite IH.
  - destruct (fold_part c) as [_ Hs]; [done|]. rewrite split_on_prefix, IH.
    + by destruct (split_on _ s).
    + apply forallb_forall. intros x Hx. apply negb_true_iff, Z.eqb_neq. intros <-. by apply Hs, list_elem_of_In.
Qed.

Lemma fold_ordinary part : 47 ∉ part -> ordinary_part part ->
  casefold fold_char part <> [] /\ casefold fold_char part <> u ".".
Proof.
  intros Hs (Hn & Hd & _). destruct part as [|c part]; [done|].
  change (casefold fold_char (c :: part)) with (fold_char c ++ casefold fold_char part).
  destruct (fold_part c) as [Hc _]; [set_solver|]. split; [by destruct (fold_char c)|]. intros E.
  change (u ".") with [46] in *. destruct (fold_char c) as [|x r] eqn:Ec; [done|]. injection E as -> E.
  assert (c = 46) as ->. { destruct (decide (c = 46)) as [|Hne]; [done|]. destruct (fold_dot c Hne). rewrite Ec. by left. }
  apply app_eq_nil in E as [_ E]. destruct part as [|d part]; [done|].
  change (casefold fold_char (d :: part)) with (fold_char d ++ casefold fold_char part) in E.
  destruct (fold_part d) as [Hx _]; [set_solver|]. by destruct (fold_char d).
Qed.

Lemma split_char_no c s part : part ∈ split_char c s -> c ∉ part.
Proof.
  unfold split_char. revert part. induction s as [|x s IH]; intros part; cbn [split_on].
  - intros ->%list_elem_of_singleton. by apply not_elem_of_nil.
  - pose proof (split_on_not_nil (Z.eqb c) s). destruct (Z.eqb_spec c x) as [<-|Hx].
    + intros [->|H']%list.elem_of_cons; [by apply not_elem_of_nil|by apply IH].
    + destruct (split_on _ s) as [|w ws]; [done|]. intros [->|H']%list.elem_of_cons.
      * assert (c ∉ w) by (apply IH; by left). set_solver.
      * apply IH. by right.
Qed.

Lemma folded_parts p : contained p ->
  path_parts (casefold fold_char p) = split_char 47 (casefold fold_char p)
  /\ starts_slash (casefold fold_char p) = false.
Proof.
  intros (_ & _ & Hp & _).
  assert (Hf : Forall (fun part => part <> [] /\ part <> u ".") (split_char 47 (casefold fold_char p))).
  { rewrite fold_split. apply Forall_fmap, list.Forall_forall. intros part Hin.
    rewrite list.Forall_forall in Hp. apply fold_ordinary; [by eapply split_char_no|by apply Hp]. }
  split.
  - unfold path_parts. apply filter_id. by rewrite list.Forall_forall in Hf.
  - apply split_char_no_slash. eapply list.Forall_impl; [exact Hf|]. by intros ? [].
Qed.

(** A file inside what another path names has it among its parents. *)
Lemma parent_of f g rest : contained f -> contained g ->
  casefold fold_char g = casefold fold_char f ++ u "/" ++ rest ->
  casefold fold_char f ∈ parents (casefold fold_char g).
Proof.
  intros Hf Hg E. destruct (folded_parts f Hf) as [Pf Sf], (folded_parts g Hg) as [Pg Sg].
  change (u "/") with [47] in E. cbn [app] in E.
  assert (Hs : split_char 47 (casefold fold_char g) = split_char 47 (casefold fold_char f) ++ split_char 47 rest).
  { rewrite E. unfold split_char. by apply split_on_app. }
  unfold parents. rewrite Sg, Pg, Hs. apply list_elem_of_fmap.
  exists (length (split_char 47 (casefold fold_char f))). rewrite take_app_length. split.
  - pose proof (join_split_char 47 (casefold fold_char f)) as Hj. unfold path_text.
    pose proof (split_on_not_nil (Z.eqb 47) (casefold fold_char f)) as Hn. fold (split_char 47 (casefold fold_char f)) in Hn.
    destruct (split_char 47 (casefold fold_char f)); [done|]. by rewrite <- Hj.
  - apply list_elem_of_In, in_rev. rewrite rev_involutive. apply in_seq. rewrite length_app.
    pose proof (split_on_not_nil (Z.eqb 47) rest) as Hn. unfold split_char. destruct (split_on _ rest); [done|]. cbn. lia.
Qed.

Lemma validate_file_Ok f f' : validate_file fold_char nfc f = Ok f' ->
  f' = f /\ contained (af_path f) /\ image_digest (af_sha256 f) = true /\ 0 <= af_size_bytes f
  /\ len (af_media_type f) <= 255 /\ re_match MEDIA_TYPE (af_media_type f) = true.
Proof.
  unfold validate_file, digest_field, non_negative, media_type_field. intros H. inv_ok.
  repeat match goal with H : constraint _ _ = Ok _ |- _ => apply constraint_Ok in H end.
  match goal with H : contained_path _ _ _ = Ok _ |- _ => apply contained_path_Ok in H as [-> ?] end.
  split; [by destruct f|]. split_and!; try done; lia.
Qed.

(** What is known of an accepted manifest. *)
Record manifest_ok (m : ArtifactManifest) : Prop := MkManifestOk {
  mo_count : 1 <= len (am_files m) <= 1024;
  mo_files : Forall (fun f => validate_file fold_char nfc f = Ok f) (am_files m);
  mo_entry : am_entrypoint m ∈ af_path <$> am_files m;
  mo_unique : NoDup ((fun f => casefold fold_char (af_path f)) <$> am_files m);
  mo_parents : forall f g, f ∈ am_files m -> g ∈ am_files m ->
    casefold fold_char (af_path f) ∉ parents (casefold fold_char (af_path g))
}.

Lemma validate_manifest_Ok m m' : validate_manifest fold_char nfc m = Ok m' -> m' = m /\ manifest_ok m.
Proof.
  unfold validate_manifest. intros H. apply bind_Ok in H as (? & Hc1%constraint_Ok & H).
  apply bind_Ok in H as (? & Hc2%constraint_Ok & H). apply bind_Ok in H as (fs & Hfs & H).
  assert (Hf : fs = am_files m /\ Forall (fun f => validate_file fold_char nfc f = Ok f) (am_files m)).
  { clear Hc1 Hc2 H. apply traverse_Ok in Hfs. induction Hfs as [|f f' l l' Hf _ [-> IH]]; [done|].
    apply validate_file_Ok in Hf as Hf'. destruct Hf' as [-> _]. by split; [|constructor]. }
  destruct Hf as [-> Hf]. unfold unique_complete_paths in H. cbn [am_files am_entrypoint] in H.
  apply bind_Ok in H as (? & Hu%raise_if_Ok%negb_false_iff%no_dup_true & H).
  apply bind_Ok in H as (? & He%raise_if_Ok%negb_false_iff%mem_true & H).
  apply bind_Ok in H as (? & Hp%raise_if_Ok & [= <-]).
  split; [by destruct m|]. split; [lia|done|done|done|]. intros f g Hfm Hgm Hin.
  apply existsb_false in Hp. rewrite Forall_fmap, list.Forall_forall in Hp. specialize (Hp g Hgm). cbn beta in Hp.
  apply existsb_false in Hp. rewrite list.Forall_forall in Hp. specialize (Hp _ Hin). apply mem_false in Hp.
  apply Hp. apply list_elem_of_fmap. by exists f.
Qed.

(** C9. An accepted manifest can be unpacked into a directory of any file system,
    case-insensitive ones included.  It comes back unchanged, its entrypoint is
    one of its files, and every path is contained: relative, of non-empty
    parts, none of them a dot, two dots or a reserved name, without characters
    a file system gives a meaning to.  Two files never meet: their folded
    paths differ, and neither lies inside the other. *)
Theorem manifest_unpacks_safely m m' : validate_manifest fold_char nfc m = Ok m' ->
  m' = m /\ am_entrypoint m ∈ af_path <$> am_files m
  /\ Forall (fun f => contained (af_path f)) (am_files m)
  /\ forall i j f g, am_files m !! i = Some f -> am_files m !! j = Some g -> i <> j ->
       casefold fold_char (af_path f) <> casefold fold_char (af_path g)
       /\ forall rest, casefold fold_char (af_path g) <> casefold fold_char (af_path f) ++ u "/" ++ rest.
Proof.
  intros H. apply validate_manifest_Ok in H as [-> [_ Hf He Hu Hp]].
  assert (Hc : Forall (fun f => contained (af_path f)) (am_files m)).
  { eapply list.Forall_impl; [exact Hf|]. intros f Hv. by apply validate_file_Ok in Hv as (_ & ? & _). }
  split_and!; [done|done|done|]. intros i j f g Hi Hj Hne. split.
  - intros E. apply Hne. eapply NoDup_lookup; [exact Hu|rewrite list_lookup_fmap, Hi; done|].
    rewrite list_lookup_fmap, Hj. cbn. by rewrite E.
  - intros rest E. apply list_elem_of_lookup_2 in Hi, Hj. rewrite list.Forall_forall in Hc.
    apply (Hp f g Hi Hj). eapply parent_of; [by apply Hc|by apply Hc|exact E].
Qed.
End Props.

(** ** Digests *)

(** Text as Python strings hold it. *)
Definition text_range (s : pystr) : Prop := Forall code_point s.

Lemma safe_scalar s : text_range s -> Forall (fun c => unsafe_browser_codepoint c = false) s -> Forall scalar_value s.
Proof.
  unfold text_range. rewrite !list.Forall_forall. intros Hr Hs c Hc. split; [by apply Hr|].
  specialize (Hs c Hc). destruct (is_surrogate c) eqn:Hx; [|done].
  rewrite spoofing_unsafe in Hs; [done|]. unfold is_surrogate, in_range in Hx. unfold spoofing. lia.
Qed.

#[export] Instance path_le_trans : Transitive path_le.
Proof. intros a b c. unfold path_le. apply transitivity. Qed.
#[export] Instance path_le_total : Total path_le.
Proof. intros a b. unfold path_le. apply total, _. Qed.

Lemma sorted_files_perm fs gs : NoDup (af_path <$> fs) ->
  merge_sort path_le fs = merge_sort path_le gs <-> fs ≡ₚ gs.
Proof.
  intros Hn. split.
  - intros E. by rewrite <- (merge_sort_Permutation path_le fs), E, merge_sort_Permutation.
  - intros Hp. apply (StronglySorted_unique_strong path_le).
    + intros f g Hf Hg Hle Hge. rewrite merge_sort_Permutation in Hf, Hg. rewrite <- Hp in Hg.
      apply list_elem_of_lookup in Hf as [i Hi], Hg as [j Hj].
      assert (i = j) as ->; [|congruence]. eapply NoDup_lookup; [exact Hn|by rewrite list_lookup_fmap, Hi|].
      rewrite list_lookup_fmap, Hj. cbn. f_equal. by apply (anti_symm str_le).
    + apply StronglySorted_merge_sort; apply _.
    + apply StronglySorted_merge_sort; apply _.
    + by rewrite !merge_sort_Permutation.
Qed.

Section Digests.
Context (fold_char : Z -> pystr) (nfc : pystr -> pystr) (sha256 : list Z -> pystr).

Lemma media_type_ascii s : re_match MEDIA_TYPE s = true -> ascii_text s.
Proof.
  rewrite re_match_lang. unfold MEDIA_TYPE. intros H.
  assert (Hr : forall c, MEDIA_TYPE_RANGE c = true -> 0 <= c < 128).
  { intros c Hc. unfold MEDIA_TYPE_RANGE, is_digit, is_lower, in_range in Hc. apply orb_true_iff in Hc as [Hc|Hc]; [lia|].
    apply mem_true in Hc. change (u "!#$&^_.+-") with [33; 35; 36; 38; 94; 95; 46; 43; 45] in Hc.
    rewrite !list.elem_of_cons, elem_of_nil in Hc. lia. }
  assert (Hx : forall c, is_digit c || is_lower c = true -> 0 <= c < 128).
  { intros c Hc. unfold is_digit, is_lower, in_range in Hc. lia. }
  apply cat_lang_iff in H as (? & ? & -> & (c & -> & Hc)%char_lang & H).
  apply cat_lang_iff in H as (? & ? & -> & Hs%star_char_lang & H).
  apply cat_lang_iff in H as (? & ? & -> & ->%lit_lang & H).
  apply cat_lang_iff in H as (? & ? & -> & (d & -> & Hd)%char_lang & Hs'%star_char_lang).
  unfold ascii_text. rewrite !Forall_app. split_and!.
  - constructor; [auto|constructor].
  - eapply list.Forall_impl; [exact Hs|auto].
  - by apply ascii_literal.
  - constructor; [auto|constructor].
  - eapply list.Forall_impl; [exact Hs'|auto].
Qed.

Lemma image_digest_ascii s : image_digest s = true -> ascii_text s.
Proof.
  unfold image_digest. intros H. apply andb_true_iff in H as [_ H]. apply list.Forall_forall. intros c Hc.
  rewrite forallb_forall in H. apply list_elem_of_In in Hc. specialize (H c Hc).
  unfold is_hex_lower, is_digit, in_range in H. lia.
Qed.

Lemma wire_text s : Forall scalar_value s -> wire_json (FStr s).
Proof. done. Qed.

Lemma file_wire f : validate_file fold_char nfc f = Ok f -> text_range (af_path f) -> wire_json (file_json f).
Proof.
  intros Hf Ht. apply validate_file_Ok in Hf as (_ & Hc & Hd & _ & _ & Hm).
  assert (Hs : Forall (fun c => unsafe_browser_codepoint c = false) (af_path f)).
  { destruct Hc as (_ & _ & _ & Hc & _). eapply list.Forall_impl; [exact Hc|]. by intros c (? & _). }
  apply wire_object; [reflexivity|]. repeat (apply list.Forall_cons; split); try exact I; try constructor.
  - apply wire_text. by apply safe_scalar.
  - apply wire_str. by apply image_digest_ascii.
  - apply wire_str. by apply media_type_ascii.
Qed.

Definition manifest_text (m : ArtifactManifest) : Prop := Forall (fun f => text_range (af_path f)) (am_files m).

Lemma manifest_wire m : manifest_ok fold_char nfc m -> manifest_text m -> wire_json (manifest_payload m).
Proof.
  intros [_ Hf He _ _] Ht. unfold manifest_text in Ht. rewrite list.Forall_forall in Hf, Ht.
  apply wire_object; [reflexivity|]. repeat (apply list.Forall_cons; split); try exact I; try constructor.
  - apply everywhere_tuple, Forall_fmap. rewrite merge_sort_Permutation. apply list.Forall_forall.
    intros f Hin. apply file_wire; auto.
  - apply wire_text. apply list_elem_of_fmap in He as (f & -> & Hin).
    specialize (Hf f Hin). apply validate_file_Ok in Hf as (_ & (_ & _ & _ & Hc & _) & _). apply safe_scalar; [by apply Ht|].
    eapply list.Forall_impl; [exact Hc|]. by intros c (? & _).
Qed.

Lemma file_json_inj f g : sort_keys (file_json f) = sort_keys (file_json g) -> f = g.
Proof.
  intros H. apply sort_keys_members in H; [|done|by apply (bool_decide_unpack _); vm_compute].
  rewrite !list.Forall2_cons in H. cbn [snd sort_keys] in H. destruct H as (_ & H1 & H2 & H3 & H4 & _).
  injection H1 as H1. injection H2 as H2. injection H3 as H3. injection H4 as H4. destruct f, g; cbn in *. congruence.
Qed.

Lemma files_json_inj fs gs :
  sort_keys (FTuple (file_json <$> fs)) = sort_keys (FTuple (file_json <$> gs)) -> fs = gs.
Proof.
  assert (Hi : Inj (=) (=) (sort_keys ∘ file_json)) by (intros f g; apply file_json_inj).
  cbn [sort_keys]. intros [= H]. change (map sort_keys) with (fmap (M := list) sort_keys) in H.
  rewrite <- !list_fmap_compose in H. by apply (inj (fmap (sort_keys ∘ file_json))) in H.
Qed.

(** The same files, whatever their order, and the same entrypoint. *)
Definition same_manifest (m m' : ArtifactManifest) : Prop :=
  am_files m ≡ₚ am_files m' /\ am_entrypoint m = am_entrypoint m'.

Lemma manifest_encoding_exact m m' :
  manifest_ok fold_char nfc m -> manifest_ok fold_char nfc m' -> manifest_text m -> manifest_text m' ->
  sorted_json_bytes (manifest_payload m) = sorted_json_bytes (manifest_payload m') <-> same_manifest m m'.
Proof.
  intros Hm Hm' Ht Ht'.
  assert (Hn : NoDup (af_path <$> am_files m)).
  { destruct Hm as [_ _ _ Hu _]. rewrite (list_fmap_compose af_path (casefold fold_char)) in Hu. by eapply NoDup_fmap_1. }
  unfold same_manifest. split.
  - intros H. apply sorted_json_bytes_inj in H; [|apply plain_sort_keys; by apply manifest_wire..].
    apply sort_keys_members in H; [|done|by apply (bool_decide_unpack _); vm_compute].
    rewrite !list.Forall2_cons in H. cbn [snd] in H. destruct H as (_ & Hf & He & _).
    apply files_json_inj in Hf. cbn in He. injection He as He. split; [by apply sorted_files_perm|done].
  - intros [Hp He]. unfold manifest_payload. by rewrite (proj2 (sorted_files_perm _ _ Hn) Hp), He.
Qed.

Record commit_ok (c : ArtifactCommit) : Prop := MkCommitOk {
  co_key : well_formed_token (ac_idempotency_key c);
  co_artifact : forall s, ac_artifact_id c = Some s -> well_formed_token s;
  co_expected : forall s, ac_expected_revision_id c = Some s -> well_formed_token s;
  co_title : well_formed_text (ac_title c);
  co_manifest : manifest_ok fold_char nfc (ac_manifest c);
  co_session : forall s, pv_session_id (ac_provenance c) = Some s -> well_formed_token s;
  co_run : forall s, pv_run_id (ac_provenance c) = Some s -> well_formed_token s;
  co_tool : forall s, pv_tool_name (ac_provenance c) = Some s -> well_formed_token s;
  co_swap : ac_artifact_id c = None <-> ac_expected_revision_id c = None
}.

Lemma validate_commit_Ok c c' : validate_commit fold_char nfc c = Ok c' -> c' = c /\ commit_ok c.
Proof.
  unfold validate_commit, validate_provenance, title_field. intros H.
  apply bind_Ok in H as (k & [-> Hk]%identifier_Ok & H). apply bind_Ok in H as (a & [-> Ha]%opt_identifier_Ok & H).
  apply bind_Ok in H as (v & [-> Hv]%opt_identifier_Ok & H).
  apply bind_Ok in H as (t & Ht & H). apply wrap_Ok, non_empty_text_Ok in Ht as [[= <-] Ht].
  apply bind_Ok in H as (m & [-> Hm]%validate_manifest_Ok & H). apply bind_Ok in H as (p & Hp & H).
  apply bind_Ok in Hp as (s & [-> Hs]%opt_identifier_Ok & Hp). apply bind_Ok in Hp as (r & [-> Hr]%opt_identifier_Ok & Hp).
  apply bind_Ok in Hp as (n & [-> Hn]%opt_identifier_Ok & [= <-]).
  unfold compare_and_swap in H. cbn [ac_artifact_id ac_expected_revision_id] in H.
  destruct (xorb _ _) eqn:Hx; [done|]. injection H as <-. apply xorb_eq in Hx.
  split; [by destruct c as [? ? ? ? ? []]|]. split; try done.
  rewrite <- (bool_decide_eq_true (ac_artifact_id c = None)), Hx. apply bool_decide_eq_true.
Qed.

Record same_commit (c c' : ArtifactCommit) : Prop := MkSameCommit {
  sm_key : ac_idempotency_key c = ac_idempotency_key c';
  sm_artifact : ac_artifact_id c = ac_artifact_id c';
  sm_expected : ac_expected_revision_id c = ac_expected_revision_id c';
  sm_title : ac_title c = ac_title c';
  sm_manifest : same_manifest (ac_manifest c) (ac_manifest c');
  sm_provenance : ac_provenance c = ac_provenance c'
}.

Lemma opt_text_json o : opt_text o = opt_json FStr o.
Proof. by destruct o. Qed.

Lemma provenance_wire c : commit_ok c -> wire_json (provenance_json (ac_provenance c)).
Proof.
  intros [_ _ _ _ _ Hs Hr Ht _]. apply wire_object; [reflexivity|].
  repeat (apply list.Forall_cons; split); try exact I; try constructor.
  all: cbn [snd]; rewrite opt_text_json; apply wire_opt_str; eauto using token_ascii.
Qed.

Lemma provenance_inj p p' : sort_keys (provenance_json p) = sort_keys (provenance_json p') -> p = p'.
Proof.
  intros H. apply sort_keys_members in H; [|done|by apply (bool_decide_unpack _); vm_compute].
  rewrite !list.Forall2_cons in H. cbn [snd] in H. rewrite !opt_text_json in H. destruct H as (_ & H1 & H2 & H3 & _).
  apply opt_json_inj in H1, H2, H3. destruct p, p'; cbn in *. congruence.
Qed.

Lemma commit_wire c : commit_ok c -> text_range (ac_title c) -> ascii_text (manifest_digest sha256 (ac_manifest c)) ->
  wire_json (commit_payload sha256 c).
Proof.
  intros Hc Ht Hd. pose proof (provenance_wire c Hc) as Hp. destruct Hc as [Hk Ha He Hti _ _ _ _ _].
  apply wire_object; [reflexivity|]. repeat (apply list.Forall_cons; split); try exact I; try apply list.Forall_nil_2.
  - by apply wire_str, token_ascii.
  - cbn [snd]. rewrite opt_text_json. apply wire_opt_str. eauto using token_ascii.
  - cbn [snd]. rewrite opt_text_json. apply wire_opt_str. eauto using token_ascii.
  - apply wire_text, safe_scalar; [done|]. apply Hti.
  - by apply wire_str.
  - done.
Qed.

(** C34. The digest of a publication request binds everything it asks for: two
    valid requests whose encodings do not collide under SHA-256 have the same
    digest exactly when they agree on the idempotency key, the compare-and-swap
    target, the title, the provenance, the entrypoint and the set of files with
    their contents; the order of the files does not matter. *)
Theorem commit_digest_binds c c' :
  validate_commit fold_char nfc c = Ok c -> validate_commit fold_char nfc c' = Ok c' ->
  manifest_text (ac_manifest c) -> manifest_text (ac_manifest c') ->
  text_range (ac_title c) -> text_range (ac_title c') ->
  ascii_text (manifest_digest sha256 (ac_manifest c)) -> ascii_text (manifest_digest sha256 (ac_manifest c')) ->
  (forall t t', (t, t') ∈ [(manifest_payload (ac_manifest c), manifest_payload (ac_manifest c'));
                           (commit_payload sha256 c, commit_payload sha256 c')] ->
     sha256 (sorted_json_bytes t) = sha256 (sorted_json_bytes t') -> sorted_json_bytes t = sorted_json_bytes t') ->
  commit_digest sha256 c = commit_digest sha256 c' <-> same_commit c c'.
Proof.
  intros [_ V]%validate_commit_Ok [_ V']%validate_commit_Ok M M' T T' A A' Hsha. split.
  - intros H. apply Hsha in H; [|right; by left].
    apply sorted_json_bytes_inj in H; [|apply plain_sort_keys; by apply commit_wire..].
    apply sort_keys_members in H; [|done|by apply (bool_decide_unpack _); vm_compute].
    rewrite !list.Forall2_cons in H. cbn [snd] in H. rewrite !opt_text_json in H.
    destruct H as (_ & Hk & Ha & He & Ht & Hm & Hp & _).
    apply opt_json_inj in Ha, He. apply provenance_inj in Hp. injection Hk as Hk. injection Ht as Ht. injection Hm as Hm.
    apply Hsha in Hm; [|by left].
    split; try done. by apply manifest_encoding_exact in Hm; [|apply V|apply V'|..].
  - intros [H1 H2 H3 H4 H5 H6]. unfold commit_digest, commit_payload. rewrite H1, H2, H3, H4, H6.
    do 2 f_equal. unfold manifest_digest.
    by rewrite (proj2 (manifest_encoding_exact _ _ (co_manifest _ V) (co_manifest _ V') M M') H5).
Qed.
End Digests.

(** ** Instances *)

Definition fold_ascii_char (c : Z) : pystr := if is_upper c then [c + 32] else [c].
Definition file_a : ArtifactFile := MkFile (u "src/App.js") (replicate 64 97) 12 (u "text/javascript").
Definition file_b : ArtifactFile := MkFile (u "index.html") (replicate 64 98) 7 (u "text/html").
Definition bundle (fs : list ArtifactFile) : ArtifactCommit :=
  MkCommit (u "key-1") None None (u "A page") (MkManifest fs (u "index.html")) (MkProvenance None (Some (u "run-1")) None).

Lemma manifest_unpacks_safely_witness :
  casefold fold_ascii_char (af_path file_a) <> casefold fold_ascii_char (af_path file_b)
  /\ forall rest, casefold fold_ascii_char (af_path file_b) <> casefold fold_ascii_char (af_path file_a) ++ u "/" ++ rest.
Proof.
  refine (proj2 (proj2 (proj2 (manifest_unpacks_safely fold_ascii_char (fun s => s) _ _ _
    (MkManifest [file_a; file_b] (u "index.html")) (MkManifest [file_a; file_b] (u "index.html")) _)))
    0%nat 1%nat file_a file_b _ _ _); [reflexivity| | |vm_compute; reflexivity|reflexivity|reflexivity|discriminate].
  - intros c Hc. unfold fold_ascii_char, is_upper, in_range. destruct (_ && _) eqn:E; (split; [done|]);
      intros ->%list_elem_of_singleton || intros H%list_elem_of_singleton; lia.
  - intros c Hc. unfold fold_ascii_char, is_upper, in_range. destruct (_ && _) eqn:E;
      intros H%list_elem_of_singleton; lia.
Defined.

Lemma commit_digest_binds_witness :
  commit_digest (fun b => b) (bundle [file_a; file_b]) = commit_digest (fun b => b) (bundle [file_b; file_a]).
Proof.
  refine (proj2 (commit_digest_binds fold_ascii_char (fun s => s) (fun b => b) (bundle [file_a; file_b])
    (bundle [file_b; file_a]) _ _ _ _ _ _ _ _ _) _).
  - vm_compute. reflexivity.
  - vm_compute. reflexivity.
  - repeat (apply list.Forall_cons; split); try apply list.Forall_nil_2;
      unfold text_range, code_point; apply (bool_decide_unpack _); vm_compute; exact I.
  - repeat (apply list.Forall_cons; split); try apply list.Forall_nil_2;
      unfold text_range, code_point; apply (bool_decide_unpack _); vm_compute; exact I.
  - unfold text_range, code_point; apply (bool_decide_unpack _); vm_compute; exact I.
  - unfold text_range, code_point; apply (bool_decide_unpack _); vm_compute; exact I.
  - unfold ascii_text; apply (bool_decide_unpack _); vm_compute; exact I.
  - unfold ascii_text; apply (bool_decide_unpack _); vm_compute; exact I.
  - intros t t' _ H. exact H.
  - split; try reflexivity. split; [|reflexivity]. cbn. apply Permutation_swap.
Defined.
